(* ===== verification/_CoqProject ===== *)
-Q . S2P
Prelude.v
Nrf24l01.v
Nrf24l01Bus.v
NrfInterface.v
NrfBasic.v
NrfSetup.v
NrfLink.v
NrfProps.v
RttRing.v
RttFacts.v
RttProps.v
ChKernel.v
ChSched.v
ChEvents.v
ChProps.v
ChMutex.v
ChMutexFacts.v
ChMutexOps.v
ChMutexProps.v
AppThreads.v
AppFacts.v
AppMutex.v
AppSteps.v
AppProps.v
Ds5.v
Monitor.v
IpAddr.v
Net.v
Shell.v
ShellProps.v
UdpShared.v
W25qxx.v
W25qxxOps.v
W25qxxProps.v
FlashPort.v
FlashPortProps.v
Fal.v
FalProps.v
FdbUtils.v
FdbProps.v
ChPrintf.v
ChPrintfProps.v
RttStream.v
RttStreamProps.v
Console.v
KvData.v
KvRead.v
KvWrite.v
KvApi.v
KvFlash.v
KvNode.v
KvBurn.v
KvPower.v
KvCache.v
KvLost.v
KvProgram.v
KvGet.v
TsData.v
TsDb.v
TsIter.v
TsFlash.v
TsLog.v
TsSector.v
TsAppend.v
TsSpec.v
TsRefine.v
TsVisit.v
TsReverse.v
TsLoad.v
TsTime.v
TsCut.v
TsProps.v
TsPower.v
TsStatus.v
