(* ===== verification/Prelude.v ===== *)
(** * ds-eth-comm: a verification development

    The program runs on an STM32H7 board under ChibiOS.  It reads a DualSense controller over
    USB, publishes its state, and sends it on over an nRF24L01 radio and over UDP; it logs
    through SEGGER RTT, has a shell for its settings, and carries a driver for a W25Qxx flash
    for FlashDB, whose start is commented out in src/main.c.

    This library models the program's own code and the pieces of its vendored code that its
    state lives on, as executable definitions with the source's names, and proves what
    makes them correct.  A C function is a computation of the monad [M] of this file: state
    in, a result and a state out, or a [fault] where the C standard gives no meaning (a
    call through a null pointer, an access out of bounds, a byte nobody wrote).  Machine
    integers are [Z] with their wrap-around written out ([u8], [u16], [u32]).  [wp] is
    total correctness: no fault, and the post-condition.

    ** The parts

    - The radio (src/src/nrf24l01).  [Nrf24l01.v] is the driver over a handle of hooks,
      [NrfInterface.v] the program's hooks over HAL calls, [NrfBasic.v] the layer main.c calls.
      [Nrf24l01Bus.v] states the register file the driver needs as a class ([RegBus]) and
      handles every setting as a field of a register; [NrfInterface.v] derives that class
      from the chip's data sheet ([SpiChip]).  [NrfSetup.v], [NrfLink.v] and [NrfProps.v] prove
      round trips of all settings, the start-up sequence, the outcome of a send against the
      interrupt, and the interrupt handler's safety.
    - The log (src/src/RTT/SEGGER_RTT.c).  [RttRing.v] is the control block with its rings and
      the host that drains them; [RttFacts.v] and [RttProps.v] refine an up-buffer to a bounded
      queue and prove termination, framing, and the faults of unguarded calls.
    - The console (src/src/RTT/SEGGER_RTT_Channel.c, ChibiOS's chprintf.c).  [RttStream.v] is
      the terminal as a channel, [ChPrintf.v] the formatted output on any stream.
      [ChPrintfProps.v] refines it to a reference meaning of formats, and
      [RttStreamProps.v] composes the two: what the host sees of a line, and what a reader gets
      of the keys.  [Console.v] composes them with the shell: every message's format fits its
      arguments, and printed numbers read back.
    - The kernel under the threads (ChibiOS os/rt).  [ChKernel.v] has the ready list, thread
      creation and event sources on a heap of linked cells; [ChSched.v], [ChEvents.v] and
      [ChProps.v] refine the scheduler to one ordered list and show that broadcasts reach
      their listeners and no event is lost.
    - The kernel's mutexes (chmtx.c).  [ChMutex.v] has their operations over the scheduler,
      [ChMutexFacts.v] the invariant of queues, owners and priorities and the loop that passes
      a priority on, [ChMutexOps.v] each operation against it, [ChMutexProps.v] that priorities are
      inherited in every reachable state and that unlocking hands a mutex over.
      [UdpShared.v] runs main.c's accesses to the UDP destination byte by byte under
      their mutex, in any interleaving, and proves them atomic, which is how [Net.v] has them.
    - The threads (src/main.c).  [AppThreads.v] gives each thread as its sequence of kernel
      calls, the mutex of the UDP destination with them, as a step relation with interrupts;
      [AppFacts.v] has what holds of threads and event sources in every reachable state,
      [AppMutex.v] what holds of the mutex, [AppSteps.v] that every step keeps both, and
      [AppProps.v] the results: the one kernel call that faults is the shell's unlocking of the
      mutex before the network thread has initialised it, reports reach both consumers, the
      radio's interrupt reaches nobody.
    - The controller's reports (src/main.c).  [Ds5.v]: layouts, parsing, the double buffer and
      the consumers' byte by byte snapshots.
    - The thread monitor (src/main.c).  [Monitor.v]: the loop statistics on a 32-bit clock.
    - The network settings (src/main.c, lwIP, ChibiOS's binding).  [IpAddr.v]: address text;
      [Net.v]: the interface's addresses, the UDP destination and the datagrams.
    - The shell (src/main.c).  [Shell.v]: the commands, over the radio and the network;
      [ShellProps.v] proves them against an interface of the radio ([RadioBus]).
    - The flash (src/src/w25qxx, src/src/flashdb/fdb_port.c).  [W25qxx.v] has the parts the
      driver's functions share on its three kinds of bus, and its writing loops; [W25qxxOps.v]
      the public functions; [W25qxxProps.v] proves writing, reading and erasing against the
      data sheet's chip ([FlashChip]).  [FlashPort.v] is the program's SPI interface and the
      port to the flash abstraction layer; [FlashPortProps.v] derives [FlashChip] from a chip on
      the SPI for the transfers the interface can make, and shows that this does not
      include writing.
    - The storage above the flash (src/src/flashdb).  [Fal.v] is the flash abstraction layer
      with the program's device and partition, [FalProps.v] proves that accesses stay in
      the partition.  [FdbUtils.v] is FlashDB's low level and the start of a database,
      [FdbProps.v] proves its checksum and its status tables.
    - The key-value store (src/src/flashdb/src/fdb_kvdb.c, fdb.c, fdb_port.c).  [KvData.v] has its
      structures and its two caches, [KvRead.v] reading, iterating and searching, [KvWrite.v]
      allocation, garbage collection, creating and deleting, [KvApi.v] the public functions,
      the recovery at the start and the port's wrappers.  [KvFlash.v] states what the store
      needs of its flash as a class ([PartFlash]): bytes that programming clears and erasing sets,
      with a budget of bytes after which the power is cut.  [KvNode.v] and [KvBurn.v] have the
      bytes of a stored value and the order they are programmed in, [KvPower.v] proves that
      replacing a value survives a power cut at any byte.  [KvCache.v] proves the cache of KVs a
      bounded map, [KvGet.v] that a value that is set is got back through it.  [KvLost.v] and [KvProgram.v] put the
      store on the program's port, which is a [PartFlash] without any budget: it starts and
      keeps nothing.
    - The time series store (src/src/flashdb/src/fdb_tsdb.c, which the program does not use).
      [TsData.v] has its structures, [TsDb.v] reading, formatting and appending, [TsIter.v] the
      iterators, the query and the start.  On a [PartFlash] with power, [TsFlash.v], [TsLog.v],
      [TsSector.v] and [TsAppend.v] have the accesses, the bytes of a sector, and their reading and
      writing.  [TsSpec.v] is what the store promises, a ring of sectors of logs ([abs_append]);
      [TsRefine.v] refines the append to it, [TsVisit.v] and [TsReverse.v] the iterators, [TsLoad.v]
      the start and the formatting, [TsTime.v] the binary search, and [TsProps.v] has the results:
      appends do what the ring says, a start finds the ring again, iterators and queries see its
      logs.  [TsCut.v] has the bytes of an append in the order they are programmed in,
      [TsPower.v] proves that a power cut at any of them loses no other log, and shows what the
      torn index does to later queries.  [TsStatus.v] proves the marking of a log.

    How they meet: the driver of the radio and that of the flash see their hardware
    through a record of hooks, and their theorems use a class of laws of those hooks, which
    the interface files discharge for the program's hooks from laws of the HAL calls.  The
    HAL and the chips are parameters, and each
    set of laws has a small concrete chip that satisfies it and on which the witnesses run.

    ** Bounds and fuel

    Loops that the C code ends by a counter recurse on it (polling and waiting loops, with the
    code's own time limits).  The others carry fuel, and running out of it is the fault
    [Diverged]; the theorems show that it never happens: a turn for each page and one
    more for [write_pages], a turn for each sector and one more for [write_sectors] and
    [erase_loop], the length of the list for the kernel's list walks, a turn for each thread
    (each is raised once) for the priority inheritance, a schedule of the host's
    moves for the blocking writers of RTT.  The walks of the key-value store have a turn for each
    sector, and inside a sector a turn for each byte; the [goto] of its loading, which the
    code does not bound, has the bound [retries].  Those of the time series store
    have a turn for each sector, for each index of 16 bytes of the database, and 64 for the binary
    search, which halves a 32-bit interval.

    ** Not modelled

    - USB host, Ethernet, lwIP's protocols, DHCP, the HAL and the kernel's ports: I/O and
      protocol code the sources only call.
    - Of the kernel: timeouts, semaphores, condition variables, messages, the registry; in the
      threads of [AppThreads.v] the mutexes of the drivers' buses, whose calls are steps that
      may wait.
    - The shell's line editor, the display thread of the monitor, and the start of sockets.
    - FlashDB's file mode, which is compiled out.  RTT's own printf, which nothing calls,
      and the assembler version of its skipping write, which replaces the C one on this processor.
    - Of the time series store, a power cut in the step to the next sector and the iteration by time
      backwards are in the definitions only.
    - Interrupt timing below kernel calls, caches and DMA, except where a definition says
      so (the snapshots of [Ds5.v] interleave single bytes with the callback). *)
From stdpp Require Export base tactics list list_numbers gmap strings.
From Stdlib Require Export ZArith Lia.

#[global] Open Scope Z_scope.

(** ** Machine integers *)

Definition u8 (z : Z) : Z := z `mod` 256.
Definition u16 (z : Z) : Z := z `mod` 65536.
Definition u32 (z : Z) : Z := z `mod` 4294967296.

Definition is_u8 (z : Z) : Prop := 0 <= z < 256.
Definition is_u32 (z : Z) : Prop := 0 <= z < 4294967296.

(** [~(mask << pos)] and the read-modify-write of a bit field of a byte, as
    the C code writes it: [prev &= ~(mask << pos); prev |= v << pos]. *)
Definition clear_bits (mask pos prev : Z) : Z :=
  u8 (Z.land prev (Z.lnot (Z.shiftl mask pos))).
Definition set_bits (v pos prev : Z) : Z :=
  u8 (Z.lor prev (Z.shiftl v pos)).

(** C's bit operators, in a scope of their own. *)
Declare Scope c_scope.
Delimit Scope c_scope with c.
Infix ".&" := Z.land (at level 40, left associativity) : c_scope.
Infix ".|" := Z.lor (at level 50, left associativity) : c_scope.
Infix ".^" := Z.lxor (at level 50, left associativity) : c_scope.
Infix ".<<" := Z.shiftl (at level 35, no associativity) : c_scope.
Infix ".>>" := Z.shiftr (at level 35, no associativity) : c_scope.

(** ** Computations with a state and a fault

    A C function that runs to completion gives [Ok] with its result and the
    new state.  [Fault] is the end of every execution the C standard gives no
    meaning to (a call through a null function pointer, an access out of the
    bounds of an array, a computation with a byte nobody wrote, a result that its
    signed type cannot hold). *)
Inductive fault : Type :=
  | NullCall
  | OutOfBounds
  | Uninitialised
  | Overflow
  | Diverged.

Inductive outcome (S A : Type) : Type :=
  | Ok (a : A) (s : S)
  | Fault (f : fault).
Arguments Ok {S A} a s.
Arguments Fault {S A} f.

Definition M (S A : Type) : Type := S → outcome S A.

#[export] Instance M_ret {S} : MRet (M S) := λ A a s, Ok a s.
#[export] Instance M_bind {S} : MBind (M S) := λ A B f m s,
  match m s with
  | Ok a s' => f a s'
  | Fault e => Fault e
  end.

Definition mfail {S A} (e : fault) : M S A := λ _, Fault e.
Definition mget {S} : M S S := λ s, Ok s s.
Definition mgets {S A} (f : S → A) : M S A := λ s, Ok (f s) s.
Definition mput {S} (s : S) : M S unit := λ _, Ok tt s.
Definition mmodify {S} (f : S → S) : M S unit := λ s, Ok tt (f s).
Definition mlift {S A} (e : fault) (o : option A) : M S A :=
  match o with
  | Some a => mret a
  | None => mfail e
  end.

(** Total correctness: [m] run from [s] does not fault, and its result and
    final state satisfy [Q]. *)
Definition wp {S A} (m : M S A) (s : S) (Q : A → S → Prop) : Prop :=
  match m s with
  | Ok a s' => Q a s'
  | Fault _ => False
  end.

Lemma wp_ret {S A} (a : A) (s : S) Q : Q a s → wp (mret a) s Q.
Proof. done. Qed.

Lemma wp_bind {S A B} (m : M S A) (f : A → M S B) s Q :
  wp m s (λ a s', wp (f a) s' Q) → wp (m ≫= f) s Q.
Proof. unfold wp, mbind, M_bind. by destruct (m s). Qed.

Lemma wp_mono {S A} (m : M S A) s (Q R : A → S → Prop) :
  wp m s Q → (∀ a s', Q a s' → R a s') → wp m s R.
Proof. unfold wp. destruct (m s); naive_solver. Qed.

Lemma wp_modify {S} (f : S → S) s (Q : unit → S → Prop) :
  Q tt (f s) → wp (mmodify f) s Q.
Proof. done. Qed.

Lemma wp_gets {S A} (f : S → A) s (Q : A → S → Prop) :
  Q (f s) s → wp (mgets f) s Q.
Proof. done. Qed.

Lemma wp_ok {S A} (m : M S A) s a s' (Q : A → S → Prop) :
  m s = Ok a s' → Q a s' → wp m s Q.
Proof. unfold wp. by intros ->. Qed.

Lemma wp_inv {S A} (m : M S A) s (Q : A → S → Prop) :
  wp m s Q → ∃ a s', m s = Ok a s' ∧ Q a s'.
Proof. unfold wp. destruct (m s); naive_solver. Qed.

Lemma wp_get {S} (s : S) (Q : S → S → Prop) : Q s s → wp mget s Q.
Proof. done. Qed.

Lemma wp_put {S} (s s' : S) (Q : unit → S → Prop) : Q tt s' → wp (mput s') s Q.
Proof. done. Qed.

Lemma wp_lift {S A} e (o : option A) (a : A) (s : S) Q :
  o = Some a → Q a s → wp (mlift e o) s Q.
Proof. by intros ->. Qed.

(** [m] followed by [f], knowing what [m] establishes. *)
Lemma wp_seq {S A B} (m : M S A) (f : A → M S B) s (Q : A → S → Prop) R :
  wp m s Q → (∀ a s', Q a s' → wp (f a) s' R) → wp (m ≫= f) s R.
Proof. intros Hm Hf. apply wp_bind. by eapply wp_mono. Qed.

Lemma wp_conj {S A} (m : M S A) s (Q R : A → S → Prop) :
  wp m s Q → wp m s R → wp m s (λ a s', Q a s' ∧ R a s').
Proof. unfold wp. destruct (m s); naive_solver. Qed.

Lemma wp_all {S A X} (m : M S A) s (x : X) (Q : X → A → S → Prop) :
  (∀ x, wp m s (Q x)) → wp m s (λ a s', ∀ x, Q x a s').
Proof. unfold wp. intros H. pose proof (H x) as Hx. destruct (m s); done. Qed.

(** Evaluation of the leading command of a sequence. *)
Lemma bind_ok {S A B} (m : M S A) (f : A → M S B) s a s' :
  m s = Ok a s' → (m ≫= f) s = f a s'.
Proof. unfold mbind, M_bind. by intros ->. Qed.

Lemma bind_ret {S A B} (a : A) (f : A → M S B) s : (mret a ≫= f) s = f a s.
Proof. done. Qed.

Lemma bind_gets {S A B} (g : S → A) (f : A → M S B) s : (mgets g ≫= f) s = f (g s) s.
Proof. done. Qed.

Lemma bind_lift {S A B} e (o : option A) (a : A) (f : A → M S B) s :
  o = Some a → (mlift e o ≫= f) s = f a s.
Proof. by intros ->. Qed.

Create HintDb wp_db.
#[export] Hint Resolve wp_ret wp_modify wp_gets wp_get wp_put : wp_db.

(** Runs the leading command of a sequence with lemma [H] for it. *)
Ltac wp_with H := eapply wp_seq; [eapply H|].

(** ** Bytes, by enumeration

    A decidable statement about every byte is checked on all 256 of them. *)
Definition below (n : nat) : list Z := Z.of_nat <$> seq 0 n.

Lemma below_spec n z : z ∈ below n ↔ 0 <= z < Z.of_nat n.
Proof.
  unfold below. rewrite list_elem_of_fmap. split.
  - intros (k & -> & Hk%elem_of_seq). lia.
  - intros Hz. exists (Z.to_nat z). rewrite elem_of_seq. lia.
Qed.

Lemma forall_below (P : Z → bool) n :
  forallb P (below n) = true → ∀ z, 0 <= z < Z.of_nat n → P z = true.
Proof. intros H z Hz. rewrite forallb_forall in H. by apply H, list_elem_of_In, below_spec. Qed.

Lemma u8_range z : is_u8 (u8 z).
Proof. apply Z.mod_pos_bound. lia. Qed.
Lemma u8_id z : is_u8 z → u8 z = z.
Proof. apply Z.mod_small. Qed.
Lemma u32_range z : is_u32 (u32 z).
Proof. apply Z.mod_pos_bound. lia. Qed.
Lemma u32_id z : is_u32 z → u32 z = z.
Proof. apply Z.mod_small. Qed.
#[export] Hint Resolve u8_range u32_range : core.

(** ** Bits of bytes *)

Lemma testbit_u8 z i : 0 <= i → Z.testbit (u8 z) i = (i <? 8) && Z.testbit z i.
Proof.
  intros Hi. unfold u8. change 256 with (2 ^ 8).
  destruct (Z.ltb_spec i 8); [by rewrite Z.mod_pow2_bits_low|].
  by rewrite Z.mod_pow2_bits_high by lia.
Qed.

Lemma testbit_small z n i : 0 <= z < 2 ^ n → n <= i → Z.testbit z i = false.
Proof.
  intros Hz Hi. assert (0 <= n) by (destruct (Z.neg_nonneg_cases n) as [Hn|]; [rewrite Z.pow_neg_r in Hz by done; lia|done]).
  rewrite <-(Z.mod_small z (2 ^ n)) by done. apply Z.mod_pow2_bits_high. lia.
Qed.

Lemma testbit_ones n i : 0 <= n → 0 <= i → Z.testbit (Z.ones n) i = (i <? n).
Proof. intros ??. rewrite Z.testbit_ones_nonneg by done. lia. Qed.

(** A field of a byte cleared and set again: the bits from [pos] on, [n] of
    them, are those of [v], the others are unchanged. *)
Lemma set_clear_bit v n pos b i :
  0 <= n → 0 <= pos → 0 <= i → 0 <= v < 2 ^ n →
  Z.testbit (set_bits v pos (clear_bits (Z.ones n) pos b)) i =
  (i <? 8) && if (pos <=? i) && (i <? pos + n) then Z.testbit v (i - pos) else Z.testbit b i.
Proof.
  intros Hn Hp Hi Hv. unfold set_bits, clear_bits.
  rewrite testbit_u8, Z.lor_spec, testbit_u8, Z.land_spec, Z.lnot_spec, !Z.shiftl_spec by lia.
  destruct (Z.ltb_spec i 8); [|done]. simpl.
  destruct (Z.leb_spec pos i); simpl.
  - rewrite testbit_ones by lia. destruct (Z.ltb_spec i (pos + n)).
    + rewrite (proj2 (Z.ltb_lt _ _)) by lia. by rewrite andb_false_r.
    + rewrite (proj2 (Z.ltb_ge _ _)), (testbit_small v n) by lia.
      by rewrite andb_true_r, orb_false_r.
  - rewrite !(Z.testbit_neg_r _ (i - pos)) by lia. by rewrite andb_true_r, orb_false_r.
Qed.

Lemma set_clear_u8 v m pos b : is_u8 (set_bits v pos (clear_bits m pos b)).
Proof. apply u8_range. Qed.
#[export] Hint Resolve set_clear_u8 : core.

Lemma byte_testbit_high b i : is_u8 b → 8 <= i → Z.testbit b i = false.
Proof. intros Hb Hi. by apply (testbit_small b 8). Qed.

Lemma testbit_masked b m i : Z.land b m = b → Z.testbit b i && Z.testbit m i = Z.testbit b i.
Proof. intros H. by rewrite <-Z.land_spec, H. Qed.

Lemma testbit_1 i : 0 <= i → Z.testbit 1 i = (i =? 0).
Proof. intros Hi. change 1 with (Z.ones 1) at 1. rewrite testbit_ones by lia. lia. Qed.

(** A closed decidable statement, by evaluation. *)
Ltac by_decision :=
  match goal with |- ?P => refine (bool_decide_unpack P _); vm_compute; exact I end.
