(* ===== verification/Nrf24l01.v ===== *)
(** * The nRF24L01 driver: [src/src/nrf24l01/nrf24l01.c]

    One definition per function of the driver, over a handle of platform
    hooks.  The hooks are computations on the dynamic part of the handle (its
    two flags, which the interrupt handler and the senders share) and on the
    world the platform acts on; nothing is assumed of them here. *)
From S2P Require Import Prelude.

(** ** Data (nrf24l01.h) *)

Inductive nrf24l01_bool_t : Type :=
  | NRF24L01_BOOL_FALSE
  | NRF24L01_BOOL_TRUE.
Inductive nrf24l01_config_t : Type :=
  | NRF24L01_CONFIG_MASK_RX_DR
  | NRF24L01_CONFIG_MASK_TX_DS
  | NRF24L01_CONFIG_MASK_MAX_RT
  | NRF24L01_CONFIG_EN_CRC
  | NRF24L01_CONFIG_CRCO
  | NRF24L01_CONFIG_PWR_UP.
Inductive nrf24l01_mode_t : Type :=
  | NRF24L01_MODE_TX
  | NRF24L01_MODE_RX.
Inductive nrf24l01_pipe_t : Type :=
  | NRF24L01_PIPE_0
  | NRF24L01_PIPE_1
  | NRF24L01_PIPE_2
  | NRF24L01_PIPE_3
  | NRF24L01_PIPE_4
  | NRF24L01_PIPE_5.
Inductive nrf24l01_address_width_t : Type :=
  | NRF24L01_ADDRESS_WIDTH_ILLEGAL
  | NRF24L01_ADDRESS_WIDTH_3_BYTES
  | NRF24L01_ADDRESS_WIDTH_4_BYTES
  | NRF24L01_ADDRESS_WIDTH_5_BYTES.
Inductive nrf24l01_data_rate_t : Type :=
  | NRF24L01_DATA_RATE_1M
  | NRF24L01_DATA_RATE_2M
  | NRF24L01_DATA_RATE_250K.
Inductive nrf24l01_output_power_t : Type :=
  | NRF24L01_OUTPUT_POWER_NEGATIVE_18_DBM
  | NRF24L01_OUTPUT_POWER_NEGATIVE_12_DBM
  | NRF24L01_OUTPUT_POWER_NEGATIVE_6_DBM
  | NRF24L01_OUTPUT_POWER_0_DBM.
Inductive nrf24l01_interrupt_t : Type :=
  | NRF24L01_INTERRUPT_RX_DR
  | NRF24L01_INTERRUPT_TX_DS
  | NRF24L01_INTERRUPT_MAX_RT
  | NRF24L01_INTERRUPT_TX_FULL.

(** The values the C enumerators stand for. *)
Definition bool_val (b : nrf24l01_bool_t) : Z :=
  match b with NRF24L01_BOOL_FALSE => 0 | NRF24L01_BOOL_TRUE => 1 end.
Definition config_val (c : nrf24l01_config_t) : Z :=
  match c with
  | NRF24L01_CONFIG_MASK_RX_DR => 6 | NRF24L01_CONFIG_MASK_TX_DS => 5
  | NRF24L01_CONFIG_MASK_MAX_RT => 4 | NRF24L01_CONFIG_EN_CRC => 3
  | NRF24L01_CONFIG_CRCO => 2 | NRF24L01_CONFIG_PWR_UP => 1
  end.
Definition mode_val (m : nrf24l01_mode_t) : Z :=
  match m with NRF24L01_MODE_TX => 0 | NRF24L01_MODE_RX => 1 end.
Definition pipe_val (p : nrf24l01_pipe_t) : Z :=
  match p with
  | NRF24L01_PIPE_0 => 0 | NRF24L01_PIPE_1 => 1 | NRF24L01_PIPE_2 => 2
  | NRF24L01_PIPE_3 => 3 | NRF24L01_PIPE_4 => 4 | NRF24L01_PIPE_5 => 5
  end.
Definition address_width_val (w : nrf24l01_address_width_t) : Z :=
  match w with
  | NRF24L01_ADDRESS_WIDTH_ILLEGAL => 0 | NRF24L01_ADDRESS_WIDTH_3_BYTES => 1
  | NRF24L01_ADDRESS_WIDTH_4_BYTES => 2 | NRF24L01_ADDRESS_WIDTH_5_BYTES => 3
  end.
Definition data_rate_val (r : nrf24l01_data_rate_t) : Z :=
  match r with
  | NRF24L01_DATA_RATE_1M => 0 | NRF24L01_DATA_RATE_2M => 1
  | NRF24L01_DATA_RATE_250K => 2
  end.
Definition output_power_val (p : nrf24l01_output_power_t) : Z :=
  match p with
  | NRF24L01_OUTPUT_POWER_NEGATIVE_18_DBM => 0
  | NRF24L01_OUTPUT_POWER_NEGATIVE_12_DBM => 1
  | NRF24L01_OUTPUT_POWER_NEGATIVE_6_DBM => 2
  | NRF24L01_OUTPUT_POWER_0_DBM => 3
  end.
Definition interrupt_val (i : nrf24l01_interrupt_t) : Z :=
  match i with
  | NRF24L01_INTERRUPT_RX_DR => 6 | NRF24L01_INTERRUPT_TX_DS => 5
  | NRF24L01_INTERRUPT_MAX_RT => 4 | NRF24L01_INTERRUPT_TX_FULL => 0
  end.

(** ** Chip commands and registers (nrf24l01.c) *)

Definition NRF24L01_COMMAND_R_REGISTER : Z := 0x00.
Definition NRF24L01_COMMAND_W_REGISTER : Z := 0x20.
Definition NRF24L01_COMMAND_R_RX_PAYLOAD : Z := 0x61.
Definition NRF24L01_COMMAND_W_TX_PAYLOAD : Z := 0xA0.
Definition NRF24L01_COMMAND_FLUSH_TX : Z := 0xE1.
Definition NRF24L01_COMMAND_FLUSH_RX : Z := 0xE2.
Definition NRF24L01_COMMAND_REUSE_TX_PL : Z := 0xE3.
Definition NRF24L01_COMMAND_R_RX_PL_WID : Z := 0x60.
Definition NRF24L01_COMMAND_W_ACK_PAYLOAD : Z := 0xA8.
Definition NRF24L01_COMMAND_W_TX_PAYLOAD_NO_ACK : Z := 0xB0.
Definition NRF24L01_COMMAND_NOP : Z := 0xFF.

Definition NRF24L01_REG_CONFIG : Z := 0x00.
Definition NRF24L01_REG_EN_AA : Z := 0x01.
Definition NRF24L01_REG_EN_RXADDR : Z := 0x02.
Definition NRF24L01_REG_SETUP_AW : Z := 0x03.
Definition NRF24L01_REG_SETUP_RETR : Z := 0x04.
Definition NRF24L01_REG_RF_CH : Z := 0x05.
Definition NRF24L01_REG_RF_SETUP : Z := 0x06.
Definition NRF24L01_REG_STATUS : Z := 0x07.
Definition NRF24L01_REG_OBSERVE_TX : Z := 0x08.
Definition NRF24L01_REG_RPD : Z := 0x09.
Definition NRF24L01_REG_RX_ADDR_P0 : Z := 0x0A.
Definition NRF24L01_REG_RX_ADDR_P1 : Z := 0x0B.
Definition NRF24L01_REG_RX_ADDR_P2 : Z := 0x0C.
Definition NRF24L01_REG_RX_ADDR_P3 : Z := 0x0D.
Definition NRF24L01_REG_RX_ADDR_P4 : Z := 0x0E.
Definition NRF24L01_REG_RX_ADDR_P5 : Z := 0x0F.
Definition NRF24L01_REG_TX_ADDR : Z := 0x10.
Definition NRF24L01_REG_RX_PW_P0 : Z := 0x11.
Definition NRF24L01_REG_RX_PW_P1 : Z := 0x12.
Definition NRF24L01_REG_RX_PW_P2 : Z := 0x13.
Definition NRF24L01_REG_RX_PW_P3 : Z := 0x14.
Definition NRF24L01_REG_RX_PW_P4 : Z := 0x15.
Definition NRF24L01_REG_RX_PW_P5 : Z := 0x16.
Definition NRF24L01_REG_FIFO_STATUS : Z := 0x17.
Definition NRF24L01_REG_DYNPD : Z := 0x1C.
Definition NRF24L01_REG_FEATURE : Z := 0x1D.

(** ** Shared memory operations *)

(** [memcpy(buffer, src, len)] into a local array of [cap] bytes. *)
Definition memcpy_local (cap len : nat) (src : list Z) : option (list Z) :=
  if decide (len ≤ cap ∧ len ≤ length src)%nat then Some (take len src) else None.

(** What a platform read of [data] leaves in an array: the bytes it stored,
    then the array's old tail. *)
Definition store_prefix (data buf : list Z) : option (list Z) :=
  if decide (length data ≤ length buf)%nat
  then Some (data ++ drop (length data) buf) else None.

(** [for (i = 0; i < k; i++) { tmp = buffer[i]; buffer[i] = buffer[len-1-i];
    buffer[len-1-i] = tmp; }], [n] iterations from [i]. *)
Fixpoint reverse_loop (n i len : nat) (buffer : list Z) : option (list Z) :=
  match n with
  | O => Some buffer
  | S n' =>
      tmp ← buffer !! i;
      x ← buffer !! (len - 1 - i)%nat;
      reverse_loop n' (S i) len (<[(len - 1 - i)%nat := tmp]> (<[i := x]> buffer))
  end.

(** The driver's byte reversal, with [k = len / 2]. *)
Definition reverse_bytes (len : nat) (buffer : list Z) : option (list Z) :=
  reverse_loop (len / 2)%nat 0 len buffer.

(** ** The handle *)

Record nrf24l01_dyn (W : Type) : Type := mk_dyn {
  inited : Z;
  finished : Z;
  world : W
}.
Arguments mk_dyn {W}.
Arguments inited {W}.
Arguments finished {W}.
Arguments world {W}.

(** [spi_read reg len] returns the status and the bytes it stored from the
    start of the caller's buffer; [debug_print] takes [None] for an argument
    whose value is indeterminate. *)
Record nrf24l01_handle (W : Type) : Type := mk_handle {
  gpio_init : option (M (nrf24l01_dyn W) Z);
  gpio_deinit : option (M (nrf24l01_dyn W) Z);
  gpio_write : option (Z → M (nrf24l01_dyn W) Z);
  spi_init : option (M (nrf24l01_dyn W) Z);
  spi_deinit : option (M (nrf24l01_dyn W) Z);
  spi_read : option (Z → Z → M (nrf24l01_dyn W) (Z * list Z));
  spi_write : option (Z → list Z → M (nrf24l01_dyn W) Z);
  delay_ms : option (Z → M (nrf24l01_dyn W) unit);
  debug_print : option (string → list (option Z) → M (nrf24l01_dyn W) unit);
  receive_callback : option (Z → Z → list Z → Z → M (nrf24l01_dyn W) unit)
}.
Arguments mk_handle {W}.
Arguments gpio_init {W}.
Arguments gpio_deinit {W}.
Arguments gpio_write {W}.
Arguments spi_init {W}.
Arguments spi_deinit {W}.
Arguments spi_read {W}.
Arguments spi_write {W}.
Arguments delay_ms {W}.
Arguments debug_print {W}.
Arguments receive_callback {W}.

Section Driver.
Context {W : Type}.
#[local] Abbreviation D := (nrf24l01_dyn W).
#[local] Abbreviation handle_t := (nrf24l01_handle W).

(** Calls through the function pointers of the handle. *)
Definition hook {A : Type} (o : option A) : M D A := mlift NullCall o.
Definition call_spi_read (h : handle_t) (reg len : Z) : M D (Z * list Z) :=
  f ← hook (spi_read h); f reg len.
Definition call_spi_write (h : handle_t) (reg : Z) (data : list Z) : M D Z :=
  f ← hook (spi_write h); f reg data.
Definition call_gpio_write (h : handle_t) (v : Z) : M D Z :=
  f ← hook (gpio_write h); f v.
Definition call_delay_ms (h : handle_t) (ms : Z) : M D unit :=
  f ← hook (delay_ms h); f ms.
(** The driver's messages all end with a newline. *)
Definition newline : string := String (Ascii.ascii_of_nat 10) EmptyString.
Definition debug (h : handle_t) (msg : string) (args : list (option Z)) : M D unit :=
  f ← hook (debug_print h); f (String.append msg newline) args.
(** [if (handle->receive_callback != NULL) handle->receive_callback(...)] *)
Definition run_callback (h : handle_t) (type num : Z) (buf : list Z) (len : Z) : M D unit :=
  match receive_callback h with
  | Some f => f type num buf len
  | None => mret tt
  end.

(** Print a message, then return an error code. *)
Definition error (h : handle_t) (msg : string) (code : Z) : M D Z :=
  debug h msg [];; mret code.
Definition error_out {A : Type} (h : handle_t) (msg : string) (code : Z) (out : A) : M D (Z * A) :=
  debug h msg [];; mret (code, out).

Definition set_inited (v : Z) : M D unit :=
  mmodify (λ d, mk_dyn v (finished d) (world d)).
Definition set_finished (v : Z) : M D unit :=
  mmodify (λ d, mk_dyn (inited d) v (world d)).

(** The checks every operation starts with: a null handle gives 2, a handle
    that is not initialised gives 3. *)
Definition checked {R : Type} (fail : Z → R) (handle : option handle_t)
    (body : handle_t → M D R) : M D R :=
  match handle with
  | None => mret (fail 2)
  | Some h =>
      i ← mgets inited;
      if decide (i = 1) then body h else mret (fail 3)
  end.
Definition checked_op (handle : option handle_t) (body : handle_t → M D Z) : M D Z :=
  checked id handle body.
(** The same for the functions with an output parameter; [None] when the
    function leaves the caller's variable alone. *)
Definition checked_get {A : Type} (handle : option handle_t)
    (body : handle_t → M D (Z * option A)) : M D (Z * option A) :=
  checked (λ r, (r, None)) handle body.

(** The byte a one-byte read left in a local variable. *)
Definition read_byte (data : list Z) : M D Z := mlift Uninitialised (head data).

Definition a_nrf24l01_spi_read (h : handle_t) (reg len : Z) : M D (Z * list Z) :=
  '(res, data) ← call_spi_read h (Z.lor NRF24L01_COMMAND_R_REGISTER reg) len;
  if decide (res = 0) then mret (0, data) else mret (1, data).

Definition a_nrf24l01_spi_write (h : handle_t) (reg : Z) (data : list Z) : M D Z :=
  res ← call_spi_write h (Z.lor NRF24L01_COMMAND_W_REGISTER reg) data;
  if decide (res = 0) then mret 0 else mret 1.

(** The shape the register functions share: read one register, write it back
    changed by [f]; or read it and hand [f] of it to the caller. *)
Definition update_register (h : handle_t) (reg : Z) (get_msg set_msg : string)
    (f : Z → Z) : M D Z :=
  '(res, data) ← a_nrf24l01_spi_read h reg 1;
  if decide (res = 0) then
    prev ← read_byte data;
    res ← a_nrf24l01_spi_write h reg [f prev];
    if decide (res = 0) then mret 0 else error h set_msg 1
  else error h get_msg 1.

Definition fetch_register (h : handle_t) (reg : Z) (msg : string) (f : Z → Z) :
    M D (Z * option Z) :=
  '(res, data) ← a_nrf24l01_spi_read h reg 1;
  if decide (res = 0) then
    prev ← read_byte data;
    mret (0, Some (f prev))
  else error_out h msg 1 None.

Definition write_register (h : handle_t) (reg : Z) (msg : string) (v : Z) : M D Z :=
  res ← a_nrf24l01_spi_write h reg [v];
  if decide (res = 0) then mret 0 else error h msg 1.

(** [spi_read(reg, out, 1)] straight into the caller's variable, which holds
    what the platform stored even when the read fails. *)
Definition fetch_into (h : handle_t) (reg : Z) (msg : string) (f : Z → Z) :
    M D (Z * option Z) :=
  '(res, data) ← a_nrf24l01_spi_read h reg 1;
  if decide (res = 0) then
    v ← read_byte data;
    mret (0, Some (f v))
  else error_out h msg 1 (head data).

(** A command without data. *)
Definition send_command (h : handle_t) (cmd : Z) (msg : string) : M D Z :=
  res ← call_spi_write h cmd [];
  if decide (res = 0) then mret 0 else error h msg 1.

(** ** Initialisation *)

Definition is_null {A : Type} (o : option A) : bool :=
  match o with Some _ => false | None => true end.

Definition nrf24l01_init (handle : option handle_t) : M D Z :=
  match handle with
  | None => mret 2
  | Some h =>
      if is_null (debug_print h) then mret 3
      else if is_null (spi_init h) then error h "nrf24l01: spi_init is null." 3
      else if is_null (spi_deinit h) then error h "nrf24l01: spi_deinit is null." 3
      else if is_null (spi_read h) then error h "nrf24l01: spi_read is null." 3
      else if is_null (spi_write h) then error h "nrf24l01: spi_write is null." 3
      else if is_null (gpio_init h) then error h "nrf24l01: gpio_init is null." 3
      else if is_null (gpio_deinit h) then error h "nrf24l01: gpio_deinit is null." 3
      else if is_null (gpio_write h) then error h "nrf24l01: gpio_write is null." 3
      else if is_null (delay_ms h) then error h "nrf24l01: delay_ms is null." 3
      else if is_null (receive_callback h) then
        error h "nrf24l01: receive_callback is null." 3
      else
        f ← hook (gpio_init h); res ← f;
        if decide (res = 0) then
          f ← hook (spi_init h); res ← f;
          if decide (res = 0) then set_inited 1;; mret 0
          else
            debug h "nrf24l01: spi init failed." [];;
            f ← hook (gpio_deinit h); _ ← f;
            mret 1
        else error h "nrf24l01: gpio init failed." 4
  end.

Definition nrf24l01_deinit (handle : option handle_t) : M D Z :=
  checked_op handle (λ h,
    res ← call_spi_write h NRF24L01_COMMAND_NOP [];
    if decide (res ≠ 0) then error h "nrf24l01: nop failed." 1 else
    '(res, data) ← a_nrf24l01_spi_read h NRF24L01_REG_CONFIG 1;
    if decide (res ≠ 0) then error h "nrf24l01: get config failed." 1 else
    prev ← read_byte data;
    let prev := clear_bits 1 1 prev in
    res ← a_nrf24l01_spi_write h NRF24L01_REG_CONFIG [prev];
    if decide (res ≠ 0) then error h "nrf24l01: set config failed." 1 else
    f ← hook (gpio_deinit h); res ← f;
    if decide (res ≠ 0) then error h "nrf24l01: gpio deinit failed." 4 else
    f ← hook (spi_deinit h); res ← f;
    if decide (res ≠ 0) then error h "nrf24l01: spi deinit failed." 5 else
    set_inited 0;;
    mret 0).

Definition nrf24l01_set_active (handle : option handle_t) (enable : nrf24l01_bool_t) : M D Z :=
  checked_op handle (λ h,
    res ← call_gpio_write h (bool_val enable);
    if decide (res = 0) then mret 0 else error h "nrf24l01: gpio write failed." 1).

(** ** Sending and the interrupt handler *)

(** [while ((timeout != 0) && (handle->finished == 0)) { delay_ms(1);
    timeout--; }]: gives the value [timeout] has after the loop. *)
Fixpoint send_wait (h : handle_t) (timeout : nat) : M D nat :=
  match timeout with
  | O => mret O
  | S t =>
      fin ← mgets finished;
      if decide (fin = 0) then call_delay_ms h 1;; send_wait h t
      else mret timeout
  end.

Definition send_timeout : nat := 5000.

(** The last part of [nrf24l01_send]: wait for the interrupt handler when an
    acknowledge is expected. *)
Definition send_complete (h : handle_t) (use_ack : nrf24l01_bool_t) : M D Z :=
  match use_ack with
  | NRF24L01_BOOL_TRUE =>
      timeout ← send_wait h send_timeout;
      if decide (timeout = O) then
        '(_, data) ← a_nrf24l01_spi_read h NRF24L01_REG_STATUS 1;
        debug h "nrf24l01: status: %d" [head data];;
        '(_, data) ← a_nrf24l01_spi_read h NRF24L01_REG_CONFIG 1;
        debug h "nrf24l01: config: %d" [head data];;
        error h "nrf24l01: send timeout." 5
      else
        fin ← mgets finished;
        if decide (fin = 1) then mret 0
        else error h "nrf24l01: send failed." 1
  | NRF24L01_BOOL_FALSE => mret 0
  end.

Definition nrf24l01_send (handle : option handle_t) (buf : list Z) (len : Z)
    (use_ack : nrf24l01_bool_t) : M D Z :=
  checked_op handle (λ h,
    if decide (len > 32) then error h "nrf24l01: len is over 32." 4 else
    buffer ← mlift OutOfBounds (memcpy_local 32 (Z.to_nat len) buf);
    buffer ← mlift OutOfBounds (reverse_bytes (Z.to_nat len) buffer);
    let command := match use_ack with
                   | NRF24L01_BOOL_TRUE => NRF24L01_COMMAND_W_TX_PAYLOAD
                   | NRF24L01_BOOL_FALSE => NRF24L01_COMMAND_W_TX_PAYLOAD_NO_ACK
                   end in
    set_finished 0;;
    res ← call_gpio_write h 0;
    if decide (res ≠ 0) then error h "nrf24l01: gpio write failed." 1 else
    res ← call_spi_write h command buffer;
    if decide (res ≠ 0) then error h "nrf24l01: set tx payload failed." 1 else
    res ← call_gpio_write h 1;
    if decide (res ≠ 0) then error h "nrf24l01: gpio write failed." 1 else
    _ ← a_nrf24l01_spi_read h NRF24L01_REG_FEATURE 1;
    send_complete h use_ack).

(** An error of the interrupt handler: the message, then the chip enable line
    back up, whatever that write returns. *)
Definition irq_error (h : handle_t) (msg : string) : M D Z :=
  debug h msg [];; _ ← call_gpio_write h 1; mret 1.

(** The steps of [nrf24l01_irq_handler] for the bits of the status register;
    [None]: go on, [Some r]: return [r]. *)
Definition irq_tx_full (h : handle_t) (prev : Z) : M D (option Z) :=
  if decide (Z.land (Z.shiftr prev 0) 0x01 ≠ 0) then
    run_callback h (interrupt_val NRF24L01_INTERRUPT_TX_FULL) 0 [] 0;; mret None
  else mret None.

Definition irq_max_rt (h : handle_t) (prev : Z) : M D (option Z) :=
  if decide (Z.land (Z.shiftr prev 4) 0x01 ≠ 0) then
    res ← call_spi_write h NRF24L01_COMMAND_FLUSH_TX [];
    if decide (res ≠ 0) then r ← irq_error h "nrf24l01: flush tx failed."; mret (Some r) else
    set_finished 2;;
    run_callback h (interrupt_val NRF24L01_INTERRUPT_MAX_RT) 0 [] 0;; mret None
  else mret None.

Definition irq_tx_ds (h : handle_t) (prev : Z) : M D (option Z) :=
  if decide (Z.land (Z.shiftr prev 5) 0x01 ≠ 0) then
    set_finished 1;;
    run_callback h (interrupt_val NRF24L01_INTERRUPT_TX_DS) 0 [] 0;; mret None
  else mret None.

(** The receive branch reads the payload into [uint8_t buffer[33]]. *)
Definition irq_buffer_size : nat := 33.

Definition irq_rx_payload (h : handle_t) (prev width : Z) : M D (option Z) :=
  '(res, data) ← call_spi_read h NRF24L01_COMMAND_R_RX_PAYLOAD width;
  if decide (irq_buffer_size < length data)%nat then mfail OutOfBounds else
  if decide (res ≠ 0) then r ← irq_error h "nrf24l01: get rx payload failed."; mret (Some r) else
  (* the loop and the callback use [width] bytes of the buffer *)
  if decide (irq_buffer_size < Z.to_nat width)%nat then mfail OutOfBounds else
  if decide (length data < Z.to_nat width)%nat then mfail Uninitialised else
  buffer ← mlift OutOfBounds (reverse_bytes (Z.to_nat width) data);
  let num := Z.land (Z.shiftr prev 1) 0x7 in
  run_callback h (interrupt_val NRF24L01_INTERRUPT_RX_DR) num buffer width;; mret None.

Definition irq_rx_dr (h : handle_t) (prev : Z) : M D (option Z) :=
  if decide (Z.land (Z.shiftr prev 6) 0x01 ≠ 0) then
    '(res, data) ← call_spi_read h NRF24L01_COMMAND_R_RX_PL_WID 1;
    if decide (res ≠ 0) then r ← irq_error h "nrf24l01: get payload width failed."; mret (Some r) else
    width ← read_byte data;
    if decide (width > 32) then
      res ← call_spi_write h NRF24L01_COMMAND_FLUSH_RX [];
      if decide (res ≠ 0) then r ← irq_error h "nrf24l01: flush rx failed."; mret (Some r)
      else irq_rx_payload h prev width
    else irq_rx_payload h prev width
  else mret None.

(** Go on with [k] unless the step returned. *)
Definition irq_then (step : M D (option Z)) (k : M D Z) : M D Z :=
  r ← step; match r with Some r => mret r | None => k end.

Definition nrf24l01_irq_handler (handle : option handle_t) : M D Z :=
  checked_op handle (λ h,
    res ← call_gpio_write h 0;
    if decide (res ≠ 0) then error h "nrf24l01: gpio write failed." 1 else
    '(res, data) ← a_nrf24l01_spi_read h NRF24L01_REG_STATUS 1;
    if decide (res ≠ 0) then irq_error h "nrf24l01: get status register failed." else
    prev ← read_byte data;
    res ← a_nrf24l01_spi_write h NRF24L01_REG_STATUS [prev];
    if decide (res ≠ 0) then irq_error h "nrf24l01: set status register failed." else
    irq_then (irq_tx_full h prev) (
    irq_then (irq_max_rt h prev) (
    irq_then (irq_tx_ds h prev) (
    irq_then (irq_rx_dr h prev) (
    res ← call_gpio_write h 1;
    if decide (res ≠ 0) then error h "nrf24l01: gpio write failed." 1 else
    mret 0))))).

(** ** Configuration register *)

Definition nrf24l01_set_config (handle : option handle_t) (config : nrf24l01_config_t)
    (enable : nrf24l01_bool_t) : M D Z :=
  checked_op handle (λ h,
    update_register h NRF24L01_REG_CONFIG
      "nrf24l01: get config failed." "nrf24l01: set config failed."
      (λ prev, set_bits (bool_val enable) (config_val config)
                 (clear_bits 1 (config_val config) prev))).

Definition nrf24l01_get_config (handle : option handle_t) (config : nrf24l01_config_t) :
    M D (Z * option Z) :=
  checked_get handle (λ h,
    fetch_register h NRF24L01_REG_CONFIG "nrf24l01: get config failed."
      (λ prev, Z.land (Z.shiftr prev (config_val config)) 0x01)).

Definition nrf24l01_set_mode (handle : option handle_t) (mode : nrf24l01_mode_t) : M D Z :=
  checked_op handle (λ h,
    update_register h NRF24L01_REG_CONFIG
      "nrf24l01: get config failed." "nrf24l01: set config failed."
      (λ prev, set_bits (mode_val mode) 0 (clear_bits 1 0 prev))).

Definition nrf24l01_get_mode (handle : option handle_t) : M D (Z * option Z) :=
  checked_get handle (λ h,
    fetch_register h NRF24L01_REG_CONFIG "nrf24l01: get config failed."
      (λ prev, Z.land prev 0x01)).

(** ** Pipes, address width, retransmission, channel *)

Definition nrf24l01_set_auto_acknowledgment (handle : option handle_t)
    (pipe : nrf24l01_pipe_t) (enable : nrf24l01_bool_t) : M D Z :=
  checked_op handle (λ h,
    update_register h NRF24L01_REG_EN_AA
      "nrf24l01: get auto acknowledgment failed." "nrf24l01: set auto acknowledgment failed."
      (λ prev, set_bits (bool_val enable) (pipe_val pipe)
                 (clear_bits 1 (pipe_val pipe) prev))).

Definition nrf24l01_get_auto_acknowledgment (handle : option handle_t)
    (pipe : nrf24l01_pipe_t) : M D (Z * option Z) :=
  checked_get handle (λ h,
    fetch_register h NRF24L01_REG_EN_AA "nrf24l01: get auto acknowledgment failed."
      (λ prev, Z.land (Z.shiftr prev (pipe_val pipe)) 0x01)).

Definition nrf24l01_set_rx_pipe (handle : option handle_t)
    (pipe : nrf24l01_pipe_t) (enable : nrf24l01_bool_t) : M D Z :=
  checked_op handle (λ h,
    update_register h NRF24L01_REG_EN_RXADDR
      "nrf24l01: get rx address failed." "nrf24l01: set rx address failed."
      (λ prev, set_bits (bool_val enable) (pipe_val pipe)
                 (clear_bits 1 (pipe_val pipe) prev))).

Definition nrf24l01_get_rx_pipe (handle : option handle_t)
    (pipe : nrf24l01_pipe_t) : M D (Z * option Z) :=
  checked_get handle (λ h,
    fetch_register h NRF24L01_REG_EN_RXADDR "nrf24l01: get rx address failed."
      (λ prev, Z.land (Z.shiftr prev (pipe_val pipe)) 0x01)).

Definition nrf24l01_set_address_width (handle : option handle_t)
    (width : nrf24l01_address_width_t) : M D Z :=
  checked_op handle (λ h,
    update_register h NRF24L01_REG_SETUP_AW
      "nrf24l01: get setup of address widths failed."
      "nrf24l01: set setup of address widths failed."
      (λ prev, set_bits (address_width_val width) 0 (clear_bits 3 0 prev))).

Definition nrf24l01_get_address_width (handle : option handle_t) : M D (Z * option Z) :=
  checked_get handle (λ h,
    fetch_register h NRF24L01_REG_SETUP_AW "nrf24l01: get setup of address widths failed."
      (λ prev, Z.land (Z.shiftr prev 0) 0x3)).

Definition nrf24l01_set_auto_retransmit_delay (handle : option handle_t) (delay : Z) : M D Z :=
  checked_op handle (λ h,
    if decide (delay > 0xF) then error h "nrf24l01: delay is over 0xF." 4 else
    update_register h NRF24L01_REG_SETUP_RETR
      "nrf24l01: get setup of automatic retransmission failed."
      "nrf24l01: set setup of automatic retransmission failed."
      (λ prev, set_bits delay 4 (clear_bits 0xF 4 prev))).

Definition nrf24l01_get_auto_retransmit_delay (handle : option handle_t) : M D (Z * option Z) :=
  checked_get handle (λ h,
    fetch_register h NRF24L01_REG_SETUP_RETR
      "nrf24l01: get setup of automatic retransmission failed."
      (λ prev, Z.land (Z.shiftr prev 4) 0xF)).

Definition nrf24l01_auto_retransmit_delay_convert_to_register
    (handle : option handle_t) (us : Z) : M D (Z * option Z) :=
  checked_get handle (λ _, mret (0, Some (u8 (us `div` 250)))).

Definition nrf24l01_auto_retransmit_delay_convert_to_data
    (handle : option handle_t) (reg : Z) : M D (Z * option Z) :=
  checked_get handle (λ _, mret (0, Some (u32 (u32 reg * 250)))).

Definition nrf24l01_set_auto_retransmit_count (handle : option handle_t) (count : Z) : M D Z :=
  checked_op handle (λ h,
    if decide (count > 0xF) then error h "nrf24l01: count is over 0xF." 4 else
    update_register h NRF24L01_REG_SETUP_RETR
      "nrf24l01: get setup of automatic retransmission failed."
      "nrf24l01: set setup of automatic retransmission failed."
      (λ prev, set_bits count 0 (clear_bits 0xF 0 prev))).

Definition nrf24l01_get_auto_retransmit_count (handle : option handle_t) : M D (Z * option Z) :=
  checked_get handle (λ h,
    fetch_register h NRF24L01_REG_SETUP_RETR
      "nrf24l01: get setup of automatic retransmission failed."
      (λ prev, Z.land (Z.shiftr prev 0) 0xF)).

Definition nrf24l01_set_channel_frequency (handle : option handle_t) (freq : Z) : M D Z :=
  checked_op handle (λ h,
    if decide (freq > 0x7F) then error h "nrf24l01: freq is over 0x7F." 4 else
    update_register h NRF24L01_REG_RF_CH
      "nrf24l01: get rf channel failed." "nrf24l01: set rf channel failed."
      (λ prev, set_bits freq 0 (clear_bits 0x7F 0 prev))).

Definition nrf24l01_get_channel_frequency (handle : option handle_t) : M D (Z * option Z) :=
  checked_get handle (λ h,
    fetch_register h NRF24L01_REG_RF_CH "nrf24l01: get rf channel failed."
      (λ prev, Z.land prev 0x7F)).

(** ** RF setup register *)

Definition nrf24l01_set_continuous_carrier_transmit (handle : option handle_t)
    (enable : nrf24l01_bool_t) : M D Z :=
  checked_op handle (λ h,
    update_register h NRF24L01_REG_RF_SETUP
      "nrf24l01: get rf setup register failed." "nrf24l01: set rf setup register failed."
      (λ prev, set_bits (bool_val enable) 7 (clear_bits 1 7 prev))).

Definition nrf24l01_get_continuous_carrier_transmit (handle : option handle_t) :
    M D (Z * option Z) :=
  checked_get handle (λ h,
    fetch_register h NRF24L01_REG_RF_SETUP "nrf24l01: get rf setup register failed."
      (λ prev, Z.land (Z.shiftr prev 7) 0x01)).

Definition nrf24l01_set_force_pll_lock_signal (handle : option handle_t)
    (enable : nrf24l01_bool_t) : M D Z :=
  checked_op handle (λ h,
    update_register h NRF24L01_REG_RF_SETUP
      "nrf24l01: get rf setup register failed." "nrf24l01: set rf setup register failed."
      (λ prev, set_bits (bool_val enable) 4 (clear_bits 1 4 prev))).

Definition nrf24l01_get_force_pll_lock_signal (handle : option handle_t) : M D (Z * option Z) :=
  checked_get handle (λ h,
    fetch_register h NRF24L01_REG_RF_SETUP "nrf24l01: get rf setup register failed."
      (λ prev, Z.land (Z.shiftr prev 4) 0x01)).

Definition nrf24l01_set_data_rate (handle : option handle_t)
    (rate : nrf24l01_data_rate_t) : M D Z :=
  checked_op handle (λ h,
    update_register h NRF24L01_REG_RF_SETUP
      "nrf24l01: get rf setup register failed." "nrf24l01: set rf setup register failed."
      (λ prev,
        let prev := clear_bits 1 5 prev in
        let prev := clear_bits 1 3 prev in
        let prev := set_bits (Z.land (Z.shiftr (data_rate_val rate) 0) 0x1) 3 prev in
        set_bits (Z.land (Z.shiftr (data_rate_val rate) 1) 0x1) 5 prev)).

Definition nrf24l01_get_data_rate (handle : option handle_t) : M D (Z * option Z) :=
  checked_get handle (λ h,
    fetch_register h NRF24L01_REG_RF_SETUP "nrf24l01: get rf setup register failed."
      (λ prev, Z.lor (Z.land (Z.shiftr prev 3) 0x01)
                 (Z.shiftl (Z.land (Z.shiftr prev 5) 0x01) 1))).

Definition nrf24l01_set_output_power (handle : option handle_t)
    (power : nrf24l01_output_power_t) : M D Z :=
  checked_op handle (λ h,
    update_register h NRF24L01_REG_RF_SETUP
      "nrf24l01: get rf setup register failed." "nrf24l01: set rf setup register failed."
      (λ prev, set_bits (output_power_val power) 1 (clear_bits 3 1 prev))).

Definition nrf24l01_get_output_power (handle : option handle_t) : M D (Z * option Z) :=
  checked_get handle (λ h,
    fetch_register h NRF24L01_REG_RF_SETUP "nrf24l01: get rf setup register failed."
      (λ prev, Z.land (Z.shiftr prev 1) 0x03)).

(** ** Status, observation *)

Definition nrf24l01_get_interrupt (handle : option handle_t) (type : nrf24l01_interrupt_t) :
    M D (Z * option Z) :=
  checked_get handle (λ h,
    fetch_register h NRF24L01_REG_STATUS "nrf24l01: get status register failed."
      (λ prev, Z.land (Z.shiftr prev (interrupt_val type)) 0x01)).

Definition nrf24l01_clear_interrupt (handle : option handle_t) (type : nrf24l01_interrupt_t) :
    M D Z :=
  checked_op handle (λ h,
    update_register h NRF24L01_REG_STATUS
      "nrf24l01: get status register failed." "nrf24l01: set status register failed."
      (λ prev, set_bits 1 (interrupt_val type) (clear_bits 1 (interrupt_val type) prev))).

Definition nrf24l01_get_data_pipe_number (handle : option handle_t) : M D (Z * option Z) :=
  checked_get handle (λ h,
    fetch_register h NRF24L01_REG_STATUS "nrf24l01: get status register failed."
      (λ prev, Z.land (Z.shiftr prev 1) 0x7)).

Definition nrf24l01_get_lost_packet_count (handle : option handle_t) : M D (Z * option Z) :=
  checked_get handle (λ h,
    fetch_register h NRF24L01_REG_OBSERVE_TX "nrf24l01: get transmit observe register failed."
      (λ prev, Z.land (Z.shiftr prev 4) 0xF)).

Definition nrf24l01_get_retransmitted_packet_count (handle : option handle_t) :
    M D (Z * option Z) :=
  checked_get handle (λ h,
    fetch_register h NRF24L01_REG_OBSERVE_TX "nrf24l01: get transmit observe register failed."
      (λ prev, Z.land (Z.shiftr prev 0) 0xF)).

Definition nrf24l01_get_received_power_detector (handle : option handle_t) :
    M D (Z * option Z) :=
  checked_get handle (λ h,
    fetch_register h NRF24L01_REG_RPD "nrf24l01: get rpd failed."
      (λ prev, Z.land (Z.shiftr prev 0) 0x01)).

(** ** Addresses

    The driver holds addresses first byte first; the chip takes them last byte
    first, so the address functions reverse them. *)

(** The address width in bytes, from the register's two low bits: [None] is
    the illegal width 0. *)
Definition address_bytes (prev : Z) : option Z :=
  let width := Z.land (Z.shiftr prev 0) 0x3 in
  if decide (width = 0) then None else Some (width + 2).

(** The address functions of pipes 0 and 1 and of the transmitter differ in
    the register and the message only. *)
Definition set_address (reg : Z) (msg : string) (handle : option handle_t)
    (addr : list Z) (len : Z) : M D Z :=
  checked_op handle (λ h,
    '(res, data) ← a_nrf24l01_spi_read h NRF24L01_REG_SETUP_AW 1;
    if decide (res ≠ 0) then
      error h "nrf24l01: get setup of address widths failed." 1
    else
      prev ← read_byte data;
      match address_bytes prev with
      | None =>
          debug h "nrf24l01: len is too long with %d." [Some 0];; mret 4
      | Some width =>
          if decide (len > width) then
            debug h "nrf24l01: len is too long with %d." [Some width];; mret 4
          else
            buffer ← mlift OutOfBounds (memcpy_local 8 (Z.to_nat len) addr);
            buffer ← mlift OutOfBounds (reverse_bytes (Z.to_nat len) buffer);
            res ← a_nrf24l01_spi_write h reg buffer;
            if decide (res = 0) then mret 0 else error h msg 1
      end).

(** [addr] is the caller's array and [len] the caller's length; both are given
    back as the function leaves them. *)
Definition get_address (reg : Z) (msg : string) (handle : option handle_t)
    (addr : list Z) (len : Z) : M D (Z * (list Z * Z)) :=
  checked (λ r, (r, (addr, len))) handle (λ h,
    '(res, data) ← a_nrf24l01_spi_read h NRF24L01_REG_SETUP_AW 1;
    if decide (res ≠ 0) then
      error_out h "nrf24l01: get setup of address widths failed." 1 (addr, len)
    else
      prev ← read_byte data;
      match address_bytes prev with
      | None =>
          debug h "nrf24l01: len is too long with %d." [Some 0];; mret (4, (addr, len))
      | Some width =>
          if decide (len < width) then
            debug h "nrf24l01: len is too short with %d." [Some width];;
            mret (4, (addr, len))
          else
            '(res, data) ← a_nrf24l01_spi_read h reg width;
            addr ← mlift OutOfBounds (store_prefix data addr);
            if decide (res ≠ 0) then error_out h msg 1 (addr, width) else
            addr ← mlift OutOfBounds (reverse_bytes (Z.to_nat width) addr);
            mret (0, (addr, width))
      end).

Definition nrf24l01_set_rx_pipe_0_address (handle : option handle_t) (addr : list Z) (len : Z) : M D Z :=
  set_address NRF24L01_REG_RX_ADDR_P0
    "nrf24l01: set receive address data pipe p0 register failed." handle addr len.
Definition nrf24l01_get_rx_pipe_0_address (handle : option handle_t) (addr : list Z) (len : Z) :
    M D (Z * (list Z * Z)) :=
  get_address NRF24L01_REG_RX_ADDR_P0
    "nrf24l01: get receive address data pipe p0 register failed." handle addr len.
Definition nrf24l01_set_rx_pipe_1_address (handle : option handle_t) (addr : list Z) (len : Z) : M D Z :=
  set_address NRF24L01_REG_RX_ADDR_P1
    "nrf24l01: set receive address data pipe p1 register failed." handle addr len.
Definition nrf24l01_get_rx_pipe_1_address (handle : option handle_t) (addr : list Z) (len : Z) :
    M D (Z * (list Z * Z)) :=
  get_address NRF24L01_REG_RX_ADDR_P1
    "nrf24l01: get receive address data pipe p1 register failed." handle addr len.
Definition nrf24l01_set_tx_address (handle : option handle_t) (addr : list Z) (len : Z) : M D Z :=
  set_address NRF24L01_REG_TX_ADDR "nrf24l01: set tx address failed." handle addr len.
Definition nrf24l01_get_tx_address (handle : option handle_t) (addr : list Z) (len : Z) :
    M D (Z * (list Z * Z)) :=
  get_address NRF24L01_REG_TX_ADDR "nrf24l01: get tx address failed." handle addr len.

Definition nrf24l01_set_rx_pipe_2_address (handle : option handle_t) (addr : Z) : M D Z :=
  checked_op handle (λ h,
    write_register h NRF24L01_REG_RX_ADDR_P2
      "nrf24l01: set receive address data pipe p2 register failed." addr).
Definition nrf24l01_get_rx_pipe_2_address (handle : option handle_t) : M D (Z * option Z) :=
  checked_get handle (λ h,
    fetch_into h NRF24L01_REG_RX_ADDR_P2
      "nrf24l01: get receive address data pipe p2 register failed." id).
Definition nrf24l01_set_rx_pipe_3_address (handle : option handle_t) (addr : Z) : M D Z :=
  checked_op handle (λ h,
    write_register h NRF24L01_REG_RX_ADDR_P3
      "nrf24l01: set receive address data pipe p3 register failed." addr).
Definition nrf24l01_get_rx_pipe_3_address (handle : option handle_t) : M D (Z * option Z) :=
  checked_get handle (λ h,
    fetch_into h NRF24L01_REG_RX_ADDR_P3
      "nrf24l01: get receive address data pipe p3 register failed." id).
Definition nrf24l01_set_rx_pipe_4_address (handle : option handle_t) (addr : Z) : M D Z :=
  checked_op handle (λ h,
    write_register h NRF24L01_REG_RX_ADDR_P4
      "nrf24l01: set receive address data pipe p4 register failed." addr).
Definition nrf24l01_get_rx_pipe_4_address (handle : option handle_t) : M D (Z * option Z) :=
  checked_get handle (λ h,
    fetch_into h NRF24L01_REG_RX_ADDR_P4
      "nrf24l01: get receive address data pipe p4 register failed." id).
Definition nrf24l01_set_rx_pipe_5_address (handle : option handle_t) (addr : Z) : M D Z :=
  checked_op handle (λ h,
    write_register h NRF24L01_REG_RX_ADDR_P5
      "nrf24l01: set receive address data pipe p5 register failed." addr).
Definition nrf24l01_get_rx_pipe_5_address (handle : option handle_t) : M D (Z * option Z) :=
  checked_get handle (λ h,
    fetch_into h NRF24L01_REG_RX_ADDR_P5
      "nrf24l01: get receive address data pipe p5 register failed." id).

(** ** Payload widths, fifo status, dynamic payloads *)

(** The six payload number functions differ in the register and the message. *)
Definition set_payload_number (reg : Z) (msg : string) (handle : option handle_t) (num : Z) : M D Z :=
  checked_op handle (λ h,
    if decide (num > 0x3F) then error h "nrf24l01: num is over 0x3F." 4 else
    write_register h reg msg num).
Definition get_payload_number (reg : Z) (msg : string) (handle : option handle_t) :
    M D (Z * option Z) :=
  checked_get handle (λ h, fetch_into h reg msg (λ num, Z.land num 0x3F)).

Definition nrf24l01_set_pipe_0_payload_number (handle : option handle_t) (num : Z) : M D Z :=
  set_payload_number NRF24L01_REG_RX_PW_P0
    "nrf24l01: set pipe 0 payload number failed." handle num.
Definition nrf24l01_get_pipe_0_payload_number (handle : option handle_t) : M D (Z * option Z) :=
  get_payload_number NRF24L01_REG_RX_PW_P0
    "nrf24l01: get pipe 0 payload number failed." handle.
Definition nrf24l01_set_pipe_1_payload_number (handle : option handle_t) (num : Z) : M D Z :=
  set_payload_number NRF24L01_REG_RX_PW_P1
    "nrf24l01: set pipe 1 payload number failed." handle num.
Definition nrf24l01_get_pipe_1_payload_number (handle : option handle_t) : M D (Z * option Z) :=
  get_payload_number NRF24L01_REG_RX_PW_P1
    "nrf24l01: get pipe 1 payload number failed." handle.
Definition nrf24l01_set_pipe_2_payload_number (handle : option handle_t) (num : Z) : M D Z :=
  set_payload_number NRF24L01_REG_RX_PW_P2
    "nrf24l01: set pipe 2 payload number failed." handle num.
Definition nrf24l01_get_pipe_2_payload_number (handle : option handle_t) : M D (Z * option Z) :=
  get_payload_number NRF24L01_REG_RX_PW_P2
    "nrf24l01: get pipe 2 payload number failed." handle.
Definition nrf24l01_set_pipe_3_payload_number (handle : option handle_t) (num : Z) : M D Z :=
  set_payload_number NRF24L01_REG_RX_PW_P3
    "nrf24l01: set pipe 3 payload number failed." handle num.
Definition nrf24l01_get_pipe_3_payload_number (handle : option handle_t) : M D (Z * option Z) :=
  get_payload_number NRF24L01_REG_RX_PW_P3
    "nrf24l01: get pipe 3 payload number failed." handle.
Definition nrf24l01_set_pipe_4_payload_number (handle : option handle_t) (num : Z) : M D Z :=
  set_payload_number NRF24L01_REG_RX_PW_P4
    "nrf24l01: set pipe 4 payload number failed." handle num.
Definition nrf24l01_get_pipe_4_payload_number (handle : option handle_t) : M D (Z * option Z) :=
  get_payload_number NRF24L01_REG_RX_PW_P4
    "nrf24l01: get pipe 4 payload number failed." handle.
Definition nrf24l01_set_pipe_5_payload_number (handle : option handle_t) (num : Z) : M D Z :=
  set_payload_number NRF24L01_REG_RX_PW_P5
    "nrf24l01: set pipe 5 payload number failed." handle num.
Definition nrf24l01_get_pipe_5_payload_number (handle : option handle_t) : M D (Z * option Z) :=
  get_payload_number NRF24L01_REG_RX_PW_P5
    "nrf24l01: get pipe 5 payload number failed." handle.

Definition nrf24l01_get_fifo_status (handle : option handle_t) : M D (Z * option Z) :=
  checked_get handle (λ h,
    fetch_into h NRF24L01_REG_FIFO_STATUS "nrf24l01: get fifo status failed." id).

Definition nrf24l01_set_pipe_dynamic_payload (handle : option handle_t)
    (pipe : nrf24l01_pipe_t) (enable : nrf24l01_bool_t) : M D Z :=
  checked_op handle (λ h,
    update_register h NRF24L01_REG_DYNPD
      "nrf24l01: get dynamic payload length register failed."
      "nrf24l01: set dynamic payload length register failed."
      (λ prev, set_bits (bool_val enable) (pipe_val pipe)
                 (clear_bits 1 (pipe_val pipe) prev))).

Definition nrf24l01_get_pipe_dynamic_payload (handle : option handle_t)
    (pipe : nrf24l01_pipe_t) : M D (Z * option Z) :=
  checked_get handle (λ h,
    fetch_register h NRF24L01_REG_DYNPD
      "nrf24l01: get dynamic payload length register failed."
      (λ prev, Z.land (Z.shiftr prev (pipe_val pipe)) 0x01)).

Definition nrf24l01_set_dynamic_payload (handle : option handle_t)
    (enable : nrf24l01_bool_t) : M D Z :=
  checked_op handle (λ h,
    update_register h NRF24L01_REG_FEATURE
      "nrf24l01: get feature register failed." "nrf24l01: set feature register failed."
      (λ prev, set_bits (bool_val enable) 2 (clear_bits 1 2 prev))).

Definition nrf24l01_get_dynamic_payload (handle : option handle_t) : M D (Z * option Z) :=
  checked_get handle (λ h,
    fetch_register h NRF24L01_REG_FEATURE "nrf24l01: get feature register failed."
      (λ prev, Z.land (Z.shiftr prev 2) 0x01)).

Definition nrf24l01_set_payload_with_ack (handle : option handle_t)
    (enable : nrf24l01_bool_t) : M D Z :=
  checked_op handle (λ h,
    update_register h NRF24L01_REG_FEATURE
      "nrf24l01: get feature register failed." "nrf24l01: set feature register failed."
      (λ prev, set_bits (bool_val enable) 1 (clear_bits 1 1 prev))).

Definition nrf24l01_get_payload_with_ack (handle : option handle_t) : M D (Z * option Z) :=
  checked_get handle (λ h,
    fetch_register h NRF24L01_REG_FEATURE "nrf24l01: get feature register failed."
      (λ prev, Z.land (Z.shiftr prev 1) 0x01)).

Definition nrf24l01_set_tx_payload_with_no_ack (handle : option handle_t)
    (enable : nrf24l01_bool_t) : M D Z :=
  checked_op handle (λ h,
    update_register h NRF24L01_REG_FEATURE
      "nrf24l01: get feature register failed." "nrf24l01: set feature register failed."
      (λ prev, set_bits (bool_val enable) 0 (clear_bits 1 0 prev))).

Definition nrf24l01_get_tx_payload_with_no_ack (handle : option handle_t) : M D (Z * option Z) :=
  checked_get handle (λ h,
    fetch_register h NRF24L01_REG_FEATURE "nrf24l01: get feature register failed."
      (λ prev, Z.land (Z.shiftr prev 0) 0x01)).

(** ** Payloads and commands *)

(** [buf] is the caller's array; it is given back as the function leaves it. *)
Definition nrf24l01_read_rx_payload (handle : option handle_t) (buf : list Z) (len : Z) :
    M D (Z * list Z) :=
  checked (λ r, (r, buf)) handle (λ h,
    if decide (len > 32) then error_out h "nrf24l01: len is over 32." 4 buf else
    '(res, data) ← call_spi_read h NRF24L01_COMMAND_R_RX_PAYLOAD len;
    buf ← mlift OutOfBounds (store_prefix data buf);
    if decide (res ≠ 0) then error_out h "nrf24l01: get rx payload failed." 1 buf else
    buf ← mlift OutOfBounds (reverse_bytes (Z.to_nat len) buf);
    mret (0, buf)).

(** The three payload writers: copy at most 32 bytes, reverse them, send them
    behind a command. *)
Definition write_payload (command : Z) (msg : string) (handle : option handle_t)
    (buf : list Z) (len : Z) : M D Z :=
  checked_op handle (λ h,
    if decide (len > 32) then error h "nrf24l01: len is over 32." 4 else
    buffer ← mlift OutOfBounds (memcpy_local 32 (Z.to_nat len) buf);
    buffer ← mlift OutOfBounds (reverse_bytes (Z.to_nat len) buffer);
    res ← call_spi_write h command buffer;
    if decide (res = 0) then mret 0 else error h msg 1).

Definition nrf24l01_write_tx_payload (handle : option handle_t) (buf : list Z) (len : Z) : M D Z :=
  write_payload NRF24L01_COMMAND_W_TX_PAYLOAD "nrf24l01: set tx payload failed." handle buf len.

Definition nrf24l01_flush_tx (handle : option handle_t) : M D Z :=
  checked_op handle (λ h,
    send_command h NRF24L01_COMMAND_FLUSH_TX "nrf24l01: flush tx failed.").
Definition nrf24l01_flush_rx (handle : option handle_t) : M D Z :=
  checked_op handle (λ h,
    send_command h NRF24L01_COMMAND_FLUSH_RX "nrf24l01: flush rx failed.").
Definition nrf24l01_reuse_tx_payload (handle : option handle_t) : M D Z :=
  checked_op handle (λ h,
    send_command h NRF24L01_COMMAND_REUSE_TX_PL "nrf24l01: reuse tx payload failed.").

Definition nrf24l01_get_rx_payload_width (handle : option handle_t) : M D (Z * option Z) :=
  checked_get handle (λ h,
    '(res, data) ← call_spi_read h NRF24L01_COMMAND_R_RX_PL_WID 1;
    if decide (res = 0) then mret (0, head data)
    else error_out h "nrf24l01: get payload width failed." 1 (head data)).

Definition nrf24l01_write_payload_with_ack (handle : option handle_t)
    (pipe : nrf24l01_pipe_t) (buf : list Z) (len : Z) : M D Z :=
  write_payload (u8 (Z.lor NRF24L01_COMMAND_W_ACK_PAYLOAD (pipe_val pipe)))
    "nrf24l01: set payload with ack failed." handle buf len.

Definition nrf24l01_write_payload_with_no_ack (handle : option handle_t)
    (buf : list Z) (len : Z) : M D Z :=
  write_payload NRF24L01_COMMAND_W_TX_PAYLOAD_NO_ACK
    "nrf24l01: set payload with no ack failed." handle buf len.

Definition nrf24l01_nop (handle : option handle_t) : M D Z :=
  checked_op handle (λ h, send_command h NRF24L01_COMMAND_NOP "nrf24l01: nop failed.").

(** [buf] and [len] as the caller passes them: reading past [buf] is a fault. *)
Definition nrf24l01_set_reg (handle : option handle_t) (reg : Z) (buf : list Z) (len : Z) : M D Z :=
  checked_op handle (λ h,
    data ← mlift OutOfBounds (memcpy_local (Z.to_nat len) (Z.to_nat len) buf);
    a_nrf24l01_spi_write h reg data).

Definition nrf24l01_get_reg (handle : option handle_t) (reg : Z) (buf : list Z) (len : Z) :
    M D (Z * list Z) :=
  checked (λ r, (r, buf)) handle (λ h,
    '(res, data) ← a_nrf24l01_spi_read h reg len;
    buf ← mlift OutOfBounds (store_prefix data buf);
    mret (res, buf)).

End Driver.
