(* ===== verification/Nrf24l01Bus.v ===== *)
(** * The register file behind the driver

    What a working platform gives the driver of [Nrf24l01.v]: a register file
    that reads return and writes change.  [RegBus] states it of a handle; the
    theorems here hold of every handle that has it, and [NrfInterface.v] shows
    that the handle the program builds is one.

    Every setting of the chip is a [field] of one register.  The field theorem
    covers all the driver's setters and getters at once: a getter gives what
    its setter stored, and no other setting has changed. *)
From S2P Require Import Prelude Nrf24l01.

(** ** Registers *)

(** The registers that hold the configuration: the chip changes none of them
    by itself. *)
Definition config_regs : list Z :=
  [NRF24L01_REG_CONFIG; NRF24L01_REG_EN_AA; NRF24L01_REG_EN_RXADDR;
   NRF24L01_REG_SETUP_AW; NRF24L01_REG_SETUP_RETR; NRF24L01_REG_RF_CH;
   NRF24L01_REG_RF_SETUP; NRF24L01_REG_RX_ADDR_P0; NRF24L01_REG_RX_ADDR_P1;
   NRF24L01_REG_RX_ADDR_P2; NRF24L01_REG_RX_ADDR_P3; NRF24L01_REG_RX_ADDR_P4;
   NRF24L01_REG_RX_ADDR_P5; NRF24L01_REG_TX_ADDR; NRF24L01_REG_RX_PW_P0;
   NRF24L01_REG_RX_PW_P1; NRF24L01_REG_RX_PW_P2; NRF24L01_REG_RX_PW_P3;
   NRF24L01_REG_RX_PW_P4; NRF24L01_REG_RX_PW_P5; NRF24L01_REG_DYNPD;
   NRF24L01_REG_FEATURE].
Definition config_reg (r : Z) : Prop := r ∈ config_regs.
#[export] Instance config_reg_dec r : Decision (config_reg r) := _.

(** Bytes of a register: five for the addresses of pipes 0, 1 and of the
    transmitter, one for the others. *)
Definition reg_len (r : Z) : nat :=
  if decide (r = NRF24L01_REG_RX_ADDR_P0 ∨ r = NRF24L01_REG_RX_ADDR_P1 ∨
             r = NRF24L01_REG_TX_ADDR) then 5 else 1.

(** The implemented bits of a register; the reserved ones read as zero. *)
Definition reg_mask (r : Z) : Z :=
  if decide (r = NRF24L01_REG_CONFIG) then 0x7F
  else if decide (r = NRF24L01_REG_EN_AA) then 0x3F
  else if decide (r = NRF24L01_REG_EN_RXADDR) then 0x3F
  else if decide (r = NRF24L01_REG_SETUP_AW) then 0x03
  else if decide (r = NRF24L01_REG_RF_CH) then 0x7F
  else if decide (r = NRF24L01_REG_RF_SETUP) then 0xBF
  else if decide (NRF24L01_REG_RX_PW_P0 <= r <= NRF24L01_REG_RX_PW_P5) then 0x3F
  else if decide (r = NRF24L01_REG_DYNPD) then 0x3F
  else if decide (r = NRF24L01_REG_FEATURE) then 0x07
  else 0xFF.

(** A byte register [r] can hold. *)
Definition reg_byte (r b : Z) : Prop := is_u8 b ∧ Z.land b (reg_mask r) = b.
#[export] Instance reg_byte_dec r b : Decision (reg_byte r b).
Proof. unfold reg_byte, is_u8. apply _. Defined.

(** ** The contract *)

(** From [d] to [d'] at most the registers [rs] have changed. *)
Definition touched {W} (inv : W → Prop) (regs : W → Z → list Z) (ce : W → Z)
    (rs : list Z) (d d' : nrf24l01_dyn W) : Prop :=
  inv (world d') ∧ inited d' = inited d ∧ ce (world d') = ce (world d) ∧
  ∀ q, config_reg q → q ∉ rs → regs (world d') q = regs (world d) q.

Class RegBus {W : Type} (h : nrf24l01_handle W) (inv : W → Prop)
    (regs : W → Z → list Z) (ce : W → Z) : Prop := {
  regs_wf w r : inv w → config_reg r →
    length (regs w r) = reg_len r ∧ Forall (reg_byte r) (regs w r);
  bus_read d r n : inv (world d) → config_reg r → 1 <= n <= Z.of_nat (reg_len r) →
    wp (call_spi_read h r n) d (λ '(st, data) d',
      st = 0 ∧ data = take (Z.to_nat n) (regs (world d) r) ∧ touched inv regs ce [] d d');
  bus_write d r data : inv (world d) → config_reg r →
    (1 ≤ length data ≤ reg_len r)%nat → Forall is_u8 data →
    wp (call_spi_write h (Z.lor NRF24L01_COMMAND_W_REGISTER r) data) d (λ st d',
      st = 0 ∧
      regs (world d') r = ((λ b, Z.land b (reg_mask r)) <$> data)
                            ++ drop (length data) (regs (world d) r) ∧
      touched inv regs ce [r] d d');
  (* the status register: reads give a byte, writes clear interrupt flags *)
  bus_status_read d : inv (world d) →
    wp (call_spi_read h NRF24L01_REG_STATUS 1) d (λ '(st, data) d',
      st = 0 ∧ (∃ b, data = [b] ∧ is_u8 b) ∧ touched inv regs ce [] d d');
  bus_status_write d b : inv (world d) → is_u8 b →
    wp (call_spi_write h (Z.lor NRF24L01_COMMAND_W_REGISTER NRF24L01_REG_STATUS) [b]) d
      (λ st d', st = 0 ∧ touched inv regs ce [] d d');
  bus_command d cmd : inv (world d) →
    cmd ∈ [NRF24L01_COMMAND_FLUSH_TX; NRF24L01_COMMAND_FLUSH_RX; NRF24L01_COMMAND_NOP] →
    wp (call_spi_write h cmd []) d (λ st d', st = 0 ∧ touched inv regs ce [] d d');
  bus_ce d v : inv (world d) → v ∈ [0; 1] →
    wp (call_gpio_write h v) d (λ st d', st = 0 ∧
      inv (world d') ∧ inited d' = inited d ∧ ce (world d') = v ∧
      ∀ q, config_reg q → regs (world d') q = regs (world d) q)
}.

(** ** Fields *)

Inductive field : Type :=
  | FConfig (c : nrf24l01_config_t)
  | FMode
  | FAutoAck (p : nrf24l01_pipe_t)
  | FRxPipe (p : nrf24l01_pipe_t)
  | FAddressWidth
  | FRetransmitDelay
  | FRetransmitCount
  | FChannel
  | FCarrier
  | FPllLock
  | FDataRate
  | FOutputPower
  | FRx2Address
  | FRx3Address
  | FRx4Address
  | FRx5Address
  | FPayload (p : nrf24l01_pipe_t)
  | FPipeDynamic (p : nrf24l01_pipe_t)
  | FDynamic
  | FPayloadAck
  | FNoAck.

#[export] Instance config_eq_dec : EqDecision nrf24l01_config_t.
Proof. solve_decision. Defined.
#[export] Instance pipe_eq_dec : EqDecision nrf24l01_pipe_t.
Proof. solve_decision. Defined.
#[export] Instance field_eq_dec : EqDecision field.
Proof. solve_decision. Defined.

(** The enumerators a value stands for. *)
Definition bool_of (v : Z) : nrf24l01_bool_t :=
  if decide (v = 0) then NRF24L01_BOOL_FALSE else NRF24L01_BOOL_TRUE.
Definition mode_of (v : Z) : nrf24l01_mode_t :=
  if decide (v = 0) then NRF24L01_MODE_TX else NRF24L01_MODE_RX.
Definition width_of (v : Z) : nrf24l01_address_width_t :=
  if decide (v = 1) then NRF24L01_ADDRESS_WIDTH_3_BYTES
  else if decide (v = 2) then NRF24L01_ADDRESS_WIDTH_4_BYTES
  else if decide (v = 3) then NRF24L01_ADDRESS_WIDTH_5_BYTES
  else NRF24L01_ADDRESS_WIDTH_ILLEGAL.
Definition rate_of (v : Z) : nrf24l01_data_rate_t :=
  if decide (v = 0) then NRF24L01_DATA_RATE_1M
  else if decide (v = 1) then NRF24L01_DATA_RATE_2M
  else NRF24L01_DATA_RATE_250K.
Definition power_of (v : Z) : nrf24l01_output_power_t :=
  if decide (v = 0) then NRF24L01_OUTPUT_POWER_NEGATIVE_18_DBM
  else if decide (v = 1) then NRF24L01_OUTPUT_POWER_NEGATIVE_12_DBM
  else if decide (v = 2) then NRF24L01_OUTPUT_POWER_NEGATIVE_6_DBM
  else NRF24L01_OUTPUT_POWER_0_DBM.

(** The number of values of a field: its values are 0, ..., [field_size f - 1]. *)
Definition field_size (f : field) : nat :=
  match f with
  | FAddressWidth | FOutputPower => 4
  | FDataRate => 3
  | FRetransmitDelay | FRetransmitCount => 16
  | FChannel => 128
  | FRx2Address | FRx3Address | FRx4Address | FRx5Address => 256
  | FPayload _ => 64
  | _ => 2
  end.

(** The driver's setter and getter of a field. *)
Definition field_set {W} (f : field) (handle : option (nrf24l01_handle W)) (v : Z) :
    M (nrf24l01_dyn W) Z :=
  match f with
  | FConfig c => nrf24l01_set_config handle c (bool_of v)
  | FMode => nrf24l01_set_mode handle (mode_of v)
  | FAutoAck p => nrf24l01_set_auto_acknowledgment handle p (bool_of v)
  | FRxPipe p => nrf24l01_set_rx_pipe handle p (bool_of v)
  | FAddressWidth => nrf24l01_set_address_width handle (width_of v)
  | FRetransmitDelay => nrf24l01_set_auto_retransmit_delay handle v
  | FRetransmitCount => nrf24l01_set_auto_retransmit_count handle v
  | FChannel => nrf24l01_set_channel_frequency handle v
  | FCarrier => nrf24l01_set_continuous_carrier_transmit handle (bool_of v)
  | FPllLock => nrf24l01_set_force_pll_lock_signal handle (bool_of v)
  | FDataRate => nrf24l01_set_data_rate handle (rate_of v)
  | FOutputPower => nrf24l01_set_output_power handle (power_of v)
  | FRx2Address => nrf24l01_set_rx_pipe_2_address handle v
  | FRx3Address => nrf24l01_set_rx_pipe_3_address handle v
  | FRx4Address => nrf24l01_set_rx_pipe_4_address handle v
  | FRx5Address => nrf24l01_set_rx_pipe_5_address handle v
  | FPayload NRF24L01_PIPE_0 => nrf24l01_set_pipe_0_payload_number handle v
  | FPayload NRF24L01_PIPE_1 => nrf24l01_set_pipe_1_payload_number handle v
  | FPayload NRF24L01_PIPE_2 => nrf24l01_set_pipe_2_payload_number handle v
  | FPayload NRF24L01_PIPE_3 => nrf24l01_set_pipe_3_payload_number handle v
  | FPayload NRF24L01_PIPE_4 => nrf24l01_set_pipe_4_payload_number handle v
  | FPayload NRF24L01_PIPE_5 => nrf24l01_set_pipe_5_payload_number handle v
  | FPipeDynamic p => nrf24l01_set_pipe_dynamic_payload handle p (bool_of v)
  | FDynamic => nrf24l01_set_dynamic_payload handle (bool_of v)
  | FPayloadAck => nrf24l01_set_payload_with_ack handle (bool_of v)
  | FNoAck => nrf24l01_set_tx_payload_with_no_ack handle (bool_of v)
  end.

Definition field_get {W} (f : field) (handle : option (nrf24l01_handle W)) :
    M (nrf24l01_dyn W) (Z * option Z) :=
  match f with
  | FConfig c => nrf24l01_get_config handle c
  | FMode => nrf24l01_get_mode handle
  | FAutoAck p => nrf24l01_get_auto_acknowledgment handle p
  | FRxPipe p => nrf24l01_get_rx_pipe handle p
  | FAddressWidth => nrf24l01_get_address_width handle
  | FRetransmitDelay => nrf24l01_get_auto_retransmit_delay handle
  | FRetransmitCount => nrf24l01_get_auto_retransmit_count handle
  | FChannel => nrf24l01_get_channel_frequency handle
  | FCarrier => nrf24l01_get_continuous_carrier_transmit handle
  | FPllLock => nrf24l01_get_force_pll_lock_signal handle
  | FDataRate => nrf24l01_get_data_rate handle
  | FOutputPower => nrf24l01_get_output_power handle
  | FRx2Address => nrf24l01_get_rx_pipe_2_address handle
  | FRx3Address => nrf24l01_get_rx_pipe_3_address handle
  | FRx4Address => nrf24l01_get_rx_pipe_4_address handle
  | FRx5Address => nrf24l01_get_rx_pipe_5_address handle
  | FPayload NRF24L01_PIPE_0 => nrf24l01_get_pipe_0_payload_number handle
  | FPayload NRF24L01_PIPE_1 => nrf24l01_get_pipe_1_payload_number handle
  | FPayload NRF24L01_PIPE_2 => nrf24l01_get_pipe_2_payload_number handle
  | FPayload NRF24L01_PIPE_3 => nrf24l01_get_pipe_3_payload_number handle
  | FPayload NRF24L01_PIPE_4 => nrf24l01_get_pipe_4_payload_number handle
  | FPayload NRF24L01_PIPE_5 => nrf24l01_get_pipe_5_payload_number handle
  | FPipeDynamic p => nrf24l01_get_pipe_dynamic_payload handle p
  | FDynamic => nrf24l01_get_dynamic_payload handle
  | FPayloadAck => nrf24l01_get_payload_with_ack handle
  | FNoAck => nrf24l01_get_tx_payload_with_no_ack handle
  end.

(** The register of a field and the bits it has there. *)
Definition field_reg (f : field) : Z :=
  match f with
  | FConfig _ | FMode => NRF24L01_REG_CONFIG
  | FAutoAck _ => NRF24L01_REG_EN_AA
  | FRxPipe _ => NRF24L01_REG_EN_RXADDR
  | FAddressWidth => NRF24L01_REG_SETUP_AW
  | FRetransmitDelay | FRetransmitCount => NRF24L01_REG_SETUP_RETR
  | FChannel => NRF24L01_REG_RF_CH
  | FCarrier | FPllLock | FDataRate | FOutputPower => NRF24L01_REG_RF_SETUP
  | FRx2Address => NRF24L01_REG_RX_ADDR_P2
  | FRx3Address => NRF24L01_REG_RX_ADDR_P3
  | FRx4Address => NRF24L01_REG_RX_ADDR_P4
  | FRx5Address => NRF24L01_REG_RX_ADDR_P5
  | FPayload p => NRF24L01_REG_RX_PW_P0 + pipe_val p
  | FPipeDynamic _ => NRF24L01_REG_DYNPD
  | FDynamic | FPayloadAck | FNoAck => NRF24L01_REG_FEATURE
  end.

(** The bits of a field in its register, as the data sheet lays them out: the
    lowest bit and the number of bits.  The two bits of the data rate are
    apart, at 3 and 5. *)
Definition field_pos (f : field) : Z * Z :=
  match f with
  | FConfig c => (config_val c, 1)
  | FMode => (0, 1)
  | FAutoAck p | FRxPipe p | FPipeDynamic p => (pipe_val p, 1)
  | FAddressWidth => (0, 2)
  | FRetransmitDelay => (4, 4)
  | FRetransmitCount => (0, 4)
  | FChannel => (0, 7)
  | FCarrier => (7, 1)
  | FPllLock => (4, 1)
  | FDataRate => (3, 1)
  | FOutputPower => (1, 2)
  | FRx2Address | FRx3Address | FRx4Address | FRx5Address => (0, 8)
  | FPayload _ => (0, 6)
  | FDynamic => (2, 1)
  | FPayloadAck => (1, 1)
  | FNoAck => (0, 1)
  end.
Definition owns (f : field) (i : Z) : bool :=
  let '(pos, n) := field_pos f in
  ((pos <=? i) && (i <? pos + n)) || match f with FDataRate => i =? 5 | _ => false end.

(** The value a register byte gives a field. *)
Definition field_read (f : field) (b : Z) : Z :=
  match f with
  | FDataRate => Z.lor (Z.land (Z.shiftr b 3) 1) (Z.shiftl (Z.land (Z.shiftr b 5) 1) 1)
  | _ => let '(pos, n) := field_pos f in Z.land (Z.shiftr b pos) (Z.ones n)
  end.

(** [b'] is a byte of the field's register that has the value [v] for the
    field and the bits of [b] elsewhere. *)
Definition written (f : field) (v b b' : Z) : Prop :=
  field_read f b' = v ∧ ∀ i, 0 <= i → owns f i = false → Z.testbit b' i = Z.testbit b i.

Definition all_configs : list nrf24l01_config_t :=
  [NRF24L01_CONFIG_MASK_RX_DR; NRF24L01_CONFIG_MASK_TX_DS; NRF24L01_CONFIG_MASK_MAX_RT;
   NRF24L01_CONFIG_EN_CRC; NRF24L01_CONFIG_CRCO; NRF24L01_CONFIG_PWR_UP].
Definition all_pipes : list nrf24l01_pipe_t :=
  [NRF24L01_PIPE_0; NRF24L01_PIPE_1; NRF24L01_PIPE_2; NRF24L01_PIPE_3;
   NRF24L01_PIPE_4; NRF24L01_PIPE_5].
Definition all_fields : list field :=
  (FConfig <$> all_configs) ++ (FAutoAck <$> all_pipes) ++ (FRxPipe <$> all_pipes) ++
  (FPayload <$> all_pipes) ++ (FPipeDynamic <$> all_pipes) ++
  [FMode; FAddressWidth; FRetransmitDelay; FRetransmitCount; FChannel; FCarrier;
   FPllLock; FDataRate; FOutputPower; FRx2Address; FRx3Address; FRx4Address;
   FRx5Address; FDynamic; FPayloadAck; FNoAck].

(** Two fields of a register share no bit. *)
Definition disjoint_fields (f g : field) : bool :=
  if bool_decide (f ≠ g ∧ field_reg f = field_reg g)
  then forallb (λ i, negb (owns f i && owns g i)) (below 8) else true.

Lemma all_fields_complete f : In f all_fields.
Proof.
  apply list_elem_of_In. refine (bool_decide_unpack (f ∈ all_fields) _).
  destruct f as [c| |p|p| | | | | | | | | | | | |p|p| | |];
    try destruct c; try destruct p; vm_compute; exact I.
Qed.

Lemma disjoint_fields_check :
  forallb (λ f, forallb (disjoint_fields f) all_fields) all_fields = true.
Proof. vm_compute. reflexivity. Qed.

Lemma owns_byte f i : owns f i = true → 0 <= i < 8.
Proof.
  unfold owns, field_pos.
  destruct f as [c| |p|p| | | | | | | | | | | | |p|p| | |];
    try destruct c; try destruct p; cbn -[Z.leb Z.ltb Z.eqb Z.add]; lia.
Qed.

Lemma owns_disjoint f g i :
  f ≠ g → field_reg f = field_reg g → owns f i = true → owns g i = false.
Proof.
  intros Hfg Hr Hi. pose proof (owns_byte _ _ Hi) as Hb.
  pose proof disjoint_fields_check as H. rewrite forallb_forall in H.
  specialize (H f (all_fields_complete f)). rewrite forallb_forall in H.
  specialize (H g (all_fields_complete g)). unfold disjoint_fields in H.
  rewrite bool_decide_eq_true_2 in H by done.
  eapply forall_below in H; [|exact Hb]. cbv beta in H. rewrite Hi in H.
  by destruct (owns g i).
Qed.

Lemma field_reg_config f : config_reg (field_reg f) ∧ reg_len (field_reg f) = 1%nat.
Proof.
  destruct f as [c| |p|p| | | | | | | | | | | | |p|p| | |];
    try destruct p; (split; [refine (bool_decide_unpack (config_reg _) _)|]); vm_compute; done.
Qed.

(** ** Fields as bits *)

Lemma field_read_bit f b j :
  0 <= j → f ≠ FDataRate →
  Z.testbit (field_read f b) j = (j <? (field_pos f).2) && Z.testbit b ((field_pos f).1 + j).
Proof.
  intros Hj Hf. assert (Hp : 0 <= (field_pos f).1 ∧ 0 <= (field_pos f).2).
  { destruct f as [c| |p|p| | | | | | | | | | | | |p|p| | |];
      try destruct c; try destruct p; vm_compute; done. }
  unfold field_read. destruct (field_pos f) as [pos n]; simpl in *.
  destruct f; try done; rewrite Z.land_spec, Z.shiftr_spec, testbit_ones by lia;
    rewrite andb_comm; do 2 f_equal; lia.
Qed.

Lemma field_read_ext f b b' :
  (∀ i, owns f i = true → Z.testbit b i = Z.testbit b' i) → field_read f b = field_read f b'.
Proof.
  intros H. destruct (decide (f = FDataRate)) as [->|Hf].
  - unfold field_read. apply Z.bits_inj'. intros i Hi.
    rewrite !Z.lor_spec. repeat rewrite Z.shiftl_spec by lia. rewrite !Z.land_spec.
    rewrite testbit_1 by lia. f_equal.
    + destruct (Z.eqb_spec i 0) as [->|]; [|by rewrite !andb_false_r].
      repeat rewrite Z.shiftr_spec by lia. by rewrite (H (0 + 3)).
    + destruct (Z.leb_spec 1 i); [|by rewrite !Z.testbit_neg_r by lia].
      repeat rewrite Z.shiftr_spec by lia. rewrite testbit_1 by lia.
      destruct (Z.eqb_spec (i - 1) 0) as [->|]; [|by rewrite !andb_false_r].
      by rewrite (H (0 + 5)).
  - apply Z.bits_inj'. intros j Hj. rewrite !field_read_bit by done.
    destruct (Z.ltb_spec j (field_pos f).2); [|done]. apply H.
    unfold owns. destruct (field_pos f); simpl in *. lia.
Qed.

(** The bits of the fields whose value has two or more: all the bits of the
    field are implemented. *)
Lemma field_mask f i :
  f ≠ FDataRate → (field_pos f).1 <= i < (field_pos f).1 + (field_pos f).2 →
  Z.testbit (reg_mask (field_reg f)) i = true ∧ i < 8.
Proof.
  intros Hf Hi.
  assert (H : forallb (λ f, forallb (λ i, implb (owns f i) (Z.testbit (reg_mask (field_reg f)) i))
    (below 8)) all_fields = true) by (vm_compute; reflexivity).
  assert (Ho : owns f i = true) by (unfold owns; destruct (field_pos f); simpl in *; lia).
  pose proof (owns_byte _ _ Ho) as Hb. split; [|lia].
  rewrite forallb_forall in H. specialize (H f (all_fields_complete f)).
  eapply forall_below in H; [|exact Hb]. cbv beta in H. by rewrite Ho in H.
Qed.

Lemma field_size_pow f : f ≠ FDataRate → Z.of_nat (field_size f) = 2 ^ (field_pos f).2.
Proof.
  destruct f as [c| |p|p| | | | | | | | | | | | |p|p| | |];
    try destruct c; try destruct p; done.
Qed.

Lemma field_pos_range f : 0 <= (field_pos f).1 ∧ 0 <= (field_pos f).2.
Proof.
  destruct f as [c| |p|p| | | | | | | | | | | | |p|p| | |];
    try destruct c; try destruct p; vm_compute; done.
Qed.

(** Clearing the bits of a field and setting them again writes the field. *)
Lemma written_set_clear f v b :
  f ≠ FDataRate → 0 <= v < Z.of_nat (field_size f) → reg_byte (field_reg f) b →
  written f v b (Z.land (set_bits v (field_pos f).1
                    (clear_bits (Z.ones (field_pos f).2) (field_pos f).1 b))
                  (reg_mask (field_reg f))).
Proof.
  intros Hf Hv [Hb Hm]. rewrite field_size_pow in Hv by done.
  pose proof (field_pos_range f) as [??]. split.
  - apply Z.bits_inj'. intros j Hj. rewrite field_read_bit by done.
    destruct (Z.ltb_spec j (field_pos f).2); simpl.
    + pose proof (field_mask f ((field_pos f).1 + j) Hf ltac:(lia)) as [Hbit ?].
      rewrite Z.land_spec, set_clear_bit, Hbit by lia.
      replace ((_ <? 8)) with true by lia. replace ((_ <=? _) && _) with true by lia.
      rewrite andb_true_r. simpl. f_equal. lia.
    + symmetry. by eapply testbit_small.
  - intros i Hi Ho. assert (Hn : ((field_pos f).1 <=? i) && (i <? (field_pos f).1 + (field_pos f).2) = false).
    { unfold owns in Ho. destruct (field_pos f); simpl. by apply orb_false_elim in Ho as [? _]. }
    rewrite Z.land_spec, set_clear_bit, Hn by lia.
    destruct (Z.ltb_spec i 8); simpl; [by apply testbit_masked|].
    by rewrite (byte_testbit_high b) by done.
Qed.

(** The fields that are a whole register are written without a read. *)
Lemma written_whole f v b :
  f ≠ FDataRate → (field_pos f).1 = 0 → reg_mask (field_reg f) = Z.ones (field_pos f).2 →
  0 <= v < Z.of_nat (field_size f) → reg_byte (field_reg f) b →
  written f v b (Z.land v (reg_mask (field_reg f))).
Proof.
  intros Hf Hp Hmask Hv [Hb Hm]. rewrite field_size_pow in Hv by done.
  pose proof (field_pos_range f) as [_ ?].
  assert (Hval : Z.land v (reg_mask (field_reg f)) = v).
  { rewrite Hmask, Z.land_ones by done. by apply Z.mod_small. }
  rewrite Hval. split.
  - apply Z.bits_inj'. intros j Hj. rewrite field_read_bit, Hp by done. simpl.
    destruct (Z.ltb_spec j (field_pos f).2); [done|]. symmetry. by eapply testbit_small.
  - intros i Hi Ho. assert (Hn : ((field_pos f).2 <= i)).
    { unfold owns in Ho. destruct (field_pos f); simpl in *. lia. }
    rewrite (testbit_small v (field_pos f).2) by done.
    rewrite <-(testbit_masked b _ _ Hm), Hmask, testbit_ones by lia.
    replace (i <? _) with false by lia. by rewrite andb_false_r.
Qed.

Definition rate_enc (v prev : Z) : Z :=
  set_bits (Z.land (Z.shiftr v 1) 0x1) 5 (set_bits (Z.land (Z.shiftr v 0) 0x1) 3
    (clear_bits 1 3 (clear_bits 1 5 prev))).

Lemma written_rate v b :
  0 <= v < 4 → reg_byte NRF24L01_REG_RF_SETUP b →
  written FDataRate v b (Z.land (rate_enc v b) (reg_mask NRF24L01_REG_RF_SETUP)).
Proof.
  intros Hv [Hb Hm]. change 4 with (Z.of_nat 4) in Hv.
  assert (Hbit : ∀ i, 0 <= i → Z.testbit (rate_enc v b) i =
     (i <? 8) && if i =? 3 then Z.testbit v 0 else if i =? 5 then Z.testbit v 1
                 else Z.testbit b i).
  { intros i Hi. unfold rate_enc, set_bits, clear_bits.
    repeat (rewrite ?testbit_u8, ?Z.lor_spec, ?Z.land_spec, ?Z.lnot_spec, ?Z.shiftl_spec by lia).
    destruct (Z.ltb_spec i 8); [|done].
    assert (i ∈ below 8) as Hin by (apply below_spec; lia). vm_compute in Hin.
    repeat (apply elem_of_cons in Hin as [->|Hin]); [..|by apply elem_of_nil in Hin];
      cbn; rewrite ?Z.land_spec, ?andb_true_r, ?andb_false_r, ?orb_false_r; cbn;
      rewrite ?Z.shiftr_spec by lia; try done.
    all: by rewrite ?andb_true_r. }
  split.
  - pose proof (λ i, Z.land_spec (rate_enc v b) (reg_mask NRF24L01_REG_RF_SETUP) i) as Hl.
    set (x := Z.land (rate_enc v b) (reg_mask NRF24L01_REG_RF_SETUP)) in *. unfold field_read.
    assert (H3 : Z.testbit x 3 = Z.testbit v 0) by (rewrite Hl, Hbit by lia; apply andb_true_r).
    assert (H5 : Z.testbit x 5 = Z.testbit v 1) by (rewrite Hl, Hbit by lia; apply andb_true_r).
    apply Z.bits_inj'. intros i Hi.
    rewrite Z.lor_spec, Z.shiftl_spec, Z.land_spec, Z.shiftr_spec by lia.
    rewrite testbit_1 by lia. destruct (Z.eqb_spec i 0) as [->|?].
    { change (0 + 3) with 3. rewrite H3. cbn. by rewrite andb_true_r, orb_false_r. }
    rewrite andb_false_r, Z.land_spec, Z.shiftr_spec, testbit_1 by lia.
    destruct (Z.eqb_spec (i - 1) 0) as [Hi1|?].
    { replace i with 1 by lia. change (1 - 1 + 5) with 5. rewrite H5. by rewrite andb_true_r. }
    rewrite andb_false_r. symmetry.
    apply (testbit_small v 2); lia.
  - intros i Hi Ho. unfold owns in Ho; simpl in Ho.
    rewrite Z.land_spec, Hbit by done.
    replace (i =? 3) with false by lia. replace (i =? 5) with false by lia.
    destruct (Z.ltb_spec i 8); simpl; [by apply testbit_masked|].
    by rewrite (byte_testbit_high b) by done.
Qed.

(** ** The shapes the register functions share, on a working bus *)

Section Bus.
Context {W : Type} (h : nrf24l01_handle W) (inv : W → Prop)
  (regs : W → Z → list Z) (ce : W → Z) `{Hbus : !RegBus h inv regs ce}.
#[local] Abbreviation touched := (touched inv regs ce).

Lemma touched_refl d : inv (world d) → touched [] d d.
Proof. done. Qed.

Lemma touched_trans rs rs' d1 d2 d3 :
  touched rs d1 d2 → touched rs' d2 d3 → touched (rs ++ rs') d1 d3.
Proof.
  intros (H1&H2&H3&H4) (H5&H6&H7&H8). split_and!; [done|congruence..|].
  intros q Hq [??]%not_elem_of_app. by rewrite H8, H4.
Qed.

Lemma touched_weaken rs rs' d d' : touched rs d d' → rs ⊆ rs' → touched rs' d d'.
Proof. intros (H1&H2&H3&H4) Hs. split_and!; [done..|]. intros q Hq Hn. apply H4; [done|]. intros Hin. by apply Hn, Hs. Qed.

Lemma touched_inv rs d d' : touched rs d d' → inv (world d').
Proof. by intros (?&_). Qed.

Lemma touched_regs rs d d' q :
  touched rs d d' → config_reg q → q ∉ rs → regs (world d') q = regs (world d) q.
Proof. intros (_&_&_&H). apply H. Qed.

Lemma one_byte w r :
  inv w → config_reg r → reg_len r = 1%nat → ∃ b, regs w r = [b] ∧ reg_byte r b.
Proof.
  intros Hi Hr Hl. destruct (regs_wf w r Hi Hr) as [Hn Hf]. rewrite Hl in Hn.
  destruct (regs w r) as [|b [|]]; simpl in Hn; try lia. exists b. by inv Hf.
Qed.

Lemma spi_read_spec d r n :
  inv (world d) → config_reg r → 1 <= n <= Z.of_nat (reg_len r) →
  wp (a_nrf24l01_spi_read h r n) d (λ '(st, data) d',
    st = 0 ∧ data = take (Z.to_nat n) (regs (world d) r) ∧ touched [] d d').
Proof.
  intros Hi Hr Hn. unfold a_nrf24l01_spi_read, NRF24L01_COMMAND_R_REGISTER.
  rewrite Z.lor_0_l. wp_with @bus_read; [done..|].
  intros [st data] d' (-> & -> & Ht). by apply wp_ret.
Qed.

Lemma spi_write_spec d r data :
  inv (world d) → config_reg r → (1 ≤ length data ≤ reg_len r)%nat → Forall is_u8 data →
  wp (a_nrf24l01_spi_write h r data) d (λ st d',
    st = 0 ∧
    regs (world d') r = ((λ b, Z.land b (reg_mask r)) <$> data)
                          ++ drop (length data) (regs (world d) r) ∧
    touched [r] d d').
Proof.
  intros Hi Hr Hn Hd. unfold a_nrf24l01_spi_write. wp_with @bus_write; [done..|].
  intros st d' (-> & ? & ?). by apply wp_ret.
Qed.

(** One byte written to a one-byte register. *)
Lemma spi_write_byte_spec d r v :
  inv (world d) → config_reg r → reg_len r = 1%nat → is_u8 v →
  wp (a_nrf24l01_spi_write h r [v]) d (λ st d',
    st = 0 ∧ regs (world d') r = [Z.land v (reg_mask r)] ∧ touched [r] d d').
Proof.
  intros Hi Hr Hl Hv. eapply wp_mono; [apply spi_write_spec; try done|].
  - rewrite Hl. simpl. lia.
  - by constructor.
  - intros st d' (-> & Hd & ?). split_and!; [done| |done]. rewrite Hd.
    destruct (one_byte _ _ Hi Hr Hl) as (b & -> & _). done.
Qed.

Lemma update_register_spec d r gm sm f b :
  inv (world d) → config_reg r → reg_len r = 1%nat → regs (world d) r = [b] →
  is_u8 (f b) →
  wp (update_register h r gm sm f) d (λ res d',
    res = 0 ∧ regs (world d') r = [Z.land (f b) (reg_mask r)] ∧ touched [r] d d').
Proof.
  intros Hi Hr Hl Hb Hf. unfold update_register. wp_with spi_read_spec; [done..|rewrite Hl; lia|].
  intros [st data] d1 (-> & -> & Ht1). rewrite Hb. simpl.
  apply wp_bind. apply wp_ret. wp_with spi_write_byte_spec; [by eapply touched_inv|done..|].
  intros st d2 (-> & Hr2 & Ht2). apply wp_ret. split_and!; [done..|].
  by apply (touched_trans [] [r] _ d1).
Qed.

Lemma fetch_register_spec d r msg f b :
  inv (world d) → config_reg r → reg_len r = 1%nat → regs (world d) r = [b] →
  wp (fetch_register h r msg f) d (λ '(res, o) d',
    res = 0 ∧ o = Some (f b) ∧ touched [] d d').
Proof.
  intros Hi Hr Hl Hb. unfold fetch_register. wp_with spi_read_spec; [done..|rewrite Hl; lia|].
  intros [st data] d1 (-> & -> & Ht1). rewrite Hb. by apply wp_ret.
Qed.

Lemma fetch_into_spec d r msg f b :
  inv (world d) → config_reg r → reg_len r = 1%nat → regs (world d) r = [b] →
  wp (fetch_into h r msg f) d (λ '(res, o) d',
    res = 0 ∧ o = Some (f b) ∧ touched [] d d').
Proof.
  intros Hi Hr Hl Hb. unfold fetch_into. wp_with spi_read_spec; [done..|rewrite Hl; lia|].
  intros [st data] d1 (-> & -> & Ht1). rewrite Hb. by apply wp_ret.
Qed.

Lemma write_register_spec d r msg v :
  inv (world d) → config_reg r → reg_len r = 1%nat → is_u8 v →
  wp (write_register h r msg v) d (λ res d',
    res = 0 ∧ regs (world d') r = [Z.land v (reg_mask r)] ∧ touched [r] d d').
Proof.
  intros Hi Hr Hl Hv. unfold write_register. wp_with spi_write_byte_spec; [done..|].
  intros st d' (-> & ? & ?). by apply wp_ret.
Qed.

Lemma checked_spec {R} (fail : Z → R) (body : nrf24l01_handle W → M (nrf24l01_dyn W) R) d Q :
  inited d = 1 → wp (body h) d Q → wp (checked fail (Some h) body) d Q.
Proof.
  intros Hi Hb. unfold checked. apply wp_bind, wp_gets.
  by rewrite decide_True by done.
Qed.

(** ** Setters and getters *)

(** What a setter establishes. *)
Definition set_post (f : field) (v : Z) (d : nrf24l01_dyn W) (res : Z) (d' : nrf24l01_dyn W) : Prop :=
  res = 0 ∧ touched [field_reg f] d d' ∧
  ∃ b b', regs (world d) (field_reg f) = [b] ∧ regs (world d') (field_reg f) = [b'] ∧
          written f v b b'.

Lemma update_field f v d gm sm enc :
  f ≠ FDataRate → inv (world d) → 0 <= v < Z.of_nat (field_size f) →
  (∀ b, enc b = set_bits v (field_pos f).1 (clear_bits (Z.ones (field_pos f).2) (field_pos f).1 b)) →
  wp (update_register h (field_reg f) gm sm enc) d (set_post f v d).
Proof.
  intros Hf Hi Hv He. destruct (field_reg_config f) as [Hr Hl].
  destruct (one_byte _ _ Hi Hr Hl) as (b & Hb & Hbyte).
  eapply wp_mono; [apply (update_register_spec d _ gm sm enc b); try done|].
  - by rewrite He.
  - intros res d' (-> & Hd & Ht). split_and!; [done..|]. eexists _, _. split_and!; [done..|].
    rewrite He. by apply written_set_clear.
Qed.

Lemma update_rate v d gm sm enc :
  inv (world d) → 0 <= v < 3 → (∀ b, enc b = rate_enc v b) →
  wp (update_register h NRF24L01_REG_RF_SETUP gm sm enc) d (set_post FDataRate v d).
Proof.
  intros Hi Hv He. destruct (field_reg_config FDataRate) as [Hr Hl].
  destruct (one_byte _ _ Hi Hr Hl) as (b & Hb & Hbyte).
  eapply wp_mono; [apply (update_register_spec d _ gm sm enc b); try done|].
  - rewrite He. apply u8_range.
  - intros res d' (-> & Hd & Ht). split_and!; [done..|]. eexists _, _. split_and!; [done..|].
    rewrite He. apply written_rate; [lia|done].
Qed.

Lemma write_field f v d msg :
  f ≠ FDataRate → (field_pos f).1 = 0 → reg_mask (field_reg f) = Z.ones (field_pos f).2 →
  inv (world d) → 0 <= v < Z.of_nat (field_size f) →
  wp (write_register h (field_reg f) msg v) d (set_post f v d).
Proof.
  intros Hf Hp Hm Hi Hv. destruct (field_reg_config f) as [Hr Hl].
  destruct (one_byte _ _ Hi Hr Hl) as (b & Hb & Hbyte).
  assert (is_u8 v).
  { rewrite field_size_pow in Hv by done. pose proof (field_pos_range f).
    destruct (decide (v = 0)) as [->|]; [done|].
    destruct (field_mask f ((field_pos f).2 - 1) Hf) as [_ ?].
    { assert (0 < (field_pos f).2); [|lia].
      destruct (decide ((field_pos f).2 = 0)) as [E|]; [rewrite E in Hv; simpl in Hv; lia|lia]. }
    assert (2 ^ (field_pos f).2 <= 2 ^ 8) by (apply Z.pow_le_mono_r; lia).
    unfold is_u8. change 256 with (2 ^ 8). lia. }
  eapply wp_mono; [apply (write_register_spec d _ msg v); try done|].
  intros res d' (-> & Hd & Ht). split_and!; [done..|]. eexists _, _. split_and!; [done..|].
  by apply written_whole.
Qed.

Lemma bool_of_val v : 0 <= v < 2 → bool_val (bool_of v) = v.
Proof. intros. unfold bool_of. destruct (decide _); simpl; lia. Qed.
Lemma mode_of_val v : 0 <= v < 2 → mode_val (mode_of v) = v.
Proof. intros. unfold mode_of. destruct (decide _); simpl; lia. Qed.
Lemma width_of_val v : 0 <= v < 4 → address_width_val (width_of v) = v.
Proof. intros. unfold width_of. repeat destruct (decide _); simpl; lia. Qed.
Lemma rate_of_val v : 0 <= v < 3 → data_rate_val (rate_of v) = v.
Proof. intros. unfold rate_of. repeat destruct (decide _); simpl; lia. Qed.
Lemma power_of_val v : 0 <= v < 4 → output_power_val (power_of v) = v.
Proof. intros. unfold power_of. repeat destruct (decide _); simpl; lia. Qed.

Lemma field_set_spec f v d :
  inited d = 1 → inv (world d) → 0 <= v < Z.of_nat (field_size f) →
  wp (field_set f (Some h) v) d (set_post f v d).
Proof.
  intros Hin Hi Hv. pose proof Hv as Hv'.
  destruct f as [c| |p|p| | | | | | | | | | | | |p|p| | |];
    try destruct c; try destruct p;
    (apply checked_spec; [exact Hin|]); simpl field_size in Hv'; cbv beta;
    rewrite ?decide_False by lia.
  all: match goal with |- wp _ _ (set_post ?f _ _) =>
    first
      [ apply update_rate; [done|done|]; intros b; by rewrite rate_of_val by lia
      | apply (write_field f); done
      | apply (update_field f); [done..|]; intros b;
        rewrite ?bool_of_val, ?mode_of_val, ?width_of_val, ?power_of_val by lia; done ]
    end.
Qed.

Lemma field_get_spec f d :
  inited d = 1 → inv (world d) →
  wp (field_get f (Some h)) d (λ '(res, o) d',
    res = 0 ∧ touched [] d d' ∧
    ∃ b, regs (world d) (field_reg f) = [b] ∧ o = Some (field_read f b)).
Proof.
  intros Hin Hi. destruct (field_reg_config f) as [Hr Hl].
  destruct (one_byte _ _ Hi Hr Hl) as (b & Hb & Hbyte).
  assert (H8 : b = Z.land (Z.shiftr b 0) (Z.ones 8)).
  { rewrite Z.shiftr_0_r, Z.land_ones by done. symmetry. apply Z.mod_small, Hbyte. }
  destruct f as [c| |p|p| | | | | | | | | | | | |p|p| | |];
    try destruct c; try destruct p; (apply checked_spec; [exact Hin|]);
    (eapply wp_mono;
      [ first [ apply (fetch_register_spec d _ _ _ b); done | apply (fetch_into_spec d _ _ _ b); done ]
      | intros [res o] d' (-> & -> & Ht); split_and!; [done..|]; exists b; split; [done|] ]).
  all: unfold field_read, field_pos; simpl; rewrite ?Z.shiftr_0_r in *; try done.
  all: by rewrite <-H8.
Qed.

(** The register after a setter and another world's same register. *)
Lemma field_read_written f g v b b' :
  written f v b b' → field_reg g = field_reg f →
  field_read g b' = if decide (g = f) then v else field_read g b.
Proof.
  intros [Hv Hb] Hr. destruct (decide (g = f)) as [->|Hn]; [done|].
  apply field_read_ext. intros i Hi. apply Hb; [apply (owns_byte _ _ Hi)|].
  by apply (owns_disjoint g f).
Qed.

End Bus.

(** ** Byte reversal *)

Lemma reverse_loop_spec n : ∀ i len (buf : list Z),
  (len ≤ length buf)%nat → (2 * (i + n) ≤ len)%nat →
  ∃ buf', reverse_loop n i len buf = Some buf' ∧ length buf' = length buf ∧
    ∀ j, (j < length buf)%nat → buf' !! j =
      if decide ((i ≤ j < i + n) ∨ (i + j < len ∧ len ≤ i + n + j))%nat
      then buf !! (len - 1 - j)%nat else buf !! j.
Proof.
  induction n as [|n IH]; intros i len buf Hlen Hn; simpl.
  { eexists. split_and!; [done..|]. intros j Hj. by rewrite decide_False by lia. }
  destruct (lookup_lt_is_Some_2 buf i) as [x Hx]; [lia|].
  destruct (lookup_lt_is_Some_2 buf (len - 1 - i)) as [y Hy]; [lia|].
  rewrite Hx; simpl. rewrite Hy; simpl.
  destruct (IH (S i) len (<[(len - 1 - i)%nat:=x]> (<[i:=y]> buf))) as (buf' & -> & Hl & Hb);
    [by rewrite !length_insert|lia|].
  rewrite !length_insert in *. eexists. split_and!; [done..|]. intros j Hj. rewrite Hb by done.
  destruct (decide (j = i)) as [->|].
  { rewrite decide_False, decide_True by lia. rewrite list_lookup_insert_ne by lia.
    by rewrite list_lookup_insert_eq, Hy by lia. }
  destruct (decide (j = len - 1 - i)%nat) as [->|].
  { rewrite decide_False, decide_True by lia.
    rewrite list_lookup_insert_eq by (rewrite length_insert; lia).
    rewrite <-Hx. f_equal. lia. }
  destruct (decide (S i ≤ j < S i + n ∨ _)%nat).
  - rewrite decide_True by lia. by rewrite !list_lookup_insert_ne by lia.
  - rewrite decide_False by lia. by rewrite !list_lookup_insert_ne by lia.
Qed.

Lemma reverse_bytes_spec len (buf : list Z) :
  (len ≤ length buf)%nat → reverse_bytes len buf = Some (reverse (take len buf) ++ drop len buf).
Proof.
  intros Hlen. unfold reverse_bytes.
  pose proof (Nat.Div0.div_mod len 2) as Hd. pose proof (Nat.mod_upper_bound len 2) as Hm.
  destruct (reverse_loop_spec (len / 2) 0 len buf) as (buf' & -> & Hl & Hb); [lia..|].
  f_equal. apply (list_eq_same_length _ _ (length buf)); [|done|].
  { rewrite length_app, length_reverse, length_take, length_drop. lia. }
  intros j x y Hj Hx Hy. rewrite Hb in Hx by done.
  destruct (decide (j < len)%nat) as [Hjl|Hjl].
  - rewrite lookup_app_l in Hy by (rewrite length_reverse, length_take; lia).
    rewrite reverse_lookup in Hy by (rewrite length_take; lia).
    rewrite length_take, lookup_take_lt in Hy by lia.
    replace (min len (length buf) - S j)%nat with (len - 1 - j)%nat in Hy by lia.
    destruct (decide _) as [|Hnd] in Hx; [congruence|].
    assert (j = len - 1 - j)%nat as E by lia. rewrite <-E in Hy. congruence.
  - rewrite lookup_app_r in Hy by (rewrite length_reverse, length_take; lia).
    rewrite lookup_drop, length_reverse, length_take in Hy.
    rewrite decide_False in Hx by lia.
    replace (len + (j - min len (length buf)))%nat with j in Hy by lia. congruence.
Qed.
