(* ===== verification/NrfInterface.v ===== *)
(** * The platform under the radio driver: [src/src/nrf24l01/nrf24l01_interface.c]

    The hooks the program links into the driver's handle, over the HAL calls
    they make.  The HAL (SPI peripheral, pins, sleep) is not modelled: its
    calls are the parameters [spiStart], [spiExchange], ... of the definitions.
    [SpiChip] states what a radio chip wired to that SPI does with the frames
    it is sent (nRF24L01+ data sheet, chapter 8), and [interface_bus] derives
    the driver's contract [RegBus] from it.  [Sim] is a small chip that
    satisfies it, the instance the concrete examples run on. *)
From S2P Require Import Prelude Nrf24l01 Nrf24l01Bus.

Definition SPI_BUFFER_SIZE : nat := 34.
Definition HAL_RET_SUCCESS : Z := 0.

Section Interface.
Context {W : Type}.
#[local] Abbreviation D := (nrf24l01_dyn W).
(** The HAL.  [spiExchange tx] clocks the bytes [tx] out and gives the message
    code and the bytes the controller stored in the receive buffer. *)
Context (spiStart : M D Z) (spiExchange : list Z → M D (Z * list Z))
  (spiSend : list Z → M D Z)
  (spiAcquireBus spiSelect spiUnselect spiReleaseBus : M D unit)
  (palSetLine palClearLine : M D unit) (chThdSleepMilliseconds : Z → M D unit)
  (debug_hook : string → list (option Z) → M D unit).

Definition nrf24l01_interface_spi_init : M D Z :=
  msg ← spiStart;
  if decide (msg ≠ HAL_RET_SUCCESS) then mret 1 else mret 0.
Definition nrf24l01_interface_gpio_init : M D Z := mret 0.
Definition nrf24l01_interface_spi_deinit : M D Z := mret 0.
Definition nrf24l01_interface_gpio_deinit : M D Z := mret 0.

(** The transmit buffer: zeros, the command, then the data. *)
Definition fill_tx_buffer (reg : Z) (data : list Z) : option (list Z) :=
  store_prefix (reg :: data) (replicate SPI_BUFFER_SIZE 0).

(** [buf = None] is a null pointer; the bytes stored to [buf] are returned. *)
Definition nrf24l01_interface_spi_read (reg : Z) (buf : option unit) (len : Z) :
    M D (Z * list Z) :=
  match buf with
  | None => mret (1, [])
  | Some _ =>
      if decide (len = 0 ∨ u32 len + 1 > Z.of_nat SPI_BUFFER_SIZE) then mret (1, []) else
      tx ← mlift OutOfBounds (fill_tx_buffer reg []);
      spiAcquireBus;;
      spiSelect;;
      '(msg, stored) ← spiExchange (take (Z.to_nat (len + 1)) tx);
      spiUnselect;;
      spiReleaseBus;;
      rx ← mlift OutOfBounds (store_prefix stored (replicate SPI_BUFFER_SIZE 0));
      let data := take (Z.to_nat len) (drop 1 rx) in
      if decide (msg = HAL_RET_SUCCESS) then mret (0, data) else mret (1, data)
  end.

Definition nrf24l01_interface_spi_write (reg : Z) (data : list Z) : M D Z :=
  let len := Z.of_nat (length data) in
  if decide (len >= Z.of_nat SPI_BUFFER_SIZE) then mret 1 else
  tx ← mlift OutOfBounds (fill_tx_buffer reg data);
  spiAcquireBus;;
  spiSelect;;
  msg ← spiSend (take (Z.to_nat (len + 1)) tx);
  spiUnselect;;
  spiReleaseBus;;
  if decide (msg = HAL_RET_SUCCESS) then mret 0 else mret 1.

Definition nrf24l01_interface_gpio_write (data : Z) : M D Z :=
  if decide (data ≠ 0) then palSetLine;; mret 0 else palClearLine;; mret 0.

Definition nrf24l01_interface_delay_ms (ms : Z) : M D unit := chThdSleepMilliseconds ms.

(** A placeholder in the source: every path returns without an effect. *)
Definition nrf24l01_interface_receive_callback (type num : Z) (buf : list Z) (len : Z) :
    M D unit := mret tt.

(** The handle after the link macros of [nrf24l01_basic_init]. *)
Definition interface_handle (callback : option (Z → Z → list Z → Z → M D unit)) :
    nrf24l01_handle W :=
  {| gpio_init := Some nrf24l01_interface_gpio_init;
     gpio_deinit := Some nrf24l01_interface_gpio_deinit;
     gpio_write := Some nrf24l01_interface_gpio_write;
     spi_init := Some nrf24l01_interface_spi_init;
     spi_deinit := Some nrf24l01_interface_spi_deinit;
     spi_read := Some (λ reg len, nrf24l01_interface_spi_read reg (Some tt) len);
     spi_write := Some nrf24l01_interface_spi_write;
     delay_ms := Some nrf24l01_interface_delay_ms;
     debug_print := Some debug_hook;
     receive_callback := callback |}.

(** ** The chip behind the SPI *)

Context (inv : W → Prop) (regs : W → Z → list Z) (ce : W → Z).
#[local] Abbreviation quiet := (touched inv regs ce []).

Class SpiChip : Prop := {
  chip_wf w r : inv w → config_reg r →
    length (regs w r) = reg_len r ∧ Forall (reg_byte r) (regs w r);
  (* a register read: the status byte, then the register *)
  chip_read d r n : inv (world d) → config_reg r → (1 ≤ n ≤ reg_len r)%nat →
    wp (spiExchange (r :: replicate n 0)) d (λ '(msg, rx) d',
      msg = HAL_RET_SUCCESS ∧ (∃ st, rx = st :: take n (regs (world d) r)) ∧ quiet d d');
  chip_read_status d : inv (world d) →
    wp (spiExchange [NRF24L01_REG_STATUS; 0]) d (λ '(msg, rx) d',
      msg = HAL_RET_SUCCESS ∧ (∃ st b, rx = [st; b] ∧ is_u8 b) ∧ quiet d d');
  chip_write d r data : inv (world d) → config_reg r →
    (1 ≤ length data ≤ reg_len r)%nat → Forall is_u8 data →
    wp (spiSend (Z.lor NRF24L01_COMMAND_W_REGISTER r :: data)) d (λ msg d',
      msg = HAL_RET_SUCCESS ∧
      regs (world d') r = ((λ b, Z.land b (reg_mask r)) <$> data)
                            ++ drop (length data) (regs (world d) r) ∧
      touched inv regs ce [r] d d');
  chip_write_status d b : inv (world d) → is_u8 b →
    wp (spiSend [Z.lor NRF24L01_COMMAND_W_REGISTER NRF24L01_REG_STATUS; b]) d
      (λ msg d', msg = HAL_RET_SUCCESS ∧ quiet d d');
  chip_command d cmd : inv (world d) →
    cmd ∈ [NRF24L01_COMMAND_FLUSH_TX; NRF24L01_COMMAND_FLUSH_RX; NRF24L01_COMMAND_NOP] →
    wp (spiSend [cmd]) d (λ msg d', msg = HAL_RET_SUCCESS ∧ quiet d d');
  (* the bus calls and the pin *)
  chip_bus m d : m ∈ [spiAcquireBus; spiSelect; spiUnselect; spiReleaseBus] →
    inv (world d) → wp m d (λ _ d', quiet d d');
  chip_set_line d : inv (world d) →
    wp palSetLine d (λ _ d', inv (world d') ∧ inited d' = inited d ∧ ce (world d') = 1 ∧
      ∀ q, config_reg q → regs (world d') q = regs (world d) q);
  chip_clear_line d : inv (world d) →
    wp palClearLine d (λ _ d', inv (world d') ∧ inited d' = inited d ∧ ce (world d') = 0 ∧
      ∀ q, config_reg q → regs (world d') q = regs (world d) q)
}.

Lemma fill_tx_take reg (data : list Z) :
  (length data < SPI_BUFFER_SIZE)%nat →
  ∃ tx, fill_tx_buffer reg data = Some tx ∧
        take (S (length data)) tx = reg :: data ∧
        ∀ n, (n < SPI_BUFFER_SIZE)%nat → data = [] → take (S n) tx = reg :: replicate n 0.
Proof.
  unfold fill_tx_buffer, store_prefix. intros Hl.
  rewrite decide_True by (rewrite length_replicate; simpl; lia).
  eexists. split_and!; [done| |].
  - change (reg :: data ++ _) with ((reg :: data) ++ drop (length (reg :: data)) (replicate SPI_BUFFER_SIZE 0)).
    by rewrite (take_app_length' (reg :: data)).
  - intros n Hn ->. transitivity (reg :: take n (replicate 33 0)); [done|].
    rewrite take_replicate. do 2 f_equal. unfold SPI_BUFFER_SIZE in Hn. lia.
Qed.

Context `{Hchip : !SpiChip}.

(** A state predicate that what happens between two frames cannot change. *)
Definition stable (Q : D → Prop) : Prop := ∀ d d', Q d → quiet d d' → Q d'.

Lemma stable_quiet d0 : stable (quiet d0).
Proof. intros d d' H H'. by apply (touched_trans _ _ _ [] [] _ d). Qed.

Lemma stable_inv Q d d' : stable Q → Q d → quiet d d' → Q d' ∧ inv (world d').
Proof. intros HQ Hd Hq. split; [by eapply HQ|apply Hq]. Qed.

Lemma bus_call m d (Q : D → Prop) : m ∈ [spiAcquireBus; spiSelect; spiUnselect; spiReleaseBus] →
  stable Q → Q d → inv (world d) → wp m d (λ _ d', Q d' ∧ inv (world d')).
Proof.
  intros Hm HQ Hd Hi. eapply wp_mono; [by apply (chip_bus _ _ Hm)|].
  intros a d'. by apply stable_inv.
Qed.

Ltac bus_step Q :=
  eapply wp_seq; [apply (bus_call _ _ Q); [rewrite !elem_of_cons; tauto|eassumption|eassumption|eassumption]|];
  intros [] ? [? ?].

Lemma read_frame d reg n (P : list Z → Prop) (Q0 Q : D → Prop) :
  (1 ≤ n ≤ 33)%nat → stable Q0 → stable Q → Q0 d → inv (world d) →
  (∀ d1, Q0 d1 → inv (world d1) →
     wp (spiExchange (reg :: replicate n 0)) d1 (λ '(msg, rx) d2,
       msg = HAL_RET_SUCCESS ∧ length rx = S n ∧ P (tail rx) ∧ Q d2 ∧ inv (world d2))) →
  wp (nrf24l01_interface_spi_read reg (Some tt) (Z.of_nat n)) d (λ '(st, data) d',
    st = 0 ∧ P data ∧ Q d' ∧ inv (world d')).
Proof.
  intros Hn HQ0 HQ Hd Hi Hx. unfold nrf24l01_interface_spi_read.
  rewrite decide_False by (rewrite u32_id by (unfold is_u32; lia); unfold SPI_BUFFER_SIZE; lia).
  destruct (fill_tx_take reg []) as (tx & -> & _ & Htx); [simpl; unfold SPI_BUFFER_SIZE; lia|].
  apply wp_bind, wp_ret. bus_step Q0. bus_step Q0.
  replace (Z.to_nat (Z.of_nat n + 1)) with (S n) by lia.
  rewrite Htx by (done || unfold SPI_BUFFER_SIZE; lia).
  eapply wp_seq; [by apply Hx|]. intros [msg rx] d2 (-> & Hl & HP & HQ2 & Hi2).
  bus_step Q. bus_step Q. unfold store_prefix.
  rewrite decide_True by (rewrite length_replicate; unfold SPI_BUFFER_SIZE; lia).
  apply wp_bind, wp_ret. rewrite Nat2Z.id.
  assert (take n (drop 1 (rx ++ drop (length rx) (replicate SPI_BUFFER_SIZE 0))) = tail rx) as ->.
  { destruct rx as [|st rx]; [done|]. simpl in Hl.
    change (take n (rx ++ drop (S (length rx)) (replicate SPI_BUFFER_SIZE 0)) = rx).
    apply take_app_length'. lia. }
  rewrite decide_True by done. by apply wp_ret.
Qed.

Lemma write_frame d reg data (Q0 Q : D → Prop) :
  (length data < SPI_BUFFER_SIZE)%nat → stable Q0 → stable Q → Q0 d → inv (world d) →
  (∀ d1, Q0 d1 → inv (world d1) →
     wp (spiSend (reg :: data)) d1 (λ msg d2,
       msg = HAL_RET_SUCCESS ∧ Q d2 ∧ inv (world d2))) →
  wp (nrf24l01_interface_spi_write reg data) d (λ st d', st = 0 ∧ Q d' ∧ inv (world d')).
Proof.
  intros Hn HQ0 HQ Hd Hi Hx. unfold nrf24l01_interface_spi_write.
  rewrite decide_False by lia.
  destruct (fill_tx_take reg data) as (tx & -> & Htx & _); [done|].
  apply wp_bind, wp_ret. bus_step Q0. bus_step Q0.
  replace (Z.to_nat (Z.of_nat (length data) + 1)) with (S (length data)) by lia. rewrite Htx.
  eapply wp_seq; [by apply Hx|]. intros msg d2 (-> & HQ2 & Hi2).
  bus_step Q. bus_step Q. rewrite decide_True by done. by apply wp_ret.
Qed.

Lemma reg_len_pos r : (1 ≤ reg_len r ≤ 5)%nat.
Proof. unfold reg_len. destruct (decide _); lia. Qed.

Lemma stable_written d r (v : list Z) : config_reg r →
  stable (λ d', regs (world d') r = v ∧ touched inv regs ce [r] d d').
Proof.
  intros Hr d1 d2 [H1 H2] H3. split.
  - rewrite <-H1. by apply (touched_regs inv regs ce [] d1 d2); [|done|apply not_elem_of_nil].
  - by apply (touched_trans inv regs ce [r] [] _ d1).
Qed.

Lemma quiet_read d reg n (P : list Z → Prop) :
  (1 ≤ n ≤ 33)%nat → inv (world d) →
  (∀ d1, quiet d d1 → wp (spiExchange (reg :: replicate n 0)) d1 (λ '(msg, rx) d2,
     msg = HAL_RET_SUCCESS ∧ length rx = S n ∧ P (tail rx) ∧ quiet d1 d2)) →
  wp (nrf24l01_interface_spi_read reg (Some tt) (Z.of_nat n)) d (λ '(st, data) d',
    st = 0 ∧ P data ∧ quiet d d').
Proof.
  intros Hn Hi Hx.
  eapply wp_mono; [apply (read_frame d reg n P (quiet d) (quiet d)); try done; try apply stable_quiet|].
  - intros d1 Hq Hi1. eapply wp_mono; [by apply Hx|].
    intros [msg rx] d2 (-> & ? & ? & Hq2). split_and!; [done..|by eapply stable_quiet|apply Hq2].
  - by intros [st data] d' (-> & ? & ? & ?).
Qed.

Lemma quiet_write d reg data :
  (length data < SPI_BUFFER_SIZE)%nat → inv (world d) →
  (∀ d1, inv (world d1) → wp (spiSend (reg :: data)) d1 (λ msg d2,
     msg = HAL_RET_SUCCESS ∧ quiet d1 d2)) →
  wp (nrf24l01_interface_spi_write reg data) d (λ st d', st = 0 ∧ quiet d d').
Proof.
  intros Hn Hi Hx.
  eapply wp_mono; [apply (write_frame d reg data (quiet d) (quiet d)); try done; try apply stable_quiet|].
  - intros d1 Hq Hi1. eapply wp_mono; [by apply Hx|].
    intros msg d2 (-> & Hq2). split_and!; [done|by eapply stable_quiet|apply Hq2].
  - by intros st d' (-> & ? & ?).
Qed.

Lemma interface_read_reg d r n :
  inv (world d) → config_reg r → (1 ≤ n ≤ reg_len r)%nat →
  wp (nrf24l01_interface_spi_read r (Some tt) (Z.of_nat n)) d (λ '(st, data) d',
    st = 0 ∧ data = take n (regs (world d) r) ∧ quiet d d').
Proof.
  intros Hi Hr Hn. pose proof (reg_len_pos r).
  apply (quiet_read d r n (λ data, data = take n (regs (world d) r))); [lia|done|].
  intros d1 Hq. eapply wp_mono; [apply chip_read; [apply Hq|done..]|].
  intros [msg rx] d2 (-> & [st ->] & Hq2). destruct (chip_wf (world d1) r) as [Hl _]; [apply Hq|done|].
  split_and!; [done| | |done].
  - simpl. rewrite length_take. lia.
  - simpl. f_equal. by apply (touched_regs inv regs ce [] d d1); [|done|apply not_elem_of_nil].
Qed.

Lemma interface_write_reg d r data :
  inv (world d) → config_reg r → (1 ≤ length data ≤ reg_len r)%nat → Forall is_u8 data →
  wp (nrf24l01_interface_spi_write (Z.lor NRF24L01_COMMAND_W_REGISTER r) data) d (λ st d',
    st = 0 ∧ regs (world d') r = ((λ b, Z.land b (reg_mask r)) <$> data)
               ++ drop (length data) (regs (world d) r) ∧ touched inv regs ce [r] d d').
Proof.
  intros Hi Hr Hn Hd. pose proof (reg_len_pos r).
  eapply wp_mono; [apply (write_frame d _ data (quiet d)
    (λ d', regs (world d') r = ((λ b, Z.land b (reg_mask r)) <$> data)
             ++ drop (length data) (regs (world d) r) ∧ touched inv regs ce [r] d d')); try done|].
  - unfold SPI_BUFFER_SIZE. lia.
  - apply stable_quiet.
  - by apply stable_written.
  - intros d1 Hq Hi1. eapply wp_mono; [by apply chip_write|].
    intros msg d2 (-> & Hw & Ht). split_and!; [done| | |apply Ht].
    + rewrite Hw. do 2 f_equal. by apply (touched_regs inv regs ce [] d d1); [|done|apply not_elem_of_nil].
    + by apply (touched_trans inv regs ce [] [r] _ d1).
  - by intros st d' (-> & [? ?] & ?).
Qed.

(** The handle the program builds satisfies the driver's contract. *)
#[export] Instance interface_bus callback :
  RegBus (interface_handle callback) inv regs ce.
Proof.
  split.
  - apply chip_wf.
  - intros d r n Hi Hr Hn. pose proof (interface_read_reg d r (Z.to_nat n) Hi Hr ltac:(lia)) as H.
    by rewrite Z2Nat.id in H by lia.
  - intros d r data. apply interface_write_reg.
  - intros d Hi. apply (quiet_read d _ 1 (λ data, ∃ b, data = [b] ∧ is_u8 b)); [lia|done|].
    intros d1 Hq. eapply wp_mono; [apply chip_read_status, Hq|].
    intros [msg rx] d2 (-> & (st & b & -> & Hb) & Hq2). split_and!; [done..|by eexists|done].
  - intros d b Hi Hb. apply quiet_write; [simpl; unfold SPI_BUFFER_SIZE; lia|done|].
    intros d1 Hi1. by apply chip_write_status.
  - intros d cmd Hi Hc. apply quiet_write; [simpl; unfold SPI_BUFFER_SIZE; lia|done|].
    intros d1 Hi1. by apply chip_command.
  - intros d v Hi Hv.
    change (call_gpio_write _ ?x) with (nrf24l01_interface_gpio_write x).
    unfold nrf24l01_interface_gpio_write.
    rewrite !elem_of_cons, elem_of_nil in Hv. destruct Hv as [->|[->|[]]]; simpl.
    + wp_with @chip_clear_line; [done..|]. intros [] d' ?. by apply wp_ret.
    + wp_with @chip_set_line; [done..|]. intros [] d' ?. by apply wp_ret.
Qed.

End Interface.

(** ** A chip to run examples on *)
Module Sim.

(** The registers, the chip enable line and the frames the chip was sent. *)
Record sim : Type := mk_sim { s_regs : gmap Z (list Z); s_ce : Z; s_log : list (list Z) }.

Definition sim_reg (w : sim) (r : Z) : list Z := default (replicate (reg_len r) 0) (s_regs w !! r).
Definition sim_wf (w : sim) : Prop :=
  ∀ r, config_reg r → length (sim_reg w r) = reg_len r ∧ Forall (reg_byte r) (sim_reg w r).
Definition with_world (f : sim → sim) : M (nrf24l01_dyn sim) unit :=
  mmodify (λ d, mk_dyn (inited d) (finished d) (f (world d))).

(** Every exchange starts with the status byte [0x0E]. *)
Definition sim_exchange (tx : list Z) : M (nrf24l01_dyn sim) (Z * list Z) :=
  w ← mgets world;
  mret (0, match tx with
           | [] => []
           | r :: zeros =>
               0x0E :: if decide (config_reg r) then take (length zeros) (sim_reg w r)
                       else replicate (length zeros) 0x0E
           end).
Definition sim_send (tx : list Z) : M (nrf24l01_dyn sim) Z :=
  with_world (λ w,
    match tx with
    | [] => w
    | c :: data =>
        let r := c - 0x20 in
        let log := s_log w ++ [tx] in
        if decide (config_reg r) then
          mk_sim (<[r := ((λ b, Z.land b (reg_mask r)) <$> data)
                          ++ drop (length data) (sim_reg w r)]> (s_regs w)) (s_ce w) log
        else mk_sim (s_regs w) (s_ce w) log
    end);; mret 0.
Definition sim_line (v : Z) : M (nrf24l01_dyn sim) unit :=
  with_world (λ w, mk_sim (s_regs w) v (s_log w)).
Definition sim_nop : M (nrf24l01_dyn sim) unit := mret tt.

Definition sim_handle : nrf24l01_handle sim :=
  interface_handle (mret 0) sim_exchange sim_send sim_nop sim_nop sim_nop sim_nop
    (sim_line 1) (sim_line 0) (λ _, sim_nop) (λ _ _, sim_nop) (Some (λ _ _ _ _, sim_nop)).
Definition sim_init : nrf24l01_dyn sim := mk_dyn 1 0 (mk_sim ∅ 0 []).

Lemma sim_init_wf : sim_wf (world sim_init).
Proof.
  intros r Hr. unfold sim_reg. simpl. rewrite lookup_empty. simpl. split; [by rewrite length_replicate|].
  apply Forall_replicate. by split; [|rewrite Z.land_0_l].
Qed.

Lemma reg_mask_u8 r : is_u8 (reg_mask r).
Proof. unfold reg_mask. repeat destruct (decide _); done. Qed.

Lemma land_reg_byte r b : is_u8 b → reg_byte r (Z.land b (reg_mask r)).
Proof.
  intros Hb. pose proof (reg_mask_u8 r) as Hm. split.
  - unfold is_u8 in *. assert (0 <= Z.land b (reg_mask r)) by (apply Z.land_nonneg; lia).
    split; [done|]. pose proof (Z.log2_land b (reg_mask r)).
    destruct (Z.eq_dec (Z.land b (reg_mask r)) 0) as [->|]; [lia|].
    apply (Z.log2_lt_pow2 _ 8); [lia|].
    assert (Z.log2 b < 8); [|lia].
    destruct (Z.eq_dec b 0) as [->|]; [simpl; lia|]. apply Z.log2_lt_pow2; lia.
  - by rewrite <-Z.land_assoc, Z.land_diag.
Qed.

Lemma sim_reg_insert w r q v c l :
  sim_reg (mk_sim (<[r:=v]> (s_regs w)) c l) q = if decide (q = r) then v else sim_reg w q.
Proof.
  unfold sim_reg. simpl. destruct (decide (q = r)) as [->|].
  - by rewrite lookup_insert_eq.
  - by rewrite lookup_insert_ne.
Qed.

Lemma config_reg_w r : config_reg r → Z.lor NRF24L01_COMMAND_W_REGISTER r - 0x20 = r.
Proof.
  intros Hr. assert (H : forallb (λ r, Z.lor 0x20 r - 0x20 =? r) config_regs = true) by reflexivity.
  rewrite forallb_forall in H. by apply Z.eqb_eq, H, list_elem_of_In.
Qed.

#[global] Instance sim_chip :
  SpiChip sim_exchange sim_send sim_nop sim_nop sim_nop sim_nop (sim_line 1) (sim_line 0)
    sim_wf sim_reg s_ce.
Proof.
  split.
  - auto.
  - intros d r n Hi Hr Hn. split_and!; [done| |done]. exists 0x0E.
    rewrite decide_True by done. by rewrite length_replicate.
  - intros d Hi. split_and!; [done| |done]. by exists 0x0E, 0x0E.
  - intros d r data Hi Hr Hn Hd. unfold sim_send, with_world. apply wp_bind, wp_modify, wp_ret.
    cbn [world]. rewrite config_reg_w, decide_True by done.
    destruct (Hi r Hr) as [Hl Hf]. split_and!; [done| |split_and!]; [|cbn [world s_ce]..]; try done.
    + cbn [world]. by rewrite sim_reg_insert, decide_True.
    + intros q Hq. rewrite sim_reg_insert. destruct (decide (q = r)) as [->|]; [|by apply Hi].
      split.
      * rewrite length_app, length_fmap, length_drop. lia.
      * apply Forall_app. split; [|by apply Forall_drop].
        apply Forall_fmap. eapply Forall_impl; [exact Hd|]. intros b. apply land_reg_byte.
    + intros q Hq Hn'. rewrite sim_reg_insert, decide_False; [done|]. intros ->. apply Hn'. constructor.
  - intros d b Hi Hb. done.
  - intros d cmd Hi Hc. assert (¬ config_reg (cmd - 0x20)) as Hnc.
    { rewrite !elem_of_cons, elem_of_nil in Hc.
      destruct Hc as [->|[->|[->|[]]]]; by refine (bool_decide_unpack (¬ config_reg _) _). }
    unfold sim_send, with_world. apply wp_bind, wp_modify, wp_ret. cbn [world].
    by rewrite decide_False.
  - intros m d Hm Hi. rewrite !elem_of_cons, elem_of_nil in Hm.
    by destruct Hm as [->|[->|[->|[->|[]]]]].
  - done.
  - done.
Qed.

#[global] Instance sim_bus : RegBus sim_handle sim_wf sim_reg s_ce.
Proof. apply interface_bus. exact sim_chip. Qed.

End Sim.
