(* ===== verification/NrfBasic.v ===== *)
(** * The radio as the program uses it: [src/src/nrf24l01/nrf24l01_basic.c]

    The file keeps one handle and the last transmit address in static
    variables.  [link] stands for the link macros at the start of
    [nrf24l01_basic_init] (it is [interface_handle] of [NrfInterface.v] in the
    program); the transmit address is passed and returned as a [tx_state].
    The header's default values are constants here. *)
From S2P Require Import Prelude Nrf24l01.

Inductive nrf24l01_type_t : Type :=
  | NRF24L01_TYPE_TX
  | NRF24L01_TYPE_RX.

Definition NRF24L01_BASIC_DEFAULT_CRCO : nrf24l01_bool_t := NRF24L01_BOOL_TRUE.
Definition NRF24L01_BASIC_DEFAULT_ENABLE_CRC : nrf24l01_bool_t := NRF24L01_BOOL_TRUE.
Definition NRF24L01_BASIC_DEFAULT_PIPE_0_AUTO_ACKNOWLEDGMENT : nrf24l01_bool_t := NRF24L01_BOOL_TRUE.
Definition NRF24L01_BASIC_DEFAULT_PIPE_1_AUTO_ACKNOWLEDGMENT : nrf24l01_bool_t := NRF24L01_BOOL_TRUE.
Definition NRF24L01_BASIC_DEFAULT_PIPE_2_AUTO_ACKNOWLEDGMENT : nrf24l01_bool_t := NRF24L01_BOOL_TRUE.
Definition NRF24L01_BASIC_DEFAULT_PIPE_3_AUTO_ACKNOWLEDGMENT : nrf24l01_bool_t := NRF24L01_BOOL_TRUE.
Definition NRF24L01_BASIC_DEFAULT_PIPE_4_AUTO_ACKNOWLEDGMENT : nrf24l01_bool_t := NRF24L01_BOOL_TRUE.
Definition NRF24L01_BASIC_DEFAULT_PIPE_5_AUTO_ACKNOWLEDGMENT : nrf24l01_bool_t := NRF24L01_BOOL_TRUE.
Definition NRF24L01_BASIC_DEFAULT_RX_PIPE_0 : nrf24l01_bool_t := NRF24L01_BOOL_TRUE.
Definition NRF24L01_BASIC_DEFAULT_RX_PIPE_1 : nrf24l01_bool_t := NRF24L01_BOOL_TRUE.
Definition NRF24L01_BASIC_DEFAULT_RX_PIPE_2 : nrf24l01_bool_t := NRF24L01_BOOL_TRUE.
Definition NRF24L01_BASIC_DEFAULT_RX_PIPE_3 : nrf24l01_bool_t := NRF24L01_BOOL_TRUE.
Definition NRF24L01_BASIC_DEFAULT_RX_PIPE_4 : nrf24l01_bool_t := NRF24L01_BOOL_TRUE.
Definition NRF24L01_BASIC_DEFAULT_RX_PIPE_5 : nrf24l01_bool_t := NRF24L01_BOOL_TRUE.
Definition NRF24L01_BASIC_DEFAULT_ADDRESS_WIDTH : nrf24l01_address_width_t := NRF24L01_ADDRESS_WIDTH_5_BYTES.
Definition NRF24L01_BASIC_DEFAULT_RETRANSMIT_DELAY : Z := 750.
Definition NRF24L01_BASIC_DEFAULT_RETRANSMIT_COUNT : Z := 10.
Definition NRF24L01_BASIC_DEFAULT_CHANNEL_FREQUENCY : Z := 94.
Definition NRF24L01_BASIC_DEFAULT_DATA_RATE : nrf24l01_data_rate_t := NRF24L01_DATA_RATE_2M.
Definition NRF24L01_BASIC_DEFAULT_OUTPUT_POWER : nrf24l01_output_power_t := NRF24L01_OUTPUT_POWER_0_DBM.
Definition NRF24L01_BASIC_DEFAULT_PIPE_0_PAYLOAD : Z := 32.
Definition NRF24L01_BASIC_DEFAULT_PIPE_1_PAYLOAD : Z := 32.
Definition NRF24L01_BASIC_DEFAULT_PIPE_2_PAYLOAD : Z := 32.
Definition NRF24L01_BASIC_DEFAULT_PIPE_3_PAYLOAD : Z := 32.
Definition NRF24L01_BASIC_DEFAULT_PIPE_4_PAYLOAD : Z := 32.
Definition NRF24L01_BASIC_DEFAULT_PIPE_5_PAYLOAD : Z := 32.
Definition NRF24L01_BASIC_DEFAULT_PIPE_0_DYNAMIC_PAYLOAD : nrf24l01_bool_t := NRF24L01_BOOL_TRUE.
Definition NRF24L01_BASIC_DEFAULT_PIPE_1_DYNAMIC_PAYLOAD : nrf24l01_bool_t := NRF24L01_BOOL_TRUE.
Definition NRF24L01_BASIC_DEFAULT_PIPE_2_DYNAMIC_PAYLOAD : nrf24l01_bool_t := NRF24L01_BOOL_TRUE.
Definition NRF24L01_BASIC_DEFAULT_PIPE_3_DYNAMIC_PAYLOAD : nrf24l01_bool_t := NRF24L01_BOOL_TRUE.
Definition NRF24L01_BASIC_DEFAULT_PIPE_4_DYNAMIC_PAYLOAD : nrf24l01_bool_t := NRF24L01_BOOL_TRUE.
Definition NRF24L01_BASIC_DEFAULT_PIPE_5_DYNAMIC_PAYLOAD : nrf24l01_bool_t := NRF24L01_BOOL_TRUE.
Definition NRF24L01_BASIC_DEFAULT_DYNAMIC_PAYLOAD : nrf24l01_bool_t := NRF24L01_BOOL_TRUE.
Definition NRF24L01_BASIC_DEFAULT_PAYLOAD_WITH_ACK : nrf24l01_bool_t := NRF24L01_BOOL_TRUE.
Definition NRF24L01_BASIC_DEFAULT_TX_PAYLOAD_WITH_NO_ACK : nrf24l01_bool_t := NRF24L01_BOOL_TRUE.
Definition NRF24L01_BASIC_DEFAULT_RX_ADDR_0 : list Z := [0x1A; 0x01; 0x02; 0x03; 0x00].
Definition NRF24L01_BASIC_DEFAULT_RX_ADDR_1 : list Z := [0x1B; 0x01; 0x02; 0x03; 0x01].
Definition NRF24L01_BASIC_DEFAULT_RX_ADDR_2 : list Z := [0x1B; 0x01; 0x02; 0x03; 0x02].
Definition NRF24L01_BASIC_DEFAULT_RX_ADDR_3 : list Z := [0x1B; 0x01; 0x02; 0x03; 0x03].
Definition NRF24L01_BASIC_DEFAULT_RX_ADDR_4 : list Z := [0x1B; 0x01; 0x02; 0x03; 0x04].
Definition NRF24L01_BASIC_DEFAULT_RX_ADDR_5 : list Z := [0x1B; 0x01; 0x02; 0x03; 0x05].

(** The static transmit address of the file and its flag. *)
Record tx_state : Type := mk_tx_state { gs_tx_addr : list Z; gs_tx_addr_set : Z }.
Definition tx_state_init : tx_state := mk_tx_state [0; 0; 0; 0; 0] 0.

Section Basic.
Context {W : Type}.
#[local] Abbreviation D := (nrf24l01_dyn W).
#[local] Abbreviation callback_t := (option (Z → Z → list Z → Z → M D unit)).
Context (link : callback_t → nrf24l01_handle W).

(** One step of [nrf24l01_basic_init]: on an error print the message, shut the
    chip down whatever that gives, and return 1. *)
Definition basic_fail (h : nrf24l01_handle W) (msg : string) : M D Z :=
  debug h msg [];; _ ← nrf24l01_deinit (Some h); mret 1.
Definition basic_check (h : nrf24l01_handle W) (op : M D Z) (msg : string) (k : M D Z) : M D Z :=
  res ← op;
  if decide (res ≠ 0) then basic_fail h msg else k.
Fixpoint basic_steps (h : nrf24l01_handle W) (steps : list (M D Z * string)) (k : M D Z) : M D Z :=
  match steps with
  | [] => k
  | (op, msg) :: steps => basic_check h op msg (basic_steps h steps k)
  end.

Definition basic_config_steps (h : nrf24l01_handle W) (type : nrf24l01_type_t) :
    list (M D Z * string) :=
  [(nrf24l01_set_config (Some h) NRF24L01_CONFIG_PWR_UP NRF24L01_BOOL_TRUE,
      "nrf24l01: set config failed.");
   (nrf24l01_set_config (Some h) NRF24L01_CONFIG_CRCO NRF24L01_BASIC_DEFAULT_CRCO,
      "nrf24l01: set config failed.");
   (nrf24l01_set_config (Some h) NRF24L01_CONFIG_EN_CRC NRF24L01_BASIC_DEFAULT_ENABLE_CRC,
      "nrf24l01: set config failed.");
   (nrf24l01_set_config (Some h) NRF24L01_CONFIG_MASK_MAX_RT NRF24L01_BOOL_TRUE,
      "nrf24l01: set config failed.");
   (nrf24l01_set_config (Some h) NRF24L01_CONFIG_MASK_TX_DS NRF24L01_BOOL_TRUE,
      "nrf24l01: set config failed.");
   (nrf24l01_set_config (Some h) NRF24L01_CONFIG_MASK_RX_DR NRF24L01_BOOL_TRUE,
      "nrf24l01: set config failed.");
   (match type with
    | NRF24L01_TYPE_TX => nrf24l01_set_mode (Some h) NRF24L01_MODE_TX
    | NRF24L01_TYPE_RX => nrf24l01_set_mode (Some h) NRF24L01_MODE_RX
    end, "nrf24l01: set mode failed.")].

Definition basic_ack_steps (h : nrf24l01_handle W) : list (M D Z * string) :=
  [(nrf24l01_set_auto_acknowledgment (Some h) NRF24L01_PIPE_0
      NRF24L01_BASIC_DEFAULT_PIPE_0_AUTO_ACKNOWLEDGMENT, "nrf24l01: set auto acknowledgment failed.");
   (nrf24l01_set_auto_acknowledgment (Some h) NRF24L01_PIPE_1
      NRF24L01_BASIC_DEFAULT_PIPE_1_AUTO_ACKNOWLEDGMENT, "nrf24l01: set auto acknowledgment failed.");
   (nrf24l01_set_auto_acknowledgment (Some h) NRF24L01_PIPE_2
      NRF24L01_BASIC_DEFAULT_PIPE_2_AUTO_ACKNOWLEDGMENT, "nrf24l01: set auto acknowledgment failed.");
   (nrf24l01_set_auto_acknowledgment (Some h) NRF24L01_PIPE_3
      NRF24L01_BASIC_DEFAULT_PIPE_3_AUTO_ACKNOWLEDGMENT, "nrf24l01: set auto acknowledgment failed.");
   (nrf24l01_set_auto_acknowledgment (Some h) NRF24L01_PIPE_4
      NRF24L01_BASIC_DEFAULT_PIPE_4_AUTO_ACKNOWLEDGMENT, "nrf24l01: set auto acknowledgment failed.");
   (nrf24l01_set_auto_acknowledgment (Some h) NRF24L01_PIPE_5
      NRF24L01_BASIC_DEFAULT_PIPE_5_AUTO_ACKNOWLEDGMENT, "nrf24l01: set auto acknowledgment failed.")].

Definition basic_rx_pipe_steps (h : nrf24l01_handle W) : list (M D Z * string) :=
  [(nrf24l01_set_rx_pipe (Some h) NRF24L01_PIPE_0 NRF24L01_BASIC_DEFAULT_RX_PIPE_0,
      "nrf24l01: set rx pipe failed.");
   (nrf24l01_set_rx_pipe (Some h) NRF24L01_PIPE_1 NRF24L01_BASIC_DEFAULT_RX_PIPE_1,
      "nrf24l01: set rx pipe failed.");
   (nrf24l01_set_rx_pipe (Some h) NRF24L01_PIPE_2 NRF24L01_BASIC_DEFAULT_RX_PIPE_2,
      "nrf24l01: set rx pipe failed.");
   (nrf24l01_set_rx_pipe (Some h) NRF24L01_PIPE_3 NRF24L01_BASIC_DEFAULT_RX_PIPE_3,
      "nrf24l01: set rx pipe failed.");
   (nrf24l01_set_rx_pipe (Some h) NRF24L01_PIPE_4 NRF24L01_BASIC_DEFAULT_RX_PIPE_4,
      "nrf24l01: set rx pipe failed.");
   (nrf24l01_set_rx_pipe (Some h) NRF24L01_PIPE_5 NRF24L01_BASIC_DEFAULT_RX_PIPE_5,
      "nrf24l01: set rx pipe failed.")].

Definition basic_width_steps (h : nrf24l01_handle W) : list (M D Z * string) :=
  [(nrf24l01_set_address_width (Some h) NRF24L01_BASIC_DEFAULT_ADDRESS_WIDTH,
      "nrf24l01: set address width failed.")].

(** From here on the retransmit delay is the register value [reg]. *)
Definition basic_radio_steps (h : nrf24l01_handle W) (reg : Z) : list (M D Z * string) :=
  [(nrf24l01_set_auto_retransmit_delay (Some h) reg,
      "nrf24l01: auto retransmit delay failed.");
   (nrf24l01_set_auto_retransmit_count (Some h) NRF24L01_BASIC_DEFAULT_RETRANSMIT_COUNT,
      "nrf24l01: auto retransmit count failed.");
   (nrf24l01_set_channel_frequency (Some h) NRF24L01_BASIC_DEFAULT_CHANNEL_FREQUENCY,
      "nrf24l01: set channel frequency failed.");
   (nrf24l01_set_continuous_carrier_transmit (Some h) NRF24L01_BOOL_FALSE,
      "nrf24l01: set continuous carrier transmit failed.");
   (nrf24l01_set_force_pll_lock_signal (Some h) NRF24L01_BOOL_FALSE,
      "nrf24l01: set force pll lock signal failed.");
   (nrf24l01_set_data_rate (Some h) NRF24L01_BASIC_DEFAULT_DATA_RATE,
      "nrf24l01: set data rate 2M failed.");
   (nrf24l01_set_output_power (Some h) NRF24L01_BASIC_DEFAULT_OUTPUT_POWER,
      "nrf24l01: set output power failed.")].

Definition basic_interrupt_steps (h : nrf24l01_handle W) : list (M D Z * string) :=
  [(nrf24l01_clear_interrupt (Some h) NRF24L01_INTERRUPT_RX_DR,
      "nrf24l01: clear interrupt failed.");
   (nrf24l01_clear_interrupt (Some h) NRF24L01_INTERRUPT_TX_DS,
      "nrf24l01: clear interrupt failed.");
   (nrf24l01_clear_interrupt (Some h) NRF24L01_INTERRUPT_MAX_RT,
      "nrf24l01: clear interrupt failed.");
   (nrf24l01_clear_interrupt (Some h) NRF24L01_INTERRUPT_TX_FULL,
      "nrf24l01: clear interrupt failed.")].

Definition basic_payload_steps (h : nrf24l01_handle W) : list (M D Z * string) :=
  [(nrf24l01_set_pipe_0_payload_number (Some h) NRF24L01_BASIC_DEFAULT_PIPE_0_PAYLOAD,
      "nrf24l01: set pipe 0 payload number failed.");
   (nrf24l01_set_pipe_1_payload_number (Some h) NRF24L01_BASIC_DEFAULT_PIPE_1_PAYLOAD,
      "nrf24l01: set pipe 1 payload number failed.");
   (nrf24l01_set_pipe_2_payload_number (Some h) NRF24L01_BASIC_DEFAULT_PIPE_2_PAYLOAD,
      "nrf24l01: set pipe 2 payload number failed.");
   (nrf24l01_set_pipe_3_payload_number (Some h) NRF24L01_BASIC_DEFAULT_PIPE_3_PAYLOAD,
      "nrf24l01: set pipe 3 payload number failed.");
   (nrf24l01_set_pipe_4_payload_number (Some h) NRF24L01_BASIC_DEFAULT_PIPE_4_PAYLOAD,
      "nrf24l01: set pipe 4 payload number failed.");
   (nrf24l01_set_pipe_5_payload_number (Some h) NRF24L01_BASIC_DEFAULT_PIPE_5_PAYLOAD,
      "nrf24l01: set pipe 5 payload number failed.")].

Definition basic_dynamic_steps (h : nrf24l01_handle W) : list (M D Z * string) :=
  [(nrf24l01_set_pipe_dynamic_payload (Some h) NRF24L01_PIPE_0
      NRF24L01_BASIC_DEFAULT_PIPE_0_DYNAMIC_PAYLOAD, "nrf24l01: set pipe dynamic payload failed.");
   (nrf24l01_set_pipe_dynamic_payload (Some h) NRF24L01_PIPE_1
      NRF24L01_BASIC_DEFAULT_PIPE_1_DYNAMIC_PAYLOAD, "nrf24l01: set pipe dynamic payload failed.");
   (nrf24l01_set_pipe_dynamic_payload (Some h) NRF24L01_PIPE_2
      NRF24L01_BASIC_DEFAULT_PIPE_2_DYNAMIC_PAYLOAD, "nrf24l01: set pipe dynamic payload failed.");
   (nrf24l01_set_pipe_dynamic_payload (Some h) NRF24L01_PIPE_3
      NRF24L01_BASIC_DEFAULT_PIPE_3_DYNAMIC_PAYLOAD, "nrf24l01: set pipe dynamic payload failed.");
   (nrf24l01_set_pipe_dynamic_payload (Some h) NRF24L01_PIPE_4
      NRF24L01_BASIC_DEFAULT_PIPE_4_DYNAMIC_PAYLOAD, "nrf24l01: set pipe dynamic payload failed.");
   (nrf24l01_set_pipe_dynamic_payload (Some h) NRF24L01_PIPE_5
      NRF24L01_BASIC_DEFAULT_PIPE_5_DYNAMIC_PAYLOAD, "nrf24l01: set pipe dynamic payload failed.");
   (nrf24l01_set_dynamic_payload (Some h) NRF24L01_BASIC_DEFAULT_DYNAMIC_PAYLOAD,
      "nrf24l01: set dynamic payload failed.");
   (nrf24l01_set_payload_with_ack (Some h) NRF24L01_BASIC_DEFAULT_PAYLOAD_WITH_ACK,
      "nrf24l01: set payload with ack failed.");
   (nrf24l01_set_tx_payload_with_no_ack (Some h) NRF24L01_BASIC_DEFAULT_TX_PAYLOAD_WITH_NO_ACK,
      "nrf24l01: set tx payload with no ack failed.")].

(** [NRF24L01_BASIC_DEFAULT_ADDRESS_WIDTH + 2]. *)
Definition basic_address_len : Z := address_width_val NRF24L01_BASIC_DEFAULT_ADDRESS_WIDTH + 2.

Definition basic_address_steps (h : nrf24l01_handle W) : list (M D Z * string) :=
  [(nrf24l01_set_rx_pipe_0_address (Some h) NRF24L01_BASIC_DEFAULT_RX_ADDR_0 basic_address_len,
      "nrf24l01: set rx pipe 0 address failed.");
   (nrf24l01_set_rx_pipe_1_address (Some h) NRF24L01_BASIC_DEFAULT_RX_ADDR_1 basic_address_len,
      "nrf24l01: set rx pipe 1 address failed.")].

(** [addr2[4]], ..., [addr5[4]]. *)
Definition last_byte (addr : list Z) : Z := nth 4 addr 0.
Definition basic_short_address_steps (h : nrf24l01_handle W) : list (M D Z * string) :=
  [(nrf24l01_set_rx_pipe_2_address (Some h) (last_byte NRF24L01_BASIC_DEFAULT_RX_ADDR_2),
      "nrf24l01: set rx pipe 2 address failed.");
   (nrf24l01_set_rx_pipe_3_address (Some h) (last_byte NRF24L01_BASIC_DEFAULT_RX_ADDR_3),
      "nrf24l01: set rx pipe 3 address failed.");
   (nrf24l01_set_rx_pipe_4_address (Some h) (last_byte NRF24L01_BASIC_DEFAULT_RX_ADDR_4),
      "nrf24l01: set rx pipe 4 address failed.");
   (nrf24l01_set_rx_pipe_5_address (Some h) (last_byte NRF24L01_BASIC_DEFAULT_RX_ADDR_5),
      "nrf24l01: set rx pipe 5 address failed.")].

Definition basic_final_steps (h : nrf24l01_handle W) : list (M D Z * string) :=
  [(nrf24l01_flush_tx (Some h), "nrf24l01: flush tx failed.");
   (nrf24l01_flush_rx (Some h), "nrf24l01: flush rx failed.");
   (nrf24l01_set_active (Some h) NRF24L01_BOOL_TRUE, "nrf24l01: set active failed.")].

(** After the link macros, which clear the handle. *)
Definition nrf24l01_basic_init (type : nrf24l01_type_t) (callback : callback_t) : M D Z :=
  let h := link callback in
  set_inited 0;; set_finished 0;;
  res ← nrf24l01_init (Some h);
  if decide (res ≠ 0) then error h "nrf24l01: init failed." 1 else
  basic_check h (nrf24l01_set_active (Some h) NRF24L01_BOOL_FALSE)
    "nrf24l01: set active failed." (
  basic_steps h (basic_config_steps h type) (
  basic_steps h (basic_ack_steps h) (
  basic_steps h (basic_rx_pipe_steps h) (
  basic_steps h (basic_width_steps h) (
  '(res, reg) ← nrf24l01_auto_retransmit_delay_convert_to_register (Some h)
                  NRF24L01_BASIC_DEFAULT_RETRANSMIT_DELAY;
  if decide (res ≠ 0) then basic_fail h "nrf24l01: auto retransmit delay failed." else
  reg ← mlift Uninitialised reg;
  basic_steps h (basic_radio_steps h reg) (
  basic_steps h (basic_interrupt_steps h) (
  basic_steps h (basic_payload_steps h) (
  basic_steps h (basic_dynamic_steps h) (
  basic_steps h (basic_address_steps h) (
  basic_steps h (basic_short_address_steps h) (
  basic_steps h (basic_final_steps h) (
  mret 0)))))))))))).

Context (gs_handle : nrf24l01_handle W).
#[local] Abbreviation gs := (Some gs_handle).

Definition nrf24l01_interrupt_irq_handler : M D Z :=
  res ← nrf24l01_irq_handler gs;
  if decide (res ≠ 0) then mret 1 else mret 0.

Definition nrf24l01_basic_deinit : M D Z :=
  res ← nrf24l01_deinit gs;
  if decide (res ≠ 0) then mret 1 else mret 0.

Definition nrf24l01_basic_send (addr buf : list Z) (len : Z) (use_ack : nrf24l01_bool_t) : M D Z :=
  res ← nrf24l01_set_active gs NRF24L01_BOOL_FALSE;
  if decide (res ≠ 0) then
    debug gs_handle "nrf24l01: set active failed. with %d" [Some res];; mret 1 else
  res ← nrf24l01_set_tx_address gs addr basic_address_len;
  if decide (res ≠ 0) then
    debug gs_handle "nrf24l01: set tx address failed. with %d" [Some res];; mret 2 else
  res ← nrf24l01_set_rx_pipe_0_address gs addr basic_address_len;
  if decide (res ≠ 0) then
    debug gs_handle "nrf24l01: set rx pipe 0 address failed. with %d" [Some res];; mret 3 else
  res ← nrf24l01_send gs buf len use_ack;
  if decide (res ≠ 0) then mret 1 else mret 0.

Definition nrf24l01_basic_set_frequency (freq : Z) : M D Z :=
  res ← nrf24l01_set_channel_frequency gs freq;
  if decide (res ≠ 0) then error gs_handle "nrf24l01: set channel frequency failed." 1
  else mret 0.

Definition nrf24l01_basic_get_frequency : M D (Z * option Z) :=
  '(res, freq) ← nrf24l01_get_channel_frequency gs;
  if decide (res ≠ 0) then error_out gs_handle "nrf24l01: get channel frequency failed." 1 freq
  else mret (0, freq).

Definition nrf24l01_basic_set_tx_address (addr : option (list Z)) (st : tx_state) :
    M D (Z * tx_state) :=
  match addr with
  | None => mret (1, st)
  | Some addr =>
      res ← nrf24l01_set_tx_address gs addr basic_address_len;
      if decide (res ≠ 0) then
        debug gs_handle "nrf24l01: set tx address failed. with %d" [Some res];; mret (1, st) else
      res ← nrf24l01_set_rx_pipe_0_address gs addr basic_address_len;
      if decide (res ≠ 0) then
        debug gs_handle "nrf24l01: set rx pipe 0 address failed. with %d" [Some res];;
        mret (1, st) else
      saved ← mlift OutOfBounds (memcpy_local 5 5 addr);
      mret (0, mk_tx_state saved 1)
  end.

Definition nrf24l01_basic_sent (buf : list Z) (len : Z) (use_ack : nrf24l01_bool_t)
    (st : tx_state) : M D Z :=
  if decide (gs_tx_addr_set st = 0) then
    error gs_handle
      "nrf24l01: tx address not set. call nrf24l01_basic_set_tx_address() first." 1
  else
    res ← nrf24l01_send gs buf len use_ack;
    if decide (res ≠ 0) then mret 1 else mret 0.

(** The address and the flag given to the caller; a null pointer gives 1. *)
Definition nrf24l01_basic_get_tx_address (null_arg : bool) (st : tx_state) :
    Z * option (list Z * Z) :=
  if null_arg then (1, None) else (0, Some (gs_tx_addr st, gs_tx_addr_set st)).

End Basic.
