(* ===== verification/NrfSetup.v ===== *)
(** * Addresses and the start-up sequence of the radio

    Lemmas on the address functions of [Nrf24l01.v] and on
    [nrf24l01_basic_init] of [NrfBasic.v], for a handle with the register
    file contract [RegBus]. *)
From S2P Require Import Prelude Nrf24l01 Nrf24l01Bus NrfBasic.

Section Setup.
Context {W : Type} (h : nrf24l01_handle W) (inv : W → Prop)
  (regs : W → Z → list Z) (ce : W → Z) `{Hbus : !RegBus h inv regs ce}.
#[local] Abbreviation touched := (touched inv regs ce).
#[local] Abbreviation D := (nrf24l01_dyn W).

(** ** Addresses *)

Definition address_regs : list Z :=
  [NRF24L01_REG_RX_ADDR_P0; NRF24L01_REG_RX_ADDR_P1; NRF24L01_REG_TX_ADDR].

Lemma address_reg_facts reg : reg ∈ address_regs →
  config_reg reg ∧ reg_len reg = 5%nat ∧ reg_mask reg = 0xFF.
Proof.
  unfold address_regs. rewrite !elem_of_cons, elem_of_nil.
  intros [->|[->|[->|[]]]];
    (split; [refine (bool_decide_unpack (config_reg _) _)|]); vm_compute; done.
Qed.

(** The width the chip is set to, when it is a legal one. *)
Definition chip_width (w : W) (width : Z) : Prop :=
  ∃ b, regs w NRF24L01_REG_SETUP_AW = [b] ∧ address_bytes b = Some width.

Lemma address_bytes_range b width : address_bytes b = Some width → 3 <= width <= 5.
Proof.
  unfold address_bytes. pose proof (Z.land_ones (Z.shiftr b 0) 2 ltac:(lia)) as E.
  change (Z.ones 2) with 3 in E. rewrite E.
  pose proof (Z.mod_pos_bound (Z.shiftr b 0) (2 ^ 2) eq_refl). change (2 ^ 2) with 4 in *.
  destruct (decide _); [done|]. intros [= <-]. lia.
Qed.

Lemma chip_width_touched rs d d' width :
  touched rs d d' → NRF24L01_REG_SETUP_AW ∉ rs →
  chip_width (world d) width → chip_width (world d') width.
Proof.
  intros Ht Hn (b & Hb & Hw). exists b. split; [|done]. rewrite <-Hb.
  apply (touched_regs inv regs ce rs); [done| |done]. by refine (bool_decide_unpack (config_reg _) _).
Qed.

Lemma read_width d width :
  inv (world d) → chip_width (world d) width →
  wp (a_nrf24l01_spi_read h NRF24L01_REG_SETUP_AW 1) d (λ '(st, data) d',
    st = 0 ∧ (∃ b, data = [b] ∧ address_bytes b = Some width) ∧ touched [] d d').
Proof.
  intros Hi (b & Hb & Hw). assert (Hc : config_reg NRF24L01_REG_SETUP_AW).
  { by refine (bool_decide_unpack (config_reg _) _). }
  eapply wp_mono; [by apply (spi_read_spec h inv regs ce)|].
  intros [st data] d' (-> & -> & Ht). rewrite Hb. split_and!; [done|by exists b|done].
Qed.

Lemma land_ff b : is_u8 b → Z.land b 0xFF = b.
Proof. intros Hb. change 0xFF with (Z.ones 8). rewrite Z.land_ones by done. by apply Z.mod_small. Qed.

Lemma fmap_land_ff (l : list Z) : Forall is_u8 l → (λ b, Z.land b 0xFF) <$> l = l.
Proof. induction 1; simpl; [done|]. rewrite land_ff by done. by f_equal. Qed.

Lemma set_address_spec reg msg d addr len width :
  inited d = 1 → inv (world d) → reg ∈ address_regs → chip_width (world d) width →
  1 <= len <= width → len <= Z.of_nat (length addr) → Forall is_u8 addr →
  wp (set_address reg msg (Some h) addr len) d (λ res d',
    res = 0 ∧
    regs (world d') reg = reverse (take (Z.to_nat len) addr)
                            ++ drop (Z.to_nat len) (regs (world d) reg) ∧
    touched [reg] d d').
Proof.
  intros Hin Hi Hr Hw Hl Ha Hu8. destruct (address_reg_facts reg Hr) as (Hc & Hrl & Hm).
  destruct Hw as (b0 & Hb0 & Hw). pose proof (address_bytes_range _ _ Hw).
  apply checked_spec; [done|]. eapply wp_seq; [apply (read_width d width Hi); by exists b0|].
  intros [st data] d1 (-> & (b & -> & Hwb) & Ht1). simpl. apply wp_bind, wp_ret. rewrite Hwb.
  rewrite decide_False by lia. unfold memcpy_local. rewrite decide_True by lia.
  apply wp_bind, wp_ret.
  rewrite reverse_bytes_spec by (rewrite length_take; lia). apply wp_bind, wp_ret.
  rewrite take_ge, drop_ge, app_nil_r by (rewrite length_take; lia).
  eapply wp_seq; [apply (spi_write_spec h inv regs ce)|].
  - apply Ht1.
  - done.
  - rewrite length_reverse, length_take, Hrl. lia.
  - by apply Forall_reverse, Forall_take.
  - intros st d2 (-> & Hd2 & Ht2). apply wp_ret. split_and!; [done| |].
    + rewrite Hd2, Hm, length_reverse, length_take.
      replace (Z.to_nat len `min` length addr)%nat with (Z.to_nat len) by lia. f_equal.
      * by apply fmap_land_ff, Forall_reverse, Forall_take.
      * f_equal. by apply (touched_regs inv regs ce [] d d1); [|done|apply not_elem_of_nil].
    + by apply (touched_trans inv regs ce [] [reg] _ d1).
Qed.

Lemma get_address_spec reg msg d addr len width :
  inited d = 1 → inv (world d) → reg ∈ address_regs → chip_width (world d) width →
  width <= len → width <= Z.of_nat (length addr) →
  wp (get_address reg msg (Some h) addr len) d (λ '(res, (addr', len')) d',
    res = 0 ∧ len' = width ∧
    addr' = reverse (take (Z.to_nat width) (regs (world d) reg)) ++ drop (Z.to_nat width) addr ∧
    touched [] d d').
Proof.
  intros Hin Hi Hr Hw Hl Ha. destruct (address_reg_facts reg Hr) as (Hc & Hrl & Hm).
  destruct Hw as (b0 & Hb0 & Hw). pose proof (address_bytes_range _ _ Hw).
  apply checked_spec; [done|]. eapply wp_seq; [apply (read_width d width Hi); by exists b0|].
  intros [st data] d1 (-> & (b & -> & Hwb) & Ht1). simpl. apply wp_bind, wp_ret. rewrite Hwb.
  rewrite decide_False by lia. eapply wp_seq.
  { apply (spi_read_spec h inv regs ce); [apply Ht1|done|rewrite Hrl; lia]. }
  intros [st data] d2 (-> & -> & Ht2).
  rewrite (touched_regs inv regs ce [] d d1 reg) by (done || apply not_elem_of_nil).
  destruct (regs_wf (world d) reg Hi Hc) as [Hlr _]. rewrite Hrl in Hlr.
  unfold store_prefix. rewrite decide_True by (rewrite length_take; lia).
  apply wp_bind, wp_ret. rewrite decide_False by (intros E; done). simpl.
  rewrite reverse_bytes_spec by (rewrite length_app, length_take, length_drop; lia).
  apply wp_bind, wp_ret, wp_ret. split_and!; [done..| |].
  - rewrite length_take. replace (Z.to_nat width `min` length (regs (world d) reg))%nat
      with (Z.to_nat width) by lia.
    rewrite take_app_length', drop_app_length' by (rewrite length_take; lia). done.
  - by apply (touched_trans inv regs ce [] [] _ d1).
Qed.

(** ** Known fields *)

Definition field_val (w : W) (f : field) : option Z :=
  match regs w (field_reg f) with
  | [b] => Some (field_read f b)
  | _ => None
  end.

Definition known (l : list (field * Z)) (d : D) : Prop :=
  inited d = 1 ∧ inv (world d) ∧ ∀ f v, (f, v) ∈ l → field_val (world d) f = Some v.

Lemma known_touched rs l d d' :
  touched rs d d' → (∀ f v, (f, v) ∈ l → field_reg f ∉ rs) → known l d → known l d'.
Proof.
  intros Ht Hn (H1 & H2 & H3). split_and!; [by destruct Ht as (_ & -> & _)|apply Ht|].
  intros f v Hf. unfold field_val.
  rewrite (touched_regs inv regs ce rs d d'); [by apply H3|done|apply field_reg_config|by eapply Hn].
Qed.

Lemma known_quiet l d d' : touched [] d d' → known l d → known l d'.
Proof. intros Ht. apply (known_touched []); [done|]. intros f v _. apply not_elem_of_nil. Qed.

Lemma known_set f v l d :
  known l d → 0 <= v < Z.of_nat (field_size f) → f ∉ l.*1 →
  wp (field_set f (Some h) v) d (λ res d',
    res = 0 ∧ known ((f, v) :: l) d' ∧ touched [field_reg f] d d').
Proof.
  intros (H1 & H2 & H3) Hv Hf.
  eapply wp_mono; [by apply (field_set_spec h inv regs ce)|].
  intros res d' (-> & Ht & b & b' & Hb & Hb' & Hw). split_and!; [done| |done].
  split_and!; [by destruct Ht as (_ & -> & _)|apply Ht|].
  intros g u Hg. apply elem_of_cons in Hg as [[= -> ->]|Hg].
  { unfold field_val. rewrite Hb'. f_equal. apply Hw. }
  specialize (H3 g u Hg) as Hu. unfold field_val in *.
  destruct (decide (field_reg g = field_reg f)) as [E|E].
  - rewrite E, Hb in Hu. rewrite E, Hb'. rewrite (field_read_written f g v b b') by done.
    rewrite decide_False; [done|]. intros ->. apply Hf. by apply (list_elem_of_fmap_2 fst _ (f, u)).
  - rewrite (touched_regs inv regs ce [field_reg f] d d'); [done..|apply field_reg_config|].
    by rewrite elem_of_cons, elem_of_nil; intros [?|[]].
Qed.

(** ** Runs of steps *)

Lemma basic_check_spec op msg k d (P : D → Prop) Q :
  wp op d (λ res d', res = 0 ∧ P d') → (∀ d', P d' → wp k d' Q) →
  wp (basic_check h op msg k) d Q.
Proof.
  intros Ho Hk. unfold basic_check. eapply wp_seq; [exact Ho|]. intros res d' [-> HP].
  rewrite decide_False by (intros E; done). by apply Hk.
Qed.

(** Each step sets a field to a legal value. *)
Definition sets_field (step : M D Z * string) (fv : field * Z) : Prop :=
  step.1 = field_set fv.1 (Some h) fv.2 ∧ 0 <= fv.2 < Z.of_nat (field_size fv.1).

Lemma basic_steps_fields steps fvs : Forall2 sets_field steps fvs → ∀ l d k Q,
  NoDup (fvs ++ l).*1 → known l d →
  (∀ d', known (reverse fvs ++ l) d' → touched ((λ fv, field_reg fv.1) <$> fvs) d d' →
     wp k d' Q) →
  wp (basic_steps h steps k) d Q.
Proof.
  induction 1 as [|[op msg] [f v] steps fvs [Hop Hv] Hs IH]; intros l d k Q Hnd Hkn Hk; simpl.
  { apply Hk; [done|]. by apply touched_refl, Hkn. }
  simpl in *. apply NoDup_cons in Hnd as [Hf Hnd].
  apply (basic_check_spec _ _ _ _ (λ d', known ((f, v) :: l) d' ∧ touched [field_reg f] d d')).
  - rewrite Hop. apply known_set; [exact Hkn|done|].
    intros Hin. apply Hf. rewrite fmap_app, elem_of_app. by right.
  - intros d' [Hkn' Ht]. apply (IH ((f, v) :: l)); [|done|].
    + rewrite fmap_app, fmap_cons, <-Permutation_middle. simpl.
      rewrite fmap_app in *. by apply NoDup_cons.
    + intros d2 Hk2 Ht2. apply Hk.
      * by rewrite reverse_cons, <-app_assoc.
      * by apply (touched_trans inv regs ce [field_reg f] _ _ d').
Qed.

Definition quiet_step (step : M D Z * string) : Prop :=
  ∀ d, inited d = 1 → inv (world d) → wp step.1 d (λ res d', res = 0 ∧ touched [] d d').

Lemma basic_steps_quiet steps : Forall quiet_step steps → ∀ l d k Q,
  known l d → (∀ d', known l d' → touched [] d d' → wp k d' Q) →
  wp (basic_steps h steps k) d Q.
Proof.
  induction 1 as [|[op msg] steps Hop Hs IH]; intros l d k Q Hkn Hk; simpl.
  { apply Hk; [done|]. by apply touched_refl, Hkn. }
  eapply basic_check_spec; [apply Hop; apply Hkn|].
  intros d' Ht. apply (IH l); [by eapply known_quiet|].
  intros d2 Hk2 Ht2. apply Hk; [done|]. by apply (touched_trans inv regs ce [] [] _ d').
Qed.

Lemma clear_interrupt_quiet i msg : quiet_step (nrf24l01_clear_interrupt (Some h) i, msg).
Proof.
  intros d Hin Hi. apply checked_spec; [done|]. unfold update_register.
  assert (Hr : wp (a_nrf24l01_spi_read h NRF24L01_REG_STATUS 1) d (λ '(st, data) d',
      st = 0 ∧ (∃ b, data = [b] ∧ is_u8 b) ∧ touched [] d d')).
  { unfold a_nrf24l01_spi_read, NRF24L01_COMMAND_R_REGISTER. rewrite Z.lor_0_l.
    wp_with @bus_status_read; [done..|]. intros [st data] d' (-> & ?). by apply wp_ret. }
  eapply wp_seq; [exact Hr|]. intros [st data] d1 (-> & (b & -> & Hb) & Ht1). simpl.
  apply wp_bind, wp_ret. unfold a_nrf24l01_spi_write. apply wp_bind.
  wp_with @bus_status_write; [done|apply Ht1|apply u8_range|].
  intros st d2 (-> & Ht2). apply wp_ret, wp_ret. split; [done|].
  by apply (touched_trans inv regs ce [] [] _ d1).
Qed.

Lemma send_command_quiet cmd msg msg' :
  cmd ∈ [NRF24L01_COMMAND_FLUSH_TX; NRF24L01_COMMAND_FLUSH_RX; NRF24L01_COMMAND_NOP] →
  quiet_step (checked_op (Some h) (λ h, send_command h cmd msg), msg').
Proof.
  intros Hc d Hin Hi. apply checked_spec; [done|]. unfold send_command.
  wp_with @bus_command; [done..|]. intros st d' (-> & Ht). by apply wp_ret.
Qed.

Lemma set_active_spec d enable :
  inited d = 1 → inv (world d) →
  wp (nrf24l01_set_active (Some h) enable) d (λ res d', res = 0 ∧
    inv (world d') ∧ inited d' = inited d ∧ ce (world d') = bool_val enable ∧
    ∀ q, config_reg q → regs (world d') q = regs (world d) q).
Proof.
  intros Hin Hi. apply checked_spec; [done|].
  wp_with @bus_ce; [done..|destruct enable; simpl; rewrite !elem_of_cons; tauto|].
  intros st d' (-> & ?). by apply wp_ret.
Qed.

(** The values [nrf24l01_basic_init] gives the fields. *)
Definition basic_default (type : nrf24l01_type_t) (f : field) : Z :=
  match f with
  | FConfig _ | FAutoAck _ | FRxPipe _ | FPipeDynamic _ | FDynamic | FPayloadAck | FNoAck => 1
  | FMode => match type with NRF24L01_TYPE_TX => 0 | NRF24L01_TYPE_RX => 1 end
  | FAddressWidth => 3
  | FRetransmitDelay => 3
  | FRetransmitCount => 10
  | FChannel => 94
  | FCarrier | FPllLock => 0
  | FDataRate => 1
  | FOutputPower => 3
  | FRx2Address => 2
  | FRx3Address => 3
  | FRx4Address => 4
  | FRx5Address => 5
  | FPayload _ => 32
  end.

Definition with_defaults (type : nrf24l01_type_t) (fs : list field) : list (field * Z) :=
  (λ f, (f, basic_default type f)) <$> fs.

Definition config_fields : list field :=
  [FConfig NRF24L01_CONFIG_PWR_UP; FConfig NRF24L01_CONFIG_CRCO; FConfig NRF24L01_CONFIG_EN_CRC;
   FConfig NRF24L01_CONFIG_MASK_MAX_RT; FConfig NRF24L01_CONFIG_MASK_TX_DS;
   FConfig NRF24L01_CONFIG_MASK_RX_DR; FMode].
Definition radio_fields : list field :=
  [FRetransmitDelay; FRetransmitCount; FChannel; FCarrier; FPllLock; FDataRate; FOutputPower].
Definition dynamic_fields : list field :=
  (FPipeDynamic <$> all_pipes) ++ [FDynamic; FPayloadAck; FNoAck].
Definition short_address_fields : list field :=
  [FRx2Address; FRx3Address; FRx4Address; FRx5Address].

Lemma basic_config_sets type :
  Forall2 sets_field (basic_config_steps h type) (with_defaults type config_fields).
Proof. destruct type; repeat constructor; simpl; lia. Qed.
Lemma basic_ack_sets type :
  Forall2 sets_field (basic_ack_steps h) (with_defaults type (FAutoAck <$> all_pipes)).
Proof. repeat constructor; simpl; lia. Qed.
Lemma basic_rx_pipe_sets type :
  Forall2 sets_field (basic_rx_pipe_steps h) (with_defaults type (FRxPipe <$> all_pipes)).
Proof. repeat constructor; simpl; lia. Qed.
Lemma basic_width_sets type :
  Forall2 sets_field (basic_width_steps h) (with_defaults type [FAddressWidth]).
Proof. repeat constructor; simpl; lia. Qed.
Lemma basic_radio_sets type :
  Forall2 sets_field (basic_radio_steps h 3) (with_defaults type radio_fields).
Proof. repeat constructor; simpl; lia. Qed.
Lemma basic_payload_sets type :
  Forall2 sets_field (basic_payload_steps h) (with_defaults type (FPayload <$> all_pipes)).
Proof. repeat constructor; simpl; lia. Qed.
Lemma basic_dynamic_sets type :
  Forall2 sets_field (basic_dynamic_steps h) (with_defaults type dynamic_fields).
Proof. repeat constructor; simpl; lia. Qed.
Lemma basic_short_address_sets type :
  Forall2 sets_field (basic_short_address_steps h) (with_defaults type short_address_fields).
Proof. repeat constructor; simpl; lia. Qed.

(** Setting a whole address leaves the known fields alone. *)
Lemma known_set_address reg msg l d addr :
  reg ∈ address_regs → known l d → (FAddressWidth, 3) ∈ l →
  length addr = 5%nat → Forall is_u8 addr →
  wp (set_address reg msg (Some h) addr basic_address_len) d (λ res d',
    res = 0 ∧ known l d' ∧ regs (world d') reg = reverse addr ∧ touched [reg] d d').
Proof.
  intros Hr Hkn Hw Hl Hu. destruct (address_reg_facts reg Hr) as (Hc & Hrl & _).
  destruct Hkn as (H1 & H2 & H3).
  assert (Hcw : chip_width (world d) 5).
  { specialize (H3 _ _ Hw). unfold field_val, field_reg in H3.
    destruct (one_byte h inv regs ce (world d) NRF24L01_REG_SETUP_AW) as (b & Hb & _); [done..|
      by refine (bool_decide_unpack (config_reg _) _)|done|].
    rewrite Hb in H3. injection H3 as H3. exists b. split; [done|].
    assert (E : Z.land (Z.shiftr b 0) 0x3 = 3) by exact H3.
    unfold address_bytes. cbv zeta. revert E. generalize (Z.land (Z.shiftr b 0) 0x3).
    by intros z ->. }
  eapply wp_mono; [apply (set_address_spec reg msg d addr _ 5); try done|].
  { rewrite Hl. done. }
  intros res d' (-> & Hd & Ht). split_and!; [done| | |done].
  - apply (known_touched [reg] l d); [done| |done].
    intros f v Hf E. apply elem_of_cons in E as [E|E%elem_of_nil]; [|done].
    destruct (field_reg_config f) as [_ Hl1]. rewrite E, Hrl in Hl1. done.
  - rewrite Hd. change (Z.to_nat basic_address_len) with 5%nat.
    destruct (regs_wf (world d) reg H2 Hc) as [Hlr _]. rewrite Hrl in Hlr.
    by rewrite take_ge, drop_ge, app_nil_r by lia.
Qed.

Lemma basic_interrupt_quiet : Forall quiet_step (basic_interrupt_steps h).
Proof. repeat constructor; apply clear_interrupt_quiet. Qed.

(** ** The whole sequence *)

Definition basic_fields : list field :=
  config_fields ++ (FAutoAck <$> all_pipes) ++ (FRxPipe <$> all_pipes) ++ [FAddressWidth] ++
  radio_fields ++ (FPayload <$> all_pipes) ++ dynamic_fields ++ short_address_fields.

Lemma basic_fields_complete f : f ∈ basic_fields.
Proof.
  refine (bool_decide_unpack (f ∈ basic_fields) _).
  destruct f as [c| |p|p| | | | | | | | | | | | |p|p| | |];
    try destruct c; try destruct p; vm_compute; exact I.
Qed.

(** What the start-up sequence establishes. *)
Definition basic_ready (type : nrf24l01_type_t) (d : D) : Prop :=
  inited d = 1 ∧ inv (world d) ∧ ce (world d) = 1 ∧
  (∀ f, field_val (world d) f = Some (basic_default type f)) ∧
  regs (world d) NRF24L01_REG_RX_ADDR_P0 = reverse NRF24L01_BASIC_DEFAULT_RX_ADDR_0 ∧
  regs (world d) NRF24L01_REG_RX_ADDR_P1 = reverse NRF24L01_BASIC_DEFAULT_RX_ADDR_1.

(** The field values collected so far, the latest first. *)
Definition collected (type : nrf24l01_type_t) (fs : list field) (d : D) : Prop :=
  ∃ l, known l d ∧ Permutation l (with_defaults type fs).

Lemma with_defaults_fst type fs : (with_defaults type fs).*1 = fs.
Proof. unfold with_defaults. rewrite <-list_fmap_compose. apply list_fmap_id. Qed.

Lemma collect_steps type steps fs fs' d k Q :
  Forall2 sets_field steps (with_defaults type fs') → NoDup (fs' ++ fs) →
  collected type fs d →
  (∀ d', collected type (fs' ++ fs) d' →
     touched (field_reg <$> fs') d d' → wp k d' Q) →
  wp (basic_steps h steps k) d Q.
Proof.
  intros Hs Hnd (l & Hkn & Hp) Hk.
  apply (basic_steps_fields steps _ Hs l); [|done|].
  - rewrite fmap_app, Hp, !with_defaults_fst. done.
  - intros d' Hkn' Ht. apply Hk.
    + eexists. split; [exact Hkn'|]. unfold with_defaults in *.
      by rewrite reverse_Permutation, Hp, fmap_app.
    + unfold with_defaults in Ht. by rewrite <-list_fmap_compose in Ht.
Qed.

Lemma collected_quiet_steps type steps fs d k Q :
  Forall quiet_step steps → collected type fs d →
  (∀ d', collected type fs d' → touched [] d d' → wp k d' Q) →
  wp (basic_steps h steps k) d Q.
Proof.
  intros Hs (l & Hkn & Hp) Hk. apply (basic_steps_quiet steps Hs l); [done|].
  intros d' Hkn' Ht. apply Hk; [by exists l|done].
Qed.

(** What the steps need of the platform's own start-up hooks. *)
Definition starts : Prop :=
  ∀ d, inv (world d) → wp (nrf24l01_init (Some h)) d (λ res d',
    res = 0 ∧ inited d' = 1 ∧ inv (world d') ∧
    ∀ q, config_reg q → regs (world d') q = regs (world d) q).

Lemma collected_nil type d : inited d = 1 → inv (world d) → collected type [] d.
Proof. intros ??. exists []. split; [|done]. split_and!; [done..|]. intros f v Hf. by apply elem_of_nil in Hf. Qed.

(** The default of a field that is not changed again is still there. *)
Lemma collected_val type fs f d :
  f ∈ fs → collected type fs d → field_val (world d) f = Some (basic_default type f).
Proof.
  intros Hf (l & (_ & _ & Hv) & Hp). apply Hv. rewrite Hp. unfold with_defaults.
  by apply (list_elem_of_fmap_2 (λ f, (f, basic_default type f))).
Qed.

Lemma collected_address type fs reg msg d addr :
  reg ∈ address_regs → collected type fs d → FAddressWidth ∈ fs →
  length addr = 5%nat → Forall is_u8 addr →
  wp (set_address reg msg (Some h) addr basic_address_len) d (λ res d',
    res = 0 ∧ collected type fs d' ∧ regs (world d') reg = reverse addr ∧ touched [reg] d d').
Proof.
  intros Hr (l & Hkn & Hp) Hw Hl Hu. eapply wp_mono; [apply (known_set_address reg msg l d); try done|].
  - rewrite Hp. by apply (list_elem_of_fmap_2 (λ f, (f, basic_default type f)) fs FAddressWidth).
  - intros res d' (-> & Hk & Hd & Ht). split_and!; [done| |done..]. by exists l.
Qed.

Definition early_fields : list field :=
  [FAddressWidth] ++ (FRxPipe <$> all_pipes) ++ (FAutoAck <$> all_pipes) ++ config_fields.
Definition late_fields : list field :=
  dynamic_fields ++ (FPayload <$> all_pipes) ++ radio_fields ++ early_fields.

Ltac nodup := refine (bool_decide_unpack (NoDup _) _); vm_compute; exact I.

Lemma basic_early type d k Q :
  collected type [] d → (∀ d', collected type early_fields d' → wp k d' Q) →
  wp (basic_steps h (basic_config_steps h type) (basic_steps h (basic_ack_steps h)
     (basic_steps h (basic_rx_pipe_steps h) (basic_steps h (basic_width_steps h) k)))) d Q.
Proof.
  intros H0 Hk.
  eapply collect_steps; [apply basic_config_sets| |exact H0|]; [nodup|]. intros d1 H1 _.
  eapply collect_steps; [apply basic_ack_sets| |exact H1|]; [nodup|]. intros d2 H2 _.
  eapply collect_steps; [apply basic_rx_pipe_sets| |exact H2|]; [nodup|]. intros d3 H3 _.
  eapply collect_steps; [apply basic_width_sets| |exact H3|]; [nodup|]. intros d4 H4 _.
  by apply Hk.
Qed.

Lemma basic_late type d k Q :
  collected type early_fields d → (∀ d', collected type late_fields d' → wp k d' Q) →
  wp (basic_steps h (basic_radio_steps h 3) (basic_steps h (basic_interrupt_steps h)
     (basic_steps h (basic_payload_steps h) (basic_steps h (basic_dynamic_steps h) k)))) d Q.
Proof.
  intros H0 Hk.
  eapply collect_steps; [apply basic_radio_sets| |exact H0|]; [nodup|]. intros d1 H1 _.
  eapply collected_quiet_steps; [apply basic_interrupt_quiet|exact H1|]. intros d2 H2 _.
  eapply collect_steps; [apply basic_payload_sets| |exact H2|]; [nodup|]. intros d3 H3 _.
  eapply collect_steps; [apply basic_dynamic_sets| |exact H3|]; [nodup|]. intros d4 H4 _.
  by apply Hk.
Qed.

Lemma basic_address type d k Q :
  collected type late_fields d →
  (∀ d', collected type late_fields d' →
     regs (world d') NRF24L01_REG_RX_ADDR_P0 = reverse NRF24L01_BASIC_DEFAULT_RX_ADDR_0 →
     regs (world d') NRF24L01_REG_RX_ADDR_P1 = reverse NRF24L01_BASIC_DEFAULT_RX_ADDR_1 →
     wp k d' Q) →
  wp (basic_steps h (basic_address_steps h) k) d Q.
Proof.
  intros H0 Hk. unfold basic_address_steps. cbn [basic_steps].
  assert (Hw : FAddressWidth ∈ late_fields).
  { refine (bool_decide_unpack (_ ∈ late_fields) _). vm_compute. exact I. }
  assert (Ha : Forall is_u8 NRF24L01_BASIC_DEFAULT_RX_ADDR_0 ∧
               Forall is_u8 NRF24L01_BASIC_DEFAULT_RX_ADDR_1) by (split; repeat constructor; done).
  eapply basic_check_spec.
  { unfold nrf24l01_set_rx_pipe_0_address.
    apply (collected_address type late_fields); [|done|done|done|apply Ha].
    unfold address_regs. rewrite !elem_of_cons. tauto. }
  intros d1 (H1 & Hr0 & _). eapply basic_check_spec.
  { unfold nrf24l01_set_rx_pipe_1_address.
    apply (collected_address type late_fields); [|done|done|done|apply Ha].
    unfold address_regs. rewrite !elem_of_cons. tauto. }
  intros d2 (H2 & Hr1 & Ht). apply Hk; [done| |done]. rewrite <-Hr0.
  apply (touched_regs inv regs ce [NRF24L01_REG_RX_ADDR_P1]); [done| |].
  - by refine (bool_decide_unpack (config_reg _) _).
  - by rewrite elem_of_cons, elem_of_nil; intros [?|[]].
Qed.

Lemma basic_final type d Q :
  collected type (short_address_fields ++ late_fields) d →
  (∀ d', inited d' = 1 → inv (world d') → ce (world d') = 1 →
     (∀ q, config_reg q → regs (world d') q = regs (world d) q) → Q 0 d') →
  wp (basic_steps h (basic_final_steps h) (mret 0)) d Q.
Proof.
  intros (l & (H1 & H2 & _) & _) Hk. unfold basic_final_steps. cbn [basic_steps].
  eapply basic_check_spec; [apply (send_command_quiet NRF24L01_COMMAND_FLUSH_TX _ EmptyString); try done;
    rewrite !elem_of_cons; tauto|]. intros d1 Ht1.
  assert (inited d1 = 1) by (by destruct Ht1 as (_ & -> & _)).
  eapply basic_check_spec; [apply (send_command_quiet NRF24L01_COMMAND_FLUSH_RX _ EmptyString); try done;
    [rewrite !elem_of_cons; tauto|apply Ht1]|]. intros d2 Ht2.
  assert (inited d2 = 1) by (by destruct Ht2 as (_ & -> & _)).
  eapply basic_check_spec; [apply (set_active_spec d2); [done|apply Ht2]|].
  intros d3 (? & E & ? & Hr). apply wp_ret. apply Hk; [congruence|done..|].
  intros q Hq. rewrite Hr by done.
  rewrite (touched_regs inv regs ce [] d1 d2), (touched_regs inv regs ce [] d d1);
    by try apply not_elem_of_nil.
Qed.

Lemma basic_init_ready (link : option (Z → Z → list Z → Z → M D unit) → nrf24l01_handle W) type cb d :
  link cb = h → starts → inv (world d) →
  wp (nrf24l01_basic_init link type cb) d (λ res d', res = 0 ∧ basic_ready type d').
Proof.
  intros Hlink Hst Hi. unfold nrf24l01_basic_init. rewrite Hlink.
  apply wp_bind, wp_modify, wp_bind, wp_modify. cbn [world inited].
  eapply wp_seq; [by apply Hst|]. intros res d1 (-> & Hin1 & Hi1 & _).
  rewrite decide_False by (intros E; done).
  eapply basic_check_spec; [by apply (set_active_spec d1)|].
  intros d2 (Hi2 & Hin2 & _). apply (basic_early type); [apply collected_nil; congruence|].
  intros d3 H3. apply wp_bind. unfold nrf24l01_auto_retransmit_delay_convert_to_register.
  apply checked_spec; [by destruct H3 as (? & (? & _) & _)|]. apply wp_ret.
  rewrite decide_False by (intros E; done). apply wp_bind, wp_ret.
  apply (basic_late type); [done|]. intros d4 H4.
  apply (basic_address type); [done|]. intros d5 H5 Hr0 Hr1.
  eapply collect_steps; [apply basic_short_address_sets| |exact H5|]; [nodup|]. intros d6 H6 Ht6.
  apply (basic_final type); [done|]. intros d7 Hin7 Hi7 Hce7 Hr7. split; [done|].
  split_and!; [done..| | |].
  - intros f. transitivity (field_val (world d6) f).
    + unfold field_val. rewrite Hr7; [done|]. apply field_reg_config.
    + eapply collected_val; [|exact H6].
      pose proof (basic_fields_complete f) as Hf. unfold basic_fields, late_fields, early_fields in *.
      rewrite !elem_of_app in *. tauto.
  - rewrite Hr7, <-Hr0 by (by refine (bool_decide_unpack (config_reg _) _)).
    apply (touched_regs inv regs ce (field_reg <$> short_address_fields)); [done|by refine (bool_decide_unpack (config_reg _) _)|].
    by refine (bool_decide_unpack (_ ∉ _) _).
  - rewrite Hr7, <-Hr1 by (by refine (bool_decide_unpack (config_reg _) _)).
    apply (touched_regs inv regs ce (field_reg <$> short_address_fields)); [done|by refine (bool_decide_unpack (config_reg _) _)|].
    by refine (bool_decide_unpack (_ ∉ _) _).
Qed.

End Setup.
