(* ===== verification/NrfLink.v ===== *)
(** * Sending and the interrupt handler: lemmas

    [send_wait] against the schedule of the interrupt, and the interrupt
    handler on a platform that only promises what the handler relies on. *)
From S2P Require Import Prelude Nrf24l01 Nrf24l01Bus NrfInterface.

(** A computation that ends without a fault from every state. *)
Definition total {S A} (m : M S A) : Prop := ∀ s, wp m s (λ _ _, True).

(** ** Waiting for the interrupt *)

Section Wait.
Context {W : Type} (h : nrf24l01_handle W) (tick : nrf24l01_dyn W → nrf24l01_dyn W).
Context (Hdelay : ∀ d, call_delay_ms h 1 d = Ok tt (tick d)).
#[local] Abbreviation D := (nrf24l01_dyn W).

(** The state after [k] milliseconds. *)
Definition after (k : nat) (d : D) : D := Nat.iter k tick d.

(** The interrupt handler stores [v] in the flag [k] milliseconds after [d]. *)
Definition flagged (d : D) (k : nat) (v : Z) : Prop :=
  (∀ j, (j < k)%nat → finished (after j d) = 0) ∧ finished (after k d) = v ∧ v ≠ 0.

Lemma after_S k d : after (S k) d = after k (tick d).
Proof. unfold after. by rewrite Nat.iter_succ_r. Qed.

Lemma flagged_unique d k k' v v' : flagged d k v → flagged d k' v' → k = k' ∧ v = v'.
Proof.
  intros (H1 & H2 & H3) (H4 & H5 & H6).
  destruct (lt_eq_lt_dec k k') as [[Hlt| ->]|Hlt].
  - specialize (H4 k Hlt). congruence.
  - split; [done|congruence].
  - specialize (H1 k' Hlt). congruence.
Qed.

Lemma flagged_S d k v : finished d = 0 → flagged (tick d) k v → flagged d (S k) v.
Proof.
  intros Hd (H1 & H2 & H3). split_and!; [|by rewrite after_S|done].
  intros [|j] Hj; [done|]. rewrite after_S. apply H1. lia.
Qed.

Lemma send_wait_S n d :
  send_wait h (S n) d =
    if decide (finished d = 0) then send_wait h n (tick d) else Ok (S n) d.
Proof.
  cbn [send_wait]. unfold mgets, mbind, M_bind.
  destruct (decide (finished d = 0)); [by rewrite Hdelay|done].
Qed.

(** [send_wait n] stops when the flag is set within the first [n] checks. *)
Lemma send_wait_spec n : ∀ d,
  (∃ k v, (k < n)%nat ∧ flagged d k v ∧ send_wait h n d = Ok (n - k)%nat (after k d)) ∨
  ((∀ j, (j < n)%nat → finished (after j d) = 0) ∧ send_wait h n d = Ok O (after n d)).
Proof.
  induction n as [|n IH]; intros d.
  { right. split; [lia|done]. }
  rewrite send_wait_S. destruct (decide (finished d = 0)) as [Hd|Hd].
  - destruct (IH (tick d)) as [(k & v & Hk & Hf & ->)|[Hf ->]].
    + left. exists (S k), v. split_and!; [lia|by apply flagged_S|].
      by rewrite after_S.
    + right. split; [|by rewrite after_S].
      intros [|j] Hj; [done|]. rewrite after_S. apply Hf. lia.
  - left. exists O, (finished d). split_and!; [lia| |done]. split_and!; [lia|done..].
Qed.
End Wait.

(** ** The interrupt handler *)

(** A width that can be read into the handler's buffer. *)
Definition width_ok (n : Z) : bool := bool_decide (0 < n <= 33).

(** A read that goes wrong: one that fails (a read of no or of more than 33
    bytes is refused, which is no fault of the bus), or an answer to the command
    that asks for the width of the payload with 0 or with a width over 33. *)
Definition read_upset (cmd n st : Z) (data : list Z) : bool :=
  (width_ok n && bool_decide (st ≠ 0)) ||
  (bool_decide (cmd = NRF24L01_COMMAND_R_RX_PL_WID) && bool_decide (n = 1) &&
   bool_decide (st = 0) && negb (width_ok (default 0 (data !! 0%nat)))).

(** What the handler relies on: calls do not fault, a successful read of [n]
    bytes gives [n] bytes and at most 33, a failed one at most 33, reading the
    status register gives [status], and only the chip enable pin's call moves
    [ce]; nothing but the handler writes the flag; [upset] counts its bus
    transfers that went wrong. *)
Class IrqPlatform {W} (h : nrf24l01_handle W) (ce status upset : W → Z) : Prop := {
  irq_ce d v : v ∈ [0; 1] → wp (call_gpio_write h v) d (λ st d',
    st = 0 ∧ ce (world d') = v ∧ finished d' = finished d ∧ status (world d') = status (world d) ∧
    upset (world d') = upset (world d));
  irq_read d cmd n : is_u8 n → wp (call_spi_read h cmd n) d (λ '(st, data) d',
    (length data ≤ irq_buffer_size)%nat ∧ Forall is_u8 data ∧
    (st = 0 → Z.of_nat (length data) = n ∧ 0 < n) ∧
    ce (world d') = ce (world d) ∧ finished d' = finished d ∧
    upset (world d') = upset (world d) + Z.b2z (read_upset cmd n st data) ∧
    (cmd = NRF24L01_REG_STATUS → n = 1 → st = 0 → data = [status (world d)]));
  irq_write d cmd data : (length data ≤ 1)%nat → wp (call_spi_write h cmd data) d (λ st d',
    ce (world d') = ce (world d) ∧ finished d' = finished d ∧
    upset (world d') = upset (world d) + Z.b2z (bool_decide (st ≠ 0)));
  irq_debug d msg args : wp (debug h msg args) d (λ _ d', ce (world d') = ce (world d) ∧ finished d' = finished d ∧ upset (world d') = upset (world d));
  irq_callback d type num buf len : wp (run_callback h type num buf len) d (λ _ d', ce (world d') = ce (world d) ∧ finished d' = finished d ∧ upset (world d') = upset (world d))
}.

Section Irq.
Context {W : Type} (h : nrf24l01_handle W) (ce status upset : W → Z)
  `{Hp : !IrqPlatform h ce status upset}.
#[local] Abbreviation D := (nrf24l01_dyn W).

(** A step of the handler: no transfer goes wrong and it goes on with the flag
    [fin], or one goes wrong and it returns 1 with the pin up and the flag as it
    was. *)
Definition step_post (d : D) (fin : Z) (r : option Z) (d' : D) : Prop :=
  match r with
  | None => finished d' = fin ∧ ce (world d') = ce (world d) ∧ upset (world d') = upset (world d)
  | Some r => r = 1 ∧ ce (world d') = 1 ∧ finished d' = finished d ∧ upset (world d) < upset (world d')
  end.

Lemma irq_error_spec d msg : wp (irq_error h msg) d (λ r d',
  r = 1 ∧ ce (world d') = 1 ∧ finished d' = finished d ∧ upset (world d') = upset (world d)).
Proof.
  unfold irq_error. wp_with irq_debug. intros [] d1 (? & ? & ?).
  wp_with irq_ce; [rewrite !elem_of_cons; tauto|]. intros st d2 (_ & Hce & ? & ? & ?). apply wp_ret.
  split_and!; congruence.
Qed.

Lemma irq_fail d d0 fin msg :
  finished d = finished d0 → upset (world d0) < upset (world d) →
  wp (r ← irq_error h msg; mret (Some r)) d (step_post d0 fin).
Proof.
  intros Hf Hu. wp_with irq_error_spec. intros r d1 (-> & Hce & ? & Hu1). apply wp_ret.
  split_and!; [done..|congruence|lia].
Qed.

Lemma irq_tx_full_spec d prev : wp (irq_tx_full h prev) d (step_post d (finished d)).
Proof.
  unfold irq_tx_full. destruct (decide _); [|by apply wp_ret].
  wp_with irq_callback. intros [] d1 (? & ? & ?). by apply wp_ret.
Qed.

Lemma irq_max_rt_spec d prev :
  wp (irq_max_rt h prev) d
    (step_post d (if Z.testbit prev 4 then 2 else finished d)).
Proof.
  assert (E : Z.land (Z.shiftr prev 4) 1 = Z.b2z (Z.testbit prev 4)).
  { rewrite Z.testbit_odd. change 1 with (Z.ones 1). rewrite Z.land_ones by done. apply Zmod_odd. }
  unfold irq_max_rt. rewrite E.
  destruct (Z.testbit prev 4); simpl; [|by apply wp_ret].
  wp_with irq_write; [simpl; lia|]. intros res d1 (Hce & Hf & Hu).
  destruct (decide (res ≠ 0)) as [Hr|Hr].
  { apply irq_fail; [done|]. rewrite bool_decide_true in Hu by done. simpl in Hu. lia. }
  rewrite bool_decide_false in Hu by done. simpl in Hu.
  apply wp_bind, wp_modify. wp_with irq_callback. intros [] d2 (? & ? & ?). apply wp_ret.
  split_and!; simpl in *; congruence || lia.
Qed.

Lemma irq_tx_ds_spec d prev :
  wp (irq_tx_ds h prev) d (λ r d',
    r = None ∧ step_post d (if Z.testbit prev 5 then 1 else finished d) None d').
Proof.
  assert (E : Z.land (Z.shiftr prev 5) 1 = Z.b2z (Z.testbit prev 5)).
  { rewrite Z.testbit_odd. change 1 with (Z.ones 1). rewrite Z.land_ones by done. apply Zmod_odd. }
  unfold irq_tx_ds. rewrite E.
  destruct (Z.testbit prev 5); simpl; [|by apply wp_ret].
  apply wp_bind, wp_modify. wp_with irq_callback. intros [] d2 (? & ? & ?). apply wp_ret.
  split_and!; simpl in *; congruence.
Qed.

(** Reading the payload: a refused read has a width over 33, which was counted
    when the width was read. *)
Lemma irq_rx_payload_spec d d0 prev width :
  finished d = finished d0 → ce (world d) = ce (world d0) → is_u8 width →
  upset (world d) = upset (world d0) + Z.b2z (negb (width_ok width)) →
  wp (irq_rx_payload h prev width) d (step_post d0 (finished d0)).
Proof.
  intros Hf Hc Hw Hu0. unfold irq_rx_payload. wp_with irq_read; [done|].
  intros [res data] d1 (Hl & _ & Hn & Hce & Hfin & Hu & _). unfold read_upset in Hu.
  rewrite (bool_decide_false (NRF24L01_COMMAND_R_RX_PAYLOAD = _)) in Hu by done.
  unfold irq_buffer_size, width_ok in *. rewrite decide_False by lia.
  destruct (decide (res ≠ 0)) as [Hr|Hr].
  - apply irq_fail; [congruence|]. rewrite (bool_decide_true (res ≠ 0)) in Hu by done.
    repeat case_bool_decide; simpl in *; lia.
  - assert (Z.of_nat (length data) = width ∧ 0 < width) as [<- Hpos]
      by (apply Hn; destruct (decide (res = 0)); done).
    rewrite Nat2Z.id, !decide_False by lia. rewrite reverse_bytes_spec by lia.
    apply wp_bind, wp_ret. wp_with irq_callback. intros [] d2 (? & ? & Hu2). apply wp_ret.
    rewrite (bool_decide_false (res ≠ 0)), andb_false_r in Hu by done. simpl in Hu.
    rewrite (bool_decide_true (0 < _ <= 33)) in Hu0 by lia. simpl in Hu0.
    split_and!; simpl; congruence || lia.
Qed.

Lemma irq_rx_dr_spec d prev : wp (irq_rx_dr h prev) d (step_post d (finished d)).
Proof.
  unfold irq_rx_dr. destruct (decide (_ ≠ 0)); [|by apply wp_ret].
  wp_with irq_read; [done|]. intros [res data] d1 (_ & Hb & Hn & Hce & Hfin & Hu & _).
  unfold read_upset in Hu. change (width_ok 1) with true in Hu.
  destruct (decide (res ≠ 0)) as [Hr|Hr].
  { apply irq_fail; [done|]. rewrite (bool_decide_true (res ≠ 0)) in Hu by done. simpl in Hu. lia. }
  assert (res = 0) as -> by (destruct (decide (res = 0)); done).
  destruct (Hn eq_refl) as [Hn' _].
  destruct data as [|width data]; [done|]. apply Forall_cons in Hb as [Hb _].
  rewrite !(bool_decide_true (_ = _)) in Hu by done. simpl in Hu.
  apply wp_bind, wp_ret.
  destruct (decide (width > 32)); [|by apply irq_rx_payload_spec].
  wp_with irq_write; [simpl; lia|]. intros res2 d2 (Hce2 & Hf2 & Hu2).
  destruct (decide (res2 ≠ 0)) as [Hr2|Hr2].
  { apply irq_fail; [congruence|]. rewrite (bool_decide_true (res2 ≠ 0)) in Hu2 by done.
    destruct (width_ok width); simpl in *; lia. }
  rewrite (bool_decide_false (res2 ≠ 0)) in Hu2 by done. simpl in Hu2.
  apply irq_rx_payload_spec; [congruence..|done|lia].
Qed.

Lemma irq_then_none step k d fin (Q : Z → D → Prop) :
  wp step d (λ r d', r = None ∧ step_post d fin None d') →
  (∀ d', finished d' = fin → upset (world d') = upset (world d) → wp k d' Q) →
  wp (irq_then step k) d Q.
Proof.
  intros Hs Hk. unfold irq_then. eapply wp_seq; [exact Hs|].
  intros r d' (-> & ? & _ & ?). by apply Hk.
Qed.

(** The handler's contract: it ends with the pin up, and returns 0 exactly
    when none of its transfers went wrong. *)
Definition irq_post (d : D) (fin : Z) (r : Z) (d' : D) : Prop :=
  ce (world d') = 1 ∧
  ((r = 0 ∧ upset (world d') = upset (world d) ∧ finished d' = fin) ∨
   (r = 1 ∧ upset (world d) < upset (world d') ∧ (finished d' = finished d ∨ finished d' = fin))).

Lemma irq_then_spec step k d fin d0 fin0 :
  wp step d (step_post d fin) →
  upset (world d) = upset (world d0) → (finished d = finished d0 ∨ finished d = fin0) →
  (∀ d', finished d' = fin → upset (world d') = upset (world d0) → wp k d' (irq_post d0 fin0)) →
  wp (irq_then step k) d (irq_post d0 fin0).
Proof.
  intros Hs Hu Hf Hk. unfold irq_then. eapply wp_seq; [exact Hs|].
  intros [r|] d' Hr.
  - destruct Hr as (-> & ? & Hf' & ?). apply wp_ret. split; [done|]. right.
    rewrite Hf', <-Hu. done.
  - destruct Hr as (? & _ & Hu'). apply Hk; congruence.
Qed.

Lemma irq_handler_spec d :
  inited d = 1 →
  wp (nrf24l01_irq_handler (Some h)) d
    (irq_post d (if Z.testbit (status (world d)) 5 then 1
                 else if Z.testbit (status (world d)) 4 then 2 else finished d)).
Proof.
  intros Hin. apply checked_spec; [done|].
  wp_with irq_ce; [rewrite !elem_of_cons; tauto|].
  intros res d1 (-> & _ & Hf1 & Hs1 & Hu1). rewrite decide_False by (intros E; done).
  unfold a_nrf24l01_spi_read, NRF24L01_COMMAND_R_REGISTER. rewrite Z.lor_0_l. apply wp_bind.
  wp_with irq_read; [done|]. intros [res data] d2 (_ & _ & Hn & _ & Hf2 & Hu2 & Hst).
  unfold read_upset in Hu2. change (width_ok 1) with true in Hu2.
  rewrite (bool_decide_false (NRF24L01_REG_STATUS = _)) in Hu2 by done.
  destruct (decide (res = 0)) as [Hres|Hres]; apply wp_ret.
  2: { rewrite decide_True by done. eapply wp_mono; [apply irq_error_spec|].
       intros r d' (-> & ? & ? & Hu). rewrite (bool_decide_true (res ≠ 0)) in Hu2 by done.
       split; [done|]. right. simpl in Hu2. split_and!; [done|lia|left; congruence]. }
  rewrite (bool_decide_false (res ≠ 0)) in Hu2 by (intros E; done). simpl in Hu2.
  rewrite decide_False by (intros E; done). rewrite (Hst eq_refl eq_refl Hres). apply wp_bind, wp_ret.
  unfold a_nrf24l01_spi_write. apply wp_bind. wp_with irq_write; [simpl; lia|].
  intros res3 d3 (_ & Hf3 & Hu3).
  destruct (decide (res3 = 0)) as [Hr3|Hr3]; apply wp_ret.
  2: { rewrite decide_True by done. eapply wp_mono; [apply irq_error_spec|].
       intros r d' (-> & ? & ? & Hu). rewrite bool_decide_true in Hu3 by done.
       split; [done|]. right. simpl in Hu3. split_and!; [done|lia|left; congruence]. }
  rewrite bool_decide_false in Hu3 by (intros E; done). simpl in Hu3.
  rewrite decide_False by (intros E; done). rewrite <-Hs1.
  set (prev := status (world d1)).
  eapply irq_then_spec; [apply irq_tx_full_spec|lia|left; congruence|]. intros d4 Hf4 Hu4.
  eapply irq_then_spec; [apply irq_max_rt_spec|lia|left; congruence|]. intros d5 Hf5 Hu5.
  eapply irq_then_none; [apply irq_tx_ds_spec|]. intros d6 Hf6 Hu6.
  eapply irq_then_spec; [apply irq_rx_dr_spec|lia| |].
  { right. destruct (Z.testbit prev 5); [congruence|]. destruct (Z.testbit prev 4); congruence. }
  intros d7 Hf7 Hu7.
  wp_with irq_ce; [rewrite !elem_of_cons; tauto|].
  intros res8 d8 (-> & Hce8 & Hf8 & _ & Hu8). rewrite decide_False by (intros E; done).
  apply wp_ret. split; [done|]. left. split_and!; [done|lia|].
  rewrite Hf8, Hf7, Hf6, Hf5, Hf4, Hf3, Hf2, Hf1. done.
Qed.
End Irq.

(** ** The program's own platform *)

(** An exchange that goes wrong: it fails, or the chip answers the command
    that asks for the width of the payload with 0 or with a width over 33. *)
Definition exchange_upset (tx : list Z) (msg : Z) (rx : list Z) : bool :=
  bool_decide (msg ≠ HAL_RET_SUCCESS) ||
  (bool_decide (tx = [NRF24L01_COMMAND_R_RX_PL_WID; 0]) && negb (width_ok (default 0 (rx !! 1%nat)))).

Lemma read_upset_exchange reg len msg rx :
  0 < len <= 33 → (length rx ≤ S (Z.to_nat len))%nat →
  exchange_upset (reg :: replicate (Z.to_nat len) 0) msg rx =
  read_upset reg len (if decide (msg = HAL_RET_SUCCESS) then 0 else 1)
    (take (Z.to_nat len) (drop 1 (rx ++ drop (length rx) (replicate 34 0)))).
Proof.
  intros Hlen Hl. unfold exchange_upset, read_upset.
  unfold width_ok at 2. rewrite (bool_decide_true (0 < len <= 33)) by lia.
  destruct (decide (msg = HAL_RET_SUCCESS)) as [Hm|Hm].
  2: { rewrite !(bool_decide_true (_ ≠ _)) by done. done. }
  rewrite !(bool_decide_false (_ ≠ _)) by (intros E; done). simpl.
  rewrite andb_true_r.
  destruct (decide (len = 1)) as [->|Hne].
  - simpl. destruct rx as [|b [|w [|? ?]]]; simpl in *; [..|lia];
      repeat case_bool_decide; simplify_eq/=; done.
  - rewrite (bool_decide_false (len = 1)) by done. rewrite andb_false_r. simpl.
    rewrite bool_decide_false; [done|]. intros [= _ E]. apply (f_equal length) in E.
    rewrite length_replicate in E. simpl in E. lia.
Qed.

(** A HAL the handler can run on: no call faults or writes the driver's flag,
    an exchange stores no more bytes than it clocks, and the exchange of the
    status register's command gives [status]; [upset] counts the transfers that
    went wrong. *)
Section Platform.
Context {W : Type}.
#[local] Abbreviation D := (nrf24l01_dyn W).
Context (spiStart : M D Z) (spiExchange : list Z → M D (Z * list Z)) (spiSend : list Z → M D Z)
  (spiAcquireBus spiSelect spiUnselect spiReleaseBus palSetLine palClearLine : M D unit)
  (chThdSleepMilliseconds : Z → M D unit)
  (debug_hook : string → list (option Z) → M D unit)
  (callback : Z → Z → list Z → Z → M D unit)
  (ce status upset : W → Z).
#[local] Abbreviation same d d' :=
  (ce (world d') = ce (world d) ∧ finished d' = finished d ∧ status (world d') = status (world d) ∧
   upset (world d') = upset (world d)).

Class IrqHal : Prop := {
  hal_bus m d : m ∈ [spiAcquireBus; spiSelect; spiUnselect; spiReleaseBus] →
    wp m d (λ _ d', same d d');
  hal_exchange tx d : wp (spiExchange tx) d (λ '(msg, rx) d',
    ce (world d') = ce (world d) ∧ finished d' = finished d ∧ status (world d') = status (world d) ∧
    upset (world d') = upset (world d) + Z.b2z (exchange_upset tx msg rx) ∧
    (length rx ≤ length tx)%nat ∧ Forall is_u8 rx ∧
    (tx = [NRF24L01_REG_STATUS; 0] → msg = HAL_RET_SUCCESS →
       ∃ st, rx = [st; status (world d)]));
  hal_send tx d : wp (spiSend tx) d (λ msg d',
    ce (world d') = ce (world d) ∧ finished d' = finished d ∧
    upset (world d') = upset (world d) + Z.b2z (bool_decide (msg ≠ HAL_RET_SUCCESS)));
  hal_set_line d : wp palSetLine d (λ _ d',
    ce (world d') = 1 ∧ finished d' = finished d ∧ status (world d') = status (world d) ∧
    upset (world d') = upset (world d));
  hal_clear_line d : wp palClearLine d (λ _ d',
    ce (world d') = 0 ∧ finished d' = finished d ∧ status (world d') = status (world d) ∧
    upset (world d') = upset (world d));
  hal_debug d msg args : wp (debug_hook msg args) d (λ _ d', ce (world d') = ce (world d) ∧
    finished d' = finished d ∧ upset (world d') = upset (world d));
  hal_callback d type num buf len : wp (callback type num buf len) d (λ _ d', ce (world d') = ce (world d) ∧
    finished d' = finished d ∧ upset (world d') = upset (world d))
}.
Context `{Hhal : !IrqHal}.

#[local] Abbreviation read := (nrf24l01_interface_spi_read spiExchange
  spiAcquireBus spiSelect spiUnselect spiReleaseBus).
#[local] Abbreviation write := (nrf24l01_interface_spi_write spiSend
  spiAcquireBus spiSelect spiUnselect spiReleaseBus).

Ltac hal_step :=
  eapply wp_seq; [apply hal_bus; rewrite !elem_of_cons; tauto|]; intros [] ? (? & ? & ? & ?).

(** The guard of the interface: a read of more than 33 bytes is refused, any
    other stores exactly the bytes asked for. *)
Lemma interface_read_bounded d reg len :
  0 <= len < 65536 →
  wp (read reg (Some tt) len) d (λ '(st, data) d',
    ce (world d') = ce (world d) ∧ finished d' = finished d ∧
    (length data ≤ irq_buffer_size)%nat ∧ Forall is_u8 data ∧
    (st = 0 → Z.of_nat (length data) = len ∧ 0 < len) ∧
    upset (world d') = upset (world d) + Z.b2z (read_upset reg len st data) ∧
    (reg = NRF24L01_REG_STATUS → len = 1 → st = 0 → data = [status (world d)])).
Proof.
  intros Hlen. unfold nrf24l01_interface_spi_read. rewrite u32_id by (unfold is_u32; lia).
  unfold SPI_BUFFER_SIZE, irq_buffer_size. destruct (decide _) as [|Hg].
  { apply wp_ret. unfold read_upset. unfold width_ok at 1. rewrite (bool_decide_false (0 < len <= 33)) by lia.
    rewrite (bool_decide_false (1 = 0)), andb_false_r by done. simpl.
    split_and!; simpl; try done; lia. }
  destruct (fill_tx_take reg []) as (tx & Etx & _ & Htx); [simpl; unfold SPI_BUFFER_SIZE; lia|].
  rewrite Etx. apply wp_bind, wp_ret. hal_step. hal_step.
  replace (Z.to_nat (len + 1)) with (S (Z.to_nat len)) by lia.
  rewrite Htx by (done || unfold SPI_BUFFER_SIZE; lia).
  wp_with hal_exchange. intros [msg rx] d3 (? & ? & ? & Hup & Hl & Hu & Hst). simpl in Hl.
  rewrite length_replicate in Hl. hal_step. hal_step. unfold store_prefix.
  rewrite decide_True by (rewrite length_replicate; lia). apply wp_bind, wp_ret.
  set (buf := rx ++ drop (length rx) (replicate 34 0)).
  assert (length buf = 34%nat) as Hrx.
  { unfold buf. rewrite length_app, length_drop, length_replicate. lia. }
  assert (Forall is_u8 buf) as Hbytes.
  { apply Forall_app. split; [done|]. apply Forall_drop, Forall_replicate. done. }
  assert (Hdata : length (take (Z.to_nat len) (drop 1 buf)) = Z.to_nat len)
    by (rewrite length_take, length_drop, Hrx; lia).
  assert (Hbad : exchange_upset (reg :: replicate (Z.to_nat len) 0) msg rx =
    read_upset reg len (if decide (msg = HAL_RET_SUCCESS) then 0 else 1)
      (take (Z.to_nat len) (drop 1 buf))) by (apply read_upset_exchange; [lia|done]).
  rewrite Hbad in Hup. clear Hbad.
  destruct (decide (msg = HAL_RET_SUCCESS)) as [Hm|Hm]; apply wp_ret; rewrite ?Hdata;
    (split_and!; [congruence..|lia|by apply Forall_take, Forall_drop|lia|congruence|intros Hreg Hlen1 Hst0]); [|done].
  subst reg len. destruct (Hst eq_refl Hm) as [b E]. unfold buf. rewrite E. simpl. f_equal. congruence.
Qed.

Lemma interface_write_same d reg data :
  (length data ≤ 1)%nat →
  wp (write reg data) d (λ st d', ce (world d') = ce (world d) ∧ finished d' = finished d ∧
    upset (world d') = upset (world d) + Z.b2z (bool_decide (st ≠ 0))).
Proof.
  intros Hl1. unfold nrf24l01_interface_spi_write. rewrite decide_False by (unfold SPI_BUFFER_SIZE; lia).
  destruct (fill_tx_take reg data) as (tx & -> & _ & _); [unfold SPI_BUFFER_SIZE in *; lia|].
  apply wp_bind, wp_ret. hal_step. hal_step. wp_with hal_send. intros msg d3 (? & ? & Hup).
  hal_step. hal_step. destruct (decide (msg = HAL_RET_SUCCESS)) as [Hm|Hm]; apply wp_ret;
    split_and!; try congruence.
  - rewrite bool_decide_false in Hup by (intros E; done). rewrite bool_decide_false by (intros E; done). congruence.
  - rewrite bool_decide_true in Hup by done. rewrite bool_decide_true by done. congruence.
Qed.

(** The handle the program builds is one the handler can run on. *)
#[export] Instance interface_irq_platform :
  IrqPlatform (interface_handle spiStart spiExchange spiSend spiAcquireBus spiSelect spiUnselect
    spiReleaseBus palSetLine palClearLine chThdSleepMilliseconds debug_hook (Some callback)) ce status upset.
Proof.
  split.
  - intros d v Hv. change (call_gpio_write _ v) with
      (nrf24l01_interface_gpio_write palSetLine palClearLine v).
    rewrite !elem_of_cons, elem_of_nil in Hv. unfold nrf24l01_interface_gpio_write.
    destruct Hv as [->|[->|[]]]; simpl.
    + wp_with hal_clear_line. intros [] d' ?. by apply wp_ret.
    + wp_with hal_set_line. intros [] d' ?. by apply wp_ret.
  - intros d cmd n Hn. unfold is_u8 in Hn.
    eapply wp_mono; [apply (interface_read_bounded d cmd n); lia|].
    intros [st data] d' (? & ? & ? & ? & ? & ? & Hst). by split_and!.
  - intros d cmd data. apply interface_write_same.
  - intros d msg args. apply hal_debug.
  - intros d type num buf len. apply hal_callback.
Qed.
End Platform.

(** ** Sending *)

(** The interrupt may fire within any call: [stores] lists the values it stored
    in the driver's flag so far, and the flag is the last of those. *)
Definition flag_step {W} (stores : W → list Z) (d d' : nrf24l01_dyn W) : Prop :=
  ∃ vs, stores (world d') = stores (world d) ++ vs ∧ finished d' = default (finished d) (last vs).

Lemma flag_step_trans {W} (stores : W → list Z) d1 d2 d3 :
  flag_step stores d1 d2 → flag_step stores d2 d3 → flag_step stores d1 d3.
Proof.
  intros (vs & Hs & Hf) (vs' & Hs' & Hf'). exists (vs ++ vs').
  rewrite Hs', Hs, Hf', Hf, last_app, app_assoc. split; [done|]. by destruct (last vs').
Qed.

(** What [nrf24l01_send] needs: the pin and the payload write work and record
    the payload in [sent]; reads and messages do not fault and send nothing; the flag
    changes by the interrupt alone. *)
Class TxPlatform {W} (h : nrf24l01_handle W) (sent : W → list (Z * list Z))
    (stores : W → list Z) : Prop := {
  tx_ce d v : v ∈ [0; 1] → wp (call_gpio_write h v) d (λ st d',
    st = 0 ∧ sent (world d') = sent (world d) ∧ flag_step stores d d');
  tx_payload d cmd data : (length data ≤ 32)%nat →
    cmd ∈ [NRF24L01_COMMAND_W_TX_PAYLOAD; NRF24L01_COMMAND_W_TX_PAYLOAD_NO_ACK] →
    wp (call_spi_write h cmd data) d (λ st d',
      st = 0 ∧ sent (world d') = sent (world d) ++ [(cmd, data)] ∧ flag_step stores d d');
  tx_read d reg : wp (call_spi_read h reg 1) d (λ _ d',
    sent (world d') = sent (world d) ∧ flag_step stores d d');
  tx_debug d msg args : wp (debug h msg args) d (λ _ d', sent (world d') = sent (world d))
}.

Section Send.
Context {W : Type} (h : nrf24l01_handle W) (sent : W → list (Z * list Z)) (stores : W → list Z)
  `{Htx : !TxPlatform h sent stores}.
Context (tick : nrf24l01_dyn W → nrf24l01_dyn W).
Context (Hdelay : ∀ d, call_delay_ms h 1 d = Ok tt (tick d)).

(** The result of a send whose payload went out in state [d0]. *)
Definition send_result (use_ack : nrf24l01_bool_t) (d0 : nrf24l01_dyn W) (r : Z) : Prop :=
  match use_ack with
  | NRF24L01_BOOL_FALSE => r = 0
  | NRF24L01_BOOL_TRUE =>
      (∃ k v, (k < send_timeout)%nat ∧ flagged tick d0 k v ∧ r = if decide (v = 1) then 0 else 1) ∨
      ((∀ j, (j < send_timeout)%nat → finished (after tick j d0) = 0) ∧ r = 5)
  end.

Lemma tx_spi_read d reg :
  wp (a_nrf24l01_spi_read h reg 1) d (λ _ d',
    sent (world d') = sent (world d) ∧ flag_step stores d d').
Proof.
  unfold a_nrf24l01_spi_read. wp_with tx_read. intros [st data] d' ?.
  destruct (decide _); by apply wp_ret.
Qed.

Lemma send_complete_spec use_ack d0 :
  wp (send_complete h use_ack) d0 (λ r _, send_result use_ack d0 r).
Proof.
  destruct use_ack; [by apply wp_ret|]. unfold send_complete. apply wp_bind.
  destruct (send_wait_spec h tick Hdelay send_timeout d0) as [(k & v & Hk & Hf & Hw)|[Hf Hw]];
    (eapply wp_ok; [exact Hw|]).
  - rewrite decide_False by lia. apply wp_bind, wp_gets. pose proof Hf as (_ & -> & _).
    destruct (decide (v = 1)) as [->|Hv].
    + apply wp_ret. left. by exists k, 1.
    + unfold error. wp_with tx_debug. intros [] d2 _. apply wp_ret. left. exists k, v.
      by rewrite decide_False.
  - rewrite decide_True by done.
    wp_with tx_spi_read. intros [st data] d2 _. wp_with tx_debug. intros [] d3 _.
    wp_with tx_spi_read. intros [st2 data2] d4 _. wp_with tx_debug. intros [] d5 _.
    unfold error. wp_with tx_debug. intros [] d6 _. apply wp_ret. by right.
Qed.

Definition tx_command (use_ack : nrf24l01_bool_t) : Z :=
  match use_ack with
  | NRF24L01_BOOL_TRUE => NRF24L01_COMMAND_W_TX_PAYLOAD
  | NRF24L01_BOOL_FALSE => NRF24L01_COMMAND_W_TX_PAYLOAD_NO_ACK
  end.

(** Waiting starts with the flag cleared by the call, or as the interrupt left
    it since. *)
Lemma send_spec buf len use_ack d :
  inited d = 1 → 0 <= len <= 32 → len <= Z.of_nat (length buf) →
  wp (nrf24l01_send (Some h) buf len use_ack) d (λ r _,
    ∃ d0 vs, sent (world d0) =
            sent (world d) ++ [(tx_command use_ack, reverse (take (Z.to_nat len) buf))] ∧
          stores (world d0) = stores (world d) ++ vs ∧ finished d0 = default 0 (last vs) ∧
          send_result use_ack d0 r).
Proof.
  intros Hin Hlen Hbuf. apply checked_spec; [done|]. rewrite decide_False by lia.
  unfold memcpy_local. rewrite decide_True by lia. apply wp_bind, wp_ret.
  rewrite reverse_bytes_spec by (rewrite length_take; lia). apply wp_bind, wp_ret.
  rewrite take_ge, drop_ge, app_nil_r by (rewrite length_take; lia).
  apply wp_bind, wp_modify. wp_with tx_ce; [rewrite !elem_of_cons; tauto|].
  intros res d1 (-> & Hs1 & Hv1). rewrite decide_False by (intros E; done).
  wp_with tx_payload.
  { rewrite length_reverse, length_take. lia. }
  { rewrite !elem_of_cons. destruct use_ack; tauto. }
  intros res d2 (-> & Hs2 & Hv2). rewrite decide_False by (intros E; done).
  wp_with tx_ce; [rewrite !elem_of_cons; tauto|].
  intros res d3 (-> & Hs3 & Hv3). rewrite decide_False by (intros E; done).
  wp_with tx_spi_read. intros [st data] d4 [Hs4 Hv4].
  eapply wp_mono; [apply send_complete_spec|]. intros r d5 Hr.
  pose proof (flag_step_trans _ _ _ _ (flag_step_trans _ _ _ _ (flag_step_trans _ _ _ _ Hv1 Hv2) Hv3) Hv4)
    as (vs & Hvs & Hfin).
  exists d4, vs. split_and!; [|exact Hvs|exact Hfin|exact Hr].
  rewrite Hs4, Hs3, Hs2, Hs1. by destruct use_ack.
Qed.
End Send.
