(* ===== verification/NrfProps.v ===== *)
(** * Theorems on the radio driver

    The properties of [Nrf24l01.v], [NrfInterface.v] and [NrfBasic.v], each
    with a concrete instance on the chip [Sim] where it has hypotheses. *)
From S2P Require Import Prelude Nrf24l01 Nrf24l01Bus NrfInterface NrfBasic NrfSetup NrfLink.

(** ** A bench for the link

    A platform for the concrete instances below: a status byte, the pin, the
    payloads sent, and the milliseconds after which the interrupt stores a value in
    the driver's flag.  Received payloads are three bytes wide. *)
Module Bench.
Record bench : Type := mk_bench {
  b_status : Z; b_ce : Z; b_sent : list (Z * list Z); b_alarm : nat; b_flag : Z }.
Definition on_world (f : bench → bench) : M (nrf24l01_dyn bench) unit :=
  mmodify (λ d, mk_dyn (inited d) (finished d) (f (world d))).
Definition b_exchange (tx : list Z) : M (nrf24l01_dyn bench) (Z * list Z) :=
  w ← mgets world;
  mret (0, if decide (tx = [NRF24L01_COMMAND_R_RX_PL_WID; 0]) then [u8 (b_status w); 3]
           else replicate (length tx) (u8 (b_status w))).
Definition b_send (tx : list Z) : M (nrf24l01_dyn bench) Z :=
  on_world (λ w, match tx with
    | [] => w
    | c :: data => mk_bench (b_status w) (b_ce w) (b_sent w ++ [(c, data)]) (b_alarm w) (b_flag w)
    end);; mret 0.
Definition b_line (v : Z) : M (nrf24l01_dyn bench) unit :=
  on_world (λ w, mk_bench (b_status w) v (b_sent w) (b_alarm w) (b_flag w)).
Definition b_nop : M (nrf24l01_dyn bench) unit := mret tt.
Definition b_tick (d : nrf24l01_dyn bench) : nrf24l01_dyn bench :=
  let w := world d in
  let w' := mk_bench (b_status w) (b_ce w) (b_sent w) (pred (b_alarm w)) (b_flag w) in
  mk_dyn (inited d) (if decide (b_alarm w = 1%nat) then b_flag w else finished d) w'.
Definition b_handle : nrf24l01_handle bench :=
  interface_handle (mret 0) b_exchange b_send b_nop b_nop b_nop b_nop
    (b_line 1) (b_line 0) (λ _, mmodify b_tick) (λ _ _, b_nop) (Some (λ _ _ _ _, b_nop)).
(** A payload is acknowledged three milliseconds after it went out; the flag
    still has the value of the transfer before. *)
Definition b_start : nrf24l01_dyn bench := mk_dyn 1 2 (mk_bench 0x2E 0 [] 3 1).
(** What the interrupt stored so far. *)
Definition b_stores (w : bench) : list Z := if decide (b_alarm w = 0%nat) then [b_flag w] else [].

#[global] Instance b_irq_hal :
  IrqHal b_exchange b_send b_nop b_nop b_nop b_nop (b_line 1) (b_line 0) (λ _ _, b_nop)
    (λ _ _ _ _, b_nop) b_ce (λ w, u8 (b_status w)) (λ _, 0).
Proof.
  split.
  - intros m d Hm. rewrite !elem_of_cons, elem_of_nil in Hm.
    by destruct Hm as [->|[->|[->|[->|[]]]]].
  - intros tx d. unfold b_exchange. apply wp_bind, wp_gets, wp_ret. unfold exchange_upset.
    destruct (decide (tx = [NRF24L01_COMMAND_R_RX_PL_WID; 0])) as [->|Hw].
    + split_and!; [done..| |]; [|done]. repeat constructor; apply u8_range || done.
    + rewrite (bool_decide_false (tx = _)) by done. split_and!; [done..| | |].
      * by rewrite length_replicate.
      * apply Forall_replicate, u8_range.
      * intros -> _. by eexists.
  - by intros [|c data] d.
  - done.
  - done.
  - done.
  - done.
Qed.

Lemma b_quiet d d' :
  b_alarm (world d') = b_alarm (world d) → b_flag (world d') = b_flag (world d) →
  finished d' = finished d → flag_step b_stores d d'.
Proof.
  intros Ha Hb Hf. exists []. unfold b_stores. rewrite Ha, Hb, app_nil_r. done.
Qed.

#[global] Instance b_tx_platform : TxPlatform b_handle b_sent b_stores.
Proof.
  split.
  - intros d v Hv. rewrite !elem_of_cons, elem_of_nil in Hv.
    destruct Hv as [->|[->|[]]]; (split_and!; [done..|by apply b_quiet]).
  - intros d cmd data Hl _.
    change (call_spi_write b_handle cmd data) with
      (nrf24l01_interface_spi_write b_send b_nop b_nop b_nop b_nop cmd data).
    unfold nrf24l01_interface_spi_write. rewrite decide_False by (unfold SPI_BUFFER_SIZE; lia).
    destruct (fill_tx_take cmd data) as (tx & -> & Htx & _); [unfold SPI_BUFFER_SIZE; lia|].
    replace (Z.to_nat (Z.of_nat (length data) + 1)) with (S (length data)) by lia.
    apply wp_bind, wp_ret. apply wp_bind, wp_ret. apply wp_bind, wp_ret. rewrite Htx.
    split_and!; [done..|by apply b_quiet].
  - intros d reg.
    change (call_spi_read b_handle reg 1) with
      (nrf24l01_interface_spi_read b_exchange b_nop b_nop b_nop b_nop reg (Some tt) 1).
    unfold nrf24l01_interface_spi_read. rewrite decide_False by (vm_compute; intuition congruence).
    destruct (fill_tx_take reg []) as (tx & -> & _); [simpl; unfold SPI_BUFFER_SIZE; lia|].
    apply wp_bind, wp_ret. apply wp_bind, wp_ret. apply wp_bind, wp_ret.
    unfold b_exchange. apply wp_bind, wp_bind, wp_gets, wp_ret. apply wp_bind, wp_ret.
    apply wp_bind, wp_ret. apply wp_bind. unfold store_prefix. rewrite decide_True.
    2: { unfold SPI_BUFFER_SIZE. destruct (decide _); rewrite !length_replicate; [simpl; lia|].
         rewrite length_take. change (Z.to_nat (1 + 1)) with 2%nat. lia. }
    apply wp_ret. destruct (decide _) in |- *; apply wp_ret; (split; [done|by apply b_quiet]).
  - done.
Qed.
End Bench.

(** ** Settings *)

(** Read setting [g], change setting [f], read [g] again. *)
Definition observe_around {W} (h : nrf24l01_handle W) (f g : field) (v : Z) :
    M (nrf24l01_dyn W) (Z * option Z * Z * Z * option Z) :=
  '(r0, old) ← field_get g (Some h);
  r1 ← field_set f (Some h) v;
  '(r2, new) ← field_get g (Some h);
  mret (r0, old, r1, r2, new).

(** Set a five byte address register of the driver, then read it into a buffer. *)
Definition address_ops {W} : list
    ((option (nrf24l01_handle W) → list Z → Z → M (nrf24l01_dyn W) Z) *
     (option (nrf24l01_handle W) → list Z → Z → M (nrf24l01_dyn W) (Z * (list Z * Z)))) :=
  [(nrf24l01_set_rx_pipe_0_address, nrf24l01_get_rx_pipe_0_address);
   (nrf24l01_set_rx_pipe_1_address, nrf24l01_get_rx_pipe_1_address);
   (nrf24l01_set_tx_address, nrf24l01_get_tx_address)].

(** C36.  The driver's setters and getters agree on every setting of the chip,
    and the settings are independent: on a working register file, after the
    setter of any field [f] with any of its values [v], the getter of [f]
    gives [v] and the getter of every other field gives what it gave before;
    all the calls succeed. *)
Theorem field_round_trip {W} (h : nrf24l01_handle W) inv regs ce
    `{!RegBus h inv regs ce} f g v d :
  inited d = 1 → inv (world d) → 0 <= v < Z.of_nat (field_size f) →
  wp (observe_around h f g v) d (λ '(r0, old, r1, r2, new) _,
    r0 = 0 ∧ r1 = 0 ∧ r2 = 0 ∧ new = if decide (g = f) then Some v else old).
Proof.
  intros Hin Hi Hv. unfold observe_around.
  eapply wp_seq; [by apply (field_get_spec h inv regs ce)|].
  intros [r0 old] d0 (-> & Ht0 & b0 & Hb0 & ->).
  assert (Hin0 : inited d0 = 1) by (by destruct Ht0 as (_ & -> & _)).
  eapply wp_seq; [apply (field_set_spec h inv regs ce); [done|apply Ht0|done]|].
  intros r1 d1 (-> & Ht1 & b & b' & Hb & Hb' & Hw).
  assert (Hin1 : inited d1 = 1) by (destruct Ht1 as (_ & -> & _); done).
  eapply wp_seq; [apply (field_get_spec h inv regs ce g); [done|apply Ht1]|].
  intros [r2 new] d2 (-> & _ & b1 & Hb1 & ->). apply wp_ret. split_and!; [done..|].
  rewrite (touched_regs inv regs ce [] d d0) in Hb; [|done|apply field_reg_config|apply not_elem_of_nil].
  destruct (decide (field_reg g = field_reg f)) as [E|E].
  - rewrite E in Hb0, Hb1. rewrite Hb' in Hb1. rewrite Hb in Hb0.
    injection Hb1 as <-. injection Hb0 as <-. rewrite (field_read_written f g v b b') by done.
    by destruct (decide (g = f)).
  - rewrite decide_False by (by intros ->).
    rewrite (touched_regs inv regs ce [field_reg f] d0 d1) in Hb1;
      [|done|apply field_reg_config|by rewrite elem_of_cons, elem_of_nil; intros [?|[]]].
    rewrite (touched_regs inv regs ce [] d d0) in Hb1;
      [|done|apply field_reg_config|apply not_elem_of_nil].
    rewrite Hb0 in Hb1. by injection Hb1 as <-.
Qed.

(** The 250 kbit/s rate, whose two bits are apart, and the output power of the
    same register. *)
Lemma field_round_trip_witness :
  0 <= 2 < Z.of_nat (field_size FDataRate) ∧
  wp (observe_around Sim.sim_handle FDataRate FOutputPower 2) Sim.sim_init
    (λ '(r0, old, r1, r2, new) _, r0 = 0 ∧ r1 = 0 ∧ r2 = 0 ∧
      new = if decide (FOutputPower = FDataRate) then Some 2 else old).
Proof.
  split; [vm_compute; split; congruence|].
  apply (field_round_trip Sim.sim_handle Sim.sim_wf Sim.sim_reg Sim.s_ce);
    [reflexivity|apply Sim.sim_init_wf|vm_compute; split; congruence].
Defined.

Lemma sim_width_wf b ce log :
  0 <= b < 4 → Sim.sim_wf (Sim.mk_sim {[ NRF24L01_REG_SETUP_AW := [b] ]} ce log).
Proof.
  intros Hb r Hr. unfold Sim.sim_reg. simpl. destruct (decide (r = NRF24L01_REG_SETUP_AW)) as [->|].
  - rewrite lookup_singleton_eq. simpl. split; [done|]. constructor; [|done].
    split; [unfold is_u8; lia|]. change (reg_mask NRF24L01_REG_SETUP_AW) with (Z.ones 2).
    rewrite Z.land_ones by done. by apply Z.mod_small.
  - rewrite lookup_singleton_ne by done. simpl. split; [by rewrite length_replicate|].
    apply Forall_replicate. by split; [|rewrite Z.land_0_l].
Qed.

(** Addresses of pipe 0, pipe 1 and the transmitter come back as they were
    set: with the chip at an address width [w], setting an address of [w]
    bytes and reading it into a buffer of at least [w] bytes gives the address
    and the width, and the rest of the buffer is untouched; in between the
    chip holds the bytes in the reverse order, last byte first. *)
Theorem address_round_trip {W} (h : nrf24l01_handle W) inv regs ce
    `{!RegBus h inv regs ce} set get d (w : Z) addr (buf : list Z) len :
  (set, get) ∈ address_ops → inited d = 1 → inv (world d) → chip_width regs (world d) w →
  length addr = Z.to_nat w → Forall is_u8 addr → w <= len → w <= Z.of_nat (length buf) →
  wp (r1 ← set (Some h) addr w; '(r2, out) ← get (Some h) buf len; mret (r1, r2, out)) d
    (λ '(r1, r2, out) d', r1 = 0 ∧ r2 = 0 ∧ out = (addr ++ drop (Z.to_nat w) buf, w) ∧
       ∃ reg, reg ∈ address_regs ∧
         regs (world d') reg = reverse addr ++ drop (Z.to_nat w) (regs (world d) reg) ∧
         touched inv regs ce [reg] d d').
Proof.
  intros Hop Hin Hi Hw Hl Hu Hlen Hbuf. pose proof Hw as (b & Hb & Hb3).
  pose proof (address_bytes_range _ _ Hb3).
  assert (∃ reg ms mg, reg ∈ address_regs ∧ set = set_address reg ms ∧ get = get_address reg mg)
    as (reg & ms & mg & Hreg & -> & ->).
  { unfold address_ops, address_regs in *. rewrite !elem_of_cons, elem_of_nil in Hop.
    destruct Hop as [[= -> ->]|[[= -> ->]|[[= -> ->]|[]]]]; eexists _, _, _;
      (split; [|split; reflexivity]); rewrite !elem_of_cons; tauto. }
  eapply wp_seq; [apply (set_address_spec h inv regs ce reg ms d addr w w); try done; lia|].
  intros r1 d1 (-> & Hr1 & Ht1). destruct (address_reg_facts reg Hreg) as (Hc & Hrl & _).
  assert (Hw1 : chip_width regs (world d1) w).
  { eapply (chip_width_touched inv regs ce [reg]); [done| |done].
    intros E%elem_of_cons. destruct E as [E|E%elem_of_nil]; [|done]. by subst reg. }
  eapply wp_seq; [apply (get_address_spec h inv regs ce reg mg d1 buf len w); try done|].
  { by destruct Ht1 as (_ & -> & _). }
  { apply Ht1. }
  intros [r2 [out olen]] d2 (-> & -> & -> & Ht2). apply wp_ret.
  assert (Ht : touched inv regs ce [reg] d d2) by (by apply (touched_trans inv regs ce [reg] [] _ d1)).
  assert (Hr2 : regs (world d2) reg = regs (world d1) reg).
  { by apply (touched_regs inv regs ce [] d1 d2); [|done|apply not_elem_of_nil]. }
  rewrite (take_ge addr) in Hr1 by lia. split_and!; [done..| |].
  - rewrite Hr1, take_app_length', reverse_involutive by (rewrite length_reverse; lia). done.
  - exists reg. by rewrite Hr2.
Qed.

Lemma address_round_trip_witness :
  wp (r1 ← nrf24l01_set_tx_address (Some Sim.sim_handle) [1; 2; 3] 3;
      '(r2, out) ← nrf24l01_get_tx_address (Some Sim.sim_handle) [9; 9; 9; 9; 9] 5;
      mret (r1, r2, out))
    (mk_dyn 1 0 (Sim.mk_sim {[ NRF24L01_REG_SETUP_AW := [1] ]} 0 []))
    (λ '(r1, r2, out) _, r1 = 0 ∧ r2 = 0 ∧ out = ([1; 2; 3; 9; 9], 3)).
Proof.
  eapply wp_mono.
  - apply (address_round_trip Sim.sim_handle Sim.sim_wf Sim.sim_reg Sim.s_ce
      nrf24l01_set_tx_address nrf24l01_get_tx_address _ 3 [1; 2; 3] [9; 9; 9; 9; 9] 5).
    + unfold address_ops. rewrite !elem_of_cons. tauto.
    + reflexivity.
    + apply sim_width_wf. lia.
    + exists 1. split; reflexivity.
    + reflexivity.
    + repeat constructor; lia.
    + lia.
    + vm_compute. congruence.
  - intros [[r1 r2] out] d' (H1 & H2 & H3 & _). split_and!; [exact H1|exact H2|exact H3].
Defined.

(** ** Start-up *)

Lemma interface_starts {W} spiStart spiExchange spiSend acq sel unsel rel setl clrl sleep dbg cb
    (inv : W → Prop) regs ce :
  (∀ d, inv (world d) → wp spiStart d (λ msg d', msg = HAL_RET_SUCCESS ∧ touched inv regs ce [] d d')) →
  starts (interface_handle spiStart spiExchange spiSend acq sel unsel rel setl clrl sleep dbg (Some cb))
    inv regs.
Proof.
  intros Hs d Hi. unfold nrf24l01_init, interface_handle. cbn [is_null debug_print spi_init spi_deinit
    spi_read spi_write gpio_init gpio_deinit gpio_write delay_ms receive_callback].
  apply wp_bind, wp_ret, wp_bind, wp_ret. rewrite decide_True by done.
  apply wp_bind, wp_ret. unfold nrf24l01_interface_spi_init. apply wp_bind.
  wp_with Hs; [done|]. intros msg d' (-> & Hin & _ & _ & Hr). rewrite decide_False by (intros E; done).
  apply wp_ret. rewrite decide_True by done. apply wp_bind, wp_modify, wp_ret.
  split_and!; [done..|]. intros q Hq. cbn. apply Hr; [done|apply not_elem_of_nil].
Qed.

(** Start-up configures the radio completely: over any HAL whose SPI leads
    to a chip ([SpiChip]) and whose SPI starts, [nrf24l01_basic_init] returns 0
    and leaves the handle initialised, the chip enabled, every field of every
    configuration register at its default (the mode by the type asked for) and
    the default addresses in pipes 0 and 1, whatever they held before. *)
Theorem basic_init_configures {W} spiStart spiExchange spiSend acq sel unsel rel setl clrl sleep dbg cb
    (inv : W → Prop) regs ce `{!SpiChip spiExchange spiSend acq sel unsel rel setl clrl inv regs ce}
    type d :
  (∀ d, inv (world d) → wp spiStart d (λ msg d', msg = HAL_RET_SUCCESS ∧ touched inv regs ce [] d d')) →
  inv (world d) →
  wp (nrf24l01_basic_init (interface_handle spiStart spiExchange spiSend acq sel unsel rel setl clrl
        sleep dbg) type (Some cb)) d
    (λ res d', res = 0 ∧ basic_ready inv regs ce type d').
Proof.
  intros Hs Hi. eapply (basic_init_ready _ inv regs ce); [reflexivity|by apply (interface_starts _ _ _ _ _ _ _ _ _ _ _ _ inv regs ce)|done].
Qed.

Lemma basic_init_configures_witness :
  wp (nrf24l01_basic_init (interface_handle (mret 0) Sim.sim_exchange Sim.sim_send Sim.sim_nop
        Sim.sim_nop Sim.sim_nop Sim.sim_nop (Sim.sim_line 1) (Sim.sim_line 0) (λ _, Sim.sim_nop)
        (λ _ _, Sim.sim_nop)) NRF24L01_TYPE_RX (Some (λ _ _ _ _, Sim.sim_nop))) Sim.sim_init
    (λ res d', res = 0 ∧ basic_ready Sim.sim_wf Sim.sim_reg Sim.s_ce NRF24L01_TYPE_RX d').
Proof.
  apply (basic_init_configures (mret 0) Sim.sim_exchange Sim.sim_send Sim.sim_nop Sim.sim_nop
    Sim.sim_nop Sim.sim_nop (Sim.sim_line 1) (Sim.sim_line 0) (λ _, Sim.sim_nop)
    (λ _ _, Sim.sim_nop) (λ _ _ _ _, Sim.sim_nop) Sim.sim_wf Sim.sim_reg Sim.s_ce).
  - intros d Hi. split; [reflexivity|]. split_and!; [exact Hi|reflexivity..|].
    intros q _ _. reflexivity.
  - apply Sim.sim_init_wf.
Defined.

(** The hooks of a handle neither fault nor touch its [inited] flag. *)
Definition tame {W A} (m : M (nrf24l01_dyn W) A) : Prop :=
  ∀ d, wp m d (λ _ d', inited d' = inited d).
Record tame_handle {W} (h : nrf24l01_handle W) : Prop := {
  tame_gpio_init m : gpio_init h = Some m → tame m;
  tame_gpio_deinit m : gpio_deinit h = Some m → tame m;
  tame_spi_init m : spi_init h = Some m → tame m;
  tame_debug f msg args : debug_print h = Some f → tame (f msg args)
}.
Definition hooks_linked {W} (h : nrf24l01_handle W) : bool :=
  negb (is_null (debug_print h) || is_null (spi_init h) || is_null (spi_deinit h)
    || is_null (spi_read h) || is_null (spi_write h) || is_null (gpio_init h)
    || is_null (gpio_deinit h) || is_null (gpio_write h) || is_null (delay_ms h)
    || is_null (receive_callback h)).

Lemma tame_error {W} (h : nrf24l01_handle W) msg code d :
  tame_handle h → is_null (debug_print h) = false →
  wp (error h msg code) d (λ r d', r = code ∧ inited d' = inited d).
Proof.
  intros Ht Hn. unfold error, debug, hook. destruct (debug_print h) as [f|] eqn:E; [|done].
  apply wp_bind, wp_bind, wp_ret. eapply wp_mono; [by apply (tame_debug h Ht)|].
  intros [] d' Hd. by apply wp_ret.
Qed.

(** [nrf24l01_init] on a handle whose hooks do not fault never faults, and
    its code says what happened: 3 exactly when some hook is null, 4 and 1 only
    when the pin or the SPI could not be started; the handle becomes
    initialised exactly when the code is 0. *)
Theorem init_codes {W} (h : nrf24l01_handle W) d :
  tame_handle h →
  wp (nrf24l01_init (Some h)) d (λ r d',
    (hooks_linked h = false ∧ r = 3 ∨ hooks_linked h = true ∧ r ∈ [0; 1; 4]) ∧
    inited d' = if decide (r = 0) then 1 else inited d).
Proof.
  intros Ht. unfold nrf24l01_init, hooks_linked.
  destruct (is_null (debug_print h)) eqn:Hdbg; [by apply wp_ret; split; [left|]|].
  pose proof (λ msg code d, tame_error h msg code d Ht Hdbg) as Herr.
  repeat match goal with
  | |- wp (if is_null ?x then _ else _) _ _ =>
      let E := fresh "E" in destruct (is_null x) eqn:E;
      [eapply wp_mono; [apply Herr|]; intros r d' [-> ?]; split; [left|]; done|]
  end.
  cbn. destruct (gpio_init h) as [gi|] eqn:Hgi; [|done].
  destruct (spi_init h) as [si|] eqn:Hsi; [|done].
  destruct (gpio_deinit h) as [gd|] eqn:Hgd; [|done].
  apply wp_bind, wp_ret. eapply wp_seq; [by apply (tame_gpio_init h Ht)|]. intros r1 d1 H1.
  destruct (decide (r1 = 0)).
  2: { eapply wp_mono; [apply Herr|]. intros r d' [-> Hd]. split; [right; split; [done|set_solver]|].
       rewrite decide_False by done. congruence. }
  apply wp_bind, wp_ret. eapply wp_seq; [by apply (tame_spi_init h Ht)|]. intros r2 d2 H2.
  destruct (decide (r2 = 0)).
  { apply wp_bind, wp_modify, wp_ret. split; [right; split; [done|set_solver]|done]. }
  pose proof (Herr "nrf24l01: spi init failed." 0 d2) as Hmsg. unfold error in Hmsg.
  eapply wp_seq with (Q := λ _ d', inited d' = inited d2).
  { unfold wp, mbind, M_bind in *. destruct (debug h _ _ d2); [by destruct Hmsg|done]. }
  intros [] d3 H3. apply wp_bind, wp_ret. eapply wp_seq; [by apply (tame_gpio_deinit h Ht)|].
  intros r4 d4 H4. apply wp_ret. split; [right; split; [done|set_solver]|]. simpl. congruence.
Qed.

Lemma init_codes_witness :
  tame_handle Sim.sim_handle ∧
  wp (nrf24l01_init (Some Sim.sim_handle)) Sim.sim_init (λ r d',
    (hooks_linked Sim.sim_handle = false ∧ r = 3 ∨
     hooks_linked Sim.sim_handle = true ∧ r ∈ [0; 1; 4]) ∧
    inited d' = if decide (r = 0) then 1 else inited Sim.sim_init).
Proof.
  assert (tame_handle Sim.sim_handle) as H by (split; intros; simplify_eq/=; intros d; done).
  split; [exact H|]. apply (init_codes Sim.sim_handle Sim.sim_init H).
Defined.

(** ** Sending *)

(** C37.  A send puts exactly one payload on the air interface and reports what
    the interrupt says became of it: the bytes go out last byte first, behind
    the command that asks for an acknowledge or not.  When the call starts to wait
    the driver's flag is 0, whatever an earlier transfer left there, or the last
    value the interrupt stored since the call began.  Without an acknowledge the
    result is 0; with one it is 0 (or 1) exactly when the flag is 1 (or another
    value) at the first of the 5000 checks, one millisecond apart, that finds it set,
    and 5 when it is still 0 at every one of them.  The call always ends.  It is
    about an initialised handle on a platform whose pin and payload write work, and
    at most 32 bytes. *)
Theorem send_outcome {W} (h : nrf24l01_handle W) sent stores `{!TxPlatform h sent stores}
    tick buf len use_ack d :
  (∀ d, call_delay_ms h 1 d = Ok tt (tick d)) →
  inited d = 1 → 0 <= len <= 32 → len <= Z.of_nat (length buf) →
  wp (nrf24l01_send (Some h) buf len use_ack) d (λ r _,
    ∃ d0 vs, sent (world d0) =
            sent (world d) ++ [(tx_command use_ack, reverse (take (Z.to_nat len) buf))] ∧
      stores (world d0) = stores (world d) ++ vs ∧ finished d0 = default 0 (last vs) ∧
      match use_ack with
      | NRF24L01_BOOL_FALSE => r = 0
      | NRF24L01_BOOL_TRUE =>
          (r = 0 ↔ ∃ k, (k < 5000)%nat ∧ flagged tick d0 k 1) ∧
          (r = 1 ↔ ∃ k v, (k < 5000)%nat ∧ flagged tick d0 k v ∧ v ≠ 1) ∧
          (r = 5 ↔ ∀ j, (j < 5000)%nat → finished (after tick j d0) = 0)
      end).
Proof.
  intros Hdelay Hin Hlen Hbuf.
  eapply wp_mono; [by apply (send_spec h sent stores tick Hdelay)|].
  intros r d' (d0 & vs & Hs & Hvs & Hfin & Hr). exists d0, vs. split_and!; [done..|].
  destruct use_ack; [done|].
  change 5000%nat with send_timeout. destruct Hr as [(k & v & Hk & Hf & ->)|[Hz ->]].
  - pose proof (λ k', flagged_unique tick d0 k k' v) as Hu.
    assert (¬ (∀ j, (j < send_timeout)%nat → finished (after tick j d0) = 0)) as Hn.
    { intros H0. destruct Hf as (_ & Hv & Hv0). specialize (H0 k Hk). congruence. }
    destruct (decide (v = 1)) as [->|Hv].
    + split_and!; split; try done; [by exists k|].
      intros (k' & v' & _ & Hf' & Hne). by destruct (Hu k' v' Hf Hf') as [_ <-].
    + split_and!; split; try done; [|by exists k, v].
      intros (k' & _ & Hf'). by destruct (Hu k' 1 Hf Hf') as [_ ->].
  - assert (∀ k v, (k < send_timeout)%nat → ¬ flagged tick d0 k v) as Hn.
    { intros k v Hk (_ & Hv & Hv0). specialize (Hz k Hk). congruence. }
    split_and!; split; try done.
    + intros (k & Hk & Hf). by destruct (Hn k 1 Hk).
    + intros (k & v & Hk & Hf & _). by destruct (Hn k v Hk).
Qed.

Lemma send_outcome_witness :
  wp (nrf24l01_send (Some Bench.b_handle) [1; 2; 3; 4] 3 NRF24L01_BOOL_TRUE) Bench.b_start
    (λ r _, ∃ d0,
      Bench.b_sent (world d0) = [(NRF24L01_COMMAND_W_TX_PAYLOAD, [3; 2; 1])] ∧
      finished d0 = default 0 (last (Bench.b_stores (world d0))) ∧
      (r = 0 ↔ ∃ k, (k < 5000)%nat ∧ flagged Bench.b_tick d0 k 1)).
Proof.
  eapply wp_mono.
  - apply (send_outcome Bench.b_handle Bench.b_sent Bench.b_stores Bench.b_tick [1; 2; 3; 4] 3
      NRF24L01_BOOL_TRUE Bench.b_start); [reflexivity|reflexivity|lia|simpl; lia].
  - intros r d' (d0 & vs & Hs & Hvs & Hf & Hr & _). exists d0. simpl in Hvs. rewrite Hvs.
    split_and!; [exact Hs|exact Hf|exact Hr].
Defined.

(** ** The interrupt handler *)

(** C38.  The interrupt handler, on the handle the program builds and over any
    HAL that does not fault, never reads or writes outside its 33 byte buffer
    and always leaves the chip enabled.  It returns 0 exactly when none of its bus
    transfers goes wrong (fails, or answers with a payload width that is 0 or over
    33), and then the driver's flag tells the sender what the status register
    said: 1 for a sent payload, 2 for the retransmission limit alone, unchanged
    otherwise.  When one goes wrong it returns 1, with the flag as it was or with that
    same value. *)
Theorem irq_handler_effect {W} spiStart spiExchange spiSend acq sel unsel rel setl clrl sleep dbg cb
    (ce status upset : W → Z)
    `{!IrqHal spiExchange spiSend acq sel unsel rel setl clrl dbg cb ce status upset} d :
  let flag := if Z.testbit (status (world d)) 5 then 1
              else if Z.testbit (status (world d)) 4 then 2 else finished d in
  inited d = 1 →
  wp (nrf24l01_irq_handler (Some (interface_handle spiStart spiExchange spiSend acq sel unsel rel
        setl clrl sleep dbg (Some cb)))) d
    (λ r d', ce (world d') = 1 ∧
      ((r = 0 ∧ upset (world d') = upset (world d) ∧ finished d' = flag) ∨
       (r = 1 ∧ upset (world d) < upset (world d') ∧
          (finished d' = finished d ∨ finished d' = flag)))).
Proof. intros flag Hin. exact (irq_handler_spec _ ce status upset d Hin). Qed.

(** Every transfer of the bench works: the handler stores 1. *)
Lemma irq_handler_effect_witness :
  wp (nrf24l01_irq_handler (Some Bench.b_handle)) Bench.b_start (λ r d',
    Bench.b_ce (world d') = 1 ∧ r = 0 ∧ finished d' = 1).
Proof.
  eapply wp_mono.
  - apply (irq_handler_effect (mret 0) Bench.b_exchange Bench.b_send Bench.b_nop Bench.b_nop
      Bench.b_nop Bench.b_nop (Bench.b_line 1) (Bench.b_line 0) (λ _, mmodify Bench.b_tick)
      (λ _ _, Bench.b_nop) (λ _ _ _ _, Bench.b_nop) Bench.b_ce (λ w, u8 (Bench.b_status w))
      (λ _, 0) Bench.b_start). reflexivity.
  - intros r d' (Hce & [(Hr & _ & Hf)|(_ & Hu & _)]); [|lia].
    split_and!; [exact Hce|exact Hr|exact Hf].
Defined.

(** The 33 byte buffer is the platform's responsibility: when the chip
    reports a payload width over 33 and the platform's [spi_read] delivers that
    many bytes, the handler flushes the receive fifo but still reads the payload, and
    overruns the buffer. *)
Theorem irq_oversized_payload {W} (h : nrf24l01_handle W) d d1 d2 d3 prev w st data :
  Z.testbit prev 6 = true → 33 < w →
  call_spi_read h NRF24L01_COMMAND_R_RX_PL_WID 1 d = Ok (0, [w]) d1 →
  call_spi_write h NRF24L01_COMMAND_FLUSH_RX [] d1 = Ok 0 d2 →
  call_spi_read h NRF24L01_COMMAND_R_RX_PAYLOAD w d2 = Ok (st, data) d3 →
  Z.of_nat (length data) = w →
  irq_rx_dr h prev d = Fault OutOfBounds.
Proof.
  intros Hb Hw H1 H2 H3 Hl. unfold irq_rx_dr.
  assert (Z.land (Z.shiftr prev 6) 1 ≠ 0) as Hbit.
  { intros E. assert (Z.testbit (Z.land (Z.shiftr prev 6) 1) 0 = false) as H by (by rewrite E).
    rewrite Z.land_spec, Z.shiftr_spec in H by lia. change (0 + 6) with 6 in H. rewrite Hb in H. done. }
  rewrite decide_True by done. unfold mbind, M_bind. rewrite H1.
  rewrite decide_False by (intros E; done). simpl. unfold mret, M_ret.
  rewrite decide_True by lia. rewrite H2. rewrite decide_False by (intros E; done).
  unfold irq_rx_payload, mbind, M_bind. rewrite H3.
  rewrite decide_True by (unfold irq_buffer_size; lia). done.
Qed.

(** A platform without the interface's guard, and a chip that reports 40. *)
Definition unguarded_handle : nrf24l01_handle unit :=
  mk_handle None None (Some (λ _, mret 0)) None None
    (Some (λ cmd n, mret (0, replicate (Z.to_nat n) 40)))
    (Some (λ _ _, mret 0)) (Some (λ _, mret tt)) (Some (λ _ _, mret tt)) None.

Lemma irq_oversized_payload_witness :
  irq_rx_dr unguarded_handle 0x40 (mk_dyn 1 0 tt) = Fault OutOfBounds.
Proof.
  apply (irq_oversized_payload unguarded_handle (mk_dyn 1 0 tt) (mk_dyn 1 0 tt) (mk_dyn 1 0 tt)
    (mk_dyn 1 0 tt) 0x40 40 0 (replicate 40 40)); [reflexivity|lia|reflexivity..].
Defined.

(** ** The transmit address the program remembers *)

(** [nrf24l01_basic_set_tx_address] keeps the chip and the remembered
    address in step: on a working register file at the five byte width it
    succeeds, [nrf24l01_basic_get_tx_address] then gives the address with the flag set,
    and the chip holds it (reversed) as transmit address and as the address of
    pipe 0, which receives the acknowledge; all other registers are unchanged. *)
Theorem basic_tx_address {W} (h : nrf24l01_handle W) inv regs ce `{!RegBus h inv regs ce} d addr st :
  inited d = 1 → inv (world d) → chip_width regs (world d) 5 →
  length addr = 5%nat → Forall is_u8 addr →
  wp (nrf24l01_basic_set_tx_address h (Some addr) st) d (λ '(res, st') d',
    res = 0 ∧ nrf24l01_basic_get_tx_address false st' = (0, Some (addr, 1)) ∧
    regs (world d') NRF24L01_REG_TX_ADDR = reverse addr ∧
    regs (world d') NRF24L01_REG_RX_ADDR_P0 = reverse addr ∧
    touched inv regs ce [NRF24L01_REG_TX_ADDR; NRF24L01_REG_RX_ADDR_P0] d d').
Proof.
  intros Hin Hi Hw Hl Hu. unfold nrf24l01_basic_set_tx_address.
  assert (Ha : NRF24L01_REG_TX_ADDR ∈ address_regs ∧ NRF24L01_REG_RX_ADDR_P0 ∈ address_regs)
    by (unfold address_regs; rewrite !elem_of_cons; tauto).
  assert (Hfull : ∀ reg d, inv (world d) → reg ∈ address_regs →
    reverse (take (Z.to_nat basic_address_len) addr)
      ++ drop (Z.to_nat basic_address_len) (regs (world d) reg) = reverse addr).
  { intros reg d0 Hi0 Hr. destruct (address_reg_facts reg Hr) as (Hc & Hrl & _).
    destruct (regs_wf (world d0) reg Hi0 Hc) as [Hlr _]. rewrite Hrl in Hlr.
    change (Z.to_nat basic_address_len) with 5%nat. by rewrite take_ge, drop_ge, app_nil_r by lia. }
  eapply wp_seq.
  { apply (set_address_spec h inv regs ce NRF24L01_REG_TX_ADDR _ d addr _ 5); try done; [apply Ha|].
    by rewrite Hl. }
  intros res d1 (-> & Hd1 & Ht1). rewrite decide_False by (intros E; done).
  eapply wp_seq.
  { apply (set_address_spec h inv regs ce NRF24L01_REG_RX_ADDR_P0 _ d1 addr _ 5); try done;
      [by destruct Ht1 as (_ & -> & _)|apply Ht1|apply Ha| |by rewrite Hl].
    eapply (chip_width_touched inv regs ce); [exact Ht1| |done].
    by rewrite elem_of_cons, elem_of_nil; intros [?|[]]. }
  intros res d2 (-> & Hd2 & Ht2). rewrite decide_False by (intros E; done).
  unfold memcpy_local. rewrite decide_True by lia. apply wp_bind, wp_ret, wp_ret.
  rewrite Hfull in Hd1, Hd2 by (apply Ha || done || apply Ht1).
  split_and!; [done| | |done|].
  - simpl. by rewrite take_ge by lia.
  - rewrite <-Hd1. apply (touched_regs inv regs ce [NRF24L01_REG_RX_ADDR_P0]); [done| |].
    + by refine (bool_decide_unpack (config_reg _) _).
    + by rewrite elem_of_cons, elem_of_nil; intros [?|[]].
  - by apply (touched_trans inv regs ce [NRF24L01_REG_TX_ADDR] [_] _ d1).
Qed.

Lemma basic_tx_address_witness :
  wp (nrf24l01_basic_set_tx_address Sim.sim_handle (Some [1; 2; 3; 4; 5]) tx_state_init)
    (mk_dyn 1 0 (Sim.mk_sim {[ NRF24L01_REG_SETUP_AW := [3] ]} 0 []))
    (λ '(res, st') _, res = 0 ∧
       nrf24l01_basic_get_tx_address false st' = (0, Some ([1; 2; 3; 4; 5], 1))).
Proof.
  eapply wp_mono.
  - apply (basic_tx_address Sim.sim_handle Sim.sim_wf Sim.sim_reg Sim.s_ce).
    + reflexivity.
    + apply sim_width_wf. lia.
    + exists 3. split; reflexivity.
    + reflexivity.
    + repeat constructor; lia.
  - intros [res st'] d' (H1 & H2 & _). split; [exact H1|exact H2].
Defined.
