(* ===== verification/RttRing.v ===== *)
(** * The terminal channels: [src/src/RTT/SEGGER_RTT.c]

    The ring buffers the program logs through, one definition per function.
    Offsets and sizes are 32 bit unsigned integers with their wrap-around.
    The debug probe on the other side of an up-buffer moves its read offset at
    any time; the places that wait for it take its next move from a schedule
    that is part of the state. *)
From S2P Require Import Prelude.

(** ** Data *)

(** [SEGGER_RTT_BUFFER_UP] and [_DOWN]; [pBuffer] is the memory the ring points
    to, [None] for a null pointer. *)
Record ring : Type := mk_ring {
  sName : string;
  pBuffer : option (list Z);
  SizeOfBuffer : Z;
  WrOff : Z;
  RdOff : Z;
  Flags : Z
}.

Definition SEGGER_RTT_MODE_NO_BLOCK_SKIP : Z := 0.
Definition SEGGER_RTT_MODE_NO_BLOCK_TRIM : Z := 1.
Definition SEGGER_RTT_MODE_BLOCK_IF_FIFO_FULL : Z := 2.
Definition SEGGER_RTT_MODE_MASK : Z := 3.
Definition SEGGER_RTT_MAX_NUM_UP_BUFFERS : Z := 3.
Definition SEGGER_RTT_MAX_NUM_DOWN_BUFFERS : Z := 3.
Definition BUFFER_SIZE_UP : Z := 1024.
Definition BUFFER_SIZE_DOWN : Z := 16.
Definition SEGGER_RTT_MODE_DEFAULT : Z := SEGGER_RTT_MODE_NO_BLOCK_SKIP.

Definition set_WrOff (v : Z) (r : ring) : ring :=
  mk_ring (sName r) (pBuffer r) (SizeOfBuffer r) v (RdOff r) (Flags r).
Definition set_RdOff (v : Z) (r : ring) : ring :=
  mk_ring (sName r) (pBuffer r) (SizeOfBuffer r) (WrOff r) v (Flags r).
Definition set_Flags (v : Z) (r : ring) : ring :=
  mk_ring (sName r) (pBuffer r) (SizeOfBuffer r) (WrOff r) (RdOff r) v.
Definition set_sName (v : string) (r : ring) : ring :=
  mk_ring v (pBuffer r) (SizeOfBuffer r) (WrOff r) (RdOff r) (Flags r).

(** A ring and the moves the host will make: the number of bytes it takes
    each time the target waits for it. *)
Record chan : Type := mk_chan { rg : ring; host : list Z }.

Definition on_rg (f : ring → ring) : M chan unit :=
  mmodify (λ c, mk_chan (f (rg c)) (host c)).

(** ** Memory *)

(** [memcpy(buf + off, src, length src)]. *)
Definition blit (off : Z) (src buf : list Z) : option (list Z) :=
  if decide (0 <= off ∧ off + Z.of_nat (length src) <= Z.of_nat (length buf))
  then Some (take (Z.to_nat off) buf ++ src ++ drop (Z.to_nat off + length src) buf) else None.

(** The first [n] bytes at [src]. *)
Definition fetch_bytes (n : Z) (src : list Z) : option (list Z) :=
  if decide (0 <= n <= Z.of_nat (length src)) then Some (take (Z.to_nat n) src) else None.

(** [memcpy(pRing->pBuffer + off, src, n)]. *)
Definition ring_store (off n : Z) (src : list Z) (r : ring) : option ring :=
  bytes ← fetch_bytes n src;
  buf ← pBuffer r;
  buf ← blit off bytes buf;
  Some (mk_ring (sName r) (Some buf) (SizeOfBuffer r) (WrOff r) (RdOff r) (Flags r)).

(** The [n] bytes at [pRing->pBuffer + off]. *)
Definition ring_load (off n : Z) (r : ring) : option (list Z) :=
  buf ← pBuffer r;
  if decide (0 <= off) then fetch_bytes n (drop (Z.to_nat off) buf) else None.

Definition store (off n : Z) (src : list Z) : M chan unit :=
  c ← mget;
  r ← mlift OutOfBounds (ring_store off n src (rg c));
  mput (mk_chan r (host c)).

(** ** Writing *)

(** The bytes in the ring, oldest first. *)
Definition contents (r : ring) : list Z :=
  let buf := default [] (pBuffer r) in
  if decide (RdOff r <= WrOff r)
  then take (Z.to_nat (WrOff r - RdOff r)) (drop (Z.to_nat (RdOff r)) buf)
  else drop (Z.to_nat (RdOff r)) (take (Z.to_nat (SizeOfBuffer r)) buf)
         ++ take (Z.to_nat (WrOff r)) buf.

(** The host takes up to [n] bytes out of an up-buffer. *)
Definition host_take (n : Z) (r : ring) : ring :=
  let k := Z.max 0 (Z.min n (Z.of_nat (length (contents r)))) in
  set_RdOff (if decide (RdOff r + k >= SizeOfBuffer r) then RdOff r + k - SizeOfBuffer r
             else RdOff r + k) r.

(** A read of the volatile [pRing->RdOff] in a waiting loop: the host moves
    first; a host without moves left stays away for good. *)
Definition read_RdOff : M chan Z :=
  c ← mget;
  match host c with
  | [] => mret (RdOff (rg c))
  | n :: rest =>
      mput (mk_chan (host_take n (rg c)) rest);;
      mret (RdOff (host_take n (rg c)))
  end.

Definition _GetAvailWriteSpace (r : ring) : Z :=
  if decide (RdOff r <= WrOff r)
  then u32 (SizeOfBuffer r - 1 - WrOff r + RdOff r)
  else u32 (RdOff r - WrOff r - 1).

(** The loop of [_WriteBlocking]; [Diverged] when it would spin for ever. *)
Fixpoint write_blocking_loop (fuel : nat) (src : list Z) (NumBytes NumBytesWritten wroff : Z) :
    M chan Z :=
  match fuel with
  | O => mfail Diverged
  | S fuel =>
      rdoff ← read_RdOff;
      size ← mgets (λ c, SizeOfBuffer (rg c));
      let n := if decide (rdoff > wroff) then u32 (rdoff - wroff - 1)
               else u32 (size - u32 (wroff - rdoff + 1)) in
      let n := Z.min n (u32 (size - wroff)) in
      let n := Z.min n NumBytes in
      store wroff n src;;
      let NumBytesWritten := u32 (NumBytesWritten + n) in
      let src := drop (Z.to_nat n) src in
      let NumBytes := u32 (NumBytes - n) in
      let wroff := u32 (wroff + n) in
      let wroff := if decide (wroff = size) then 0 else wroff in
      on_rg (set_WrOff wroff);;
      if decide (NumBytes = 0) then mret NumBytesWritten
      else write_blocking_loop fuel src NumBytes NumBytesWritten wroff
  end.

(** Every round but those the schedule accounts for writes a byte, so this
    fuel is enough whenever the loop ends. *)
Definition _WriteBlocking (src : list Z) (NumBytes : Z) : M chan Z :=
  c ← mget;
  write_blocking_loop (length (host c) + Z.to_nat NumBytes + 2) src NumBytes 0 (WrOff (rg c)).

Definition _WriteNoCheck (src : list Z) (NumBytes : Z) : M chan unit :=
  wroff ← mgets (λ c, WrOff (rg c));
  size ← mgets (λ c, SizeOfBuffer (rg c));
  let rem := u32 (size - wroff) in
  if decide (rem > NumBytes) then
    store wroff NumBytes src;;
    on_rg (set_WrOff (u32 (wroff + NumBytes)))
  else
    store wroff rem src;;
    let n := u32 (NumBytes - rem) in
    store 0 n (drop (Z.to_nat rem) src);;
    on_rg (set_WrOff n).

(** The three modes of [SEGGER_RTT_WriteNoLock] and
    [SEGGER_RTT_WriteDownBufferNoLock] on their ring. *)
Definition write_by_mode (src : list Z) (NumBytes : Z) : M chan Z :=
  r ← mgets rg;
  if decide (Flags r = SEGGER_RTT_MODE_NO_BLOCK_SKIP) then
    if decide (_GetAvailWriteSpace r < NumBytes) then mret 0
    else _WriteNoCheck src NumBytes;; mret NumBytes
  else if decide (Flags r = SEGGER_RTT_MODE_NO_BLOCK_TRIM) then
    let avail := _GetAvailWriteSpace r in
    let status := if decide (avail < NumBytes) then avail else NumBytes in
    _WriteNoCheck src status;; mret status
  else if decide (Flags r = SEGGER_RTT_MODE_BLOCK_IF_FIFO_FULL) then
    _WriteBlocking src NumBytes
  else mret 0.

Definition write_skip (src : list Z) (NumBytes : Z) : M chan Z :=
  rdoff ← mgets (λ c, RdOff (rg c));
  wroff ← mgets (λ c, WrOff (rg c));
  size ← mgets (λ c, SizeOfBuffer (rg c));
  if decide (rdoff <= wroff) then
    let avail := u32 (size - wroff - 1) in
    if decide (avail >= NumBytes) then
      store wroff NumBytes src;;
      on_rg (set_WrOff (u32 (wroff + NumBytes)));;
      mret 1
    else
      let avail := u32 (avail + rdoff) in
      if decide (avail >= NumBytes) then
        let rem := u32 (size - wroff) in
        store wroff rem src;;
        let n := u32 (NumBytes - rem) in
        (if decide (n ≠ 0) then store 0 n (drop (Z.to_nat rem) src) else mret tt);;
        on_rg (set_WrOff n);;
        mret 1
      else mret 0
  else
    let avail := u32 (rdoff - wroff - 1) in
    if decide (avail >= NumBytes) then
      store wroff NumBytes src;;
      on_rg (set_WrOff (u32 (wroff + NumBytes)));;
      mret 1
    else mret 0.

(** [while (pRing->RdOff >= pRing->SizeOfBuffer) pRing->RdOff -= SizeOfBuffer]. *)
Fixpoint reduce_RdOff (fuel : nat) : M chan unit :=
  match fuel with
  | O => mfail Diverged
  | S fuel =>
      r ← mgets rg;
      if decide (RdOff r >= SizeOfBuffer r) then
        on_rg (set_RdOff (u32 (RdOff r - SizeOfBuffer r)));; reduce_RdOff fuel
      else mret tt
  end.

(** The writing loop of [SEGGER_RTT_WriteWithOverwriteNoLock]. *)
Fixpoint overwrite_loop (fuel : nat) (src : list Z) (NumBytes avail : Z) : M chan unit :=
  match fuel with
  | O => mfail Diverged
  | S fuel =>
      r ← mgets rg;
      if decide (avail > NumBytes) then
        store (WrOff r) NumBytes src;;
        on_rg (set_WrOff (u32 (WrOff r + NumBytes)))
      else
        store (WrOff r) avail src;;
        on_rg (set_WrOff 0);;
        let NumBytes := u32 (NumBytes - avail) in
        if decide (NumBytes = 0) then mret tt
        else overwrite_loop fuel (drop (Z.to_nat avail) src) NumBytes (u32 (SizeOfBuffer r - 1))
  end.

Definition write_overwrite (src : list Z) (NumBytes : Z) : M chan unit :=
  r ← mgets rg;
  let avail :=
    if decide (WrOff r = RdOff r) then u32 (SizeOfBuffer r - 1)
    else if decide (WrOff r < RdOff r) then u32 (RdOff r - WrOff r - 1)
    else u32 (RdOff r - WrOff r - 1 + SizeOfBuffer r) in
  (if decide (NumBytes > avail) then
     on_rg (set_RdOff (u32 (RdOff r + u32 (NumBytes - avail))));;
     reduce_RdOff (S (Z.to_nat (u32 (RdOff r + u32 (NumBytes - avail)))))
   else mret tt);;
  r ← mgets rg;
  overwrite_loop (S (Z.to_nat NumBytes)) src NumBytes (u32 (SizeOfBuffer r - WrOff r)).

(** [SEGGER_RTT_PutCharSkipNoLock] on its ring. *)
Definition put_char_skip (ch : Z) : M chan Z :=
  r ← mgets rg;
  let wroff := u32 (WrOff r + 1) in
  let wroff := if decide (wroff = SizeOfBuffer r) then 0 else wroff in
  if decide (wroff ≠ RdOff r) then
    store (WrOff r) 1 [ch];;
    on_rg (set_WrOff wroff);;
    mret 1
  else mret 0.

(** [while (WrOff == pRing->RdOff) ;]: the host moves before every read. *)
Fixpoint wait_space (fuel : nat) (wroff : Z) : M chan unit :=
  match fuel with
  | O => mfail Diverged
  | S fuel =>
      rdoff ← read_RdOff;
      if decide (wroff = rdoff) then wait_space fuel wroff else mret tt
  end.

(** [SEGGER_RTT_PutChar] on its ring. *)
Definition put_char (ch : Z) : M chan Z :=
  r ← mgets rg;
  h ← mgets host;
  let wroff := u32 (WrOff r + 1) in
  let wroff := if decide (wroff = SizeOfBuffer r) then 0 else wroff in
  (if decide (Flags r = SEGGER_RTT_MODE_BLOCK_IF_FIFO_FULL)
   then wait_space (S (length h)) wroff else mret tt);;
  r ← mgets rg;
  if decide (wroff ≠ RdOff r) then
    store (WrOff r) 1 [ch];;
    on_rg (set_WrOff wroff);;
    mret 1
  else mret 0.

(** ** Reading *)

(** The two chunks of [SEGGER_RTT_ReadNoLock] and
    [SEGGER_RTT_ReadUpBufferNoLock]: the number of bytes and the bytes. *)
Definition read_ring (BufferSize : Z) : M chan (Z * list Z) :=
  r ← mgets rg;
  first ← (if decide (RdOff r > WrOff r) then
             let n := Z.min (u32 (SizeOfBuffer r - RdOff r)) BufferSize in
             bytes ← mlift OutOfBounds (ring_load (RdOff r) n r);
             let rdoff := u32 (RdOff r + n) in
             mret (n, bytes, u32 (BufferSize - n),
                   if decide (rdoff = SizeOfBuffer r) then 0 else rdoff)
           else mret (0, [], BufferSize, RdOff r));
  let '(nread, bytes, size, rdoff) := first in
  let n := Z.min (u32 (WrOff r - rdoff)) size in
  second ← (if decide (n > 0) then
              more ← mlift OutOfBounds (ring_load rdoff n r);
              mret (u32 (nread + n), bytes ++ more, u32 (rdoff + n))
            else mret (nread, bytes, rdoff));
  let '(nread, bytes, rdoff) := second in
  (if decide (nread ≠ 0) then on_rg (set_RdOff rdoff) else mret tt);;
  mret (nread, bytes).

(** ** The control block *)

Record rtt_cb : Type := mk_cb {
  acID : list Z;
  aUp : list ring;
  aDown : list ring;
  ActiveTerminal : Z;
  acUpBuffer : list Z;
  acDownBuffer : list Z;
  hosts : list (list Z)
}.

(** The id string of the initialiser, written backwards in the source so that
    a probe does not take it for a control block. *)
Definition _aInitStr : list Z :=
  [0; 0; 0; 0; 0; 0; 84; 84; 82; 32; 82; 69; 71; 71; 69; 83].

Definition zero_ring : ring := mk_ring EmptyString None 0 0 0 0.

(** The memory of a buffer: the static array, or what channel 0 left in it. *)
Definition static_buffer (rings : list ring) (init : list Z) : list Z :=
  match rings with
  | {| pBuffer := Some buf |} :: _ => buf
  | _ => init
  end.

Definition _DoInit : M rtt_cb unit :=
  mmodify (λ cb,
    mk_cb (reverse _aInitStr)
      [mk_ring "Terminal" (Some (static_buffer (aUp cb) (acUpBuffer cb))) BUFFER_SIZE_UP 0 0
         SEGGER_RTT_MODE_DEFAULT; zero_ring; zero_ring]
      [mk_ring "Terminal" (Some (static_buffer (aDown cb) (acDownBuffer cb))) BUFFER_SIZE_DOWN 0 0
         SEGGER_RTT_MODE_DEFAULT; zero_ring; zero_ring]
      (ActiveTerminal cb) (acUpBuffer cb) (acDownBuffer cb) (hosts cb)).

(** The macro [INIT()]. *)
Definition INIT : M rtt_cb unit :=
  cb ← mget;
  if decide (head (acID cb) = Some 83) then mret tt else _DoInit.

(** Run an operation on up-buffer [i]; the schedule of the host is the one of
    that channel. *)
Definition on_up {A} (i : Z) (m : M chan A) : M rtt_cb A := λ cb,
  match aUp cb !! Z.to_nat i with
  | Some r =>
      let h := default [] (hosts cb !! Z.to_nat i) in
      match m (mk_chan r h) with
      | Ok a c => Ok a (mk_cb (acID cb) (<[Z.to_nat i := rg c]> (aUp cb)) (aDown cb)
                          (ActiveTerminal cb) (acUpBuffer cb) (acDownBuffer cb)
                          (<[Z.to_nat i := host c]> (hosts cb)))
      | Fault e => Fault e
      end
  | None => Fault OutOfBounds
  end.
Definition on_down {A} (i : Z) (m : M chan A) : M rtt_cb A := λ cb,
  match aDown cb !! Z.to_nat i with
  | Some r =>
      match m (mk_chan r []) with
      | Ok a c => Ok a (mk_cb (acID cb) (aUp cb) (<[Z.to_nat i := rg c]> (aDown cb))
                          (ActiveTerminal cb) (acUpBuffer cb) (acDownBuffer cb) (hosts cb))
      | Fault e => Fault e
      end
  | None => Fault OutOfBounds
  end.
Definition set_active_terminal (t : Z) : M rtt_cb unit :=
  mmodify (λ cb, mk_cb (acID cb) (aUp cb) (aDown cb) t (acUpBuffer cb) (acDownBuffer cb) (hosts cb)).

(** ** The public functions

    [SEGGER_RTT_LOCK] and [UNLOCK] (mask interrupts and restore them) have no
    effect on the state. *)

Definition SEGGER_RTT_Init : M rtt_cb unit := _DoInit.

Definition SEGGER_RTT_ReadUpBufferNoLock (i size : Z) : M rtt_cb (Z * list Z) :=
  INIT;; on_up i (read_ring size).
Definition SEGGER_RTT_ReadNoLock (i size : Z) : M rtt_cb (Z * list Z) :=
  INIT;; on_down i (read_ring size).
Definition SEGGER_RTT_ReadUpBuffer (i size : Z) : M rtt_cb (Z * list Z) :=
  SEGGER_RTT_ReadUpBufferNoLock i size.
Definition SEGGER_RTT_Read (i size : Z) : M rtt_cb (Z * list Z) := SEGGER_RTT_ReadNoLock i size.

Definition SEGGER_RTT_WriteWithOverwriteNoLock (i : Z) (src : list Z) (n : Z) : M rtt_cb unit :=
  on_up i (write_overwrite src n).
(** The C version, compiled when RTT_USE_ASM is 0; with GCC for a Cortex-M7 the header
    sets it to 1 and calls the assembler one, which is not modelled.  The comment at the
    function asks for at least one byte; without any this one stores nothing and
    gives 1. *)
Definition SEGGER_RTT_WriteSkipNoLock (i : Z) (src : list Z) (n : Z) : M rtt_cb Z :=
  on_up i (write_skip src n).
Definition SEGGER_RTT_WriteDownBufferNoLock (i : Z) (src : list Z) (n : Z) : M rtt_cb Z :=
  on_down i (write_by_mode src n).
Definition SEGGER_RTT_WriteNoLock (i : Z) (src : list Z) (n : Z) : M rtt_cb Z :=
  on_up i (write_by_mode src n).
Definition SEGGER_RTT_WriteDownBuffer (i : Z) (src : list Z) (n : Z) : M rtt_cb Z :=
  INIT;; SEGGER_RTT_WriteDownBufferNoLock i src n.
Definition SEGGER_RTT_Write (i : Z) (src : list Z) (n : Z) : M rtt_cb Z :=
  INIT;; SEGGER_RTT_WriteNoLock i src n.
(** [s] is the string without its terminating zero. *)
Definition SEGGER_RTT_WriteString (i : Z) (s : list Z) : M rtt_cb Z :=
  SEGGER_RTT_Write i s (Z.of_nat (length s)).

Definition SEGGER_RTT_PutCharSkipNoLock (i ch : Z) : M rtt_cb Z := on_up i (put_char_skip ch).
Definition SEGGER_RTT_PutCharSkip (i ch : Z) : M rtt_cb Z := INIT;; on_up i (put_char_skip ch).
Definition SEGGER_RTT_PutChar (i ch : Z) : M rtt_cb Z := INIT;; on_up i (put_char ch).

Definition SEGGER_RTT_GetKey : M rtt_cb Z :=
  '(r, bytes) ← SEGGER_RTT_Read 0 1;
  if decide (r = 1) then mlift Uninitialised (head bytes) else mret (-1).

(** Keys arrive in down-buffer 0 by [arrivals]: what the host adds before each
    poll of [SEGGER_RTT_WaitKey]. *)
Fixpoint SEGGER_RTT_WaitKey (arrivals : list (M rtt_cb unit)) : M rtt_cb Z :=
  match arrivals with
  | [] => mfail Diverged
  | a :: arrivals =>
      a;; r ← SEGGER_RTT_GetKey;
      if decide (r < 0) then SEGGER_RTT_WaitKey arrivals else mret r
  end.

Definition SEGGER_RTT_HasKey : M rtt_cb Z :=
  INIT;; on_down 0 (r ← mgets rg; mret (if decide (RdOff r ≠ WrOff r) then 1 else 0)).
Definition SEGGER_RTT_HasData (i : Z) : M rtt_cb Z :=
  on_down i (r ← mgets rg; mret (u32 (WrOff r - RdOff r))).
Definition SEGGER_RTT_HasDataUp (i : Z) : M rtt_cb Z :=
  on_up i (r ← mgets rg; mret (u32 (WrOff r - RdOff r))).

(** The search for a ring without memory, then its set-up. *)
Fixpoint first_free (rings : list ring) : option nat :=
  match rings with
  | [] => None
  | r :: rings =>
      match pBuffer r with
      | None => Some O
      | Some _ => S <$> first_free rings
      end
  end.
Definition alloc_ring (name : string) (buf : option (list Z)) (size flags : Z)
    (rings : list ring) : Z * list ring :=
  match first_free rings with
  | Some i => (Z.of_nat i, <[i := mk_ring name buf size 0 0 flags]> rings)
  | None => (-1, rings)
  end.

Definition put_aUp (f : list ring → list ring) : M rtt_cb unit :=
  mmodify (λ cb, mk_cb (acID cb) (f (aUp cb)) (aDown cb) (ActiveTerminal cb)
                   (acUpBuffer cb) (acDownBuffer cb) (hosts cb)).
Definition put_aDown (f : list ring → list ring) : M rtt_cb unit :=
  mmodify (λ cb, mk_cb (acID cb) (aUp cb) (f (aDown cb)) (ActiveTerminal cb)
                   (acUpBuffer cb) (acDownBuffer cb) (hosts cb)).

Definition SEGGER_RTT_AllocUpBuffer (name : string) (buf : option (list Z)) (size flags : Z) :
    M rtt_cb Z :=
  INIT;;
  rings ← mgets aUp;
  put_aUp (λ rings, (alloc_ring name buf size flags rings).2);;
  mret (alloc_ring name buf size flags rings).1.
Definition SEGGER_RTT_AllocDownBuffer (name : string) (buf : option (list Z)) (size flags : Z) :
    M rtt_cb Z :=
  INIT;;
  rings ← mgets aDown;
  put_aDown (λ rings, (alloc_ring name buf size flags rings).2);;
  mret (alloc_ring name buf size flags rings).1.

(** Channel 0 keeps its memory; only its flags change. *)
Definition config_ring (i : Z) (name : string) (buf : option (list Z)) (size flags : Z)
    (r : ring) : ring :=
  if decide (i = 0) then set_Flags flags r else mk_ring name buf size 0 0 flags.
Definition SEGGER_RTT_ConfigUpBuffer (i : Z) (name : string) (buf : option (list Z))
    (size flags : Z) : M rtt_cb Z :=
  INIT;;
  if decide (i < SEGGER_RTT_MAX_NUM_UP_BUFFERS) then
    put_aUp (alter (config_ring i name buf size flags) (Z.to_nat i));; mret 0
  else mret (-1).
Definition SEGGER_RTT_ConfigDownBuffer (i : Z) (name : string) (buf : option (list Z))
    (size flags : Z) : M rtt_cb Z :=
  INIT;;
  if decide (i < SEGGER_RTT_MAX_NUM_DOWN_BUFFERS) then
    put_aDown (alter (config_ring i name buf size flags) (Z.to_nat i));; mret 0
  else mret (-1).

Definition SEGGER_RTT_SetNameUpBuffer (i : Z) (name : string) : M rtt_cb Z :=
  INIT;;
  if decide (i < SEGGER_RTT_MAX_NUM_UP_BUFFERS) then
    put_aUp (alter (set_sName name) (Z.to_nat i));; mret 0
  else mret (-1).
Definition SEGGER_RTT_SetNameDownBuffer (i : Z) (name : string) : M rtt_cb Z :=
  INIT;;
  if decide (i < SEGGER_RTT_MAX_NUM_DOWN_BUFFERS) then
    put_aDown (alter (set_sName name) (Z.to_nat i));; mret 0
  else mret (-1).
Definition SEGGER_RTT_SetFlagsUpBuffer (i flags : Z) : M rtt_cb Z :=
  INIT;;
  if decide (i < SEGGER_RTT_MAX_NUM_UP_BUFFERS) then
    put_aUp (alter (set_Flags flags) (Z.to_nat i));; mret 0
  else mret (-1).
Definition SEGGER_RTT_SetFlagsDownBuffer (i flags : Z) : M rtt_cb Z :=
  INIT;;
  if decide (i < SEGGER_RTT_MAX_NUM_DOWN_BUFFERS) then
    put_aDown (alter (set_Flags flags) (Z.to_nat i));; mret 0
  else mret (-1).

(** ** Terminals over channel 0 *)

(** ['0'] ... ['9'], ['A'] ... ['F']. *)
Definition _aTerminalId : list Z :=
  [48; 49; 50; 51; 52; 53; 54; 55; 56; 57; 65; 66; 67; 68; 69; 70].

(** [0xFF] and the id of the terminal. *)
Definition terminal_bytes (t : Z) : option (list Z) :=
  id ← _aTerminalId !! Z.to_nat t; Some [0xFF; id].

Definition _PostTerminalSwitch (t : Z) : M chan unit :=
  ac ← mlift OutOfBounds (terminal_bytes t);
  _ ← _WriteBlocking ac 2; mret tt.

Definition SEGGER_RTT_SetTerminal (t : Z) : M rtt_cb Z :=
  INIT;;
  if decide (t < Z.of_nat (length _aTerminalId)) then
    ac ← mlift OutOfBounds (terminal_bytes t);
    r ← on_up 0 (mgets rg);
    if decide (Z.land (Flags r) SEGGER_RTT_MODE_MASK = SEGGER_RTT_MODE_BLOCK_IF_FIFO_FULL) then
      set_active_terminal t;;
      _ ← on_up 0 (_WriteBlocking ac 2); mret 0
    else if decide (_GetAvailWriteSpace r >= 2) then
      set_active_terminal t;;
      on_up 0 (_WriteNoCheck ac 2);; mret 0
    else mret (-1)
  else mret (-1).

(** Switch to terminal [t], write, switch back to the active one. *)
Definition terminal_frame (t active : Z) (s : list Z) (n : Z) : M chan Z :=
  _PostTerminalSwitch t;;
  status ← _WriteBlocking s n;
  _PostTerminalSwitch active;;
  mret status.

Definition SEGGER_RTT_TerminalOut (t : Z) (s : list Z) : M rtt_cb Z :=
  INIT;;
  if decide (t < Z.of_nat (length _aTerminalId)) then
    active ← mgets ActiveTerminal;
    let FragLen := Z.of_nat (length s) in
    on_up 0 (
      r ← mgets rg;
      let avail := _GetAvailWriteSpace r in
      let mode := Z.land (Flags r) SEGGER_RTT_MODE_MASK in
      if decide (mode = SEGGER_RTT_MODE_NO_BLOCK_SKIP) then
        if decide (avail < FragLen + 4) then mret 0
        else terminal_frame t active s FragLen
      else if decide (mode = SEGGER_RTT_MODE_NO_BLOCK_TRIM) then
        if decide (avail < 4) then mret (-1)
        else terminal_frame t active s (if decide (FragLen < avail - 4) then FragLen else avail - 4)
      else if decide (mode = SEGGER_RTT_MODE_BLOCK_IF_FIFO_FULL) then
        terminal_frame t active s FragLen
      else mret (-1))
  else mret (-1).

Definition SEGGER_RTT_GetAvailWriteSpace (i : Z) : M rtt_cb Z :=
  on_up i (r ← mgets rg; mret (_GetAvailWriteSpace r)).

Definition bytes_in_ring (r : ring) : Z :=
  if decide (RdOff r <= WrOff r) then WrOff r - RdOff r
  else u32 (SizeOfBuffer r - u32 (WrOff r - RdOff r)).
Definition SEGGER_RTT_GetBytesInBuffer (i : Z) : M rtt_cb Z :=
  on_up i (r ← mgets rg; mret (bytes_in_ring r)).
