(* ===== verification/RttFacts.v ===== *)
(** * The ring buffers as queues: lemmas on [RttRing.v]

    A well-formed ring is a bounded queue of bytes, [contents], with room for
    one byte less than its size.  The operations are related to the queue; the
    theorems are in [RttProps.v]. *)
From S2P Require Import Prelude RttRing.

(** ** Well-formed rings *)

Definition ring_ok (r : ring) : Prop :=
  ∃ buf, pBuffer r = Some buf ∧ Z.of_nat (length buf) = SizeOfBuffer r ∧
    SizeOfBuffer r < 4294967296 ∧
    0 <= WrOff r < SizeOfBuffer r ∧ 0 <= RdOff r < SizeOfBuffer r.

(** What fits: one byte of the memory stays unused. *)
Definition capacity (r : ring) : Z := SizeOfBuffer r - 1.
Definition used (r : ring) : Z := Z.of_nat (length (contents r)).
Definition room (r : ring) : Z := capacity r - used r.

Definition wrapn (size p : nat) : nat := if decide (p < size)%nat then p else (p - size)%nat.

Lemma wrapn_lt size p : (p < 2 * size)%nat → (wrapn size p < size)%nat.
Proof. unfold wrapn. destruct (decide _); lia. Qed.

Lemma wrapn_small size p : (p < size)%nat → wrapn size p = p.
Proof. intros. unfold wrapn. by rewrite decide_True. Qed.

Lemma wrapn_inj size p q base :
  (base < size)%nat → (p < size)%nat → (q < size)%nat →
  wrapn size (base + p) = wrapn size (base + q) → p = q.
Proof. unfold wrapn. repeat destruct (decide _); lia. Qed.

(** Bytes in use, from the offsets. *)
Definition used_of (size rd wr : nat) : nat :=
  if decide (rd <= wr)%nat then (wr - rd)%nat else (size - rd + wr)%nat.

Lemma contents_length r buf :
  pBuffer r = Some buf → Z.of_nat (length buf) = SizeOfBuffer r →
  0 <= WrOff r < SizeOfBuffer r → 0 <= RdOff r < SizeOfBuffer r →
  length (contents r) =
    used_of (length buf) (Z.to_nat (RdOff r)) (Z.to_nat (WrOff r)).
Proof.
  intros Hb Hl Hw Hr. unfold contents, used_of. rewrite Hb. simpl.
  destruct (decide (RdOff r <= WrOff r)).
  - rewrite decide_True by lia. rewrite length_take, length_drop. lia.
  - rewrite decide_False by lia. rewrite length_app, length_drop, !length_take. lia.
Qed.

Lemma contents_lookup r buf k :
  pBuffer r = Some buf → Z.of_nat (length buf) = SizeOfBuffer r →
  0 <= WrOff r < SizeOfBuffer r → 0 <= RdOff r < SizeOfBuffer r →
  (k < length (contents r))%nat →
  contents r !! k = buf !! wrapn (length buf) (Z.to_nat (RdOff r) + k).
Proof.
  intros Hb Hl Hw Hr Hk. rewrite (contents_length r buf) in Hk by done.
  unfold contents, used_of, wrapn in *. rewrite Hb. simpl.
  destruct (decide (RdOff r <= WrOff r)).
  - rewrite decide_True in Hk by lia. rewrite decide_True by lia.
    rewrite lookup_take_lt by lia. by rewrite lookup_drop.
  - rewrite decide_False in Hk by lia. rewrite take_ge by lia.
    destruct (decide (Z.to_nat (RdOff r) + k < length buf)%nat).
    + rewrite lookup_app_l by (rewrite length_drop; lia). by rewrite lookup_drop.
    + rewrite lookup_app_r by (rewrite length_drop; lia).
      rewrite length_drop, lookup_take_lt by lia. f_equal. lia.
Qed.

Lemma ring_ok_used r : ring_ok r → 0 <= used r <= capacity r.
Proof.
  intros (buf & Hb & Hl & Hs & Hw & Hr). unfold used, capacity.
  rewrite (contents_length r buf) by done. unfold used_of. destruct (decide _); lia.
Qed.

Lemma avail_room r : ring_ok r → _GetAvailWriteSpace r = room r.
Proof.
  intros (buf & Hb & Hl & Hs & Hw & Hr). unfold _GetAvailWriteSpace, room, capacity, used.
  rewrite (contents_length r buf) by done. unfold used_of.
  destruct (decide (RdOff r <= WrOff r)).
  - rewrite decide_True by lia. rewrite u32_id by (unfold is_u32; lia). lia.
  - rewrite decide_False by lia. rewrite u32_id by (unfold is_u32; lia). lia.
Qed.

(** ** Stores *)

Lemma blit_lookup off src buf buf' j :
  blit off src buf = Some buf' →
  buf' !! j = if decide (Z.to_nat off ≤ j < Z.to_nat off + length src)%nat
              then src !! (j - Z.to_nat off)%nat else buf !! j.
Proof.
  unfold blit. intros H. case_decide as Hd; [|done]. injection H as <-.
  destruct (decide (j < Z.to_nat off)%nat).
  { rewrite decide_False by lia. rewrite lookup_app_l by (rewrite length_take; lia).
    by rewrite lookup_take_lt. }
  rewrite lookup_app_r by (rewrite length_take; lia).
  rewrite length_take. replace (Z.to_nat off `min` length buf)%nat with (Z.to_nat off) by lia.
  destruct (decide (j < Z.to_nat off + length src)%nat).
  - rewrite decide_True by lia. by rewrite lookup_app_l by lia.
  - rewrite decide_False by lia. rewrite lookup_app_r by lia. rewrite lookup_drop. f_equal. lia.
Qed.

Lemma blit_length off src buf buf' : blit off src buf = Some buf' → length buf' = length buf.
Proof.
  unfold blit. intros H. case_decide; [|done]. injection H as <-.
  rewrite !length_app, length_take, length_drop. lia.
Qed.

Lemma blit_ok off src buf :
  0 <= off → off + Z.of_nat (length src) <= Z.of_nat (length buf) →
  ∃ buf', blit off src buf = Some buf'.
Proof. intros. unfold blit. rewrite decide_True by done. by eexists. Qed.

(** Memory [buf'] is [buf] with the bytes [src] written from position [wr] on,
    around the end. *)
Definition wrote (buf buf' : list Z) (wr : nat) (src : list Z) : Prop :=
  length buf' = length buf ∧
  (∀ j, (j < length src)%nat → buf' !! wrapn (length buf) (wr + j) = src !! j) ∧
  (∀ p, (∀ j, (j < length src)%nat → p ≠ wrapn (length buf) (wr + j)) → buf' !! p = buf !! p).

Lemma wrote_nil buf wr : wrote buf buf wr [].
Proof. split_and!; [done| |done]. simpl. lia. Qed.

(** One chunk that does not pass the end. *)
Lemma wrote_blit buf wr src buf' :
  blit (Z.of_nat wr) src buf = Some buf' → (wr + length src ≤ length buf)%nat →
  wrote buf buf' wr src.
Proof.
  intros H Hl. split_and!; [by eapply blit_length| |].
  - intros j Hj. rewrite (wrapn_small _ (wr + j)) by lia.
    rewrite (blit_lookup _ _ _ _ _ H), Nat2Z.id. rewrite decide_True by lia. f_equal. lia.
  - intros p Hp. rewrite (blit_lookup _ _ _ _ _ H), Nat2Z.id.
    rewrite decide_False; [done|]. intros Hin. apply (Hp (p - wr)%nat); [lia|].
    rewrite wrapn_small; lia.
Qed.

(** Two chunks, one after the other. *)
Lemma wrote_app buf buf1 buf2 wr src1 src2 :
  (wr < length buf)%nat → (length src1 + length src2 < length buf)%nat →
  wrote buf buf1 wr src1 → wrote buf1 buf2 (wrapn (length buf) (wr + length src1)) src2 →
  wrote buf buf2 wr (src1 ++ src2).
Proof.
  intros Hw Hl (H1 & H2 & H3) (H4 & H5 & H6). rewrite H1 in *.
  assert (Hwrap : ∀ j, (j < length src2)%nat →
    wrapn (length buf) (wrapn (length buf) (wr + length src1) + j) =
    wrapn (length buf) (wr + (length src1 + j))).
  { intros j Hj. unfold wrapn. repeat destruct (decide _); lia. }
  split_and!; [congruence| |].
  - intros j Hj. rewrite length_app in Hj. destruct (decide (j < length src1)%nat) as [Hlt|Hge].
    + rewrite lookup_app_l by done. rewrite H6; [by apply H2|].
      intros i Hi. rewrite Hwrap by done. intros E.
      apply wrapn_inj in E; lia.
    + rewrite lookup_app_r by lia. rewrite <-H5 by lia. rewrite Hwrap by lia. do 2 f_equal. lia.
  - intros p Hp. rewrite length_app in Hp. rewrite H6, H3; [done| |].
    + intros j Hj. apply Hp. lia.
    + intros j Hj. rewrite Hwrap by done. apply Hp. lia.
Qed.

(** Writing behind the last byte and moving the write offset appends. *)
Lemma contents_append r buf buf' src wr' :
  ring_ok r → pBuffer r = Some buf →
  wrote buf buf' (Z.to_nat (WrOff r)) src → Z.of_nat (length src) <= room r →
  wr' = Z.of_nat (wrapn (length buf) (Z.to_nat (WrOff r) + length src)) →
  let r' := mk_ring (sName r) (Some buf') (SizeOfBuffer r) wr' (RdOff r) (Flags r) in
  ring_ok r' ∧ contents r' = contents r ++ src.
Proof.
  intros Hok Hb (Hlen & Hin & Hout) Hroom -> r'. pose proof Hok as (b & Hb' & Hl & Hs & Hw & Hr).
  rewrite Hb in Hb'. injection Hb' as <-.
  pose proof (ring_ok_used r Hok) as Hu. unfold room, capacity, used in *.
  pose proof (contents_length r buf Hb Hl Hw Hr) as Hc. rewrite Hc in *.
  assert (Hwr : (wrapn (length buf) (Z.to_nat (WrOff r) + length src) < length buf)%nat).
  { apply wrapn_lt. lia. }
  assert (Hok' : ring_ok r').
  { exists buf'. subst r'. simpl. split_and!; try done; lia. }
  split; [done|]. pose proof Hok' as (b & Hb'' & Hl' & _ & Hw' & Hr'). subst r'. simpl in *.
  injection Hb'' as <-.
  assert (Hc' : length (contents (mk_ring (sName r) (Some buf') (SizeOfBuffer r)
     (Z.of_nat (wrapn (length buf) (Z.to_nat (WrOff r) + length src))) (RdOff r) (Flags r)))
     = (length (contents r) + length src)%nat).
  { rewrite (contents_length _ buf'), Hc by done. simpl. rewrite Hlen, Nat2Z.id.
    unfold used_of, wrapn in *. repeat destruct (decide _); lia. }
  apply (list_eq_same_length _ _ (length (contents r) + length src)); [by rewrite length_app|done|].
  intros k x y Hk Hx Hy. rewrite (contents_lookup _ buf') in Hx by (try done; lia).
  simpl in Hx. rewrite Hlen in Hx.
  destruct (decide (k < length (contents r))%nat) as [Hlt|Hge].
  - rewrite lookup_app_l in Hy by done. rewrite (contents_lookup r buf) in Hy by done.
    rewrite Hout in Hx; [congruence|]. intros j Hj. rewrite Hc in Hlt.
    unfold used_of, wrapn in *. repeat destruct (decide _); lia.
  - rewrite lookup_app_r in Hy by lia. rewrite <-Hin in Hy by lia.
    replace (wrapn (length buf) (Z.to_nat (RdOff r) + k)) with
      (wrapn (length buf) (Z.to_nat (WrOff r) + (k - length (contents r)))) in Hx; [congruence|].
    rewrite Hc in *. unfold used_of, wrapn in *. repeat destruct (decide _); lia.
Qed.

(** [r'] is [r] with [src] written behind its contents. *)
Definition extends (r : ring) (src : list Z) (r' : ring) : Prop :=
  ∃ buf buf', pBuffer r = Some buf ∧ wrote buf buf' (Z.to_nat (WrOff r)) src ∧
    r' = mk_ring (sName r) (Some buf') (SizeOfBuffer r)
           (Z.of_nat (wrapn (length buf) (Z.to_nat (WrOff r) + length src))) (RdOff r) (Flags r).

Lemma extends_contents r src r' :
  ring_ok r → extends r src r' → Z.of_nat (length src) <= room r →
  ring_ok r' ∧ contents r' = contents r ++ src.
Proof. intros Hok (buf & buf' & Hb & Hw & ->) Hr. by apply (contents_append r buf). Qed.

Lemma wrote_unique buf b1 b2 wr src :
  wrote buf b1 wr src → wrote buf b2 wr src → (wr < length buf)%nat →
  (length src ≤ length buf)%nat → b1 = b2.
Proof.
  intros (H1 & H2 & H3) (H4 & H5 & H6) Hwr Hl.
  apply list_eq_same_length with (n := length buf); [done|done|]. intros p x y Hp Hx Hy.
  set (j := if decide (wr ≤ p)%nat then (p - wr)%nat else (p + length buf - wr)%nat).
  assert (Hpj : p = wrapn (length buf) (wr + j)).
  { unfold wrapn, j. repeat destruct (decide _); lia. }
  assert (Hj : (j < length buf)%nat) by (unfold j; destruct (decide _); lia).
  destruct (decide (j < length src)%nat) as [Hlt|Hge].
  - rewrite Hpj, H2 in Hx by done. rewrite Hpj, H5 in Hy by done. congruence.
  - assert (∀ i, (i < length src)%nat → p ≠ wrapn (length buf) (wr + i)) as Hne.
    { intros i Hi E. rewrite Hpj in E. apply wrapn_inj in E; lia. }
    rewrite H3 in Hx by done. rewrite H6 in Hy by done. congruence.
Qed.

Lemma extends_unique r src r1 r2 :
  ring_ok r → Z.of_nat (length src) <= room r →
  extends r src r1 → extends r src r2 → r1 = r2.
Proof.
  intros Hok Hr (buf & b1 & Hb & Hw1 & ->) (buf2 & b2 & Hb2 & Hw2 & ->).
  rewrite Hb in Hb2. injection Hb2 as <-. pose proof (ring_ok_used r Hok) as Hu.
  destruct Hok as (buf2 & Hb2 & Hl & _ & Hwr & _). rewrite Hb in Hb2. injection Hb2 as <-.
  unfold room, capacity in *. by rewrite (wrote_unique buf b1 b2 _ src) by (done || lia).
Qed.

Lemma store_ok c buf off n src :
  pBuffer (rg c) = Some buf → 0 <= off → 0 <= n <= Z.of_nat (length src) →
  off + n <= Z.of_nat (length buf) →
  ∃ buf', blit off (take (Z.to_nat n) src) buf = Some buf' ∧
    store off n src c = Ok tt (mk_chan (mk_ring (sName (rg c)) (Some buf') (SizeOfBuffer (rg c))
      (WrOff (rg c)) (RdOff (rg c)) (Flags (rg c))) (host c)).
Proof.
  intros Hb Ho Hn Hl. destruct (blit_ok off (take (Z.to_nat n) src) buf) as [buf' Hbl];
    [done|rewrite length_take; lia|].
  exists buf'. split; [done|]. unfold store, ring_store, fetch_bytes, mget, mlift, mbind, M_bind.
  rewrite decide_True by done. simpl. rewrite Hb. simpl. by rewrite Hbl.
Qed.

(** One chunk, then the write offset. *)
Lemma write_once c buf n src wr' :
  ring_ok (rg c) → pBuffer (rg c) = Some buf → 0 <= n <= Z.of_nat (length src) →
  WrOff (rg c) + n <= SizeOfBuffer (rg c) →
  wr' = Z.of_nat (wrapn (length buf) (Z.to_nat (WrOff (rg c)) + Z.to_nat n)) →
  ∃ r', (store (WrOff (rg c)) n src;; on_rg (set_WrOff wr')) c = Ok tt (mk_chan r' (host c)) ∧
        extends (rg c) (take (Z.to_nat n) src) r'.
Proof.
  intros (b & Hb' & Hl & Hs & Hw & Hr) Hb Hn Hfit ->. rewrite Hb in Hb'. injection Hb' as <-.
  destruct (store_ok c buf (WrOff (rg c)) n src) as (buf' & Hbl & Hst); [done|lia..|].
  eexists. split; [unfold mbind, M_bind; rewrite Hst; reflexivity|].
  exists buf, buf'. split_and!; [done| |].
  - rewrite <-(Z2Nat.id (WrOff (rg c))) in Hbl by lia. apply wrote_blit; [done|].
    rewrite length_take. lia.
  - rewrite length_take. unfold set_WrOff. simpl. do 3 f_equal. lia.
Qed.

(** Two chunks around the end, then the write offset. *)
Lemma write_twice c buf n src :
  ring_ok (rg c) → pBuffer (rg c) = Some buf → 0 <= n <= Z.of_nat (length src) →
  SizeOfBuffer (rg c) - WrOff (rg c) <= n → n < SizeOfBuffer (rg c) →
  let rem := SizeOfBuffer (rg c) - WrOff (rg c) in
  ∃ r', (store (WrOff (rg c)) rem src;; store 0 (n - rem) (drop (Z.to_nat rem) src);;
         on_rg (set_WrOff (n - rem))) c = Ok tt (mk_chan r' (host c)) ∧
        extends (rg c) (take (Z.to_nat n) src) r'.
Proof.
  intros (b & Hb' & Hl & Hs & Hw & Hr) Hb Hn Hge Hlt rem. rewrite Hb in Hb'. injection Hb' as <-.
  destruct (store_ok c buf (WrOff (rg c)) rem src) as (buf1 & Hbl1 & Hst1); [done|unfold rem; lia..|].
  pose proof (blit_length _ _ _ _ Hbl1) as Hlen1.
  match type of Hst1 with _ = Ok tt ?c1 =>
    destruct (store_ok c1 buf1 0 (n - rem) (drop (Z.to_nat rem) src)) as (buf2 & Hbl2 & Hst2);
      [done|lia|rewrite length_drop; unfold rem; lia|unfold rem; lia|]
  end.
  eexists. split; [unfold mbind, M_bind; rewrite Hst1; rewrite Hst2; reflexivity|].
  assert (Hsplit : take (Z.to_nat n) src =
    take (Z.to_nat rem) src ++ take (Z.to_nat (n - rem)) (drop (Z.to_nat rem) src)).
  { rewrite take_drop_commute. replace (Z.to_nat rem + Z.to_nat (n - rem))%nat with (Z.to_nat n) by (unfold rem; lia).
    rewrite <-(take_drop (Z.to_nat rem) (take (Z.to_nat n) src)) at 1. f_equal.
    rewrite take_take. f_equal. unfold rem. lia. }
  exists buf, buf2. split_and!; [done| |].
  - rewrite Hsplit. apply (wrote_app _ buf1).
    + unfold rem in *. lia.
    + rewrite !length_take, length_drop. unfold rem in *. lia.
    + rewrite <-(Z2Nat.id (WrOff (rg c))) in Hbl1 by lia. apply wrote_blit; [done|].
      rewrite length_take. unfold rem in *. lia.
    + assert (wrapn (length buf) (Z.to_nat (WrOff (rg c)) + length (take (Z.to_nat rem) src)) = O) as ->.
      { rewrite length_take. unfold wrapn, rem in *. destruct (decide _); lia. }
      apply wrote_blit; [done|]. rewrite length_take, length_drop. unfold rem in *. lia.
  - unfold set_WrOff. simpl. f_equal. rewrite length_take. unfold wrapn, rem in *.
    destruct (decide _); lia.
Qed.

Lemma write_no_check_spec c src n :
  ring_ok (rg c) → 0 <= n <= room (rg c) → n <= Z.of_nat (length src) →
  ∃ r', _WriteNoCheck src n c = Ok tt (mk_chan r' (host c)) ∧
        extends (rg c) (take (Z.to_nat n) src) r'.
Proof.
  intros Hok Hn Hsrc. pose proof Hok as (buf & Hb & Hl & Hs & Hw & Hr).
  pose proof (ring_ok_used _ Hok) as Hu. unfold room, capacity in *.
  unfold _WriteNoCheck. unfold mgets at 1 2, mbind at 1 2, M_bind at 1 2.
  rewrite (u32_id (SizeOfBuffer (rg c) - WrOff (rg c))) by (unfold is_u32; lia).
  destruct (decide (SizeOfBuffer (rg c) - WrOff (rg c) > n)) as [Hgt|Hle].
  - apply (write_once c buf); [done..|lia|lia|].
    rewrite u32_id by (unfold is_u32; lia). unfold wrapn. rewrite decide_True by lia. lia.
  - rewrite (u32_id (n - _)) by (unfold is_u32; lia).
    apply (write_twice c buf); [done..|lia|lia|lia].
Qed.

Lemma write_skip_spec c src n :
  ring_ok (rg c) → 0 <= n < 4294967296 → n <= Z.of_nat (length src) →
  ∃ r', write_skip src n c = Ok (if decide (n <= room (rg c)) then 1 else 0) (mk_chan r' (host c)) ∧
    (n <= room (rg c) → extends (rg c) (take (Z.to_nat n) src) r') ∧
    (room (rg c) < n → r' = rg c).
Proof.
  intros Hok Hn Hsrc. pose proof Hok as (buf & Hb & Hl & Hs & Hw & Hr).
  pose proof (ring_ok_used _ Hok) as Hu.
  assert (Hroom : room (rg c) = if decide (RdOff (rg c) <= WrOff (rg c))
    then SizeOfBuffer (rg c) - 1 - (WrOff (rg c) - RdOff (rg c))
    else RdOff (rg c) - WrOff (rg c) - 1).
  { rewrite <-avail_room by done. unfold _GetAvailWriteSpace.
    destruct (decide _); rewrite u32_id by (unfold is_u32; lia); lia. }
  assert (Hret : ∀ (m : M chan unit) r', m c = Ok tt (mk_chan r' (host c)) →
    (m;; mret 1) c = Ok 1 (mk_chan r' (host c))) by (intros m r' E; unfold mbind, M_bind; by rewrite E).
  assert (Hassoc : ∀ (m m' : M chan unit), (m;; m';; mret 1) c = ((m;; m');; mret 1) c).
  { intros m m'. unfold mbind, M_bind. by destruct (m c). }
  assert (Hassoc3 : ∀ (m m' m'' : M chan unit), (m;; m';; m'';; mret 1) c = ((m;; m';; m'');; mret 1) c).
  { intros m m' m''. unfold mbind, M_bind. destruct (m c) as [[] s|]; [by destruct (m' s)|done]. }
  unfold write_skip. unfold mgets at 1 2 3, mbind at 1 2 3, M_bind at 1 2 3.
  destruct (decide (RdOff (rg c) <= WrOff (rg c))) as [Hle|Hgt].
  - rewrite (u32_id (SizeOfBuffer (rg c) - WrOff (rg c) - 1)) by (unfold is_u32; lia).
    destruct (decide (SizeOfBuffer (rg c) - WrOff (rg c) - 1 >= n)) as [Hfit|Hnofit].
    + rewrite (decide_True (P := n <= room (rg c))) by lia. rewrite Hassoc.
      destruct (write_once c buf n src (u32 (WrOff (rg c) + n))) as (r' & E & He); [done..|lia|lia| |].
      { rewrite u32_id by (unfold is_u32; lia). rewrite wrapn_small by lia. lia. }
      exists r'. split_and!; [by apply Hret|done|lia].
    + rewrite (u32_id (_ + RdOff (rg c))) by (unfold is_u32; lia).
      destruct (decide (SizeOfBuffer (rg c) - WrOff (rg c) - 1 + RdOff (rg c) >= n)) as [Hfit|Hfull].
      * rewrite (decide_True (P := n <= room (rg c))) by lia.
        rewrite (u32_id (SizeOfBuffer (rg c) - WrOff (rg c))) by (unfold is_u32; lia).
        rewrite (u32_id (n - _)) by (unfold is_u32; lia).
        destruct (decide (n - (SizeOfBuffer (rg c) - WrOff (rg c)) ≠ 0)) as [Hne|He0].
        -- rewrite Hassoc3. destruct (write_twice c buf n src) as (r' & E & He); [done..|lia|lia|lia|].
           exists r'. split_and!; [by apply Hret|done|lia].
        -- destruct (write_once c buf n src 0) as (r' & E & He); [done..|lia|lia| |].
           { unfold wrapn. destruct (decide _); lia. }
           exists r'. split_and!; [|done|lia]. apply Hret in E.
           replace (SizeOfBuffer (rg c) - WrOff (rg c)) with n by lia.
           rewrite Z.sub_diag. rewrite <-E. unfold mbind, M_bind, mret, M_ret.
           by destruct (store _ _ _ _).
      * rewrite (decide_False (P := n <= room (rg c))) by lia. exists (rg c). split_and!; [by destruct c|lia|done].
  - rewrite (u32_id (RdOff (rg c) - WrOff (rg c) - 1)) by (unfold is_u32; lia).
    destruct (decide (RdOff (rg c) - WrOff (rg c) - 1 >= n)) as [Hfit|Hfull].
    + rewrite (decide_True (P := n <= room (rg c))) by lia. rewrite Hassoc.
      destruct (write_once c buf n src (u32 (WrOff (rg c) + n))) as (r' & E & He); [done..|lia|lia| |].
      { rewrite u32_id by (unfold is_u32; lia). rewrite wrapn_small by lia. lia. }
      exists r'. split_and!; [by apply Hret|done|lia].
    + rewrite (decide_False (P := n <= room (rg c))) by lia. exists (rg c). split_and!; [by destruct c|lia|done].
Qed.

(** ** The host *)

Lemma contents_set_RdOff r k :
  ring_ok r → (k ≤ length (contents r))%nat →
  let p := RdOff r + Z.of_nat k in
  let r' := set_RdOff (if decide (p >= SizeOfBuffer r) then p - SizeOfBuffer r else p) r in
  ring_ok r' ∧ contents r' = drop k (contents r).
Proof.
  intros Hok Hk p r'. pose proof Hok as (buf & Hb & Hl & Hs & Hw & Hr).
  pose proof (contents_length r buf Hb Hl Hw Hr) as Hc. rewrite Hc in Hk.
  assert (Hrd : RdOff r' = Z.of_nat (wrapn (length buf) (Z.to_nat (RdOff r) + k))).
  { subst r' p. simpl. unfold wrapn, used_of in *. repeat destruct (decide _); lia. }
  assert (Hr' : 0 <= RdOff r' < SizeOfBuffer r).
  { rewrite Hrd. pose proof (wrapn_lt (length buf) (Z.to_nat (RdOff r) + k)).
    unfold used_of in Hk. destruct (decide _); lia. }
  assert (Hok' : ring_ok r') by (by exists buf). split; [done|].
  assert (Hc' : length (contents r') = (length (contents r) - k)%nat).
  { rewrite (contents_length r' buf), Hc by done. rewrite Hrd, Nat2Z.id. subst r' p. simpl in *.
    unfold wrapn, used_of in *. repeat destruct (decide _); lia. }
  apply (list_eq_same_length _ _ (length (contents r) - k)); [by rewrite length_drop|done|].
  intros i x y Hi Hx Hy. rewrite lookup_drop in Hy.
  rewrite (contents_lookup r buf) in Hy by (done || lia).
  rewrite (contents_lookup r' buf) in Hx by (done || lia). rewrite Hrd, Nat2Z.id in Hx.
  replace (wrapn (length buf) (wrapn (length buf) (Z.to_nat (RdOff r) + k) + i)) with
    (wrapn (length buf) (Z.to_nat (RdOff r) + (k + i))) in Hx; [congruence|].
  rewrite Hc in Hi. unfold wrapn, used_of in *. repeat destruct (decide _); lia.
Qed.

Definition same_shape (r r' : ring) : Prop :=
  SizeOfBuffer r' = SizeOfBuffer r ∧ Flags r' = Flags r ∧ sName r' = sName r.

Lemma host_take_spec n r :
  ring_ok r → ∃ k, contents (host_take n r) = drop k (contents r) ∧
    (k ≤ length (contents r))%nat ∧ (1 <= n → contents r ≠ [] → (1 ≤ k)%nat) ∧
    ring_ok (host_take n r) ∧ same_shape r (host_take n r) ∧ WrOff (host_take n r) = WrOff r.
Proof.
  intros Hok. set (k := Z.to_nat (Z.max 0 (Z.min n (Z.of_nat (length (contents r)))))).
  exists k. destruct (contents_set_RdOff r k Hok) as [Hok' Hc]; [unfold k; lia|].
  assert (host_take n r = set_RdOff (if decide (RdOff r + Z.of_nat k >= SizeOfBuffer r)
    then RdOff r + Z.of_nat k - SizeOfBuffer r else RdOff r + Z.of_nat k) r) as ->.
  { unfold host_take, k. rewrite Z2Nat.id by lia. done. }
  split_and!; try done; [unfold k; lia|].
  intros Hn Hne. destruct (contents r); [done|]. unfold k. simpl. lia.
Qed.

(** ** Blocking writes *)

(** [n] bytes can be written for certain: there is room for them, or the host
    takes something each time it is waited for, often enough. *)
Definition supply (c : chan) (n : Z) : Prop :=
  n <= room (rg c) ∨
  (1 <= capacity (rg c) ∧ Forall (λ k, 1 <= k) (host c) ∧ n <= Z.of_nat (length (host c))).

(** [c'] comes from [c] by writing [src] while the host took [out]. *)
Definition streamed (c : chan) (src : list Z) (c' : chan) : Prop :=
  ring_ok (rg c') ∧ same_shape (rg c) (rg c') ∧
  ∃ out, out ++ contents (rg c') = contents (rg c) ++ src.

Lemma streamed_refl c : ring_ok (rg c) → streamed c [] c.
Proof. intros. split_and!; [done..|]. exists []. by rewrite app_nil_r. Qed.

Lemma streamed_trans c1 c2 c3 s1 s2 :
  streamed c1 s1 c2 → streamed c2 s2 c3 → streamed c1 (s1 ++ s2) c3.
Proof.
  intros (H1 & (H2 & H3 & H4) & out1 & H5) (H6 & (H7 & H8 & H9) & out2 & H10).
  split_and!; [done|split_and!; congruence|]. exists (out1 ++ out2).
  by rewrite <-app_assoc, H10, app_assoc, H5, app_assoc.
Qed.

Lemma same_shape_capacity r r' : same_shape r r' → capacity r' = capacity r.
Proof. intros (H & _). unfold capacity. by rewrite H. Qed.

(** A host move before a read of [RdOff]. *)
Lemma read_RdOff_spec c :
  ring_ok (rg c) →
  ∃ c1, read_RdOff c = Ok (RdOff (rg c1)) c1 ∧ streamed c [] c1 ∧
    WrOff (rg c1) = WrOff (rg c) ∧ host c1 = tail (host c) ∧ room (rg c) <= room (rg c1) ∧
    (∀ n, 0 < n → supply c n → 1 <= room (rg c1)).
Proof.
  intros Hok. destruct c as [r [|a h]]; unfold read_RdOff, mget, mput, mbind, M_bind; simpl in *.
  - exists (mk_chan r []). split_and!; try done; [by apply streamed_refl|].
    unfold supply. cbn [rg host length]. intros n Hn [Hs|(_ & _ & Hs)]; lia.
  - destruct (host_take_spec a r Hok) as (k & Hc & Hk & Hk1 & Hok' & Hsh & Hw).
    exists (mk_chan (host_take a r) h). simpl.
    assert (Hroom : room (host_take a r) = room r + Z.of_nat k).
    { unfold room, used. rewrite (same_shape_capacity _ _ Hsh), Hc, length_drop. lia. }
    split_and!; try done; [|lia|].
    + split_and!; [done..|]. exists (take k (contents r)). simpl.
      by rewrite app_nil_r, Hc, take_drop.
    + unfold supply. cbn [rg host length]. intros n Hn [Hs|(Hcap & Hf & Hs)]; [lia|].
      apply Forall_cons in Hf as [Ha _]. destruct (contents r) as [|x l] eqn:E.
      * unfold room, used in *. rewrite E in *. simpl in *. lia.
      * pose proof (ring_ok_used r Hok). unfold room in *. specialize (Hk1 Ha ltac:(done)). lia.
Qed.

(** What [_WriteBlocking] computes as the room. *)
Lemma block_room r :
  ring_ok r →
  (if decide (RdOff r > WrOff r) then u32 (RdOff r - WrOff r - 1)
   else u32 (SizeOfBuffer r - u32 (WrOff r - RdOff r + 1))) = room r.
Proof.
  intros Hok. rewrite <-avail_room by done. destruct Hok as (buf & Hb & Hl & Hs & Hw & Hr).
  unfold _GetAvailWriteSpace. destruct (decide (RdOff r > WrOff r)).
  - by rewrite decide_False by lia.
  - rewrite decide_True by lia. rewrite (u32_id (WrOff r - RdOff r + 1)) by (unfold is_u32; lia).
    f_equal. lia.
Qed.

Lemma streamed_extends c r' h src :
  ring_ok (rg c) → Z.of_nat (length src) <= room (rg c) → extends (rg c) src r' →
  streamed c src (mk_chan r' h) ∧ room r' = room (rg c) - Z.of_nat (length src).
Proof.
  intros Hok Hr He. destruct (extends_contents _ _ _ Hok He Hr) as [Hok' Hc].
  assert (Hsh : same_shape (rg c) r') by (destruct He as (b & b' & _ & _ & ->); done).
  split.
  - split_and!; [done..|]. exists []. cbn [rg]. by rewrite Hc.
  - unfold room, used. rewrite Hc, length_app, (same_shape_capacity _ _ Hsh). lia.
Qed.

Lemma write_blocking_loop_spec fuel : ∀ c src n w,
  ring_ok (rg c) → 0 <= n <= Z.of_nat (length src) → 0 <= w → w + n < 4294967296 →
  supply c n → (Z.to_nat n < fuel)%nat →
  ∃ c', write_blocking_loop fuel src n w (WrOff (rg c)) c = Ok (w + n) c' ∧
    streamed c (take (Z.to_nat n) src) c' ∧ ∃ j, host c' = drop j (host c) ∧ Z.of_nat j <= Z.max 1 n.
Proof.
  induction fuel as [|fuel IH]; intros c src n w Hok Hn Hw0 Hwn Hsup Hfuel; [lia|].
  cbn [write_blocking_loop]. unfold mbind at 1, M_bind at 1.
  destruct (read_RdOff_spec c Hok) as (c1 & -> & Hst1 & Hwr1 & Hh1 & Hroom1 & Hpos).
  unfold mgets, mbind at 1, M_bind at 1.
  pose proof Hst1 as (Hok1 & Hsh1 & _). pose proof Hok1 as (buf & Hb & Hl & Hs & Hw & Hr).
  rewrite <-Hwr1. rewrite (block_room _ Hok1).
  rewrite (u32_id (SizeOfBuffer (rg c1) - WrOff (rg c1))) by (unfold is_u32; lia).
  set (m := Z.min _ n). pose proof (ring_ok_used _ Hok1) as Hu.
  assert (Hm : 0 <= m <= room (rg c1) ∧ m <= SizeOfBuffer (rg c1) - WrOff (rg c1) ∧ m <= n).
  { unfold m, room, capacity in *. lia. }
  assert (Hprog : 0 < n → 1 <= m).
  { intros Hn0. specialize (Hpos n Hn0 Hsup). unfold m. lia. }
  rewrite (u32_id (w + m)), (u32_id (n - m)) by (unfold is_u32; lia).
  rewrite (u32_id (WrOff (rg c1) + m)) by (unfold is_u32, room, capacity in *; lia).
  set (wr' := if decide (WrOff (rg c1) + m = SizeOfBuffer (rg c1)) then 0 else WrOff (rg c1) + m).
  destruct (write_once c1 buf m src wr') as (r2 & E2 & He2); [done..|lia|lia| |].
  { unfold wr', wrapn. repeat destruct (decide _); lia. }
  destruct (streamed_extends c1 r2 (host c1) (take (Z.to_nat m) src) Hok1 ltac:(rewrite length_take; lia) He2) as [Hst2 Hroom2].
  rewrite length_take in Hroom2.
  assert (Hwr2 : WrOff r2 = wr').
  { destruct He2 as (b & b' & Hb' & _ & ->). rewrite Hb in Hb'. injection Hb' as <-. simpl.
    rewrite length_take. unfold wr', wrapn. repeat destruct (decide _); lia. }
  unfold mbind, M_bind in E2 |- *. destruct (store (WrOff (rg c1)) m src c1) as [[] c1'|]; [|done].
  simpl in E2 |- *. unfold on_rg, mmodify in E2 |- *. injection E2 as E2r E2h.
  destruct (decide (n - m = 0)) as [Hdone|Hmore].
  - exists (mk_chan r2 (host c1)). split_and!.
    + unfold mret, M_ret. rewrite E2r, E2h. f_equal. lia.
    + replace n with m by lia. by apply (streamed_trans c c1 _ [] _).
    + exists 1%nat. split; [by rewrite Hh1; destruct (host c)|lia].
  - assert (Hs2 : supply (mk_chan r2 (host c1)) (n - m)).
    { destruct Hsup as [Hsup|(Hcap & Hf & Hlen)]; [left; simpl; lia|right]. simpl.
      destruct (host c) as [|a h] eqn:E; [simpl in Hlen; lia|]. simpl in *. rewrite Hh1.
      apply Forall_cons in Hf as [_ Hf]. split_and!; [|done|lia].
      destruct Hst2 as (_ & (HS2 & _) & _). destruct Hsh1 as (HS1 & _).
      unfold capacity in *. simpl in HS2. lia. }
    destruct (IH (mk_chan r2 (host c1)) (drop (Z.to_nat m) src) (n - m) (w + m))
      as (c' & E & Hst & j & Hj & Hjn); simpl; try done; try lia.
    { apply Hst2. }
    { rewrite length_drop. lia. }
    exists c'. split_and!.
    + rewrite <-E2r, <-E2h in E. simpl in E.
      replace (w + n) with (w + m + (n - m)) by lia. rewrite <-E. f_equal; try congruence.
    + assert (take (Z.to_nat n) src = take (Z.to_nat m) src ++ take (Z.to_nat (n - m)) (drop (Z.to_nat m) src)) as ->.
      { rewrite take_drop_commute. replace (Z.to_nat m + Z.to_nat (n - m))%nat with (Z.to_nat n) by lia.
        rewrite <-(take_drop (Z.to_nat m) (take (Z.to_nat n) src)) at 1. f_equal.
        rewrite take_take. f_equal. lia. }
      apply (streamed_trans c c1 c' []); [done|]. by eapply streamed_trans.
    + exists (S j). split; [|lia]. rewrite Hj. simpl. rewrite Hh1. destruct (host c); simpl; by rewrite ?drop_nil.
Qed.

Lemma write_blocking_spec c src n :
  ring_ok (rg c) → 0 <= n <= Z.of_nat (length src) → n < 4294967296 → supply c n →
  ∃ c', _WriteBlocking src n c = Ok n c' ∧ streamed c (take (Z.to_nat n) src) c' ∧
    ∃ j, host c' = drop j (host c) ∧ Z.of_nat j <= Z.max 1 n.
Proof.
  intros Hok Hn Hn32 Hs. unfold _WriteBlocking, mget, mbind, M_bind.
  replace n with (0 + n) at 2 by lia. apply write_blocking_loop_spec; try done; lia.
Qed.

(** The room after a stream: what the host took is at least made up for. *)
Lemma streamed_room c src c' :
  streamed c src c' → room (rg c) - Z.of_nat (length src) <= room (rg c').
Proof.
  intros (_ & Hsh & out & E). unfold room, used. rewrite (same_shape_capacity _ _ Hsh).
  apply (f_equal length) in E. rewrite !length_app in E. lia.
Qed.

(** ** One character *)

Lemma next_wr_full r buf :
  ring_ok r → pBuffer r = Some buf →
  (Z.of_nat (wrapn (length buf) (Z.to_nat (WrOff r) + 1)) = RdOff r ↔ room r = 0).
Proof.
  intros Hok Hb. pose proof Hok as (b & Hb' & Hl & Hs & Hw & Hr).
  rewrite Hb in Hb'. injection Hb' as <-. rewrite <-(avail_room r Hok).
  unfold _GetAvailWriteSpace, wrapn.
  destruct (decide (RdOff r <= WrOff r)); rewrite u32_id by (unfold is_u32; lia);
    destruct (decide _); lia.
Qed.

Lemma next_wr' r buf :
  ring_ok r → pBuffer r = Some buf →
  (if decide (u32 (WrOff r + 1) = SizeOfBuffer r) then 0 else u32 (WrOff r + 1)) =
  Z.of_nat (wrapn (length buf) (Z.to_nat (WrOff r) + 1)).
Proof.
  intros (b & Hb' & Hl & Hs & Hw & Hr) Hb. rewrite Hb in Hb'. injection Hb' as <-.
  rewrite u32_id by (unfold is_u32; lia). unfold wrapn. repeat destruct (decide _); lia.
Qed.

(** The store of one character, when the next offset is not the host's. *)
Lemma put_tail c ch :
  ring_ok (rg c) →
  let wr := if decide (u32 (WrOff (rg c) + 1) = SizeOfBuffer (rg c)) then 0
            else u32 (WrOff (rg c) + 1) in
  ∃ r', (if decide (wr ≠ RdOff (rg c)) then
           store (WrOff (rg c)) 1 [ch];; on_rg (set_WrOff wr);; mret 1
         else mret 0) c = Ok (if decide (1 <= room (rg c)) then 1 else 0) (mk_chan r' (host c)) ∧
    (1 <= room (rg c) → extends (rg c) [ch] r') ∧ (room (rg c) < 1 → r' = rg c).
Proof.
  intros Hok wr. pose proof Hok as (buf & Hb & Hl & Hs & Hw & Hr).
  pose proof (next_wr_full _ buf Hok Hb) as Hfull. rewrite <-(next_wr' _ buf Hok Hb) in Hfull.
  fold wr in Hfull. pose proof (ring_ok_used _ Hok) as Hu.
  destruct (decide (wr ≠ RdOff (rg c))) as [Hne|Heq].
  - assert (1 <= room (rg c)) as Hroom.
    { assert (room (rg c) ≠ 0) by (intros E; by apply Hne, Hfull). unfold room in *. lia. }
    destruct (write_once c buf 1 [ch] wr) as (r' & E & He); [done..|simpl; lia| | |].
    { unfold room, capacity in *. lia. }
    { apply (next_wr' _ buf Hok Hb). }
    exists r'. rewrite (decide_True (P := 1 <= room (rg c))) by done. split_and!; [|done|lia].
    unfold mbind, M_bind in *. destruct (store _ _ _ c) as [[] c1|]; [|done].
    destruct (on_rg _ c1) as [[] c2|]; [|done]. by injection E as ->.
  - assert (room (rg c) = 0) as Hroom by (apply Hfull; by destruct (decide (wr = RdOff (rg c)))).
    rewrite (decide_False (P := 1 <= room (rg c))) by lia. exists (rg c).
    split_and!; [by destruct c|lia|done].
Qed.

Lemma put_char_skip_spec c ch :
  ring_ok (rg c) →
  ∃ r', put_char_skip ch c = Ok (if decide (1 <= room (rg c)) then 1 else 0) (mk_chan r' (host c)) ∧
    (1 <= room (rg c) → extends (rg c) [ch] r') ∧ (room (rg c) < 1 → r' = rg c).
Proof. intros Hok. apply (put_tail c ch Hok). Qed.

(** ** Reading *)

Lemma ring_load_ok r buf off n :
  pBuffer r = Some buf → 0 <= off → 0 <= n → off + n <= Z.of_nat (length buf) →
  ring_load off n r = Some (take (Z.to_nat n) (drop (Z.to_nat off) buf)).
Proof.
  intros Hb Ho Hn Hl. unfold ring_load, fetch_bytes. rewrite Hb. simpl.
  rewrite decide_True by done. rewrite decide_True by (rewrite length_drop; lia). done.
Qed.

(** The offset, the count and the bytes after the first chunk, and then after
    the second. *)
Definition read_first (r : ring) (buf : list Z) (n : Z) : Z * list Z * Z * Z :=
  if decide (RdOff r > WrOff r) then
    let m := Z.min (SizeOfBuffer r - RdOff r) n in
    (m, take (Z.to_nat m) (drop (Z.to_nat (RdOff r)) buf), n - m,
     if decide (RdOff r + m = SizeOfBuffer r) then 0 else RdOff r + m)
  else (0, [], n, RdOff r).

Lemma read_ring_eq c buf n :
  ring_ok (rg c) → pBuffer (rg c) = Some buf → 0 <= n < 4294967296 →
  read_ring n c =
    (let '(nread, bytes, size, rdoff) := read_first (rg c) buf n in
     let m := Z.min (u32 (WrOff (rg c) - rdoff)) size in
     let '(nread, bytes, rdoff) :=
       if decide (m > 0) then (nread + m, bytes ++ take (Z.to_nat m) (drop (Z.to_nat rdoff) buf),
                               rdoff + m)
       else (nread, bytes, rdoff) in
     Ok (nread, bytes) (mk_chan (if decide (nread ≠ 0) then set_RdOff rdoff (rg c) else rg c) (host c))).
Proof.
  intros (b & Hb' & Hl & Hs & Hw & Hr) Hb Hn. rewrite Hb in Hb'. injection Hb' as <-.
  unfold read_ring, read_first. rewrite bind_gets.
  assert (Hfin : ∀ x (bytes : list Z) rd,
     ((if decide (x ≠ 0) then on_rg (set_RdOff rd) else mret tt);; mret (x, bytes)) c =
     Ok (x, bytes) (mk_chan (if decide (x ≠ 0) then set_RdOff rd (rg c) else rg c) (host c))).
  { intros x bytes rd. destruct (decide _); [done|by destruct c]. }
  destruct (decide (RdOff (rg c) > WrOff (rg c))) as [Hgt|Hle].
  - rewrite (u32_id (SizeOfBuffer (rg c) - RdOff (rg c))) by (unfold is_u32; lia).
    set (m := Z.min (SizeOfBuffer (rg c) - RdOff (rg c)) n).
    set (rd1 := if decide (RdOff (rg c) + m = SizeOfBuffer (rg c)) then 0 else RdOff (rg c) + m).
    set (bytes1 := take (Z.to_nat m) (drop (Z.to_nat (RdOff (rg c))) buf)).
    rewrite (bind_ok _ _ c (m, bytes1, n - m, rd1) c); cycle 1.
    { rewrite (bind_lift _ _ bytes1) by (apply ring_load_ok; done || lia).
      by rewrite (u32_id (RdOff (rg c) + m)), (u32_id (n - m)) by (unfold is_u32; lia). }
    cbv beta iota zeta. set (m2 := Z.min (u32 (WrOff (rg c) - rd1)) (n - m)).
    destruct (decide (m2 > 0)) as [Hpos|Hz].
    + assert (rd1 = 0) as E by (unfold rd1 in *; destruct (decide _); [done|]; unfold m2, m in Hpos; lia).
      assert (m2 <= WrOff (rg c)).
      { unfold m2. rewrite E, Z.sub_0_r, u32_id by (unfold is_u32; lia). lia. }
      erewrite bind_ok; [|rewrite (bind_lift _ _ (take (Z.to_nat m2) (drop (Z.to_nat rd1) buf)))
        by (apply ring_load_ok; done || lia); reflexivity].
      cbv beta iota. by rewrite (u32_id (m + m2)), (u32_id (rd1 + m2)), Hfin
        by (unfold is_u32, m2, m; lia).
    + rewrite bind_ret. apply Hfin.
  - rewrite bind_ret. cbv beta iota zeta.
    rewrite (u32_id (WrOff (rg c) - RdOff (rg c))) by (unfold is_u32; lia).
    set (m := Z.min (WrOff (rg c) - RdOff (rg c)) n).
    destruct (decide (m > 0)) as [Hpos|Hz].
    + erewrite bind_ok; [|rewrite (bind_lift _ _ (take (Z.to_nat m) (drop (Z.to_nat (RdOff (rg c))) buf)))
        by (apply ring_load_ok; done || lia); reflexivity].
      cbv beta iota. by rewrite (u32_id (0 + m)), (u32_id (RdOff (rg c) + m)), Hfin
        by (unfold is_u32, m; lia).
    + rewrite bind_ret. apply Hfin.
Qed.

Lemma contents_split r buf :
  pBuffer r = Some buf → Z.of_nat (length buf) = SizeOfBuffer r →
  contents r = if decide (RdOff r <= WrOff r)
    then take (Z.to_nat (WrOff r - RdOff r)) (drop (Z.to_nat (RdOff r)) buf)
    else drop (Z.to_nat (RdOff r)) buf ++ take (Z.to_nat (WrOff r)) buf.
Proof.
  intros Hb Hl. unfold contents. rewrite Hb. simpl.
  destruct (decide (RdOff r <= WrOff r)); [done|]. by rewrite take_ge by lia.
Qed.

(** A read gives the oldest bytes and removes them. *)
Lemma read_ring_spec c n :
  ring_ok (rg c) → 0 <= n < 4294967296 →
  ∃ r', read_ring n c =
      Ok (Z.min n (used (rg c)), take (Z.to_nat n) (contents (rg c))) (mk_chan r' (host c)) ∧
    contents r' = drop (Z.to_nat n) (contents (rg c)) ∧ ring_ok r' ∧ same_shape (rg c) r'.
Proof.
  intros Hok Hn. pose proof Hok as (buf & Hb & Hl & Hs & Hw & Hr).
  set (r := rg c) in *.
  pose proof (contents_length r buf Hb Hl Hw Hr) as Hc. pose proof (contents_split r buf Hb Hl) as Hsp.
  set (k := Z.to_nat (Z.min n (used r))).
  destruct (contents_set_RdOff r k Hok) as [Hok' Hc']; [unfold k, used; lia|].
  set (p := RdOff r + Z.of_nat k) in *.
  set (rd' := if decide (p >= SizeOfBuffer r) then p - SizeOfBuffer r else p) in *.
  exists (set_RdOff rd' r). split_and!; [|rewrite Hc'|done|done].
  2: { destruct (decide (Z.to_nat n ≤ length (contents r))%nat).
       - f_equal. unfold k, used. lia.
       - rewrite !drop_ge; [done|lia|unfold k, used; lia]. }
  rewrite (read_ring_eq c buf n) by done. fold r. unfold read_first.
  assert (Hused : used r = if decide (RdOff r <= WrOff r) then WrOff r - RdOff r
     else SizeOfBuffer r - RdOff r + WrOff r).
  { unfold used. rewrite Hc. unfold used_of. repeat destruct (decide _); lia. }
  assert (Hset0 : k = O → r = set_RdOff rd' r).
  { intros E. unfold rd', p. rewrite E. rewrite decide_False by lia. rewrite Z.add_0_r. by destruct r. }
  assert (Hfin : ∀ x bytes rd, x = Z.min n (used r) → bytes = take (Z.to_nat n) (contents r) →
     (x ≠ 0 → rd = rd') →
     Ok (S := chan) (x, bytes) (mk_chan (if decide (x ≠ 0) then set_RdOff rd r else r) (host c)) =
     Ok (Z.min n (used r), take (Z.to_nat n) (contents r)) (mk_chan (set_RdOff rd' r) (host c))).
  { intros x bytes rd -> -> Hrd. clearbody rd'.
    destruct (decide (Z.min n (used r) = 0)) as [Hx|Hx].
    - rewrite decide_False by lia. rewrite <-Hset0; [done|]. unfold k. by rewrite Hx.
    - rewrite decide_True by done. by rewrite (Hrd Hx). }
  destruct (decide (RdOff r > WrOff r)) as [Hgt|Hle].
  - rewrite decide_False in Hused by lia. rewrite decide_False in Hsp by lia.
    cbv beta iota zeta. set (m := Z.min (SizeOfBuffer r - RdOff r) n).
    assert (HA : take (Z.to_nat m) (drop (Z.to_nat (RdOff r)) buf) =
                 take (Z.to_nat n) (drop (Z.to_nat (RdOff r)) buf)).
    { destruct (decide (n <= SizeOfBuffer r - RdOff r)); [f_equal; unfold m; lia|].
      rewrite !take_ge by (rewrite length_drop; unfold m; lia). done. }
    rewrite HA. assert (Hbytes : take (Z.to_nat n) (contents r) =
      take (Z.to_nat n) (drop (Z.to_nat (RdOff r)) buf) ++
      take (Z.to_nat (Z.min (WrOff r) (n - m))) buf).
    { rewrite Hsp, take_app, length_drop, take_take. do 2 f_equal. unfold m. lia. }
    destruct (decide (RdOff r + m = SizeOfBuffer r)) as [E|E].
    + rewrite Z.sub_0_r, (u32_id (WrOff r)) by (unfold is_u32; lia).
      destruct (decide (Z.min (WrOff r) (n - m) > 0)) as [Hpos|Hz]; apply Hfin.
      * unfold m in *. lia.
      * by rewrite Hbytes.
      * intros _. unfold rd', p, k. rewrite decide_True by (unfold m in *; lia). unfold m in *. lia.
      * unfold m in *. lia.
      * rewrite Hbytes. replace (Z.to_nat (Z.min (WrOff r) (n - m))) with O by lia. by rewrite app_nil_r.
      * intros _. unfold rd', p, k. rewrite decide_True by (unfold m in *; lia). unfold m in *. lia.
    + assert (n - m = 0) as E0 by (unfold m in *; lia). rewrite E0 in *.
      rewrite decide_False by lia. apply Hfin.
      * unfold m in *. lia.
      * rewrite Hbytes. replace (Z.to_nat (Z.min (WrOff r) 0)) with O by lia. by rewrite app_nil_r.
      * intros _. unfold rd', p, k. rewrite decide_False by (unfold m in *; lia). unfold m in *. lia.
  - rewrite decide_True in Hused by lia. rewrite decide_True in Hsp by lia. cbv beta iota zeta.
    rewrite (u32_id (WrOff r - RdOff r)) by (unfold is_u32; lia).
    assert (Hbytes : take (Z.to_nat n) (contents r) =
      take (Z.to_nat (Z.min (WrOff r - RdOff r) n)) (drop (Z.to_nat (RdOff r)) buf)).
    { rewrite Hsp, take_take. f_equal. lia. }
    destruct (decide (Z.min (WrOff r - RdOff r) n > 0)) as [Hpos|Hz]; apply Hfin; try done; try lia.
    + intros _. unfold rd', p, k. rewrite decide_False by lia. lia.
    + rewrite Hbytes. replace (Z.to_nat (Z.min (WrOff r - RdOff r) n)) with O by lia. done.
Qed.

(** ** Overwriting *)

Lemma overwrite_room r :
  ring_ok r →
  (if decide (WrOff r = RdOff r) then u32 (SizeOfBuffer r - 1)
   else if decide (WrOff r < RdOff r) then u32 (RdOff r - WrOff r - 1)
   else u32 (RdOff r - WrOff r - 1 + SizeOfBuffer r)) = room r.
Proof.
  intros Hok. rewrite <-avail_room by done. destruct Hok as (buf & Hb & Hl & Hs & Hw & Hr).
  unfold _GetAvailWriteSpace. destruct (decide (WrOff r = RdOff r)) as [E|].
  { rewrite decide_True by lia. f_equal. lia. }
  destruct (decide (WrOff r < RdOff r)); [by rewrite decide_False by lia|].
  rewrite decide_True by lia. f_equal. lia.
Qed.

Lemma overwrite_advance r h k :
  ring_ok r → SizeOfBuffer r <= 2147483648 → 0 <= k <= used r →
  ∃ r', (on_rg (set_RdOff (u32 (RdOff r + u32 k)));;
         reduce_RdOff (S (Z.to_nat (u32 (RdOff r + u32 k))))) (mk_chan r h) = Ok tt (mk_chan r' h) ∧
    contents r' = drop (Z.to_nat k) (contents r) ∧ ring_ok r' ∧ same_shape r r' ∧
    WrOff r' = WrOff r.
Proof.
  intros Hok Hsz Hk. pose proof (ring_ok_used r Hok) as Hu. unfold capacity, used in *.
  destruct (contents_set_RdOff r (Z.to_nat k) Hok) as [Hok' Hc']; [lia|].
  rewrite Z2Nat.id in Hok', Hc' by lia.
  pose proof Hok as (buf & Hb & Hl & Hs & Hw & Hr).
  rewrite (u32_id k), u32_id by (unfold is_u32; try rewrite u32_id by (unfold is_u32; lia); lia).
  eexists. split; [|by split_and!; [exact Hc'|exact Hok'|..]].
  rewrite (bind_ok _ _ _ tt (mk_chan (set_RdOff (RdOff r + k) r) h)) by done.
  cbn [reduce_RdOff]. rewrite bind_gets. cbn [rg set_RdOff RdOff SizeOfBuffer].
  destruct (decide (RdOff r + k >= SizeOfBuffer r)); [|done].
  rewrite (bind_ok _ _ _ tt (mk_chan (set_RdOff (RdOff r + k - SizeOfBuffer r) r) h)); cycle 1.
  { unfold on_rg, mmodify. cbn. rewrite u32_id by (unfold is_u32; lia). done. }
  destruct (Z.to_nat (RdOff r + k)) eqn:E; [lia|].
  cbn [reduce_RdOff]. rewrite bind_gets. cbn [rg set_RdOff RdOff SizeOfBuffer].
  by rewrite decide_False by lia.
Qed.

Lemma overwrite_loop_spec c src n :
  ring_ok (rg c) → 0 <= n <= room (rg c) → n <= Z.of_nat (length src) →
  ∃ r', overwrite_loop (S (Z.to_nat n)) src n (u32 (SizeOfBuffer (rg c) - WrOff (rg c))) c
          = Ok tt (mk_chan r' (host c)) ∧ extends (rg c) (take (Z.to_nat n) src) r'.
Proof.
  intros Hok Hn Hsrc. pose proof Hok as (buf & Hb & Hl & Hs & Hw & Hr).
  pose proof (ring_ok_used _ Hok) as Hu. unfold room, capacity in *.
  cbn [overwrite_loop]. rewrite bind_gets.
  rewrite (u32_id (SizeOfBuffer (rg c) - WrOff (rg c))) by (unfold is_u32; lia).
  destruct (decide (SizeOfBuffer (rg c) - WrOff (rg c) > n)) as [Hgt|Hle].
  - apply (write_once c buf); [done..|lia|lia|].
    rewrite u32_id by (unfold is_u32; lia). rewrite wrapn_small by lia. lia.
  - rewrite (u32_id (n - _)) by (unfold is_u32; lia).
    destruct (decide (n - (SizeOfBuffer (rg c) - WrOff (rg c)) = 0)) as [E0|Hne].
    + destruct (write_once c buf n src 0) as (r' & E & He); [done..|lia|lia| |].
      { unfold wrapn. destruct (decide _); lia. }
      exists r'. split; [|done]. replace (SizeOfBuffer (rg c) - WrOff (rg c)) with n by lia.
      unfold mbind, M_bind in *. destruct (store _ _ _ c) as [[] c1|]; [|done].
      destruct (on_rg _ c1) as [[] c2|]; [|done]. done.
    + destruct (write_twice c buf n src) as (r' & E & He); [done..|lia|lia|lia|].
      exists r'. split; [|done]. rewrite <-E. destruct (Z.to_nat n) as [|f] eqn:Ef; [lia|].
      unfold mbind, M_bind. destruct (store (WrOff (rg c)) _ src c) as [[] c1|] eqn:E1; [|done].
      assert (Hsize : SizeOfBuffer (rg c1) = SizeOfBuffer (rg c) ∧ host c1 = host c ∧
              ∃ b1, pBuffer (rg c1) = Some b1).
      { destruct (store_ok c buf (WrOff (rg c)) (SizeOfBuffer (rg c) - WrOff (rg c)) src)
          as (b1 & _ & Est); [done|lia..|]. rewrite Est in E1. injection E1 as <-. simpl. by eauto. }
      destruct Hsize as (Hsz & Hh & b1 & Hb1). unfold on_rg, mmodify. cbn [overwrite_loop].
      unfold mgets, mbind, M_bind. cbn [rg set_WrOff SizeOfBuffer WrOff host].
      rewrite u32_id by (unfold is_u32; lia). rewrite decide_True by lia.
      unfold store, ring_store, mget, mlift, mbind, M_bind, mret, M_ret, mput. cbn [rg set_WrOff pBuffer host].
      destruct (fetch_bytes _ _) as [bytes|]; [|done]. simpl. rewrite Hb1. simpl.
      destruct (blit 0 bytes b1) as [b2|]; [|done]. simpl. unfold on_rg, mmodify, set_WrOff. simpl.
      by rewrite u32_id by (unfold is_u32; lia).
Qed.

(** With fewer bytes than the ring holds, the oldest bytes make room. *)
Lemma write_overwrite_spec c src n :
  ring_ok (rg c) → SizeOfBuffer (rg c) <= 2147483648 →
  0 <= n <= capacity (rg c) → n <= Z.of_nat (length src) →
  ∃ r', write_overwrite src n c = Ok tt (mk_chan r' (host c)) ∧ ring_ok r' ∧
    same_shape (rg c) r' ∧
    contents r' = drop (Z.to_nat (n - room (rg c))) (contents (rg c)) ++ take (Z.to_nat n) src.
Proof.
  intros Hok Hsz Hn Hsrc. unfold write_overwrite. rewrite bind_gets.
  cbv zeta. rewrite (overwrite_room _ Hok). pose proof (ring_ok_used _ Hok) as Hu.
  assert (Hadv : ∃ r1, (if decide (n > room (rg c)) then
      on_rg (set_RdOff (u32 (RdOff (rg c) + u32 (n - room (rg c)))));;
      reduce_RdOff (S (Z.to_nat (u32 (RdOff (rg c) + u32 (n - room (rg c))))))
      else mret tt) c = Ok tt (mk_chan r1 (host c)) ∧
      contents r1 = drop (Z.to_nat (n - room (rg c))) (contents (rg c)) ∧ ring_ok r1 ∧
      same_shape (rg c) r1).
  { destruct (decide (n > room (rg c))) as [Hgt|Hle].
    - destruct (overwrite_advance (rg c) (host c) (n - room (rg c))) as (r1 & E & ? & ? & ? & _);
        [done..|unfold room in *; lia|].
      exists r1. split; [|done]. destruct c as [r h]. exact E.
    - exists (rg c). replace (Z.to_nat (n - room (rg c))) with O by lia.
      split; [by destruct c|]. by split_and!. }
  destruct Hadv as (r1 & E1 & Hc1 & Hok1 & Hsh1). rewrite (bind_ok _ _ _ tt _ E1). rewrite bind_gets.
  assert (Hroom1 : n <= room r1).
  { unfold room, used in *. rewrite Hc1, length_drop, (same_shape_capacity _ _ Hsh1). lia. }
  destruct (overwrite_loop_spec (mk_chan r1 (host c)) src n) as (r' & E & He);
    [done|simpl; lia|done|].
  exists r'. split; [exact E|].
  destruct (extends_contents r1 _ _ Hok1 He) as [Hok' Hc']; [rewrite length_take; simpl; lia|].
  split_and!; [done| |by rewrite Hc', Hc1].
  destruct He as (b & b' & _ & _ & ->). destruct Hsh1 as (?&?&?). done.
Qed.

(** ** Terminal frames *)

Definition frame (t active : Z) (s : list Z) : list Z :=
  default [] (terminal_bytes t) ++ s ++ default [] (terminal_bytes active).

Lemma terminal_bytes_ok t : 0 <= t < 16 → ∃ id, terminal_bytes t = Some [0xFF; id].
Proof.
  intros Ht. unfold terminal_bytes.
  destruct (lookup_lt_is_Some_2 _aTerminalId (Z.to_nat t)) as [id ->]; [simpl; lia|]. by exists id.
Qed.

Lemma post_switch_spec t c :
  0 <= t < 16 → ring_ok (rg c) → supply c 2 →
  ∃ c', _PostTerminalSwitch t c = Ok tt c' ∧ streamed c (default [] (terminal_bytes t)) c' ∧
    ∃ j, host c' = drop j (host c) ∧ Z.of_nat j <= 2.
Proof.
  intros Ht Hok Hs. destruct (terminal_bytes_ok t Ht) as [id E].
  destruct (write_blocking_spec c [0xFF; id] 2) as (c' & E' & Hst & j & Hj & Hj2);
    [done|simpl; lia|lia|done|].
  exists c'. unfold _PostTerminalSwitch. rewrite (bind_lift _ _ _ _ _ E), (bind_ok _ _ _ _ _ E').
  split_and!; [done| |by exists j]. by rewrite E.
Qed.

Lemma terminal_frame_spec t active s n c :
  0 <= t < 16 → 0 <= active < 16 → ring_ok (rg c) → 0 <= n <= Z.of_nat (length s) →
  n < 4294967296 → n + 4 <= room (rg c) →
  ∃ c', terminal_frame t active s n c = Ok n c' ∧
    streamed c (frame t active (take (Z.to_nat n) s)) c'.
Proof.
  intros Ht Ha Hok Hn Hn32 Hroom. destruct (terminal_bytes_ok t Ht) as [id1 E1].
  destruct (post_switch_spec t c Ht Hok) as (c1 & Ec1 & Hst1 & _); [left; lia|].
  pose proof (streamed_room _ _ _ Hst1) as Hr1. rewrite E1 in Hr1. simpl in Hr1.
  destruct (write_blocking_spec c1 s n) as (c2 & Ec2 & Hst2 & _); [apply Hst1|done|done|left; lia|].
  pose proof (streamed_room _ _ _ Hst2) as Hr2. rewrite length_take in Hr2.
  destruct (post_switch_spec active c2 Ha) as (c3 & Ec3 & Hst3 & _); [apply Hst2|left; lia|].
  exists c3. unfold terminal_frame.
  rewrite (bind_ok _ _ _ _ _ Ec1), (bind_ok _ _ _ _ _ Ec2), (bind_ok _ _ _ _ _ Ec3).
  split; [done|]. unfold frame. eapply streamed_trans; [exact Hst1|]. by eapply streamed_trans.
Qed.
