(* ===== verification/RttProps.v ===== *)
(** * Theorems on the terminal channels

    The properties of [RttRing.v]: every sequence of operations on an up-buffer
    is one on a bounded queue, the blocking writers end when the host drains
    the ring, terminal output is framed, and the places where the code departs
    from its documentation. *)
From S2P Require Import Prelude RttRing RttFacts.

(** ** The abstract queue *)

Inductive rtt_op : Type :=
  | OpWrite (src : list Z)        (* SEGGER_RTT_WriteNoLock *)
  | OpWriteSkip (src : list Z)    (* SEGGER_RTT_WriteSkipNoLock *)
  | OpPutChar (ch : Z)            (* SEGGER_RTT_PutCharSkipNoLock *)
  | OpOverwrite (src : list Z)    (* SEGGER_RTT_WriteWithOverwriteNoLock *)
  | OpRead (n : Z)                (* SEGGER_RTT_ReadUpBufferNoLock *)
  | OpRoom.                       (* SEGGER_RTT_GetAvailWriteSpace *)

(** An operation on up-buffer [i]: its return value and the bytes it read. *)
Definition run_op (i : Z) (op : rtt_op) : M rtt_cb (Z * list Z) :=
  match op with
  | OpWrite src => r ← SEGGER_RTT_WriteNoLock i src (Z.of_nat (length src)); mret (r, [])
  | OpWriteSkip src => r ← SEGGER_RTT_WriteSkipNoLock i src (Z.of_nat (length src)); mret (r, [])
  | OpPutChar ch => r ← SEGGER_RTT_PutCharSkipNoLock i ch; mret (r, [])
  | OpOverwrite src =>
      SEGGER_RTT_WriteWithOverwriteNoLock i src (Z.of_nat (length src));; mret (0, [])
  | OpRead n => SEGGER_RTT_ReadUpBufferNoLock i n
  | OpRoom => r ← SEGGER_RTT_GetAvailWriteSpace i; mret (r, [])
  end.
Fixpoint run_ops (i : Z) (ops : list rtt_op) : M rtt_cb (list (Z * list Z)) :=
  match ops with
  | [] => mret []
  | op :: ops => x ← run_op i op; xs ← run_ops i ops; mret (x :: xs)
  end.

(** The same on a queue of at most [cap] bytes: what fits goes in whole or, in
    trim mode, as far as it fits; overwriting drops the oldest bytes. *)
Definition queue_op (cap : nat) (trim : bool) (op : rtt_op) (q : list Z) : (Z * list Z) * list Z :=
  let free := (cap - length q)%nat in
  match op with
  | OpWrite src =>
      let n := if trim then Nat.min (length src) free
               else if decide (length src ≤ free)%nat then length src else O in
      ((Z.of_nat n, []), q ++ take n src)
  | OpWriteSkip src =>
      if decide (length src ≤ free)%nat then ((1, []), q ++ src) else ((0, []), q)
  | OpPutChar ch => if decide (1 ≤ free)%nat then ((1, []), q ++ [ch]) else ((0, []), q)
  | OpOverwrite src => ((0, []), drop (length q + length src - cap) q ++ src)
  | OpRead n => ((Z.of_nat (length (take (Z.to_nat n) q)), take (Z.to_nat n) q),
                 drop (Z.to_nat n) q)
  | OpRoom => ((Z.of_nat free, []), q)
  end.
Fixpoint queue_ops (cap : nat) (trim : bool) (ops : list rtt_op) (q : list Z) :
    list (Z * list Z) * list Z :=
  match ops with
  | [] => ([], q)
  | op :: ops =>
      let '(x, q) := queue_op cap trim op q in
      let '(xs, q) := queue_ops cap trim ops q in (x :: xs, q)
  end.

(** Requests the C interface can carry; an overwrite must leave a byte free. *)
Definition op_ok (size : Z) (op : rtt_op) : Prop :=
  match op with
  | OpWrite src | OpWriteSkip src => Z.of_nat (length src) < 4294967296
  | OpPutChar _ | OpRoom => True
  | OpOverwrite src => Z.of_nat (length src) < size
  | OpRead n => 0 <= n < 4294967296
  end.

(** ** Lifting to the control block *)

Definition initialised (cb : rtt_cb) : Prop := head (acID cb) = Some 83.
Definition up_ring (cb : rtt_cb) (i : Z) : option ring := aUp cb !! Z.to_nat i.
Definition up_host (cb : rtt_cb) (i : Z) : list Z := default [] (hosts cb !! Z.to_nat i).

(** Only up-buffer [i] has changed. *)
Definition only_up (i : Z) (cb cb' : rtt_cb) : Prop :=
  (∀ j, j ≠ Z.to_nat i → aUp cb' !! j = aUp cb !! j) ∧ aDown cb' = aDown cb ∧
  ActiveTerminal cb' = ActiveTerminal cb ∧ acID cb' = acID cb.

Lemma only_up_trans i cb1 cb2 cb3 : only_up i cb1 cb2 → only_up i cb2 cb3 → only_up i cb1 cb3.
Proof.
  intros (H1 & H2 & H3 & H4) (H5 & H6 & H7 & H8). split_and!; [|congruence..].
  intros j Hj. by rewrite H5, H1.
Qed.

Lemma init_done {A} (m : M rtt_cb A) cb : initialised cb → (INIT;; m) cb = m cb.
Proof.
  intros H. unfold INIT, mget, mbind, M_bind. by rewrite (decide_True (P := head (acID cb) = Some 83)).
Qed.

Lemma on_up_ok {A} i (m : M chan A) cb r a r' h' :
  up_ring cb i = Some r → m (mk_chan r (up_host cb i)) = Ok a (mk_chan r' h') →
  ∃ cb', on_up i m cb = Ok a cb' ∧ up_ring cb' i = Some r' ∧ only_up i cb cb'.
Proof.
  unfold up_ring. intros Hr Hm. unfold on_up. rewrite Hr. fold (up_host cb i). rewrite Hm.
  eexists. split; [done|]. split.
  - cbn [aUp rg]. apply list_lookup_insert_eq. by eapply lookup_lt_Some.
  - split_and!; try done. intros j Hj. by apply list_lookup_insert_ne.
Qed.

(** ** One operation *)

Lemma extends_shape r src r' : extends r src r' → same_shape r r'.
Proof. by intros (b & b' & _ & _ & ->). Qed.

Lemma room_free r : ring_ok r →
  room r = Z.of_nat (Z.to_nat (capacity r) - length (contents r)) ∧
  (length (contents r) ≤ Z.to_nat (capacity r))%nat.
Proof. intros Hok. pose proof (ring_ok_used r Hok). unfold room, used in *. lia. Qed.

Lemma write_by_mode_queue c src (trim : bool) :
  ring_ok (rg c) → Z.of_nat (length src) < 4294967296 →
  Flags (rg c) = (if trim then SEGGER_RTT_MODE_NO_BLOCK_TRIM else SEGGER_RTT_MODE_NO_BLOCK_SKIP) →
  let '((n, _), q) := queue_op (Z.to_nat (capacity (rg c))) trim (OpWrite src) (contents (rg c)) in
  ∃ r', write_by_mode src (Z.of_nat (length src)) c = Ok n (mk_chan r' (host c)) ∧
    ring_ok r' ∧ contents r' = q ∧ same_shape (rg c) r'.
Proof.
  intros Hok Hlen Hf. simpl. destruct (room_free _ Hok) as [Hroom Hle].
  assert (Hgo : ∀ n, Z.of_nat n <= room (rg c) → (n ≤ length src)%nat →
    ∃ r', (_WriteNoCheck src (Z.of_nat n);; mret (Z.of_nat n)) c = Ok (Z.of_nat n) (mk_chan r' (host c)) ∧
      ring_ok r' ∧ contents r' = contents (rg c) ++ take n src ∧ same_shape (rg c) r').
  { intros n Hn Hns. destruct (write_no_check_spec c src (Z.of_nat n) Hok) as (r' & E & He); [lia..|].
    rewrite Nat2Z.id in He. exists r'. rewrite (bind_ok _ _ _ _ _ E).
    destruct (extends_contents _ _ _ Hok He) as [? ?]; [rewrite length_take; lia|].
    split_and!; try done; by apply extends_shape in He as (? & ? & ?). }
  assert (Hidle : ∃ r', Ok (S := chan) 0 c = Ok 0 (mk_chan r' (host c)) ∧
    ring_ok r' ∧ contents r' = contents (rg c) ++ [] ∧ same_shape (rg c) r').
  { exists (rg c). destruct c. by rewrite app_nil_r. }
  unfold write_by_mode. rewrite bind_gets, Hf, (avail_room _ Hok).
  destruct trim; simpl.
  - destruct (decide (room (rg c) < Z.of_nat (length src))).
    + replace (Nat.min _ _) with (Z.to_nat (room (rg c))) by lia.
      specialize (Hgo (Z.to_nat (room (rg c)))). rewrite Z2Nat.id in Hgo |- * by lia. apply Hgo; lia.
    + replace (Nat.min _ _) with (length src) by lia. apply Hgo; lia.
  - destruct (decide (room (rg c) < Z.of_nat (length src))).
    + rewrite decide_False by lia. exact Hidle.
    + rewrite decide_True by lia. apply Hgo; lia.
Qed.

(** Every operation does to the ring what it does to the queue. *)
Lemma run_op_queue i op cb r (trim : bool) :
  initialised cb → up_ring cb i = Some r → ring_ok r → SizeOfBuffer r <= 2147483648 →
  op_ok (SizeOfBuffer r) op →
  Flags r = (if trim then SEGGER_RTT_MODE_NO_BLOCK_TRIM else SEGGER_RTT_MODE_NO_BLOCK_SKIP) →
  ∃ cb' r', run_op i op cb = Ok (queue_op (Z.to_nat (capacity r)) trim op (contents r)).1 cb' ∧
    up_ring cb' i = Some r' ∧ ring_ok r' ∧ same_shape r r' ∧
    contents r' = (queue_op (Z.to_nat (capacity r)) trim op (contents r)).2 ∧ only_up i cb cb'.
Proof.
  intros Hinit Hr Hok Hsz Hop Hf. set (h := up_host cb i). set (c := mk_chan r h).
  destruct (room_free _ Hok) as [Hroom Hle].
  assert (Hlift : ∀ (m : M chan Z) n q r', m c = Ok n (mk_chan r' h) → ring_ok r' →
    contents r' = q → same_shape r r' →
    ∃ cb' r', (x ← on_up i m; mret (x, [] : list Z)) cb = Ok (n, []) cb' ∧ up_ring cb' i = Some r' ∧
      ring_ok r' ∧ same_shape r r' ∧ contents r' = q ∧ only_up i cb cb').
  { intros m n q r' E ? <- ?. destruct (on_up_ok i m cb r n r' h Hr E) as (cb' & E' & Hr' & Ho).
    exists cb', r'. by rewrite (bind_ok _ _ _ _ _ E'). }
  destruct op as [src|src|ch|src|n|]; simpl in Hop.
  - pose proof (write_by_mode_queue c src trim Hok Hop Hf) as H. simpl in H |- *.
    destruct H as (r' & E & ? & ? & ?). by eapply Hlift.
  - destruct (write_skip_spec c src (Z.of_nat (length src)) Hok) as (r' & E & He & Hno); [lia..|].
    simpl in E, He, Hno |- *. unfold run_op, SEGGER_RTT_WriteSkipNoLock.
    destruct (decide (Z.of_nat (length src) <= room r)) as [Hfit|Hfull].
    + rewrite decide_True by lia. specialize (He Hfit). rewrite Nat2Z.id, take_ge in He by lia.
      destruct (extends_contents r _ _ Hok He Hfit) as [??]. apply extends_shape in He.
      by eapply Hlift.
    + rewrite decide_False by lia. rewrite Hno in E by lia. by eapply Hlift.
  - destruct (put_char_skip_spec c ch Hok) as (r' & E & He & Hno). simpl in E, He, Hno |- *.
    unfold SEGGER_RTT_PutCharSkipNoLock. destruct (decide (1 <= room r)) as [Hfit|Hfull].
    + rewrite decide_True by lia. specialize (He Hfit).
      destruct (extends_contents r _ _ Hok He Hfit) as [??]. apply extends_shape in He.
      by eapply Hlift.
    + rewrite decide_False by lia. rewrite Hno in E by lia. by eapply Hlift.
  - destruct (write_overwrite_spec c src (Z.of_nat (length src)) Hok Hsz) as (r' & E & Hok' & Hsh & Hc).
    { unfold capacity. simpl. lia. }
    { lia. }
    destruct (on_up_ok i _ cb r tt r' h Hr E) as (cb' & E' & Hr' & Ho). simpl.
    unfold SEGGER_RTT_WriteWithOverwriteNoLock. rewrite (bind_ok _ _ _ _ _ E').
    exists cb', r'. split_and!; try done. rewrite Hc, Nat2Z.id, (take_ge src) by lia. simpl.
    do 2 f_equal. unfold capacity in *. lia.
  - destruct (read_ring_spec c n Hok Hop) as (r' & E & Hc & Hok' & Hsh).
    destruct (on_up_ok i _ cb r _ r' h Hr E) as (cb' & E' & Hr' & Ho). simpl.
    unfold SEGGER_RTT_ReadUpBufferNoLock. rewrite init_done by done. exists cb', r'.
    split_and!; try done. rewrite E'. simpl. do 2 f_equal.
    unfold used. rewrite length_take. lia.
  - simpl. unfold SEGGER_RTT_GetAvailWriteSpace.
    apply (Hlift _ _ _ r); [|done..]. rewrite bind_gets. unfold c. cbn [rg].
    rewrite (avail_room _ Hok), Hroom. done.
Qed.

(** ** Theorems *)

(** C39.  An up-buffer of at most 2 GB in one of the two modes that do not block is
    a bounded queue of one byte less than its memory: any sequence of writes
    (whole-or-nothing or trimming, by mode), skip writes, single characters,
    reads by the target and room queries, of less than 2^32 bytes, and of
    overwriting writes that are shorter than the memory, gives, operation for
    operation, the results of that queue, ends with its contents, never leaves the
    buffer's memory and touches nothing else of the control block.  (A longer
    overwrite breaks the ring, [rtt_unguarded]; blocking writes are a theorem of their own.) *)
Theorem rtt_refines_queue i ops cb r (trim : bool) :
  initialised cb → up_ring cb i = Some r → ring_ok r → SizeOfBuffer r <= 2147483648 →
  Forall (op_ok (SizeOfBuffer r)) ops →
  Flags r = (if trim then SEGGER_RTT_MODE_NO_BLOCK_TRIM else SEGGER_RTT_MODE_NO_BLOCK_SKIP) →
  ∃ cb' r', run_ops i ops cb =
      Ok (queue_ops (Z.to_nat (capacity r)) trim ops (contents r)).1 cb' ∧
    up_ring cb' i = Some r' ∧ ring_ok r' ∧ only_up i cb cb' ∧
    contents r' = (queue_ops (Z.to_nat (capacity r)) trim ops (contents r)).2.
Proof.
  intros Hinit Hr Hok Hsz Hops Hf. revert cb r Hinit Hr Hok Hsz Hf Hops.
  induction ops as [|op ops IH]; intros cb r Hinit Hr Hok Hsz Hf Hops.
  { exists cb, r. by split_and!. }
  apply Forall_cons in Hops as [Hop Hops].
  destruct (run_op_queue i op cb r trim) as (cb1 & r1 & E1 & Hr1 & Hok1 & Hsh & Hc1 & Ho1); try done.
  pose proof (same_shape_capacity _ _ Hsh) as Hcap. destruct Hsh as (Hsz1 & Hf1 & _).
  destruct (IH cb1 r1) as (cb2 & r2 & E2 & Hr2 & Hok2 & Ho2 & Hc2);
    [|done..|by rewrite Hsz1|by rewrite Hf1|by rewrite Hsz1|].
  { unfold initialised. by destruct Ho1 as (_ & _ & _ & ->). }
  rewrite Hcap, Hc1 in E2, Hc2. cbn [run_ops queue_ops].
  destruct (queue_op _ _ op _) as [x q]. cbn [fst snd] in *.
  destruct (queue_ops _ _ ops q) as [xs q']. cbn [fst snd] in *.
  exists cb2, r2. rewrite (bind_ok _ _ _ _ _ E1), (bind_ok _ _ _ _ _ E2).
  split_and!; try done. by eapply only_up_trans.
Qed.

(** The control block after start-up, with a memory of eight bytes for channel 1. *)
Definition bench_ring : ring := mk_ring "log" (Some [0; 0; 0; 0; 0; 0; 0; 0]) 8 0 0 0.
Definition bench_cb : rtt_cb :=
  mk_cb (reverse _aInitStr) [zero_ring; bench_ring; zero_ring] [zero_ring; zero_ring; zero_ring]
    0 [] [] [].

Lemma bench_ring_ok : ring_ok bench_ring.
Proof. eexists. split_and!; [reflexivity|reflexivity|vm_compute; intuition congruence..]. Qed.

Lemma rtt_refines_queue_witness :
  ∃ cb', run_ops 1 [OpWrite [1; 2; 3; 4; 5]; OpRead 3; OpWriteSkip [6; 7; 8; 9]; OpPutChar 10;
                    OpOverwrite [11; 12]; OpRead 9; OpRoom] bench_cb =
    Ok [(5, []); (3, [1; 2; 3]); (1, []); (1, []); (0, []); (7, [6; 7; 8; 9; 10; 11; 12]); (7, [])] cb'.
Proof.
  destruct (rtt_refines_queue 1 [OpWrite [1; 2; 3; 4; 5]; OpRead 3; OpWriteSkip [6; 7; 8; 9];
    OpPutChar 10; OpOverwrite [11; 12]; OpRead 9; OpRoom] bench_cb bench_ring false)
    as (cb' & r' & E & _).
  - reflexivity.
  - reflexivity.
  - apply bench_ring_ok.
  - vm_compute. congruence.
  - repeat constructor; simpl; lia.
  - reflexivity.
  - exists cb'. rewrite E. vm_compute. reflexivity.
Defined.

(** C40.  A blocking write delivers everything in order: on a ring of at least
    two bytes, when the data fits or the host takes at least one byte each time
    the loop waits, for as many rounds as there are bytes, [SEGGER_RTT_Write]
    ends, returns the number of bytes, and what the host took during the call
    followed by what is left in the ring is what was in the ring followed by
    the data. *)
Theorem rtt_blocking_write i cb r src n :
  initialised cb → up_ring cb i = Some r → ring_ok r →
  Flags r = SEGGER_RTT_MODE_BLOCK_IF_FIFO_FULL →
  0 <= n <= Z.of_nat (length src) → n < 4294967296 →
  (n <= room r ∨
   2 <= SizeOfBuffer r ∧ Forall (λ k, 1 <= k) (up_host cb i) ∧
   n <= Z.of_nat (length (up_host cb i))) →
  ∃ cb' r' out, SEGGER_RTT_Write i src n cb = Ok n cb' ∧ up_ring cb' i = Some r' ∧ ring_ok r' ∧
    out ++ contents r' = contents r ++ take (Z.to_nat n) src ∧ only_up i cb cb'.
Proof.
  intros Hinit Hr Hok Hf Hn Hn32 Hs.
  destruct (write_blocking_spec (mk_chan r (up_host cb i)) src n)
    as ([r' h'] & E & (Hok' & _ & out & Hout) & _); try done.
  { destruct Hs as [Hs|(H2 & H3 & H4)]; [by left|right]. unfold capacity. simpl.
    split_and!; [lia|done..]. }
  assert (Hm : write_by_mode src n (mk_chan r (up_host cb i)) = Ok n (mk_chan r' h')).
  { unfold write_by_mode. rewrite bind_gets. cbn [rg]. by rewrite Hf. }
  destruct (on_up_ok i _ cb r n r' h' Hr Hm) as (cb' & E' & Hr' & Ho).
  exists cb', r', out. unfold SEGGER_RTT_Write, SEGGER_RTT_WriteNoLock. by rewrite init_done.
Qed.

Lemma rtt_blocking_write_witness :
  let cb := mk_cb (reverse _aInitStr)
    [zero_ring; set_Flags SEGGER_RTT_MODE_BLOCK_IF_FIFO_FULL
                  (mk_ring "log" (Some [0; 0; 0]) 3 0 0 0); zero_ring]
    [zero_ring; zero_ring; zero_ring] 0 [] [] [[]; [1; 1; 2; 1; 1]] in
  ∃ cb', SEGGER_RTT_Write 1 [1; 2; 3; 4; 5] 5 cb = Ok 5 cb'.
Proof.
  intros cb.
  destruct (rtt_blocking_write 1 cb
    (set_Flags SEGGER_RTT_MODE_BLOCK_IF_FIFO_FULL (mk_ring "log" (Some [0; 0; 0]) 3 0 0 0))
    [1; 2; 3; 4; 5] 5) as (cb' & r' & out & E & _).
  - reflexivity.
  - reflexivity.
  - eexists. split_and!; [reflexivity|reflexivity|vm_compute; intuition congruence..].
  - reflexivity.
  - simpl. lia.
  - lia.
  - right. split_and!; [simpl; lia|repeat constructor; lia|simpl; lia].
  - exists cb'. exact E.
Defined.

(** Skip writes are an optimised [SEGGER_RTT_WriteNoLock] of skip mode: on
    the same well-formed ring both do the same to the ring, byte for byte, and
    the one returns 1 exactly when the other writes everything. *)
Theorem write_skip_equiv i cb r src n :
  up_ring cb i = Some r → ring_ok r → Flags r = SEGGER_RTT_MODE_NO_BLOCK_SKIP →
  0 <= n < 4294967296 → n <= Z.of_nat (length src) →
  ∃ cb', SEGGER_RTT_WriteSkipNoLock i src n cb = Ok (if decide (n <= room r) then 1 else 0) cb' ∧
         SEGGER_RTT_WriteNoLock i src n cb = Ok (if decide (n <= room r) then n else 0) cb'.
Proof.
  intros Hr Hok Hf Hn Hsrc. set (c := mk_chan r (up_host cb i)).
  destruct (write_skip_spec c src n Hok Hn Hsrc) as (r1 & E1 & He1 & Hno1). simpl in E1, He1, Hno1.
  destruct (on_up_ok i _ cb r _ r1 (up_host cb i) Hr E1) as (cb' & E1' & _).
  exists cb'. split; [exact E1'|]. revert E1'.
  assert (E2 : write_by_mode src n c =
    Ok (if decide (n <= room r) then n else 0) (mk_chan r1 (up_host cb i))).
  { unfold write_by_mode. rewrite bind_gets. unfold c. cbn [rg]. rewrite Hf. simpl.
    rewrite (avail_room _ Hok). destruct (decide (n <= room r)) as [Hfit|Hfull].
    - rewrite decide_False by lia.
      destruct (write_no_check_spec c src n Hok) as (r2 & E2 & He2); [simpl; lia|done|].
      fold c. rewrite (bind_ok _ _ _ _ _ E2).
      rewrite (extends_unique r (take (Z.to_nat n) src) r2 r1); try done.
      + rewrite length_take. lia.
      + by apply He1.
    - rewrite decide_True by lia. rewrite Hno1 by lia. done. }
  unfold SEGGER_RTT_WriteSkipNoLock, SEGGER_RTT_WriteNoLock, on_up. unfold up_ring in Hr.
  rewrite Hr. fold (up_host cb i). fold c. rewrite E1, E2. by intros [= <-].
Qed.

Lemma write_skip_equiv_witness :
  ∃ cb', SEGGER_RTT_WriteSkipNoLock 1 [1; 2; 3] 3 bench_cb = Ok 1 cb' ∧
         SEGGER_RTT_WriteNoLock 1 [1; 2; 3] 3 bench_cb = Ok 3 cb'.
Proof.
  apply (write_skip_equiv 1 bench_cb bench_ring [1; 2; 3] 3).
  - reflexivity.
  - apply bench_ring_ok.
  - reflexivity.
  - lia.
  - simpl. lia.
Defined.

(** Terminal output is framed or absent: [SEGGER_RTT_TerminalOut] in skip
    mode writes the switch to the terminal, the text and the switch back as one
    piece when all of it fits, and nothing (returning 0) otherwise; in trim mode the
    text is cut to the room the switches leave, and nothing is written
    (returning -1) when even the switches do not fit.  The host may take bytes
    at any wait: what it took and what is left is what was there and the frame. *)
Theorem terminal_out_framed cb r t s :
  initialised cb → up_ring cb 0 = Some r → ring_ok r →
  0 <= t < 16 → 0 <= ActiveTerminal cb < 16 → Z.of_nat (length s) < 4294967000 →
  Z.land (Flags r) SEGGER_RTT_MODE_MASK ∈
    [SEGGER_RTT_MODE_NO_BLOCK_SKIP; SEGGER_RTT_MODE_NO_BLOCK_TRIM] →
  let trim := bool_decide (Z.land (Flags r) SEGGER_RTT_MODE_MASK = SEGGER_RTT_MODE_NO_BLOCK_TRIM) in
  let len := Z.of_nat (length s) in
  let n := if trim then Z.min len (room r - 4) else len in
  let fits := bool_decide (n + 4 <= room r ∧ 0 <= n) in
  ∃ cb' r' out,
    SEGGER_RTT_TerminalOut t s cb = Ok (if fits then n else if trim then -1 else 0) cb' ∧
    up_ring cb' 0 = Some r' ∧ ring_ok r' ∧ only_up 0 cb cb' ∧
    out ++ contents r' = contents r ++
      if fits then frame t (ActiveTerminal cb) (take (Z.to_nat n) s) else [].
Proof.
  intros Hinit Hr Hok Ht Ha Hlen Hmode trim len n fits.
  set (c := mk_chan r (up_host cb 0)). pose proof (ring_ok_used r Hok) as Hu.
  assert (Hframe : 0 <= n → n + 4 <= room r →
    ∃ c', terminal_frame t (ActiveTerminal cb) s n c = Ok n c' ∧
      streamed c (frame t (ActiveTerminal cb) (take (Z.to_nat n) s)) c').
  { intros Hn Hfit. apply terminal_frame_spec; try done; unfold n, len in *; destruct trim; lia. }
  assert (Hm : ∃ c', (if decide (Z.land (Flags r) SEGGER_RTT_MODE_MASK = SEGGER_RTT_MODE_NO_BLOCK_SKIP) then
        if decide (room r < len + 4) then mret 0 else terminal_frame t (ActiveTerminal cb) s len
      else if decide (Z.land (Flags r) SEGGER_RTT_MODE_MASK = SEGGER_RTT_MODE_NO_BLOCK_TRIM) then
        if decide (room r < 4) then mret (-1)
        else terminal_frame t (ActiveTerminal cb) s (if decide (len < room r - 4) then len else room r - 4)
      else if decide (Z.land (Flags r) SEGGER_RTT_MODE_MASK = SEGGER_RTT_MODE_BLOCK_IF_FIFO_FULL)
        then terminal_frame t (ActiveTerminal cb) s len else mret (-1)) c
      = Ok (if fits then n else if trim then -1 else 0) c' ∧
      streamed c (if fits then frame t (ActiveTerminal cb) (take (Z.to_nat n) s) else []) c').
  { rewrite !elem_of_cons, elem_of_nil in Hmode. unfold fits, n, trim.
    destruct Hmode as [E|[E|[]]]; rewrite E; simpl.
    - unfold n, trim in Hframe. rewrite E in Hframe. simpl in Hframe.
      destruct (decide (room r < len + 4)).
      + rewrite bool_decide_eq_false_2 by lia. exists c. split; [done|]. by apply streamed_refl.
      + rewrite bool_decide_eq_true_2 by lia. apply Hframe; lia.
    - unfold n, trim in Hframe. rewrite E in Hframe. simpl in Hframe.
      destruct (decide (room r < 4)).
      + rewrite bool_decide_eq_false_2 by lia. exists c. split; [done|]. by apply streamed_refl.
      + rewrite bool_decide_eq_true_2 by lia.
        replace (if decide (len < room r - 4) then len else room r - 4) with (Z.min len (room r - 4))
          by (destruct (decide _); lia).
        apply Hframe; lia. }
  destruct Hm as ([r' h'] & E & Hok' & _ & out & Hout).
  unfold SEGGER_RTT_TerminalOut. rewrite init_done by done.
  rewrite decide_True by (simpl; lia). rewrite bind_gets. cbv zeta.
  match goal with |- context [on_up 0 ?m cb] =>
    assert (Em : m (mk_chan r (up_host cb 0)) =
      Ok (if fits then n else if trim then -1 else 0) (mk_chan r' h'));
      [rewrite bind_gets; cbn [rg]; rewrite (avail_room _ Hok); exact E|];
    destruct (on_up_ok 0 m cb r _ r' h' Hr Em) as (cb' & E' & Hr' & Ho)
  end.
  exists cb', r', out. by split_and!.
Qed.

Lemma terminal_out_framed_witness :
  ∃ cb', SEGGER_RTT_TerminalOut 2 [65; 66]
    (mk_cb (reverse _aInitStr) [bench_ring; zero_ring; zero_ring] [] 0 [] [] []) = Ok 2 cb'.
Proof.
  destruct (terminal_out_framed
    (mk_cb (reverse _aInitStr) [bench_ring; zero_ring; zero_ring] [] 0 [] [] []) bench_ring 2 [65; 66])
    as (cb' & r' & out & E & _).
  - reflexivity.
  - reflexivity.
  - apply bench_ring_ok.
  - lia.
  - simpl. lia.
  - simpl. lia.
  - vm_compute. constructor.
  - exists cb'. exact E.
Defined.

(** [SEGGER_RTT_GetBytesInBuffer] counts the bytes in the ring only while the
    write offset is not behind the read offset.  On a well-formed ring whose
    data wraps around it gives twice the ring's size less the number of bytes in
    it: the two offsets are subtracted the wrong way round. *)
Theorem bytes_in_buffer i cb r :
  up_ring cb i = Some r → ring_ok r → SizeOfBuffer r <= 2147483648 →
  ∃ cb', SEGGER_RTT_GetBytesInBuffer i cb =
    Ok (if decide (RdOff r <= WrOff r) then used r else 2 * SizeOfBuffer r - used r) cb'.
Proof.
  intros Hr Hok Hsz. pose proof Hok as (buf & Hb & Hl & Hs & Hw & Hrd).
  pose proof (contents_length r buf Hb Hl Hw Hrd) as Hc.
  edestruct (on_up_ok i (r ← mgets rg; mret (bytes_in_ring r)) cb r) as (cb' & E & _);
    [exact Hr|rewrite bind_gets; reflexivity|].
  exists cb'. unfold SEGGER_RTT_GetBytesInBuffer. rewrite E. cbn [rg]. f_equal.
  unfold bytes_in_ring, used. rewrite Hc. unfold used_of.
  destruct (decide (RdOff r <= WrOff r)); [rewrite decide_True by lia; lia|].
  rewrite decide_False by lia. unfold u32.
  rewrite Zminus_mod_idemp_r, Z.mod_small by lia. lia.
Qed.

Lemma bytes_in_buffer_witness :
  ∃ cb', SEGGER_RTT_GetBytesInBuffer 1
    (mk_cb (reverse _aInitStr)
      [zero_ring; mk_ring "log" (Some [0; 0; 0; 0; 0; 0; 0; 0]) 8 1 7 0; zero_ring] [] 0 [] [] [])
    = Ok 14 cb'.
Proof.
  apply (bytes_in_buffer 1 (mk_cb (reverse _aInitStr)
      [zero_ring; mk_ring "log" (Some [0; 0; 0; 0; 0; 0; 0; 0]) 8 1 7 0; zero_ring] [] 0 [] [] [])
    (mk_ring "log" (Some [0; 0; 0; 0; 0; 0; 0; 0]) 8 1 7 0)).
  - reflexivity.
  - eexists. split_and!; [reflexivity|reflexivity|vm_compute; intuition congruence..].
  - vm_compute. congruence.
Defined.

(** Two misuses the writers do not guard against: a write of one byte to a
    channel that was never configured passes the room check (its size is 0,
    and 0 - 1 is the largest unsigned number) and stores through the null
    pointer; and an overwriting write of more bytes than the ring holds does not
    leave the newest bytes: ten bytes 0..9 written to an empty ring of four
    leave the single byte 3 in it, not 7, 8, 9. *)
Theorem rtt_unguarded :
  SEGGER_RTT_Write 2 [42] 1 bench_cb = Fault OutOfBounds ∧
  ∃ c', write_overwrite [0; 1; 2; 3; 4; 5; 6; 7; 8; 9] 10
          (mk_chan (mk_ring "log" (Some [0; 0; 0; 0]) 4 0 0 0) []) = Ok tt c' ∧
        contents (rg c') = [3].
Proof.
  split; [reflexivity|]. eexists. split; [vm_compute; reflexivity|reflexivity].
Qed.

(** Channel allocation: [SEGGER_RTT_AllocUpBuffer] on an initialised control
    block takes the first channel without memory, never one in use: it returns
    that channel's index and leaves there an empty ring on the caller's memory,
    well-formed when the size is that of the memory, all other channels
    unchanged; when every channel has memory it returns -1 and changes
    nothing. *)
Theorem alloc_up_buffer cb name buf size flags :
  initialised cb →
  ∃ k cb', SEGGER_RTT_AllocUpBuffer name (Some buf) size flags cb = Ok k cb' ∧
    ((k = -1 ∧ cb' = cb ∧ Forall (λ r, pBuffer r ≠ None) (aUp cb)) ∨
     (0 <= k ∧ only_up k cb cb' ∧ (∃ r, up_ring cb k = Some r ∧ pBuffer r = None) ∧
      (∀ j r, (j < Z.to_nat k)%nat → aUp cb !! j = Some r → pBuffer r ≠ None) ∧
      ∃ r', up_ring cb' k = Some r' ∧ contents r' = [] ∧ Flags r' = flags ∧
        (0 < size < 4294967296 → size = Z.of_nat (length buf) → ring_ok r'))).
Proof.
  intros Hinit. unfold SEGGER_RTT_AllocUpBuffer. rewrite init_done by done. rewrite bind_gets.
  unfold put_aUp, alloc_ring.
  assert (Hff : ∀ rings, match first_free rings with
    | None => Forall (λ r, pBuffer r ≠ None) rings
    | Some k => (∃ r, rings !! k = Some r ∧ pBuffer r = None) ∧
        ∀ j r, (j < k)%nat → rings !! j = Some r → pBuffer r ≠ None
    end).
  { induction rings as [|r rings IH]; simpl; [done|].
    destruct (pBuffer r) eqn:E; simpl.
    - destruct (first_free rings) as [k|]; simpl.
      + destruct IH as [H1 H2]. split; [done|].
        intros [|j] r' Hj Hr'; simpl in Hr'; [simplify_eq; by rewrite E|]. apply (H2 j r'); [lia|done].
      + constructor; [by rewrite E|done].
    - split; [by exists r|]. lia. }
  specialize (Hff (aUp cb)). destruct (first_free (aUp cb)) as [k|] eqn:Ek.
  - destruct Hff as [(r & Hr & Hn) Hprev]. eexists (Z.of_nat k), _. split; [reflexivity|]. right.
    unfold up_ring. cbn. rewrite Nat2Z.id, Ek. cbn. split_and!; [lia| |by exists r|done|].
    + split_and!; [|done..]. cbn. rewrite Nat2Z.id. intros j Hj. by apply list_lookup_insert_ne.
    + eexists. split; [apply list_lookup_insert_eq; by eapply lookup_lt_Some|].
      split_and!; [done..|]. intros Hs ->. exists buf. split_and!; simpl; try done; lia.
  - eexists (-1), _. split; [reflexivity|]. left. split_and!; [done| |done].
    cbn. rewrite Ek. by destruct cb.
Qed.

Lemma alloc_up_buffer_witness :
  ∃ cb', SEGGER_RTT_AllocUpBuffer "trace" (Some [0; 0]) 2 0
    (mk_cb (reverse _aInitStr) [bench_ring; bench_ring; zero_ring] [] 0 [] [] []) = Ok 2 cb'.
Proof.
  destruct (alloc_up_buffer (mk_cb (reverse _aInitStr) [bench_ring; bench_ring; zero_ring] [] 0 [] [] [])
    "trace" [0; 0] 2 0 eq_refl) as (k & cb' & E & _).
  exists cb'. rewrite E. vm_compute in E. injection E as <- <-. reflexivity.
Defined.
