(* ===== verification/ChKernel.v ===== *)
(** * The kernel under the application

    The part of ChibiOS/RT (src/ChibiOS_21.11.x/os/rt) the application's threads
    run on: the ready list (chlists.h, chschd.c), thread creation (chthreads.c)
    and event sources (chevents.c), for one core and without round robin, as
    cfg/chconf.h sets it up.  Objects are addressed by numbers, 0 is NULL; an event
    source and an event listener both begin with their [next] pointer, and the
    list of a source's listeners ends at the source itself. *)
From S2P Require Import Prelude.

(** ** Data *)

Definition IDLEPRIO : Z := 1.
Definition LOWPRIO : Z := 2.
Definition NORMALPRIO : Z := 128.
Definition HIGHPRIO : Z := 255.

Definition MSG_OK : Z := 0.

Inductive tstate_t : Type :=
  | CH_STATE_READY | CH_STATE_CURRENT | CH_STATE_WTSTART | CH_STATE_SUSPENDED
  | CH_STATE_QUEUED | CH_STATE_WTSEM | CH_STATE_WTMTX | CH_STATE_WTCOND
  | CH_STATE_SLEEPING | CH_STATE_WTEXIT | CH_STATE_WTOREVT | CH_STATE_WTANDEVT
  | CH_STATE_SNDMSGQ | CH_STATE_SNDMSG | CH_STATE_WTMSG | CH_STATE_FINAL.
#[export] Instance tstate_eq_dec : EqDecision tstate_t.
Proof. solve_decision. Defined.

(** [u] is the union of the wakeup message and the mask of awaited events. *)
Record thread_t : Type := mk_thread {
  prio : Z; state : tstate_t; epending : Z; u : Z }.

Record event_listener_t : Type := mk_listener {
  listener : Z; events : Z; flags : Z; wflags : Z }.

(** [next]: the first word of every source and listener; [rlist]: the ready
    list from the highest priority on; [currthread]: the running thread. *)
Record kernel : Type := mk_kernel {
  next : gmap Z Z;
  listeners : gmap Z event_listener_t;
  threads : gmap Z thread_t;
  rlist : list Z;
  currthread : Z }.

Definition set_next (p q : Z) : M kernel unit := mmodify (λ k,
  mk_kernel (<[p := q]> (next k)) (listeners k) (threads k) (rlist k) (currthread k)).
Definition set_listener (p : Z) (l : event_listener_t) : M kernel unit := mmodify (λ k,
  mk_kernel (next k) (<[p := l]> (listeners k)) (threads k) (rlist k) (currthread k)).
Definition set_thread (t : Z) (th : thread_t) : M kernel unit := mmodify (λ k,
  mk_kernel (next k) (listeners k) (<[t := th]> (threads k)) (rlist k) (currthread k)).
Definition set_rlist (q : list Z) : M kernel unit := mmodify (λ k,
  mk_kernel (next k) (listeners k) (threads k) q (currthread k)).
Definition set_currthread (t : Z) : M kernel unit := mmodify (λ k,
  mk_kernel (next k) (listeners k) (threads k) (rlist k) t).

(** Reads through a pointer; a pointer to no object faults. *)
Definition get_next (p : Z) : M kernel Z := k ← mget; mlift OutOfBounds (next k !! p).
Definition get_listener (p : Z) : M kernel event_listener_t :=
  k ← mget; mlift OutOfBounds (listeners k !! p).
Definition get_thread (t : Z) : M kernel thread_t := k ← mget; mlift OutOfBounds (threads k !! t).

Definition with_state (s : tstate_t) (th : thread_t) : thread_t :=
  mk_thread (prio th) s (epending th) (u th).
Definition with_epending (e : Z) (th : thread_t) : thread_t :=
  mk_thread (prio th) (state th) e (u th).
Definition with_u (v : Z) (th : thread_t) : thread_t :=
  mk_thread (prio th) (state th) (epending th) v.
Definition on_thread (t : Z) (f : thread_t → thread_t) : M kernel unit :=
  th ← get_thread t; set_thread t (f th).

(** ** The ready list *)

Definition prio_of (k : kernel) (t : Z) : Z :=
  match threads k !! t with Some th => prio th | None => 0 end.

(** The scans end at the list's header, whose priority is 0. *)
Fixpoint ch_pqueue_insert_behind (pr : Z → Z) (p : Z) (q : list Z) : list Z :=
  match q with
  | [] => [p]
  | x :: q' => if decide (pr x >= pr p) then x :: ch_pqueue_insert_behind pr p q' else p :: q
  end.
Fixpoint ch_pqueue_insert_ahead (pr : Z → Z) (p : Z) (q : list Z) : list Z :=
  match q with
  | [] => [p]
  | x :: q' => if decide (pr x > pr p) then x :: ch_pqueue_insert_ahead pr p q' else p :: q
  end.
Definition ch_pqueue_remove_highest : M kernel Z :=
  k ← mget;
  match rlist k with
  | [] => mfail OutOfBounds
  | t :: q => set_rlist q;; mret t
  end.
Definition firstprio (k : kernel) : Z :=
  match rlist k with [] => 0 | t :: _ => prio_of k t end.

Definition __sch_ready_behind (tp : Z) : M kernel unit :=
  on_thread tp (with_state CH_STATE_READY);;
  k ← mget; set_rlist (ch_pqueue_insert_behind (prio_of k) tp (rlist k)).
Definition __sch_ready_ahead (tp : Z) : M kernel unit :=
  on_thread tp (with_state CH_STATE_READY);;
  k ← mget; set_rlist (ch_pqueue_insert_ahead (prio_of k) tp (rlist k)).

(** Pick the first thread of the ready list and make it current. *)
Definition sch_switch_to_first : M kernel unit :=
  ntp ← ch_pqueue_remove_highest;
  on_thread ntp (with_state CH_STATE_CURRENT);;
  set_currthread ntp.

Definition __sch_reschedule_behind : M kernel unit :=
  otp ← mgets currthread; sch_switch_to_first;; __sch_ready_behind otp.
Definition __sch_reschedule_ahead : M kernel unit :=
  otp ← mgets currthread; sch_switch_to_first;; __sch_ready_ahead otp.

Definition chSchReadyI (tp : Z) : M kernel unit := __sch_ready_behind tp.

Definition chSchGoSleepS (newstate : tstate_t) : M kernel unit :=
  otp ← mgets currthread;
  on_thread otp (with_state newstate);;
  sch_switch_to_first.

Definition chSchWakeupS (ntp msg : Z) : M kernel unit :=
  otp ← mgets currthread;
  on_thread ntp (with_u msg);;
  k ← mget;
  if decide (prio_of k ntp <= prio_of k otp) then __sch_ready_behind ntp
  else
    __sch_ready_ahead otp;;
    on_thread ntp (with_state CH_STATE_CURRENT);;
    set_currthread ntp.

Definition chSchRescheduleS : M kernel unit :=
  k ← mget;
  if decide (firstprio k > prio_of k (currthread k)) then __sch_reschedule_ahead else mret tt.

(** The preemption at the end of an interrupt. *)
Definition chSchPreemption : M kernel unit :=
  k ← mget;
  if decide (firstprio k > prio_of k (currthread k)) then __sch_reschedule_ahead else mret tt.

Definition chSchDoYieldS : M kernel unit :=
  k ← mget;
  if decide (firstprio k >= prio_of k (currthread k)) then __sch_reschedule_behind else mret tt.

Definition chThdCreateStatic (tp pr : Z) : M kernel unit :=
  set_thread tp (mk_thread pr CH_STATE_WTSTART 0 0);;
  chSchWakeupS tp MSG_OK.

(** ** Event sources *)

Definition EVENT_MASK (eid : Z) : Z := u32 (Z.shiftl 1 eid).
Definition ALL_EVENTS : Z := 4294967295.

Definition chEvtObjectInit (esp : Z) : M kernel unit := set_next esp esp.

Definition chEvtRegisterMaskWithFlagsI (esp elp evs wfl : Z) : M kernel unit :=
  currtp ← mgets currthread;
  n ← get_next esp;
  set_next elp n;;
  set_next esp elp;;
  set_listener elp (mk_listener currtp evs 0 wfl).
Definition chEvtRegisterMaskWithFlags (esp elp evs wfl : Z) : M kernel unit :=
  chEvtRegisterMaskWithFlagsI esp elp evs wfl.
Definition chEvtRegisterMask (esp elp evs : Z) : M kernel unit :=
  chEvtRegisterMaskWithFlags esp elp evs 4294967295.

Definition chEvtIsListeningI (esp : Z) : M kernel bool :=
  n ← get_next esp; mret (bool_decide (esp ≠ n)).

(** The loop of [chEvtUnregister]; a list has fewer nodes than there are [next]
    words. *)
Fixpoint unregister_loop (fuel : nat) (esp elp p : Z) : M kernel unit :=
  match fuel with
  | O => mfail Diverged
  | S fuel =>
      n ← get_next p;
      if decide (n = esp) then mret tt
      else if decide (n = elp) then n' ← get_next elp; set_next p n'
      else unregister_loop fuel esp elp n
  end.
Definition chEvtUnregister (esp elp : Z) : M kernel unit :=
  k ← mget; unregister_loop (S (size (next k))) esp elp esp.

Definition chEvtGetAndClearEventsI (evs : Z) : M kernel Z :=
  currtp ← mgets currthread;
  th ← get_thread currtp;
  let m := Z.land (epending th) evs in
  set_thread currtp (with_epending (Z.land (epending th) (u32 (Z.lnot evs))) th);;
  mret m.
Definition chEvtAddEventsI (evs : Z) : M kernel Z :=
  currtp ← mgets currthread;
  th ← get_thread currtp;
  let m := Z.lor (epending th) evs in
  set_thread currtp (with_epending m th);;
  mret m.
Definition chEvtGetAndClearFlagsI (elp : Z) : M kernel Z :=
  l ← get_listener elp;
  set_listener elp (mk_listener (listener l) (events l) 0 (wflags l));;
  mret (Z.land (flags l) (wflags l)).

(** Is the thread waiting for something among the events it has now? *)
Definition event_wait_met (th : thread_t) : bool :=
  bool_decide (state th = CH_STATE_WTOREVT ∧ Z.land (epending th) (u th) ≠ 0) ||
  bool_decide (state th = CH_STATE_WTANDEVT ∧ Z.land (epending th) (u th) = u th).

Definition chEvtSignalI (tp evs : Z) : M kernel unit :=
  on_thread tp (λ th, with_epending (Z.lor (epending th) evs) th);;
  th ← get_thread tp;
  if event_wait_met th then on_thread tp (with_u MSG_OK);; chSchReadyI tp
  else mret tt.
Definition chEvtSignal (tp evs : Z) : M kernel unit := chEvtSignalI tp evs;; chSchRescheduleS.

Fixpoint broadcast_loop (fuel : nat) (esp fl elp : Z) : M kernel unit :=
  match fuel with
  | O => mfail Diverged
  | S fuel =>
      if decide (elp = esp) then mret tt else
      l ← get_listener elp;
      let l := mk_listener (listener l) (events l) (Z.lor (flags l) fl) (wflags l) in
      set_listener elp l;;
      (if decide (fl = 0 ∨ Z.land fl (wflags l) ≠ 0) then chEvtSignalI (listener l) (events l)
       else mret tt);;
      n ← get_next elp;
      broadcast_loop fuel esp fl n
  end.
Definition chEvtBroadcastFlagsI (esp fl : Z) : M kernel unit :=
  k ← mget; n ← get_next esp; broadcast_loop (S (size (next k))) esp fl n.
Definition chEvtBroadcastI (esp : Z) : M kernel unit := chEvtBroadcastFlagsI esp 0.
Definition chEvtBroadcastFlags (esp fl : Z) : M kernel unit :=
  chEvtBroadcastFlagsI esp fl;; chSchRescheduleS.

(** [m ^= m & (m - 1)]: the lowest set bit. *)
Definition lowest_event (m : Z) : Z := Z.lxor m (Z.land m (u32 (m - 1))).

(** The waits, up to the point where the thread may go to sleep and from the
    point where it runs again; [None] when it sleeps. *)
Definition take_one (evs : Z) : M kernel Z :=
  currtp ← mgets currthread;
  th ← get_thread currtp;
  let m := lowest_event (Z.land (epending th) evs) in
  set_thread currtp (with_epending (Z.land (epending th) (u32 (Z.lnot m))) th);;
  mret m.
Definition chEvtWaitOne (evs : Z) : M kernel (option Z) :=
  currtp ← mgets currthread;
  th ← get_thread currtp;
  if decide (Z.land (epending th) evs = 0) then
    on_thread currtp (with_u evs);;
    chSchGoSleepS CH_STATE_WTOREVT;; mret None
  else m ← take_one evs; mret (Some m).
Definition take_any (evs : Z) : M kernel Z :=
  currtp ← mgets currthread;
  th ← get_thread currtp;
  let m := Z.land (epending th) evs in
  set_thread currtp (with_epending (Z.land (epending th) (u32 (Z.lnot m))) th);;
  mret m.
Definition chEvtWaitAny (evs : Z) : M kernel (option Z) :=
  currtp ← mgets currthread;
  th ← get_thread currtp;
  if decide (Z.land (epending th) evs = 0) then
    on_thread currtp (with_u evs);;
    chSchGoSleepS CH_STATE_WTOREVT;; mret None
  else m ← take_any evs; mret (Some m).
Definition take_all (evs : Z) : M kernel Z := chEvtGetAndClearEventsI evs;; mret evs.
Definition chEvtWaitAll (evs : Z) : M kernel (option Z) :=
  currtp ← mgets currthread;
  th ← get_thread currtp;
  if decide (Z.land (epending th) evs ≠ evs) then
    on_thread currtp (with_u evs);;
    chSchGoSleepS CH_STATE_WTANDEVT;; mret None
  else m ← take_all evs; mret (Some m).
