(* ===== verification/ChSched.v ===== *)
(** * What the scheduler does

    An abstraction of [ChKernel.v]: the runnable threads form one list, ordered
    by priority and by age among equals, whose head runs.  Readying a thread
    inserts it behind its peers, whether or not that preempts; going to sleep
    takes the head away. *)
From Stdlib Require Import Sorted.
From S2P Require Import Prelude ChKernel.

(** ** Insertion by priority *)

Definition by_prio (pr : Z → Z) : list Z → Prop := StronglySorted (λ x y, pr x >= pr y).

Section insertion.
Context (pr : Z → Z).

Lemma insert_behind_perm x q : ch_pqueue_insert_behind pr x q ≡ₚ x :: q.
Proof. induction q as [|y q IH]; simpl; [done|]. destruct (decide _); [rewrite IH|]; solve_Permutation. Qed.
Lemma insert_ahead_perm x q : ch_pqueue_insert_ahead pr x q ≡ₚ x :: q.
Proof. induction q as [|y q IH]; simpl; [done|]. destruct (decide _); [rewrite IH|]; solve_Permutation. Qed.

Lemma by_prio_cons x q : by_prio pr (x :: q) ↔ by_prio pr q ∧ ∀ y, y ∈ q → pr x >= pr y.
Proof.
  unfold by_prio. rewrite <-(Forall_forall (λ y, pr x >= pr y)). split.
  - by intros [??]%StronglySorted_inv.
  - intros [??]. by constructor.
Qed.

Lemma insert_behind_sorted x q : by_prio pr q → by_prio pr (ch_pqueue_insert_behind pr x q).
Proof.
  induction q as [|y q IH]; simpl.
  { intros _. rewrite by_prio_cons. split; [constructor|]. intros ? []%not_elem_of_nil. }
  intros [Hq Hy]%by_prio_cons. destruct (decide _) as [H|H]; rewrite by_prio_cons.
  - split; [by apply IH|]. intros z. rewrite insert_behind_perm, elem_of_cons. intros [->|?]; [lia|auto].
  - split; [by rewrite by_prio_cons|]. intros z. rewrite elem_of_cons. intros [->|Hz]; [lia|].
    specialize (Hy z Hz). lia.
Qed.

Lemma insert_ahead_sorted x q : by_prio pr q → by_prio pr (ch_pqueue_insert_ahead pr x q).
Proof.
  induction q as [|y q IH]; simpl.
  { intros _. rewrite by_prio_cons. split; [constructor|]. intros ? []%not_elem_of_nil. }
  intros [Hq Hy]%by_prio_cons. destruct (decide _) as [H|H]; rewrite by_prio_cons.
  - split; [by apply IH|]. intros z. rewrite insert_ahead_perm, elem_of_cons. intros [->|?]; [lia|auto].
  - split; [by rewrite by_prio_cons|]. intros z. rewrite elem_of_cons. intros [->|Hz]; [lia|].
    specialize (Hy z Hz). lia.
Qed.

(** A thread put back ahead of its peers and one readied behind its peers do
    not depend on the order in which that happens. *)
Lemma insert_commute x y q : ch_pqueue_insert_ahead pr x (ch_pqueue_insert_behind pr y q) = ch_pqueue_insert_behind pr y (ch_pqueue_insert_ahead pr x q).
Proof.
  induction q as [|z q IH]; simpl.
  { repeat (destruct (decide _); simpl); try done; lia. }
  repeat (destruct (decide _); simpl); try lia; congruence.
Qed.

Lemma insert_ahead_head x q : (∀ y, y ∈ q → pr x >= pr y) → ch_pqueue_insert_ahead pr x q = x :: q.
Proof.
  destruct q as [|y q]; simpl; [done|]. intros H. rewrite decide_False; [done|].
  specialize (H y). rewrite elem_of_cons in H. specialize (H (or_introl eq_refl)). lia.
Qed.
Lemma insert_behind_top x q : (∀ y, y ∈ q → pr x > pr y) → ch_pqueue_insert_behind pr x q = x :: q.
Proof.
  destruct q as [|y q]; simpl; [done|]. intros H. rewrite decide_False; [done|].
  specialize (H y). rewrite elem_of_cons in H. specialize (H (or_introl eq_refl)). lia.
Qed.
End insertion.

Lemma insert_behind_ext pr pr' x q :
  (∀ t, pr t = pr' t) → ch_pqueue_insert_behind pr x q = ch_pqueue_insert_behind pr' x q.
Proof.
  intros H. induction q as [|y q IH]; simpl; [done|]. rewrite !H, IH. done.
Qed.
Lemma insert_ahead_ext pr pr' x q :
  (∀ t, pr t = pr' t) → ch_pqueue_insert_ahead pr x q = ch_pqueue_insert_ahead pr' x q.
Proof.
  intros H. induction q as [|y q IH]; simpl; [done|]. rewrite !H, IH. done.
Qed.
Lemma by_prio_ext pr pr' q : (∀ t, pr t = pr' t) → by_prio pr q → by_prio pr' q.
Proof.
  intros H. induction q as [|x q IH]; [constructor|]. rewrite !by_prio_cons. intros [? Hx].
  split; [by apply IH|]. intros y Hy. rewrite <-!H. by apply Hx.
Qed.

(** ** The abstraction *)

(** [a_run]: the runnable threads, the running one first. *)
Record akernel : Type := mk_ak { a_threads : gmap Z thread_t; a_run : list Z }.

Definition a_prio (a : akernel) (t : Z) : Z :=
  match a_threads a !! t with Some th => prio th | None => 0 end.
Definition a_set (t : Z) (f : thread_t → thread_t) (a : akernel) : akernel :=
  mk_ak (alter f t (a_threads a)) (a_run a).
Definition a_ready (t : Z) (a : akernel) : akernel :=
  let a := a_set t (with_state CH_STATE_READY) a in
  mk_ak (a_threads a) (ch_pqueue_insert_behind (a_prio a) t (a_run a)).
Definition a_sleep (st : tstate_t) (a : akernel) : akernel :=
  match a_run a with
  | [] => a
  | t :: q => mk_ak (alter (with_state st) t (a_threads a)) q
  end.
Definition a_signal (t evs : Z) (a : akernel) : akernel :=
  let a := a_set t (λ th, with_epending (Z.lor (epending th) evs) th) a in
  match a_threads a !! t with
  | Some th => if event_wait_met th then a_ready t (a_set t (with_u MSG_OK) a) else a
  | None => a
  end.

(** Runnable or running is the same to the abstraction. *)
Definition vstate (s : tstate_t) : tstate_t :=
  if decide (s = CH_STATE_CURRENT) then CH_STATE_READY else s.
Definition vthread (th : thread_t) : thread_t := with_state (vstate (state th)) th.

(** Where the running thread stands among the ready ones. *)
Definition runq (k : kernel) : list Z :=
  ch_pqueue_insert_ahead (prio_of k) (currthread k) (rlist k).
Definition abs (k : kernel) : akernel := mk_ak (vthread <$> threads k) (runq k).

Record sched_inv (k : kernel) : Prop := mk_inv {
  inv_current : ∃ th, threads k !! currthread k = Some th ∧ state th = CH_STATE_CURRENT;
  inv_unique : ∀ t th, threads k !! t = Some th → state th = CH_STATE_CURRENT → t = currthread k;
  inv_ready : ∀ t, t ∈ rlist k ↔ ∃ th, threads k !! t = Some th ∧ state th = CH_STATE_READY;
  inv_nodup : NoDup (rlist k);
  inv_sorted : by_prio (prio_of k) (rlist k);
  inv_prio : ∀ t th, threads k !! t = Some th → 0 < prio th }.

(** Nothing that is ready has a higher priority than what runs: the state
    between kernel calls. *)
Definition settled (k : kernel) : Prop := firstprio k <= prio_of k (currthread k).

(** A thread that exists and neither runs nor is ready. *)
Definition blocked (k : kernel) (t : Z) : Prop :=
  ∃ th, threads k !! t = Some th ∧ state th ≠ CH_STATE_READY ∧ state th ≠ CH_STATE_CURRENT.

(** The event objects are not touched. *)
Definition objects_kept (k k' : kernel) : Prop := next k' = next k ∧ listeners k' = listeners k.

Lemma objects_kept_refl k : objects_kept k k.
Proof. done. Qed.
Lemma objects_kept_trans k1 k2 k3 : objects_kept k1 k2 → objects_kept k2 k3 → objects_kept k1 k3.
Proof. intros [??] [??]. split; congruence. Qed.
#[export] Hint Resolve objects_kept_refl : core.

Lemma a_prio_abs k t : a_prio (abs k) t = prio_of k t.
Proof. unfold a_prio, prio_of. simpl. rewrite lookup_fmap. by destruct (threads k !! t). Qed.

Lemma settled_runq k : sched_inv k → settled k → runq k = currthread k :: rlist k.
Proof.
  intros Hi Hs. unfold runq, settled, firstprio in *. destruct (rlist k) as [|t q] eqn:E; [done|].
  apply insert_ahead_head. intros y Hy. pose proof (inv_sorted k Hi) as Hso. rewrite E in Hso.
  apply by_prio_cons in Hso as [_ Hso]. apply elem_of_cons in Hy as [->|Hy]; [lia|].
  specialize (Hso y Hy). lia.
Qed.

Lemma runq_sorted k : sched_inv k → by_prio (prio_of k) (runq k).
Proof. intros Hi. apply insert_ahead_sorted, Hi. Qed.
Lemma runq_elem k t : t ∈ runq k ↔ t = currthread k ∨ t ∈ rlist k.
Proof. unfold runq. by rewrite insert_ahead_perm, elem_of_cons. Qed.
Lemma current_not_ready k : sched_inv k → currthread k ∉ rlist k.
Proof.
  intros Hi Hin. destruct (inv_current k Hi) as (th & E & Es).
  apply (inv_ready k Hi) in Hin as (th' & E' & Es'). congruence.
Qed.
Lemma runq_nodup k : sched_inv k → NoDup (runq k).
Proof.
  intros Hi. unfold runq. rewrite insert_ahead_perm. apply NoDup_cons.
  split; [by apply current_not_ready|apply Hi].
Qed.
Lemma runq_spec k t : sched_inv k →
  t ∈ runq k ↔ ∃ th, a_threads (abs k) !! t = Some th ∧ state th = CH_STATE_READY.
Proof.
  intros Hi. rewrite runq_elem, (inv_ready k Hi). simpl. setoid_rewrite lookup_fmap. split.
  - intros [->|(th & E & Es)].
    + destruct (inv_current k Hi) as (th & E & Es). rewrite E. eexists. split; [done|].
      simpl. unfold vstate. by rewrite Es.
    + rewrite E. eexists. split; [done|]. simpl. unfold vstate. by rewrite Es.
  - intros (th & E & Es). destruct (threads k !! t) as [th0|] eqn:E0; [|done].
    simpl in E. injection E as <-. simpl in Es. unfold vstate in Es.
    destruct (decide (state th0 = CH_STATE_CURRENT)) as [E1|E1].
    + left. by eapply (inv_unique k).
    + right. by exists th0.
Qed.

(** ** The operations against the abstraction *)

Lemma on_thread_ok k t f th :
  threads k !! t = Some th →
  on_thread t f k =
    Ok tt (mk_kernel (next k) (listeners k) (<[t := f th]> (threads k)) (rlist k) (currthread k)).
Proof. intros E. unfold on_thread, get_thread, mget, mbind, M_bind, mlift. by rewrite E. Qed.

Lemma prio_of_insert nx ls ths q c k t th th' :
  threads k !! t = Some th → prio th' = prio th → ths = <[t := th']> (threads k) →
  ∀ x, prio_of (mk_kernel nx ls ths q c) x = prio_of k x.
Proof.
  intros E Ep -> x. unfold prio_of. simpl. destruct (decide (x = t)) as [->|Hne].
  - by rewrite lookup_insert_eq, E.
  - by rewrite lookup_insert_ne by done.
Qed.

Lemma vthreads_insert (m : gmap Z thread_t) t th th' f :
  m !! t = Some th → vthread th' = f (vthread th) →
  vthread <$> <[t := th']> m = alter f t (vthread <$> m).
Proof.
  intros E Ev. apply map_eq. intros x. destruct (decide (x = t)) as [->|Hne].
  - rewrite lookup_fmap, lookup_insert_eq, lookup_alter_eq, lookup_fmap, E. simpl. by rewrite Ev.
  - by rewrite lookup_fmap, lookup_insert_ne, lookup_alter_ne, lookup_fmap by done.
Qed.

(** Readying a blocked thread, seen from an interrupt. *)
Lemma ready_spec k t :
  sched_inv k → blocked k t →
  wp (chSchReadyI t) k (λ _ k',
    sched_inv k' ∧ abs k' = a_ready t (abs k) ∧ objects_kept k k' ∧ currthread k' = currthread k).
Proof.
  intros Hi (th & E & Hr & Hc). unfold chSchReadyI, __sch_ready_behind.
  set (ths := <[t := with_state CH_STATE_READY th]> (threads k)).
  assert (Hp : ∀ nx ls q c x, prio_of (mk_kernel nx ls ths q c) x = prio_of k x).
  { intros nx ls q c. by apply (prio_of_insert nx ls ths q c k t th (with_state CH_STATE_READY th)). }
  assert (Ht : t ∉ rlist k).
  { intros Hin. apply (inv_ready k Hi) in Hin as (th' & E' & ?). congruence. }
  assert (Hne : t ≠ currthread k).
  { intros ->. destruct (inv_current k Hi) as (th' & E' & ?). congruence. }
  eapply wp_ok.
  { rewrite (bind_ok _ _ _ _ _ (on_thread_ok k t _ th E)). reflexivity. }
  fold ths. simpl. split_and!; [split; simpl| |done|done].
  - destruct (inv_current k Hi) as (thc & Ec & Es). exists thc. split; [|done].
    unfold ths. by rewrite lookup_insert_ne.
  - intros x thx. unfold ths. destruct (decide (x = t)) as [->|?].
    + rewrite lookup_insert_eq. by intros [= <-].
    + rewrite lookup_insert_ne by done. apply (inv_unique k Hi).
  - intros x. rewrite insert_behind_perm, elem_of_cons, (inv_ready k Hi). unfold ths.
    destruct (decide (x = t)) as [->|?].
    + rewrite lookup_insert_eq. split; [intros _; by eexists|by left].
    + rewrite lookup_insert_ne by done. split; [intros [->|?]; done|by right].
  - rewrite insert_behind_perm. by apply NoDup_cons; split; [|apply Hi].
  - apply insert_behind_sorted, (by_prio_ext (prio_of k)); [intros; by rewrite Hp|apply Hi].
  - intros x thx. unfold ths. destruct (decide (x = t)) as [->|?].
    + rewrite lookup_insert_eq. intros [= <-]. simpl. by eapply (inv_prio k).
    + rewrite lookup_insert_ne by done. apply (inv_prio k Hi).
  - unfold abs, a_ready, a_set, runq. simpl. f_equal.
    + unfold ths. eapply vthreads_insert; done.
    + rewrite (insert_behind_ext (prio_of (mk_kernel (next k) (listeners k) ths (rlist k) (currthread k)))
        (prio_of k)) by (intros; by rewrite !Hp).
      rewrite (insert_ahead_ext _ (prio_of k)) by (intros; by rewrite !Hp).
      rewrite insert_commute. apply insert_behind_ext. intros x. unfold a_prio. simpl.
      destruct (decide (x = t)) as [->|?].
      * rewrite lookup_alter_eq, lookup_fmap. unfold prio_of. rewrite E. done.
      * rewrite lookup_alter_ne, lookup_fmap by done. unfold prio_of. by destruct (threads k !! x).
Qed.

(** The first ready thread takes over; the old one, in state [READY] or
    not, is left to the caller. *)
Lemma switch_spec k t q :
  sched_inv k → rlist k = t :: q →
  ∃ th, threads k !! t = Some th ∧ state th = CH_STATE_READY ∧ t ≠ currthread k ∧
    ∀ k0, threads k0 !! t = Some th → rlist k0 = t :: q → 
    sch_switch_to_first k0 = Ok tt (mk_kernel (next k0) (listeners k0)
      (<[t := with_state CH_STATE_CURRENT th]> (threads k0)) q t).
Proof.
  intros Hi Eq. assert (Hin : t ∈ rlist k) by (rewrite Eq; apply elem_of_cons; by left).
  assert (Hne : t ≠ currthread k) by (intros ->; by apply (current_not_ready k Hi)).
  apply (inv_ready k Hi) in Hin as (th & E & Es). exists th. split_and!; [done..|].
  intros k0 E0 Eq0. unfold sch_switch_to_first, ch_pqueue_remove_highest.
  rewrite (bind_ok _ _ k0 t (mk_kernel (next k0) (listeners k0) (threads k0) q (currthread k0))).
  - cbv beta. set (k1 := mk_kernel _ _ _ _ _). assert (E1 : threads k1 !! t = Some th) by done.
    by rewrite (bind_ok _ _ _ _ _ (on_thread_ok k1 t _ th E1)).
  - unfold mget, mbind, M_bind. by rewrite Eq0.
Qed.


(** A kernel with a changed thread [t] that keeps its priority, ready list [q] and
    running thread [c]. *)
Definition k_upd (k : kernel) (t : Z) (th : thread_t) (q : list Z) (c : Z) : kernel :=
  mk_kernel (next k) (listeners k) (<[t := th]> (threads k)) q c.

Lemma on_thread_upd k t f th :
  threads k !! t = Some th →
  on_thread t f k = Ok tt (k_upd k t (f th) (rlist k) (currthread k)).
Proof. apply on_thread_ok. Qed.

Lemma prio_of_upd k t th th' q c x :
  threads k !! t = Some th → prio th' = prio th → prio_of (k_upd k t th' q c) x = prio_of k x.
Proof. intros. by eapply prio_of_insert. Qed.

(** The running thread [c] goes to state [st], thread [t] runs, [q] is ready. *)
Definition switched (k : kernel) (c : Z) (thc : thread_t) (st : tstate_t)
    (t : Z) (tht : thread_t) (q : list Z) : kernel :=
  mk_kernel (next k) (listeners k)
    (<[t := with_state CH_STATE_CURRENT tht]> (<[c := with_state st thc]> (threads k))) q t.

Section switched.
Context (k : kernel) (c : Z) (thc : thread_t) (st : tstate_t) (t : Z) (tht : thread_t) (q : list Z).
Hypothesis Hi : sched_inv k.
Hypothesis Hc : currthread k = c.
Hypothesis Ec : threads k !! c = Some thc.
Hypothesis Et : threads k !! t = Some tht.
Hypothesis Htc : t ≠ c.
Hypothesis Hst : st ≠ CH_STATE_CURRENT.
Let k' := switched k c thc st t tht q.

Lemma switched_lookup x :
  threads k' !! x = if decide (x = t) then Some (with_state CH_STATE_CURRENT tht)
                    else if decide (x = c) then Some (with_state st thc) else threads k !! x.
Proof using Htc.
  unfold k', switched. simpl. destruct (decide (x = t)) as [->|?]; [by rewrite lookup_insert_eq|].
  rewrite lookup_insert_ne by done. destruct (decide (x = c)) as [->|?]; [by rewrite lookup_insert_eq|].
  by rewrite lookup_insert_ne.
Qed.

Lemma switched_prio x : prio_of k' x = prio_of k x.
Proof using Ec Et Htc.
  unfold prio_of. rewrite switched_lookup.
  destruct (decide (x = t)) as [->|?]; [by rewrite Et|].
  destruct (decide (x = c)) as [->|?]; [by rewrite Ec|done].
Qed.

Lemma switched_inv :
  (∀ x, x ∈ q ↔ x ≠ t ∧ (x ∈ rlist k ∨ x = c ∧ st = CH_STATE_READY)) →
  NoDup q → by_prio (prio_of k) q → sched_inv k'.
Proof using Type*.
  intros Hq Hnd Hso. assert (Hcr : c ∉ rlist k) by (rewrite <-Hc; by apply current_not_ready).
  split.
  - exists (with_state CH_STATE_CURRENT tht). rewrite switched_lookup. by rewrite decide_True.
  - intros x thx. rewrite switched_lookup. simpl.
    destruct (decide (x = t)) as [->|?]; [done|].
    destruct (decide (x = c)) as [->|Hne]; [by intros [= <-]|].
    intros E Es. destruct Hne. rewrite <-Hc. by eapply (inv_unique k).
  - intros x. simpl. rewrite Hq, switched_lookup, (inv_ready k Hi).
    destruct (decide (x = t)) as [->|Hxt].
    { split; [by intros [? _]|]. intros (thx & [= <-] & ?). done. }
    destruct (decide (x = c)) as [->|Hxc].
    + split.
      * intros [_ [H|[_ ->]]]; [|by eexists]. by apply (inv_ready k Hi) in H.
      * intros (thx & [= <-] & Es). split; [done|]. right. by split.
    + split; [by intros [_ [?|[? _]]]|]. intros H. split; [done|]. by left.
  - done.
  - eapply by_prio_ext, Hso. intros x. by rewrite switched_prio.
  - intros x thx. rewrite switched_lookup.
    destruct (decide (x = t)); [|destruct (decide (x = c))].
    + intros [= <-]. exact (inv_prio k Hi t tht Et).
    + intros [= <-]. exact (inv_prio k Hi c thc Ec).
    + apply (inv_prio k Hi).
Qed.

Lemma switched_threads :
  vthread <$> threads k' =
  alter (with_state st) c (alter (with_state CH_STATE_READY) t (vthread <$> threads k)).
Proof using Type*.
  apply map_eq. intros x. rewrite lookup_fmap, switched_lookup.
  destruct (decide (x = t)) as [->|?].
  { rewrite lookup_alter_ne, lookup_alter_eq, lookup_fmap, Et by done. done. }
  destruct (decide (x = c)) as [->|?].
  { rewrite lookup_alter_eq, lookup_alter_ne, lookup_fmap, Ec by done. simpl.
    unfold vthread, vstate. simpl. by rewrite decide_False. }
  by rewrite !lookup_alter_ne, lookup_fmap by done.
Qed.
End switched.

Lemma alter_same (m : gmap Z thread_t) t th f :
  m !! t = Some th → f th = th → alter f t m = m.
Proof.
  intros E Ef. apply map_eq. intros x. destruct (decide (x = t)) as [->|?].
  - by rewrite lookup_alter_eq, E; simpl; rewrite Ef.
  - by rewrite lookup_alter_ne.
Qed.

Lemma abs_lookup k t th :
  threads k !! t = Some th → a_threads (abs k) !! t = Some (vthread th).
Proof. intros E. simpl. by rewrite lookup_fmap, E. Qed.

Lemma with_state_same s th : state th = s → with_state s th = th.
Proof. intros <-. by destruct th. Qed.

(** Going to sleep: the next in line runs. *)
Lemma sleep_spec k st :
  sched_inv k → settled k → st ≠ CH_STATE_READY → st ≠ CH_STATE_CURRENT → rlist k ≠ [] →
  wp (chSchGoSleepS st) k (λ _ k',
    sched_inv k' ∧ settled k' ∧ abs k' = a_sleep st (abs k) ∧ objects_kept k k').
Proof.
  intros Hi Hs Hr Hc Hne. destruct (rlist k) as [|t q] eqn:Eq; [done|].
  destruct (switch_spec k t q Hi Eq) as (tht & Et & Est & Htc & Hsw).
  destruct (inv_current k Hi) as (thc & Ec & Esc).
  unfold chSchGoSleepS.
  eapply wp_ok.
  { rewrite bind_gets, (bind_ok _ _ _ _ _ (on_thread_ok k _ _ thc Ec)).
    rewrite Hsw; [reflexivity| |done]. simpl. by rewrite lookup_insert_ne. }
  simpl. set (k' := mk_kernel _ _ _ _ _).
  assert (E' : k' = switched k (currthread k) thc st t tht q) by done.
  pose proof (inv_nodup k Hi) as Hnd. rewrite Eq in Hnd. apply NoDup_cons in Hnd as [Hnin Hnd].
  pose proof (inv_sorted k Hi) as Hso. rewrite Eq in Hso. apply by_prio_cons in Hso as [Hso Hle].
  assert (Hp : ∀ x, prio_of k' x = prio_of k x) by (intros x; rewrite E'; by apply switched_prio).
  assert (Hset : settled k').
  { unfold settled, firstprio. simpl. destruct q as [|x q]; [|].
    - pose proof (inv_prio k Hi _ _ Et). rewrite Hp. unfold prio_of. rewrite Et. lia.
    - rewrite !Hp. specialize (Hle x). rewrite elem_of_cons in Hle. specialize (Hle (or_introl eq_refl)). lia. }
  assert (Hi' : sched_inv k').
  { rewrite E'. apply switched_inv; try done. intros x. rewrite Eq, elem_of_cons.
    split; [intros Hx; split; [by intros ->|by left; right]|].
    by intros [? [[?|?]|[_ ?]]]. }
  split_and!; [done|done| |done]. unfold abs at 1. rewrite (settled_runq k' Hi' Hset).
  rewrite E', switched_threads by done. unfold a_sleep. simpl. rewrite (settled_runq k Hi Hs), Eq.
  f_equal. f_equal. eapply alter_same; [by rewrite lookup_fmap, Et|]. apply with_state_same.
  simpl. unfold vstate. by rewrite Est.
Qed.

(** A thread with a higher priority than the running one takes over; the running
    one stays ahead of its peers. *)
Lemma reschedule_spec k :
  sched_inv k →
  wp chSchRescheduleS k (λ _ k',
    sched_inv k' ∧ settled k' ∧ abs k' = abs k ∧ objects_kept k k').
Proof.
  intros Hi. unfold chSchRescheduleS, mget, wp, mbind, M_bind.
  destruct (decide (firstprio k > prio_of k (currthread k))) as [Hgt|Hle].
  2:{ split_and!; [done| |done..]. unfold settled. lia. }
  destruct (inv_current k Hi) as (thc & Ec & Esc).
  unfold firstprio in Hgt. destruct (rlist k) as [|t q] eqn:Eq.
  { pose proof (inv_prio k Hi _ _ Ec). unfold prio_of in Hgt. rewrite Ec in Hgt. lia. }
  destruct (switch_spec k t q Hi Eq) as (tht & Et & Est & Htc & Hsw).
  unfold __sch_reschedule_ahead. rewrite bind_gets, (bind_ok _ _ _ _ _ (Hsw k Et Eq)).
  unfold __sch_ready_ahead.
  set (k1 := mk_kernel _ _ _ _ _). assert (E1 : threads k1 !! currthread k = Some thc).
  { simpl. by rewrite lookup_insert_ne. }
  rewrite (bind_ok _ _ _ _ _ (on_thread_ok k1 _ _ thc E1)). simpl.
  pose proof (inv_nodup k Hi) as Hnd. rewrite Eq in Hnd. apply NoDup_cons in Hnd as [Hnin Hnd].
  pose proof (inv_sorted k Hi) as Hso. rewrite Eq in Hso. apply by_prio_cons in Hso as [Hso Hle].
  rewrite (insert_ahead_ext _ (prio_of k)).
  2:{ intros x. unfold prio_of. simpl. destruct (decide (x = currthread k)) as [->|?].
      { by rewrite lookup_insert_eq, Ec. }
      rewrite lookup_insert_ne by done. destruct (decide (x = t)) as [->|?].
      { by rewrite lookup_insert_eq, Et. }
      by rewrite lookup_insert_ne by done. }
  set (k' := mk_kernel _ _ _ _ _).
  assert (E' : k' = switched k (currthread k) thc CH_STATE_READY t tht
                      (ch_pqueue_insert_ahead (prio_of k) (currthread k) q)).
  { unfold k', switched. f_equal. by rewrite insert_insert_ne. }
  assert (Hp : ∀ x, prio_of k' x = prio_of k x) by (intros x; rewrite E'; by apply switched_prio).
  assert (Hcq : currthread k ∉ q).
  { intros Hin. apply (current_not_ready k Hi). rewrite Eq. by right. }
  assert (Hi' : sched_inv k').
  { rewrite E'. apply switched_inv; try done.
    - intros x. rewrite insert_ahead_perm, Eq, !elem_of_cons.
      split; [intros [->|Hx]; split; [done|by right|by intros ->|by left; right]|].
      intros [? [[?|?]|[? _]]]; tauto.
    - rewrite insert_ahead_perm. by apply NoDup_cons.
    - by apply insert_ahead_sorted. }
  assert (Hall : ∀ y, y ∈ ch_pqueue_insert_ahead (prio_of k) (currthread k) q → prio_of k t >= prio_of k y).
  { intros y. rewrite insert_ahead_perm, elem_of_cons. intros [->|Hy]; [lia|by apply Hle]. }
  assert (Hset : settled k').
  { unfold settled, firstprio. simpl. destruct (ch_pqueue_insert_ahead _ _ q) as [|x q'] eqn:E.
    - pose proof (inv_prio k Hi _ _ Et). rewrite Hp. unfold prio_of. rewrite Et. lia.
    - rewrite !Hp. specialize (Hall x). rewrite elem_of_cons in Hall. specialize (Hall (or_introl eq_refl)). lia. }
  split_and!; [done|done| |done]. unfold abs at 1. rewrite (settled_runq k' Hi' Hset).
  rewrite E', switched_threads by done. unfold abs, runq. simpl. rewrite Eq. simpl.
  rewrite decide_True by done. f_equal.
  rewrite (alter_same (vthread <$> threads k) t (vthread tht)).
  - apply (alter_same _ _ (vthread thc)); [by rewrite lookup_fmap, Ec|].
    simpl. apply with_state_same. simpl. unfold vstate. by rewrite Esc.
  - by rewrite lookup_fmap, Et.
  - apply with_state_same. simpl. unfold vstate. by rewrite Est.
Qed.

(** Changes of a thread that are none of the scheduler's business. *)
Definition benign (f : thread_t → thread_t) : Prop :=
  ∀ th, prio (f th) = prio th ∧ state (f th) = state th ∧ ∀ s, f (with_state s th) = with_state s (f th).

Lemma benign_u v : benign (with_u v).
Proof. done. Qed.
Lemma benign_epending g : benign (λ th, with_epending (g (epending th)) th).
Proof. done. Qed.
#[export] Hint Resolve benign_u benign_epending : core.

Lemma touch_spec k t f :
  sched_inv k → benign f → is_Some (threads k !! t) →
  ∃ k', on_thread t f k = Ok tt k' ∧ sched_inv k' ∧ (settled k → settled k') ∧
    abs k' = a_set t f (abs k) ∧ objects_kept k k' ∧ currthread k' = currthread k ∧
    (∀ x, prio_of k' x = prio_of k x) ∧ (∀ x, blocked k x → blocked k' x) ∧ rlist k' = rlist k.
Proof.
  intros Hi Hf [th E]. destruct (Hf th) as (Hpr & Hst & Hws).
  eexists. split; [by apply on_thread_upd|]. set (k' := k_upd _ _ _ _ _).
  assert (Hp : ∀ x, prio_of k' x = prio_of k x) by (intros x; by eapply prio_of_upd).
  assert (Hl : ∀ x thx, threads k' !! x = Some thx → ∃ thx0, threads k !! x = Some thx0 ∧
    state thx = state thx0 ∧ prio thx = prio thx0).
  { intros x thx. simpl. destruct (decide (x = t)) as [->|?].
    - rewrite lookup_insert_eq. intros [= <-]. by exists th.
    - rewrite lookup_insert_ne by done. eauto. }
  assert (Hr : ∀ x thx, threads k !! x = Some thx → ∃ thx', threads k' !! x = Some thx' ∧
    state thx' = state thx).
  { intros x thx Ex. simpl. destruct (decide (x = t)) as [->|?].
    - rewrite lookup_insert_eq. eexists. split; [done|]. congruence.
    - rewrite lookup_insert_ne by done. eauto. }
  split_and!; [split| | |done|done|done| |done]; simpl.
  - destruct (inv_current k Hi) as (thc & Ec & Es). destruct (Hr _ _ Ec) as (? & ? & ?). eexists. split; [done|congruence].
  - intros x thx Ex Es. destruct (Hl x thx Ex) as (? & ? & ? & ?). eapply (inv_unique k); [done..|congruence].
  - intros x. rewrite (inv_ready k Hi). split.
    + intros (thx & Ex & Es). destruct (Hr _ _ Ex) as (? & ? & ?). eexists. split; [done|congruence].
    + intros (thx & Ex & Es). destruct (Hl _ _ Ex) as (? & ? & ? & ?). eexists. split; [done|congruence].
  - apply Hi.
  - eapply by_prio_ext, (inv_sorted k Hi). intros x. by rewrite Hp.
  - intros x thx Ex. destruct (Hl x thx Ex) as (? & ? & ? & ->). by eapply (inv_prio k).
  - unfold settled, firstprio. simpl. rewrite Hp. destruct (rlist k) as [|x q]; [done|]. by rewrite Hp.
  - unfold abs, a_set, runq. simpl. f_equal.
    + eapply vthreads_insert; [done|]. unfold vthread. by rewrite Hst, Hws.
    + apply insert_ahead_ext. intros x. by rewrite Hp.
  - intros x (thx & Ex & ? & ?). destruct (Hr _ _ Ex) as (? & ? & ?). eexists. split; [done|]. split; congruence.
Qed.

Lemma a_ready_top k t :
  sched_inv k → settled k → prio_of k t > prio_of k (currthread k) →
  a_run (a_ready t (abs k)) = t :: runq k.
Proof.
  intros Hi Hs Ht. unfold a_ready. cbn [a_run].
  rewrite (insert_behind_ext _ (prio_of k)).
  - apply insert_behind_top. intros y. rewrite runq_elem. intros [->|Hy]; [done|].
    pose proof (runq_sorted k Hi) as Hso. rewrite (settled_runq k Hi Hs) in Hso.
    apply by_prio_cons in Hso as [_ Hso]. specialize (Hso y Hy). lia.
  - intros x. unfold a_prio, a_set. simpl. destruct (decide (x = t)) as [->|?].
    + rewrite lookup_alter_eq, lookup_fmap. unfold prio_of. by destruct (threads k !! t).
    + rewrite lookup_alter_ne, lookup_fmap by done. unfold prio_of. by destruct (threads k !! x).
Qed.

Lemma ready_ahead_ok k c thc :
  threads k !! c = Some thc →
  __sch_ready_ahead c k = Ok tt (k_upd k c (with_state CH_STATE_READY thc)
    (ch_pqueue_insert_ahead (prio_of k) c (rlist k)) (currthread k)).
Proof.
  intros Ec. unfold __sch_ready_ahead. rewrite (bind_ok _ _ _ _ _ (on_thread_upd k c _ thc Ec)).
  set (k1 := k_upd _ _ _ _ _).
  assert (E : ch_pqueue_insert_ahead (prio_of k1) c (rlist k1) =
    ch_pqueue_insert_ahead (prio_of k) c (rlist k)).
  { apply insert_ahead_ext. intros x. by eapply prio_of_upd. }
  unfold mget, set_rlist, mmodify, mbind, M_bind. rewrite E. done.
Qed.

(** The woken thread has no higher priority: it goes behind its peers. *)
Lemma wakeup_low k1 t :
  sched_inv k1 → settled k1 → blocked k1 t → prio_of k1 t <= prio_of k1 (currthread k1) →
  wp (__sch_ready_behind t) k1 (λ _ k',
    sched_inv k' ∧ settled k' ∧ abs k' = a_ready t (abs k1) ∧ objects_kept k1 k').
Proof.
  intros Hi Hs Hbl Hle.
  eapply wp_mono; [by apply (ready_spec k1 t)|]. cbv beta. intros _ k2 (Hi2 & Ha2 & Ho2 & Hc2).
  split_and!; [done| |done|by eapply objects_kept_trans].
  assert (Hp2 : ∀ x, prio_of k2 x = prio_of k1 x).
  { intros x. rewrite <-!a_prio_abs, Ha2. unfold a_prio, a_ready, a_set. simpl.
    destruct (decide (x = t)) as [->|?].
    - rewrite lookup_alter_eq, lookup_fmap. by destruct (threads k1 !! t).
    - by rewrite lookup_alter_ne by done. }
  (* the head of the ready list is the old one or [t] *)
  pose proof (runq_sorted k2 Hi2) as Hso. assert (Hrun : ∃ q, runq k2 = currthread k1 :: q).
  { change (runq k2) with (a_run (abs k2)). rewrite Ha2. unfold a_ready. cbn [a_run].
    change (a_run (abs k1)) with (runq k1). simpl. rewrite (settled_runq k1 Hi Hs). simpl.
    rewrite decide_True; [by eexists|]. unfold a_prio. simpl. rewrite lookup_alter_eq, lookup_fmap.
    destruct (decide (currthread k1 = t)) as [->|?]; [rewrite lookup_alter_eq, lookup_fmap; lia|].
    rewrite lookup_alter_ne, lookup_fmap by done. unfold prio_of in Hle.
    destruct (threads k1 !! t), (threads k1 !! currthread k1); simpl in *; lia. }
  destruct Hrun as [q Hrun]. rewrite Hrun in Hso. apply by_prio_cons in Hso as [_ Hso].
  unfold settled, firstprio. rewrite Hc2. destruct (rlist k2) as [|x q'] eqn:Er.
  + destruct (inv_current k1 Hi) as (thc & Ec & _). rewrite Hp2. unfold prio_of. rewrite Ec.
    pose proof (inv_prio k1 Hi _ _ Ec). lia.
  + assert (Hx : x ∈ runq k2) by (rewrite runq_elem, Er; right; by left).
    rewrite Hrun in Hx. apply elem_of_cons in Hx as [->|Hx]; [lia|]. specialize (Hso x Hx). lia.
Qed.

(** It has a higher one: it runs, and the running one stays ahead of its peers. *)
Lemma wakeup_high k1 t :
  sched_inv k1 → settled k1 → blocked k1 t → prio_of k1 t > prio_of k1 (currthread k1) →
  wp (__sch_ready_ahead (currthread k1);; on_thread t (with_state CH_STATE_CURRENT);; set_currthread t)
    k1 (λ _ k',
    sched_inv k' ∧ settled k' ∧ abs k' = a_ready t (abs k1) ∧ objects_kept k1 k').
Proof.
  intros Hi Hs Hbl Hgt.
  destruct Hbl as (tht & Et & Hr & Hc).
  destruct (inv_current k1 Hi) as (thc & Ec & Esc).
  assert (Htc : t ≠ currthread k1) by (intros ->; congruence).
  eapply wp_ok.
  { rewrite (bind_ok _ _ _ _ _ (ready_ahead_ok k1 _ thc Ec)).
    rewrite (bind_ok _ _ _ _ _ (on_thread_upd _ t _ tht (eq_trans (lookup_insert_ne _ _ _ _ (not_eq_sym Htc)) Et))).
    reflexivity. }
  cbn [next listeners threads rlist k_upd]. set (k' := mk_kernel _ _ _ _ _).
  assert (Hhead : ch_pqueue_insert_ahead (prio_of k1) (currthread k1) (rlist k1) =
    currthread k1 :: rlist k1) by apply (settled_runq k1 Hi Hs).
  assert (E' : k' = switched k1 (currthread k1) thc CH_STATE_READY t tht (currthread k1 :: rlist k1)).
  { unfold k', switched. by rewrite Hhead. }
  assert (Hp : ∀ x, prio_of k' x = prio_of k1 x) by (intros x; rewrite E'; by apply switched_prio).
  pose proof (runq_sorted k1 Hi) as Hso. rewrite (settled_runq k1 Hi Hs) in Hso.
  assert (Hnr : t ∉ rlist k1).
  { intros Hin. apply (inv_ready k1 Hi) in Hin as (th' & E1' & ?). congruence. }
  assert (Hi' : sched_inv k').
  { rewrite E'. apply switched_inv; try done.
    - intros x. rewrite elem_of_cons. split.
      + intros [->|Hx]; [split; [congruence|by right]|split; [by intros ->|by left]].
      + intros [? [?|[? _]]]; tauto.
    - rewrite <-(settled_runq k1 Hi Hs). by apply runq_nodup. }
  assert (Hset : settled k').
  { assert (Er : rlist k' = currthread k1 :: rlist k1) by (by rewrite E').
    unfold settled, firstprio. rewrite Er, !Hp. simpl. lia. }
  split_and!; [done|done| |done].
  assert (Ht : a_threads (abs k') = a_threads (a_ready t (abs k1))).
  { unfold abs at 1. cbn [a_threads]. rewrite E', switched_threads by done. simpl.
    apply (alter_same _ _ (vthread thc)); [by rewrite lookup_alter_ne, lookup_fmap, Ec by done|].
    apply with_state_same. simpl. unfold vstate. by rewrite Esc. }
  assert (Hr' : a_run (abs k') = a_run (a_ready t (abs k1))).
  { rewrite (a_ready_top k1 t Hi Hs) by lia. unfold abs. cbn [a_run]. rewrite (settled_runq k' Hi' Hset), E'. simpl.
    by rewrite (settled_runq k1 Hi Hs). }
  destruct (abs k'), (a_ready t (abs k1)). simpl in *. by subst.
Qed.

(** Waking a blocked thread from a thread: it runs at once or goes behind its
    peers, and in the order of the runnable threads that is the same thing. *)
Lemma wakeup_spec k t msg :
  sched_inv k → settled k → blocked k t →
  wp (chSchWakeupS t msg) k (λ _ k',
    sched_inv k' ∧ settled k' ∧ abs k' = a_ready t (a_set t (with_u msg) (abs k)) ∧
    objects_kept k k').
Proof.
  intros Hi0 Hs0 Hb0. unfold chSchWakeupS.
  destruct (touch_spec k t (with_u msg) Hi0 (benign_u msg)) as
    (k1 & E1 & Hi & Hs & Ha & Hobj & Hcur & Hp & Hbl & Hrl); [destruct Hb0 as (? & ? & _); by eexists|].
  apply wp_bind, wp_gets. eapply wp_bind, wp_ok; [exact E1|]. rewrite <-Ha. specialize (Hs Hs0).
  specialize (Hbl t Hb0). clear Hp Ha. rewrite <-Hcur. clear E1 Hcur Hrl Hi0 Hs0 Hb0.
  eapply wp_bind, wp_get. destruct (decide _) as [Hle|Hgt].
  - eapply wp_mono; [by apply (wakeup_low k1)|]. cbv beta. intros _ k2 (? & ? & ? & ?).
    split_and!; [done..|by eapply objects_kept_trans].
  - eapply wp_mono; [apply (wakeup_high k1); [done..|lia]|]. cbv beta. intros _ k2 (? & ? & ? & ?).
    split_and!; [done..|by eapply objects_kept_trans].
Qed.
