(* ===== verification/ChEvents.v ===== *)
(** * What event sources do

    Facts on the event functions of [ChKernel.v], in terms of the abstraction of
    [ChSched.v]: the list of listeners of a source, signalling, broadcasting,
    waiting, and the creation of threads. *)
From S2P Require Import Prelude ChKernel ChSched.

(** ** Signals *)

Lemma signal_spec k t evs :
  sched_inv k → is_Some (threads k !! t) →
  wp (chEvtSignalI t evs) k (λ _ k',
    sched_inv k' ∧ abs k' = a_signal t evs (abs k) ∧ objects_kept k k' ∧ currthread k' = currthread k).
Proof.
  intros Hi0 Hex. unfold chEvtSignalI. set (f := λ th, with_epending (Z.lor (epending th) evs) th).
  destruct (touch_spec k t f Hi0) as (k1 & E1 & Hi & _ & Ha & Ho & Hcur & _ & Hbl & _); [done..|].
  eapply wp_bind, wp_ok; [exact E1|]. unfold a_signal. fold f. rewrite <-Ha.
  destruct Hex as [th0 E0]. assert (Hth : ∃ th, threads k1 !! t = Some th).
  { destruct (threads k1 !! t) eqn:E; [by eexists|]. unfold on_thread, get_thread, mget in E1.
    unfold mbind, M_bind, mlift in E1. rewrite E0 in E1. injection E1 as <-. simpl in E.
    by rewrite lookup_insert_eq in E. }
  destruct Hth as [th E]. rewrite (abs_lookup k1 t th E).
  unfold get_thread. eapply wp_bind, wp_bind, wp_get. eapply wp_lift; [exact E|].
  assert (Hmet : event_wait_met (vthread th) = event_wait_met th).
  { unfold event_wait_met, vthread, vstate. simpl.
    destruct (decide (state th = CH_STATE_CURRENT)) as [->|]; done. }
  rewrite Hmet. destruct (event_wait_met th) eqn:Em.
  2:{ apply wp_ret. split_and!; done. }
  assert (Hb1 : blocked k1 t).
  { exists th. split; [done|]. unfold event_wait_met in Em. apply orb_true_iff in Em.
    destruct Em as [H|H]; apply bool_decide_eq_true in H as [-> _]; done. }
  destruct (touch_spec k1 t (with_u MSG_OK) Hi) as (k2 & E2 & Hi2 & _ & Ha2 & Ho2 & Hcur2 & _ & Hbl2 & _);
    [done|by eexists|].
  eapply wp_bind, wp_ok; [exact E2|]. rewrite <-Ha2.
  eapply wp_mono; [apply ready_spec; [done|by apply Hbl2]|]. cbv beta.
  intros _ k3 (Hi3 & Ha3 & Ho3 & Hcur3). split_and!; [done|done| |congruence].
  eapply objects_kept_trans, objects_kept_trans; [exact Ho|exact Ho2|exact Ho3].
Qed.

(** ** The list of listeners *)

Fixpoint chain (nx : gmap Z Z) (s p : Z) (ls : list Z) : Prop :=
  match ls with
  | [] => nx !! p = Some s
  | x :: ls => nx !! p = Some x ∧ x ≠ s ∧ chain nx s x ls
  end.

(** The listeners registered on source [s], newest first. *)
Definition registered (k : kernel) (s : Z) (ls : list Z) : Prop :=
  chain (next k) s s ls ∧ NoDup ls ∧ ∀ l, l ∈ ls → is_Some (listeners k !! l).

Lemma chain_dom nx s p ls : chain nx s p ls → ∀ x, x ∈ p :: ls → is_Some (nx !! x).
Proof.
  revert p. induction ls as [|y ls IH]; simpl; intros p.
  - intros E x. rewrite elem_of_cons. intros [->|[]%not_elem_of_nil]. by eexists.
  - intros (E & _ & Hc) x. rewrite elem_of_cons. intros [->|Hx]; [by eexists|]. by eapply IH.
Qed.
Lemma chain_not_source nx s p ls : chain nx s p ls → s ∉ ls.
Proof.
  revert p. induction ls as [|y ls IH]; simpl; intros p; [intros _; apply not_elem_of_nil|].
  intros (_ & Hne & Hc) Hin. apply elem_of_cons in Hin as [->|Hin]; [done|]. by eapply IH.
Qed.
Lemma chain_insert nx s p ls a b : a ∉ p :: ls → chain nx s p ls → chain (<[a := b]> nx) s p ls.
Proof.
  revert p. induction ls as [|y ls IH]; simpl; intros p Ha.
  - intros E. rewrite lookup_insert_ne; [done|]. intros ->. apply Ha. by left.
  - intros (E & Hne & Hc). split_and!; [|done|].
    + rewrite lookup_insert_ne; [done|]. intros ->. apply Ha. by left.
    + apply IH; [|done]. intros Hin. apply Ha. by right.
Qed.

(** Following the list needs fewer steps than there are [next] words. *)
Lemma registered_fuel k s ls : registered k s ls → (length ls < S (size (next k)))%nat.
Proof.
  intros (Hc & Hnd & _).
  assert (Hsub : list_to_set ls ⊆@{gset Z} dom (next k)).
  { intros x. rewrite elem_of_list_to_set. intros Hx. apply elem_of_dom.
    eapply chain_dom; [exact Hc|]. by right. }
  apply subseteq_size in Hsub. rewrite size_list_to_set in Hsub by done. rewrite size_dom in Hsub. lia.
Qed.

Lemma init_registered k s :
  wp (chEvtObjectInit s) k (λ _ k', registered k' s [] ∧ abs k' = abs k ∧ (sched_inv k → sched_inv k') ∧
    (settled k → settled k') ∧ currthread k' = currthread k ∧ listeners k' = listeners k ∧
    next k' = <[s := s]> (next k)).
Proof.
  unfold chEvtObjectInit, set_next. apply wp_modify. split_and!; try done.
  - split_and!; simpl; [by rewrite lookup_insert_eq|constructor|intros ? []%not_elem_of_nil].
  - intros [H1 H2 H3 H4 H5 H6]. by split.
Qed.

Lemma register_spec k s l evs wfl ls :
  registered k s ls → l ∉ ls → l ≠ s →
  wp (chEvtRegisterMaskWithFlags s l evs wfl) k (λ _ k',
    registered k' s (l :: ls) ∧
    listeners k' = <[l := mk_listener (currthread k) evs 0 wfl]> (listeners k) ∧
    abs k' = abs k ∧ (sched_inv k → sched_inv k') ∧ (settled k → settled k') ∧
    currthread k' = currthread k ∧
    ∃ n, next k !! s = Some n ∧ next k' = <[s := l]> (<[l := n]> (next k))).
Proof.
  intros (Hc & Hnd & Hls) Hl Hne. assert (Hn : ∃ n, next k !! s = Some n).
  { eapply chain_dom; [exact Hc|by left]. }
  destruct Hn as [n En]. unfold chEvtRegisterMaskWithFlags, chEvtRegisterMaskWithFlagsI.
  unfold get_next, mget, set_next, set_listener, wp, mbind, M_bind, mgets, mlift. rewrite En. simpl.
  split_and!; try done; [split_and!| |by eexists].
  - simpl. split_and!; [by rewrite lookup_insert_eq|done|].
    destruct ls as [|y ls]; simpl in Hc |- *.
    + rewrite lookup_insert_ne, lookup_insert_eq by done. congruence.
    + destruct Hc as (Ey & Hys & Hc). split_and!; [|done|].
      { rewrite lookup_insert_ne, lookup_insert_eq by done. congruence. }
      apply chain_insert; [|apply chain_insert; [|done]].
      * intros Hin. apply (chain_not_source (next k) s s (y :: ls)); [simpl; by split_and!|done].
      * done.
  - by apply NoDup_cons.
  - intros x. rewrite elem_of_cons. simpl. intros Hx. destruct (decide (x = l)) as [->|?].
    + rewrite lookup_insert_eq. by eexists.
    + rewrite lookup_insert_ne by done. apply Hls. by destruct Hx.
  - intros [H1 H2 H3 H4 H5 H6]. by split.
Qed.

(** ** Broadcasts *)

Definition or_flags (fl : Z) (l : event_listener_t) : event_listener_t :=
  mk_listener (listener l) (events l) (Z.lor (flags l) fl) (wflags l).
Definition wants (fl : Z) (l : event_listener_t) : Prop := fl = 0 ∨ Z.land fl (wflags l) ≠ 0.
#[export] Instance wants_dec fl l : Decision (wants fl l).
Proof. unfold wants. apply _. Defined.

(** The listeners [ls] are told, one after the other. *)
Definition a_notify (fl : Z) (m : gmap Z event_listener_t) (ls : list Z) (a : akernel) : akernel :=
  foldl (λ a l, match m !! l with
                | Some e => if decide (wants fl e) then a_signal (listener e) (events e) a else a
                | None => a
                end) a ls.

Definition listeners_alive (k : kernel) (ls : list Z) : Prop :=
  ∀ l e, l ∈ ls → listeners k !! l = Some e → is_Some (a_threads (abs k) !! listener e).

Lemma alive_abs k t : is_Some (a_threads (abs k) !! t) ↔ is_Some (threads k !! t).
Proof. simpl. rewrite lookup_fmap. by rewrite fmap_is_Some. Qed.

Lemma a_signal_alive t evs a x :
  is_Some (a_threads (a_signal t evs a) !! x) ↔ is_Some (a_threads a !! x).
Proof.
  assert (H : ∀ f a, is_Some (a_threads (a_set t f a) !! x) ↔ is_Some (a_threads a !! x)).
  { intros f b. unfold a_set. simpl. destruct (decide (x = t)) as [->|?].
    - rewrite lookup_alter_eq. by rewrite fmap_is_Some.
    - by rewrite lookup_alter_ne. }
  unfold a_signal. destruct (a_threads (a_set t _ a) !! t) as [th|] eqn:E; [|by rewrite H].
  destruct (event_wait_met th); [|by rewrite H]. unfold a_ready. cbn [a_threads]. by rewrite !H.
Qed.

Lemma broadcast_loop_spec fl s ls : ∀ fuel k p e,
  (length ls < fuel)%nat → sched_inv k → chain (next k) s p ls → next k !! p = Some e → NoDup ls →
  (∀ l, l ∈ ls → is_Some (listeners k !! l)) → listeners_alive k ls →
  wp (broadcast_loop fuel s fl e) k (λ _ k',
    sched_inv k' ∧ abs k' = a_notify fl (listeners k) ls (abs k) ∧
    next k' = next k ∧ currthread k' = currthread k ∧
    ∀ l, listeners k' !! l = if decide (l ∈ ls) then or_flags fl <$> listeners k !! l else listeners k !! l).
Proof.
  induction ls as [|l ls IH]; intros fuel k p e Hf Hi Hc Ee Hnd Hls Hal; simpl in Hf;
    (destruct fuel as [|fuel]; [lia|]); simpl in Hc |- *.
  - rewrite Hc in Ee. injection Ee as <-. rewrite decide_True by done. apply wp_ret. split_and!; done.
  - destruct Hc as (El & Hls' & Hc). rewrite El in Ee. injection Ee as <-.
    rewrite decide_False by done. apply NoDup_cons in Hnd as [Hnin Hnd].
    destruct (Hls l ltac:(by left)) as [e Ele].
    unfold get_listener. eapply wp_bind, wp_bind, wp_get. eapply wp_lift; [exact Ele|].
    eapply wp_bind, wp_modify. set (k0 := mk_kernel _ _ _ _ _). simpl.
    assert (Hi0 : sched_inv k0) by (destruct Hi; by split).
    assert (Hstep : wp (if decide (fl = 0 ∨ Z.land fl (wflags e) ≠ 0) then chEvtSignalI (listener e) (events e)
        else mret tt) k0 (λ _ k1, sched_inv k1 ∧
        abs k1 = (if decide (wants fl e) then a_signal (listener e) (events e) (abs k) else abs k) ∧
        objects_kept k0 k1 ∧ currthread k1 = currthread k)).
    { unfold wants. destruct (decide _) as [Hw|Hw].
      - apply (signal_spec k0); [done|]. apply alive_abs. apply (Hal l e); [by left|done].
      - apply wp_ret. by split_and!. }
    eapply wp_seq; [exact Hstep|]. cbv beta. intros _ k1 (Hi1 & Ha1 & [Hn1 Hl1] & Hcur1).
    assert (Hn : ∃ n, next k1 !! l = Some n).
    { rewrite Hn1. simpl. eapply chain_dom; [exact Hc|by left]. }
    destruct Hn as [n En]. unfold get_next. eapply wp_bind, wp_bind, wp_get. eapply wp_lift; [exact En|].
    assert (Hother : ∀ x, x ≠ l → listeners k1 !! x = listeners k !! x).
    { intros x Hx. rewrite Hl1. simpl. by rewrite lookup_insert_ne. }
    eapply wp_mono; [apply (IH fuel k1 l n); try done|].
    + lia.
    + by rewrite Hn1.
    + intros x Hx. rewrite Hother by (by intros ->). apply Hls. by right.
    + intros x ex Hx Ex. rewrite Hother in Ex by (by intros ->). rewrite Ha1.
      destruct (decide (wants fl e)); [rewrite a_signal_alive|]; apply (Hal x ex); try done; by right.
    + cbv beta. intros _ k2 (Hi2 & Ha2 & Hn2 & Hcur2 & Hl2). split_and!; [done| |by rewrite Hn2|congruence|].
      * rewrite Ha2, Ha1. unfold a_notify at 2. simpl. rewrite Ele. fold (a_notify fl (listeners k)).
        clear - Hother Hnin. generalize (if decide (wants fl e) then a_signal (listener e) (events e) (abs k) else abs k).
        induction ls as [|y ls IH]; intros a; [done|]. simpl.
        rewrite Hother by (intros ->; apply Hnin; by left). apply IH. intros ?. apply Hnin. by right.
      * intros x. rewrite Hl2. destruct (decide (x = l)) as [->|Hx].
        -- rewrite decide_False by done. rewrite (decide_True (P := l ∈ l :: ls)) by (by left).
           rewrite Hl1, Ele. simpl. by rewrite lookup_insert_eq.
        -- rewrite Hother by done. destruct (decide (x ∈ ls)).
           ++ by rewrite (decide_True (P := x ∈ l :: ls)) by (by right).
           ++ rewrite (decide_False (P := x ∈ l :: ls)); [done|]. rewrite elem_of_cons. by intros [?|?].
Qed.

Lemma broadcast_flags_spec k s fl ls :
  sched_inv k → registered k s ls → listeners_alive k ls →
  wp (chEvtBroadcastFlagsI s fl) k (λ _ k',
    sched_inv k' ∧ abs k' = a_notify fl (listeners k) ls (abs k) ∧
    next k' = next k ∧ currthread k' = currthread k ∧
    ∀ l, listeners k' !! l = if decide (l ∈ ls) then or_flags fl <$> listeners k !! l else listeners k !! l).
Proof.
  intros Hi Hreg Hal. pose proof (registered_fuel k s ls Hreg) as Hf. destruct Hreg as (Hc & Hnd & Hls).
  assert (Hn : ∃ n, next k !! s = Some n) by (eapply chain_dom; [exact Hc|by left]). destruct Hn as [n En].
  unfold chEvtBroadcastFlagsI. eapply wp_bind, wp_get. unfold get_next.
  eapply wp_bind, wp_bind, wp_get. eapply wp_lift; [exact En|]. by eapply broadcast_loop_spec.
Qed.

(** A broadcast without flags changes no listener. *)
Lemma broadcast_spec k s ls :
  sched_inv k → registered k s ls → listeners_alive k ls →
  wp (chEvtBroadcastI s) k (λ _ k',
    sched_inv k' ∧ abs k' = a_notify 0 (listeners k) ls (abs k) ∧ objects_kept k k' ∧
    currthread k' = currthread k).
Proof.
  intros Hi Hreg Hal. eapply wp_mono; [by apply broadcast_flags_spec|]. cbv beta.
  intros _ k' (? & ? & ? & ? & Hl). split_and!; [done|done|split; [done|]|done].
  apply map_eq. intros l. rewrite Hl. destruct (decide (l ∈ ls)); [|done].
  destruct (listeners k !! l) as [[]|]; [|done]. simpl. unfold or_flags. simpl. by rewrite Z.lor_0_r.
Qed.

(** ** What a broadcast does to a thread *)

(** The events the listeners [ls] give to thread [t]. *)
Definition events_for (m : gmap Z event_listener_t) (t : Z) (ls : list Z) : Z :=
  foldr (λ l acc, match m !! l with
                  | Some e => if decide (listener e = t) then Z.lor (events e) acc else acc
                  | None => acc
                  end) 0 ls.

Lemma met_state th : event_wait_met th = true → state th = CH_STATE_WTOREVT ∨ state th = CH_STATE_WTANDEVT.
Proof.
  unfold event_wait_met. intros [H|H]%orb_true_iff; apply bool_decide_eq_true in H as [-> _]; auto.
Qed.

Lemma met_more th x :
  event_wait_met th = true → event_wait_met (with_epending (Z.lor (epending th) x) th) = true.
Proof.
  unfold event_wait_met. simpl. intros [H|H]%orb_true_iff; apply bool_decide_eq_true in H as [Hs H];
    apply orb_true_iff; [left|right]; apply bool_decide_eq_true; (split; [done|]);
    rewrite Z.land_lor_distr_l.
  - intros [? _]%Z.lor_eq_0_iff. done.
  - rewrite H. apply Z.bits_inj'. intros i Hi. rewrite Z.lor_spec, Z.land_spec.
    by destruct (Z.testbit (u th) i), (Z.testbit x i).
Qed.

Definition woken (th : thread_t) : thread_t :=
  mk_thread (prio th) CH_STATE_READY (epending th) MSG_OK.
Definition signalled (e : Z) (th : thread_t) : thread_t :=
  let th := with_epending (Z.lor (epending th) e) th in
  if event_wait_met th then woken th else th.

Lemma signalled_epending e th : epending (signalled e th) = Z.lor (epending th) e.
Proof. unfold signalled. cbv zeta. by destruct (event_wait_met _). Qed.

Lemma with_epending_same th : with_epending (epending th) th = th.
Proof. by destruct th. Qed.

Lemma signal_self t evs a th :
  a_threads a !! t = Some th → a_threads (a_signal t evs a) !! t = Some (signalled evs th).
Proof.
  intros E. unfold a_signal, signalled. set (f := λ th, with_epending (Z.lor (epending th) evs) th).
  assert (E1 : a_threads (a_set t f a) !! t = Some (f th)).
  { unfold a_set. simpl. by rewrite lookup_alter_eq, E. }
  rewrite E1. fold (f th). destruct (event_wait_met (f th)); [|done].
  unfold a_ready. cbn [a_threads]. unfold a_set at 1 2. simpl.
  rewrite !lookup_alter_eq. simpl in E1. rewrite lookup_alter_eq in E1. rewrite E1. done.
Qed.
Lemma signal_other t evs a x : x ≠ t → a_threads (a_signal t evs a) !! x = a_threads a !! x.
Proof.
  intros Hne. assert (H : ∀ f a, a_threads (a_set t f a) !! x = a_threads a !! x).
  { intros f b. unfold a_set. simpl. by rewrite lookup_alter_ne. }
  unfold a_signal. destruct (a_threads (a_set t _ a) !! t) as [th|]; [|by rewrite H].
  destruct (event_wait_met th); [|by rewrite H]. unfold a_ready. cbn [a_threads]. by rewrite !H.
Qed.

Lemma signalled_0 th : event_wait_met th = false → signalled 0 th = th.
Proof. intros H. unfold signalled. by rewrite Z.lor_0_r, with_epending_same, H. Qed.

Lemma signalled_twice e1 e2 th :
  event_wait_met (signalled e1 th) = false ∧
  signalled e2 (signalled e1 th) = signalled (Z.lor e1 e2) th.
Proof.
  unfold signalled at 1 3. set (th1 := with_epending _ th). destruct (event_wait_met th1) eqn:E1.
  - split; [done|]. unfold signalled. simpl. rewrite Z.lor_assoc.
    pose proof (met_more th1 e2 E1) as H2. unfold th1 in H2. simpl in H2.
    change (with_epending _ (with_epending _ th)) with
      (with_epending (Z.lor (Z.lor (epending th) e1) e2) th) in H2. by rewrite H2.
  - split; [done|]. unfold signalled, th1. simpl. by rewrite Z.lor_assoc.
Qed.

Lemma notify_cons m l ls a :
  a_notify 0 m (l :: ls) a =
  a_notify 0 m ls (match m !! l with Some e => a_signal (listener e) (events e) a | None => a end).
Proof.
  unfold a_notify. cbn [foldl]. destruct (m !! l) as [e|]; [|done].
  by rewrite decide_True by (by left).
Qed.

(** A thread has gained the events its listeners give it, and runs again if
    that is what it waited for. *)
Lemma notify_thread m ls t : ∀ a th,
  a_threads a !! t = Some th → event_wait_met th = false →
  a_threads (a_notify 0 m ls a) !! t = Some (signalled (events_for m t ls) th).
Proof.
  induction ls as [|l ls IH]; intros a th E Hm.
  { simpl. by rewrite signalled_0. }
  rewrite notify_cons. cbn [events_for foldr]. fold (events_for m t ls).
  destruct (m !! l) as [e|]; [|by apply IH].
  destruct (decide (listener e = t)) as [<-|Hne].
  - destruct (signalled_twice (events e) (events_for m (listener e) ls) th) as [H1 <-].
    apply IH; [|done]. by apply signal_self.
  - apply IH; [|done]. by rewrite signal_other.
Qed.

(** ** Waiting *)

Lemma lowest_event_nonzero m : 0 < m < 4294967296 → lowest_event m ≠ 0.
Proof.
  intros Hm H. unfold lowest_event in H. apply Z.lxor_eq in H. rewrite u32_id in H by (unfold is_u32; lia).
  assert (Hle : Z.land m (m - 1) <= m - 1).
  { apply Z.ldiff_le; [lia|]. apply Z.bits_inj'. intros i Hi.
    rewrite Z.ldiff_spec, Z.land_spec, Z.bits_0. by destruct (Z.testbit m i), (Z.testbit (m - 1) i). }
  lia.
Qed.

Lemma wait_one_sleeps k evs th :
  sched_inv k → settled k → threads k !! currthread k = Some th → Z.land (epending th) evs = 0 →
  rlist k ≠ [] →
  wp (chEvtWaitOne evs) k (λ r k', r = None ∧ sched_inv k' ∧ settled k' ∧ objects_kept k k' ∧
    abs k' = a_sleep CH_STATE_WTOREVT (a_set (currthread k) (with_u evs) (abs k))).
Proof.
  intros Hi0 Hs0 E Hz Hne. unfold chEvtWaitOne. apply wp_bind, wp_gets. unfold get_thread.
  eapply wp_bind, wp_bind, wp_get. eapply wp_lift; [exact E|]. rewrite decide_True by done.
  destruct (touch_spec k (currthread k) (with_u evs) Hi0) as
    (k1 & E1 & Hi & Hs & Ha & Ho & _ & _ & _ & Hr); [done|by eexists|].
  eapply wp_bind, wp_ok; [exact E1|]. rewrite <-Ha.
  wp_with (sleep_spec k1 CH_STATE_WTOREVT); [done|by apply Hs|done|done|by rewrite Hr|].
  intros _ k2 (? & ? & ? & ?). apply wp_ret. split_and!; try done. by eapply objects_kept_trans.
Qed.

Lemma take_one_spec k evs th :
  sched_inv k → threads k !! currthread k = Some th →
  wp (take_one evs) k (λ m k', m = lowest_event (Z.land (epending th) evs) ∧
    sched_inv k' ∧ (settled k → settled k') ∧ objects_kept k k' ∧ currthread k' = currthread k ∧
    abs k' = a_set (currthread k) (λ th, with_epending (Z.land (epending th) (u32 (Z.lnot m))) th) (abs k)).
Proof.
  intros Hi E. unfold take_one. apply wp_bind, wp_gets. unfold get_thread.
  eapply wp_bind, wp_bind, wp_get. eapply wp_lift; [exact E|]. cbv zeta.
  set (m := lowest_event _). set (f := λ th, with_epending (Z.land (epending th) (u32 (Z.lnot m))) th).
  destruct (touch_spec k (currthread k) f Hi) as (k1 & E1 & Hi1 & Hs & Ha & Ho & Hc & _); [done|by eexists|].
  rewrite (on_thread_ok k _ _ th E) in E1. injection E1 as E1.
  eapply wp_bind, wp_modify. fold (f th). rewrite E1. by apply wp_ret.
Qed.

Lemma wait_one_takes k evs th :
  sched_inv k → threads k !! currthread k = Some th → Z.land (epending th) evs ≠ 0 →
  wp (chEvtWaitOne evs) k (λ r k', ∃ m, r = Some m ∧ m = lowest_event (Z.land (epending th) evs) ∧
    sched_inv k' ∧ (settled k → settled k') ∧ objects_kept k k' ∧ currthread k' = currthread k ∧
    abs k' = a_set (currthread k) (λ th, with_epending (Z.land (epending th) (u32 (Z.lnot m))) th) (abs k)).
Proof.
  intros Hi E Hz. unfold chEvtWaitOne. apply wp_bind, wp_gets. unfold get_thread.
  eapply wp_bind, wp_bind, wp_get. eapply wp_lift; [exact E|]. rewrite decide_False by done.
  wp_with take_one_spec; [done..|]. intros m k' H. apply wp_ret. exists m. by split.
Qed.

(** ** Creating a thread *)

Definition a_create (t pr : Z) (a : akernel) : akernel :=
  a_ready t (mk_ak (<[t := mk_thread pr CH_STATE_WTSTART 0 MSG_OK]> (a_threads a)) (a_run a)).

Lemma create_spec k t pr :
  sched_inv k → settled k → threads k !! t = None → 0 < pr →
  wp (chThdCreateStatic t pr) k (λ _ k', sched_inv k' ∧ settled k' ∧ abs k' = a_create t pr (abs k) ∧
    objects_kept k k').
Proof.
  intros Hi Hs Hn Hpr. unfold chThdCreateStatic. apply wp_bind, wp_modify. set (k1 := mk_kernel _ _ _ _ _).
  assert (Hnr : t ∉ rlist k).
  { intros (th & E & _)%(inv_ready k Hi). congruence. }
  assert (Hcur : t ≠ currthread k).
  { intros ->. destruct (inv_current k Hi) as (th & E & _). congruence. }
  assert (Hp : ∀ x, x ≠ t → prio_of k1 x = prio_of k x).
  { intros x Hx. unfold prio_of. simpl. by rewrite lookup_insert_ne. }
  assert (Hbe : ∀ q, t ∉ q → by_prio (prio_of k) q → by_prio (prio_of k1) q).
  { induction q as [|x q IH]; [constructor|]. rewrite !by_prio_cons, elem_of_cons. intros Hq [? Hx].
    split; [apply IH; tauto|]. intros y Hy. rewrite !Hp; [by apply Hx|by intros ->; tauto|by intros ->; tauto]. }
  assert (Hi1 : sched_inv k1).
  { split; simpl.
    - destruct (inv_current k Hi) as (th & E & ?). exists th. by rewrite lookup_insert_ne.
    - intros x th. destruct (decide (x = t)) as [->|?]; [rewrite lookup_insert_eq; by intros [= <-]|].
      rewrite lookup_insert_ne by done. apply (inv_unique k Hi).
    - intros x. rewrite (inv_ready k Hi). destruct (decide (x = t)) as [->|?].
      + rewrite lookup_insert_eq, Hn. split; intros (? & ? & ?); naive_solver.
      + by rewrite lookup_insert_ne.
    - apply Hi.
    - by apply Hbe, Hi.
    - intros x th. destruct (decide (x = t)) as [->|?]; [rewrite lookup_insert_eq; by intros [= <-]|].
      rewrite lookup_insert_ne by done. apply (inv_prio k Hi). }
  assert (Hs1 : settled k1).
  { unfold settled in *. rewrite Hp by done. unfold firstprio in *. simpl. destruct (rlist k) as [|x q] eqn:E; [done|].
    rewrite Hp; [done|]. intros ->. apply Hnr. by left. }
  eapply wp_mono; [apply (wakeup_spec k1); [done|done|]|].
  { eexists. simpl. rewrite lookup_insert_eq. by split. }
  cbv beta. intros _ k2 (? & ? & Ha & [? ?]). split_and!; [done|done| |by split].
  rewrite Ha. unfold a_create. f_equal. unfold a_set, abs. simpl. f_equal.
  - apply map_eq. intros x. destruct (decide (x = t)) as [->|?].
    + by rewrite lookup_alter_eq, lookup_fmap, !lookup_insert_eq.
    + by rewrite lookup_alter_ne, lookup_fmap, !lookup_insert_ne, lookup_fmap by done.
  - unfold runq. simpl. revert Hnr. generalize (rlist k). induction l as [|x q IH]; [done|].
    rewrite elem_of_cons. intros Hnr. simpl. rewrite !Hp by (done || (intros ->; tauto)). destruct (decide _); [|done].
    rewrite IH; [done|tauto].
Qed.
