(* ===== verification/ChProps.v ===== *)
(** * Theorems on the kernel

    The scheduler refines one ordered list of runnable threads; a broadcast
    reaches exactly the threads registered for it; no event is lost between a
    broadcast and a wait, whichever comes first. *)
From S2P Require Import Prelude ChKernel ChSched ChEvents.

(** ** The scheduler *)

(** What threads and interrupts ask of the scheduler. *)
Inductive sched_op : Type :=
  | OSleep (st : tstate_t)       (* the running thread goes to sleep *)
  | OWake (t msg : Z)            (* the running thread wakes another *)
  | OIrq (ts : list Z).          (* an interrupt readies threads and ends *)

Fixpoint ready_all (ts : list Z) : M kernel unit :=
  match ts with [] => mret tt | t :: ts => chSchReadyI t;; ready_all ts end.
Definition run_sched (op : sched_op) : M kernel unit :=
  match op with
  | OSleep st => chSchGoSleepS st
  | OWake t msg => chSchWakeupS t msg
  | OIrq ts => ready_all ts;; chSchPreemption
  end.
Fixpoint run_scheds (ops : list sched_op) : M kernel unit :=
  match ops with [] => mret tt | op :: ops => run_sched op;; run_scheds ops end.

Definition a_sched (op : sched_op) (a : akernel) : akernel :=
  match op with
  | OSleep st => a_sleep st a
  | OWake t msg => a_ready t (a_set t (with_u msg) a)
  | OIrq ts => foldl (λ a t, a_ready t a) a ts
  end.
Definition a_blocked (a : akernel) (t : Z) : Prop :=
  ∃ th, a_threads a !! t = Some th ∧ state th ≠ CH_STATE_READY.
Definition a_legal (op : sched_op) (a : akernel) : Prop :=
  match op with
  | OSleep st => st ≠ CH_STATE_READY ∧ st ≠ CH_STATE_CURRENT ∧ (1 < length (a_run a))%nat
  | OWake t _ => a_blocked a t
  | OIrq ts => NoDup ts ∧ Forall (a_blocked a) ts
  end.
Fixpoint a_legals (ops : list sched_op) (a : akernel) : Prop :=
  match ops with [] => True | op :: ops => a_legal op a ∧ a_legals ops (a_sched op a) end.

Lemma abs_blocked k t : a_blocked (abs k) t → blocked k t.
Proof.
  intros (th & E & Hs). simpl in E. rewrite lookup_fmap in E. apply fmap_Some in E as (th0 & E0 & ->).
  exists th0. split; [done|]. simpl in Hs. unfold vstate in Hs. destruct (decide _); [done|]. by split.
Qed.

Lemma settled_rlist k : sched_inv k → settled k → (1 < length (a_run (abs k)))%nat → rlist k ≠ [].
Proof. intros Hi Hs Hl E. simpl in Hl. rewrite (settled_runq k Hi Hs), E in Hl. simpl in Hl. lia. Qed.

Lemma ready_blocked_other a t x : t ≠ x → a_blocked a x → a_blocked (a_ready t a) x.
Proof.
  intros Hne (th & E & Hs). exists th. split; [|done]. unfold a_ready, a_set. simpl.
  by rewrite lookup_alter_ne.
Qed.

Lemma ready_all_spec ts : ∀ k,
  sched_inv k → NoDup ts → Forall (a_blocked (abs k)) ts →
  wp (ready_all ts) k (λ _ k', sched_inv k' ∧ abs k' = foldl (λ a t, a_ready t a) (abs k) ts ∧
    objects_kept k k').
Proof.
  induction ts as [|t ts IH]; intros k Hi Hnd Hb; simpl; [by apply wp_ret|].
  apply NoDup_cons in Hnd as [Hnin Hnd]. apply Forall_cons in Hb as [Ht Hb].
  wp_with (ready_spec k t); [done|by apply abs_blocked|]. cbv beta. intros _ k1 (Hi1 & Ha1 & Ho1 & _).
  eapply wp_mono; [apply IH; [done..|]|].
  - rewrite Ha1. eapply Forall_impl; [apply Forall_and; split; [exact Hb|apply Forall_forall]|].
    { intros x Hx. instantiate (1 := λ x, t ≠ x). cbv beta. intros ->. done. }
    cbv beta. intros x [??]. by apply ready_blocked_other.
  - cbv beta. intros _ k2 (? & -> & ?). rewrite Ha1. split_and!; [done|done|by eapply objects_kept_trans].
Qed.

Lemma sched_spec op k :
  sched_inv k → settled k → a_legal op (abs k) →
  wp (run_sched op) k (λ _ k', sched_inv k' ∧ settled k' ∧ abs k' = a_sched op (abs k) ∧ objects_kept k k').
Proof.
  intros Hi Hs Hop. destruct op as [st|t msg|ts]; simpl in Hop |- *.
  - destruct Hop as (? & ? & ?). by apply sleep_spec, settled_rlist.
  - by apply wakeup_spec, abs_blocked.
  - destruct Hop as [Hnd Hb]. wp_with ready_all_spec; [done..|]. cbv beta. intros _ k1 (Hi1 & <- & Ho1).
    eapply wp_mono; [exact (reschedule_spec k1 Hi1)|]. cbv beta. intros _ k2 (? & ? & ? & ?).
    split_and!; [done..|by eapply objects_kept_trans].
Qed.

(** C4.  The scheduler is one list of the runnable threads, ordered by priority
    and by the time they became runnable among equals: any legal sequence of
    sleeps, wakeups and interrupts that ready threads acts on the kernel as on
    that list (a thread that becomes runnable goes behind its peers, whether
    or not it preempts), none of them faults, and after each the head of the list is
    what runs. *)
Theorem scheduler_refines ops k :
  sched_inv k → settled k → a_legals ops (abs k) →
  wp (run_scheds ops) k (λ _ k',
    sched_inv k' ∧ settled k' ∧ abs k' = foldl (λ a op, a_sched op a) (abs k) ops ∧
    head (a_run (abs k')) = Some (currthread k') ∧ objects_kept k k').
Proof.
  revert k. induction ops as [|op ops IH]; intros k Hi Hs Hl; simpl.
  { apply wp_ret. split_and!; try done. simpl. by rewrite settled_runq. }
  destruct Hl as [Hop Hl].
  wp_with (sched_spec op k); [done..|]. cbv beta. intros _ k1 (Hi1 & Hs1 & Ha1 & Ho1).
  eapply wp_mono; [apply IH; [done|done|by rewrite Ha1]|]. cbv beta. rewrite Ha1.
  intros _ k2 (? & ? & ? & ? & ?). split_and!; [done..|by eapply objects_kept_trans].
Qed.

(** A bench: thread 1 of normal priority runs, 2 sleeps with the same
    priority, 3 sleeps with a higher one, 4 is idle and ready. *)
Definition ch_bench : kernel :=
  mk_kernel (<[10 := 11]> (<[11 := 12]> {[ 12 := 10 ]}))
    (<[11 := mk_listener 2 1 0 4294967295]> {[ 12 := mk_listener 3 2 0 4294967295 ]})
    (<[1 := mk_thread 128 CH_STATE_CURRENT 0 0]> (<[2 := mk_thread 128 CH_STATE_SLEEPING 0 0]>
      (<[3 := mk_thread 131 CH_STATE_WTOREVT 0 2]> {[ 4 := mk_thread 1 CH_STATE_READY 0 0 ]})))
    [4] 1.

Lemma ch_bench_threads t th : threads ch_bench !! t = Some th →
  t = 1 ∧ th = mk_thread 128 CH_STATE_CURRENT 0 0 ∨ t = 2 ∧ th = mk_thread 128 CH_STATE_SLEEPING 0 0 ∨
  t = 3 ∧ th = mk_thread 131 CH_STATE_WTOREVT 0 2 ∨ t = 4 ∧ th = mk_thread 1 CH_STATE_READY 0 0.
Proof.
  unfold ch_bench. simpl. rewrite !lookup_insert_Some, lookup_singleton_Some.
  intros [[<- <-]|[_ [[<- <-]|[_ [[<- <-]|[_ [<- <-]]]]]]]; tauto.
Qed.
Lemma ch_bench_inv : sched_inv ch_bench.
Proof.
  split.
  - by eexists.
  - by intros t th [[-> ->]|[[-> ->]|[[-> ->]|[-> ->]]]]%ch_bench_threads.
  - intros t. cbn [rlist ch_bench]. rewrite elem_of_cons, elem_of_nil. split.
    + intros [->|[]]. by eexists.
    + intros (th & [[-> ->]|[[-> ->]|[[-> ->]|[-> ->]]]]%ch_bench_threads & ?); try done. by left.
  - apply NoDup_singleton.
  - apply by_prio_cons. split; [constructor|]. intros ? []%not_elem_of_nil.
  - by intros t th [[-> ->]|[[-> ->]|[[-> ->]|[-> ->]]]]%ch_bench_threads.
Qed.
Lemma ch_bench_settled : settled ch_bench.
Proof. vm_compute. congruence. Qed.

Lemma scheduler_refines_witness :
  wp (run_scheds [OIrq [2; 3]; OSleep CH_STATE_SLEEPING; OSleep CH_STATE_WTSEM]) ch_bench (λ _ k',
    currthread k' = 2).
Proof.
  eapply wp_mono; [apply (scheduler_refines [OIrq [2; 3]; OSleep CH_STATE_SLEEPING; OSleep CH_STATE_WTSEM] ch_bench)|].
  - apply ch_bench_inv.
  - apply ch_bench_settled.
  - split; [split; [by_decision|]|split; [|split; [|exact I]]].
    + repeat constructor; eexists; (split; [vm_compute; reflexivity|done]).
    + split_and!; [done|done|vm_compute; lia].
    + split_and!; [done|done|vm_compute; lia].
  - cbv beta. intros _ k' (_ & _ & Ha & Hh & _). rewrite Ha in Hh.
    assert (E : Some (currthread k') = Some 2) by (rewrite <-Hh; vm_compute; reflexivity).
    by injection E.
Defined.

(** ** Broadcasts *)

(** The interrupt that broadcasts source [s] without flags. *)
Definition broadcast_irq (s : Z) : M kernel unit := chEvtBroadcastI s;; chSchPreemption.

Definition nobody_late (k : kernel) : Prop :=
  ∀ t th, a_threads (abs k) !! t = Some th → event_wait_met th = false.

(** C5.  A broadcast from an interrupt reaches exactly the threads that have
    registered a listener on the source: it terminates, each thread gains the
    union of the events of its listeners on that source (a thread without one gains
    nothing and stays as it is), and a thread that waited for one of them, or for
    all of them and now has them, becomes runnable with the message [MSG_OK].
    The listener lists are unchanged. *)
Theorem broadcast_reaches k s ls :
  sched_inv k → registered k s ls → listeners_alive k ls → nobody_late k →
  wp (broadcast_irq s) k (λ _ k', sched_inv k' ∧ settled k' ∧ objects_kept k k' ∧
    ∀ t th, a_threads (abs k) !! t = Some th →
      a_threads (abs k') !! t = Some (signalled (events_for (listeners k) t ls) th) ∧
      (t ∈ runq k' ↔ state (signalled (events_for (listeners k) t ls) th) = CH_STATE_READY)).
Proof.
  intros Hi Hreg Hal Hlate. unfold broadcast_irq. wp_with (broadcast_spec k s ls); [done..|].
  cbv beta. intros _ k1 (Hi1 & Ha1 & Ho1 & _).
  eapply wp_mono; [exact (reschedule_spec k1 Hi1)|]. cbv beta. intros _ k2 (Hi2 & Hs2 & Ha2 & Ho2).
  split_and!; [done|done|by eapply objects_kept_trans|]. intros t th E.
  assert (E' : a_threads (abs k2) !! t = Some (signalled (events_for (listeners k) t ls) th)).
  { rewrite Ha2, Ha1. apply notify_thread; [done|by eapply Hlate]. }
  split; [done|]. rewrite (runq_spec k2 t Hi2), E'. split; [by intros (? & [= <-] & ?)|eauto].
Qed.

Lemma ch_bench_registered : registered ch_bench 10 [11; 12].
Proof.
  split; [|split].
  - repeat (split; [reflexivity || discriminate|]). reflexivity.
  - by_decision.
  - intros l. rewrite !elem_of_cons, elem_of_nil. intros [->|[->|[]]]; by eexists.
Qed.
Lemma ch_bench_alive : listeners_alive ch_bench [11; 12].
Proof.
  intros l e. rewrite !elem_of_cons, elem_of_nil. intros [->|[->|[]]]; intros [= <-]; by eexists.
Qed.
Lemma ch_bench_late : nobody_late ch_bench.
Proof.
  intros t th. unfold abs. cbn [a_threads]. rewrite lookup_fmap. intros (th0 & E & ->)%fmap_Some.
  by apply ch_bench_threads in E as [[-> ->]|[[-> ->]|[[-> ->]|[-> ->]]]].
Qed.

Lemma broadcast_reaches_witness :
  wp (broadcast_irq 10) ch_bench (λ _ k', 3 ∈ runq k' ∧ (2 ∉ runq k') ∧
    ∃ th, a_threads (abs k') !! 2 = Some th ∧ epending th = 1).
Proof.
  eapply wp_mono; [apply (broadcast_reaches ch_bench 10 [11; 12])|].
  - apply ch_bench_inv.
  - apply ch_bench_registered.
  - apply ch_bench_alive.
  - apply ch_bench_late.
  - cbv beta. intros _ k' (_ & _ & _ & H).
    destruct (H 2 (mk_thread 128 CH_STATE_SLEEPING 0 0) ltac:(reflexivity)) as [E2 R2].
    destruct (H 3 (mk_thread 131 CH_STATE_WTOREVT 0 2) ltac:(reflexivity)) as [E3 R3].
    rewrite R2, R3. split_and!; [reflexivity|discriminate|]. eexists. split; [exact E2|reflexivity].
Defined.

(** C6.  No event is lost between a broadcast and a wait.  Let thread [t] have a
    listener on the source for an event among those it waits for.  After the
    broadcast the event is pending, and if [t] was asleep in [chEvtWaitOne] it is
    runnable; and a thread with such an event pending does not sleep in
    [chEvtWaitOne], and gets one of its events whether it comes to the wait after
    the broadcast or resumes from it. *)
Theorem event_not_lost k s ls t th evs :
  sched_inv k → registered k s ls → listeners_alive k ls → nobody_late k →
  a_threads (abs k) !! t = Some th → 0 <= evs < 4294967296 →
  Z.land (events_for (listeners k) t ls) evs ≠ 0 →
  wp (broadcast_irq s) k (λ _ k', ∃ th',
    a_threads (abs k') !! t = Some th' ∧ Z.land (epending th') evs ≠ 0 ∧
    (state th = CH_STATE_WTOREVT → u th = evs → t ∈ runq k')) ∧
  ∀ k' th', sched_inv k' → threads k' !! currthread k' = Some th' → Z.land (epending th') evs ≠ 0 →
    wp (chEvtWaitOne evs) k' (λ r k'', currthread k'' = currthread k' ∧ ∃ m, r = Some m ∧ m ≠ 0) ∧
    wp (take_one evs) k' (λ m _, m ≠ 0).
Proof.
  intros Hi Hreg Hal Hlate E Hevs Hev. split.
  - unfold broadcast_irq. wp_with (broadcast_spec k s ls); [done..|].
    cbv beta. intros _ k1 (Hi1 & Ha1 & Ho1 & _).
    eapply wp_mono; [exact (reschedule_spec k1 Hi1)|]. cbv beta. intros _ k2 (Hi2 & Hs2 & Ha2 & Ho2).
    set (e := events_for (listeners k) t ls). exists (signalled e th).
    assert (E' : a_threads (abs k2) !! t = Some (signalled e th)).
    { rewrite Ha2, Ha1. apply notify_thread; [done|by eapply Hlate]. }
    assert (Hp : Z.land (Z.lor (epending th) e) evs ≠ 0).
    { rewrite Z.land_lor_distr_l. by intros [_ ?]%Z.lor_eq_0_iff. }
    split_and!; [done| |].
    + by rewrite signalled_epending.
    + intros Hs Hu. rewrite (runq_spec k2 t Hi2). eexists. split; [exact E'|].
      unfold signalled, event_wait_met. simpl. rewrite Hu.
      by rewrite (bool_decide_eq_true_2 (state th = _ ∧ _)).
  - intros k' th' Hi' E' Hz.
    assert (Hm : lowest_event (Z.land (epending th') evs) ≠ 0).
    { apply lowest_event_nonzero. assert (0 <= Z.land (epending th') evs) by (apply Z.land_nonneg; lia).
      assert (Z.land (epending th') evs <= evs); [|lia]. apply Z.ldiff_le; [lia|].
      apply Z.bits_inj'. intros i _. rewrite Z.ldiff_spec, Z.land_spec, Z.bits_0.
      by destruct (Z.testbit (epending th') i), (Z.testbit evs i). }
    split.
    + eapply wp_mono; [by apply (wait_one_takes k' evs th')|]. cbv beta.
      intros r k2 (m & -> & -> & _ & _ & _ & Hc & _). split; [done|]. by eexists.
    + eapply wp_mono; [by apply (take_one_spec k' evs th')|]. cbv beta. by intros m k2 (-> & _).
Qed.

(** Thread 3 of the bench waits for event 2. *)
Lemma event_not_lost_witness :
  wp (broadcast_irq 10) ch_bench (λ _ k', 3 ∈ runq k').
Proof.
  destruct (event_not_lost ch_bench 10 [11; 12] 3 (mk_thread 131 CH_STATE_WTOREVT 0 2) 2) as [H _].
  - apply ch_bench_inv.
  - apply ch_bench_registered.
  - apply ch_bench_alive.
  - apply ch_bench_late.
  - reflexivity.
  - lia.
  - vm_compute. congruence.
  - eapply wp_mono; [exact H|]. cbv beta. intros _ k' (th' & _ & _ & Hr). by apply Hr.
Defined.

(** ** Registration *)

Lemma filter_absent (l : Z) (ls : list Z) : l ∉ ls → filter (λ x, x ≠ l) ls = ls.
Proof.
  induction ls as [|x ls IH]; [done|]. rewrite elem_of_cons, filter_cons. intros Hn.
  rewrite decide_True by (intros ->; tauto). f_equal. apply IH. tauto.
Qed.

Lemma unregister_loop_spec s l ls : ∀ fuel k p,
  (length ls < fuel)%nat → chain (next k) s p ls → NoDup (p :: ls) →
  wp (unregister_loop fuel s l p) k (λ _ k',
    chain (next k') s p (filter (λ x, x ≠ l) ls) ∧ (∀ y, y ∉ p :: ls → next k' !! y = next k !! y) ∧
    listeners k' = listeners k ∧ threads k' = threads k ∧ rlist k' = rlist k ∧
    currthread k' = currthread k).
Proof.
  induction ls as [|x ls IH]; intros fuel k p Hf Hc Hnd; simpl in Hf;
    (destruct fuel as [|fuel]; [lia|]); simpl in Hc |- *.
  - unfold get_next. eapply wp_bind, wp_bind, wp_get. eapply wp_lift; [exact Hc|].
    rewrite decide_True by done. apply wp_ret. by split_and!.
  - destruct Hc as (Ex & Hxs & Hc). apply NoDup_cons in Hnd as [Hp Hnd].
    unfold get_next at 1. eapply wp_bind, wp_bind, wp_get. eapply wp_lift; [exact Ex|].
    rewrite decide_False by done. rewrite filter_cons. destruct (decide (x = l)) as [->|Hxl].
    + rewrite decide_False by tauto. apply NoDup_cons in Hnd as [Hl Hnd]. rewrite filter_absent by done.
      assert (Hn : ∃ n, next k !! l = Some n) by (eapply chain_dom; [exact Hc|by left]). destruct Hn as [n En].
      unfold get_next. eapply wp_bind, wp_bind, wp_get. eapply wp_lift; [exact En|]. apply wp_modify.
      cbn [next listeners threads rlist currthread]. split_and!; try done.
      * destruct ls as [|y ls]; simpl in Hc |- *; rewrite lookup_insert_eq; [congruence|].
        destruct Hc as (Ey & Hys & Hc). split_and!; [congruence|done|]. apply chain_insert; [|done].
        intros Hin. apply Hp. by right.
      * intros y Hy. rewrite lookup_insert_ne; [done|]. intros ->. apply Hy. by left.
    + rewrite decide_True by done. eapply wp_mono; [apply (IH fuel k x); [lia|done|done]|].
      cbv beta. intros _ k' (Hc' & Hfr & ? & ? & ? & ?). split_and!; try done.
      * split_and!; [|done|done]. by rewrite Hfr.
      * intros y Hy. apply Hfr. intros Hin. apply Hy. by right.
Qed.

(** Registration and its undoing: on a source with listeners [ls],
    [chEvtRegisterMask] puts a new listener in front, for the running thread and
    its events; [chEvtUnregister] ends and takes a listener out of the list
    wherever it stands, leaving the order of the others (and everything, when it
    is not in the list); one after the other gives the list back.  Neither touches
    a thread. *)
Theorem register_unregister k s l evs ls :
  registered k s ls →
  (l ∉ ls → l ≠ s → wp (chEvtRegisterMask s l evs) k (λ _ k',
     registered k' s (l :: ls) ∧ abs k' = abs k ∧
     listeners k' !! l = Some (mk_listener (currthread k) evs 0 4294967295) ∧
     wp (chEvtUnregister s l) k' (λ _ k'', registered k'' s ls ∧ abs k'' = abs k))) ∧
  wp (chEvtUnregister s l) k (λ _ k',
     registered k' s (filter (λ x, x ≠ l) ls) ∧ abs k' = abs k ∧ listeners k' = listeners k).
Proof.
  assert (Hun : ∀ k ls, registered k s ls → wp (chEvtUnregister s l) k (λ _ k',
     registered k' s (filter (λ x, x ≠ l) ls) ∧ abs k' = abs k ∧ listeners k' = listeners k)).
  { clear k ls. intros k ls Hreg. pose proof (registered_fuel k s ls Hreg) as Hf.
    destruct Hreg as (Hc & Hnd & Hls). unfold chEvtUnregister. eapply wp_bind, wp_get.
    eapply wp_mono; [apply (unregister_loop_spec s l ls); [done|done|]|].
    { apply NoDup_cons. split; [by eapply chain_not_source|done]. }
    cbv beta. intros _ k' (Hc' & _ & Hl & Ht & Hr & Hcur). split_and!; [split_and!| |done].
    - done.
    - by apply NoDup_filter.
    - intros x [_ Hx]%list_elem_of_filter. rewrite Hl. by apply Hls.
    - unfold abs, runq. rewrite Ht, Hr, Hcur. f_equal. apply insert_ahead_ext. intros x.
      unfold prio_of. by rewrite Ht. }
  intros Hreg. split; [|by apply Hun]. intros Hl Hne. unfold chEvtRegisterMask.
  eapply wp_mono; [by apply register_spec|]. cbv beta. intros _ k1 (Hreg1 & Hl1 & Ha1 & _).
  split_and!; [done|done|by rewrite Hl1, lookup_insert_eq|].
  eapply wp_mono; [by apply Hun|]. cbv beta. intros _ k2 (Hreg2 & Ha2 & _).
  rewrite filter_cons, decide_False, filter_absent in Hreg2 by tauto. split; [done|congruence].
Qed.

Lemma register_unregister_witness :
  wp (chEvtUnregister 10 11) ch_bench (λ _ k', registered k' 10 [12]) ∧
  wp (chEvtRegisterMask 10 13 4) ch_bench (λ _ k', registered k' 10 [13; 11; 12]).
Proof.
  destruct (register_unregister ch_bench 10 11 4 [11; 12] ch_bench_registered) as [_ H].
  destruct (register_unregister ch_bench 10 13 4 [11; 12] ch_bench_registered) as [H13 _].
  split.
  - eapply wp_mono; [exact H|]. cbv beta. by intros _ k' (? & _).
  - eapply wp_mono; [apply H13; [by_decision|done]|]. cbv beta. by intros _ k' (? & _).
Defined.
