(* ===== verification/ChMutex.v ===== *)
(** * Mutexes of the kernel

    src/ChibiOS_21.11.x/os/rt/src/chmtx.c over the scheduler of [ChKernel.v], as cfg/chconf.h
    sets it up: not recursive, without the debug assertions.  Each thread has a list of the
    mutexes it owns, the last one locked first, and a priority that it inherits from the
    threads that wait for them. *)
From S2P Require Import Prelude ChKernel.

(** ** Data *)

(** [queue]: the waiting threads, by priority; [owner]: 0 when the mutex is free; [mnext]: the
    next mutex of the owner's list. *)
Record mutex_t : Type := mk_mutex { queue : list Z; owner : Z; mnext : Z }.

(** [realprio] and [mtxlist] are the fields of [thread_t] that only mutexes use. *)
Record mkernel : Type := mk_mk {
  kern : kernel; mutexes : gmap Z mutex_t; realprio : gmap Z Z; mtxlist : gmap Z Z }.

Definition with_kern (k : kernel) (s : mkernel) : mkernel :=
  mk_mk k (mutexes s) (realprio s) (mtxlist s).
Definition in_kernel {A} (m : M kernel A) : M mkernel A := λ s,
  match m (kern s) with
  | Ok a k => Ok a (with_kern k s)
  | Fault e => Fault e
  end.
Definition get_mutex (mp : Z) : M mkernel mutex_t := s ← mget; mlift OutOfBounds (mutexes s !! mp).
Definition set_mutex (mp : Z) (m : mutex_t) : M mkernel unit := mmodify (λ s,
  mk_mk (kern s) (<[mp := m]> (mutexes s)) (realprio s) (mtxlist s)).
Definition get_mtxlist (t : Z) : M mkernel Z := s ← mget; mlift OutOfBounds (mtxlist s !! t).
Definition set_mtxlist (t mp : Z) : M mkernel unit := mmodify (λ s,
  mk_mk (kern s) (mutexes s) (realprio s) (<[t := mp]> (mtxlist s))).
Definition get_realprio (t : Z) : M mkernel Z := s ← mget; mlift OutOfBounds (realprio s !! t).
Definition chThdGetSelfX : M mkernel Z := mgets (λ s, currthread (kern s)).

Definition with_prio (p : Z) (th : thread_t) : thread_t :=
  mk_thread p (state th) (epending th) (u th).
Definition with_queue (q : list Z) (m : mutex_t) : mutex_t := mk_mutex q (owner m) (mnext m).

(** The part of a new thread's start that concerns its mutexes. *)
Definition __thd_object_init (tp pr : Z) : M mkernel unit :=
  mmodify (λ s, mk_mk (kern s) (mutexes s) (<[tp := pr]> (realprio s)) (<[tp := 0]> (mtxlist s))).

(** ** Locking *)

Definition chMtxObjectInit (mp : Z) : M mkernel unit :=
  m ← get_mutex mp; set_mutex mp (mk_mutex [] 0 (mnext m)).

Definition chMtxGetOwnerI (mp : Z) : M mkernel Z := m ← get_mutex mp; mret (owner m).
Definition chMtxQueueNotEmptyS (mp : Z) : M mkernel bool :=
  m ← get_mutex mp; mret (bool_decide (queue m ≠ [])).
Definition chMtxGetNextMutexX : M mkernel Z := currtp ← chThdGetSelfX; get_mtxlist currtp.

(** [ch_queue_dequeue], of a thread that is in the queue. *)
Definition ch_queue_dequeue (t : Z) (q : list Z) : option (list Z) :=
  if decide (t ∈ q) then Some (filter (λ x, x ≠ t) q) else None.

(** A thread in the queue of a mutex is taken out and put back by its priority. *)
Definition requeue (mp t : Z) : M mkernel unit :=
  m ← get_mutex mp;
  q ← mlift OutOfBounds (ch_queue_dequeue t (queue m));
  s ← mget;
  set_mutex mp (with_queue (ch_pqueue_insert_behind (prio_of (kern s)) t q) m).
(** The same in the ready list. *)
Definition requeue_ready (t : Z) : M kernel unit :=
  k ← mget;
  q ← mlift OutOfBounds (ch_queue_dequeue t (rlist k));
  set_rlist q;;
  chSchReadyI t.

(** The priority inheritance: the loop along owners and what they wait for. *)
Fixpoint inherit (fuel : nat) (tp : Z) : M mkernel unit :=
  match fuel with
  | O => mfail Diverged
  | S fuel =>
      currtp ← chThdGetSelfX;
      cth ← in_kernel (get_thread currtp);
      th ← in_kernel (get_thread tp);
      if decide (prio th < prio cth) then
        in_kernel (on_thread tp (with_prio (prio cth)));;
        match state th with
        | CH_STATE_WTMTX => requeue (u th) tp;; m ← get_mutex (u th); inherit fuel (owner m)
        | CH_STATE_WTCOND => requeue (u th) tp
        | CH_STATE_READY => in_kernel (requeue_ready tp)
        | _ => mret tt
        end
      else mret tt
  end.

(** A free mutex is put on the running thread's list. *)
Definition mtx_take (mp : Z) (m : mutex_t) : M mkernel unit :=
  currtp ← chThdGetSelfX;
  l ← get_mtxlist currtp;
  set_mutex mp (mk_mutex (queue m) currtp l);;
  set_mtxlist currtp mp.

(** [true] when the mutex was free; when the thread went to sleep it owns the mutex once it
    runs again. *)
Definition chMtxLockS (mp : Z) : M mkernel bool :=
  currtp ← chThdGetSelfX;
  m ← get_mutex mp;
  if decide (owner m ≠ 0) then
    s ← mget;
    inherit (S (size (threads (kern s)))) (owner m);;
    m ← get_mutex mp;
    s ← mget;
    set_mutex mp (with_queue (ch_pqueue_insert_behind (prio_of (kern s)) currtp (queue m)) m);;
    in_kernel (on_thread currtp (with_u mp));;
    in_kernel (chSchGoSleepS CH_STATE_WTMTX);;
    mret false
  else mtx_take mp m;; mret true.
Definition chMtxLock (mp : Z) : M mkernel bool := chMtxLockS mp.

Definition chMtxTryLockS (mp : Z) : M mkernel bool :=
  m ← get_mutex mp;
  if decide (owner m ≠ 0) then mret false else mtx_take mp m;; mret true.
Definition chMtxTryLock (mp : Z) : M mkernel bool := chMtxTryLockS mp.

(** ** Unlocking *)

(** The highest priority among [newprio] and the first waiters of the mutexes from [lmp] on. *)
Fixpoint owned_prio (fuel : nat) (lmp newprio : Z) : M mkernel Z :=
  match fuel with
  | O => mfail Diverged
  | S fuel =>
      if decide (lmp = 0) then mret newprio else
      m ← get_mutex lmp;
      newprio ← match queue m with
                | [] => mret newprio
                | t :: _ =>
                    th ← in_kernel (get_thread t);
                    mret (if decide (prio th > newprio) then prio th else newprio)
                end;
      owned_prio fuel (mnext m) newprio
  end.

(** The mutex goes to its first waiter [tp], whose queue it leaves. *)
Definition hand_over (mp tp : Z) (q : list Z) : M mkernel unit :=
  l ← get_mtxlist tp;
  set_mutex mp (mk_mutex q tp l);;
  set_mtxlist tp mp;;
  in_kernel (chSchReadyI tp).

(** Returns whether a thread was woken. *)
Definition mtx_unlock (mp : Z) : M mkernel bool :=
  currtp ← chThdGetSelfX;
  m ← get_mutex mp;
  set_mtxlist currtp (mnext m);;
  match queue m with
  | tp :: q =>
      rp ← get_realprio currtp;
      l ← get_mtxlist currtp;
      s ← mget;
      newprio ← owned_prio (S (size (mutexes s))) l rp;
      in_kernel (on_thread currtp (with_prio newprio));;
      hand_over mp tp q;;
      mret true
  | [] => set_mutex mp (mk_mutex [] 0 (mnext m));; mret false
  end.
Definition chMtxUnlockS (mp : Z) : M mkernel unit := mtx_unlock mp;; mret tt.
Definition chMtxUnlock (mp : Z) : M mkernel unit :=
  woken ← mtx_unlock mp;
  if (woken : bool) then in_kernel chSchRescheduleS else mret tt.

Fixpoint unlock_all_loop (fuel : nat) (currtp : Z) : M mkernel unit :=
  match fuel with
  | O => mfail Diverged
  | S fuel =>
      mp ← get_mtxlist currtp;
      m ← get_mutex mp;
      set_mtxlist currtp (mnext m);;
      match queue m with
      | tp :: q => hand_over mp tp q
      | [] => set_mutex mp (mk_mutex [] 0 (mnext m))
      end;;
      l ← get_mtxlist currtp;
      if decide (l ≠ 0) then unlock_all_loop fuel currtp else mret tt
  end.
Definition chMtxUnlockAllS : M mkernel unit :=
  currtp ← chThdGetSelfX;
  l ← get_mtxlist currtp;
  if decide (l ≠ 0) then
    s ← mget;
    unlock_all_loop (size (mutexes s)) currtp;;
    rp ← get_realprio currtp;
    in_kernel (on_thread currtp (with_prio rp));;
    in_kernel chSchRescheduleS
  else mret tt.
Definition chMtxUnlockAll : M mkernel unit := chMtxUnlockAllS.

(** The running thread's priority, which its mutexes may keep above the one it asks for. *)
Definition chThdSetPriority (newprio : Z) : M mkernel Z :=
  currtp ← chThdGetSelfX;
  oldprio ← get_realprio currtp;
  th ← in_kernel (get_thread currtp);
  (if decide (prio th = oldprio ∨ newprio > prio th) then in_kernel (on_thread currtp (with_prio newprio))
   else mret tt);;
  mmodify (λ s, mk_mk (kern s) (mutexes s) (<[currtp := newprio]> (realprio s)) (mtxlist s));;
  in_kernel chSchRescheduleS;;
  mret oldprio.
