(* ===== verification/ChMutexFacts.v ===== *)
(** * What the mutexes keep

    The invariant of the mutexes of [ChMutex.v], over the scheduler's abstraction ([ChSched.v]):
    who waits is in the queue, who owns has the mutex on the list, and a thread's priority is its own
    or the highest among those that wait for it. *)
From Stdlib Require Import Sorted.
From S2P Require Import Prelude ChKernel ChSched ChMutex.

(** ** The invariant *)

Definition tprio (ths : gmap Z thread_t) (t : Z) : Z :=
  match ths !! t with Some th => prio th | None => 0 end.
Definition waits (ths : gmap Z thread_t) (t mp : Z) : Prop :=
  ∃ th, ths !! t = Some th ∧ state th = CH_STATE_WTMTX ∧ u th = mp.
Definition owns (ms : gmap Z mutex_t) (t mp : Z) : Prop := ∃ m, ms !! mp = Some m ∧ owner m = t.
(** The list of mutexes from [p] on. *)
Fixpoint mtx_chain (ms : gmap Z mutex_t) (p : Z) (l : list Z) : Prop :=
  match l with
  | [] => p = 0
  | mp :: l => p = mp ∧ ∃ m, ms !! mp = Some m ∧ mtx_chain ms (mnext m) l
  end.
Definition owned_list (ms : gmap Z mutex_t) (ml : gmap Z Z) (t : Z) (l : list Z) : Prop :=
  ∃ p, ml !! t = Some p ∧ mtx_chain ms p l ∧ NoDup l ∧ ∀ mp, mp ∈ l ↔ owns ms t mp.

(** [SR]: threads with these priorities need no reason for them; [SI]: threads that may have a lower
    priority than such a waiter.  Both are empty between calls. *)
Record mtx_ok (ths : gmap Z thread_t) (ms : gmap Z mutex_t) (rp ml : gmap Z Z) (SR SI : Z → Z → Prop) : Prop := {
  ok_null : ths !! 0 = None ∧ ms !! 0 = None;
  ok_cond : ∀ t th, ths !! t = Some th → state th ≠ CH_STATE_WTCOND;
  ok_nodup : ∀ mp m, ms !! mp = Some m → NoDup (queue m);
  ok_sorted : ∀ mp m, ms !! mp = Some m → by_prio (tprio ths) (queue m);
  ok_waits : ∀ mp m t, ms !! mp = Some m → t ∈ queue m ↔ waits ths t mp;
  ok_waited : ∀ t mp, waits ths t mp → is_Some (ms !! mp);
  ok_free : ∀ mp m, ms !! mp = Some m → owner m = 0 → queue m = [];
  ok_owner : ∀ mp m, ms !! mp = Some m → owner m ≠ 0 → is_Some (ths !! owner m);
  ok_lists : ∀ t, is_Some (ths !! t) → ∃ l, owned_list ms ml t l;
  ok_real : ∀ t th, ths !! t = Some th → ∃ r, rp !! t = Some r ∧ 0 < r <= prio th ∧
    (prio th = r ∨ (∃ w mp, waits ths w mp ∧ owns ms t mp ∧ tprio ths w = prio th) ∨ SR t (prio th));
  ok_inherit : ∀ w mp t, waits ths w mp → owns ms t mp → tprio ths w <= tprio ths t ∨ SI t (tprio ths w) }.
Definition nothing : Z → Z → Prop := λ _ _, False.

(** ** The maps it depends on *)

(** The same but for priorities. *)
Definition alike_but_prio (ths ths' : gmap Z thread_t) : Prop :=
  ∀ t, option_Forall2 (λ th th', th' = with_prio (prio th') th) (ths !! t) (ths' !! t).
(** The same but for the order of the queues. *)
Definition requeued (ms ms' : gmap Z mutex_t) : Prop :=
  ∀ mp, option_Forall2 (λ m m', owner m' = owner m ∧ mnext m' = mnext m ∧ queue m' ≡ₚ queue m) (ms !! mp) (ms' !! mp).

Lemma alike_thread ths ths' t th' :
  alike_but_prio ths ths' → ths' !! t = Some th' → ∃ th, ths !! t = Some th ∧ th' = with_prio (prio th') th.
Proof. intros H E. specialize (H t). rewrite E in H. inversion H; subst. eauto. Qed.
Lemma alike_some ths ths' t : alike_but_prio ths ths' → is_Some (ths !! t) ↔ is_Some (ths' !! t).
Proof. intros H. specialize (H t). by destruct H; rewrite ?is_Some_alt. Qed.
Lemma alike_waits ths ths' t mp : alike_but_prio ths ths' → waits ths' t mp ↔ waits ths t mp.
Proof.
  intros H. unfold waits. specialize (H t). destruct H as [th th' ->|]; [|naive_solver].
  split; intros (? & [= <-] & ? & ?); eexists; (split; [done|done]).
Qed.
(** The same but for the queues. *)
Definition same_owners (ms ms' : gmap Z mutex_t) : Prop :=
  ∀ mp, option_Forall2 (λ m m', owner m' = owner m ∧ mnext m' = mnext m) (ms !! mp) (ms' !! mp).
Lemma requeued_same ms ms' : requeued ms ms' → same_owners ms ms'.
Proof. intros H mp. destruct (H mp) as [m m' (? & ? & _)|]; by constructor. Qed.
#[export] Hint Resolve requeued_same : core.
Lemma same_insert ms mp m q : ms !! mp = Some m → same_owners ms (<[mp := with_queue q m]> ms).
Proof.
  intros E x. destruct (decide (x = mp)) as [->|?]; [rewrite lookup_insert_eq, E; by constructor|].
  rewrite lookup_insert_ne by done. by destruct (ms !! x); constructor.
Qed.
Lemma same_owns ms ms' t mp : same_owners ms ms' → owns ms' t mp ↔ owns ms t mp.
Proof.
  intros H. unfold owns. destruct (H mp) as [m m' (Ho & _)|]; [|naive_solver].
  split; intros (? & [= <-] & ?); eexists; (split; [done|congruence]).
Qed.
Lemma same_chain ms ms' p l : same_owners ms ms' → mtx_chain ms' p l ↔ mtx_chain ms p l.
Proof.
  intros H. revert p. induction l as [|mp l IHl]; intros p; simpl; [done|].
  destruct (H mp) as [m m' (_ & Hn)|]; [|naive_solver].
  split; intros (-> & ? & [= <-] & ?); (split; [done|]); eexists; (split; [done|]); apply IHl; congruence.
Qed.
Lemma same_lists ms ms' ml t l : same_owners ms ms' → owned_list ms ml t l → owned_list ms' ml t l.
Proof.
  intros H (p & Hp & Hc & Hn & Hl). exists p. split_and!; [done|by eapply same_chain|done|].
  intros mp. by rewrite (same_owns ms ms').
Qed.
Lemma requeued_insert ms mp m q : ms !! mp = Some m → q ≡ₚ queue m → requeued ms (<[mp := with_queue q m]> ms).
Proof.
  intros E Hq x. destruct (decide (x = mp)) as [->|?].
  - rewrite lookup_insert_eq, E. by constructor.
  - rewrite lookup_insert_ne by done. by destruct (ms !! x); constructor.
Qed.
Lemma requeued_refl ms : requeued ms ms.
Proof. intros mp. by destruct (ms !! mp); constructor. Qed.
Lemma requeued_trans ms1 ms2 ms3 : requeued ms1 ms2 → requeued ms2 ms3 → requeued ms1 ms3.
Proof.
  intros H1 H2 mp. specialize (H1 mp). specialize (H2 mp). destruct H1 as [m m1 (A1 & A2 & A3)|]; inversion H2; subst; constructor.
  destruct H1 as (B1 & B2 & B3). split_and!; [congruence..|by rewrite B3].
Qed.
Lemma alike_refl ths : alike_but_prio ths ths.
Proof. intros t. destruct (ths !! t) as [[]|]; by constructor. Qed.
Lemma alike_trans a b c : alike_but_prio a b → alike_but_prio b c → alike_but_prio a c.
Proof.
  intros H1 H2 t. specialize (H1 t). specialize (H2 t). destruct H1 as [x y ->|]; inversion H2 as [? z Hz|]; subst; constructor.
  by rewrite Hz.
Qed.
Lemma alike_insert ths t th p : ths !! t = Some th → alike_but_prio ths (<[t := with_prio p th]> ths).
Proof.
  intros E x. destruct (decide (x = t)) as [->|?].
  - rewrite lookup_insert_eq, E. by constructor.
  - rewrite lookup_insert_ne by done. destruct (ths !! x) as [[]|]; by constructor.
Qed.

(** Priorities change and queues are reordered; what is left to show. *)
Lemma ok_reprio ths ms rp ml SR SI ths' ms' rp' SR' SI' :
  mtx_ok ths ms rp ml SR SI → alike_but_prio ths ths' → requeued ms ms' →
  (∀ mp m, ms' !! mp = Some m → by_prio (tprio ths') (queue m)) →
  (∀ t th, ths' !! t = Some th → ∃ r, rp' !! t = Some r ∧ 0 < r <= prio th ∧
    (prio th = r ∨ (∃ w mp, waits ths w mp ∧ owns ms t mp ∧ tprio ths' w = prio th) ∨ SR' t (prio th))) →
  (∀ w mp t, waits ths w mp → owns ms t mp → tprio ths' w <= tprio ths' t ∨ SI' t (tprio ths' w)) →
  mtx_ok ths' ms' rp' ml SR' SI'.
Proof.
  intros H Ha Hr Hs Hre Hin.
  assert (∀ mp m', ms' !! mp = Some m' → ∃ m, ms !! mp = Some m ∧ owner m' = owner m ∧ queue m' ≡ₚ queue m) as Hm.
  { intros mp m' E. specialize (Hr mp). rewrite E in Hr. inversion Hr as [m ? (? & ? & ?)|]; subst. eauto. }
  split.
  - destruct (ok_null _ _ _ _ _ _ H) as [H1 H2]. split.
    + apply eq_None_not_Some. rewrite <-(alike_some ths), H1 by done. by intros [? ?].
    + specialize (Hr 0). rewrite H2 in Hr. by inversion Hr.
  - intros t th' E. destruct (alike_thread _ _ _ _ Ha E) as (th & E0 & ->). by apply (ok_cond _ _ _ _ _ _ H t th).
  - intros mp m' E. destruct (Hm _ _ E) as (m & E0 & _ & ->). by eapply (ok_nodup _ _ _ _ _ _ H).
  - done.
  - intros mp m' t E. destruct (Hm _ _ E) as (m & E0 & _ & ->). rewrite (alike_waits ths) by done. by apply (ok_waits _ _ _ _ _ _ H).
  - intros t mp. rewrite (alike_waits ths) by done. intros Hw. destruct (ok_waited _ _ _ _ _ _ H _ _ Hw) as [m E].
    specialize (Hr mp). rewrite E in Hr. inversion Hr. by eexists.
  - intros mp m' E Ho. destruct (Hm _ _ E) as (m & E0 & Ho' & Hq). apply Permutation_nil. symmetry.
    rewrite <-(ok_free _ _ _ _ _ _ H _ _ E0); [by symmetry|congruence].
  - intros mp m' E Ho. destruct (Hm _ _ E) as (m & E0 & Ho' & _). rewrite <-(alike_some ths) by done. rewrite Ho' in *.
    by eapply (ok_owner _ _ _ _ _ _ H).
  - intros t Ht. rewrite <-(alike_some ths) in Ht by done. destruct (ok_lists _ _ _ _ _ _ H t Ht) as [l Hl].
    exists l. eapply same_lists; [by apply requeued_same|done].
  - intros t th E. destruct (Hre _ _ E) as (r & ? & Hr0 & Hc). exists r. split; [done|split; [exact Hr0|]].
    destruct Hc as [?|[(w & mp & ? & ? & ?)|?]]; [by left| |by right; right]. right; left. exists w, mp.
    split_and!; [by apply (alike_waits ths ths')|by apply (same_owns ms ms'); [apply requeued_same|]|done].
  - intros w mp t Hw Ho. apply (Hin w mp t); [by apply (alike_waits ths ths')|by apply (same_owns ms ms'); [apply requeued_same|]].
Qed.

(** ** Priorities in the scheduler *)

Lemma by_prio_ext_in pr pr' q : (∀ t, t ∈ q → pr t = pr' t) → by_prio pr q → by_prio pr' q.
Proof.
  induction q as [|x q IH]; [constructor|]. rewrite !by_prio_cons. intros H [? Hx]. split.
  - apply IH; [|done]. intros t Ht. apply H. by right.
  - intros y Hy. rewrite <-!H by (by left || by right). by apply Hx.
Qed.
Lemma by_prio_filter pr (P : Z → Prop) `{!∀ x, Decision (P x)} q : by_prio pr q → by_prio pr (filter P q).
Proof.
  induction q as [|x q IH]; [done|]. rewrite by_prio_cons, filter_cons. intros [Hq Hx].
  case_decide; [|by apply IH]. apply by_prio_cons. split; [by apply IH|]. intros y [_ Hy]%list_elem_of_filter. by apply Hx.
Qed.
Lemma without_perm (t : Z) q : NoDup q → t ∈ q → t :: filter (λ x, x ≠ t) q ≡ₚ q.
Proof.
  intros Hn Ht. apply NoDup_Permutation; [|done|].
  - apply NoDup_cons. split; [|by apply NoDup_filter]. rewrite list_elem_of_filter. tauto.
  - intros x. rewrite elem_of_cons, list_elem_of_filter. destruct (decide (x = t)) as [->|]; tauto.
Qed.
(** A thread taken out of a queue and put back with another priority. *)
Lemma reinsert pr pr' t q :
  NoDup q → t ∈ q → by_prio pr q → (∀ x, x ≠ t → pr' x = pr x) →
  ch_pqueue_insert_behind pr' t (filter (λ x, x ≠ t) q) ≡ₚ q ∧ by_prio pr' (ch_pqueue_insert_behind pr' t (filter (λ x, x ≠ t) q)).
Proof.
  intros Hn Ht Hs Hp. split; [rewrite insert_behind_perm; by apply without_perm|].
  apply insert_behind_sorted. eapply by_prio_ext_in; [|by apply by_prio_filter, Hs].
  intros x [Hx _]%list_elem_of_filter. by rewrite Hp.
Qed.

Section reprio.
Context (k : kernel) (t : Z) (th : thread_t) (p : Z) (q : list Z).
Hypothesis Hi : sched_inv k.
Hypothesis Et : threads k !! t = Some th.
Let k' := k_upd k t (with_prio p th) q (currthread k).

Lemma reprio_of x : prio_of k' x = if decide (x = t) then p else prio_of k x.
Proof using Type.
  unfold k', prio_of. simpl. destruct (decide (x = t)) as [->|?]; [by rewrite lookup_insert_eq|by rewrite lookup_insert_ne].
Qed.
Lemma reprio_threads : a_threads (abs k') = <[t := with_prio p (vthread th)]> (a_threads (abs k)).
Proof using Type. unfold k'. simpl. by rewrite fmap_insert. Qed.
Lemma reprio_inv : 0 < p → q ≡ₚ rlist k → by_prio (prio_of k') q → sched_inv k'.
Proof using Hi Et.
  intros Hp Hq Hs. assert (∀ x, threads k' !! x = if decide (x = t) then Some (with_prio p th) else threads k !! x) as Hl.
  { intros x. unfold k'. simpl. destruct (decide (x = t)) as [->|?]; [by rewrite lookup_insert_eq|by rewrite lookup_insert_ne]. }
  split.
  - destruct (inv_current k Hi) as (thc & Ec & Esc). rewrite Hl. cbn [currthread k' k_upd].
    case_decide as Hc; [|by exists thc]. rewrite Hc, Et in Ec. injection Ec as ->. by eexists.
  - intros x thx. rewrite Hl. case_decide as Hx; [intros [= <-]; rewrite Hx; by apply (inv_unique k Hi t th)|]. by apply (inv_unique k Hi).
  - intros x. cbn [rlist k' k_upd]. rewrite Hq, (inv_ready k Hi), Hl. case_decide as Hx; [|done]. rewrite Hx, Et.
    split; intros (? & [= <-] & ?); eexists; (split; [done|done]).
  - cbn [rlist k' k_upd]. rewrite Hq. apply Hi.
  - done.
  - intros x thx. rewrite Hl. case_decide; [by intros [= <-]|apply (inv_prio k Hi)].
Qed.
End reprio.

(** Where a thread that is boosted to [p] goes in the ready list. *)
Definition boosted_rlist (k : kernel) (t : Z) (th : thread_t) (p : Z) : list Z :=
  if decide (state th = CH_STATE_READY) then
    ch_pqueue_insert_behind (λ x, if decide (x = t) then p else prio_of k x) t (filter (λ x, x ≠ t) (rlist k))
  else rlist k.
Definition boosted_kernel (k : kernel) (t : Z) (th : thread_t) (p : Z) : kernel :=
  k_upd k t (with_prio p th) (boosted_rlist k t th p) (currthread k).

Lemma boosted_ok k t th p :
  sched_inv k → settled k → threads k !! t = Some th → prio th < p → p = prio_of k (currthread k) →
  let k' := boosted_kernel k t th p in
  sched_inv k' ∧ settled k' ∧ a_threads (abs k') = <[t := with_prio p (vthread th)]> (a_threads (abs k)) ∧ rlist k' ≡ₚ rlist k.
Proof.
  intros Hi Hs Et Hlt Hp k'. pose proof (inv_prio k Hi _ _ Et) as Hpos.
  assert (boosted_rlist k t th p ≡ₚ rlist k ∧ by_prio (λ x, if decide (x = t) then p else prio_of k x) (boosted_rlist k t th p)) as [Hq Hso].
  { unfold boosted_rlist. case_decide as Hst.
    - apply (reinsert (prio_of k)); [apply Hi|by apply (inv_ready k Hi); eauto|apply Hi|]. intros x Hx. by rewrite decide_False.
    - split; [done|]. apply (by_prio_ext_in (prio_of k)); [|apply Hi]. intros x Hx. rewrite decide_False; [done|].
      intros ->. apply (inv_ready k Hi) in Hx as (? & E & ?). congruence. }
  assert (t ≠ currthread k) as Hne. { intros ->. unfold prio_of in Hp. rewrite Et in Hp. lia. }
  split_and!; [|..|by apply reprio_threads|done].
  - apply reprio_inv; [done|done|lia|done|]. eapply by_prio_ext, Hso. intros x. by rewrite reprio_of.
  - unfold settled, firstprio in *. change (rlist k') with (boosted_rlist k t th p). change (currthread k') with (currthread k).
    destruct (boosted_rlist k t th p) as [|x q] eqn:E.
    + unfold k', boosted_kernel. rewrite reprio_of, decide_False by done. rewrite <-Hp. lia.
    + unfold k', boosted_kernel. rewrite !reprio_of. rewrite (decide_False (P := currthread k = t)) by done. rewrite <-Hp in *.
      case_decide; [lia|]. assert (x ∈ rlist k) as Hx by (rewrite <-Hq; by left).
      destruct (rlist k) as [|y r] eqn:Er; [by apply elem_of_nil in Hx|].
      pose proof (inv_sorted k Hi) as Hr. rewrite Er in Hr. apply by_prio_cons in Hr as [_ Hr].
      apply elem_of_cons in Hx as [->|Hx]; [lia|]. specialize (Hr x Hx). lia.
Qed.

(** ** Inheriting a priority *)

(** While [p] is passed on to [tp], on the way from the owner [o]. *)
Definition owed (o tp p : Z) : Z → Z → Prop := λ t x, t = o ∧ x = p ∨ t = tp ∧ x < p.
Definition short (tp p : Z) : Z → Z → Prop := λ t x, t = tp ∧ x <= p.
Definition granted (o p : Z) : Z → Z → Prop := λ t x, t = o ∧ x = p.

Lemma tprio_insert ths t th p x : tprio (<[t := with_prio p th]> ths) x = if decide (x = t) then p else tprio ths x.
Proof.
  unfold tprio. destruct (decide (x = t)) as [->|?]; [by rewrite lookup_insert_eq|by rewrite lookup_insert_ne].
Qed.
Lemma waits_tprio ths w mp : waits ths w mp → ∃ th, ths !! w = Some th ∧ tprio ths w = prio th.
Proof. intros (th & E & _). exists th. unfold tprio. by rewrite E. Qed.

Lemma boost_ok ths ms ms' rp ml o tp th p nxt :
  mtx_ok ths ms rp ml (owed o tp p) (short tp p) → ths !! tp = Some th → prio th < p →
  tp = o ∨ (∃ w mp, waits ths w mp ∧ owns ms tp mp ∧ tprio ths w = p) →
  requeued ms ms' → (∀ mp m, ms' !! mp = Some m → by_prio (tprio (<[tp := with_prio p th]> ths)) (queue m)) →
  (∀ mp t, waits ths tp mp → owns ms t mp → t = nxt) →
  mtx_ok (<[tp := with_prio p th]> ths) ms' rp ml (owed o nxt p) (short nxt p).
Proof.
  intros H Et Hlt Hwhy Hr Hs Hn. assert (tprio ths tp = prio th) as Htp by (unfold tprio; by rewrite Et).
  apply (ok_reprio ths ms rp ml (owed o tp p) (short tp p)); try done; [by apply alike_insert| |].
  - intros t th'. destruct (decide (t = tp)) as [->|Ht].
    + rewrite lookup_insert_eq. intros [= <-]. cbn [prio with_prio].
      destruct (ok_real _ _ _ _ _ _ H _ _ Et) as (r & Hr1 & Hr2 & _). exists r. split; [done|split; [lia|]]. right.
      destruct Hwhy as [->|(w & mp & Hw & Ho & Hp)]; [right; by left|left]. exists w, mp. split_and!; [done|done|].
      rewrite tprio_insert, decide_False; [done|]. intros ->. lia.
    + rewrite lookup_insert_ne by done. intros E. destruct (ok_real _ _ _ _ _ _ H _ _ E) as (r & Hr1 & Hr2 & Hc).
      exists r. split; [done|split; [done|]]. destruct Hc as [?|[(w & mp & Hw & Ho & Hp)|[[-> ?]|[? _]]]]; [by left| |right; right; by left|done].
      right. destruct (decide (w = tp)) as [->|Hw'].
      * right. right. split; [by eapply Hn|]. lia.
      * left. exists w, mp. rewrite tprio_insert, decide_False by done. done.
  - intros w mp t Hw Ho. rewrite !tprio_insert. pose proof (ok_inherit _ _ _ _ _ _ H w mp t Hw Ho) as Hi.
    destruct (decide (w = tp)) as [->|Hw'].
    + right. split; [by eapply Hn|lia].
    + destruct (decide (t = tp)) as [->|?]; [left; destruct Hi as [?|[_ ?]]; lia|]. left. destruct Hi as [?|[? _]]; [done|by destruct n].
Qed.
(** The last thread on the way has the priority. *)
Lemma boost_done ths ms rp ml o tp p :
  mtx_ok ths ms rp ml (owed o tp p) (short tp p) → p <= tprio ths tp → mtx_ok ths ms rp ml (granted o p) nothing.
Proof.
  intros H Hp. eapply ok_reprio; [exact H|apply alike_refl|apply requeued_refl|apply H| |].
  - intros t th E. destruct (ok_real _ _ _ _ _ _ H _ _ E) as (r & ? & ? & Hc). exists r. split; [done|split; [done|]].
    destruct Hc as [?|[?|[?|[-> ?]]]]; [by left|by right; left|by right; right|]. unfold tprio in Hp. rewrite E in Hp. lia.
  - intros w mp t Hw Ho. destruct (ok_inherit _ _ _ _ _ _ H w mp t Hw Ho) as [?|[-> ?]]; left; lia.
Qed.

(** The threads after some below [p] were raised to it. *)
Definition boosted (p : Z) (ths ths' : gmap Z thread_t) : Prop :=
  ∀ t, option_Forall2 (λ th th', th' = with_prio (prio th') th ∧ (prio th' = prio th ∨ prio th < p ∧ prio th' = p))
    (ths !! t) (ths' !! t).
Lemma boosted_refl p ths : boosted p ths ths.
Proof. intros t. destruct (ths !! t) as [[]|]; constructor. split; [done|by left]. Qed.
Lemma boosted_trans p a b c : boosted p a b → boosted p b c → boosted p a c.
Proof.
  intros H1 H2 t. specialize (H1 t). specialize (H2 t). destruct H1 as [x y [Hy H1]|]; inversion H2 as [? z [Hz H2']|]; subst; constructor.
  rewrite Hy in Hz. split; [by rewrite Hz|]. lia.
Qed.
Lemma boosted_insert p ths t th : ths !! t = Some th → prio th < p → boosted p ths (<[t := with_prio p th]> ths).
Proof.
  intros E Hp x. destruct (decide (x = t)) as [->|?].
  - rewrite lookup_insert_eq, E. constructor. split; [done|by right].
  - rewrite lookup_insert_ne by done. destruct (ths !! x) as [[]|]; constructor. split; [done|by left].
Qed.
Lemma boosted_alike p ths ths' : boosted p ths ths' → alike_but_prio ths ths'.
Proof. intros H t. specialize (H t). destruct H as [x y [Hy _]|]; by constructor. Qed.
Lemma boosted_tprio p ths ths' t : boosted p ths ths' → tprio ths' t = tprio ths t ∨ tprio ths t < p ∧ tprio ths' t = p.
Proof. intros H. specialize (H t). unfold tprio. destruct H as [x y [_ ?]|]; [done|by left]. Qed.

(** ** Running in the kernel *)

Definition vths (s : mkernel) : gmap Z thread_t := a_threads (abs (kern s)).
(** Between calls, and when the slacks are not empty within one. *)
Definition mtx_inv (SR SI : Z → Z → Prop) (s : mkernel) : Prop :=
  sched_inv (kern s) ∧ settled (kern s) ∧ mtx_ok (vths s) (mutexes s) (realprio s) (mtxlist s) SR SI.

Lemma wp_in_kernel {A} (m : M kernel A) s (Q : A → mkernel → Prop) :
  wp m (kern s) (λ a k, Q a (with_kern k s)) → wp (in_kernel m) s Q.
Proof. unfold wp, in_kernel. by destruct (m (kern s)). Qed.
Lemma with_kern_twice k k' s : with_kern k (with_kern k' s) = with_kern k s.
Proof. done. Qed.
Lemma with_kern_same s : with_kern (kern s) s = s.
Proof. by destruct s. Qed.
Lemma wp_get_thread t th (k : kernel) (Q : thread_t → kernel → Prop) : threads k !! t = Some th → Q th k → wp (get_thread t) k Q.
Proof. intros E H. unfold wp, get_thread, mget, mbind, M_bind, mlift. by rewrite E. Qed.
Lemma wp_get_mutex mp m s (Q : mutex_t → mkernel → Prop) : mutexes s !! mp = Some m → Q m s → wp (get_mutex mp) s Q.
Proof. intros E H. unfold wp, get_mutex, mget, mbind, M_bind, mlift. by rewrite E. Qed.
Lemma wp_get_mtxlist t l s (Q : Z → mkernel → Prop) : mtxlist s !! t = Some l → Q l s → wp (get_mtxlist t) s Q.
Proof. intros E H. unfold wp, get_mtxlist, mget, mbind, M_bind, mlift. by rewrite E. Qed.
Lemma wp_get_realprio t r s (Q : Z → mkernel → Prop) : realprio s !! t = Some r → Q r s → wp (get_realprio t) s Q.
Proof. intros E H. unfold wp, get_realprio, mget, mbind, M_bind, mlift. by rewrite E. Qed.
Lemma vths_lookup s t th : threads (kern s) !! t = Some th → vths s !! t = Some (vthread th).
Proof. apply abs_lookup. Qed.
Lemma vths_some s t : is_Some (vths s !! t) ↔ is_Some (threads (kern s) !! t).
Proof. unfold vths. simpl. by rewrite lookup_fmap, fmap_is_Some. Qed.
Lemma vths_inv s t vth : vths s !! t = Some vth → ∃ th, threads (kern s) !! t = Some th ∧ vth = vthread th.
Proof. unfold vths. simpl. rewrite lookup_fmap. intros (th & -> & ->)%fmap_Some. by exists th. Qed.
Lemma tprio_vths s t : tprio (vths s) t = prio_of (kern s) t.
Proof. apply a_prio_abs. Qed.
Lemma vthread_waits th : state (vthread th) = CH_STATE_WTMTX ↔ state th = CH_STATE_WTMTX.
Proof. simpl. unfold vstate. case_decide as H; [|done]. by rewrite H. Qed.
Lemma vths_waits s t mp : waits (vths s) t mp ↔ waits (threads (kern s)) t mp.
Proof.
  split; intros (th & E & Hs & Hu).
  - apply vths_inv in E as (th0 & E & ->). exists th0. split_and!; [done|by apply vthread_waits|done].
  - exists (vthread th). split_and!; [by apply vths_lookup|by apply vthread_waits|done].
Qed.

(** A thread is put back in the queue of the mutex it waits for. *)
Lemma requeue_runs mp t m s (Q : unit → mkernel → Prop) :
  mutexes s !! mp = Some m → t ∈ queue m →
  Q tt (mk_mk (kern s) (<[mp := with_queue (ch_pqueue_insert_behind (prio_of (kern s)) t (filter (λ x, x ≠ t) (queue m))) m]> (mutexes s))
         (realprio s) (mtxlist s)) →
  wp (requeue mp t) s Q.
Proof.
  intros Em Ht HQ. unfold requeue. apply wp_bind. eapply wp_get_mutex; [done|]. apply wp_bind.
  eapply wp_lift; [unfold ch_queue_dequeue; by rewrite decide_True|]. apply wp_bind, wp_get. by apply wp_modify.
Qed.
Lemma requeue_ready_ok k t th p :
  threads k !! t = Some th → state th = CH_STATE_READY → t ∈ rlist k →
  requeue_ready t (k_upd k t (with_prio p th) (rlist k) (currthread k)) = Ok tt (boosted_kernel k t th p).
Proof.
  intros Et Hst Ht. unfold requeue_ready. set (k1 := k_upd _ _ _ _ _).
  rewrite (bind_ok _ _ k1 k1 k1) by done.
  rewrite (bind_lift _ _ (filter (λ x, x ≠ t) (rlist k))) by (unfold ch_queue_dequeue; by rewrite decide_True).
  set (k2 := mk_kernel (next k) (listeners k) (threads k1) (filter (λ x, x ≠ t) (rlist k)) (currthread k)).
  rewrite (bind_ok _ _ k1 tt k2) by done. unfold chSchReadyI, __sch_ready_behind.
  assert (threads k2 !! t = Some (with_prio p th)) as E2 by (unfold k2, k1; simpl; by rewrite lookup_insert_eq).
  rewrite (bind_ok _ _ _ _ _ (on_thread_upd k2 t _ _ E2)). set (k3 := k_upd _ _ _ _ _).
  assert (threads k3 = <[t := with_prio p th]> (threads k)) as E3.
  { unfold k3, k2, k1, k_upd. cbn [threads]. rewrite insert_insert_eq. f_equal. by destruct th as [? []]; simpl in *. }
  rewrite (bind_ok _ _ k3 k3 k3) by done. unfold set_rlist, mmodify.
  unfold boosted_kernel, boosted_rlist. rewrite decide_True by done. unfold k_upd at 1. cbn [next listeners threads rlist currthread k2 k1 k_upd].
  f_equal. unfold k_upd. f_equal.
  - exact E3.
  - apply insert_behind_ext. intros x. unfold prio_of. rewrite E3.
    case_decide as Hx; [rewrite Hx; by rewrite lookup_insert_eq|by rewrite lookup_insert_ne].
Qed.

(** ** The loop of the inheritance *)

(** The threads below priority [p]: the loop raises one of them in each turn. *)
Definition low (p : Z) (ths : gmap Z thread_t) : gset Z := dom (filter (λ x, prio x.2 < p) ths).
Lemma low_spec p ths t : t ∈ low p ths ↔ ∃ th, ths !! t = Some th ∧ prio th < p.
Proof.
  unfold low. rewrite elem_of_dom. split.
  - intros [th [E Hp]%map_lookup_filter_Some]. by exists th.
  - intros (th & E & Hp). exists th. by apply map_lookup_filter_Some.
Qed.
Lemma low_insert p ths t th : ths !! t = Some th → prio th < p → (size (low p (<[t := with_prio p th]> ths)) < size (low p ths))%nat.
Proof.
  intros E Hp. apply subset_size. split.
  - intros x (thx & Ex & Hx)%low_spec. apply low_spec. apply lookup_insert_Some in Ex as [(<- & <-)|[_ ?]]; [simpl in Hx; lia|by exists thx].
  - intros H. assert (t ∈ low p (<[t := with_prio p th]> ths)) as (thx & Ex & Hx)%low_spec by (apply H, low_spec; by exists th).
    rewrite lookup_insert_eq in Ex. injection Ex as <-. simpl in Hx. lia.
Qed.
Lemma low_size p ths : (size (low p ths) <= size ths)%nat.
Proof. unfold low. rewrite <-(size_dom (D := gset Z) ths). apply subseteq_size, dom_filter_subseteq. Qed.

(** What the loop leaves. *)
Record inherited (o p : Z) (s s' : mkernel) : Prop := {
  inh_inv : mtx_inv (granted o p) nothing s';
  inh_owner : p <= prio_of (kern s') o;
  inh_boosted : boosted p (vths s) (vths s');
  inh_mutexes : requeued (mutexes s) (mutexes s');
  inh_fields : realprio s' = realprio s ∧ mtxlist s' = mtxlist s;
  inh_kernel : objects_kept (kern s) (kern s') ∧ currthread (kern s') = currthread (kern s) ∧ rlist (kern s') ≡ₚ rlist (kern s) }.

(** One turn: [tp], below [p], is raised; [ms] are the mutexes after it. *)
Lemma inherit_turn o p tp th nxt ms s :
  mtx_inv (owed o tp p) (short tp p) s → threads (kern s) !! tp = Some th → prio th < p → p = prio_of (kern s) (currthread (kern s)) →
  tp = o ∨ (∃ w mp, waits (vths s) w mp ∧ owns (mutexes s) tp mp ∧ tprio (vths s) w = p) →
  requeued (mutexes s) ms → (∀ mp m, ms !! mp = Some m → by_prio (tprio (<[tp := with_prio p (vthread th)]> (vths s))) (queue m)) →
  (∀ mp t, waits (vths s) tp mp → owns (mutexes s) t mp → t = nxt) →
  let s' := mk_mk (boosted_kernel (kern s) tp th p) ms (realprio s) (mtxlist s) in
  mtx_inv (owed o nxt p) (short nxt p) s' ∧ boosted p (vths s) (vths s') ∧ prio_of (kern s') tp = p ∧
  rlist (kern s') ≡ₚ rlist (kern s) ∧ (size (low p (threads (kern s'))) < size (low p (threads (kern s))))%nat.
Proof.
  intros (Hi & Hs & Ho) Et Hlt Hp Hwhy Hr Hso Hn s'. destruct (boosted_ok _ _ _ _ Hi Hs Et Hlt Hp) as (Hi' & Hs' & Hths & Hrl).
  assert (vths s' = <[tp := with_prio p (vthread th)]> (vths s)) as E' by apply Hths.
  split_and!; [split_and!; [done|done|]|..|done|].
  - rewrite E'. eapply boost_ok; try done. by apply vths_lookup.
  - rewrite E'. by apply boosted_insert; [apply vths_lookup|].
  - rewrite <-tprio_vths, E', tprio_insert. by rewrite decide_True.
  - simpl. by apply low_insert.
Qed.

Lemma inherit_kept o p s s1 s' :
  inherited o p s1 s' → boosted p (vths s) (vths s1) → requeued (mutexes s) (mutexes s1) →
  realprio s1 = realprio s → mtxlist s1 = mtxlist s → objects_kept (kern s) (kern s1) →
  currthread (kern s1) = currthread (kern s) → rlist (kern s1) ≡ₚ rlist (kern s) → inherited o p s s'.
Proof.
  intros [Hi Ho Hb Hm [Hr Hl] (Hk & Hc & Hq)] Hb1 Hm1 Hr1 Hl1 Hk1 Hc1 Hq1. split; try done.
  - by eapply boosted_trans.
  - by eapply requeued_trans.
  - split; congruence.
  - split_and!; [by eapply objects_kept_trans|congruence|by etrans].
Qed.
Lemma inherit_last o p tp s :
  mtx_inv (owed o tp p) (short tp p) s → p <= prio_of (kern s) tp → tp = o ∨ p <= prio_of (kern s) o → inherited o p s s.
Proof.
  intros (Hi & Hs & Ho) Hp Hoo. split; try done; [|destruct Hoo as [->|]; done|apply boosted_refl|apply requeued_refl].
  split_and!; [done|done|]. eapply boost_done; [done|]. by rewrite tprio_vths.
Qed.

(** The turn of a thread that is in no queue of a mutex. *)
Lemma inherit_apart o p tp th s :
  mtx_inv (owed o tp p) (short tp p) s → threads (kern s) !! tp = Some th → prio th < p → p = prio_of (kern s) (currthread (kern s)) →
  tp = o ∨ (∃ w mp, waits (vths s) w mp ∧ owns (mutexes s) tp mp ∧ tprio (vths s) w = p) →
  tp = o ∨ p <= prio_of (kern s) o → state th ≠ CH_STATE_WTMTX → inherited o p s (with_kern (boosted_kernel (kern s) tp th p) s).
Proof.
  intros Hinv Et Hlt Hp Hwhy Hoo Hst. pose proof Hinv as (Hi & Hs & Ho).
  assert (∀ mp, ¬ waits (vths s) tp mp) as Hnw.
  { intros mp (th' & E' & Hs' & _)%vths_waits. congruence. }
  destruct (inherit_turn o p tp th tp (mutexes s) s) as (Hinv' & Hb & Hptp & Hrl & _); try done.
  - apply requeued_refl.
  - intros mp m Em. apply (by_prio_ext_in (tprio (vths s))); [|by apply (ok_sorted _ _ _ _ _ _ Ho mp)].
    intros x Hx. rewrite tprio_insert, decide_False; [done|]. intros ->. apply (Hnw mp). by apply (ok_waits _ _ _ _ _ _ Ho mp m).
  - intros mp t Hw. by destruct (Hnw mp).
  - eapply (inherit_kept o p s); [|done|apply requeued_refl|done..].
    apply (inherit_last o p tp); [done|apply Z.eq_le_incl; symmetry; exact Hptp|]. destruct Hoo as [?|Hoo]; [by left|right].
    change (kern (with_kern _ s)) with (boosted_kernel (kern s) tp th p). unfold boosted_kernel. rewrite reprio_of. case_decide; lia.
Qed.

(** The turn of a thread that waits for a mutex itself: its new place in the queue. *)
Definition requeued_mutexes (p mp t : Z) (m : mutex_t) (k : kernel) (ms : gmap Z mutex_t) : gmap Z mutex_t :=
  <[mp := with_queue (ch_pqueue_insert_behind (prio_of k) t (filter (λ x, x ≠ t) (queue m))) m]> ms.
Lemma inherit_waiting o p tp th mp m s :
  let k' := boosted_kernel (kern s) tp th p in
  let s' := mk_mk k' (requeued_mutexes p mp tp m k' (mutexes s)) (realprio s) (mtxlist s) in
  mtx_inv (owed o tp p) (short tp p) s → threads (kern s) !! tp = Some th → prio th < p → p = prio_of (kern s) (currthread (kern s)) →
  tp = o ∨ (∃ w mp, waits (vths s) w mp ∧ owns (mutexes s) tp mp ∧ tprio (vths s) w = p) →
  waits (vths s) tp mp → mutexes s !! mp = Some m →
  requeued (mutexes s) (mutexes s') ∧
  mtx_inv (owed o (owner m) p) (short (owner m) p) s' ∧ boosted p (vths s) (vths s') ∧ prio_of (kern s') tp = p ∧
  rlist (kern s') ≡ₚ rlist (kern s) ∧ (size (low p (threads (kern s'))) < size (low p (threads (kern s))))%nat.
Proof.
  intros k' s' Hinv Et Hlt Hp Hwhy Hw Em. pose proof Hinv as (Hi & Hs & Ho).
  assert (∀ mp', waits (vths s) tp mp' → mp' = mp) as Huniq.
  { intros mp' (th1 & E1 & _ & <-). destruct Hw as (th2 & E2 & _ & <-). by simplify_eq. }
  assert (tp ∈ queue m) as Hin by by apply (ok_waits _ _ _ _ _ _ Ho mp m).
  assert (∀ x, prio_of k' x = tprio (<[tp := with_prio p (vthread th)]> (vths s)) x) as Hpr.
  { intros x. unfold k', boosted_kernel. by rewrite reprio_of, tprio_insert, tprio_vths. }
  destruct (reinsert (tprio (vths s)) (prio_of k') tp (queue m)) as [Hperm Hso].
  { by apply (ok_nodup _ _ _ _ _ _ Ho mp). }
  { done. }
  { by apply (ok_sorted _ _ _ _ _ _ Ho mp). }
  { intros x Hx. by rewrite Hpr, tprio_insert, decide_False. }
  assert (requeued (mutexes s) (mutexes s')) as Hr by by apply requeued_insert. split; [done|].
  apply inherit_turn; try done.
  - intros mp' m' Em'. unfold requeued_mutexes in Em'. apply lookup_insert_Some in Em' as [(<- & <-)|[Hne Em']]; [by eapply by_prio_ext, Hso|].
    apply (by_prio_ext_in (tprio (vths s))); [|by apply (ok_sorted _ _ _ _ _ _ Ho mp')].
    intros x Hx. rewrite tprio_insert, decide_False; [done|]. intros ->. apply Hne. symmetry. apply Huniq.
    by apply (ok_waits _ _ _ _ _ _ Ho mp' m').
  - intros mp' t Hw' (m' & Em' & <-). apply Huniq in Hw' as ->. by simplify_eq.
Qed.

Lemma inherit_runs o p : ∀ fuel s tp,
  mtx_inv (owed o tp p) (short tp p) s → p = prio_of (kern s) (currthread (kern s)) → is_Some (threads (kern s) !! tp) →
  tp = o ∨ (∃ w mp, waits (vths s) w mp ∧ owns (mutexes s) tp mp ∧ tprio (vths s) w = p) →
  tp = o ∨ p <= prio_of (kern s) o → (size (low p (threads (kern s))) < fuel)%nat →
  wp (inherit fuel tp) s (λ _ s', inherited o p s s').
Proof.
  induction fuel as [|fuel IH]; intros s tp Hinv Hp [th Et] Hwhy Hoo Hf; [lia|].
  pose proof Hinv as (Hi & Hs & Ho). cbn [inherit]. apply wp_bind, wp_gets.
  destruct (inv_current _ Hi) as (cth & Ec & _). assert (prio cth = p) as Hcp by (rewrite Hp; unfold prio_of; by rewrite Ec).
  apply wp_bind, wp_in_kernel. eapply wp_get_thread; [done|]. apply wp_bind, wp_in_kernel. eapply wp_get_thread; [done|].
  rewrite with_kern_twice, !with_kern_same, Hcp. case_decide as Hlt; cycle 1.
  { apply wp_ret. apply (inherit_last o p tp); [done|unfold prio_of; rewrite Et; lia|done]. }
  apply wp_bind, wp_in_kernel. eapply wp_ok; [by apply on_thread_upd|].
  destruct (decide (state th = CH_STATE_WTMTX)) as [Est|Est].
  - rewrite Est. assert (waits (vths s) tp (u th)) as Hw by (apply vths_waits; by exists th).
    destruct (ok_waited _ _ _ _ _ _ Ho _ _ Hw) as [m Em].
    assert (tp ∈ queue m) as Hin by by apply (ok_waits _ _ _ _ _ _ Ho (u th) m).
    assert (k_upd (kern s) tp (with_prio p th) (rlist (kern s)) (currthread (kern s)) = boosted_kernel (kern s) tp th p) as ->.
    { unfold boosted_kernel, boosted_rlist. rewrite decide_False; [done|congruence]. }
    destruct (inherit_waiting o p tp th (u th) m s) as (Hr & Hinv' & Hb & Hptp & Hrl & Hsz); try done.
    set (k' := boosted_kernel (kern s) tp th p) in *. set (s' := mk_mk k' _ _ _) in *.
    apply wp_bind. eapply requeue_runs; [done|done|]. apply wp_bind. change (mk_mk _ _ _ _) with s'.
    eapply wp_get_mutex; [by apply lookup_insert_eq|]. cbn [owner with_queue].
    assert (∀ x, prio_of k' x = if decide (x = tp) then p else prio_of (kern s) x) as Hpr by (intros x; apply reprio_of).
    eapply wp_mono; [apply IH; [done|..]|].
    + change (currthread (kern s')) with (currthread (kern s)). change (kern s') with k'. rewrite Hpr. by case_decide.
    + assert (owner m ≠ 0) as Hne by (intros E; rewrite (ok_free _ _ _ _ _ _ Ho _ _ Em E) in Hin; by apply elem_of_nil in Hin).
      pose proof (ok_owner _ _ _ _ _ _ Ho _ _ Em Hne) as Hs1%vths_some. simpl.
      destruct (decide (owner m = tp)) as [->|?]; [rewrite lookup_insert_eq; by eexists|by rewrite lookup_insert_ne].
    + right. exists tp, (u th). rewrite tprio_vths. split_and!; [|eexists; split; [apply lookup_insert_eq|done]|done].
      by apply (alike_waits (vths s) (vths s')); [eapply boosted_alike|].
    + right. change (kern s') with k'. rewrite Hpr. case_decide; [lia|]. destruct Hoo; [congruence|done].
    + lia.
    + intros ? s2 Hs2. by apply (inherit_kept o p s s').
  - assert (inherited o p s (with_kern (boosted_kernel (kern s) tp th p) s)) as Hdone by by apply inherit_apart.
    destruct (decide (state th = CH_STATE_READY)) as [Hrd|Hrd].
    { rewrite Hrd. apply wp_in_kernel. eapply wp_ok; [|rewrite with_kern_twice; exact Hdone].
      apply requeue_ready_ok; [done|done|]. apply (inv_ready _ Hi). by exists th. }
    pose proof (ok_cond _ _ _ _ _ _ Ho tp _ (vths_lookup _ _ _ Et)) as Hcond.
    assert (state th ≠ CH_STATE_WTCOND) as Hcond' by (intros E; apply Hcond; simpl; unfold vstate; by rewrite E).
    assert (boosted_kernel (kern s) tp th p = k_upd (kern s) tp (with_prio p th) (rlist (kern s)) (currthread (kern s))) as Hk.
    { unfold boosted_kernel, boosted_rlist. by rewrite decide_False. }
    rewrite <-Hk. by destruct (state th); try done; apply wp_ret.
Qed.
