(* ===== verification/ChMutexOps.v ===== *)
(** * The operations on mutexes

    What locking and unlocking do to the maps of [ChMutexFacts.v], and the operations of
    [ChMutex.v] run on them. *)
From Stdlib Require Import Sorted.
From S2P Require Import Prelude ChKernel ChSched ChMutex ChMutexFacts.

(** ** Changes of the maps *)

(** Nobody starts or stops waiting for a mutex, and no priority changes. *)
Definition undisturbed (ths ths' : gmap Z thread_t) : Prop :=
  ∀ t, option_Forall2 (λ th th', prio th' = prio th ∧ state th' ≠ CH_STATE_WTCOND ∧
    ∀ mp, (state th' = CH_STATE_WTMTX ∧ u th' = mp) ↔ (state th = CH_STATE_WTMTX ∧ u th = mp)) (ths !! t) (ths' !! t).

Section changes.
Context (ths : gmap Z thread_t) (ms : gmap Z mutex_t) (rp ml : gmap Z Z).

(** Other threads come and go between running, ready and asleep. *)
Lemma ok_env ths' SR SI :
  mtx_ok ths ms rp ml SR SI →
  undisturbed ths ths' →
  mtx_ok ths' ms rp ml SR SI.
Proof.
  intros H Hf. assert (∀ t, tprio ths' t = tprio ths t) as Hp.
  { intros t. unfold tprio. by destruct (Hf t) as [?? (-> & _)|]. }
  assert (∀ t mp, waits ths' t mp ↔ waits ths t mp) as Hw.
  { intros t mp. unfold waits. destruct (Hf t) as [th th' (_ & _ & Hu)|]; [|naive_solver].
    specialize (Hu mp). split; intros (? & [= <-] & ?); eexists; (split; [done|]); tauto. }
  assert (∀ t, is_Some (ths' !! t) ↔ is_Some (ths !! t)) as Hd by (intros t; by destruct (Hf t); rewrite ?is_Some_alt).
  split.
  - destruct (ok_null _ _ _ _ _ _ H) as [H1 H2]. split; [|done]. apply eq_None_not_Some. rewrite Hd, H1. by intros [? ?].
  - intros t th' E. pose proof (Hf t) as Ht. rewrite E in Ht. by inversion Ht as [? ? (_ & ? & _)|].
  - apply H.
  - intros mp m E. eapply by_prio_ext; [|by apply (ok_sorted _ _ _ _ _ _ H mp)]. done.
  - intros mp m t E. rewrite Hw. by apply (ok_waits _ _ _ _ _ _ H).
  - intros t mp. rewrite Hw. apply (ok_waited _ _ _ _ _ _ H).
  - apply H.
  - intros mp m E Ho. rewrite Hd. by apply (ok_owner _ _ _ _ _ _ H mp).
  - intros t Ht. apply H. by rewrite <-Hd.
  - intros t th' E. pose proof (Hf t) as Ht. rewrite E in Ht. inversion Ht as [th ? (Hpr & _ & _) E1|]; subst.
    destruct (ok_real _ _ _ _ _ _ H t th) as (r & ? & ? & Hc); [done|]. exists r. rewrite Hpr. split; [done|split; [done|]].
    destruct Hc as [?|[(w & mp & ? & ? & ?)|?]]; [by left| |by right; right]. right; left. exists w, mp. rewrite Hp. by rewrite Hw.
  - intros w mp t. rewrite Hw, !Hp. apply H.
Qed.

(** A thread starts, which owns no mutex and waits for none. *)
Lemma ok_create ths' x thx :
  mtx_ok ths ms rp ml nothing nothing → ths !! x = None → x ≠ 0 → 0 < prio thx →
  state thx ≠ CH_STATE_WTMTX → state thx ≠ CH_STATE_WTCOND →
  ths' !! x = Some thx → (∀ t, t ≠ x → ths' !! t = ths !! t) →
  mtx_ok ths' ms (<[x := prio thx]> rp) (<[x := 0]> ml) nothing nothing.
Proof.
  intros H Ex Hx0 Hp0 Hm Hc Ex' Hrest.
  assert (∀ t mp, waits ths' t mp ↔ waits ths t mp) as Hw.
  { intros t mp. unfold waits. destruct (decide (t = x)) as [->|]; [|by rewrite Hrest].
    rewrite Ex, Ex'. split; [by intros (? & [= <-] & ? & _)|by intros (? & ? & _)]. }
  assert (∀ t, is_Some (ths !! t) → t ≠ x ∧ is_Some (ths' !! t)) as Hd.
  { intros t Ht. assert (t ≠ x) by (intros ->; rewrite Ex in Ht; by destruct Ht). by rewrite Hrest. }
  assert (∀ t mp, waits ths t mp → t ≠ x) as Hwx by (intros t mp (? & ? & _); by apply Hd).
  assert (∀ t, t ≠ x → tprio ths' t = tprio ths t) as Hp by (intros t Ht; unfold tprio; by rewrite Hrest).
  assert (∀ mp, ¬ owns ms x mp) as Hox.
  { intros mp (m & Em & Ho). pose proof (ok_owner _ _ _ _ _ _ H mp m Em) as Hs. rewrite Ho, Ex in Hs. by destruct (Hs Hx0). }
  destruct (ok_null _ _ _ _ _ _ H) as [H1 H2]. split.
  - split; [by rewrite Hrest|done].
  - intros t th. destruct (decide (t = x)) as [->|]; [rewrite Ex'; by intros [= <-]|]. rewrite Hrest by done. apply H.
  - apply H.
  - intros mp m E. eapply by_prio_ext_in; [|by apply (ok_sorted _ _ _ _ _ _ H mp)]. intros t Ht. symmetry. apply Hp.
    by eapply Hwx, (ok_waits _ _ _ _ _ _ H).
  - intros mp m t E. rewrite Hw. by apply (ok_waits _ _ _ _ _ _ H).
  - intros t mp. rewrite Hw. apply (ok_waited _ _ _ _ _ _ H).
  - apply H.
  - intros mp m E Ho. apply Hd. by apply (ok_owner _ _ _ _ _ _ H mp).
  - intros t Ht. destruct (decide (t = x)) as [->|Hne].
    + exists [], 0. rewrite lookup_insert_eq. split_and!; [done|done|constructor|]. intros mp.
      split; [by intros ?%elem_of_nil|by intros ?%Hox].
    + rewrite Hrest in Ht by done. destruct (ok_lists _ _ _ _ _ _ H t Ht) as (l & p & ? & ?). exists l, p. by rewrite lookup_insert_ne.
  - intros t th. destruct (decide (t = x)) as [->|Hne].
    + rewrite Ex', lookup_insert_eq. intros [= <-]. exists (prio thx). split; [done|]. split; [lia|by left].
    + rewrite Hrest, lookup_insert_ne by done. intros E. destruct (ok_real _ _ _ _ _ _ H t th E) as (r & ? & ? & Hcs).
      exists r. split; [done|]. split; [done|]. destruct Hcs as [?|[(w & mp & Hww & ? & ?)|[]]]; [by left|].
      right; left. exists w, mp. rewrite Hw, Hp by (by eapply Hwx). done.
  - intros w mp t. rewrite Hw. intros Hww Ho. assert (t ≠ x) by (intros ->; by eapply Hox).
    rewrite !Hp by (done || by eapply Hwx). by apply (ok_inherit _ _ _ _ _ _ H w mp t).
Qed.

Lemma chain_without mp m p l : mp ∉ l → mtx_chain (<[mp := m]> ms) p l ↔ mtx_chain ms p l.
Proof.
  revert p. induction l as [|x l IH]; intros p Hl; simpl; [done|]. apply not_elem_of_cons in Hl as [Hx Hl].
  rewrite lookup_insert_ne by done. split; intros (-> & m' & E & ?); (split; [done|]); exists m'; (split; [done|]); by apply IH.
Qed.
Lemma owns_insert mp m t x : owns (<[mp := m]> ms) t x ↔ (x = mp ∧ owner m = t) ∨ (x ≠ mp ∧ owns ms t x).
Proof.
  unfold owns. split.
  - intros (m' & [(-> & <-)|[? E]]%lookup_insert_Some & Ho); [by left|right]. split; [done|]. by exists m'.
  - intros [(-> & Ho)|(Hx & m' & E & Ho)]; [exists m|exists m']; by rewrite ?lookup_insert_eq, ?lookup_insert_ne.
Qed.

(** A thread that runs waits for a mutex from now on. *)
Lemma ok_block c thc mp m :
  mtx_ok ths ms rp ml (granted (owner m) (prio thc)) nothing → ths !! c = Some thc → state thc ≠ CH_STATE_WTMTX →
  ms !! mp = Some m → owner m ≠ 0 → prio thc <= tprio ths (owner m) →
  mtx_ok (<[c := with_state CH_STATE_WTMTX (with_u mp thc)]> ths)
    (<[mp := with_queue (ch_pqueue_insert_behind (tprio ths) c (queue m)) m]> ms) rp ml nothing nothing.
Proof.
  intros H Ec Hc Em Hne Hle. set (ths' := <[c := _]> ths). set (ms' := <[mp := _]> ms).
  assert (∀ t, tprio ths' t = tprio ths t) as Hp.
  { intros t. unfold tprio, ths'. destruct (decide (t = c)) as [->|]; [by rewrite lookup_insert_eq, Ec|by rewrite lookup_insert_ne]. }
  assert (∀ t x, waits ths' t x ↔ (t = c ∧ x = mp) ∨ waits ths t x) as Hw.
  { intros t x. unfold waits, ths'. destruct (decide (t = c)) as [->|].
    - rewrite lookup_insert_eq, Ec. split.
      + intros (? & [= <-] & _ & <-). by left.
      + intros [[_ ->]|(? & [= <-] & ? & _)]; [by eexists|done].
    - rewrite lookup_insert_ne by done. naive_solver. }
  assert (∀ x, ¬ waits ths c x) as Hcw by (intros x (? & E & ? & _); simplify_eq).
  assert (same_owners ms ms') as Hsame by by apply same_insert.
  assert (∀ t x, owns ms' t x ↔ owns ms t x) as Ho by (intros; by apply same_owns).
  assert (∀ t, is_Some (ths' !! t) ↔ is_Some (ths !! t)) as Hd.
  { intros t. unfold ths'. destruct (decide (t = c)) as [->|]; [|by rewrite lookup_insert_ne]. rewrite lookup_insert_eq, Ec. split; by eexists. }
  destruct (ok_null _ _ _ _ _ _ H) as [H1 H2].
  split.
  - split; [|unfold ms'; rewrite lookup_insert_ne; [done|congruence]]. apply eq_None_not_Some. rewrite Hd, H1. by intros [? ?].
  - intros t th. unfold ths'. intros [(<- & <-)|[_ E]]%lookup_insert_Some; [done|by apply (ok_cond _ _ _ _ _ _ H t)].
  - intros x mx [(<- & <-)|[_ E]]%lookup_insert_Some; [|by apply (ok_nodup _ _ _ _ _ _ H x)]. simpl. rewrite insert_behind_perm.
    apply NoDup_cons. split; [|by apply (ok_nodup _ _ _ _ _ _ H mp)]. rewrite (ok_waits _ _ _ _ _ _ H mp m c Em). apply Hcw.
  - intros x mx [(<- & <-)|[_ E]]%lookup_insert_Some; (eapply by_prio_ext; [intros t; symmetry; apply Hp|]); [|by apply (ok_sorted _ _ _ _ _ _ H x)].
    simpl. apply insert_behind_sorted. by apply (ok_sorted _ _ _ _ _ _ H mp).
  - intros x mx t [(<- & <-)|[Hx E]]%lookup_insert_Some; rewrite Hw.
    + simpl. rewrite insert_behind_perm, elem_of_cons, (ok_waits _ _ _ _ _ _ H mp m t Em). tauto.
    + rewrite (ok_waits _ _ _ _ _ _ H x mx t E). naive_solver.
  - intros t x. rewrite Hw. unfold ms'. intros [[-> ->]|Hx]; [rewrite lookup_insert_eq; by eexists|].
    destruct (decide (x = mp)) as [->|]; [rewrite lookup_insert_eq; by eexists|rewrite lookup_insert_ne by done]. by apply (ok_waited _ _ _ _ _ _ H t).
  - intros x mx [(<- & <-)|[_ E]]%lookup_insert_Some; [done|by apply (ok_free _ _ _ _ _ _ H x)].
  - intros x mx [(<- & <-)|[_ E]]%lookup_insert_Some; rewrite Hd; simpl; by eapply (ok_owner _ _ _ _ _ _ H).
  - intros t Ht. rewrite Hd in Ht. destruct (ok_lists _ _ _ _ _ _ H t Ht) as [l Hl]. exists l. by eapply same_lists.
  - intros t th E. assert (∃ th0, ths !! t = Some th0 ∧ prio th = prio th0) as (th0 & E0 & ->).
    { unfold ths' in E. apply lookup_insert_Some in E as [(<- & <-)|[_ E]]; [by exists thc|by exists th]. }
    destruct (ok_real _ _ _ _ _ _ H t th0 E0) as (r & ? & ? & Hcs). exists r. split; [done|split; [done|]].
    destruct Hcs as [?|[(w & x & ? & ? & ?)|[-> ->]]]; [by left|right; left; exists w, x; rewrite Hw, Ho, Hp; tauto|right; left].
    exists c, mp. rewrite Hw, Ho, Hp. split_and!; [by left|by exists m|unfold tprio; by rewrite Ec].
  - intros w x t. rewrite Hw, Ho, !Hp. intros [[-> ->]|Hx] Hox; [|by apply (ok_inherit _ _ _ _ _ _ H w x t)].
    left. destruct Hox as (m' & Em' & <-). simplify_eq. unfold tprio at 1. by rewrite Ec.
Qed.

(** ** Changes of the owner *)

Lemma list_push mp q c p l :
  owned_list ms ml c l → ml !! c = Some p → mp ≠ 0 → ¬ owns ms c mp →
  owned_list (<[mp := mk_mutex q c p]> ms) (<[c := mp]> ml) c (mp :: l).
Proof.
  intros (p' & Hp & Hc & Hn & Hl) Hp' Hmp Hno. simplify_eq. exists mp. rewrite lookup_insert_eq. split_and!; [done|..].
  - simpl. split; [done|]. eexists. rewrite lookup_insert_eq. split; [done|]. simpl. apply chain_without; [by rewrite Hl|done].
  - apply NoDup_cons. by rewrite Hl.
  - intros x. rewrite elem_of_cons, Hl, owns_insert. cbn [owner]. destruct (decide (x = mp)) as [->|]; naive_solver.
Qed.
Lemma list_pop mp m m' c l :
  owned_list ms ml c (mp :: l) → ms !! mp = Some m → owner m' ≠ c →
  owned_list (<[mp := m']> ms) (<[c := mnext m]> ml) c l.
Proof.
  intros (p & Hp & (-> & m0 & E & Hc) & Hn & Hl) Em Ho. rewrite Em in E. injection E as <-. apply NoDup_cons in Hn as [Hnin Hn].
  exists (mnext m). rewrite lookup_insert_eq. split_and!; [done|by apply chain_without|done|].
  intros x. rewrite owns_insert. specialize (Hl x). rewrite elem_of_cons in Hl. destruct (decide (x = mp)) as [->|]; naive_solver.
Qed.
Lemma list_other mp m' t l ml' :
  owned_list ms ml t l → ¬ owns ms t mp → owner m' ≠ t → ml' !! t = ml !! t → owned_list (<[mp := m']> ms) ml' t l.
Proof.
  intros (p & Hp & Hc & Hn & Hl) Hno Ho Hml. exists p. rewrite Hml. split_and!; [done|apply chain_without; [by rewrite Hl|done]|done|].
  intros x. rewrite owns_insert, Hl. destruct (decide (x = mp)) as [->|]; naive_solver.
Qed.

Lemma ok_thread SR SI t : mtx_ok ths ms rp ml SR SI → is_Some (ths !! t) → t ≠ 0.
Proof. intros H [th Ht] ->. destruct (ok_null _ _ _ _ _ _ H). congruence. Qed.
(** The owner of a mutex that nobody waits for changes. *)
Lemma ok_reown SR SI mp m m' ml' :
  mtx_ok ths ms rp ml SR SI → ms !! mp = Some m → queue m = [] → queue m' = [] → (owner m' ≠ 0 → is_Some (ths !! owner m')) →
  (∀ t, is_Some (ths !! t) → ∃ l, owned_list (<[mp := m']> ms) ml' t l) → mtx_ok ths (<[mp := m']> ms) rp ml' SR SI.
Proof.
  intros H Em Hq Hq' Ho' Hlists. destruct (ok_null _ _ _ _ _ _ H) as [H1 H2].
  assert (∀ w, ¬ waits ths w mp) as Hnw by (intros w Hw; apply (ok_waits _ _ _ _ _ _ H mp m w Em) in Hw; rewrite Hq in Hw; by apply elem_of_nil in Hw).
  split; try done; try apply H.
  - split; [done|]. rewrite lookup_insert_ne; [done|congruence].
  - intros x mx [(<- & <-)|[_ E]]%lookup_insert_Some; [rewrite Hq'; constructor|by apply (ok_nodup _ _ _ _ _ _ H x)].
  - intros x mx [(<- & <-)|[_ E]]%lookup_insert_Some; [rewrite Hq'; constructor|by apply (ok_sorted _ _ _ _ _ _ H x)].
  - intros x mx t [(<- & <-)|[_ E]]%lookup_insert_Some; [|by apply (ok_waits _ _ _ _ _ _ H x)].
    rewrite <-(ok_waits _ _ _ _ _ _ H mp m t Em). by rewrite Hq, Hq'.
  - intros t x Hw. apply lookup_insert_is_Some. destruct (decide (mp = x)); [by left|right]. split; [done|]. by apply (ok_waited _ _ _ _ _ _ H t).
  - intros x mx [(<- & <-)|[_ E]]%lookup_insert_Some; [done|by apply (ok_free _ _ _ _ _ _ H x)].
  - intros x mx [(<- & <-)|[_ E]]%lookup_insert_Some; [done|by apply (ok_owner _ _ _ _ _ _ H x)].
  - intros t th E. destruct (ok_real _ _ _ _ _ _ H t th E) as (r & ? & ? & Hcs). exists r. split; [done|split; [done|]].
    destruct Hcs as [?|[(w & x & Hw & ? & ?)|?]]; [by left|right; left|by right; right]. exists w, x. split_and!; [done| |done].
    rewrite owns_insert. right. split; [|done]. intros ->. by destruct (Hnw w).
  - intros w x t Hw [(-> & _)|[_ Ho]]%owns_insert; [by destruct (Hnw w)|]. by apply (ok_inherit _ _ _ _ _ _ H w x t).
Qed.

(** A free mutex is taken. *)
Lemma ok_take SR SI c p mp m :
  mtx_ok ths ms rp ml SR SI → ms !! mp = Some m → owner m = 0 → is_Some (ths !! c) → ml !! c = Some p →
  mtx_ok ths (<[mp := mk_mutex (queue m) c p]> ms) rp (<[c := mp]> ml) SR SI.
Proof.
  intros H Em Ho0 Hc Hp. pose proof (ok_free _ _ _ _ _ _ H _ _ Em Ho0) as Hq. destruct (ok_null _ _ _ _ _ _ H) as [_ H2].
  assert (∀ t, is_Some (ths !! t) → ¬ owns ms t mp) as Hno.
  { intros t Ht (m' & ? & ?). simplify_eq. by apply (ok_thread _ _ _ H Ht). }
  apply (ok_reown SR SI mp m); try done. intros t Ht. destruct (ok_lists _ _ _ _ _ _ H t Ht) as [l Hl].
  destruct (decide (t = c)) as [->|Htc]; [exists (mp :: l); apply list_push; auto; congruence|].
  exists l. apply list_other; [done|auto|done|by rewrite lookup_insert_ne].
Qed.

(** A mutex that nobody waits for is freed. *)
Lemma ok_release SR SI c mp m l :
  mtx_ok ths ms rp ml SR SI → ms !! mp = Some m → owner m = c → queue m = [] → owned_list ms ml c (mp :: l) →
  mtx_ok ths (<[mp := mk_mutex [] 0 (mnext m)]> ms) rp (<[c := mnext m]> ml) SR SI.
Proof.
  intros H Em Ho Hq Hlist. apply (ok_reown SR SI mp m); try done. intros t Ht. pose proof (ok_thread _ _ _ H Ht) as Hnz.
  destruct (decide (t = c)) as [->|Htc]; [exists l; by apply list_pop; [..|apply not_eq_sym]|].
  destruct (ok_lists _ _ _ _ _ _ H t Ht) as [l' Hl']. exists l'. apply list_other; [done| |by apply not_eq_sym|by rewrite lookup_insert_ne].
  intros (m' & ? & ?). simplify_eq.
Qed.

Lemma hand_lists c mp m tp q ltp l t l' :
  owned_list ms ml c (mp :: l) → ms !! mp = Some m → owner m = c → tp ≠ c → mp ≠ 0 → ml !! tp = Some ltp → owned_list ms ml t l' →
  ∃ l'', owned_list (<[mp := mk_mutex q tp ltp]> ms) (<[tp := mp]> (<[c := mnext m]> ml)) t l''.
Proof.
  intros Hlist Em Ho Htc Hmp Hltp Hl'. assert (∀ x, x ≠ c → ¬ owns ms x mp) as Hno by (intros x Hx (m' & ? & ?); simplify_eq).
  destruct (decide (t = tp)) as [->|Ht1].
  - exists (mp :: l'). destruct (list_push mp q tp ltp l') as (p & Hp & ?); [done|done|done|auto|]. exists p. rewrite lookup_insert_eq in *. done.
  - destruct (decide (t = c)) as [->|Ht2].
    + exists l. destruct (list_pop mp m (mk_mutex q tp ltp) c l) as (p & Hp & ?); [done|done|done|]. exists p. by rewrite lookup_insert_ne.
    + exists l'. apply list_other; [done|auto|auto|by rewrite !lookup_insert_ne].
Qed.

(** The mutex of [c] goes to its first waiter; [c] has any priority. *)
Definition at_thread (c : Z) : Z → Z → Prop := λ t _, t = c.
Lemma ok_hand c mp m tp q thtp ltp l :
  mtx_ok ths ms rp ml (at_thread c) (at_thread c) → ms !! mp = Some m → owner m = c → queue m = tp :: q → tp ≠ c →
  owned_list ms ml c (mp :: l) → ths !! tp = Some thtp → ml !! tp = Some ltp →
  mtx_ok (<[tp := with_state CH_STATE_READY thtp]> ths) (<[mp := mk_mutex q tp ltp]> ms) rp (<[tp := mp]> (<[c := mnext m]> ml))
    (at_thread c) (at_thread c).
Proof.
  intros H Em Ho Hq Htc Hlist Etp Hltp. set (ths' := <[tp := _]> ths). set (ms' := <[mp := _]> ms).
  destruct (ok_null _ _ _ _ _ _ H) as [H1 H2]. assert (waits ths tp mp) as Htw by (apply (ok_waits _ _ _ _ _ _ H mp m); [done|rewrite Hq; by left]).
  assert (∀ x, waits ths tp x → x = mp) as Huniq by (intros x (? & ? & _ & <-); destruct Htw as (? & ? & _ & <-); by simplify_eq).
  assert (∀ t, tprio ths' t = tprio ths t) as Hp.
  { intros t. unfold tprio, ths'. destruct (decide (t = tp)) as [->|]; [by rewrite lookup_insert_eq, Etp|by rewrite lookup_insert_ne]. }
  assert (∀ t x, waits ths' t x ↔ t ≠ tp ∧ waits ths t x) as Hw.
  { intros t x. unfold waits, ths'. destruct (decide (t = tp)) as [->|]; [rewrite lookup_insert_eq|rewrite lookup_insert_ne by done; tauto].
    split; [by intros (? & [= <-] & ? & _)|by intros [? _]]. }
  assert (∀ t, is_Some (ths' !! t) ↔ is_Some (ths !! t)) as Hd.
  { intros t. unfold ths'. destruct (decide (t = tp)) as [->|]; [|by rewrite lookup_insert_ne]. rewrite lookup_insert_eq, Etp. split; by eexists. }
  pose proof (ok_nodup _ _ _ _ _ _ H _ _ Em) as Hnd. rewrite Hq in Hnd. apply NoDup_cons in Hnd as [Hnin Hnd].
  pose proof (ok_sorted _ _ _ _ _ _ H _ _ Em) as Hso. rewrite Hq in Hso. apply by_prio_cons in Hso as [Hso Hle].
  split.
  - split; [|unfold ms'; rewrite lookup_insert_ne; [done|congruence]]. apply eq_None_not_Some. rewrite Hd, H1. by intros [? ?].
  - intros t th [(<- & <-)|[_ E]]%lookup_insert_Some; [done|by apply (ok_cond _ _ _ _ _ _ H t)].
  - intros x mx [(<- & <-)|[_ E]]%lookup_insert_Some; [done|by apply (ok_nodup _ _ _ _ _ _ H x)].
  - intros x mx [(<- & <-)|[_ E]]%lookup_insert_Some; (eapply by_prio_ext; [intros t; symmetry; apply Hp|]); [done|by apply (ok_sorted _ _ _ _ _ _ H x)].
  - intros x mx t [(<- & <-)|[Hx E]]%lookup_insert_Some; rewrite Hw; cbn [queue].
    + rewrite <-(ok_waits _ _ _ _ _ _ H mp m t Em), Hq, elem_of_cons. naive_solver.
    + rewrite (ok_waits _ _ _ _ _ _ H x mx t E). split; [|tauto]. intros Ht. split; [|done]. intros ->. by apply Hx, eq_sym, Huniq.
  - intros t x [_ Hx]%Hw. apply lookup_insert_is_Some. destruct (decide (mp = x)); [by left|right]. split; [done|]. by apply (ok_waited _ _ _ _ _ _ H t).
  - intros x mx [(<- & <-)|[_ E]]%lookup_insert_Some; [|by apply (ok_free _ _ _ _ _ _ H x)]. simpl. intros ->. congruence.
  - intros x mx [(<- & <-)|[_ E]]%lookup_insert_Some; rewrite Hd; [by eexists|by apply (ok_owner _ _ _ _ _ _ H x)].
  - intros t Ht. rewrite Hd in Ht. destruct (ok_lists _ _ _ _ _ _ H t Ht) as [l' Hl']. eapply (hand_lists c mp m tp q ltp l t l'); try done; congruence.
  - intros t th E. assert (∃ th0, ths !! t = Some th0 ∧ prio th = prio th0) as (th0 & E0 & ->).
    { apply lookup_insert_Some in E as [(<- & <-)|[_ E]]; [by exists thtp|by exists th]. }
    destruct (ok_real _ _ _ _ _ _ H t th0 E0) as (r & ? & ? & Hcs). exists r. split; [done|split; [done|]].
    destruct (decide (t = c)) as [->|Hne]; [by right; right|].
    destruct Hcs as [?|[(w & x & Hwx & Hox & ?)|?]]; [by left|right; left|by right; right].
    assert (x ≠ mp) as Hx by (intros ->; destruct Hox as (? & ? & ?); simplify_eq).
    exists w, x. rewrite Hw, Hp. split_and!; [|done|by apply owns_insert; right|done]. intros ->. by apply Hx, Huniq.
  - intros w x t. rewrite Hw, !Hp. unfold ms'. rewrite owns_insert. intros [Hwt Hwx] [(-> & <-)|[_ Hox]]; [left|by apply (ok_inherit _ _ _ _ _ _ H w x t)].
    cbn [owner]. assert (w ∈ queue m) as Hin by by apply (ok_waits _ _ _ _ _ _ H mp m). rewrite Hq, elem_of_cons in Hin.
    destruct Hin as [?|Hin]; [done|]. specialize (Hle w Hin). lia.
Qed.
End changes.

Section settle.
Context (ths : gmap Z thread_t) (ms : gmap Z mutex_t) (rp ml : gmap Z Z).

Lemma ok_weaken SR SI SR' SI' :
  mtx_ok ths ms rp ml SR SI → (∀ t x, SR t x → SR' t x) → (∀ t x, SI t x → SI' t x) → mtx_ok ths ms rp ml SR' SI'.
Proof.
  intros H H1 H2. eapply ok_reprio; [exact H|apply alike_refl|apply requeued_refl|apply H| |].
  - intros t th E. destruct (ok_real _ _ _ _ _ _ H t th E) as (r & ? & ? & Hc). exists r. split; [done|split; [done|]]. naive_solver.
  - intros w mp t Hw Ho. destruct (ok_inherit _ _ _ _ _ _ H w mp t Hw Ho); auto.
Qed.

(** The priority of a thread that waits for no mutex changes, for the time being without a reason. *)
Lemma ok_loosen c thc p r :
  mtx_ok ths ms rp ml (at_thread c) (at_thread c) → ths !! c = Some thc → state thc ≠ CH_STATE_WTMTX →
  rp !! c = Some r → 0 < r <= p → mtx_ok (<[c := with_prio p thc]> ths) ms rp ml (at_thread c) (at_thread c).
Proof.
  intros H Ec Hst Hr Hp. assert (∀ x, ¬ waits ths c x) as Hnw by (intros x (? & ? & ? & _); simplify_eq).
  eapply ok_reprio; [exact H|by apply alike_insert|apply requeued_refl|..].
  - intros mp m Em. apply (by_prio_ext_in (tprio ths)); [|by apply (ok_sorted _ _ _ _ _ _ H mp)].
    intros t Ht. rewrite tprio_insert, decide_False; [done|]. intros ->. apply (Hnw mp). by apply (ok_waits _ _ _ _ _ _ H mp m).
  - intros t th [(<- & <-)|[Hne E]]%lookup_insert_Some; [by exists r; split; [|split; [|right; right]]|].
    destruct (ok_real _ _ _ _ _ _ H t th E) as (r' & ? & ? & Hc). exists r'. split; [done|split; [done|]].
    destruct Hc as [?|[(w & mp & Hw & ? & ?)|?]]; [by left|right; left|by right; right]. exists w, mp.
    rewrite tprio_insert, decide_False; [done|]. intros ->. by destruct (Hnw mp).
  - intros w mp t Hw Ho. rewrite !tprio_insert. rewrite (decide_False (P := w = c)) by (intros ->; by destruct (Hnw mp)).
    case_decide; [by right|]. destruct (ok_inherit _ _ _ _ _ _ H w mp t Hw Ho); [by left|by right].
Qed.
(** It has a reason again. *)
Lemma ok_settle c thc r :
  mtx_ok ths ms rp ml (at_thread c) (at_thread c) → ths !! c = Some thc → rp !! c = Some r → 0 < r <= prio thc →
  prio thc = r ∨ (∃ w mp, waits ths w mp ∧ owns ms c mp ∧ tprio ths w = prio thc) →
  (∀ w mp, waits ths w mp → owns ms c mp → tprio ths w <= prio thc) → mtx_ok ths ms rp ml nothing nothing.
Proof.
  intros H Ec Hr Hp Hwhy Hall. eapply ok_reprio; [exact H|apply alike_refl|apply requeued_refl|apply H| |].
  - intros t th E. destruct (ok_real _ _ _ _ _ _ H t th E) as (r' & Hr' & ? & Hc). exists r'. split; [done|split; [done|]].
    destruct Hc as [?|[?|Ht]]; [by left|by right; left|]. unfold at_thread in Ht. subst t. simplify_eq. destruct Hwhy; [by left|by right; left].
  - intros w mp t Hw Ho. left. destruct (ok_inherit _ _ _ _ _ _ H w mp t Hw Ho) as [?|Ht]; [done|].
    unfold at_thread in Ht. subst t. specialize (Hall w mp Hw Ho). unfold tprio at 2. by rewrite Ec.
Qed.
End settle.

(** ** The operations *)

Lemma alter_known {A} (m : gmap Z A) t x f : m !! t = Some x → alter f t m = <[t := f x]> m.
Proof.
  intros E. apply map_eq. intros i. destruct (decide (i = t)) as [->|]; [by rewrite lookup_alter_eq, lookup_insert_eq, E|].
  by rewrite lookup_alter_ne, lookup_insert_ne.
Qed.
Lemma waits_insert ths t0 th t x :
  waits (<[t0 := th]> ths) t x ↔ (t = t0 ∧ state th = CH_STATE_WTMTX ∧ u th = x) ∨ (t ≠ t0 ∧ waits ths t x).
Proof.
  unfold waits. split.
  - intros (th' & [(-> & <-)|[? E]]%lookup_insert_Some & ? & ?); [by left|right]. split; [done|]. by exists th'.
  - intros [(-> & ? & ?)|(Hx & th' & E & ?)]; [exists th|exists th']; by rewrite ?lookup_insert_eq, ?lookup_insert_ne.
Qed.
Lemma waits_blocked s t mp : waits (vths s) t mp → blocked (kern s) t.
Proof. intros (th & E & Hs & _)%vths_waits. exists th. split_and!; [done|by rewrite Hs..]. Qed.
Lemma current_vths s : sched_inv (kern s) → ∃ thc, vths s !! currthread (kern s) = Some thc ∧ state thc = CH_STATE_READY.
Proof.
  intros Hi. destruct (inv_current _ Hi) as (th & E & Hs). exists (vthread th). split; [by apply vths_lookup|].
  simpl. unfold vstate. by rewrite Hs.
Qed.

Lemma owned_prio_runs s l : ∀ fuel lmp p0,
  mtx_chain (mutexes s) lmp l → (length l < fuel)%nat → mutexes s !! 0 = None →
  (∀ mp m, mutexes s !! mp = Some m → by_prio (prio_of (kern s)) (queue m) ∧ ∀ t, t ∈ queue m → is_Some (threads (kern s) !! t)) →
  wp (owned_prio fuel lmp p0) s (λ p s', s' = s ∧ p0 <= p ∧
    (p = p0 ∨ ∃ mp m t, mp ∈ l ∧ mutexes s !! mp = Some m ∧ t ∈ queue m ∧ prio_of (kern s) t = p) ∧
    ∀ mp m t, mp ∈ l → mutexes s !! mp = Some m → t ∈ queue m → prio_of (kern s) t <= p).
Proof.
  induction l as [|mp l IH]; intros fuel lmp p0 Hc Hf H0 Hq; (destruct fuel as [|fuel]; [simpl in Hf; lia|]); cbn [owned_prio].
  { rewrite decide_True by done. apply wp_ret. split_and!; [done|lia|by left|]. intros mp m t []%elem_of_nil. }
  destruct Hc as (-> & m & Em & Hc). rewrite decide_False by congruence. apply wp_bind. eapply wp_get_mutex; [done|].
  assert (wp (match queue m with
    | [] => mret p0
    | t :: _ => th ← in_kernel (get_thread t); mret (if decide (prio th > p0) then prio th else p0)
    end) s (λ p s', s' = s ∧ p0 <= p ∧ (p = p0 ∨ ∃ t, t ∈ queue m ∧ prio_of (kern s) t = p) ∧
      ∀ t, t ∈ queue m → prio_of (kern s) t <= p)) as Hfirst.
  { destruct (Hq _ _ Em) as [Hso Hth]. destruct (queue m) as [|t q].
    - apply wp_ret. split_and!; [done|lia|by left|]. intros t []%elem_of_nil.
    - destruct (Hth t) as [th Et]; [by left|]. apply by_prio_cons in Hso as [_ Hle].
      apply wp_bind, wp_in_kernel. eapply wp_get_thread; [done|]. rewrite with_kern_same. apply wp_ret.
      assert (prio_of (kern s) t = prio th) as Hp by (unfold prio_of; by rewrite Et).
      split_and!; [done|case_decide; lia| |].
      + case_decide; [right; exists t; split; [by left|done]|by left].
      + intros x [->|Hx]%elem_of_cons; [rewrite Hp; case_decide; lia|]. specialize (Hle x Hx). rewrite Hp in Hle. case_decide; lia. }
  apply wp_bind. eapply wp_mono; [exact Hfirst|]. intros p1 s1 (-> & Hp1 & Hw1 & Ha1).
  eapply wp_mono; [apply (IH fuel (mnext m) p1); [done|simpl in Hf; lia|done|done]|]. intros p s2 (-> & Hp & Hw & Ha).
  split_and!; [done|lia| |].
  - destruct Hw as [->|(mp' & m' & t & ? & ? & ? & ?)].
    + destruct Hw1 as [->|(t & ? & ?)]; [by left|right]. exists mp, m, t. split_and!; [by left|done..].
    + right. exists mp', m', t. split_and!; [by right|done..].
  - intros mp' m' t [->|Hin]%elem_of_cons Em' Ht; [|by eapply Ha]. simplify_eq. specialize (Ha1 t Ht). lia.
Qed.

(** The mutex [mp] of the running thread goes to its first waiter, whose thread was [thtp]. *)
Definition handed (mp tp : Z) (q : list Z) (s s' : mkernel) : Prop :=
  ∃ thtp ltp, vths s !! tp = Some thtp ∧ vths s' = <[tp := with_state CH_STATE_READY thtp]> (vths s) ∧
    mutexes s' = <[mp := mk_mutex q tp ltp]> (mutexes s) ∧ realprio s' = realprio s ∧
    objects_kept (kern s) (kern s') ∧ currthread (kern s') = currthread (kern s).
Lemma hand_over_runs mp m tp q l ml s :
  let c := currthread (kern s) in
  sched_inv (kern s) → mtx_ok (vths s) (mutexes s) (realprio s) ml (at_thread c) (at_thread c) →
  mtxlist s = <[c := mnext m]> ml → mutexes s !! mp = Some m → owner m = c → queue m = tp :: q →
  owned_list (mutexes s) ml c (mp :: l) →
  wp (hand_over mp tp q) s (λ _ s', sched_inv (kern s') ∧ handed mp tp q s s' ∧
    mtx_ok (vths s') (mutexes s') (realprio s') (mtxlist s') (at_thread c) (at_thread c) ∧ owned_list (mutexes s') (mtxlist s') c l).
Proof.
  intros c Hi Ho Hml Em Hom Hq Hlist. destruct (current_vths s Hi) as (thc & Ec & Hsc).
  assert (waits (vths s) tp mp) as Hw by (apply (ok_waits _ _ _ _ _ _ Ho mp m); [done|rewrite Hq; by left]).
  assert (tp ≠ c) as Htc by (intros E; rewrite E in Hw; destruct Hw as (? & ? & ? & _); unfold c in *; simplify_eq; congruence).
  pose proof Hw as (thtp & Etp & _). destruct (ok_lists _ _ _ _ _ _ Ho tp ltac:(by eexists)) as (ltl & ltp & Hltp & _).
  unfold hand_over. apply wp_bind. eapply wp_get_mtxlist; [rewrite Hml; by rewrite lookup_insert_ne|].
  apply wp_bind, wp_modify, wp_bind, wp_modify, wp_in_kernel. cbn [kern].
  eapply wp_mono; [apply ready_spec; [done|by eapply waits_blocked]|]. intros _ k' (Hi' & Ha & Hk & Hcur).
  set (s' := with_kern k' _). assert (vths s' = <[tp := with_state CH_STATE_READY thtp]> (vths s)) as Hv.
  { unfold vths at 1. cbn [kern s' with_kern]. rewrite Ha. unfold a_ready. cbn [a_threads a_set]. by apply alter_known. }
  split_and!; [done|exists thtp, ltp; by split_and!|..].
  - rewrite Hv. cbn [mutexes realprio mtxlist s' with_kern]. rewrite Hml. by eapply ok_hand.
  - cbn [mutexes mtxlist s' with_kern]. rewrite Hml.
    destruct (list_pop (mutexes s) ml mp m (mk_mutex q tp ltp) c l) as (p & Hp & ?); [done|done|done|]. exists p. by rewrite lookup_insert_ne.
Qed.

(** What unlocking leaves: nobody waited, or the first waiter is the owner. *)
Definition unlocked (mp : Z) (m : mutex_t) (s s' : mkernel) : Prop :=
  match queue m with
  | [] => kern s' = kern s ∧ mutexes s' = <[mp := mk_mutex [] 0 (mnext m)]> (mutexes s)
  | tp :: q => ∃ thc thtp p ltp,
      vths s !! currthread (kern s) = Some thc ∧ vths s !! tp = Some thtp ∧ tp ≠ currthread (kern s) ∧
      vths s' = <[tp := with_state CH_STATE_READY thtp]> (<[currthread (kern s) := with_prio p thc]> (vths s)) ∧
      mutexes s' = <[mp := mk_mutex q tp ltp]> (mutexes s)
  end ∧ realprio s' = realprio s ∧ objects_kept (kern s) (kern s').

Lemma unlock_free_runs mp m l s :
  let c := currthread (kern s) in
  mtx_inv nothing nothing s → mutexes s !! mp = Some m → owner m = c → queue m = [] → owned_list (mutexes s) (mtxlist s) c (mp :: l) →
  wp (mtx_unlock mp) s (λ b s', b = false ∧ unlocked mp m s s' ∧ mtx_inv nothing nothing s' ∧ owned_list (mutexes s') (mtxlist s') c l).
Proof.
  intros c (Hi & Hs & Ho) Em Hom Hq Hlist. unfold mtx_unlock. apply wp_bind, wp_gets, wp_bind. eapply wp_get_mutex; [done|].
  apply wp_bind, wp_modify. rewrite Hq. apply wp_bind, wp_modify, wp_ret. split_and!; [done|unfold unlocked; rewrite Hq; by split_and!|..].
  - split_and!; [done|done|]. simpl. by eapply ok_release.
  - destruct (current_vths s Hi) as (thc & Ec & _). simpl. apply list_pop; [done|done|]. simpl. apply not_eq_sym. eapply ok_thread; [exact Ho|by eexists].
Qed.

Lemma owned_length ms c l : (∀ mp, mp ∈ l ↔ owns ms c mp) → NoDup l → (length l <= size ms)%nat.
Proof.
  intros Hl Hn. rewrite <-(size_dom (D := gset Z) ms). rewrite <-(size_list_to_set (C := gset Z) l) by done.
  apply subseteq_size. intros x Hx. rewrite elem_of_list_to_set, Hl in Hx. destruct Hx as (m & E & _). by apply elem_of_dom_2 in E.
Qed.
Lemma mtx_queues s SR SI :
  mtx_ok (vths s) (mutexes s) (realprio s) (mtxlist s) SR SI →
  ∀ mp m, mutexes s !! mp = Some m → by_prio (prio_of (kern s)) (queue m) ∧ ∀ t, t ∈ queue m → is_Some (threads (kern s) !! t).
Proof.
  intros H mp m Em. split.
  - eapply by_prio_ext; [|by apply (ok_sorted _ _ _ _ _ _ H mp)]. intros t. apply tprio_vths.
  - intros t Ht. apply (ok_waits _ _ _ _ _ _ H mp m t Em) in Ht as (th & E & _). apply vths_some. by eexists.
Qed.
(** The running thread's priority changes. *)
Definition current_prio (p : Z) (thc : thread_t) (k : kernel) : kernel := k_upd k (currthread k) (with_prio p thc) (rlist k) (currthread k).
Lemma current_prio_inv p thc k : sched_inv k → threads k !! currthread k = Some thc → 0 < p → sched_inv (current_prio p thc k).
Proof.
  intros Hi Ec Hp. apply reprio_inv; [done|done|done|done|]. apply (by_prio_ext_in (prio_of k)); [|apply Hi].
  intros x Hx. rewrite reprio_of, decide_False; [done|]. intros ->. by apply (current_not_ready k Hi).
Qed.

Lemma unlock_waited_runs mp m tp q l s :
  let c := currthread (kern s) in
  mtx_inv nothing nothing s → mutexes s !! mp = Some m → owner m = c → queue m = tp :: q → owned_list (mutexes s) (mtxlist s) c (mp :: l) →
  wp (mtx_unlock mp) s (λ b s', b = true ∧ unlocked mp m s s' ∧ sched_inv (kern s') ∧
    mtx_ok (vths s') (mutexes s') (realprio s') (mtxlist s') nothing nothing ∧ owned_list (mutexes s') (mtxlist s') c l).
Proof.
  intros c (Hi & Hs & Ho) Em Hom Hq Hlist. pose proof Hlist as (p0 & Hp0 & (-> & m' & Em' & Hch) & Hnd & Hl).
  rewrite Em in Em'. injection Em' as <-.
  apply NoDup_cons in Hnd as [Hnin Hnd]. destruct (inv_current _ Hi) as (thc & Ec & Esc).
  pose proof (vths_lookup _ _ _ Ec) as Ecv. destruct (ok_real _ _ _ _ _ _ Ho c _ Ecv) as (r & Hr & Hrp & _).
  assert (∀ x, ¬ waits (vths s) c x) as Hcw by (intros x (? & ? & ? & _)%vths_waits; unfold c in *; simplify_eq; congruence).
  unfold mtx_unlock. apply wp_bind, wp_gets, wp_bind. eapply wp_get_mutex; [done|]. apply wp_bind, wp_modify. rewrite Hq.
  fold c. apply wp_bind. eapply wp_get_realprio; [done|]. apply wp_bind. apply (wp_get_mtxlist _ (mnext m)); [simpl; by rewrite lookup_insert_eq|].
  apply wp_bind, wp_get. set (s1 := mk_mk _ _ _ _). apply wp_bind.
  eapply wp_mono; [apply (owned_prio_runs s1 l); [done| |apply Ho|exact (mtx_queues s _ _ Ho)]|].
  { assert (∀ x, x ∈ mp :: l ↔ owns (mutexes s1) c x) as Hl1 by apply Hl. pose proof (owned_length (mutexes s1) c (mp :: l) Hl1) as Hlen.
    rewrite NoDup_cons in Hlen. specialize (Hlen (conj Hnin Hnd)). simpl in Hlen |- *. lia. }
  intros np s1' (-> & Hnp & Hwhy & Hall). change (kern s1) with (kern s) in *. change (mutexes s1) with (mutexes s) in *.
  apply wp_bind, wp_in_kernel. eapply wp_ok; [by apply on_thread_upd|]. change (kern s1) with (kern s).
  change (k_upd _ _ _ _ _) with (current_prio np thc (kern s)). set (s2 := with_kern _ s1).
  assert (sched_inv (kern s2)) as Hi2 by (apply current_prio_inv; [done|done|lia]).
  assert (vths s2 = <[c := with_prio np (vthread thc)]> (vths s)) as Hv2 by apply reprio_threads.
  apply wp_bind. eapply wp_mono; [apply (hand_over_runs mp m tp q l (mtxlist s) s2); try done|].
  { rewrite Hv2. eapply (ok_loosen _ _ _ _ c (vthread thc) np r); [eapply ok_weaken; [exact Ho|by intros ? ? []..]|done| |done|lia].
    simpl. unfold vstate. by rewrite Esc. }
  intros _ s3 (Hi3 & (thtp & ltp & Etp & Hv3 & Hm3 & Hr3 & Hk3 & Hc3) & Ho3 & Hl3). change (currthread (kern s2)) with c in *.
  assert (tp ∈ queue m) as Htpq by (rewrite Hq; by left). pose proof (proj1 (ok_waits _ _ _ _ _ _ Ho mp m tp Em) Htpq) as Htw.
  assert (tp ≠ c) as Htc by (intros ->; by destruct (Hcw mp)).
  assert (vths s3 !! c = Some (with_prio np (vthread thc))) as Ec3 by (rewrite Hv3, lookup_insert_ne, Hv2 by done; apply lookup_insert_eq).
  assert (∀ t, t ≠ c → tprio (vths s3) t = prio_of (kern s) t) as Hp3.
  { intros t Ht. rewrite Hv3, Hv2, <-tprio_vths. unfold tprio. rewrite Hv2, lookup_insert_ne in Etp by done.
    destruct (decide (t = tp)) as [->|]; [by rewrite lookup_insert_eq, Etp|by rewrite !lookup_insert_ne]. }
  assert (∀ t x, waits (vths s3) t x ↔ t ≠ tp ∧ waits (vths s) t x) as Hw3.
  { intros t x. rewrite Hv3, Hv2, !waits_insert. cbn [state with_state with_prio u].
    change (state (vthread thc)) with (vstate (state thc)). rewrite Esc. split.
    - intros [(_ & [=] & _)|[? [(_ & [=] & _)|[? ?]]]]; done.
    - intros [? ?]. right. split; [done|right]. split; [|done]. intros ->. by destruct (Hcw x). }
  apply wp_ret. split; [done|]. split; [|split; [done|split; [|done]]].
  - unfold unlocked. rewrite Hq. split; [|split; [exact Hr3|by eapply objects_kept_trans]].
    exists (vthread thc), thtp, np, ltp. rewrite Hv2, lookup_insert_ne in Etp by done. rewrite Hv3, Hv2, Hm3. by split_and!.
  - eapply (ok_settle _ _ _ _ c (with_prio np (vthread thc)) r); [done|done|by rewrite Hr3|simpl; lia|..].
    + destruct Hwhy as [->|(x & mx & t & Hx & Emx & Ht & Hpt)]; [by left|right]. exists t, x.
      apply (ok_waits _ _ _ _ _ _ Ho x mx t Emx) in Ht as Hwt.
      rewrite Hw3, Hp3 by (intros ->; by destruct (Hcw x)). split_and!; [|done| |done].
      * intros ->. destruct Hwt as (? & ? & _ & <-), Htw as (? & ? & _ & <-). by simplify_eq.
      * destruct Hl3 as (? & _ & _ & _ & Hl3). by apply Hl3.
    + intros w x Hw Hox. apply Hw3 in Hw as [_ Hw]. rewrite Hp3 by (intros ->; by destruct (Hcw x)).
      destruct Hl3 as (? & _ & _ & _ & Hl3). apply Hl3 in Hox.
      destruct (ok_waited _ _ _ _ _ _ Ho _ _ Hw) as [mx Emx]. apply (Hall x mx w); [done|done|]. by apply (ok_waits _ _ _ _ _ _ Ho x mx).
Qed.

(** The invariant and its maps do not see a change of the running thread. *)
Lemma mtx_inv_abs s k SR SI :
  sched_inv k → settled k → abs k = abs (kern s) → mtx_ok (vths s) (mutexes s) (realprio s) (mtxlist s) SR SI →
  mtx_inv SR SI (with_kern k s).
Proof. intros Hi Hs Ha Ho. split_and!; [done|done|]. unfold vths in *. cbn [kern with_kern mutexes realprio mtxlist]. by rewrite Ha. Qed.

Lemma unlock_runs mp m l s :
  let c := currthread (kern s) in
  mtx_inv nothing nothing s → mutexes s !! mp = Some m → owner m = c → owned_list (mutexes s) (mtxlist s) c (mp :: l) →
  wp (chMtxUnlock mp) s (λ _ s', unlocked mp m s s' ∧ mtx_inv nothing nothing s' ∧ owned_list (mutexes s') (mtxlist s') c l).
Proof.
  intros c Hinv Em Ho Hl. unfold chMtxUnlock. apply wp_bind. destruct (queue m) as [|tp q] eqn:Eq.
  - eapply wp_mono; [by eapply unlock_free_runs|]. intros b s1 (-> & Hu & ? & ?). by apply wp_ret.
  - eapply wp_mono; [by eapply unlock_waited_runs|]. intros b s1 (-> & Hu & Hi1 & Ho1 & Hl1). cbv iota.
    apply wp_in_kernel. eapply wp_mono; [by apply reschedule_spec|]. intros _ k (Hik & Hsk & Hak & Hok).
    split_and!; [|by apply mtx_inv_abs|done]. unfold unlocked in *. rewrite Eq in *.
    destruct Hu as (Hu & ? & ?). split_and!; [|done|by eapply objects_kept_trans].
    assert (vths (with_kern k s1) = vths s1) as -> by (unfold vths; cbn [kern with_kern]; by rewrite Hak). done.
Qed.

Lemma take_runs mp m l s :
  let c := currthread (kern s) in
  mtx_inv nothing nothing s → mutexes s !! mp = Some m → owner m = 0 → owned_list (mutexes s) (mtxlist s) c l →
  wp (mtx_take mp m) s (λ _ s', mtx_inv nothing nothing s' ∧ kern s' = kern s ∧ realprio s' = realprio s ∧
    (∃ p, mutexes s' = <[mp := mk_mutex (queue m) c p]> (mutexes s)) ∧ owned_list (mutexes s') (mtxlist s') c (mp :: l)).
Proof.
  intros c (Hi & Hs & Ho) Em Ho0 Hl. destruct (current_vths s Hi) as (thc & Ec & _). pose proof Hl as (p & Hp & _).
  assert (c ≠ 0) as Hc0 by (eapply ok_thread; [exact Ho|by eexists]).
  unfold mtx_take. apply wp_bind, wp_gets, wp_bind. eapply wp_get_mtxlist; [done|]. apply wp_bind, wp_modify, wp_modify. cbn [kern mutexes realprio mtxlist].
  split_and!; [|done|done|by exists p|].
  - split_and!; [done|done|]. simpl. apply ok_take; [done|done|done|by eexists|done].
  - apply list_push; [done|done| |].
    + intros ->. destruct (ok_null _ _ _ _ _ _ Ho). congruence.
    + intros (m' & ? & ?). simplify_eq. congruence.
Qed.

(** Sleeping on a mutex that is owned. *)
Definition slept (mp : Z) (m : mutex_t) (s s' : mkernel) : Prop :=
  let c := currthread (kern s) in
  ∃ thc ths ms m1, vths s !! c = Some thc ∧ boosted (prio thc) (vths s) ths ∧ prio thc <= tprio ths (owner m) ∧ ths !! c = Some thc ∧
    requeued (mutexes s) ms ∧ ms !! mp = Some m1 ∧ owner m1 = owner m ∧
    vths s' = <[c := with_state CH_STATE_WTMTX (with_u mp thc)]> ths ∧
    mutexes s' = <[mp := with_queue (ch_pqueue_insert_behind (tprio ths) c (queue m1)) m1]> ms ∧
    realprio s' = realprio s ∧ mtxlist s' = mtxlist s ∧ objects_kept (kern s) (kern s').

Lemma sleep_on_runs mp m m1 thc s s1 :
  let c := currthread (kern s) in
  vths s !! c = Some thc → inherited (owner m) (prio thc) s s1 → mutexes s !! mp = Some m → mutexes s1 !! mp = Some m1 →
  owner m ≠ 0 → rlist (kern s) ≠ [] →
  wp (in_kernel (on_thread c (with_u mp));; in_kernel (chSchGoSleepS CH_STATE_WTMTX);; mret false)
    (mk_mk (kern s1) (<[mp := with_queue (ch_pqueue_insert_behind (prio_of (kern s1)) c (queue m1)) m1]> (mutexes s1)) (realprio s1) (mtxlist s1))
    (λ b s', b = false ∧ mtx_inv nothing nothing s' ∧ slept mp m s s').
Proof.
  intros c Ec [(Hi1 & Hs1 & Ho1) Hpo Hb Hrq [Hr Hml] (Hk & Hcur & Hrl)] Em Em1 Hne Hrn.
  assert (owner m1 = owner m) as Hom1.
  { pose proof (Hrq mp) as Hmp. rewrite Em, Em1 in Hmp. by inversion Hmp as [? ? (? & _)|]. }
  assert (vths s1 !! c = Some thc) as Ec1.
  { pose proof (Hb c) as Hbc. rewrite Ec in Hbc. inversion Hbc as [? th' [Hth Hpr] E1 E2|]; subst. rewrite Hth. f_equal.
    assert (prio th' = prio thc) as -> by lia. by destruct thc. }
  destruct (current_vths s1 Hi1) as (thc' & Ec1' & Hst). rewrite Hcur in Ec1'. fold c in Ec1'. simplify_eq.
  destruct (vths_inv _ _ _ Ec1) as (th0 & Eth0 & _).
  apply wp_bind, wp_in_kernel. cbn [kern].
  destruct (touch_spec (kern s1) c (with_u mp) Hi1 (benign_u mp) (ex_intro _ th0 Eth0)) as (k2 & E2 & Hi2 & Hs2 & Ha2 & Hk2 & Hc2 & _ & _ & Hrl2).
  eapply wp_ok; [exact E2|]. apply wp_bind, wp_in_kernel. cbn [kern with_kern].
  eapply wp_mono; [apply sleep_spec; [done|by apply Hs2|done|done|]|].
  { rewrite Hrl2. intros E. rewrite E in Hrl. by apply Permutation_nil in Hrl. }
  intros _ k3 (Hi3 & Hs3 & Ha3 & Hk3). apply wp_ret. split; [done|]. set (s3 := with_kern k3 _).
  assert (vths s3 = <[c := with_state CH_STATE_WTMTX (with_u mp thc)]> (vths s1)) as Hv3.
  { unfold vths at 1. cbn [kern s3 with_kern]. rewrite Ha3. unfold a_sleep.
    assert (a_run (abs k2) = c :: rlist k2) as ->. { simpl. rewrite settled_runq by auto. by rewrite Hc2, Hcur. }
    cbn [a_threads]. rewrite Ha2. unfold a_set. cbn [a_threads]. change (a_threads (abs (kern s1))) with (vths s1). rewrite (alter_known (vths s1) c thc) by done.
    rewrite (alter_known _ c (with_u mp thc)) by apply lookup_insert_eq. apply insert_insert_eq. }
  assert (mutexes s3 = <[mp := with_queue (ch_pqueue_insert_behind (tprio (vths s1)) c (queue m1)) m1]> (mutexes s1)) as Hm3.
  { cbn [mutexes s3 with_kern]. f_equal. f_equal. apply insert_behind_ext. intros x. by rewrite tprio_vths. }
  split.
  - split_and!; [done|done|]. rewrite Hv3, Hm3. cbn [realprio mtxlist s3 with_kern].
    apply ok_block; [by rewrite Hom1|done|by rewrite Hst|done|by rewrite Hom1|by rewrite Hom1, tprio_vths].
  - exists thc, (vths s1), (mutexes s1), m1. rewrite tprio_vths. split_and!; try done.
    eapply objects_kept_trans; [exact Hk|]. by eapply objects_kept_trans.
Qed.

Lemma lock_held_runs mp m s :
  mtx_inv nothing nothing s → mutexes s !! mp = Some m → owner m ≠ 0 → rlist (kern s) ≠ [] →
  wp (chMtxLockS mp) s (λ b s', b = false ∧ mtx_inv nothing nothing s' ∧ slept mp m s s').
Proof.
  intros (Hi & Hs & Ho) Em Hne Hrn. destruct (current_vths s Hi) as (thc & Ec & Hst). set (c := currthread (kern s)) in *.
  assert (prio thc = prio_of (kern s) c) as Hp by (rewrite <-tprio_vths; unfold tprio; by rewrite Ec).
  unfold chMtxLockS. apply wp_bind, wp_gets, wp_bind. eapply wp_get_mutex; [done|]. rewrite decide_True by done.
  apply wp_bind, wp_get, wp_bind. eapply wp_mono; [apply (inherit_runs (owner m) (prio thc))|].
  - split_and!; [done|done|]. eapply ok_weaken; [exact Ho|by intros ? ? []..].
  - done.
  - apply vths_some. by apply (ok_owner _ _ _ _ _ _ Ho mp).
  - by left.
  - by left.
  - pose proof (low_size (prio thc) (threads (kern s))). lia.
  - intros ? s1 Hin. destruct (mutexes s1 !! mp) as [m1|] eqn:Em1; cycle 1.
    { pose proof (inh_mutexes _ _ _ _ Hin mp) as Hmp. rewrite Em, Em1 in Hmp. inversion Hmp. }
    apply wp_bind. eapply wp_get_mutex; [done|]. apply wp_bind, wp_get, wp_bind, wp_modify. by eapply sleep_on_runs.
Qed.

Lemma lock_free_runs mp m l s :
  let c := currthread (kern s) in
  mtx_inv nothing nothing s → mutexes s !! mp = Some m → owner m = 0 → owned_list (mutexes s) (mtxlist s) c l →
  wp (chMtxLockS mp) s (λ b s', b = true ∧ mtx_inv nothing nothing s' ∧ kern s' = kern s ∧ realprio s' = realprio s ∧
    (∃ p, mutexes s' = <[mp := mk_mutex (queue m) c p]> (mutexes s)) ∧ owned_list (mutexes s') (mtxlist s') c (mp :: l)).
Proof.
  intros c Hinv Em Ho Hl. unfold chMtxLockS. apply wp_bind, wp_gets, wp_bind. eapply wp_get_mutex; [done|].
  rewrite decide_False by tauto. apply wp_bind. eapply wp_mono; [by eapply take_runs|]. intros ? s1 Hs1. by apply wp_ret.
Qed.
Lemma try_lock_runs mp m s :
  mutexes s !! mp = Some m → owner m ≠ 0 → chMtxTryLockS mp s = Ok false s.
Proof.
  intros Em Ho. unfold chMtxTryLockS, get_mutex, mget, mlift, mbind, M_bind. rewrite Em. cbn. by rewrite decide_True.
Qed.

(** Another part of the system runs: no mutex is touched, nobody starts or stops waiting for one. *)
Lemma env_runs (op : M kernel unit) s :
  mtx_inv nothing nothing s →
  wp op (kern s) (λ _ k, sched_inv k ∧ settled k ∧ undisturbed (a_threads (abs (kern s))) (a_threads (abs k))) →
  wp (in_kernel op) s (λ _ s', mtx_inv nothing nothing s' ∧ mutexes s' = mutexes s ∧ realprio s' = realprio s ∧ mtxlist s' = mtxlist s ∧
    ∀ t mp, waits (vths s') t mp ↔ waits (vths s) t mp).
Proof.
  intros (Hi & Hs & Ho) Hop. apply wp_in_kernel. eapply wp_mono; [exact Hop|]. intros _ k (Hik & Hsk & Hf). split_and!; try done.
  - split_and!; [done|done|]. by eapply ok_env.
  - intros t mp. unfold waits, vths. cbn [kern with_kern]. destruct (Hf t) as [th th' (_ & _ & Hu)|]; [|naive_solver].
    specialize (Hu mp). split; intros (? & [= <-] & ?); eexists; (split; [done|]); tauto.
Qed.

(** ** Unlocking everything *)

(** The mutex [m] after its owner gave it up. *)
Definition passed_on (m m' : mutex_t) : Prop :=
  match queue m with
  | [] => owner m' = 0 ∧ queue m' = []
  | tp :: q => owner m' = tp ∧ queue m' = q
  end.
(** The mutexes [l] were given up, the others were not touched. *)
Definition given_up (l : list Z) (ms ms' : gmap Z mutex_t) : Prop :=
  ∀ x, if decide (x ∈ l) then option_Forall2 passed_on (ms !! x) (ms' !! x) else ms' !! x = ms !! x.

(** One mutex of the loop. *)
Lemma unlock_one_runs mp m l s :
  let c := currthread (kern s) in
  sched_inv (kern s) → mtx_ok (vths s) (mutexes s) (realprio s) (mtxlist s) (at_thread c) (at_thread c) →
  mutexes s !! mp = Some m → owned_list (mutexes s) (mtxlist s) c (mp :: l) →
  wp (set_mtxlist c (mnext m)) s (λ _ s1,
    wp (match queue m with tp :: q => hand_over mp tp q | [] => set_mutex mp (mk_mutex [] 0 (mnext m)) end) s1 (λ _ s',
      sched_inv (kern s') ∧ mtx_ok (vths s') (mutexes s') (realprio s') (mtxlist s') (at_thread c) (at_thread c) ∧
      owned_list (mutexes s') (mtxlist s') c l ∧ (∃ m', passed_on m m' ∧ mutexes s' = <[mp := m']> (mutexes s)) ∧
      realprio s' = realprio s ∧ objects_kept (kern s) (kern s') ∧ currthread (kern s') = c)).
Proof.
  intros c Hi Ho Em Hlist. assert (owner m = c) as Hom.
  { destruct Hlist as (? & _ & _ & _ & Hl). destruct (proj1 (Hl mp) ltac:(by left)) as (m' & ? & <-). by simplify_eq. }
  apply wp_modify. unfold passed_on. destruct (queue m) as [|tp q] eqn:Eq.
  - apply wp_modify. cbn [kern mutexes realprio mtxlist]. split_and!; try done.
    + by eapply ok_release.
    + apply list_pop; [done|done|]. simpl. destruct (current_vths s Hi) as (thc & Ec & _). apply not_eq_sym. eapply ok_thread; [exact Ho|by eexists].
    + by exists (mk_mutex [] 0 (mnext m)).
  - set (s1 := mk_mk _ _ _ _). eapply wp_mono; [by apply (hand_over_runs mp m tp q l (mtxlist s) s1)|].
    intros _ s2 (Hi2 & (thtp & ltp & _ & _ & Hm2 & Hr2 & Hk2 & Hc2) & Ho2 & Hl2). split_and!; try done. by exists (mk_mutex q tp ltp).
Qed.

Lemma unlock_all_loop_runs c : ∀ fuel l mp s,
  currthread (kern s) = c → sched_inv (kern s) → mtx_ok (vths s) (mutexes s) (realprio s) (mtxlist s) (at_thread c) (at_thread c) →
  owned_list (mutexes s) (mtxlist s) c (mp :: l) → (length (mp :: l) <= fuel)%nat →
  wp (unlock_all_loop fuel c) s (λ _ s', sched_inv (kern s') ∧
    mtx_ok (vths s') (mutexes s') (realprio s') (mtxlist s') (at_thread c) (at_thread c) ∧ owned_list (mutexes s') (mtxlist s') c [] ∧
    given_up (mp :: l) (mutexes s) (mutexes s') ∧ realprio s' = realprio s ∧ objects_kept (kern s) (kern s') ∧ currthread (kern s') = c).
Proof.
  induction fuel as [|fuel IH]; intros l mp s Hc Hi Ho Hlist Hf; [simpl in Hf; lia|]. cbn [unlock_all_loop].
  pose proof Hlist as (p & Hp & (-> & m & Em & _) & Hnd & _). apply NoDup_cons in Hnd as [Hnin _].
  pose proof (unlock_one_runs mp m l s) as Hone. rewrite Hc in Hone. specialize (Hone Hi Ho Em Hlist).
  apply wp_bind. eapply wp_get_mtxlist; [done|]. apply wp_bind. eapply wp_get_mutex; [done|].
  apply wp_bind. eapply wp_mono; [exact Hone|]. intros ? s1 Hs1. apply wp_bind. eapply wp_mono; [exact Hs1|]. clear Hone s1 Hs1.
  intros ? s1 (Hi1 & Ho1 & Hl1 & (m' & Hpass & Hm1) & Hr1 & Hk1 & Hc1). pose proof Hl1 as (p1 & Hp1 & Hch1 & _).
  assert (given_up [mp] (mutexes s) (mutexes s1)) as Hg1.
  { intros x. rewrite Hm1. case_decide as Hx; rewrite list_elem_of_singleton in Hx; [subst x; rewrite lookup_insert_eq, Em; by constructor|].
    by rewrite lookup_insert_ne. }
  apply wp_bind. eapply wp_get_mtxlist; [done|]. destruct l as [|mp2 l].
  - simpl in Hch1. subst p1. rewrite decide_False by tauto. by apply wp_ret.
  - destruct Hch1 as (-> & m2 & Em2 & _). rewrite decide_True by (intros ->; destruct (ok_null _ _ _ _ _ _ Ho1); congruence).
    eapply wp_mono; [apply (IH l mp2 s1); [done|done|done|done|simpl in Hf |- *; lia]|].
    intros ? s2 (? & ? & ? & Hg2 & ? & ? & ?). split_and!; try done; [|congruence|by eapply objects_kept_trans].
    intros x. specialize (Hg1 x). specialize (Hg2 x).
    destruct (decide (x = mp)) as [->|Hx].
    + rewrite decide_True by (by left). rewrite decide_False in Hg2 by done. rewrite Hg2. by rewrite decide_True in Hg1 by (by left).
    + rewrite decide_False in Hg1 by (by rewrite list_elem_of_singleton). rewrite Hg1 in Hg2. destruct (decide (x ∈ mp2 :: l)) as [Hin|Hin]; [by rewrite decide_True by (by right)|].
      by rewrite decide_False by (by intros [?|?]%elem_of_cons).
Qed.

Lemma unlock_all_runs l s :
  let c := currthread (kern s) in
  mtx_inv nothing nothing s → owned_list (mutexes s) (mtxlist s) c l →
  wp chMtxUnlockAll s (λ _ s', mtx_inv nothing nothing s' ∧ given_up l (mutexes s) (mutexes s') ∧ owned_list (mutexes s') (mtxlist s') c [] ∧
    realprio s' = realprio s ∧ realprio s !! c = Some (tprio (vths s') c)).
Proof.
  intros c (Hi & Hs & Ho) Hlist. pose proof Hlist as (p & Hp & Hch & Hnd & Hl).
  destruct (inv_current _ Hi) as (thc & Ec & Esc). pose proof (vths_lookup _ _ _ Ec) as Ecv.
  destruct (ok_real _ _ _ _ _ _ Ho c _ Ecv) as (r & Hr & Hrp & Hwhy).
  unfold chMtxUnlockAll, chMtxUnlockAllS. apply wp_bind, wp_gets, wp_bind. eapply wp_get_mtxlist; [done|].
  destruct l as [|mp l].
  { simpl in Hch. subst p. rewrite decide_False by tauto. apply wp_ret. split_and!; try done.
    rewrite Hr. f_equal. unfold tprio, c. rewrite Ecv. destruct Hwhy as [?|[(w & x & _ & Hox & _)|[]]]; [done|].
    apply Hl in Hox. by apply elem_of_nil in Hox. }
  destruct Hch as (-> & m & Em & _). rewrite decide_True by (intros ->; destruct (ok_null _ _ _ _ _ _ Ho); congruence).
  apply wp_bind, wp_get, wp_bind. eapply wp_mono; [apply (unlock_all_loop_runs c (size (mutexes s)) l mp s); try done|].
  { eapply ok_weaken; [exact Ho|by intros ? ? []..]. }
  { by eapply owned_length. }
  intros ? s1 (Hi1 & Ho1 & Hl1 & Hg1 & Hr1 & Hk1 & Hc1). apply wp_bind. eapply wp_get_realprio; [by rewrite Hr1|].
  destruct (inv_current _ Hi1) as (th1 & E1 & Es1). rewrite Hc1 in E1. pose proof (vths_lookup _ _ _ E1) as E1v.
  apply wp_bind, wp_in_kernel. eapply wp_ok; [by apply on_thread_upd|].
  replace (k_upd (kern s1) c _ _ _) with (current_prio r th1 (kern s1)) by (unfold current_prio; by rewrite Hc1).
  set (s2 := with_kern _ s1).
  assert (sched_inv (kern s2)) as Hi2 by (apply current_prio_inv; [done|by rewrite Hc1|lia]).
  assert (vths s2 = <[c := with_prio r (vthread th1)]> (vths s1)) as Hv2 by (unfold vths at 1; simpl; by rewrite fmap_insert, Hc1).
  assert (mtx_ok (vths s2) (mutexes s2) (realprio s2) (mtxlist s2) nothing nothing) as Ho2.
  { rewrite Hv2. assert (mtx_ok (<[c := with_prio r (vthread th1)]> (vths s1)) (mutexes s1) (realprio s1) (mtxlist s1) (at_thread c) (at_thread c)) as Hat.
    { eapply ok_loosen; [done|done| |by rewrite Hr1|lia]. simpl. unfold vstate. by rewrite Es1. }
    eapply ok_settle; [exact Hat|apply lookup_insert_eq|unfold s2; simpl; by rewrite Hr1|simpl; lia|by left|].
    intros w x _ Hox. destruct Hl1 as (? & _ & _ & _ & Hl1). apply Hl1 in Hox. by apply elem_of_nil in Hox. }
  apply wp_in_kernel. eapply wp_mono; [by apply (reschedule_spec (kern s2))|]. intros ? k3 (Hi3 & Hs3 & Ha3 & Hk3).
  assert (vths (with_kern k3 s2) = vths s2) as Hv3 by (unfold vths; cbn [kern with_kern]; by rewrite Ha3).
  split_and!; [by apply mtx_inv_abs|done|done|done|]. rewrite Hv3, Hv2, Hr. f_equal. rewrite tprio_insert. by rewrite decide_True.
Qed.
