(* ===== verification/ChMutexProps.v ===== *)
(** * Theorems on the mutexes

    Whatever the threads lock and unlock and the scheduler does in between, a thread that waits
    for a mutex holds up no more than the mutex's owners: they run with its priority.  A mutex
    that is given up goes to its first waiter. *)
From stdpp Require Import relations.
From S2P Require Import Prelude ChKernel ChSched ChEvents ChProps ChMutex ChMutexFacts ChMutexOps.

(** ** The system *)

(** What the running thread does with mutexes, and everything else that the scheduler does. *)
Inductive mtx_op : Type :=
  | MLock (mp : Z) | MTryLock (mp : Z) | MUnlock (mp : Z) | MUnlockAll
  | MSched (op : sched_op).
Definition run_mtx (op : mtx_op) : M mkernel unit :=
  match op with
  | MLock mp => chMtxLock mp;; mret tt
  | MTryLock mp => chMtxTryLock mp;; mret tt
  | MUnlock mp => chMtxUnlock mp
  | MUnlockAll => chMtxUnlockAll
  | MSched op => in_kernel (run_sched op)
  end.

(** Only mutexes put threads to sleep on mutexes and wake them. *)
Definition apart (op : sched_op) (ths : gmap Z thread_t) : Prop :=
  match op with
  | OSleep st => st ≠ CH_STATE_WTMTX ∧ st ≠ CH_STATE_WTCOND
  | OWake t _ => ∀ mp, ¬ waits ths t mp
  | OIrq ts => Forall (λ t, ∀ mp, ¬ waits ths t mp) ts
  end.
(** A thread may lock when another one is ready, which the idle thread always is; it unlocks
    the mutex that it locked last. *)
Definition mtx_legal (op : mtx_op) (s : mkernel) : Prop :=
  match op with
  | MLock mp => is_Some (mutexes s !! mp) ∧ rlist (kern s) ≠ []
  | MTryLock mp => is_Some (mutexes s !! mp)
  | MUnlock mp => mp ≠ 0 ∧ mtxlist s !! currthread (kern s) = Some mp
  | MUnlockAll => True
  | MSched op => a_legal op (abs (kern s)) ∧ apart op (vths s)
  end.
Inductive mtx_reachable (s0 : mkernel) : mkernel → Prop :=
  | reach_start : mtx_reachable s0 s0
  | reach_step op s s' : mtx_reachable s0 s → mtx_legal op s → run_mtx op s = Ok tt s' → mtx_reachable s0 s'.

(** ** The invariant *)

Lemma undisturbed_refl ths : (∀ t th, ths !! t = Some th → state th ≠ CH_STATE_WTCOND) → undisturbed ths ths.
Proof. intros H t. destruct (ths !! t) as [th|] eqn:E; constructor. by split_and!; [|eapply H|]. Qed.
Lemma undisturbed_alter ths ths' t f :
  undisturbed ths ths' → (∀ th, prio (f th) = prio th ∧ state (f th) ≠ CH_STATE_WTMTX ∧ (state th ≠ CH_STATE_WTCOND → state (f th) ≠ CH_STATE_WTCOND)) →
  (∀ mp, ¬ waits ths t mp) → undisturbed ths (alter f t ths').
Proof.
  intros H Hf Hw x. destruct (decide (x = t)) as [->|Hx]; [|by rewrite lookup_alter_ne by done].
  rewrite lookup_alter_eq. specialize (H t). destruct (ths !! t) as [th|] eqn:E; inversion H as [? th' (Hp & Hc & Hu) E1 E2|]; subst; simpl; constructor.
  destruct (Hf th') as (-> & Hm & Hc'). split_and!; [done|by apply Hc'|]. intros mp. split; [by intros [? _]|].
  intros [? ?]. destruct (Hw mp). by exists th.
Qed.
Lemma sched_undisturbed op k :
  sched_inv k → a_legal op (abs k) → apart op (a_threads (abs k)) →
  (∀ t th, a_threads (abs k) !! t = Some th → state th ≠ CH_STATE_WTCOND) →
  undisturbed (a_threads (abs k)) (a_threads (a_sched op (abs k))).
Proof.
  intros Hi Hl Ha Hc. pose proof (undisturbed_refl _ Hc) as Hr. destruct op as [st|t msg|ts]; cbn [a_sched a_legal apart] in *.
  - destruct Ha as [Hst Hst']. unfold a_sleep. destruct (a_run (abs k)) as [|t q] eqn:E; [done|]. cbn [a_threads].
    apply undisturbed_alter; [done|done|]. intros mp (th & Et & Hs & _).
    assert (t ∈ runq k) as Ht by (change (runq k) with (a_run (abs k)); rewrite E; by left).
    apply runq_spec in Ht as (th' & Et' & Hs'); [|done]. congruence.
  - unfold a_ready, a_set. cbn [a_threads]. apply undisturbed_alter; [|done|done].
    intros x. destruct (decide (x = t)) as [->|]; [|by rewrite lookup_alter_ne]. rewrite lookup_alter_eq. specialize (Hr t).
    destruct (a_threads (abs k) !! t) as [th|] eqn:E; simpl; constructor. cbn [prio state with_u u].
    split_and!; [done|by eapply Hc|]. intros mp. split; intros [? ?]; by destruct (Ha (u th)); exists th.
  - assert (∀ a, undisturbed (a_threads (abs k)) (a_threads a) → undisturbed (a_threads (abs k)) (a_threads (foldl (λ a t, a_ready t a) a ts))) as Hall; [|by apply Hall].
    clear Hl. induction ts as [|t ts IH]; intros a Hu; [done|]. apply Forall_cons in Ha as [Ht Ha]. cbn [foldl]. apply IH; [done|].
    unfold a_ready, a_set. cbn [a_threads]. by apply undisturbed_alter.
Qed.

Lemma current_list s : mtx_inv nothing nothing s → ∃ l, owned_list (mutexes s) (mtxlist s) (currthread (kern s)) l.
Proof.
  intros (Hi & _ & Ho). apply (ok_lists _ _ _ _ _ _ Ho). destruct (current_vths s Hi) as (th & E & _). by exists th.
Qed.
(** The mutex that the running thread locked last. *)
Lemma unlock_legal mp s :
  mtx_inv nothing nothing s → mtx_legal (MUnlock mp) s →
  ∃ m l, mutexes s !! mp = Some m ∧ owner m = currthread (kern s) ∧ owned_list (mutexes s) (mtxlist s) (currthread (kern s)) (mp :: l).
Proof.
  intros Hinv [Hmp Hp]. destruct (current_list s Hinv) as ([|mp' l] & Hlist); pose proof Hlist as (p & Hp' & Hch & _ & Hl).
  - simpl in Hch. congruence.
  - destruct Hch as (-> & _). assert (mp' = mp) as -> by congruence.
    destruct (proj1 (Hl mp) ltac:(by left)) as (m & Em & Ho). by exists m, l.
Qed.

Lemma sched_runs op s :
  mtx_inv nothing nothing s → mtx_legal (MSched op) s →
  wp (in_kernel (run_sched op)) s (λ _ s', mtx_inv nothing nothing s' ∧ mutexes s' = mutexes s ∧ realprio s' = realprio s ∧
    mtxlist s' = mtxlist s ∧ ∀ t mp, waits (vths s') t mp ↔ waits (vths s) t mp).
Proof.
  intros Hinv [Hl Ha]. pose proof Hinv as (Hi & Hs & Ho). apply env_runs; [done|].
  eapply wp_mono; [by apply sched_spec|]. intros ? k (Hik & Hsk & -> & _). split_and!; [done|done|].
  apply sched_undisturbed; try done. apply (ok_cond _ _ _ _ _ _ Ho).
Qed.
Lemma step_keeps op s :
  mtx_inv nothing nothing s → mtx_legal op s → wp (run_mtx op) s (λ _ s', mtx_inv nothing nothing s').
Proof.
  intros Hinv Hl. destruct op as [mp|mp|mp| |op]; cbn [run_mtx].
  - destruct Hl as [[m Em] Hr]. apply wp_bind. destruct (decide (owner m = 0)) as [Ho|Ho].
    + destruct (current_list s Hinv) as [l Hlist]. eapply wp_mono; [by eapply lock_free_runs|]. intros ? s1 (-> & ? & _). by apply wp_ret.
    + eapply wp_mono; [by eapply lock_held_runs|]. intros ? s1 (-> & ? & _). by apply wp_ret.
  - destruct Hl as [m Em]. apply wp_bind. destruct (decide (owner m = 0)) as [Ho|Ho].
    + destruct (current_list s Hinv) as [l Hlist]. unfold chMtxTryLock, chMtxTryLockS. apply wp_bind. eapply wp_get_mutex; [done|].
      rewrite decide_False by tauto. apply wp_bind. eapply wp_mono; [by eapply take_runs|]. intros ? s1 (? & _). by apply wp_ret, wp_ret.
    + eapply wp_ok; [by eapply try_lock_runs|]. by apply wp_ret.
  - destruct (unlock_legal mp s Hinv Hl) as (m & l & Em & Ho & Hlist). eapply wp_mono; [by eapply unlock_runs|]. by intros ? s1 (_ & ? & _).
  - destruct (current_list s Hinv) as [l Hlist]. eapply wp_mono; [by eapply unlock_all_runs|]. by intros ? s1 (? & _).
  - eapply wp_mono; [by apply sched_runs|]. by intros ? s1 (? & _).
Qed.
Lemma mtx_reachable_inv s0 s : mtx_inv nothing nothing s0 → mtx_reachable s0 s → mtx_inv nothing nothing s.
Proof.
  intros H0. induction 1 as [|op s s' _ IH Hl Hr]; [done|]. pose proof (step_keeps op s IH Hl) as H. unfold wp in H. by rewrite Hr in H.
Qed.

(** ** Priority inheritance *)

(** [w] waits for a mutex of [t]. *)
Definition blocks (s : mkernel) (w t : Z) : Prop := ∃ mp, waits (threads (kern s)) w mp ∧ owns (mutexes s) t mp.

(** The owner of a mutex that somebody waits for. *)
Lemma waited_owner s w mp :
  mtx_inv nothing nothing s → waits (threads (kern s)) w mp →
  ∃ t, owns (mutexes s) t mp ∧ is_Some (threads (kern s) !! t).
Proof.
  intros (_ & _ & Ho) Hw%vths_waits. destruct (ok_waited _ _ _ _ _ _ Ho _ _ Hw) as [m Em].
  exists (owner m). split; [by exists m|]. apply vths_some. apply (ok_owner _ _ _ _ _ _ Ho mp); [done|].
  intros E. pose proof (proj2 (ok_waits _ _ _ _ _ _ Ho mp m w Em) Hw) as Hin. rewrite (ok_free _ _ _ _ _ _ Ho _ _ Em E) in Hin.
  by apply elem_of_nil in Hin.
Qed.
Lemma blocks_prio s w t : mtx_inv nothing nothing s → blocks s w t → prio_of (kern s) w <= prio_of (kern s) t.
Proof.
  intros (_ & _ & Ho) (mp & Hw%vths_waits & Hm). rewrite <-!tprio_vths. by destruct (ok_inherit _ _ _ _ _ _ Ho w mp t Hw Hm) as [?|[]].
Qed.
Lemma chain_prio s w t : mtx_inv nothing nothing s → tc (blocks s) w t → prio_of (kern s) w <= prio_of (kern s) t.
Proof. intros H. induction 1 as [x y Hxy|x y z Hxy _ IH]; pose proof (blocks_prio _ _ _ H Hxy); lia. Qed.
Lemma runnable_prio k t : sched_inv k → settled k → t ∈ runq k → prio_of k t <= prio_of k (currthread k).
Proof.
  intros Hi Hs Ht. pose proof (runq_sorted k Hi) as Hso. rewrite settled_runq in Hso, Ht by done.
  apply by_prio_cons in Hso as [_ Hso]. apply elem_of_cons in Ht as [->|Ht]; [lia|]. specialize (Hso t Ht). lia.
Qed.

(** C7.  Priority inheritance.  In every state that any sequence of locking, trying, unlocking and scheduling (sleeps,
    wakeups, interrupts) reaches: the next operation ends without a fault; a thread that waits for a mutex is in its queue,
    and the mutex has an owner; along a chain of waiting, priorities do not fall, so that when the chain
    ends in a thread that can run, what runs now is at least as urgent as every thread that waits in the chain (no
    thread of middle priority gets in between); and a thread that nobody waits for has its own priority. *)
Theorem priority_inheritance s0 s :
  mtx_inv nothing nothing s0 → mtx_reachable s0 s →
  (∀ op, mtx_legal op s → ∃ s', run_mtx op s = Ok tt s') ∧
  (∀ w mp, waits (threads (kern s)) w mp → ∃ t m, mutexes s !! mp = Some m ∧ owner m = t ∧ w ∈ queue m ∧ is_Some (threads (kern s) !! t)) ∧
  (∀ w t, tc (blocks s) w t → prio_of (kern s) w <= prio_of (kern s) t ∧
     (t ∈ runq (kern s) → prio_of (kern s) w <= prio_of (kern s) (currthread (kern s)))) ∧
  (∀ t, is_Some (threads (kern s) !! t) → (∀ w, ¬ blocks s w t) → realprio s !! t = Some (prio_of (kern s) t)).
Proof.
  intros H0 Hr. pose proof (mtx_reachable_inv s0 s H0 Hr) as Hinv. pose proof Hinv as (Hi & Hs & Ho). split_and!.
  - intros op Hl. pose proof (step_keeps op s Hinv Hl) as Hw. apply wp_inv in Hw as ([] & s' & E & _). by exists s'.
  - intros w mp Hw. destruct (waited_owner s w mp Hinv Hw) as (t & (m & Em & Hm) & Ht). exists t, m. split_and!; try done.
    apply (ok_waits _ _ _ _ _ _ Ho mp m w Em). by apply vths_waits.
  - intros w t Hc. pose proof (chain_prio s w t Hinv Hc). split; [done|]. intros Ht. pose proof (runnable_prio _ t Hi Hs Ht). lia.
  - intros t [th Et] Hn. destruct (ok_real _ _ _ _ _ _ Ho t _ (vths_lookup _ _ _ Et)) as (r & Hr' & _ & Hc).
    rewrite Hr'. f_equal. unfold prio_of. rewrite Et. destruct Hc as [?|[(w & mp & Hw & Hm & _)|[]]]; [done|].
    destruct (Hn w). exists mp. split; [by apply vths_waits|done].
Qed.

(** Free mutexes and threads that wait for none. *)
Lemma fresh_ok ths ms rp ml :
  ths !! 0 = None → ms !! 0 = None → (∀ t th, ths !! t = Some th → state th ≠ CH_STATE_WTMTX ∧ state th ≠ CH_STATE_WTCOND ∧ 0 < prio th ∧
    rp !! t = Some (prio th) ∧ ml !! t = Some 0) → (∀ mp m, ms !! mp = Some m → queue m = [] ∧ owner m = 0) →
  mtx_ok ths ms rp ml nothing nothing.
Proof.
  intros H1 H2 Ht Hm. assert (∀ t mp, ¬ waits ths t mp) as Hnw by (intros t mp (th & E & Hs & _); by destruct (Ht _ _ E)).
  split; try done.
  - intros t th E. by destruct (Ht _ _ E) as (_ & ? & _).
  - intros mp m E. destruct (Hm _ _ E) as [-> _]. constructor.
  - intros mp m E. destruct (Hm _ _ E) as [-> _]. constructor.
  - intros mp m t E. destruct (Hm _ _ E) as [-> _]. split; [intros []%elem_of_nil|intros Hw; by destruct (Hnw t mp)].
  - intros t mp Hw. by destruct (Hnw t mp).
  - intros mp m E _. by destruct (Hm _ _ E).
  - intros mp m E Ho. by destruct (Hm _ _ E).
  - intros t [th E]. destruct (Ht _ _ E) as (_ & _ & _ & _ & Hl). exists [], 0. split_and!; [done|done|constructor|].
    intros mp. split; [intros []%elem_of_nil|]. intros (m & Em & Hm'). destruct (Hm _ _ Em) as [_ Ho]. congruence.
  - intros t th E. destruct (Ht _ _ E) as (_ & _ & Hp & Hr & _). exists (prio th). split; [done|split; [lia|by left]].
  - intros w mp t Hw. by destruct (Hnw w mp).
Qed.

(** Thread 1 runs with a low priority, 2 of middle and 3 of high priority sleep, 4 is idle; 50 is a mutex. *)
Definition mtx_bench : mkernel :=
  mk_mk (mk_kernel ∅ ∅
      (<[1 := mk_thread 10 CH_STATE_CURRENT 0 0]> (<[2 := mk_thread 20 CH_STATE_SLEEPING 0 0]>
        (<[3 := mk_thread 30 CH_STATE_SLEEPING 0 0]> {[ 4 := mk_thread 1 CH_STATE_READY 0 0 ]}))) [4] 1)
    {[ 50 := mk_mutex [] 0 0 ]}
    (<[1 := 10]> (<[2 := 20]> (<[3 := 30]> {[ 4 := 1 ]}))) (<[1 := 0]> (<[2 := 0]> (<[3 := 0]> {[ 4 := 0 ]}))).
Lemma mtx_bench_threads t th : threads (kern mtx_bench) !! t = Some th →
  t = 1 ∧ th = mk_thread 10 CH_STATE_CURRENT 0 0 ∨ t = 2 ∧ th = mk_thread 20 CH_STATE_SLEEPING 0 0 ∨
  t = 3 ∧ th = mk_thread 30 CH_STATE_SLEEPING 0 0 ∨ t = 4 ∧ th = mk_thread 1 CH_STATE_READY 0 0.
Proof.
  unfold mtx_bench. simpl. rewrite !lookup_insert_Some, lookup_singleton_Some.
  intros [[<- <-]|[_ [[<- <-]|[_ [[<- <-]|[_ [<- <-]]]]]]]; tauto.
Qed.
Lemma mtx_bench_inv : mtx_inv nothing nothing mtx_bench.
Proof.
  split_and!.
  - split.
    + by eexists.
    + by intros t th [[-> ->]|[[-> ->]|[[-> ->]|[-> ->]]]]%mtx_bench_threads.
    + intros t. cbn [rlist kern mtx_bench]. rewrite elem_of_cons, elem_of_nil. split; [intros [->|[]]; by eexists|].
      intros (th & [[-> ->]|[[-> ->]|[[-> ->]|[-> ->]]]]%mtx_bench_threads & ?); try done. by left.
    + apply NoDup_singleton.
    + apply by_prio_cons. split; [constructor|]. intros ? []%not_elem_of_nil.
    + by intros t th [[-> ->]|[[-> ->]|[[-> ->]|[-> ->]]]]%mtx_bench_threads.
  - vm_compute. congruence.
  - apply fresh_ok; [reflexivity|reflexivity| |].
    + intros t vth (th & Ht & ->)%vths_inv. by destruct (mtx_bench_threads _ _ Ht) as [[-> ->]|[[-> ->]|[[-> ->]|[-> ->]]]].
    + intros mp m Em. cbn [mutexes mtx_bench] in Em. by apply lookup_singleton_Some in Em as [_ <-].
Qed.

(** 1 locks, 3 wakes up, wants the mutex and waits, 2 wakes up. *)
Definition bench_state (p1 : Z) (st1 st2 st3 : tstate_t) (u3 : Z) (q : list Z) (c : Z) (waiters : list Z) : mkernel :=
  mk_mk (mk_kernel ∅ ∅
      (<[1 := mk_thread p1 st1 0 0]> (<[2 := mk_thread 20 st2 0 0]>
        (<[3 := mk_thread 30 st3 0 u3]> {[ 4 := mk_thread 1 CH_STATE_READY 0 0 ]}))) q c)
    {[ 50 := mk_mutex waiters 1 0 ]} (realprio mtx_bench) (<[1 := 50]> (mtxlist mtx_bench)).
Definition bench_locked : mkernel := bench_state 10 CH_STATE_CURRENT CH_STATE_SLEEPING CH_STATE_SLEEPING 0 [4] 1 [].
Definition bench_high : mkernel := bench_state 10 CH_STATE_READY CH_STATE_SLEEPING CH_STATE_CURRENT 0 [1; 4] 3 [].
Definition bench_waits : mkernel := bench_state 30 CH_STATE_CURRENT CH_STATE_SLEEPING CH_STATE_WTMTX 50 [4] 1 [3].
Definition bench_middle : mkernel := bench_state 30 CH_STATE_CURRENT CH_STATE_READY CH_STATE_WTMTX 50 [2; 4] 1 [3].
Lemma bench_wakes t s :
  match vths s !! t with Some th => state th = CH_STATE_SLEEPING | None => False end → mtx_legal (MSched (OIrq [t])) s.
Proof.
  destruct (vths s !! t) as [th|] eqn:E; [|done]. intros Hs. split.
  - split; [apply NoDup_singleton|]. apply Forall_singleton. exists th. split; [done|by rewrite Hs].
  - apply Forall_singleton. intros mp (th' & E' & Hs' & _). simplify_eq. congruence.
Qed.
Lemma bench_reachable : mtx_reachable mtx_bench bench_middle.
Proof.
  apply (reach_step _ (MSched (OIrq [2])) bench_waits); [|apply bench_wakes; vm_compute; reflexivity|vm_compute; reflexivity].
  apply (reach_step _ (MLock 50) bench_high); [|split; [by eexists|done]|vm_compute; reflexivity].
  apply (reach_step _ (MSched (OIrq [3])) bench_locked); [|apply bench_wakes; vm_compute; reflexivity|vm_compute; reflexivity].
  apply (reach_step _ (MLock 50) mtx_bench); [constructor|split; [by eexists|done]|vm_compute; reflexivity].
Qed.

Lemma priority_inheritance_witness :
  currthread (kern bench_middle) = 1 ∧ rlist (kern bench_middle) = [2; 4] ∧
  prio_of (kern bench_middle) 3 <= prio_of (kern bench_middle) (currthread (kern bench_middle)).
Proof.
  split; [reflexivity|split; [reflexivity|]].
  destruct (priority_inheritance mtx_bench bench_middle mtx_bench_inv bench_reachable) as (_ & _ & Hc & _).
  apply (Hc 3 1).
  - apply tc_once. exists 50. split; by eexists.
  - apply runq_elem. by left.
Defined.

(** ** Handing a mutex over *)

(** C8.  A thread that unlocks the mutex that it locked last: when nobody waits for it the mutex is free and nothing else
    changes; otherwise the first waiter, which no other waiter exceeds in priority, owns it and can run, the others stay
    in the queue in their order, and the thread that unlocked keeps of its priority what its own and those that wait for its
    remaining mutexes justify.  What runs afterwards is at least as urgent as
    both of them. *)
Theorem unlock_hands_over mp m l s :
  let c := currthread (kern s) in
  mtx_inv nothing nothing s → mutexes s !! mp = Some m → owner m = c → owned_list (mutexes s) (mtxlist s) c (mp :: l) →
  wp (chMtxUnlock mp) s (λ _ s',
    (∀ x, x ≠ mp → mutexes s' !! x = mutexes s !! x) ∧ owned_list (mutexes s') (mtxlist s') c l ∧
    match queue m with
    | [] => kern s' = kern s ∧ mutexes s' !! mp = Some (mk_mutex [] 0 (mnext m))
    | tp :: q =>
        (∃ nx, mutexes s' !! mp = Some (mk_mutex q tp nx)) ∧ tp ∈ runq (kern s') ∧
        (∀ w, w ∈ q → prio_of (kern s) w <= prio_of (kern s) tp) ∧
        (∃ r, realprio s !! c = Some r ∧ (prio_of (kern s') c = r ∨ ∃ w x, x ∈ l ∧ waits (threads (kern s')) w x ∧ prio_of (kern s') w = prio_of (kern s') c)) ∧
        prio_of (kern s') tp = prio_of (kern s) tp ∧ prio_of (kern s') tp <= prio_of (kern s') (currthread (kern s')) ∧
        prio_of (kern s') c <= prio_of (kern s') (currthread (kern s'))
    end).
Proof.
  intros c Hinv Em Hm Hlist. pose proof Hinv as (Hi & Hs & Ho). eapply wp_mono; [by eapply unlock_runs|].
  intros ? s' ((Hu & Hr & _) & Hinv' & Hl'). pose proof Hinv' as (Hi' & Hs' & Ho').
  destruct (queue m) as [|tp q] eqn:Eq.
  { destruct Hu as [Hk Hms]. split_and!; [|done|done|by rewrite Hms, lookup_insert_eq]. intros x Hx. by rewrite Hms, lookup_insert_ne. }
  destruct Hu as (thc & thtp & p & ltp & Ec & Etp & Htc & Hv & Hms).
  assert (vths s' !! tp = Some (with_state CH_STATE_READY thtp)) as Etp' by (rewrite Hv; apply lookup_insert_eq).
  assert (vths s' !! c = Some (with_prio p thc)) as Ec' by (rewrite Hv, lookup_insert_ne by done; apply lookup_insert_eq).
  assert (tp ∈ runq (kern s')) as Htp by (apply runq_spec; [done|by eexists]).
  assert (c ∈ runq (kern s')) as Hcr.
  { apply runq_spec; [done|]. exists (with_prio p thc). split; [done|]. destruct (current_vths s Hi) as (th & E & Hst). fold c in E.
    unfold c in *. rewrite Ec in E. injection E as <-. done. }
  split; [intros x Hx; by rewrite Hms, lookup_insert_ne|split; [done|]]. split_and!; [by eexists; rewrite Hms, lookup_insert_eq|done|..].
  - intros w Hw. pose proof (ok_sorted _ _ _ _ _ _ Ho mp m Em) as Hso. rewrite Eq in Hso. apply by_prio_cons in Hso as [_ Hso].
    specialize (Hso w Hw). rewrite !tprio_vths in Hso. lia.
  - destruct (ok_real _ _ _ _ _ _ Ho' c _ Ec') as (r & Hr' & _ & Hc). exists r. split; [by rewrite <-Hr|].
    assert (prio_of (kern s') c = prio (with_prio p thc)) as -> by (rewrite <-tprio_vths; unfold tprio; by rewrite Ec').
    destruct Hc as [?|[(w & x & Hw & Hx & Hp)|[]]]; [by left|right]. exists w, x. rewrite <-tprio_vths. split_and!; [|by apply vths_waits|done].
    destruct Hl' as (? & _ & _ & _ & Hl'). by apply Hl'.
  - rewrite <-!tprio_vths. unfold tprio. by rewrite Etp', Etp.
  - by apply runnable_prio.
  - by apply runnable_prio.
Qed.
Lemma bench_middle_list : owned_list (mutexes bench_middle) (mtxlist bench_middle) 1 [50].
Proof.
  exists 50. split; [done|]. split; [by split; [|exists (mk_mutex [3] 1 0)]|]. split; [apply NoDup_singleton|]. intros x.
  rewrite list_elem_of_singleton. split; [intros ->; by exists (mk_mutex [3] 1 0)|].
  intros (m & Em & Hm). cbn [mutexes bench_middle bench_state] in Em. by apply lookup_singleton_Some in Em as [<- _].
Qed.
Lemma unlock_hands_over_witness :
  wp (chMtxUnlock 50) bench_middle (λ _ s', mutexes s' !! 50 = Some (mk_mutex [] 3 0) ∧ prio_of (kern s') 1 = 10 ∧
    prio_of (kern s') 3 <= prio_of (kern s') (currthread (kern s'))).
Proof.
  eapply wp_mono; [apply wp_conj; [apply (unlock_hands_over 50 (mk_mutex [3] 1 0) [] bench_middle)|]|].
  - exact (mtx_reachable_inv _ _ mtx_bench_inv bench_reachable).
  - reflexivity.
  - reflexivity.
  - apply bench_middle_list.
  - instantiate (1 := λ _ s', mutexes s' !! 50 = Some (mk_mutex [] 3 0)). vm_compute. reflexivity.
  - cbn beta iota. intros ? s' ((_ & _ & _ & _ & _ & (r & Hr & Hc) & _ & Hp & _) & Hm). split; [done|split; [|done]].
    injection Hr as <-. destruct Hc as [?|(w & x & Hx & _)]; [done|by apply elem_of_nil in Hx].
Defined.

(** [chThdSetPriority] takes a thread's inherited priority for its own when the two are equal: thread 1 is given
    priority 5 although thread 3, with priority 10, waits for its mutex. *)
Definition bench_equal : mkernel :=
  mk_mk (mk_kernel ∅ ∅ (<[1 := mk_thread 10 CH_STATE_CURRENT 0 0]> (<[3 := mk_thread 10 CH_STATE_WTMTX 0 50]>
      {[ 4 := mk_thread 1 CH_STATE_READY 0 0 ]})) [4] 1)
    {[ 50 := mk_mutex [3] 1 0 ]} (<[1 := 10]> (<[3 := 10]> {[ 4 := 1 ]})) (<[1 := 50]> (<[3 := 0]> {[ 4 := 0 ]})).
Lemma set_priority_inverts :
  blocks bench_equal 3 1 ∧ wp (chThdSetPriority 5) bench_equal (λ old s', old = 10 ∧ blocks s' 3 1 ∧ prio_of (kern s') 1 < prio_of (kern s') 3).
Proof.
  split; [exists 50; split; by eexists|].
  apply (wp_ok _ _ 10 (mk_mk (mk_kernel ∅ ∅ (<[1 := mk_thread 5 CH_STATE_CURRENT 0 0]> (<[3 := mk_thread 10 CH_STATE_WTMTX 0 50]>
      {[ 4 := mk_thread 1 CH_STATE_READY 0 0 ]})) [4] 1)
    {[ 50 := mk_mutex [3] 1 0 ]} (<[1 := 5]> (<[3 := 10]> {[ 4 := 1 ]})) (<[1 := 50]> (<[3 := 0]> {[ 4 := 0 ]})))); [vm_compute; reflexivity|].
  split_and!; [done|exists 50; split; by eexists|done].
Qed.
