(* ===== verification/AppThreads.v ===== *)
(** * The application's threads

    src/main.c as far as the kernel sees it: [main] creates the threads, each
    thread is the sequence of its kernel calls (a prologue, then a loop), and
    interrupts broadcast on the two event sources.  The mutex of the UDP
    destination is locked and unlocked by the kernel's own code ([ChMutex.v]); it
    lies in zeroed memory until the network thread initialises it.  A call that may
    wait for a driver (and the mutex of its bus) or a timer is [ACall]; the threads
    of lwIP and of the drivers are not modelled, they and the interrupts wake what
    waits in such a call. *)
From stdpp Require Import relations.
From S2P Require Import Prelude ChKernel ChMutex.

(** ** Objects *)

Definition tp_main : Z := 1.
Definition tp_idle : Z := 2.
Definition tp_blinker : Z := 3.
Definition tp_hid : Z := 4.
Definition tp_usb_host : Z := 5.
Definition tp_udp_server : Z := 6.
Definition tp_nrf24_tx : Z := 7.
Definition tp_nrf24_irq : Z := 8.
Definition tp_shell : Z := 9.

Definition esDS5Ready : Z := 101.
Definition esNRF24Interrupt : Z := 102.
Definition el_udp : Z := 103.
Definition el_tx : Z := 104.
Definition nrf24_interrupt_listener : Z := 105.
Definition udp_dest_mutex : Z := 201.

Definition EVT_DS5_READY : Z := EVENT_MASK 0.
Definition EVT_NRF24_INTERRUPT : Z := EVENT_MASK 1.

(** ** What a thread does *)

Inductive action : Type :=
  | ACreate (t : Z)            (* chThdCreateStatic, chThdCreateFromHeap *)
  | AInit (es : Z)             (* chEvtObjectInit *)
  | ARegister (es el ev : Z)   (* chEvtRegisterMask *)
  | AWait (ev : Z)             (* chEvtWaitOne *)
  | AResume (ev : Z)           (* the rest of chEvtWaitOne after a sleep *)
  | AEnable (es : Z)           (* the interrupt that broadcasts [es] may come *)
  | ACall                      (* a call that may wait *)
  | AMtxInit (mp : Z)          (* chMtxObjectInit *)
  | ALock (mp : Z)             (* chMtxLock *)
  | AUnlock (mp : Z)           (* chMtxUnlock *)
  | AReturn                    (* the thread's function returns if the call before failed *)
  | AContinue.                 (* the loop's next round, if the rest of this one is left out *)
#[export] Instance action_eq_dec : EqDecision action.
Proof. solve_decision. Defined.

Definition thread_prio (t : Z) : Z :=
  if decide (t = tp_idle) then IDLEPRIO
  else if decide (t = tp_blinker) then NORMALPRIO + 1
  else if decide (t = tp_usb_host) then NORMALPRIO + 2
  else if decide (t = tp_nrf24_irq) then NORMALPRIO + 3
  else if decide (t = tp_shell) then NORMALPRIO + 1
  else NORMALPRIO.

Definition main_code : list action :=
  [ACreate tp_blinker; ACreate tp_hid; ACreate tp_usb_host; ACreate tp_udp_server;
   ACreate tp_nrf24_tx; ACreate tp_nrf24_irq; ACreate tp_shell].
Definition UsbHostThread : list action := [AInit esDS5Ready; ACall].
(** lwipInit, then the mutex and the listener, socket and bind with their early
    returns, and udp_get_destination. *)
Definition UdpServerThread : list action :=
  [ACall; AMtxInit udp_dest_mutex; ARegister esDS5Ready el_udp EVT_DS5_READY;
   ACall; AReturn; ACall; AReturn; ALock udp_dest_mutex; AUnlock udp_dest_mutex].
Definition NRF24TxThread : list action :=
  [AInit esNRF24Interrupt; ACall; AEnable esNRF24Interrupt;
   ARegister esDS5Ready el_tx EVT_DS5_READY; ACall].
Definition NRF24InterruptThread : list action :=
  [ARegister esNRF24Interrupt nrf24_interrupt_listener EVT_NRF24_INTERRUPT].

Definition thread_prologue (t : Z) : list action :=
  if decide (t = tp_main) then main_code
  else if decide (t = tp_usb_host) then UsbHostThread
  else if decide (t = tp_udp_server) then UdpServerThread
  else if decide (t = tp_nrf24_tx) then NRF24TxThread
  else if decide (t = tp_nrf24_irq) then NRF24InterruptThread
  else [].

(** The bodies of the threads' loops; the HID thread starts the driver whose
    report callback publishes, the idle thread does nothing.  The network thread
    copies the destination and sends, unless the text is no address; the shell
    reads a line, and some of its commands set or get the destination. *)
Definition thread_loop (t : Z) : list action :=
  if decide (t = tp_idle) then []
  else if decide (t = tp_hid) then [AEnable esDS5Ready; ACall]
  else if decide (t = tp_udp_server) then 
    [AWait EVT_DS5_READY; ALock udp_dest_mutex; AUnlock udp_dest_mutex; AContinue; ACall]
  else if decide (t = tp_nrf24_tx) then [AWait EVT_DS5_READY; ACall]
  else if decide (t = tp_nrf24_irq) then [AWait EVT_NRF24_INTERRUPT; ACall]
  else if decide (t = tp_shell) then [ACall; AContinue; ALock udp_dest_mutex; AUnlock udp_dest_mutex]
  else [ACall].

(** ** The system *)

(** [code]: what is left of each thread's prologue or of its present round;
    [inited]: the mutexes that were initialised. *)
Record sys : Type := mk_sys {
  mkern : mkernel; code : gmap Z (list action); enabled : gset Z; inited : gset Z }.
Definition kern (s : sys) : kernel := ChMutex.kern (mkern s).

(** The next action of a thread and what is left after it. *)
Definition fetch (s : sys) (t : Z) : option (action * list action) :=
  match code s !! t with
  | Some (a :: l) => Some (a, l)
  | Some [] => match thread_loop t with a :: l => Some (a, l) | [] => None end
  | None => None
  end.

(** An action by the running thread, and what it leaves to be done of it.  The
    queue of a mutex in zeroed memory is no list: waiting in it and taking the
    first waiter out of it (the unlocking code takes it for not empty) go through
    null pointers. *)
Definition exec_action (ready : gset Z) (a : action) : M mkernel (list action) :=
  match a with
  | ACreate t => __thd_object_init t (thread_prio t);; in_kernel (chThdCreateStatic t (thread_prio t));; mret []
  | AInit es => in_kernel (chEvtObjectInit es);; mret []
  | ARegister es el ev => in_kernel (chEvtRegisterMask es el ev);; mret []
  | AWait ev => r ← in_kernel (chEvtWaitOne ev); mret (match r with Some _ => [] | None => [AResume ev] end)
  | AResume ev => in_kernel (take_one ev);; mret []
  | AMtxInit mp => chMtxObjectInit mp;; mret []
  | ALock mp =>
      o ← chMtxGetOwnerI mp;
      if decide (mp ∉ ready ∧ o ≠ 0) then mfail NullCall else chMtxLock mp;; mret []
  | AUnlock mp => if decide (mp ∈ ready) then chMtxUnlock mp;; mret [] else mfail NullCall
  | AEnable _ | ACall | AReturn | AContinue => mret []
  end.

Definition start_code (a : action) (c : gmap Z (list action)) : gmap Z (list action) :=
  match a with ACreate t => <[t := thread_prologue t]> c | _ => c end.
Definition enable (a : action) (e : gset Z) : gset Z :=
  match a with AEnable es => {[ es ]} ∪ e | _ => e end.
Definition make_ready (a : action) (i : gset Z) : gset Z :=
  match a with AMtxInit mp => {[ mp ]} ∪ i | _ => i end.

(** An interrupt: a thread that waited in a call becomes ready, or an event
    source is broadcast; then preemption. *)
Definition wake_irq (t : Z) : M kernel unit := chSchReadyI t;; chSchPreemption.
Definition event_irq (es : Z) : M kernel unit := chEvtBroadcastI es;; chSchPreemption.

(** The end of a thread, which nobody waits for: its code is stored and it sleeps for
    ever. *)
Definition chThdExitS (msg : Z) : M kernel unit :=
  currtp ← mgets currthread;
  on_thread currtp (with_u msg);;
  chSchGoSleepS CH_STATE_FINAL.
Definition chThdExit (msg : Z) : M kernel unit := chThdExitS msg.

Inductive step : sys → sys → Prop :=
  | step_run s a l pre m' :
      fetch s (currthread (kern s)) = Some (a, l) →
      exec_action (inited s) a (mkern s) = Ok pre m' →
      step s (mk_sys m' (<[currthread (kern s) := pre ++ l]> (start_code a (code s)))
                (enable a (enabled s)) (make_ready a (inited s)))
  | step_wait s l k' :
      fetch s (currthread (kern s)) = Some (ACall, l) →
      chSchGoSleepS CH_STATE_SUSPENDED (kern s) = Ok tt k' →
      step s (mk_sys (with_kern k' (mkern s)) (<[currthread (kern s) := ACall :: l]> (code s))
                (enabled s) (inited s))
  | step_return s l k' :
      fetch s (currthread (kern s)) = Some (AReturn, l) →
      chThdExit MSG_OK (kern s) = Ok tt k' →
      step s (mk_sys (with_kern k' (mkern s)) (<[currthread (kern s) := AReturn :: l]> (code s))
                (enabled s) (inited s))
  | step_continue s l :
      fetch s (currthread (kern s)) = Some (AContinue, l) →
      step s (mk_sys (mkern s) (<[currthread (kern s) := []]> (code s)) (enabled s) (inited s))
  | step_wake s t th k' :
      threads (kern s) !! t = Some th → state th = CH_STATE_SUSPENDED →
      wake_irq t (kern s) = Ok tt k' →
      step s (mk_sys (with_kern k' (mkern s)) (code s) (enabled s) (inited s))
  | step_irq s es k' :
      es ∈ enabled s →
      event_irq es (kern s) = Ok tt k' →
      step s (mk_sys (with_kern k' (mkern s)) (code s) (enabled s) (inited s)).

(** [main] runs, the idle thread is ready, and the event sources and the mutex
    are in zeroed memory. *)
Definition boot_kernel : kernel :=
  mk_kernel (<[esDS5Ready := 0]> {[ esNRF24Interrupt := 0 ]}) ∅
    (<[tp_main := mk_thread NORMALPRIO CH_STATE_CURRENT 0 0]>
       {[ tp_idle := mk_thread IDLEPRIO CH_STATE_READY 0 0 ]})
    [tp_idle] tp_main.
Definition boot_mkernel : mkernel :=
  mk_mk boot_kernel {[ udp_dest_mutex := mk_mutex [] 0 0 ]}
    (<[tp_main := NORMALPRIO]> {[ tp_idle := IDLEPRIO ]}) (<[tp_main := 0]> {[ tp_idle := 0 ]}).
Definition boot : sys :=
  mk_sys boot_mkernel (<[tp_main := main_code]> {[ tp_idle := [] ]}) ∅ ∅.

Definition reachable (s : sys) : Prop := rtc step boot s.
