(* ===== verification/AppFacts.v ===== *)
(** * Invariants of the application's threads

    What holds in every reachable state of [AppThreads.v], but for the mutex
    ([AppMutex.v]): where each thread can be in its code, who is ahead of whom in the
    run queue while [main] creates the threads, and what the listener lists of the
    two event sources are. *)
From stdpp Require Import relations.
From S2P Require Import Prelude ChKernel ChSched ChEvents AppThreads.

(** ** Where a thread can be *)

Definition all_threads : list Z :=
  [tp_main; tp_idle; tp_blinker; tp_hid; tp_usb_host; tp_udp_server; tp_nrf24_tx; tp_nrf24_irq; tp_shell].
Definition wait_mask (t : Z) : Z :=
  if decide (t = tp_nrf24_irq) then EVT_NRF24_INTERRUPT else EVT_DS5_READY.

Fixpoint suffixes (l : list action) : list (list action) :=
  l :: match l with [] => [] | _ :: l => suffixes l end.
Definition resumed (l : list action) : list (list action) :=
  match l with AWait ev :: l => [AResume ev :: l] | _ => [] end.
Definition positions (t : Z) : list (list action) :=
  suffixes (thread_prologue t) ++ suffixes (thread_loop t) ++ resumed (thread_loop t).

Definition fetch_code (t : Z) (c : list action) : option (action * list action) :=
  match c with
  | a :: l => Some (a, l)
  | [] => match thread_loop t with a :: l => Some (a, l) | [] => None end
  end.

Lemma fetch_fetch_code s t c : code s !! t = Some c → fetch s t = fetch_code t c.
Proof. unfold fetch. by intros ->. Qed.

(** The code of a thread between a lock and its unlock. *)
Definition unlocking (c : list action) : Prop := head c = Some (AUnlock udp_dest_mutex).

(** What the code of an action's thread is before and after it. *)
Definition action_ok (t : Z) (c : list action) (a : action) (l : list action) : Prop :=
  t ≠ tp_idle ∧ l ∈ positions t ∧
  (t = tp_main → (∀ x, x ∈ all_threads → ACreate x ∈ c → a ≠ ACall)) ∧
  (unlocking l → a = ALock udp_dest_mutex) ∧
  match a with
  | ACreate x => t = tp_main ∧ c = a :: l ∧ (a ∉ l) ∧ x ∈ all_threads ∧ x ≠ tp_main ∧ x ≠ tp_idle
  | AInit es => c = thread_prologue t ∧ l ≠ c ∧
      ((t = tp_usb_host ∧ es = esDS5Ready) ∨ (t = tp_nrf24_tx ∧ es = esNRF24Interrupt))
  | ARegister es el ev => c = a :: l ∧ (a ∉ l) ∧ (c = thread_prologue t ∨ t = tp_udp_server ∨ t = tp_nrf24_tx) ∧
      ((t = tp_udp_server ∧ es = esDS5Ready ∧ el = el_udp ∧ ev = EVT_DS5_READY) ∨
       (t = tp_nrf24_tx ∧ es = esDS5Ready ∧ el = el_tx ∧ ev = EVT_DS5_READY) ∨
       (t = tp_nrf24_irq ∧ es = esNRF24Interrupt ∧ el = nrf24_interrupt_listener ∧ ev = EVT_NRF24_INTERRUPT))
  | AWait ev => AResume ev :: l ∈ positions t ∧ ev = wait_mask t ∧
      (t = tp_udp_server ∨ t = tp_nrf24_tx ∨ t = tp_nrf24_irq)
  | AResume ev => ev = wait_mask t ∧ (t = tp_udp_server ∨ t = tp_nrf24_tx ∨ t = tp_nrf24_irq)
  | AEnable es =>
      (t = tp_hid ∧ es = esDS5Ready) ∨ (t = tp_nrf24_tx ∧ es = esNRF24Interrupt ∧ c ≠ thread_prologue t)
  | ACall => ACall :: l ∈ positions t
  | AMtxInit mp => mp = udp_dest_mutex ∧ t = tp_udp_server ∧ c = a :: l ∧ (a ∉ l)
  | ALock mp => mp = udp_dest_mutex ∧ unlocking l ∧ c = a :: l ∧
      ((t = tp_udp_server ∧ (AMtxInit udp_dest_mutex ∉ c)) ∨ t = tp_shell)
  | AUnlock mp => mp = udp_dest_mutex ∧ c = a :: l ∧
      ((t = tp_udp_server ∧ (AMtxInit udp_dest_mutex ∉ c)) ∨ t = tp_shell)
  | AReturn => AReturn :: l ∈ positions t ∧ t = tp_udp_server ∧ (AMtxInit udp_dest_mutex ∉ c)
  | AContinue => t = tp_udp_server ∧ (AMtxInit udp_dest_mutex ∉ c) ∨ t = tp_shell
  end.
#[export] Instance action_ok_dec t c a l : Decision (action_ok t c a l).
Proof.
  unfold action_ok, unlocking. repeat apply and_dec; try apply _.
  - destruct (decide (t = tp_main)); [|left; done].
    destruct (decide (a = ACall)); [|left; done].
    destruct (decide (Forall (λ x, ACreate x ∉ c) all_threads)) as [H|H].
    + left. intros _ x Hx Hc. rewrite Forall_forall in H. by destruct (H x Hx).
    + right. intros Hn. apply H, Forall_forall. intros x Hx Hc. by apply (Hn e x Hx Hc).
  - destruct a; apply _.
Defined.

Definition position_ok (t : Z) (c : list action) : Prop :=
  match fetch_code t c with Some (a, l) => action_ok t c a l | None => t = tp_idle end.
#[export] Instance position_ok_dec t c : Decision (position_ok t c).
Proof. unfold position_ok. destruct (fetch_code t c) as [[a l]|]; apply _. Defined.

Lemma positions_closed : Forall (λ t, Forall (position_ok t) (positions t)) all_threads.
Proof.
  by_decision.
Qed.

Lemma action_facts t c a l :
  t ∈ all_threads → c ∈ positions t → fetch_code t c = Some (a, l) → action_ok t c a l.
Proof.
  intros Ht Hc E. pose proof positions_closed as H. rewrite Forall_forall in H.
  specialize (H t Ht). rewrite Forall_forall in H. specialize (H c Hc). unfold position_ok in H. by rewrite E in H.
Qed.

(** ** Leading the run queue *)

(** [main] is ahead of every thread that has no higher priority than it. *)
Definition leads (q : list Z) : Prop :=
  ∃ l1 l2, q = l1 ++ tp_main :: l2 ∧ Forall (λ t, thread_prio t > NORMALPRIO) l1.

Lemma leads_insert pr q x :
  (∀ y, y ∈ x :: q → pr y = thread_prio y) → leads q → leads (ch_pqueue_insert_behind pr x q).
Proof.
  intros Hpr (l1 & l2 & -> & Hl). induction l1 as [|y l1 IH]; simpl.
  - rewrite !Hpr by set_solver. change (thread_prio tp_main) with NORMALPRIO.
    destruct (decide _) as [H|H].
    + by exists [], (ch_pqueue_insert_behind pr x l2).
    + exists [x], l2. split; [done|]. constructor; [lia|constructor].
  - apply Forall_cons in Hl as [Hy Hl]. destruct (decide _) as [H|H].
    + destruct IH as (k1 & k2 & -> & Hk); [|done|].
      { intros z Hz. apply Hpr. apply elem_of_cons in Hz as [->|Hz]; [by left|right; by right]. }
      exists (y :: k1), k2. split; [done|]. by constructor.
    + exists (x :: y :: l1), l2. split; [done|]. rewrite !Hpr in H by set_solver.
      constructor; [lia|]. by constructor.
Qed.

Lemma leads_tail t q : t ≠ tp_main → leads (t :: q) → leads q.
Proof.
  intros Ht ([|y l1] & l2 & E & Hl); [simpl in E; congruence|]. injection E as -> ->.
  exists l1, l2. split; [done|]. by apply Forall_cons in Hl as [_ ?].
Qed.

Lemma leads_head t q : leads (t :: q) → t = tp_main ∨ thread_prio t > NORMALPRIO.
Proof.
  intros ([|y l1] & l2 & E & Hl); [left; simpl in E; congruence|]. injection E as -> ->.
  right. by apply Forall_cons in Hl as [? _].
Qed.

(** ** The invariant *)

(** The threads: their priorities, what they wait for, where they are. *)
(** A thread's priority is its own; the network thread may have the shell's, which
    waits for its mutex. *)
Definition prio_ok (c : gmap Z (list action)) (t p : Z) : Prop :=
  p = thread_prio t ∨ (t = tp_udp_server ∧ p = thread_prio tp_shell ∧ is_Some (c !! tp_shell)).
Lemma prio_ok_insert c x l t p : prio_ok c t p → prio_ok (<[x := l]> c) t p.
Proof.
  intros [?|(? & ? & Hs)]; [by left|right]. split_and!; [done..|]. rewrite lookup_insert_is_Some.
  destruct (decide (x = tp_shell)); [by left|by right].
Qed.

Record threads_inv (a : akernel) (c : gmap Z (list action)) : Prop := mk_tinv {
  t_thread : ∀ t th, a_threads a !! t = Some th →
    prio_ok c t (prio th) ∧ event_wait_met th = false ∧
    (state th = CH_STATE_WTOREVT → u th = wait_mask t);
  t_code : ∀ t, c !! t = None ↔ a_threads a !! t = None;
  t_pos : ∀ t l, c !! t = Some l → t ∈ all_threads ∧ l ∈ positions t;
  t_idle : tp_idle ∈ a_run a;
  t_main : ∃ l, c !! tp_main = Some l ∧
    ∀ t, t ∈ all_threads → t ≠ tp_main → t ≠ tp_idle → ACreate t ∈ l ↔ c !! t = None;
  t_lead : ∀ l, c !! tp_main = Some l → ACreate tp_nrf24_irq ∈ l → leads (a_run a);
  t_busy : ∀ t, t ∈ [tp_usb_host; tp_nrf24_irq] → c !! t = Some (thread_prologue t) → t ∈ a_run a;
  t_irq0 : c !! tp_nrf24_irq = Some [] → tp_nrf24_irq ∈ a_run a;
  t_irq : ∀ ev l, c !! tp_nrf24_irq = Some (AResume ev :: l) →
    ∃ th, a_threads a !! tp_nrf24_irq = Some th ∧ state th = CH_STATE_WTOREVT;
  t_pending : ∀ th, a_threads a !! tp_nrf24_irq = Some th → epending th = 0;
  t_irq_code : ∀ l, c !! tp_nrf24_irq = Some l →
    l ∈ [NRF24InterruptThread; []; [AResume EVT_NRF24_INTERRUPT; ACall]] }.

Definition started (c : gmap Z (list action)) (t : Z) : Prop :=
  ∃ l, c !! t = Some l ∧ l ≠ thread_prologue t.

(** Thread [t] has registered its listener [el] for the controller's reports. *)
Definition listens (c : gmap Z (list action)) (t el : Z) : Prop :=
  ∃ l, c !! t = Some l ∧ ARegister esDS5Ready el EVT_DS5_READY ∉ l.

Definition ds5_listener (t : Z) : event_listener_t := mk_listener t EVT_DS5_READY 0 4294967295.

(** The event sources. *)
Record sources_inv (k : kernel) (c : gmap Z (list action)) (e : gset Z) : Prop := mk_sinv {
  s_nrf : is_Some (next k !! esNRF24Interrupt);
  s_nrf_started : started c tp_nrf24_tx →
    next k !! esNRF24Interrupt = Some esNRF24Interrupt ∧
    c !! tp_nrf24_irq = Some [AResume EVT_NRF24_INTERRUPT; ACall];
  s_ds5 : is_Some (next k !! esDS5Ready);
  s_ds5_started : started c tp_usb_host → ∃ ls, registered k esDS5Ready ls ∧
    (∀ l, l ∈ ls → l = el_udp ∨ l = el_tx) ∧
    (el_udp ∈ ls ↔ listens c tp_udp_server el_udp) ∧ (el_tx ∈ ls ↔ listens c tp_nrf24_tx el_tx) ∧
    (el_udp ∈ ls → listeners k !! el_udp = Some (ds5_listener tp_udp_server)) ∧
    (el_tx ∈ ls → listeners k !! el_tx = Some (ds5_listener tp_nrf24_tx));
  s_silent : ¬ started c tp_usb_host →
    (¬ listens c tp_udp_server el_udp) ∧ ¬ listens c tp_nrf24_tx el_tx;
  s_enabled : ∀ es, es ∈ e → (es = esDS5Ready ∧ started c tp_usb_host) ∨
    (es = esNRF24Interrupt ∧ started c tp_nrf24_tx) }.

(** ** The thread part, step by step *)

(** Code that still creates threads, before and after an action of [main] that
    creates none. *)
Definition creates_same (l l' : list action) : Prop :=
  ∀ x, x ∈ all_threads → ACreate x ∈ l' ↔ ACreate x ∈ l.

Lemma code_insert_none (c : gmap Z (list action)) t l l' x :
  c !! t = Some l → (<[t := l']> c) !! x = None ↔ c !! x = None.
Proof.
  intros E. destruct (decide (x = t)) as [->|?].
  - rewrite lookup_insert_eq, E. done.
  - by rewrite lookup_insert_ne.
Qed.

(** The running thread goes on. *)
Lemma threads_go_on a c t l l' f :
  threads_inv a c → c !! t = Some l → t ∈ a_run a →
  (∀ th, a_threads a !! t = Some th → state th = CH_STATE_READY) →
  (∀ th, prio (f th) = prio th ∧ state (f th) = state th) →
  (∀ th, t = tp_nrf24_irq → epending th = 0 → epending (f th) = 0) →
  l' ∈ positions t → (t = tp_main → creates_same l l') →
  (t = tp_nrf24_irq → l' = []) →
  threads_inv (a_set t f a) (<[t := l']> c).
Proof.
  intros [H1 H2 H3 H4 H5 H6 H7 H8 H9 H10 H11] E Hrun Hrdy Hf Hpend Hpos Hmain Hirq.
  destruct (H3 t l E) as [Hall _].
  assert (Hlk : ∀ x th', a_threads (a_set t f a) !! x = Some th' →
    ∃ th, a_threads a !! x = Some th ∧ (x = t ∧ th' = f th ∨ x ≠ t ∧ th' = th)).
  { intros x th'. unfold a_set. simpl. destruct (decide (x = t)) as [->|?].
    - rewrite lookup_alter_eq. intros (th & E' & ->)%fmap_Some. eauto.
    - rewrite lookup_alter_ne by done. eauto. }
  split.
  - intros x th' (th & Ex & [[-> ->]|[_ ->]])%Hlk.
    2: { destruct (H1 _ _ Ex) as (? & ? & ?). by split_and!; [apply prio_ok_insert|..]. }
    destruct (Hf th) as [-> Es]. rewrite Es, (Hrdy th Ex). split_and!; [by apply prio_ok_insert, H1| |done].
    destruct (event_wait_met (f th)) eqn:Em; [|done]. apply met_state in Em. rewrite Es, (Hrdy th Ex) in Em.
    by destruct Em.
  - intros x. rewrite (code_insert_none c t l) by done. rewrite H2. unfold a_set. simpl.
    destruct (decide (x = t)) as [->|?]; [by rewrite lookup_alter_eq, fmap_None|by rewrite lookup_alter_ne].
  - intros x lx. rewrite lookup_insert_Some. intros [[<- <-]|[_ Ex]]; [done|by apply H3].
  - done.
  - destruct H5 as (lm & Em & Hm). destruct (decide (t = tp_main)) as [->|Hne].
    + exists l'. rewrite lookup_insert_eq. split; [done|]. intros x Hx ??.
      rewrite (code_insert_none c tp_main l) by done. rewrite (Hmain eq_refl x Hx). rewrite Em in E.
      injection E as <-. by apply Hm.
    + exists lm. rewrite lookup_insert_ne by done. split; [done|]. intros x ???.
      rewrite (code_insert_none c t l) by done. by apply Hm.
  - intros lm Em Hin. destruct (decide (t = tp_main)) as [->|Hne].
    + rewrite lookup_insert_eq in Em. injection Em as <-. apply (H6 l E).
      apply (Hmain eq_refl); [by_decision|done].
    + rewrite lookup_insert_ne in Em by done. by apply (H6 lm).
  - intros x Hx. rewrite lookup_insert_Some. intros [[<- _]|[_ Ex]]; [done|by apply H7].
  - rewrite lookup_insert_Some. intros [[-> _]|[_ Ex]]; [done|by apply H8].
  - intros ev lr. rewrite lookup_insert_Some. intros [[-> Er]|[Hne Ex]].
    + by rewrite (Hirq eq_refl) in Er.
    + destruct (H9 ev lr Ex) as (th & Eth & Es). exists th. split; [|done].
      unfold a_set. simpl. by rewrite lookup_alter_ne.
  - intros th' (th & Ex & [[<- ->]|[_ ->]])%Hlk; [|by apply H10]. apply Hpend; [done|by apply H10].
  - intros lx. rewrite lookup_insert_Some. intros [[-> <-]|[_ Ex]]; [|by apply H11].
    rewrite (Hirq eq_refl), !elem_of_cons. tauto.
Qed.

(** The running thread goes to sleep. *)
Lemma threads_sleep a c t q l l' st v :
  threads_inv a c → c !! t = Some l → a_run a = t :: q → t ≠ tp_idle → t ∉ q →
  st ≠ CH_STATE_WTANDEVT →
  (st = CH_STATE_WTOREVT → v = wait_mask t ∧
     ∀ th, a_threads a !! t = Some th → Z.land (epending th) v = 0) →
  l' ∈ positions t → (t = tp_main → ∀ x, x ∈ all_threads → (ACreate x ∉ l') ∧ (ACreate x ∉ l)) →
  (t = tp_nrf24_irq → l' = [AResume EVT_NRF24_INTERRUPT; ACall] ∧ st = CH_STATE_WTOREVT) →
  (t = tp_usb_host → l' ≠ thread_prologue t) →
  threads_inv (a_sleep st (a_set t (with_u v) a)) (<[t := l']> c).
Proof.
  intros [H1 H2 H3 H4 H5 H6 H7 H8 H9 H10 H11] E Hrun Hid Htq Hst Hw Hpos Hmain Hirq Husb.
  destruct (H3 t l E) as [Hall _].
  assert (Ha : a_sleep st (a_set t (with_u v) a) =
    mk_ak (alter (with_state st) t (alter (with_u v) t (a_threads a))) q).
  { unfold a_sleep, a_set. cbn [a_run]. by rewrite Hrun. }
  rewrite Ha.
  assert (Hlk : ∀ x th', alter (with_state st) t (alter (with_u v) t (a_threads a)) !! x = Some th' →
    ∃ th, a_threads a !! x = Some th ∧ (x = t ∧ th' = with_state st (with_u v th) ∨ x ≠ t ∧ th' = th)).
  { intros x th'. destruct (decide (x = t)) as [->|?].
    - rewrite !lookup_alter_eq. destruct (a_threads a !! t) as [th|]; [|done].
      simpl. intros [= <-]. eauto.
    - rewrite !lookup_alter_ne by done. eauto. }
  assert (Htail : ∀ x, x ∈ a_run a → x ≠ t → x ∈ q).
  { intros x. rewrite Hrun, elem_of_cons. tauto. }
  split; cbn [a_threads a_run].
  - intros x th' (th & Ex & [[-> ->]|[_ ->]])%Hlk.
    2: { destruct (H1 _ _ Ex) as (? & ? & ?). by split_and!; [apply prio_ok_insert|..]. }
    simpl. split_and!; [by apply prio_ok_insert, H1| |intros Es; by destruct (Hw Es)].
    destruct (event_wait_met _) eqn:Em; [|done]. unfold event_wait_met in Em.
    apply orb_true_iff in Em as [Em|Em]; apply bool_decide_eq_true in Em as [Es Em]; simpl in Es, Em.
    + destruct (Hw Es) as [_ Hz]. by rewrite (Hz th Ex) in Em.
    + done.
  - intros x. rewrite (code_insert_none c t l) by done. rewrite H2.
    destruct (decide (x = t)) as [->|?]; [by rewrite !lookup_alter_eq, !fmap_None|by rewrite !lookup_alter_ne].
  - intros x lx. rewrite lookup_insert_Some. intros [[<- <-]|[_ Ex]]; [done|by apply H3].
  - by apply Htail.
  - destruct H5 as (lm & Em & Hm). destruct (decide (t = tp_main)) as [->|Hne].
    + exists l'. rewrite lookup_insert_eq. split; [done|]. intros x Hx Hxm Hxi.
      rewrite (code_insert_none c tp_main l) by done. rewrite Em in E. injection E as <-.
      rewrite <-(Hm x Hx Hxm Hxi). destruct (Hmain eq_refl x Hx). tauto.
    + exists lm. rewrite lookup_insert_ne by done. split; [done|]. intros x ???.
      rewrite (code_insert_none c t l) by done. by apply Hm.
  - intros lm Em Hin. destruct (decide (t = tp_main)) as [->|Hne].
    + rewrite lookup_insert_eq in Em. injection Em as <-.
      destruct (Hmain eq_refl tp_nrf24_irq); [by_decision|done].
    + rewrite lookup_insert_ne in Em by done. apply (leads_tail t); [done|]. rewrite <-Hrun. by apply (H6 lm).
  - intros x Hx. rewrite lookup_insert_Some. intros [[<- Ex]|[Hne Ex]].
    + rewrite !elem_of_cons, elem_of_nil in Hx. destruct Hx as [->|[->|[]]].
      * by destruct (Husb eq_refl).
      * destruct (Hirq eq_refl) as [-> _]. done.
    + apply Htail; [by apply H7|done].
  - rewrite lookup_insert_Some. intros [[-> Ex]|[Hne Ex]].
    + by destruct (Hirq eq_refl) as [-> _].
    + apply Htail; [by apply H8|done].
  - intros ev lr. rewrite lookup_insert_Some. intros [[-> Er]|[Hne Ex]].
    + destruct (Hirq eq_refl) as [_ ->]. destruct (a_threads a !! tp_nrf24_irq) as [th|] eqn:Eth.
      * eexists. rewrite !lookup_alter_eq, Eth. by split.
      * apply H2 in Eth. congruence.
    + destruct (H9 ev lr Ex) as (th & Eth & Es). exists th. split; [|done].
      by rewrite !lookup_alter_ne.
  - intros th' (th & Ex & [[<- ->]|[_ ->]])%Hlk; simpl; by apply H10.
  - intros lx. rewrite lookup_insert_Some. intros [[-> <-]|[_ Ex]]; [|by apply H11].
    destruct (Hirq eq_refl) as [-> _]. rewrite !elem_of_cons. tauto.
Qed.

Lemma prio_inv a c x : threads_inv a c → is_Some (a_threads a !! x) → prio_ok c x (a_prio a x).
Proof. intros Ht [th E]. unfold a_prio. rewrite E. by apply (t_thread a c Ht x th). Qed.
Lemma prio_ok_bound c x p : prio_ok c x p → thread_prio x <= p ∧ (p <= thread_prio x ∨ p = NORMALPRIO + 1).
Proof. intros [->|(-> & -> & _)]; [lia|]. by vm_compute; intuition congruence. Qed.

(** As long as the radio's interrupt thread is to be created there is no shell, and
    all priorities are the threads' own. *)
Lemma creates_shell_last : Forall (λ l, ACreate tp_nrf24_irq ∈ l → ACreate tp_shell ∈ l) (positions tp_main).
Proof. by_decision. Qed.
Lemma lead_prio a c l x :
  threads_inv a c → c !! tp_main = Some l → ACreate tp_nrf24_irq ∈ l → is_Some (a_threads a !! x) →
  a_prio a x = thread_prio x.
Proof.
  intros Ht El Hin Hx. destruct (prio_inv a c x Ht Hx) as [?|(_ & _ & Hs)]; [done|].
  destruct (t_main a c Ht) as (lm & Em & Hm). simplify_eq. destruct (t_pos a c Ht _ _ El) as [_ Hpos].
  pose proof creates_shell_last as H. rewrite Forall_forall in H. specialize (H _ Hpos Hin).
  apply Hm in H; [|by_decision|done..]. rewrite H in Hs. by destruct Hs.
Qed.

Lemma ready_prio t a x : a_prio (a_set t (with_state CH_STATE_READY) a) x = a_prio a x.
Proof.
  unfold a_prio, a_set. simpl. destruct (decide (x = t)) as [->|?].
  - rewrite lookup_alter_eq. by destruct (a_threads a !! t).
  - by rewrite lookup_alter_ne.
Qed.

(** The runnable threads exist. *)
Definition run_exists (a : akernel) : Prop := ∀ x, x ∈ a_run a → is_Some (a_threads a !! x).

Lemma a_ready_run t a : a_run (a_ready t a) ≡ₚ t :: a_run a.
Proof. unfold a_ready. cbn [a_run]. apply insert_behind_perm. Qed.

(** A thread that does not wait for the radio's event becomes ready, with or
    without more events. *)
Lemma threads_ready a c t f :
  threads_inv a c → run_exists a → t ≠ tp_nrf24_irq ∨ c !! tp_nrf24_irq = Some [] ∨
    c !! tp_nrf24_irq = Some NRF24InterruptThread ∨ c !! tp_nrf24_irq = None →
  is_Some (a_threads a !! t) →
  (∀ th, prio (f th) = prio th ∧ (t = tp_nrf24_irq → epending (f th) = epending th)) →
  threads_inv (a_ready t (a_set t f a)) c.
Proof.
  intros Ht Hex Hn Het Hf. pose proof Ht as [H1 H2 H3 H4 H5 H6 H7 H8 H9 H10 H11].
  set (a' := a_ready t (a_set t f a)).
  assert (Hrun : ∀ x, x ∈ a_run a → x ∈ a_run a').
  { intros x Hx. unfold a'. rewrite a_ready_run, elem_of_cons. by right. }
  assert (Hlk : ∀ x th', a_threads a' !! x = Some th' → ∃ th, a_threads a !! x = Some th ∧
    (x = t ∧ th' = with_state CH_STATE_READY (f th) ∨ x ≠ t ∧ th' = th)).
  { intros x th'. unfold a', a_ready, a_set. simpl. destruct (decide (x = t)) as [->|?].
    - rewrite !lookup_alter_eq. destruct (a_threads a !! t); [|done]. simpl. intros [= <-]. eauto.
    - rewrite !lookup_alter_ne by done. eauto. }
  assert (Hno : ∀ x, a_threads a' !! x = None ↔ a_threads a !! x = None).
  { intros x. unfold a', a_ready, a_set. simpl. destruct (decide (x = t)) as [->|?].
    - by rewrite !lookup_alter_eq, !fmap_None.
    - by rewrite !lookup_alter_ne. }
  split.
  - intros x th' (th & Ex & [[-> ->]|[_ ->]])%Hlk; [|by apply H1]. simpl.
    split_and!; [|done|done]. destruct (Hf th) as [-> _]. by eapply H1.
  - intros x. by rewrite Hno.
  - done.
  - by apply Hrun.
  - done.
  - intros l El Hin. specialize (H6 l El Hin). unfold a'. unfold a_ready. cbn [a_run].
    apply leads_insert; [|done]. intros y Hy. rewrite ready_prio.
    assert (Hy' : is_Some (a_threads a !! y)).
    { apply elem_of_cons in Hy as [->|Hy]; [done|by apply Hex]. }
    rewrite <-(lead_prio a c l y Ht El Hin Hy'). unfold a_prio, a_set. simpl.
    destruct (decide (y = t)) as [->|?].
    + rewrite lookup_alter_eq. destruct Hy' as [th E]. rewrite E. simpl. apply Hf.
    + by rewrite lookup_alter_ne.
  - intros x Hx Ex. by apply Hrun, H7.
  - intros Ex. by apply Hrun, H8.
  - intros ev l Ex. destruct (H9 ev l Ex) as (th & Eth & Es).
    assert (Hne : t ≠ tp_nrf24_irq) by (destruct Hn as [Hn|[Hn|[Hn|Hn]]]; [done|by rewrite Ex in Hn..]).
    exists th. split; [|done]. unfold a', a_ready, a_set. simpl. by rewrite !lookup_alter_ne.
  - intros th' (th & Ex & [[<- ->]|[_ ->]])%Hlk; [|by apply H10]. simpl.
    destruct (Hf th) as [_ ->]; [by apply H10|done].
  - done.
Qed.

(** [main] creates a thread. *)
Lemma threads_create a c x l :
  threads_inv a c → run_exists a → c !! tp_main = Some (ACreate x :: l) → tp_main ∈ a_run a →
  (ACreate x ∉ l) → x ∈ all_threads → x ≠ tp_main → x ≠ tp_idle → l ∈ positions tp_main →
  threads_inv (a_create x (thread_prio x) a) (<[tp_main := l]> (<[x := thread_prologue x]> c)).
Proof.
  intros Ht Hex Ec Hmr Hnin Hxall Hxm Hxi Hl. pose proof Ht as [H1 H2 H3 H4 H5 H6 H7 H8 H9 H10 H11].
  destruct H5 as (lm & Em & Hm). rewrite Ec in Em. injection Em as <-.
  assert (Hxn : c !! x = None) by (apply Hm; [done..|by left]).
  assert (Han : a_threads a !! x = None) by (by apply H2).
  set (th0 := mk_thread (thread_prio x) CH_STATE_READY 0 MSG_OK).
  assert (Hth : ∀ y, a_threads (a_create x (thread_prio x) a) !! y =
    if decide (y = x) then Some th0 else a_threads a !! y).
  { intros y. unfold a_create, a_ready, a_set. simpl. destruct (decide (y = x)) as [->|?].
    - by rewrite lookup_alter_eq, lookup_insert_eq.
    - by rewrite lookup_alter_ne, lookup_insert_ne. }
  assert (Hc : ∀ y, (<[tp_main := l]> (<[x := thread_prologue x]> c)) !! y =
    if decide (y = tp_main) then Some l else if decide (y = x) then Some (thread_prologue x) else c !! y).
  { intros y. destruct (decide (y = tp_main)) as [->|?]; [by rewrite lookup_insert_eq|].
    rewrite lookup_insert_ne by done. destruct (decide (y = x)) as [->|?]; [by rewrite lookup_insert_eq|].
    by rewrite lookup_insert_ne. }
  assert (Hrun : ∀ y, y ∈ a_run (a_create x (thread_prio x) a) ↔ y = x ∨ y ∈ a_run a).
  { intros y. unfold a_create. by rewrite a_ready_run, elem_of_cons. }
  split.
  - intros y th. rewrite Hth. destruct (decide (y = x)) as [->|?]; [by intros [= <-]; split_and!; [left|..]|].
    intros Ey. destruct (H1 _ _ Ey) as (? & ? & ?). by split_and!; [do 2 apply prio_ok_insert|..].
  - intros y. rewrite Hth, Hc. destruct (decide (y = tp_main)) as [->|?].
    + rewrite decide_False by done. rewrite <-H2, Ec. done.
    + destruct (decide (y = x)); [done|by apply H2].
  - intros y ly. rewrite Hc. destruct (decide (y = tp_main)) as [->|?]; [intros [= <-]; split; [by_decision|done]|].
    destruct (decide (y = x)) as [->|?]; [intros [= <-]|by apply H3]. split; [done|].
    unfold positions. rewrite elem_of_app. left. destruct (thread_prologue x); by left.
  - rewrite Hrun. by right.
  - exists l. rewrite Hc, decide_True by done. split; [done|]. intros y Hy Hym Hyi.
    rewrite Hc, decide_False by done. destruct (decide (y = x)) as [->|Hyx]; [split; [done|by intros]|].
    rewrite <-(Hm y) by done. rewrite elem_of_cons. split; [by right|].
    intros [[=]|?]; [by destruct Hyx|done].
  - intros l0. rewrite Hc, decide_True by done. intros [= <-] Hin.
    assert (Hlead : leads (a_run a)) by (apply (H6 _ Ec); by right).
    unfold a_create, a_ready. cbn [a_run]. apply leads_insert; [|done].
    intros y Hy. rewrite ready_prio. unfold a_prio. simpl. destruct (decide (y = x)) as [->|?].
    + by rewrite lookup_insert_eq.
    + rewrite lookup_insert_ne by done. apply elem_of_cons in Hy as [->|Hy]; [done|].
      apply (lead_prio a c _ y Ht Ec); [by right|by apply Hex].
  - intros y Hy. rewrite Hc, Hrun. destruct (decide (y = tp_main)) as [->|?]; [by right|].
    destruct (decide (y = x)) as [->|?]; [by left|]. right. by apply H7.
  - rewrite Hc, Hrun, decide_False by done. destruct (decide (tp_nrf24_irq = x)) as [<-|?]; [by left|].
    right. by apply H8.
  - intros ev lr. rewrite Hc, Hth, decide_False by done. destruct (decide (tp_nrf24_irq = x)) as [<-|?]; [done|].
    by apply H9.
  - intros th. rewrite Hth. destruct (decide _); [by intros [= <-]|by apply H10].
  - intros lr. rewrite Hc, decide_False by done. destruct (decide (tp_nrf24_irq = x)) as [<-|?]; [|by apply H11].
    intros [= <-]. by_decision.
Qed.

(** Signals to a thread other than the radio's. *)
Lemma threads_signal a c t evs :
  threads_inv a c → run_exists a → t ≠ tp_nrf24_irq →
  threads_inv (a_signal t evs a) c ∧ run_exists (a_signal t evs a).
Proof.
  intros Ht Hex Hne. set (f := λ th, with_epending (Z.lor (epending th) evs) th).
  assert (Hex' : ∀ g b, run_exists b → run_exists (a_set t g b)).
  { intros g b Hb x Hx. specialize (Hb x Hx). unfold a_set. simpl. destruct (decide (x = t)) as [->|?].
    - by rewrite lookup_alter_eq, fmap_is_Some.
    - by rewrite lookup_alter_ne. }
  unfold a_signal. fold f. destruct (a_threads (a_set t f a) !! t) as [th|] eqn:E.
  2:{ unfold a_set in E |- *. simpl in E. rewrite lookup_alter_eq, fmap_None in E.
      replace (alter f t (a_threads a)) with (a_threads a); [by destruct a|].
      apply map_eq. intros x. destruct (decide (x = t)) as [->|?]; [by rewrite lookup_alter_eq, E|by rewrite lookup_alter_ne]. }
  assert (Es : ∃ th0, a_threads a !! t = Some th0 ∧ th = f th0).
  { unfold a_set in E. simpl in E. rewrite lookup_alter_eq in E.
    apply fmap_Some in E as (th0 & E0 & ->). eauto. }
  destruct Es as (th0 & E0 & ->). destruct (event_wait_met (f th0)) eqn:Em.
  - assert (Hcomp : a_set t (with_u MSG_OK) (a_set t f a) = a_set t (λ th, with_u MSG_OK (f th)) a).
    { unfold a_set. simpl. f_equal. apply map_eq. intros x. destruct (decide (x = t)) as [->|?].
      - rewrite !lookup_alter_eq. by destruct (a_threads a !! t).
      - by rewrite !lookup_alter_ne. }
    rewrite Hcomp. split.
    + apply threads_ready; [done|done|by left|by eexists|]. intros ?. by split.
    + intros x. rewrite a_ready_run, elem_of_cons. intros Hx. unfold a_ready, a_set. simpl.
      destruct (decide (x = t)) as [->|?].
      * rewrite !lookup_alter_eq, E0. by eexists.
      * rewrite !lookup_alter_ne by done. apply Hex. by destruct Hx.
  - split; [|by apply Hex']. destruct Ht as [H1 H2 H3 H4 H5 H6 H7 H8 H9 H10 H11].
    assert (Hlk : ∀ x th', a_threads (a_set t f a) !! x = Some th' → ∃ th, a_threads a !! x = Some th ∧
      (x = t ∧ th' = f th ∨ x ≠ t ∧ th' = th)).
    { intros x th'. unfold a_set. simpl. destruct (decide (x = t)) as [->|?].
      - rewrite lookup_alter_eq. intros (th & E' & ->)%fmap_Some. eauto.
      - rewrite lookup_alter_ne by done. eauto. }
    split; try done.
    + intros x th' (th & Ex & [[-> ->]|[_ ->]])%Hlk; [|by apply H1]. rewrite E0 in Ex. injection Ex as <-.
      destruct (H1 t th0 E0) as (? & ? & ?). by split_and!.
    + intros x. rewrite H2. unfold a_set. simpl.
      destruct (decide (x = t)) as [->|?]; [by rewrite lookup_alter_eq, fmap_None|by rewrite lookup_alter_ne].
    + intros ev l Ex. destruct (H9 ev l Ex) as (th & Eth & Es). exists th. split; [|done].
      unfold a_set. simpl. by rewrite lookup_alter_ne.
    + intros th' (th & Ex & [[<- ->]|[_ ->]])%Hlk; [done|by apply H10].
Qed.

Lemma threads_notify m c ls : ∀ a,
  threads_inv a c → run_exists a →
  (∀ l e, l ∈ ls → m !! l = Some e → listener e ≠ tp_nrf24_irq) →
  threads_inv (a_notify 0 m ls a) c.
Proof.
  induction ls as [|l ls IH]; intros a Ht Hex Hne; [done|]. rewrite notify_cons.
  assert (Hn : ∀ l0 e, l0 ∈ ls → m !! l0 = Some e → listener e ≠ tp_nrf24_irq).
  { intros l0 e Hl0. apply Hne. by right. }
  destruct (m !! l) as [e|] eqn:E; [|by apply IH].
  destruct (threads_signal a c (listener e) (events e)) as [??]; [done|done|apply (Hne l e); [by left|done]|].
  by apply IH.
Qed.

(** ** The event sources, step by step *)

Definition nexts (a : action) (l : list action) : list (list action) :=
  l :: match a with
       | ACall => [ACall :: l] | AWait ev => [AResume ev :: l]
       | AReturn => [AReturn :: l] | AContinue => [[]] | _ => []
       end.
Definition is_object_action (a : action) : bool :=
  match a with AInit _ | ARegister _ _ _ => true | _ => false end.
Definition ds5_register (el : Z) : action := ARegister esDS5Ready el EVT_DS5_READY.

(** An action that touches no event object: what the thread has started and
    registered is the same before and after it. *)
Definition neutral (t : Z) (c n : list action) : Prop :=
  (ds5_register el_udp ∈ n ↔ ds5_register el_udp ∈ c) ∧
  (ds5_register el_tx ∈ n ↔ ds5_register el_tx ∈ c) ∧
  (t ∈ [tp_usb_host; tp_nrf24_tx] → c ≠ thread_prologue t ∧ n ≠ thread_prologue t).
#[export] Instance neutral_dec t c n : Decision (neutral t c n).
Proof. unfold neutral. apply _. Defined.
Definition neutral_at (t : Z) (c : list action) : Prop :=
  match fetch_code t c with
  | Some (a, l) => is_object_action a = true ∨ Forall (neutral t c) (nexts a l)
  | None => True
  end.
#[export] Instance neutral_at_dec t c : Decision (neutral_at t c).
Proof. unfold neutral_at. destruct (fetch_code t c) as [[a l]|]; apply _. Defined.
Lemma positions_neutral : Forall (λ t, Forall (neutral_at t) (positions t)) all_threads.
Proof. by_decision. Qed.

Lemma neutral_facts t c a l n :
  t ∈ all_threads → c ∈ positions t → fetch_code t c = Some (a, l) →
  is_object_action a = false → n ∈ nexts a l → neutral t c n.
Proof.
  intros Ht Hc E Ha Hn. pose proof positions_neutral as H. rewrite Forall_forall in H.
  specialize (H t Ht). rewrite Forall_forall in H. specialize (H c Hc).
  unfold neutral_at in H. rewrite E, Ha, Forall_forall in H. destruct H as [?|H]; [done|by apply H].
Qed.

Lemma started_insert c t l y :
  started (<[t := l]> c) y ↔ if decide (y = t) then l ≠ thread_prologue t else started c y.
Proof.
  unfold started. destruct (decide (y = t)) as [->|?].
  - rewrite lookup_insert_eq. split; [by intros (? & [= <-] & ?)|eauto].
  - by rewrite lookup_insert_ne.
Qed.
Lemma listens_insert c t l y el :
  listens (<[t := l]> c) y el ↔ if decide (y = t) then ds5_register el ∉ l else listens c y el.
Proof.
  unfold listens. destruct (decide (y = t)) as [->|?].
  - rewrite lookup_insert_eq. split; [by intros (? & [= <-] & ?)|eauto].
  - by rewrite lookup_insert_ne.
Qed.
Lemma started_lookup c t l : c !! t = Some l → started c t ↔ l ≠ thread_prologue t.
Proof. intros E. unfold started. rewrite E. split; [by intros (? & [= <-] & ?)|eauto]. Qed.
Lemma listens_lookup c t l el : c !! t = Some l → listens c t el ↔ ds5_register el ∉ l.
Proof. intros E. unfold listens. rewrite E. split; [by intros (? & [= <-] & ?)|eauto]. Qed.

(** Code changes that start and register nothing. *)
Lemma sources_same k k' c c' e :
  objects_kept k k' →
  (∀ y, y ∈ [tp_usb_host; tp_nrf24_tx] → started c' y ↔ started c y) →
  (listens c' tp_udp_server el_udp ↔ listens c tp_udp_server el_udp) →
  (listens c' tp_nrf24_tx el_tx ↔ listens c tp_nrf24_tx el_tx) →
  (started c tp_nrf24_tx → c' !! tp_nrf24_irq = c !! tp_nrf24_irq) →
  sources_inv k c e → sources_inv k' c' e.
Proof.
  intros [Hn Hl] Hst Hlu Hlt Hirq [H1 H2 H3 H4 H5 H6].
  assert (Hu : started c' tp_usb_host ↔ started c tp_usb_host) by (apply Hst; by left).
  assert (Ht : started c' tp_nrf24_tx ↔ started c tp_nrf24_tx) by (apply Hst; right; by left).
  split.
  - by rewrite Hn.
  - rewrite Ht. intros Hs. rewrite Hn, (Hirq Hs). by apply H2.
  - by rewrite Hn.
  - intros Hs%Hu. destruct (H4 Hs) as (ls & Hreg & Hrest). exists ls.
    rewrite Hl, Hlu, Hlt. split; [|done]. unfold registered. by rewrite Hn, Hl.
  - intros Hs. rewrite Hlu, Hlt. apply H5. by rewrite <-Hu.
  - intros es Hes. rewrite Hu, Ht. by apply H6.
Qed.

Lemma sources_go_on k k' c e t l a r n :
  objects_kept k k' → sources_inv k c e → c !! t = Some l → t ∈ all_threads → l ∈ positions t →
  fetch_code t l = Some (a, r) → is_object_action a = false → n ∈ nexts a r →
  (started c tp_nrf24_tx → t ≠ tp_nrf24_irq) →
  sources_inv k' (<[t := n]> c) e.
Proof.
  intros Ho Hs E Ht Hl Ef Ha Hn Hirq. pose proof (neutral_facts t l a r n Ht Hl Ef Ha Hn) as (Nu & Nt & Np).
  eapply sources_same; [exact Ho| | | | |exact Hs].
  - intros y Hy. rewrite started_insert. destruct (decide (y = t)) as [->|?]; [|done].
    rewrite (started_lookup c t l E). destruct (Np Hy). tauto.
  - rewrite listens_insert. destruct (decide _) as [<-|?]; [|done].
    rewrite (listens_lookup c _ l _ E). by rewrite Nu.
  - rewrite listens_insert. destruct (decide _) as [<-|?]; [|done].
    rewrite (listens_lookup c _ l _ E). by rewrite Nt.
  - intros Htx. rewrite lookup_insert_ne; [done|by apply Hirq].
Qed.

Lemma sources_create k k' c e x l :
  objects_kept k k' → sources_inv k c e → c !! x = None → x ≠ tp_main →
  sources_inv k' (<[tp_main := l]> (<[x := thread_prologue x]> c)) e.
Proof.
  intros Ho Hs Ex Hxm. eapply sources_same; [exact Ho| | | | |exact Hs].
  - intros y Hy. rewrite started_insert. rewrite decide_False.
    2:{ intros ->. rewrite !elem_of_cons, elem_of_nil in Hy. by destruct Hy as [?|[?|?]]. }
    rewrite started_insert. destruct (decide (y = x)) as [->|?]; [|done].
    split; [done|]. intros (? & E & _). congruence.
  - rewrite listens_insert, decide_False, listens_insert by done.
    destruct (decide _) as [<-|?]; [|done]. split; [|by intros (? & ? & _); congruence].
    intros []. by_decision.
  - rewrite listens_insert, decide_False, listens_insert by done.
    destruct (decide _) as [<-|?]; [|done]. split; [|by intros (? & ? & _); congruence].
    intros []. by_decision.
  - intros Htx. rewrite lookup_insert_ne by done. destruct (decide (x = tp_nrf24_irq)) as [->|?].
    + destruct (s_nrf_started _ _ _ Hs Htx) as [_ ?]. congruence.
    + by rewrite lookup_insert_ne.
Qed.

Lemma sources_enable k c e es :
  sources_inv k c e →
  (es = esDS5Ready ∧ started c tp_usb_host) ∨ (es = esNRF24Interrupt ∧ started c tp_nrf24_tx) →
  sources_inv k c ({[ es ]} ∪ e).
Proof.
  intros [H1 H2 H3 H4 H5 H6] Hes. split; try done.
  intros x. rewrite elem_of_union, elem_of_singleton. intros [->|?]; [done|by apply H6].
Qed.

(** The USB host thread initialises the controller's event source. *)
Lemma sources_init_ds5 k k' c e l r :
  sources_inv k c e → c !! tp_usb_host = Some l → l = thread_prologue tp_usb_host →
  r ≠ thread_prologue tp_usb_host →
  registered k' esDS5Ready [] → next k' = <[esDS5Ready := esDS5Ready]> (next k) →
  sources_inv k' (<[tp_usb_host := r]> c) e.
Proof.
  intros [H1 H2 H3 H4 H5 H6] E -> Hr Hreg Hn.
  assert (Hns : ¬ started c tp_usb_host) by (rewrite (started_lookup c _ _ E); tauto).
  destruct (H5 Hns) as [Hu Ht].
  assert (Hother : ∀ y, y ≠ tp_usb_host → started (<[tp_usb_host := r]> c) y ↔ started c y).
  { intros y Hy. by rewrite started_insert, decide_False. }
  assert (Hus : started (<[tp_usb_host := r]> c) tp_usb_host) by (by rewrite started_insert, decide_True).
  split.
  - by rewrite Hn, lookup_insert_ne.
  - rewrite Hother by done. rewrite Hn, !lookup_insert_ne by done. apply H2.
  - rewrite Hn, lookup_insert_eq. by eexists.
  - intros _. exists []. split_and!; [done| | | | |]; try (by intros ? []%not_elem_of_nil);
      try (by intros []%not_elem_of_nil).
    + rewrite listens_insert, decide_False by done. split; [intros []%not_elem_of_nil|done].
    + rewrite listens_insert, decide_False by done. split; [intros []%not_elem_of_nil|done].
  - done.
  - intros es Hes. rewrite (Hother tp_nrf24_tx) by done. destruct (H6 es Hes) as [[_ ?]|?]; [done|by right].
Qed.

(** A change of a [next] word off the controller's list leaves the list alone. *)
Lemma registered_off k k' ls a b :
  registered k esDS5Ready ls → (∀ l, l ∈ ls → l = el_udp ∨ l = el_tx) →
  a ≠ esDS5Ready → a ≠ el_udp → a ≠ el_tx → next k' = <[a := b]> (next k) →
  (∀ l, l ∈ ls → is_Some (listeners k' !! l)) → registered k' esDS5Ready ls.
Proof.
  intros (Hc & Hnd & Hl) Hls H1 H2 H3 Hn Hl'. split_and!; [|done|done]. rewrite Hn.
  apply chain_insert; [|done]. rewrite elem_of_cons. intros [?|Hin]; [done|]. by destruct (Hls a Hin).
Qed.

(** The transmitter thread initialises the radio's event source: from here on it
    has no listener. *)
Lemma sources_init_nrf k k' c e l r :
  sources_inv k c e → c !! tp_nrf24_tx = Some l → l = thread_prologue tp_nrf24_tx →
  r = tail l → c !! tp_nrf24_irq = Some [AResume EVT_NRF24_INTERRUPT; ACall] →
  listeners k' = listeners k → next k' = <[esNRF24Interrupt := esNRF24Interrupt]> (next k) →
  sources_inv k' (<[tp_nrf24_tx := r]> c) e.
Proof.
  intros [H1 H2 H3 H4 H5 H6] E -> -> Hirq Hl Hn. set (r := tail _).
  assert (Hu : started (<[tp_nrf24_tx := r]> c) tp_usb_host ↔ started c tp_usb_host).
  { by rewrite started_insert, decide_False. }
  assert (Hlu : listens (<[tp_nrf24_tx := r]> c) tp_udp_server el_udp ↔ listens c tp_udp_server el_udp).
  { by rewrite listens_insert, decide_False. }
  assert (Hlt : listens (<[tp_nrf24_tx := r]> c) tp_nrf24_tx el_tx ↔ listens c tp_nrf24_tx el_tx).
  { rewrite listens_insert, decide_True, (listens_lookup c _ _ _ E) by done.
    split; intros []; by_decision. }
  assert (Ht : started (<[tp_nrf24_tx := r]> c) tp_nrf24_tx).
  { by rewrite started_insert, decide_True. }
  split.
  - rewrite Hn, lookup_insert_eq. by eexists.
  - intros _. by rewrite Hn, lookup_insert_eq, lookup_insert_ne.
  - by rewrite Hn, lookup_insert_ne.
  - intros Hs%Hu. destruct (H4 Hs) as (ls & Hreg & Hls & Hrest). exists ls.
    rewrite Hlu, Hlt, Hl. split; [|done]. eapply registered_off; [done|done|..|exact Hn|]; try done.
    intros x Hx. rewrite Hl. by apply Hreg.
  - intros Hs. rewrite Hlu, Hlt. apply H5. by rewrite <-Hu.
  - intros es Hes. rewrite Hu. destruct (H6 es Hes) as [?|[? _]]; [by left|right; by split].
Qed.

(** A consumer registers on the controller's event source. *)
Lemma sources_register_ds5 k k' c e t el ls r n :
  sources_inv k c e → c !! t = Some (ds5_register el :: r) → (ds5_register el ∉ r) →
  (t = tp_udp_server ∧ el = el_udp ∨ t = tp_nrf24_tx ∧ el = el_tx) →
  started c tp_usb_host →
  (t = tp_nrf24_tx → started c t ∧ started (<[t := r]> c) t) →
  registered k esDS5Ready ls → (∀ l, l ∈ ls → l = el_udp ∨ l = el_tx) →
  registered k' esDS5Ready (el :: ls) →
  listeners k' = <[el := ds5_listener t]> (listeners k) →
  next k' = <[esDS5Ready := el]> (<[el := n]> (next k)) →
  (el_udp ∈ ls ↔ listens c tp_udp_server el_udp) → (el_tx ∈ ls ↔ listens c tp_nrf24_tx el_tx) →
  (el_udp ∈ ls → listeners k !! el_udp = Some (ds5_listener tp_udp_server)) →
  (el_tx ∈ ls → listeners k !! el_tx = Some (ds5_listener tp_nrf24_tx)) →
  sources_inv k' (<[t := r]> c) e.
Proof.
  intros [H1 H2 H3 H4 H5 H6] E Hnr Hte Hus Hst Hreg Hls Hreg' Hl Hn Hu Ht Hlu Hlt.
  assert (Hstart : ∀ y, y = tp_usb_host ∨ y = tp_nrf24_tx → started (<[t := r]> c) y ↔ started c y).
  { intros y Hy. destruct (decide (y = t)) as [->|Hne].
    - destruct Hst; [by destruct Hte as [[-> _]|[-> _]], Hy|done].
    - by rewrite started_insert, decide_False. }
  assert (Hirq : t ≠ tp_nrf24_irq) by (by destruct Hte as [[-> _]|[-> _]]).
  assert (Hnel : el ≠ esDS5Ready ∧ el ≠ esNRF24Interrupt) by (by destruct Hte as [[_ ->]|[_ ->]]).
  assert (Hnin : el ∉ ls).
  { intros Hin. destruct Hte as [[-> ->]|[-> ->]].
    - apply Hu in Hin. rewrite (listens_lookup c _ _ _ E) in Hin. apply Hin. by left.
    - apply Ht in Hin. rewrite (listens_lookup c _ _ _ E) in Hin. apply Hin. by left. }
  split.
  - rewrite Hn, !lookup_insert_ne; [done|tauto|done].
  - rewrite Hstart by auto. intros Hs. rewrite Hn, !lookup_insert_ne; [by apply H2|done|tauto|done].
  - rewrite Hn, lookup_insert_eq. by eexists.
  - intros _. exists (el :: ls). split_and!; [done| | | | |].
    + intros l. rewrite elem_of_cons. intros [->|?]; [|by apply Hls]. destruct Hte as [[_ ->]|[_ ->]]; tauto.
    + rewrite elem_of_cons, listens_insert. destruct Hte as [[-> ->]|[-> ->]].
      * rewrite decide_True by done. tauto.
      * rewrite decide_False by done. rewrite <-Hu. split; [by intros [?|?]|by right].
    + rewrite elem_of_cons, listens_insert. destruct Hte as [[-> ->]|[-> ->]].
      * rewrite decide_False by done. rewrite <-Ht. split; [by intros [?|?]|by right].
      * rewrite decide_True by done. tauto.
    + rewrite elem_of_cons, Hl. destruct Hte as [[-> ->]|[-> ->]]; [by rewrite lookup_insert_eq|].
      intros [?|?]; [done|]. rewrite lookup_insert_ne by done. by apply Hlu.
    + rewrite elem_of_cons, Hl. destruct Hte as [[-> ->]|[-> ->]]; [|by rewrite lookup_insert_eq].
      intros [?|?]; [done|]. rewrite lookup_insert_ne by done. by apply Hlt.
  - intros []. rewrite Hstart by auto. done.
  - intros es Hes. rewrite !Hstart by auto. by apply H6.
Qed.

(** The interrupt thread registers on the radio's event source, whatever that
    holds: the transmitter thread has not run yet. *)
Lemma sources_register_nrf k k' c e l r n :
  sources_inv k c e → c !! tp_nrf24_irq = Some l → ¬ started c tp_nrf24_tx →
  (∀ x, x ≠ nrf24_interrupt_listener → listeners k' !! x = listeners k !! x) →
  next k' = <[esNRF24Interrupt := nrf24_interrupt_listener]> (<[nrf24_interrupt_listener := n]> (next k)) →
  sources_inv k' (<[tp_nrf24_irq := r]> c) e.
Proof.
  intros [H1 H2 H3 H4 H5 H6] E Htx Hl Hn.
  assert (Hst : ∀ y, y ≠ tp_nrf24_irq → started (<[tp_nrf24_irq := r]> c) y ↔ started c y).
  { intros y Hy. by rewrite started_insert, decide_False. }
  assert (Hli : ∀ y el, y ≠ tp_nrf24_irq → listens (<[tp_nrf24_irq := r]> c) y el ↔ listens c y el).
  { intros y el Hy. by rewrite listens_insert, decide_False. }
  split.
  - rewrite Hn, lookup_insert_eq. by eexists.
  - by rewrite Hst.
  - by rewrite Hn, !lookup_insert_ne.
  - intros Hs. rewrite Hst in Hs by done. destruct (H4 Hs) as (ls & Hreg & Hls & Hrest). exists ls.
    rewrite !Hli, !Hl by done. split; [|done].
    eapply (registered_off (mk_kernel (<[nrf24_interrupt_listener := n]> (next k)) (listeners k')
      (threads k) (rlist k) (currthread k))); [|done|..|exact Hn|]; try done.
    + eapply registered_off; [exact Hreg|done|..|reflexivity|]; try done.
      intros x Hx. cbn [listeners]. rewrite Hl; [by apply Hreg|]. by destruct (Hls x Hx) as [->| ->].
    + intros x Hx. rewrite Hl; [by apply Hreg|]. by destruct (Hls x Hx) as [->| ->].
  - intros Hs. rewrite !Hli by done. apply H5. by rewrite <-Hst.
  - intros es Hes. rewrite !Hst by done. by apply H6.
Qed.
