(* ===== verification/AppMutex.v ===== *)
(** * The mutex of the UDP destination

    What holds of the mutex in every reachable state of [AppThreads.v]: who is
    between its lock and its unlock owns it or waits for it, its owner can run, and
    before the network thread has initialised it only the shell uses it. *)
From S2P Require Import Prelude ChKernel ChSched ChEvents ChMutex ChMutexFacts ChMutexOps AppThreads AppFacts.

(** Thread [t] is between a lock and its unlock. *)
Definition unlocking_at (c : gmap Z (list action)) (t : Z) : Prop := ∃ l, c !! t = Some l ∧ unlocking l.
(** The network thread is past the initialisation. *)
Definition dest_ready (c : gmap Z (list action)) : Prop :=
  ∃ l, c !! tp_udp_server = Some l ∧ AMtxInit udp_dest_mutex ∉ l.

Record dest_inv (m : mkernel) (c : gmap Z (list action)) (i : gset Z) : Prop := mk_dinv {
  d_inv : mtx_inv nothing nothing m;
  d_real : ∀ t, is_Some (vths m !! t) → realprio m !! t = Some (thread_prio t);
  d_only : ∃ x, mutexes m = {[ udp_dest_mutex := x ]};
  d_owner : ∀ t, t ≠ 0 → owns (mutexes m) t udp_dest_mutex → unlocking_at c t ∧ t ∈ runq (ChMutex.kern m);
  d_unlock : ∀ t, unlocking_at c t → owns (mutexes m) t udp_dest_mutex ∨ waits (vths m) t udp_dest_mutex;
  d_waits : ∀ t mp, waits (vths m) t mp → unlocking_at c t;
  d_user : ∀ t, unlocking_at c t → t = tp_udp_server ∧ dest_ready c ∨ t = tp_shell;
  d_early : udp_dest_mutex ∉ i → ∀ t, owns (mutexes m) t udp_dest_mutex → t = 0 ∨ t = tp_shell;
  d_ready : udp_dest_mutex ∈ i ↔ dest_ready c }.

Lemma unlocking_insert c t l x :
  unlocking_at (<[t := l]> c) x ↔ if decide (x = t) then unlocking l else unlocking_at c x.
Proof.
  unfold unlocking_at. destruct (decide (x = t)) as [->|?].
  - rewrite lookup_insert_eq. split; [by intros (? & [= <-] & ?)|eauto].
  - by rewrite lookup_insert_ne.
Qed.
Lemma unlocking_lookup c t l : c !! t = Some l → unlocking_at c t ↔ unlocking l.
Proof. intros E. unfold unlocking_at. rewrite E. split; [by intros (? & [= <-] & ?)|eauto]. Qed.
Lemma ready_insert c t l :
  dest_ready (<[t := l]> c) ↔ if decide (t = tp_udp_server) then AMtxInit udp_dest_mutex ∉ l else dest_ready c.
Proof.
  unfold dest_ready. destruct (decide (t = tp_udp_server)) as [->|?].
  - rewrite lookup_insert_eq. split; [by intros (? & [= <-] & ?)|eauto].
  - by rewrite lookup_insert_ne.
Qed.
Lemma ready_lookup c l : c !! tp_udp_server = Some l → dest_ready c ↔ AMtxInit udp_dest_mutex ∉ l.
Proof. intros E. unfold dest_ready. rewrite E. split; [by intros (? & [= <-] & ?)|eauto]. Qed.

Lemma udp_not_shell t : t = tp_udp_server → t = tp_shell → False.
Proof. by intros ->. Qed.

Section facts.
Context (m : mkernel) (c : gmap Z (list action)) (i : gset Z) (Hd : dest_inv m c i).
#[local] Abbreviation ms := (mutexes m).
#[local] Abbreviation k := (ChMutex.kern m).

Lemma dest_ok : mtx_ok (vths m) ms (realprio m) (mtxlist m) nothing nothing.
Proof using Hd. apply (d_inv _ _ _ Hd). Qed.
Lemma dest_sched : sched_inv k.
Proof using Hd. apply (d_inv _ _ _ Hd). Qed.
Lemma dest_mutex : ∃ x, ms = {[ udp_dest_mutex := x ]} ∧ ms !! udp_dest_mutex = Some x ∧
  ∀ t, owns ms t udp_dest_mutex ↔ owner x = t.
Proof using Hd.
  destruct (d_only _ _ _ Hd) as [x E]. exists x. assert (ms !! udp_dest_mutex = Some x) as Ex by (rewrite E; apply lookup_singleton_eq).
  split_and!; [done|done|]. intros t. split; [intros (? & ? & ?); by simplify_eq|by exists x].
Qed.
Lemma waits_dest t mp : waits (vths m) t mp → mp = udp_dest_mutex.
Proof using Hd.
  intros Hw. destruct (ok_waited _ _ _ _ _ _ dest_ok t mp Hw) as [x E]. destruct (d_only _ _ _ Hd) as [y Ey].
  rewrite Ey in E. by apply lookup_singleton_Some in E as [? _].
Qed.
Lemma waits_not_run t mp : waits (vths m) t mp → t ∉ runq k.
Proof using Hd.
  intros (th & E & Hs & _) (th' & E' & Hs')%runq_spec; [|apply dest_sched]. unfold vths in *. simplify_eq. congruence.
Qed.

(** Who does not own the mutex has its own priority. *)
Lemma own_prio t th : vths m !! t = Some th → ¬ owns ms t udp_dest_mutex → prio th = thread_prio t.
Proof using Hd.
  intros E Hn. destruct (ok_real _ _ _ _ _ _ dest_ok t th E) as (r & Hr & _ & Hc).
  rewrite (d_real _ _ _ Hd) in Hr by (by eexists). injection Hr as <-.
  destruct Hc as [?|[(w & mp & Hw & Ho & _)|[]]]; [done|]. by rewrite (waits_dest _ _ Hw) in Ho.
Qed.

(** Nobody but the shell makes the network thread more urgent, and nobody any
    other thread. *)
Lemma dest_prio t th : vths m !! t = Some th → prio_ok c t (prio th).
Proof using Hd.
  intros E. destruct (dest_mutex) as (x & Ems & Ex & Hown).
  assert (∀ t th, vths m !! t = Some th → thread_prio t <= prio th ∧ (prio th = thread_prio t ∨
    ∃ w, owner x = t ∧ unlocking_at c t ∧ waits (vths m) w udp_dest_mutex ∧ tprio (vths m) w = prio th)) as Hp.
  { clear t th E. intros t th E. destruct (ok_real _ _ _ _ _ _ dest_ok t th E) as (r & Hr & Hle & Hc).
    rewrite (d_real _ _ _ Hd) in Hr by (by eexists). injection Hr as <-. split; [lia|].
    destruct Hc as [?|[(w & mp & Hw & Ho & Hpw)|[]]]; [by left|right]. exists w.
    pose proof (waits_dest _ _ Hw) as ->. pose proof (proj1 (Hown t) Ho) as Hox. split_and!; try done.
    apply (d_owner _ _ _ Hd); [|done]. eapply ok_thread; [apply dest_ok|by eexists]. }
  destruct (Hp t th E) as [Hle [?|(w & Ho & Hu & Hw & Hpw)]]; [by left|].
  assert (w ≠ t) as Hne.
  { intros ->. apply (waits_not_run _ _ Hw), (d_owner _ _ _ Hd); [|by apply Hown].
    eapply ok_thread; [apply dest_ok|by eexists]. }
  pose proof Hw as (thw & Ew & _ & _). pose proof (d_waits _ _ _ Hd _ _ Hw) as Huw.
  destruct (Hp w thw Ew) as [_ [Hpw'|(? & Ho' & _)]]; [|congruence].
  unfold tprio in Hpw. rewrite Ew in Hpw. rewrite <-Hpw, Hpw' in *.
  assert (is_Some (c !! w)) as Hcw by (destruct Huw as (l & El & _); by eexists).
  destruct (d_user _ _ _ Hd _ Hu) as [[Et _]|Et], (d_user _ _ _ Hd _ Huw) as [[Ew' _]|Ew'].
  - by rewrite Et, Ew' in Hne.
  - right. by rewrite Ew' in Hcw |- *.
  - exfalso. rewrite Et, Ew' in Hle. by vm_compute in Hle.
  - by rewrite Et, Ew' in Hne.
Qed.

(** A step of the kernel that leaves the mutex alone. *)
Lemma dest_frame k' c' i' :
  sched_inv k' → settled k' → undisturbed (vths m) (a_threads (abs k')) →
  (∀ t, unlocking_at c' t ↔ unlocking_at c t) → (dest_ready c' ↔ dest_ready c) →
  (∀ t, unlocking_at c t → t ∈ runq k → t ∈ runq k') →
  (udp_dest_mutex ∈ i' ↔ udp_dest_mutex ∈ i) →
  dest_inv (with_kern k' m) c' i'.
Proof using Hd.
  intros Hk Hs Hun Hu Hr Hrun Hi.
  set (m' := with_kern k' m). change (a_threads (abs k')) with (vths m') in Hun.
  assert (∀ t mp, waits (vths m') t mp ↔ waits (vths m) t mp) as Hw.
  { intros t mp. unfold waits. destruct (Hun t) as [th th' (_ & _ & Hx)|]; [|naive_solver].
    specialize (Hx mp). split; intros (? & [= <-] & ?); eexists; (split; [done|]); tauto. }
  assert (∀ t, is_Some (vths m' !! t) → is_Some (vths m !! t)) as Hdom.
  { intros t. by destruct (Hun t); rewrite ?is_Some_alt. }
  destruct Hd as [H1 H2 H3 H4 H5 H6 H7 H8 H9]. split; cbn [mutexes realprio with_kern ChMutex.kern].
  - destruct H1 as (_ & _ & Ho). split_and!; [done|done|]. by eapply ok_env.
  - intros t Ht%Hdom. by apply H2.
  - done.
  - intros t Ht Ho. destruct (H4 t Ht Ho) as [??]. split; [by apply Hu|by apply Hrun].
  - intros t. rewrite Hu, Hw. apply H5.
  - intros t mp. rewrite Hw, Hu. apply H6.
  - intros t. rewrite Hu, Hr. apply H7.
  - rewrite Hi. apply H8.
  - by rewrite Hi, Hr.
Qed.

(** [main] creates a thread. *)
Lemma dest_create k' c' x :
  sched_inv k' → settled k' → abs k' = a_create x (thread_prio x) (abs k) →
  a_threads (abs k) !! x = None → x ≠ 0 → 0 < thread_prio x →
  (∀ t, unlocking_at c' t ↔ unlocking_at c t) → (dest_ready c' ↔ dest_ready c) →
  dest_inv (mk_mk k' ms (<[x := thread_prio x]> (realprio m)) (<[x := 0]> (mtxlist m))) c' i.
Proof using Hd.
  intros Hk Hs Ha Ex Hx0 Hp Hu Hr.
  set (m' := mk_mk k' ms (<[x := thread_prio x]> (realprio m)) (<[x := 0]> (mtxlist m))).
  set (thx := mk_thread (thread_prio x) CH_STATE_READY 0 MSG_OK).
  assert (∀ y, vths m' !! y = if decide (y = x) then Some thx else vths m !! y) as Hv.
  { intros y. unfold vths, m'. cbn [ChMutex.kern]. rewrite Ha. unfold a_create, a_ready, a_set. cbn [a_threads].
    destruct (decide (y = x)) as [->|?]; [by rewrite lookup_alter_eq, lookup_insert_eq|by rewrite lookup_alter_ne, lookup_insert_ne]. }
  assert (∀ y, y ∈ runq k → y ∈ runq k') as Hrun.
  { intros y Hy. change (runq k') with (a_run (abs k')). rewrite Ha. unfold a_create. rewrite a_ready_run. by right. }
  assert (∀ y mp, waits (vths m') y mp ↔ waits (vths m) y mp) as Hw.
  { intros y mp. unfold waits. rewrite Hv. destruct (decide (y = x)) as [->|]; [|done].
    change (a_threads (abs k)) with (vths m) in Ex. rewrite Ex. split; [by intros (? & [= <-] & ? & _)|by intros (? & ? & _)]. }
  destruct Hd as [H1 H2 H3 H4 H5 H6 H7 H8 H9]. split; unfold m'; cbn [mutexes realprio ChMutex.kern].
  - destruct H1 as (_ & _ & Ho). split_and!; [done|done|]. change (thread_prio x) with (prio thx).
    eapply (ok_create _ _ _ _ (vths m') x thx); try done.
    + by rewrite Hv, decide_True.
    + intros y Hy. by rewrite Hv, decide_False.
  - intros y. change (vths (mk_mk k' _ _ _)) with (vths m'). rewrite Hv. destruct (decide (y = x)) as [->|].
    + by rewrite lookup_insert_eq.
    + rewrite lookup_insert_ne by done. apply H2.
  - done.
  - intros y Hy Ho. destruct (H4 y Hy Ho) as [??]. split; [by apply Hu|by apply Hrun].
  - intros y. change (vths (mk_mk k' _ _ _)) with (vths m'). rewrite Hu, Hw. apply H5.
  - intros y mp. change (vths (mk_mk k' _ _ _)) with (vths m'). rewrite Hw, Hu. apply H6.
  - intros y. rewrite Hu, Hr. apply H7.
  - done.
  - by rewrite Hr.
Qed.
End facts.

(** ** The other threads *)

(** A mutex call by [t]: it may put [t] to sleep and make a waiter ready. *)
Definition mtx_change (t : Z) (a a' : akernel) : Prop :=
  ∀ x, option_Forall2 (λ th th', epending th' = epending th ∧
    (state th' = state th ∧ u th' = u th ∨ state th' = CH_STATE_WTMTX ∧ x = t ∨
     state th' = CH_STATE_READY ∧ state th = CH_STATE_WTMTX)) (a_threads a !! x) (a_threads a' !! x).
Lemma mtx_change_refl t a : mtx_change t a a.
Proof. intros x. destruct (a_threads a !! x); constructor. split; [done|by left]. Qed.
Definition run_ready (a : akernel) : Prop :=
  ∀ x, x ∈ a_run a ↔ ∃ th, a_threads a !! x = Some th ∧ state th = CH_STATE_READY.
Lemma run_ready_abs k : sched_inv k → run_ready (abs k).
Proof. intros Hi x. by apply runq_spec. Qed.

Lemma met_same th th' :
  event_wait_met th = false → epending th' = epending th →
  state th' = state th ∧ u th' = u th ∨ state th' = CH_STATE_WTMTX ∨ state th' = CH_STATE_READY →
  event_wait_met th' = false.
Proof.
  intros Hm He [[Hs Hu]|Hs].
  - unfold event_wait_met in *. by rewrite Hs, Hu, He.
  - unfold event_wait_met. destruct Hs as [-> | ->]; by rewrite !bool_decide_eq_false_2 by (by intros [? _]).
Qed.

Lemma threads_mutex a a' c t l l' :
  threads_inv a c → c !! t = Some l → (t = tp_udp_server ∨ t = tp_shell) → l' ∈ positions t →
  mtx_change t a a' → run_ready a → run_ready a' → (a_run a' = a_run a ∨ is_Some (c !! tp_shell)) →
  (∀ x th, a_threads a' !! x = Some th → prio_ok (<[t := l']> c) x (prio th)) →
  threads_inv a' (<[t := l']> c).
Proof.
  intros Ht E Htu Hpos Hch Hra Hra' Hlead Hprio. pose proof Ht as [H1 H2 H3 H4 H5 H6 H7 H8 H9 H10 H11].
  assert (Hne : ∀ x, x ∈ [tp_idle; tp_main; tp_usb_host; tp_nrf24_irq] → t ≠ x).
  { intros x Hx ->. rewrite !elem_of_cons, elem_of_nil in Hx. by destruct Htu as [-> | ->], Hx as [?|[?|[?|[?|[]]]]]. }
  assert (Hlk : ∀ x th', a_threads a' !! x = Some th' → ∃ th, a_threads a !! x = Some th ∧ epending th' = epending th ∧
    (state th' = state th ∧ u th' = u th ∨ state th' = CH_STATE_WTMTX ∧ x = t ∨
     state th' = CH_STATE_READY ∧ state th = CH_STATE_WTMTX)).
  { intros x th' Ex. specialize (Hch x). rewrite Ex in Hch. inversion Hch as [th ? [??] Eth|]; subst. by exists th. }
  assert (Hrun : ∀ x, x ∈ a_run a → x ≠ t → x ∈ a_run a').
  { intros x (th & Ex & Es)%Hra Hx. apply Hra'. specialize (Hch x). rewrite Ex in Hch. inversion Hch as [? th' [_ Hc] Ea Eb|].
    exists th'. subst. split; [done|]. destruct Hc as [[-> _]|[[_ ?]|[_ Hc]]]; [done..|congruence]. }
  split.
  - intros x th' Ex. destruct (Hlk x th' Ex) as (th & Eth & He & Hs). destruct (H1 x th Eth) as (_ & Hm & Hu).
    split_and!; [by apply Hprio|eapply met_same; [done|done|]; tauto|]. intros Hw.
    destruct Hs as [[Hs ->]|[[Hs _]|[Hs _]]]; [apply Hu|..]; congruence.
  - intros x. rewrite (code_insert_none c t l), H2 by done. by destruct (Hch x).
  - intros x lx. rewrite lookup_insert_Some. intros [[<- <-]|[_ Ex]]; [|by apply H3]. split; [by apply (H3 t l)|done].
  - apply Hrun; [done|]. apply not_eq_sym, Hne. by left.
  - destruct H5 as (lm & Em & Hm). exists lm. rewrite lookup_insert_ne by (apply Hne; right; by left). split; [done|].
    intros x ???. rewrite (code_insert_none c t l) by done. by apply Hm.
  - intros lm. rewrite lookup_insert_ne by (apply Hne; right; by left). intros Em Hin.
    destruct Hlead as [->|Hs]; [by apply (H6 lm)|]. exfalso. destruct H5 as (lm' & Em' & Hm). assert (lm' = lm) as -> by congruence.
    destruct (H3 _ _ Em) as [_ Hp]. pose proof creates_shell_last as Hc. rewrite Forall_forall in Hc. specialize (Hc _ Hp Hin).
    apply Hm in Hc; [|by_decision|done..]. rewrite Hc in Hs. by destruct Hs.
  - intros x Hx. assert (t ≠ x) as Hxt by (apply Hne; set_solver). rewrite lookup_insert_ne by done. intros Ex. by apply Hrun; [apply H7|apply not_eq_sym].
  - assert (t ≠ tp_nrf24_irq) as Hxt by (apply Hne; do 3 right; by left). rewrite lookup_insert_ne by done. intros Ex. by apply Hrun; [apply H8|apply not_eq_sym].
  - assert (t ≠ tp_nrf24_irq) as Hxt by (apply Hne; do 3 right; by left). intros ev lr. rewrite lookup_insert_ne by done. intros Ex.
    destruct (H9 ev lr Ex) as (th & Eth & Es). pose proof (Hch tp_nrf24_irq) as Hc. rewrite Eth in Hc.
    inversion Hc as [? th' [_ Hc'] Ea Eb|]; subst. exists th'. split; [done|].
    destruct Hc' as [[-> _]|[[_ ?]|[_ Hc']]]; [done..|congruence].
  - intros th' Ex. destruct (Hlk _ th' Ex) as (th & Eth & -> & _). by apply H10.
  - assert (t ≠ tp_nrf24_irq) as Hxt by (apply Hne; do 3 right; by left). intros lx. rewrite lookup_insert_ne by done. by apply H11.
Qed.

(** ** The mutex calls *)

Section calls.
Context (m : mkernel) (c : gmap Z (list action)) (i : gset Z) (Hd : dest_inv m c i).
Let t := currthread (ChMutex.kern m).
Context (x : mutex_t) (Ex : mutexes m !! udp_dest_mutex = Some x).
#[local] Abbreviation k := (ChMutex.kern m).

Lemma dest_owns y : owns (mutexes m) y udp_dest_mutex ↔ owner x = y.
Proof using Ex. split; [intros (? & ? & ?); by simplify_eq|by exists x]. Qed.
Lemma dest_singleton y : <[udp_dest_mutex := y]> (mutexes m) = {[ udp_dest_mutex := y ]}.
Proof using Hd. destruct (d_only _ _ _ Hd) as [z ->]. apply insert_singleton_eq. Qed.
Lemma current_real : t ≠ 0 ∧ is_Some (vths m !! t).
Proof using Hd.
  destruct (current_vths m (dest_sched _ _ _ Hd)) as (th & E & _). split; [|by eexists].
  eapply ok_thread; [apply (dest_ok _ _ _ Hd)|by eexists].
Qed.
Lemma current_run : t ∈ runq k.
Proof using Hd. rewrite settled_runq by apply (d_inv _ _ _ Hd). by left. Qed.
Lemma current_list_dest : owner x = t → owned_list (mutexes m) (mtxlist m) t [udp_dest_mutex].
Proof using Hd Ex.
  intros Ho. destruct current_real as [_ Ht].
  destruct (ok_lists _ _ _ _ _ _ (dest_ok _ _ _ Hd) t Ht) as (l & p & Hp & Hc & Hn & Hl).
  assert (l = [udp_dest_mutex]) as ->; [|by exists p].
  assert (∀ y, y ∈ l ↔ y = udp_dest_mutex) as Hy.
  { intros y. rewrite Hl. split.
    - intros (z & Ez & _). destruct (d_only _ _ _ Hd) as [w Ew]. rewrite Ew in Ez. by apply lookup_singleton_Some in Ez as [? _].
    - intros ->. by exists x. }
  destruct l as [|y [|z l]].
  - exfalso. apply (not_elem_of_nil udp_dest_mutex). by apply Hy.
  - f_equal. apply Hy. by left.
  - exfalso. apply NoDup_cons in Hn as [Hn _]. assert (y = z) as ->; [|apply Hn; by left].
    transitivity udp_dest_mutex; [|symmetry]; apply Hy; [by left|right; by left].
Qed.
Lemma current_other_list : owner x = 0 → owned_list (mutexes m) (mtxlist m) t [].
Proof using Hd Ex.
  intros Ho. destruct current_real as [Ht0 Ht].
  destruct (ok_lists _ _ _ _ _ _ (dest_ok _ _ _ Hd) t Ht) as (l & p & Hp & Hc & Hn & Hl).
  destruct l as [|y l]; [by exists p|]. exfalso. destruct (proj1 (Hl y) ltac:(by left)) as (z & Ez & Hz).
  destruct (d_only _ _ _ Hd) as [w Ew]. pose proof Ez as Ez'. rewrite Ew in Ez'. apply lookup_singleton_Some in Ez' as [<- _]. simplify_eq. congruence.
Qed.
Lemma free_no_waiter y : owner x = 0 → ¬ waits (vths m) y udp_dest_mutex.
Proof using Hd Ex.
  intros Ho Hw. apply (ok_waits _ _ _ _ _ _ (dest_ok _ _ _ Hd) _ x y Ex) in Hw.
  rewrite (ok_free _ _ _ _ _ _ (dest_ok _ _ _ Hd) _ x Ex Ho) in Hw. by apply elem_of_nil in Hw.
Qed.
Lemma user_real y : unlocking_at c y → y ≠ 0.
Proof using Hd. by intros [[-> _]| ->]%(d_user _ _ _ Hd). Qed.

(** The initialisation comes before anybody waits. *)
Lemma dest_init_runs c' : 
  owner x = 0 → (∀ y, unlocking_at c' y ↔ unlocking_at c y) → dest_ready c' →
  wp (chMtxObjectInit udp_dest_mutex) m (λ _ m', m' = m ∧ dest_inv m' c' ({[ udp_dest_mutex ]} ∪ i)).
Proof using Hd Ex.
  intros Ho Hu Hr. pose proof (ok_free _ _ _ _ _ _ (dest_ok _ _ _ Hd) _ x Ex Ho) as Hq.
  unfold chMtxObjectInit. apply wp_bind. eapply wp_get_mutex; [done|]. apply wp_modify.
  assert (mk_mk k (<[udp_dest_mutex := mk_mutex [] 0 (mnext x)]> (mutexes m)) (realprio m) (mtxlist m) = m) as E.
  { rewrite insert_id; [by destruct m|]. rewrite Ex. destruct x. simpl in *. by subst. }
  rewrite E. split; [done|]. destruct Hd as [H1 H2 H3 H4 H5 H6 H7 H8 H9]. split; try done.
  - intros y Hy Hy'. destruct (H4 y Hy Hy') as [??]. by rewrite Hu.
  - intros y. rewrite Hu. apply H5.
  - intros y mp. rewrite Hu. apply H6.
  - intros y. rewrite Hu. intros [[-> _]|?]%H7; [by left|by right].
  - set_solver.
  - split; [done|set_solver].
Qed.

Context (a : action) (r : list action) (Ec : c !! t = Some (a :: r)).

Lemma dest_free_keeps :
  a = ALock udp_dest_mutex → unlocking r → (t = tp_udp_server ∧ AMtxInit udp_dest_mutex ∉ a :: r ∨ t = tp_shell) →
  owner x = 0 →
  wp (chMtxLock udp_dest_mutex) m (λ _ m', ChMutex.kern m' = k ∧ dest_inv m' (<[t := r]> c) i).
Proof using Hd Ex Ec.
  intros -> Hur Ht Ho. pose proof current_real as [Ht0 _].
  eapply wp_mono; [apply (lock_free_runs udp_dest_mutex x [] m); [apply Hd|done|done|by apply current_other_list]|].
  intros _ m' (_ & Hinv & Hk & Hrp & (p & Hms) & _). fold t in Hms. split; [done|].
  assert (vths m' = vths m) as Hv by (unfold vths; by rewrite Hk).
  assert (∀ y, owns (mutexes m') y udp_dest_mutex ↔ y = t) as Hown.
  { intros y. rewrite Hms. split; [intros (z & Ez & Hz); rewrite lookup_insert_eq in Ez; by simplify_eq|intros ->; eexists; by rewrite lookup_insert_eq]. }
  assert (t = tp_udp_server → AMtxInit udp_dest_mutex ∉ r ∧ dest_ready c) as Hudp.
  { intros Et. destruct Ht as [[_ Hn]|?]; [|by destruct (udp_not_shell t)]. rewrite Et in Ec. rewrite (ready_lookup c _ Ec). split; [|done].
    intros Hin. apply Hn. by right. }
  assert (dest_ready (<[t := r]> c) ↔ dest_ready c) as Hrdy.
  { rewrite ready_insert. destruct (decide (t = tp_udp_server)) as [Et|]; [|done]. destruct (Hudp Et). tauto. }
  split.
  - done.
  - intros y. rewrite Hv, Hrp. apply (d_real _ _ _ Hd).
  - eexists. by rewrite Hms, dest_singleton.
  - intros y _ ->%Hown. rewrite unlocking_insert, decide_True, Hk by done. split; [done|apply current_run].
  - intros y. rewrite unlocking_insert. destruct (decide (y = t)) as [->|Hy]; [left; by apply Hown|].
    intros Hu. destruct (d_unlock _ _ _ Hd y Hu) as [Hy'%dest_owns|Hw]; [|by destruct (free_no_waiter y Ho)].
    destruct (user_real y Hu). congruence.
  - intros y mp. rewrite Hv. intros Hw. pose proof (waits_dest _ _ _ Hd _ _ Hw) as ->. by destruct (free_no_waiter y Ho).
  - intros y. rewrite unlocking_insert, Hrdy. destruct (decide (y = t)) as [->|Hy]; [|apply (d_user _ _ _ Hd)].
    intros _. destruct Ht as [[Et _]|Et]; [left; split; [done|by apply Hudp]|by right].
  - intros Hi y ->%Hown. destruct Ht as [[Et _]|Et]; [|by right]. destruct Hi. by apply (d_ready _ _ _ Hd), Hudp.
  - rewrite Hrdy. apply (d_ready _ _ _ Hd).
Qed.

(** Another thread exists when somebody waits. *)
Lemma two_users y : is_Some (c !! t) → y ≠ t → unlocking_at c y → (t = tp_udp_server ∨ t = tp_shell) → is_Some (c !! tp_shell).
Proof using Hd.
  intros Et0 Hy Hu Ht. destruct (d_user _ _ _ Hd y Hu) as [[Ey _]|Ey].
  - destruct Ht as [Et|Et]; [congruence|]. by rewrite <-Et.
  - destruct Hu as (l & El & _). rewrite <-Ey, El. by eexists.
Qed.

(** A kept mutex stays the thread's. *)
Record mtx_kept (m' : mkernel) : Prop := {
  k_inv : dest_inv m' (<[t := r]> c) i;
  k_objects : objects_kept k (ChMutex.kern m');
  k_change : mtx_change t (abs k) (abs (ChMutex.kern m'));
  k_lead : ChMutex.kern m' = k ∨ is_Some (c !! tp_shell) }.

Lemma dest_held_keeps :
  a = ALock udp_dest_mutex → unlocking r → (t = tp_udp_server ∧ AMtxInit udp_dest_mutex ∉ a :: r ∨ t = tp_shell) →
  owner x ≠ 0 → udp_dest_mutex ∈ i → rlist k ≠ [] →
  wp (chMtxLock udp_dest_mutex) m (λ _ m', mtx_kept m').
Proof using Hd Ex Ec.
  intros -> Hur Ht Ho Hin Hrl. pose proof current_real as [Ht0 _].
  assert (t = tp_udp_server ∨ t = tp_shell) as Htu by (destruct Ht as [[? _]|?]; auto).
  assert (¬ unlocking_at c t) as Hnt by (by rewrite (unlocking_lookup _ _ _ Ec)).
  assert (owner x ≠ t) as Hot.
  { intros E. apply Hnt, (d_owner _ _ _ Hd); [done|]. by apply dest_owns. }
  destruct (d_owner _ _ _ Hd (owner x) Ho ltac:(by apply dest_owns)) as [Huo Hor].
  eapply wp_mono; [apply (lock_held_runs udp_dest_mutex x m); [apply Hd|done|done|done]|].
  intros _ m' (_ & Hinv & thc & ths & ms & m1 & Etc & Hb & _ & Etc' & Hrq & Em1 & Hm1 & Hv & Hms & Hrp & _ & Hobj).
  fold t in Etc, Etc', Hv, Hms.
  assert (ms = {[ udp_dest_mutex := m1 ]}) as Hsing.
  { apply map_eq. intros y. destruct (decide (y = udp_dest_mutex)) as [->|Hy]; [by rewrite Em1, lookup_singleton_eq|].
    rewrite lookup_singleton_ne by done. specialize (Hrq y). destruct (d_only _ _ _ Hd) as [z Ez].
    rewrite Ez, lookup_singleton_ne in Hrq by done. by inversion Hrq. }
  rewrite Hsing, insert_singleton_eq in Hms.
  assert (∀ y, owns (mutexes m') y udp_dest_mutex ↔ owner x = y) as Hown.
  { intros y. rewrite Hms. split; [intros (z & Ez & <-); rewrite lookup_singleton_eq in Ez; by injection Ez as <-|].
    intros <-. eexists. rewrite lookup_singleton_eq. split; [done|exact Hm1]. }
  assert (∀ y, y ≠ t → option_Forall2 (λ th th', th' = with_prio (prio th') th) (vths m !! y) (vths m' !! y)) as Hsame.
  { intros y Hy. rewrite Hv, lookup_insert_ne by done. specialize (Hb y). destruct Hb as [th th' [-> _]|]; by constructor. }
  assert (∀ y, y ≠ t → waits (vths m') y udp_dest_mutex ↔ waits (vths m) y udp_dest_mutex) as Hw.
  { intros y Hy. unfold waits. destruct (Hsame y Hy) as [th th' ->|]; [|naive_solver].
    split; intros (? & [= <-] & ? & ?); eexists; (split; [done|done]). }
  assert (waits (vths m') t udp_dest_mutex) as Hwt.
  { eexists. rewrite Hv, lookup_insert_eq. by split. }
  assert (dest_ready (<[t := r]> c) ↔ dest_ready c) as Hrdy.
  { rewrite ready_insert. destruct (decide (t = tp_udp_server)) as [Et|]; [|done]. destruct Ht as [[_ Hn]|?]; [|by destruct (udp_not_shell t)].
    rewrite Et in Ec. rewrite (ready_lookup c _ Ec). split; [done|]. intros _ Hr. apply Hn. by right. }
  split; [|done| |right; eapply two_users; [by eexists|done..]].
  - split.
    + done.
    + intros y Hy. rewrite Hrp. apply (d_real _ _ _ Hd). destruct (decide (y = t)) as [->|Hne]; [by eexists|].
      destruct (Hsame y Hne); [by eexists|by destruct Hy].
    + by eexists.
    + intros y Hy <-%Hown. rewrite unlocking_insert, decide_False by done. split; [done|].
      apply runq_spec in Hor as (th & Eth & Hth); [|apply (dest_sched _ _ _ Hd)]. apply runq_spec; [apply Hinv|].
      pose proof (Hsame _ Hot) as Hs. change (a_threads (abs k)) with (vths m) in Eth. rewrite Eth in Hs.
      inversion Hs as [? th' Eth' Ea Eb|]; subst. exists th'. split; [by symmetry|]. by rewrite Eth'.
    + intros y. rewrite unlocking_insert. destruct (decide (y = t)) as [->|Hy]; [by right|].
      intros Hu. rewrite Hown, Hw, <-dest_owns by done. by apply (d_unlock _ _ _ Hd).
    + intros y mp Hy. rewrite unlocking_insert. destruct (decide (y = t)) as [->|Hne]; [done|].
      apply (d_waits _ _ _ Hd y mp). destruct Hy as (th' & Eth' & Hs' & Hu'). pose proof (Hsame y Hne) as Hs. rewrite Eth' in Hs.
      inversion Hs as [th ? Ew Ea Eb|]; subst. exists th. rewrite Ew in Hs' |- *. done.
    + intros y. rewrite unlocking_insert, Hrdy. destruct (decide (y = t)) as [->|Hy]; [|apply (d_user _ _ _ Hd)].
      intros _. destruct Ht as [[Et Hn]|Et]; [left; split; [done|]|by right]. rewrite Et in Ec. by rewrite (ready_lookup c _ Ec).
    + done.
    + rewrite Hrdy. apply (d_ready _ _ _ Hd).
  - intros y. change (a_threads (abs k)) with (vths m). change (a_threads (abs (ChMutex.kern m'))) with (vths m').
    destruct (decide (y = t)) as [->|Hy].
    + rewrite Hv, lookup_insert_eq, Etc. constructor. split; [done|right; left; done].
    + destruct (Hsame y Hy) as [th th' ->|]; constructor. split; [done|by left].
Qed.

Lemma dest_unlock_keeps :
  a = AUnlock udp_dest_mutex → ¬ unlocking r → (t = tp_udp_server ∧ AMtxInit udp_dest_mutex ∉ a :: r ∨ t = tp_shell) →
  udp_dest_mutex ∈ i →
  wp (chMtxUnlock udp_dest_mutex) m (λ _ m', mtx_kept m').
Proof using Hd Ex Ec.
  intros -> Hur Ht Hin. pose proof current_real as [Ht0 _].
  assert (t = tp_udp_server ∨ t = tp_shell) as Htu by (destruct Ht as [[? _]|?]; auto).
  assert (owner x = t) as Ho.
  { apply dest_owns. destruct (d_unlock _ _ _ Hd t) as [?|Hw]; [by exists (AUnlock udp_dest_mutex :: r)|done|].
    by destruct (waits_not_run _ _ _ Hd _ _ Hw current_run). }
  assert (dest_ready (<[t := r]> c) ↔ dest_ready c) as Hrdy.
  { rewrite ready_insert. destruct (decide (t = tp_udp_server)) as [Et|]; [|done]. destruct Ht as [[_ Hn]|?]; [|by destruct (udp_not_shell t)].
    rewrite Et in Ec. rewrite (ready_lookup c _ Ec). split; [done|]. intros _ Hr. apply Hn. by right. }
  eapply wp_mono; [apply (unlock_runs udp_dest_mutex x [] m); [apply Hd|done|done|by apply current_list_dest]|].
  intros _ m' ((Hu & Hrp & Hobj) & Hinv & _).
  assert (∀ y, unlocking_at (<[t := r]> c) y → unlocking_at c y ∧ y ≠ t) as Hun.
  { intros y. rewrite unlocking_insert. by destruct (decide (y = t)). }
  destruct (queue x) as [|tp q] eqn:Eq.
  - destruct Hu as [Hk Hms]. rewrite dest_singleton in Hms.
    assert (vths m' = vths m) as Hv by (unfold vths; by rewrite Hk).
    assert (∀ y, ¬ waits (vths m) y udp_dest_mutex) as Hnw.
    { intros y Hw. apply (ok_waits _ _ _ _ _ _ (dest_ok _ _ _ Hd) _ x y Ex) in Hw. rewrite Eq in Hw. by apply elem_of_nil in Hw. }
    assert (∀ y, owns (mutexes m') y udp_dest_mutex → y = 0) as Hown.
    { intros y. rewrite Hms. intros (z & Ez & <-). rewrite lookup_singleton_eq in Ez. by injection Ez as <-. }
    split; [|done|rewrite Hk; apply mtx_change_refl|by left]. split.
    + done.
    + intros y. rewrite Hv, Hrp. apply (d_real _ _ _ Hd).
    + by eexists.
    + by intros y Hy ?%Hown.
    + intros y [Hy Hne]%Hun. destruct (d_unlock _ _ _ Hd y Hy) as [?%dest_owns|?]; [congruence|by destruct (Hnw y)].
    + intros y mp. rewrite Hv. intros Hw. pose proof (waits_dest _ _ _ Hd _ _ Hw) as ->. by destruct (Hnw y).
    + intros y [Hy _]%Hun. rewrite Hrdy. by apply (d_user _ _ _ Hd).
    + intros _ y ?%Hown. by left.
    + rewrite Hrdy. apply (d_ready _ _ _ Hd).
  - destruct Hu as (thc & thtp & p & ltp & Etc & Etp & Htc & Hv & Hms). fold t in Etc, Htc, Hv. rewrite dest_singleton in Hms.
    assert (waits (vths m) tp udp_dest_mutex) as Hwtp.
    { apply (ok_waits _ _ _ _ _ _ (dest_ok _ _ _ Hd) _ x tp Ex). rewrite Eq. by left. }
    pose proof (d_waits _ _ _ Hd _ _ Hwtp) as Hutp. pose proof (user_real _ Hutp) as Htp0.
    assert (∀ y, owns (mutexes m') y udp_dest_mutex ↔ y = tp) as Hown.
    { intros y. rewrite Hms. split; [intros (z & Ez & <-); rewrite lookup_singleton_eq in Ez; by injection Ez as <-|].
      intros ->. eexists. by rewrite lookup_singleton_eq. }
    assert (∀ y, y ≠ t → y ≠ tp → vths m' !! y = vths m !! y) as Hother by (intros y ??; by rewrite Hv, !lookup_insert_ne).
    assert (vths m' !! t = Some (with_prio p thc)) as Et' by (by rewrite Hv, lookup_insert_ne, lookup_insert_eq).
    assert (vths m' !! tp = Some (with_state CH_STATE_READY thtp)) as Etp' by (by rewrite Hv, lookup_insert_eq).
    destruct (current_vths m (dest_sched _ _ _ Hd)) as (thc' & Etc' & Hsc). fold t in Etc'. assert (thc' = thc) as -> by congruence.
    assert (∀ y mp, waits (vths m') y mp → waits (vths m) y mp ∧ y ≠ tp ∧ y ≠ t) as Hw.
    { intros y mp (th & Eth & Hs & Hu). destruct (decide (y = tp)) as [->|]; [by simplify_eq|].
      destruct (decide (y = t)) as [->|]; [simplify_eq; by simpl in Hs; rewrite Hsc in Hs|].
      split; [|done]. exists th. by rewrite <-Hother. }
    split; [|done| |right; apply (two_users tp); [by eexists|done..]]. split.
    + done.
    + intros y Hy. rewrite Hrp. apply (d_real _ _ _ Hd). destruct (decide (y = tp)) as [->|]; [by eexists|].
      destruct (decide (y = t)) as [->|]; [by eexists|]. by rewrite <-Hother.
    + by eexists.
    + intros y Hy ->%Hown. rewrite unlocking_insert, decide_False by done. split; [done|].
      apply runq_spec; [apply Hinv|]. by eexists.
    + intros y [Hy Hne]%Hun. rewrite Hown. destruct (decide (y = tp)) as [->|Hyt]; [by left|right].
      destruct (d_unlock _ _ _ Hd y Hy) as [?%dest_owns|(th & Eth & ?)]; [congruence|]. exists th. by rewrite Hother.
    + intros y mp (Hw' & ? & Hyt)%Hw. rewrite unlocking_insert, decide_False by done. by apply (d_waits _ _ _ Hd y mp).
    + intros y [Hy _]%Hun. rewrite Hrdy. by apply (d_user _ _ _ Hd).
    + done.
    + rewrite Hrdy. apply (d_ready _ _ _ Hd).
    + intros y. change (a_threads (abs k)) with (vths m). change (a_threads (abs (ChMutex.kern m'))) with (vths m').
      destruct (decide (y = tp)) as [->|Hyt].
      { rewrite Etp, Etp'. constructor. split; [done|]. right; right. split; [done|]. destruct Hwtp as (th & E & Hs & _). congruence. }
      destruct (decide (y = t)) as [->|Hyc]; [rewrite Etc, Et'; constructor; split; [done|by left]|].
      rewrite Hother by done. destruct (vths m !! y); constructor. split; [done|by left].
Qed.
End calls.
