(* ===== verification/AppSteps.v ===== *)
(** * Every step keeps the invariants

    The steps of [AppThreads.v], one by one: an action of the running thread, a wait,
    a return, the wake-ups and the interrupts keep what [AppFacts.v] and
    [AppMutex.v] say of the threads, the event sources and the mutex. *)
From stdpp Require Import relations.
From S2P Require Import Prelude ChKernel ChSched ChEvents ChMutex ChMutexFacts ChMutexOps ChMutexProps AppThreads AppFacts AppMutex.

Record inv (s : sys) : Prop := mk_app_inv {
  i_mtx : dest_inv (mkern s) (code s) (inited s);
  i_threads : threads_inv (abs (kern s)) (code s);
  i_sources : sources_inv (kern s) (code s) (enabled s) }.
Lemma i_sched s : inv s → sched_inv (kern s).
Proof. intros [Hd _ _]. by eapply dest_sched. Qed.
Lemma i_settled s : inv s → settled (kern s).
Proof. intros [Hd _ _]. apply (d_inv _ _ _ Hd). Qed.

(** ** The start *)

Lemma boot_sched : sched_inv boot_kernel.
Proof.
  split.
  - by eexists.
  - intros t th. unfold boot_kernel. simpl. rewrite lookup_insert_Some, lookup_singleton_Some.
    intros [[<- _]|[_ [<- <-]]]; done.
  - intros t. unfold boot_kernel. simpl. rewrite elem_of_cons, elem_of_nil. setoid_rewrite lookup_insert_Some.
    setoid_rewrite lookup_singleton_Some. split.
    + intros [->|[]]. eexists. split; [right; by split|done].
    + intros (th & [[<- <-]|[_ [<- <-]]] & Es); [done|by left].
  - apply NoDup_singleton.
  - apply by_prio_cons. split; [constructor|]. intros ? []%not_elem_of_nil.
  - intros t th. unfold boot_kernel. simpl. rewrite lookup_insert_Some, lookup_singleton_Some.
    intros [[<- <-]|[_ [<- <-]]]; done.
Qed.
Lemma boot_thread t th : vths boot_mkernel !! t = Some th →
  (t = tp_main ∧ th = mk_thread NORMALPRIO CH_STATE_READY 0 0) ∨ (t = tp_idle ∧ th = mk_thread IDLEPRIO CH_STATE_READY 0 0).
Proof.
  intros (th0 & E & ->)%vths_inv. cbn [boot_mkernel boot_kernel ChMutex.kern threads] in E. apply lookup_insert_Some in E as [[<- <-]|[_ E]]; [by left|].
  apply lookup_singleton_Some in E as [<- <-]. by right.
Qed.
Lemma boot_code t l : code boot !! t = Some l → t = tp_main ∧ l = main_code ∨ t = tp_idle ∧ l = [].
Proof. simpl. rewrite lookup_insert_Some, lookup_singleton_Some. by intros [[<- <-]|[_ [<- <-]]]; [left|right]. Qed.

Lemma boot_mutex mp m : mutexes boot_mkernel !! mp = Some m → mp = udp_dest_mutex ∧ m = mk_mutex [] 0 0.
Proof. cbn [boot_mkernel mutexes]. intros E. by apply lookup_singleton_Some in E as [<- <-]. Qed.
Lemma boot_dest : dest_inv boot_mkernel (code boot) ∅.
Proof.
  assert (∀ t, ¬ unlocking_at (code boot) t) as Hu by (by intros t (l & [[_ ->]|[_ ->]]%boot_code & ?)).
  assert (∀ t mp, ¬ waits (vths boot_mkernel) t mp) as Hw.
  { intros t mp (th & E & Hs & _). by apply boot_thread in E as [[_ ->]|[_ ->]]. }
  assert (∀ t, owns (mutexes boot_mkernel) t udp_dest_mutex → t = 0) as Ho by (intros t (m & [_ ->]%boot_mutex & <-); done).
  split.
  - split_and!; [apply boot_sched|vm_compute; congruence|]. apply fresh_ok; [done|done| |].
    + intros t th E. by apply boot_thread in E as [[-> ->]|[-> ->]].
    + by intros mp m [_ ->]%boot_mutex.
  - intros t [th E]. by apply boot_thread in E as [[-> _]|[-> _]].
  - by eexists.
  - by intros t Ht ?%Ho.
  - by intros t ?%Hu.
  - by intros t mp ?%Hw.
  - by intros t ?%Hu.
  - intros _ t ?%Ho. by left.
  - split; [set_solver|]. intros (l & [[? _]|[? _]]%boot_code & _); done.
Qed.

Lemma boot_inv : inv boot.
Proof.
  split; [apply boot_dest|..].
  - assert (Hrun : a_run (abs (kern boot)) = [tp_main; tp_idle]) by reflexivity.
    split.
    + intros t th [[-> ->]|[-> ->]]%boot_thread; split_and!; by left || done.
    + intros t. simpl. rewrite lookup_fmap, fmap_None, !lookup_insert_None, !lookup_singleton_None. done.
    + intros t l [[-> ->]|[-> ->]]%boot_code; split; by_decision.
    + rewrite Hrun. rewrite !elem_of_cons. tauto.
    + exists main_code. split; [done|]. intros t Ht Hm Hid. simpl.
      rewrite lookup_insert_None, lookup_singleton_None. split; [done|]. intros _.
      unfold all_threads in Ht. rewrite !elem_of_cons, elem_of_nil in Ht. unfold main_code.
      rewrite !elem_of_cons. intuition congruence.
    + intros l _ _. rewrite Hrun. exists [], [tp_idle]. by split.
    + intros t _ E. rewrite Hrun. apply boot_code in E as [[-> _]|[-> _]]; [by left|right; by left].
    + done.
    + done.
    + by intros th [[? _]|[? _]]%boot_thread.
    + done.
  - split.
    + by eexists.
    + by intros (l & E & _).
    + by eexists.
    + by intros (l & E & _).
    + intros _. split; by intros (l & E & _).
    + simpl. intros es []%not_elem_of_empty.
Qed.

(** ** The running thread *)

Record running (s : sys) (t : Z) (l : list action) (a : action) (r : list action) : Prop := mk_running {
  r_code : code s !! t = Some l;
  r_fetch : fetch_code t l = Some (a, r);
  r_all : t ∈ all_threads;
  r_pos : l ∈ positions t;
  r_ok : action_ok t l a r;
  r_run : runq (kern s) = t :: rlist (kern s);
  r_thread : ∃ th, threads (kern s) !! t = Some th ∧ a_threads (abs (kern s)) !! t = Some (vthread th);
  r_ready : ∀ th, a_threads (abs (kern s)) !! t = Some th → state th = CH_STATE_READY }.

Lemma inv_run_exists s : inv s → run_exists (abs (kern s)).
Proof. intros Hi x Hx. apply (runq_spec _ _ (i_sched s Hi)) in Hx as (th & E & _). by eexists. Qed.

Lemma inv_running s a r :
  inv s → fetch s (currthread (kern s)) = Some (a, r) →
  ∃ l, running s (currthread (kern s)) l a r.
Proof.
  intros Hi Ef. pose proof (i_threads s Hi) as Ht. unfold fetch in Ef.
  destruct (code s !! currthread (kern s)) as [l|] eqn:E; [|done]. exists l.
  destruct (t_pos _ _ Ht _ _ E) as [Hall Hpos].
  assert (Hrun : runq (kern s) = currthread (kern s) :: rlist (kern s)).
  { apply settled_runq; [by apply i_sched|by apply i_settled]. }
  destruct (inv_current _ (i_sched s Hi)) as (th & Eth & Est).
  split; try done.
  - by eapply action_facts.
  - exists th. split; [done|]. by apply abs_lookup.
  - intros th' E'. rewrite (abs_lookup _ _ _ Eth) in E'. injection E' as <-. simpl. unfold vstate. by rewrite Est.
Qed.

(** Nothing runnable has a higher priority. *)
Lemma running_first s t l a r x :
  inv s → running s t l a r → x ∈ runq (kern s) → prio_of (kern s) x <= prio_of (kern s) t.
Proof.
  intros Hi Hr Hx. pose proof (runq_sorted _ (i_sched s Hi)) as Hso.
  rewrite (r_run _ _ _ _ _ Hr) in Hso, Hx.
  apply by_prio_cons in Hso as [_ Hso]. apply elem_of_cons in Hx as [->|Hx]; [lia|]. specialize (Hso x Hx). lia.
Qed.
Lemma runq_prio s x : inv s → x ∈ runq (kern s) → prio_ok (code s) x (prio_of (kern s) x).
Proof. intros Hi Hx. rewrite <-a_prio_abs. apply prio_inv; [apply Hi|]. by apply inv_run_exists. Qed.
Lemma running_urgent s t l a r x :
  inv s → running s t l a r → thread_prio t <= NORMALPRIO → thread_prio x > NORMALPRIO + 1 → x ∉ runq (kern s).
Proof.
  intros Hi Hr Ht Hx Hin. assert (Hrt : t ∈ runq (kern s)) by (rewrite (r_run _ _ _ _ _ Hr); by left).
  pose proof (running_first s t l a r x Hi Hr Hin).
  destruct (prio_ok_bound _ _ _ (runq_prio s x Hi Hin)). destruct (prio_ok_bound _ _ _ (runq_prio s t Hi Hrt)). lia.
Qed.

Lemma creates_irq_last :
  Forall (λ l, ACreate tp_nrf24_irq ∉ l → ACreate tp_usb_host ∉ l) (positions tp_main).
Proof. by_decision. Qed.

(** When a thread of normal priority other than [main] runs, [main] has created
    all threads, the USB host has set up its event source and the radio's
    interrupt thread waits. *)
Lemma normal_runs s t l a r :
  inv s → running s t l a r → t ≠ tp_main → thread_prio t <= NORMALPRIO →
  started (code s) tp_usb_host ∧
  code s !! tp_nrf24_irq = Some [AResume EVT_NRF24_INTERRUPT; ACall].
Proof.
  intros Hi Hr Hm Hp. pose proof (i_threads s Hi) as Ht. destruct (t_main _ _ Ht) as (lm & Em & Hmc).
  assert (Hirq : ACreate tp_nrf24_irq ∉ lm).
  { intros Hin. pose proof (t_lead _ _ Ht lm Em Hin) as Hl. simpl in Hl.
    rewrite (r_run _ _ _ _ _ Hr) in Hl. apply leads_head in Hl as [?|?]; [done|lia]. }
  assert (Husb : ACreate tp_usb_host ∉ lm).
  { pose proof creates_irq_last as H. rewrite Forall_forall in H. apply H; [|done].
    by destruct (t_pos _ _ Ht _ _ Em). }
  assert (Hnr : ∀ x, thread_prio x > NORMALPRIO + 1 → x ∉ runq (kern s)) by (intros x; by eapply running_urgent).
  assert (Hex : ∀ x, x ∈ [tp_usb_host; tp_nrf24_irq] → (ACreate x ∉ lm) →
    ∃ lx, code s !! x = Some lx ∧ lx ≠ thread_prologue x).
  { intros x Hx Hc. destruct (code s !! x) as [lx|] eqn:Ex.
    - exists lx. split; [done|]. intros ->. pose proof (t_busy _ _ Ht x Hx Ex) as Hin. simpl in Hin.
      revert Hin. apply Hnr. rewrite !elem_of_cons, elem_of_nil in Hx.
      destruct Hx as [->|[->|[]]]; done.
    - exfalso. apply Hc, Hmc; [..|done]; rewrite !elem_of_cons, elem_of_nil in Hx;
        destruct Hx as [->|[->|[]]]; done || by_decision. }
  split; [by apply Hex; [left|]|].
  destruct (Hex tp_nrf24_irq) as (li & Ei & Hne); [right; by left|done|].
  pose proof (t_irq_code _ _ Ht li Ei) as Hc. rewrite !elem_of_cons, elem_of_nil in Hc.
  destruct Hc as [->|[->|[->|[]]]]; [done| |done].
  exfalso. pose proof (t_irq0 _ _ Ht Ei) as Hin. revert Hin. by apply Hnr.
Qed.

(** The radio's interrupt thread does not run once it waits. *)
Lemma irq_sleeps s l : inv s → code s !! tp_nrf24_irq = Some (AResume EVT_NRF24_INTERRUPT :: l) →
  tp_nrf24_irq ∉ runq (kern s).
Proof.
  intros Hi E Hin. destruct (t_irq _ _ (i_threads s Hi) _ _ E) as (th & Eth & Es).
  apply (runq_spec _ _ (i_sched s Hi)) in Hin as (th' & E' & Es'). congruence.
Qed.

Lemma irq_not_started s l a r :
  inv s → running s tp_nrf24_irq l a r → ¬ started (code s) tp_nrf24_tx.
Proof.
  intros Hi Hr Hs. destruct (s_nrf_started _ _ _ (i_sources s Hi) Hs) as [_ E].
  apply (irq_sleeps s _ Hi E). rewrite (r_run _ _ _ _ _ Hr). by left.
Qed.

Lemma idle_other s t l a r : inv s → running s t l a r → rlist (kern s) ≠ [].
Proof.
  intros Hi Hr E. pose proof (t_idle _ _ (i_threads s Hi)) as Hid. simpl in Hid.
  rewrite (r_run _ _ _ _ _ Hr), E, elem_of_cons, elem_of_nil in Hid. destruct Hid as [Hid|[]].
  by destruct (r_ok _ _ _ _ _ Hr).
Qed.

(** ** Every step keeps the invariant *)

Lemma a_set_same a t f : (∀ th, a_threads a !! t = Some th → f th = th) → a_set t f a = a.
Proof.
  intros H. destruct a as [m q]. unfold a_set. simpl in *. f_equal. apply map_eq. intros x.
  destruct (decide (x = t)) as [->|?]; [|by rewrite lookup_alter_ne].
  rewrite lookup_alter_eq. destruct (m !! t) as [th|] eqn:E; [|done]. simpl. by rewrite (H th).
Qed.

Definition main_call_at (l : list action) : Prop :=
  match fetch_code tp_main l with
  | Some (ACall, r) =>
      Forall (λ x, (ACreate x ∉ l) ∧ (ACreate x ∉ r) ∧ (ACreate x ∉ ACall :: r)) all_threads
  | Some (ACreate _, _) => True
  | _ => False
  end.
#[export] Instance main_call_at_dec l : Decision (main_call_at l).
Proof. unfold main_call_at. destruct (fetch_code tp_main l) as [[[] r]|]; apply _. Defined.
Lemma positions_main_call : Forall main_call_at (positions tp_main).
Proof. by_decision. Qed.

(** [main] only creates threads and calls; when it calls, it has created all. *)
Lemma main_calls s l a r :
  running s tp_main l a r → (∃ x, a = ACreate x) ∨
  (a = ACall ∧ ∀ x, x ∈ all_threads → (ACreate x ∉ l) ∧ (ACreate x ∉ r) ∧ (ACreate x ∉ ACall :: r)).
Proof.
  intros Hr. pose proof positions_main_call as H. rewrite Forall_forall in H.
  specialize (H l (r_pos _ _ _ _ _ Hr)). unfold main_call_at in H. rewrite (r_fetch _ _ _ _ _ Hr) in H.
  destruct a; try done; [left; by eexists|]. right. split; [done|]. by rewrite Forall_forall in H.
Qed.

(** The interrupt thread only registers and waits, as long as it runs. *)
Lemma irq_actions s l a r :
  inv s → running s tp_nrf24_irq l a r →
  (l = NRF24InterruptThread ∧ r = [] ∧
     a = ARegister esNRF24Interrupt nrf24_interrupt_listener EVT_NRF24_INTERRUPT) ∨
  (l = [] ∧ a = AWait EVT_NRF24_INTERRUPT ∧ r = [ACall]).
Proof.
  intros Hi Hr. pose proof (t_irq_code _ _ (i_threads s Hi) _ (r_code _ _ _ _ _ Hr)) as H.
  pose proof (r_fetch _ _ _ _ _ Hr) as E. rewrite !elem_of_cons, elem_of_nil in H.
  destruct H as [->|[->|[->|[]]]].
  - left. injection E as <- <-. done.
  - right. injection E as <- <-. done.
  - exfalso. apply (irq_sleeps s _ Hi (r_code _ _ _ _ _ Hr)). rewrite (r_run _ _ _ _ _ Hr). by left.
Qed.

(** ** Steps that leave the mutex alone *)

Definition is_mutex_action (a : action) : bool :=
  match a with AMtxInit _ | ALock _ | AUnlock _ => true | _ => false end.
(** Code that changes neither who is about to unlock nor the initialisation. *)
Definition quiet (c n : list action) : Prop :=
  ¬ unlocking c ∧ ¬ unlocking n ∧ (AMtxInit udp_dest_mutex ∈ n ↔ AMtxInit udp_dest_mutex ∈ c).
Definition quiet_at (t : Z) (c : list action) : Prop :=
  match fetch_code t c with
  | Some (a, l) => is_mutex_action a = true ∨ Forall (quiet c) (nexts a l)
  | None => True
  end.
#[export] Instance quiet_at_dec t c : Decision (quiet_at t c).
Proof. unfold quiet_at, quiet, unlocking. destruct (fetch_code t c) as [[a l]|]; apply _. Defined.
Lemma positions_quiet : Forall (λ t, Forall (quiet_at t) (positions t)) all_threads.
Proof. by_decision. Qed.

Lemma quiet_facts s t l a r n :
  running s t l a r → is_mutex_action a = false → n ∈ nexts a r → quiet l n.
Proof.
  intros Hr Ha Hn. pose proof positions_quiet as H. rewrite Forall_forall in H.
  specialize (H t (r_all _ _ _ _ _ Hr)). rewrite Forall_forall in H. specialize (H l (r_pos _ _ _ _ _ Hr)).
  unfold quiet_at in H. rewrite (r_fetch _ _ _ _ _ Hr), Ha, Forall_forall in H. destruct H as [?|H]; [done|by apply H].
Qed.
Lemma quiet_code (c : gmap Z (list action)) t l n :
  c !! t = Some l → quiet l n →
  (∀ y, unlocking_at (<[t := n]> c) y ↔ unlocking_at c y) ∧ (dest_ready (<[t := n]> c) ↔ dest_ready c).
Proof.
  intros E (Hl & Hn & Hi). split.
  - intros y. rewrite unlocking_insert. destruct (decide (y = t)) as [->|]; [|done]. rewrite (unlocking_lookup c t l E). tauto.
  - rewrite ready_insert. destruct (decide (t = tp_udp_server)) as [->|]; [|done]. rewrite (ready_lookup c l E). tauto.
Qed.
Lemma not_unlocking (c : gmap Z (list action)) t l n : c !! t = Some l → quiet l n → ¬ unlocking_at c t.
Proof. intros E (Hl & _). by rewrite (unlocking_lookup c t l E). Qed.

(** Threads that no mutex put to sleep come and go. *)
Lemma undisturbed_trans ths1 ths2 ths3 : undisturbed ths1 ths2 → undisturbed ths2 ths3 → undisturbed ths1 ths3.
Proof.
  intros H1 H2 t. specialize (H1 t). specialize (H2 t).
  destruct H1 as [th1 th2 (Hp & _ & Hw)|]; inversion H2 as [? th3 (Hp' & Hc' & Hw')|]; subst; constructor.
  split_and!; [congruence|done|]. intros mp. by rewrite Hw'.
Qed.
Lemma undisturbed_one (ths : gmap Z thread_t) t f :
  (∀ x th, ths !! x = Some th → state th ≠ CH_STATE_WTCOND) →
  (∀ th, ths !! t = Some th → prio (f th) = prio th ∧ state th ≠ CH_STATE_WTMTX ∧
    state (f th) ≠ CH_STATE_WTMTX ∧ state (f th) ≠ CH_STATE_WTCOND) →
  undisturbed ths (alter f t ths).
Proof.
  intros Hc Hf x. destruct (decide (x = t)) as [->|Hx].
  - rewrite lookup_alter_eq. destruct (ths !! t) as [th|] eqn:E; simpl; constructor.
    destruct (Hf th eq_refl) as (? & ? & ? & ?). split_and!; [done|done|]. by intros mp; split; intros [? _].
  - rewrite lookup_alter_ne by done. by apply undisturbed_refl.
Qed.
Lemma undisturbed_cond ths ths' :
  undisturbed ths ths' → ∀ x th, ths' !! x = Some th → state th ≠ CH_STATE_WTCOND.
Proof. intros Hu x th E. specialize (Hu x). rewrite E in Hu. by inversion Hu as [? ? (_ & ? & _)|]. Qed.

Lemma signal_none t evs a : a_threads a !! t = None → a_threads (a_signal t evs a) !! t = None.
Proof. intros E. unfold a_signal, a_set. cbn [a_threads]. rewrite lookup_alter_eq, E. simpl. by rewrite lookup_alter_eq, E. Qed.
Lemma undisturbed_signal a t evs :
  (∀ x th, a_threads a !! x = Some th → state th ≠ CH_STATE_WTCOND) →
  undisturbed (a_threads a) (a_threads (a_signal t evs a)).
Proof.
  intros Hc x. destruct (decide (x = t)) as [->|Hx]; [|rewrite signal_other by done; by apply undisturbed_refl].
  destruct (a_threads a !! t) as [th|] eqn:E; [|rewrite signal_none by done; constructor].
  rewrite (signal_self t evs a th E). constructor. unfold signalled. cbv zeta.
  destruct (event_wait_met _) eqn:Em; [|split_and!; [done|exact (Hc t th E)|done]].
  apply met_state in Em. cbn [state with_epending] in Em. split_and!; [done|done|].
  intros mp. split; [by intros [? _]|]. intros [Hs _]. rewrite Hs in Em. by destruct Em.
Qed.
Lemma undisturbed_notify m ls : ∀ a,
  (∀ x th, a_threads a !! x = Some th → state th ≠ CH_STATE_WTCOND) →
  undisturbed (a_threads a) (a_threads (a_notify 0 m ls a)).
Proof.
  induction ls as [|l ls IH]; intros a Hc; [by apply undisturbed_refl|]. rewrite notify_cons.
  destruct (m !! l) as [e|]; [|by apply IH]. pose proof (undisturbed_signal a (listener e) (events e) Hc) as H1.
  eapply undisturbed_trans; [exact H1|]. by apply IH, (undisturbed_cond _ _ H1).
Qed.
Lemma notify_run m ls x : ∀ a, x ∈ a_run a → x ∈ a_run (a_notify 0 m ls a).
Proof.
  induction ls as [|l ls IH]; intros a Hx; [done|]. rewrite notify_cons. apply IH.
  destruct (m !! l) as [e|]; [|done]. unfold a_signal. destruct (a_threads _ !! _) as [th|]; [|done].
  destruct (event_wait_met th); [|done]. rewrite a_ready_run. by right.
Qed.

Section steps.
Context (s : sys) (l r : list action) (a : action).
Let t := currthread (kern s).
Hypothesis Hi : inv s.
Hypothesis Hr : running s t l a r.

Lemma no_cond x th : vths (mkern s) !! x = Some th → state th ≠ CH_STATE_WTCOND.
Proof using Hi. apply (ok_cond _ _ _ _ _ _ (dest_ok _ _ _ (i_mtx s Hi))). Qed.

(** The mutex, when the running thread's code becomes [n]. *)
Lemma dest_go_on k' n :
  sched_inv k' → settled k' → undisturbed (vths (mkern s)) (a_threads (abs k')) →
  (∀ y, y ≠ t → y ∈ runq (kern s) → y ∈ runq k') → is_mutex_action a = false → n ∈ nexts a r →
  dest_inv (with_kern k' (mkern s)) (<[t := n]> (code s)) (inited s).
Proof using Hi Hr.
  intros Hk Hs Hun Hrun Ha Hn. pose proof (r_code _ _ _ _ _ Hr) as E. pose proof (quiet_facts s t l a r n Hr Ha Hn) as Hq.
  destruct (quiet_code _ _ _ _ E Hq) as [Hu Hd].
  apply (dest_frame (mkern s) (code s) (inited s)); try done; [apply Hi|].
  intros y Hy. apply Hrun. intros ->. by apply (not_unlocking _ _ _ _ E Hq).
Qed.

Lemma dest_same k' n :
  sched_inv k' → settled k' → abs k' = abs (kern s) → is_mutex_action a = false → n ∈ nexts a r →
  dest_inv (with_kern k' (mkern s)) (<[t := n]> (code s)) (inited s).
Proof using Hi Hr.
  intros Hk Hs Ha Hm Hn. apply dest_go_on; try done.
  - rewrite Ha. apply undisturbed_refl, no_cond.
  - intros y _. change (y ∈ a_run (abs (kern s)) → y ∈ a_run (abs k')). by rewrite Ha.
Qed.

(** Going on with code [n] after a change [f] of the running thread. *)
Lemma inv_go_on k' f :
  sched_inv k' → settled k' → objects_kept (kern s) k' → abs k' = a_set t f (abs (kern s)) →
  (∀ th, prio (f th) = prio th ∧ state (f th) = state th) →
  is_object_action a = false → is_mutex_action a = false → (∀ x, a ≠ ACreate x) → t ≠ tp_nrf24_irq →
  inv (mk_sys (with_kern k' (mkern s)) (<[t := r]> (code s)) (enabled s) (inited s)).
Proof using Hi Hr.
  intros Hk Hs Ho Ha Hf Hobj Hmtx Hcr Hirq. split; cbn [mkern code enabled inited kern ChMutex.kern with_kern].
  - apply dest_go_on; try done; [| |by left].
    + rewrite Ha. apply undisturbed_one; [apply no_cond|]. intros th E. destruct (Hf th) as [-> ->].
      by rewrite (r_ready _ _ _ _ _ Hr th E).
    + intros y _. change (y ∈ a_run (abs (kern s)) → y ∈ a_run (abs k')). by rewrite Ha.
  - rewrite Ha. apply (threads_go_on _ _ _ l); try done.
    + apply Hi.
    + apply Hr.
    + simpl. rewrite (r_run _ _ _ _ _ Hr). by left.
    + apply Hr.
    + apply (r_ok _ _ _ _ _ Hr).
    + intros Hm x Hx. fold t in Hr. rewrite Hm in Hr. destruct (main_calls s l a r Hr) as [[y ->]|[_ Hno]].
      * by destruct (Hcr y).
      * destruct (Hno x Hx) as (? & ? & _). tauto.
  - eapply (sources_go_on (kern s)); [done|apply Hi|apply Hr|apply Hr|apply Hr|apply Hr|done|by left|done].
Qed.

(** Going to sleep with code [n]. *)
Lemma inv_sleep k' st v n :
  sched_inv k' → settled k' → objects_kept (kern s) k' →
  abs k' = a_sleep st (a_set t (with_u v) (abs (kern s))) →
  is_object_action a = false → is_mutex_action a = false → n ∈ nexts a r → n ≠ r →
  (st = CH_STATE_SUSPENDED ∧ a = ACall) ∨ (st = CH_STATE_FINAL ∧ a = AReturn) ∨
  (st = CH_STATE_WTOREVT ∧ a = AWait v ∧
     ∀ th, a_threads (abs (kern s)) !! t = Some th → Z.land (epending th) v = 0) →
  inv (mk_sys (with_kern k' (mkern s)) (<[t := n]> (code s)) (enabled s) (inited s)).
Proof using Hi Hr.
  intros Hk Hs Ho Ha Hobj Hmtx Hn Hnr Hst. pose proof (r_ok _ _ _ _ _ Hr) as (Hid & Hrpos & _ & _ & Hact).
  pose proof (neutral_facts t l a r n (r_all _ _ _ _ _ Hr) (r_pos _ _ _ _ _ Hr) (r_fetch _ _ _ _ _ Hr) Hobj Hn)
    as (_ & _ & Hneu).
  assert (Hst' : st ≠ CH_STATE_WTANDEVT ∧ st ≠ CH_STATE_WTMTX ∧ st ≠ CH_STATE_WTCOND).
  { by destruct Hst as [[-> _]|[[-> _]|[-> _]]]. }
  assert (Hone : ∃ n', nexts a r = [r; n']) by (destruct Hst as [[_ ->]|[[_ ->]|(_ & -> & _)]]; by eexists).
  assert (Hnn : nexts a r = [r; n]).
  { destruct Hone as [n' E]. rewrite E in Hn |- *. apply elem_of_cons in Hn as [->|Hn]; [done|].
    by apply elem_of_cons in Hn as [->|[]%not_elem_of_nil]. }
  split; cbn [mkern code enabled inited kern ChMutex.kern with_kern].
  - apply dest_go_on; try done.
    + assert (a_threads (abs k') = alter (with_state st) t (alter (with_u v) t (vths (mkern s)))) as ->.
      { rewrite Ha. unfold a_sleep, a_set. cbn [a_run]. change (a_run (abs (kern s))) with (runq (kern s)).
        by rewrite (r_run _ _ _ _ _ Hr). }
      rewrite alter_alter_eq. apply undisturbed_one; [apply no_cond|]. intros th E. cbn.
      rewrite (r_ready _ _ _ _ _ Hr th E). by destruct Hst' as (_ & ? & ?).
    + intros y Hy. change (y ∈ runq (kern s) → y ∈ a_run (abs k')). rewrite Ha, (r_run _ _ _ _ _ Hr).
      unfold a_sleep, a_set. cbn [a_run]. change (a_run (abs (kern s))) with (runq (kern s)). rewrite (r_run _ _ _ _ _ Hr).
      by intros [->|?]%elem_of_cons.
  - rewrite Ha. apply (threads_sleep _ _ _ (rlist (kern s)) l).
    + apply Hi.
    + apply Hr.
    + apply (r_run _ _ _ _ _ Hr).
    + done.
    + by apply current_not_ready, i_sched.
    + by destruct Hst'.
    + intros ->. destruct Hst as [[? _]|[[? _]|(_ & -> & Hz)]]; [done..|]. split; [|done]. apply Hact.
    + destruct Hst as [[_ ->]|[[_ ->]|(_ & -> & _)]]; cbn [nexts] in Hnn; injection Hnn as <-; apply Hact.
    + intros Hm x Hx. fold t in Hr. rewrite Hm in Hr. destruct (main_calls s l a r Hr) as [[y ->]|[-> Hno]].
      { by destruct Hst as [[_ ?]|[[_ ?]|(_ & ? & _)]]. }
      injection Hnn as <-. destruct (Hno x Hx) as (? & ? & ?). by split.
    + intros Hirq. fold t in Hr. rewrite Hirq in Hr. destruct (irq_actions s l a r Hi Hr) as [(-> & -> & ->)|(-> & -> & ->)]; [done|].
      destruct Hst as [[_ ?]|[[_ ?]|(-> & _ & _)]]; [done..|]. by injection Hnn as <-.
    + intros Hu. apply Hneu. rewrite Hu. by left.
  - eapply (sources_go_on (kern s)); [done|apply Hi|apply Hr|apply Hr|apply Hr|apply Hr|done|done|].
    intros Htx Hirq. fold t in Hr. rewrite Hirq in Hr. by apply (irq_not_started s l a r Hi Hr).
Qed.
End steps.

Lemma positions_tx_register :
  Forall (λ c, match c with ARegister _ _ _ :: r => r ≠ thread_prologue tp_nrf24_tx | _ => True end)
    (positions tp_nrf24_tx).
Proof. repeat constructor; done. Qed.
Lemma positions_tx_enable :
  Forall (λ c, match fetch_code tp_nrf24_tx c with
               | Some (AEnable _, r) => r ≠ thread_prologue tp_nrf24_tx
               | _ => True
               end) (positions tp_nrf24_tx).
Proof. repeat constructor; done. Qed.

(** What a thread that is neither of high priority nor [main] can rely on. *)
Lemma low_thread s t l a r :
  inv s → running s t l a r → t = tp_udp_server ∨ t = tp_nrf24_tx ∨ t = tp_hid →
  started (code s) tp_usb_host ∧
  code s !! tp_nrf24_irq = Some [AResume EVT_NRF24_INTERRUPT; ACall].
Proof.
  intros Hi Hr Ht. apply (normal_runs s t l a r Hi Hr); destruct Ht as [->|[->| ->]]; (done || (vm_compute; congruence)).
Qed.

(** A new thread is not about to unlock, and the network thread is before the
    initialisation. *)
Lemma prologues_quiet : Forall (λ t, ¬ unlocking (thread_prologue t)) all_threads.
Proof. unfold unlocking. by_decision. Qed.
Lemma create_code (c : gmap Z (list action)) x r :
  c !! tp_main = Some (ACreate x :: r) → c !! x = None → ¬ unlocking r → x ∈ all_threads → x ≠ tp_main →
  let c' := <[tp_main := r]> (<[x := thread_prologue x]> c) in
  (∀ y, unlocking_at c' y ↔ unlocking_at c y) ∧ (dest_ready c' ↔ dest_ready c).
Proof.
  intros Em Ex Hr Hx Hxm. pose proof prologues_quiet as H. rewrite Forall_forall in H. split.
  - intros y. rewrite unlocking_insert. destruct (decide (y = tp_main)) as [->|].
    + by rewrite (unlocking_lookup _ _ _ Em).
    + rewrite unlocking_insert. destruct (decide (y = x)) as [->|]; [|done].
      split; [intros Hu; by destruct (H x Hx)|]. by intros (? & E & _); rewrite Ex in E.
  - rewrite ready_insert, decide_False, ready_insert by done. destruct (decide _) as [->|]; [|done].
    split; [intros []; by_decision|]. by intros (? & E & _); rewrite Ex in E.
Qed.

#[local] Ltac wp_kernel H :=
  apply wp_bind, wp_in_kernel;
  match goal with |- context [ChMutex.kern (mkern ?s)] => change (ChMutex.kern (mkern s)) with (kern s) end;
  eapply wp_mono; [eapply H|].

(** The system after an action. *)
Definition stepped (s : sys) (a : action) (r pre : list action) (m' : mkernel) : sys :=
  mk_sys m' (<[currthread (kern s) := pre ++ r]> (start_code a (code s))) (enable a (enabled s)) (make_ready a (inited s)).

Section actions.
Context (s : sys) (l r : list action) (a : action).
Let t := currthread (kern s).
Hypothesis Hi : inv s.
Hypothesis Hr : running s t l a r.

Lemma exec_create x : a = ACreate x → wp (exec_action (inited s) a) (mkern s) (λ pre m', inv (stepped s a r pre m')).
Proof using Hi Hr.
  intros ->. destruct (r_ok _ _ _ _ _ Hr) as (_ & Hpos & _ & Hul & Hm & -> & Hnin & Hx & Hxm & Hxi).
  pose proof (i_threads s Hi) as Ht. destruct (t_main _ _ Ht) as (lm & Em & Hmc).
  pose proof (r_code _ _ _ _ _ Hr) as Ec. rewrite Hm in Ec.
  assert (Hnone : code s !! x = None).
  { rewrite Ec in Em. injection Em as <-. apply Hmc; [done..|by left]. }
  assert (Hpr : 0 < thread_prio x).
  { unfold thread_prio, NORMALPRIO, IDLEPRIO. repeat destruct (decide _); lia. }
  assert (Hnt : a_threads (abs (kern s)) !! x = None) by (by apply (t_code _ _ Ht)).
  unfold exec_action. apply wp_bind, wp_modify, wp_bind, wp_in_kernel. cbn [ChMutex.kern].
  eapply wp_mono; [apply (create_spec (kern s) x (thread_prio x)); [by apply i_sched|by apply i_settled| |done]|].
  { simpl in Hnt. by rewrite lookup_fmap, fmap_None in Hnt. }
  cbv beta. intros _ k' (? & ? & Ha & Ho). apply wp_ret. unfold stepped. fold t. rewrite Hm. cbn [start_code enable make_ready app].
  split; cbn [mkern code enabled inited kern ChMutex.kern with_kern].
  - destruct (create_code (code s) x r) as [Hu Hd]; try done; [by intros ?%Hul|].
    apply (dest_create (mkern s) (code s) (inited s)); try done; [apply Hi|].
    intros ->. assert (0 ∉ all_threads) by by_decision. done.
  - rewrite Ha. apply threads_create; try done.
    + by apply inv_run_exists.
    + simpl. rewrite (r_run _ _ _ _ _ Hr), Hm. by left.
    + by rewrite Hm in Hpos.
  - eapply (sources_create (kern s)); [done|apply Hi|done|done].
Qed.

Lemma exec_init es : a = AInit es → wp (exec_action (inited s) a) (mkern s) (λ pre m', inv (stepped s a r pre m')).
Proof using Hi Hr.
  intros ->. destruct (r_ok _ _ _ _ _ Hr) as (_ & Hpos & _ & _ & Hl & Hlr & Hte).
  unfold exec_action. wp_kernel init_registered. intros _ k' (Hreg & Ha & Hk & Hs & _ & Hls & Hn).
  apply wp_ret. unfold stepped. fold t. cbn [start_code enable make_ready app].
  assert (Hthr : threads_inv (abs k') (<[t := r]> (code s))).
  { rewrite Ha, <-(a_set_same (abs (kern s)) t (λ th, th)) by done.
    apply (threads_go_on _ _ _ l); try done.
    - apply Hi.
    - apply Hr.
    - simpl. rewrite (r_run _ _ _ _ _ Hr). by left.
    - apply Hr.
    - intros Hm. by destruct Hte as [[Hu _]|[Hu _]]; rewrite Hu in Hm.
    - intros Hm. by destruct Hte as [[Hu _]|[Hu _]]; rewrite Hu in Hm. }
  split; cbn [mkern code enabled inited kern ChMutex.kern with_kern]; [|done|].
  { eapply dest_same; [done..|by apply Hk, i_sched|by apply Hs, i_settled|done|done|by left]. }
  pose proof (r_code _ _ _ _ _ Hr) as Ec. destruct Hte as [[Hu ->]|[Hu ->]].
  - rewrite Hu in Ec, Hl |- *. eapply (sources_init_ds5 (kern s)); [apply Hi|done|done| |done|done].
    by rewrite <-Hl.
  - pose proof (low_thread s t l _ r Hi Hr (or_intror (or_introl Hu))) as [_ Hirq].
    rewrite Hu in Ec, Hl |- *. eapply (sources_init_nrf (kern s)); [apply Hi|done|done| |done|done|done].
    pose proof (r_fetch _ _ _ _ _ Hr) as Ef. rewrite Hl in Ef |- *. by injection Ef as <-.
Qed.

(** Registration changes no thread. *)
Lemma register_threads es el ev : a = ARegister es el ev → threads_inv (abs (kern s)) (<[t := r]> (code s)).
Proof using Hi Hr.
  intros ->. destruct (r_ok _ _ _ _ _ Hr) as (_ & Hpos & _ & _ & Hl & Hnin & _ & Hte).
  rewrite <-(a_set_same (abs (kern s)) t (λ th, th)) by done.
  apply (threads_go_on _ _ _ l); try done.
  - apply Hi.
  - apply Hr.
  - simpl. rewrite (r_run _ _ _ _ _ Hr). by left.
  - apply Hr.
  - intros Hm. by destruct Hte as [(Hu & _)|[(Hu & _)|(Hu & _)]]; rewrite Hu in Hm.
  - intros Hm. fold t in Hr. rewrite Hm in Hr. destruct (irq_actions s l _ r Hi Hr) as [(_ & -> & _)|(_ & ? & _)]; done.
Qed.

Lemma exec_register_ds5 el : a = ds5_register el →
  t = tp_udp_server ∧ el = el_udp ∨ t = tp_nrf24_tx ∧ el = el_tx →
  wp (exec_action (inited s) a) (mkern s) (λ pre m', inv (stepped s a r pre m')).
Proof using Hi Hr.
  intros Ea Hte. pose proof (register_threads _ _ _ Ea) as Hthr. subst a.
  destruct (r_ok _ _ _ _ _ Hr) as (_ & Hpos & _ & _ & Hl & Hnin & _ & _).
  destruct (low_thread s t l _ r Hi Hr) as [Hus _]; [by destruct Hte as [[-> _]|[-> _]]; auto|].
  destruct (s_ds5_started _ _ _ (i_sources s Hi) Hus) as (ls & Hreg & Hls & Hu & Ht & Hlu & Hlt).
  pose proof (r_code _ _ _ _ _ Hr) as Ec. rewrite Hl in Ec.
  assert (Hel : el ∉ ls).
  { intros Hin. destruct Hte as [[Et ->]|[Et ->]]; rewrite Et in Ec.
    - apply Hu in Hin. rewrite (listens_lookup _ _ _ _ Ec) in Hin. apply Hin. by left.
    - apply Ht in Hin. rewrite (listens_lookup _ _ _ _ Ec) in Hin. apply Hin. by left. }
  unfold exec_action, ds5_register, chEvtRegisterMask.
  wp_kernel (register_spec (kern s) esDS5Ready el EVT_DS5_READY 4294967295 ls); [done|done| |].
  { by destruct Hte as [[_ ->]|[_ ->]]. }
  cbv beta. intros _ k' (Hreg' & Hl' & Ha & Hk & Hs & _ & n & En & Hn). apply wp_ret.
  unfold stepped. fold t. cbn [start_code enable make_ready app].
  split; cbn [mkern code enabled inited kern ChMutex.kern with_kern]; [|by rewrite Ha|].
  { eapply dest_same; [done..|by apply Hk, i_sched|by apply Hs, i_settled|done|done|by left]. }
  eapply (sources_register_ds5 (kern s) k' _ _ t el ls r n); try done; [apply Hi|].
  intros Et. rewrite started_insert, decide_True, (started_lookup _ _ _ Ec), Et by done.
  split; [done|]. pose proof positions_tx_register as H. rewrite Forall_forall in H.
  specialize (H l). rewrite Hl in H. apply H. rewrite <-Hl, <-Et. apply Hr.
Qed.

Lemma exec_register_nrf :
  t = tp_nrf24_irq → a = ARegister esNRF24Interrupt nrf24_interrupt_listener EVT_NRF24_INTERRUPT →
  wp (exec_action (inited s) a) (mkern s) (λ pre m', inv (stepped s a r pre m')).
Proof using Hi Hr.
  intros Et Ea. pose proof (register_threads _ _ _ Ea) as Hthr. subst a.
  pose proof (r_code _ _ _ _ _ Hr) as Ec. rewrite Et in Ec.
  assert (Htx : ¬ started (code s) tp_nrf24_tx).
  { fold t in Hr. rewrite Et in Hr. by apply (irq_not_started s l _ r Hi Hr). }
  destruct (s_nrf _ _ _ (i_sources s Hi)) as [n En].
  unfold exec_action. apply wp_bind, wp_in_kernel. change (ChMutex.kern (mkern s)) with (kern s).
  unfold chEvtRegisterMask, chEvtRegisterMaskWithFlags, chEvtRegisterMaskWithFlagsI, get_next.
  apply wp_bind, wp_gets. eapply wp_bind, wp_bind, wp_get.
  eapply wp_lift; [exact En|]. do 2 (apply wp_bind, wp_modify). apply wp_modify. apply wp_ret.
  unfold stepped. fold t. cbn [start_code enable make_ready app]. cbn [next listeners threads rlist currthread].
  pose proof (i_sched s Hi) as [I1 I2 I3 I4 I5 I6]. pose proof (i_settled s Hi) as Hset.
  split; cbn [mkern code enabled inited kern ChMutex.kern with_kern]; [|done|].
  { eapply dest_same; [done..|by split|done|done|done|by left]. }
  rewrite Et.
  eapply (sources_register_nrf (kern s)); [apply Hi|exact Ec|done| |reflexivity].
  intros x Hx. cbn [listeners]. by rewrite lookup_insert_ne.
Qed.

Lemma exec_wait ev : a = AWait ev → wp (exec_action (inited s) a) (mkern s) (λ pre m', inv (stepped s a r pre m')).
Proof using Hi Hr.
  intros ->. destruct (r_ok _ _ _ _ _ Hr) as (_ & _ & _ & _ & _ & -> & Hte).
  destruct (r_thread _ _ _ _ _ Hr) as (th & Eth & Eath). unfold exec_action.
  assert (Hpre : epending (vthread th) = epending th) by done.
  pose proof (i_sched s Hi) as Hsi. pose proof (i_settled s Hi) as Hst.
  destruct (decide (Z.land (epending th) (wait_mask t) = 0)) as [Hz|Hnz].
  - wp_kernel (wait_one_sleeps (kern s) (wait_mask t) th); [done..|by eapply idle_other|].
    cbv beta. intros o k' (-> & ? & ? & ? & ?). apply wp_ret. unfold stepped. fold t. cbn [start_code enable make_ready app].
    eapply (inv_sleep s l r _ Hi Hr k' CH_STATE_WTOREVT (wait_mask t)); try done.
    + right. by left.
    + intros E. apply (f_equal length) in E. simpl in E. lia.
    + right; right. split_and!; [done|done|]. intros th' E. pose proof (eq_trans (eq_sym E) Eath) as Eq. by injection Eq as ->.
  - wp_kernel (wait_one_takes (kern s) (wait_mask t) th); [done..|].
    cbv beta. intros o k' (m & -> & _ & ? & Hs & ? & _ & ?). apply wp_ret. unfold stepped. fold t. cbn [start_code enable make_ready app].
    eapply (inv_go_on s l r _ Hi Hr k'); try done; [by apply Hs|].
    intros Et. unfold t in Eath. rewrite Et in Eath. pose proof (t_pending _ _ (i_threads s Hi) _ Eath) as Hp.
    rewrite Hpre in Hp. by rewrite Hp in Hnz.
Qed.

Lemma exec_resume ev : a = AResume ev → wp (exec_action (inited s) a) (mkern s) (λ pre m', inv (stepped s a r pre m')).
Proof using Hi Hr.
  intros ->. destruct (r_ok _ _ _ _ _ Hr) as (_ & _ & _ & _ & -> & Hte).
  destruct (r_thread _ _ _ _ _ Hr) as (th & Eth & Eath). unfold exec_action.
  wp_kernel (take_one_spec (kern s) (wait_mask t) th); [by apply i_sched|done|].
  cbv beta. intros m k' (_ & ? & Hs & ? & _ & ?). apply wp_ret. unfold stepped. fold t. cbn [start_code enable make_ready app].
  eapply (inv_go_on s l r _ Hi Hr k'); try done; [by apply Hs, i_settled|].
  intros Et. unfold t in Hr. rewrite Et in Hr. by destruct (irq_actions s l _ r Hi Hr) as [(_ & _ & ?)|(_ & ? & _)].
Qed.

(** Actions without a call of the kernel, when they do not end the round. *)
Lemma exec_call : a = ACall ∨ a = AReturn ∨ a = AContinue ∨ (∃ es, a = AEnable es) →
  wp (exec_action (inited s) a) (mkern s) (λ pre m', inv (stepped s a r pre m')).
Proof using Hi Hr.
  intros Ha.
  assert (Hgo : inv (mk_sys (with_kern (kern s) (mkern s)) (<[t := r]> (code s)) (enabled s) (inited s))).
  { eapply (inv_go_on s l r a Hi Hr (kern s) (λ th, th)); try done.
    - by apply i_sched.
    - by apply i_settled.
    - by rewrite a_set_same.
    - by destruct Ha as [->|[->|[->|[? ->]]]].
    - by destruct Ha as [->|[->|[->|[? ->]]]].
    - by destruct Ha as [->|[->|[->|[? ->]]]].
    - intros Et. unfold t in Hr. rewrite Et in Hr.
      destruct (irq_actions s l a r Hi Hr) as [(_ & _ & ->)|(_ & -> & _)]; by destruct Ha as [?|[?|[?|[? ?]]]]. }
  unfold kern in Hgo. rewrite with_kern_same in Hgo.
  destruct Ha as [->|[->|[->|[es ->]]]]; [by apply wp_ret..|].
  apply wp_ret. unfold stepped. fold t. cbn [start_code enable make_ready app].
  destruct Hgo as [G1 G2 G3]. split; try done. cbn [mkern code enabled inited kern] in *.
  apply sources_enable; [done|]. destruct (r_ok _ _ _ _ _ Hr) as (_ & Hpos & _ & _ & Hte).
  rewrite !started_insert. destruct Hte as [[Et ->]|(Et & -> & Hl)].
  - left. split; [done|]. rewrite decide_False by (by rewrite Et). by apply (low_thread s t l _ r Hi Hr); auto.
  - right. split; [done|]. rewrite decide_True by done. rewrite Et.
    pose proof positions_tx_enable as H. rewrite Forall_forall in H. specialize (H l).
    pose proof (r_fetch _ _ _ _ _ Hr) as Ef. rewrite Et in Ef. rewrite Ef in H. apply H.
    rewrite <-Et. apply Hr.
Qed.


(** *** The mutex *)

Lemma threads_pass : t ≠ tp_main → t ≠ tp_nrf24_irq → threads_inv (abs (kern s)) (<[t := r]> (code s)).
Proof using Hi Hr.
  intros Hm Hq. rewrite <-(a_set_same (abs (kern s)) t (λ th, th)) by done.
  apply (threads_go_on _ _ _ l); try done.
  - apply Hi.
  - apply Hr.
  - simpl. rewrite (r_run _ _ _ _ _ Hr). by left.
  - apply Hr.
  - apply (r_ok _ _ _ _ _ Hr).
Qed.
Lemma sources_pass k' :
  objects_kept (kern s) k' → is_object_action a = false → t ≠ tp_nrf24_irq →
  sources_inv k' (<[t := r]> (code s)) (enabled s).
Proof using Hi Hr.
  intros Ho Ha Hq. eapply (sources_go_on (kern s)); [done|apply Hi|apply Hr|apply Hr|apply Hr|apply Hr|done|by left|done].
Qed.

(** Nobody owns the mutex when the network thread initialises it: the shell is more
    urgent than that thread, and would run. *)
Lemma init_free x :
  t = tp_udp_server → a = AMtxInit udp_dest_mutex → l = a :: r →
  mutexes (mkern s) !! udp_dest_mutex = Some x → owner x = 0.
Proof using Hi Hr.
  intros Et Ea El Ex. pose proof (i_mtx s Hi) as Hd. pose proof (r_code _ _ _ _ _ Hr) as Ec. rewrite Et in Ec.
  assert (udp_dest_mutex ∉ inited s) as Hni.
  { rewrite (d_ready _ _ _ Hd), (ready_lookup _ _ Ec), El, Ea. intros H. apply H. by left. }
  destruct (d_early _ _ _ Hd Hni (owner x)) as [?|Eo]; [by exists x|done|]. exfalso.
  destruct (d_owner _ _ _ Hd (owner x)) as [_ Hrun]; [by rewrite Eo|by exists x|]. rewrite Eo in Hrun.
  pose proof (running_first s t l a r _ Hi Hr Hrun) as Hle.
  destruct (prio_ok_bound _ _ _ (runq_prio s _ Hi Hrun)) as [Hs _].
  destruct (r_thread _ _ _ _ _ Hr) as (th & Eth & Ev).
  assert (prio_of (kern s) t = thread_prio t) as Hp.
  { unfold kern. rewrite <-tprio_vths. unfold tprio. change (vths (mkern s)) with (a_threads (abs (kern s))). rewrite Ev.
    apply (own_prio _ _ _ Hd _ _ Ev). intros (y & Ey & Ho). rewrite Ey in Ex. injection Ex as ->. rewrite Eo, Et in Ho. done. }
  rewrite Hp, Et in Hle. by apply (Z.le_trans _ _ _ Hs) in Hle.
Qed.

Lemma exec_mtx_init mp : a = AMtxInit mp → wp (exec_action (inited s) a) (mkern s) (λ pre m', inv (stepped s a r pre m')).
Proof using Hi Hr.
  intros Ea. pose proof (r_ok _ _ _ _ _ Hr) as (_ & _ & _ & Hul & Hact). pose proof (i_mtx s Hi) as Hd.
  rewrite Ea in Hact. destruct Hact as (-> & Et & El & Hnr). destruct (dest_mutex _ _ _ Hd) as (x & _ & Ex & _).
  pose proof (r_code _ _ _ _ _ Hr) as Ec.
  assert (owner x = 0) as Ho by (apply init_free; [done..|by rewrite Ea|done]).
  assert (Hu : ∀ y, unlocking_at (<[t := r]> (code s)) y ↔ unlocking_at (code s) y).
  { intros y. rewrite unlocking_insert. destruct (decide (y = t)) as [->|]; [|done].
    rewrite (unlocking_lookup _ _ _ Ec), El. split; [intros H; by rewrite Ea in Hul; apply Hul in H|done]. }
  rewrite Ea. unfold exec_action. apply wp_bind.
  eapply wp_mono; [eapply (dest_init_runs _ _ _ Hd x Ex (<[t := r]> (code s))); [done..|]|].
  { by rewrite ready_insert, decide_True. }
  cbv beta. intros _ m' [-> Hd']. apply wp_ret. unfold stepped. fold t. cbn [start_code enable make_ready app].
  split; cbn [mkern code enabled inited kern ChMutex.kern].
  - done.
  - apply threads_pass; by rewrite Et.
  - apply sources_pass; [done|by rewrite Ea|by rewrite Et].
Qed.

(** A mutex call that keeps the mutex. *)
Lemma kept_inv m' :
  t = tp_udp_server ∨ t = tp_shell → is_object_action a = false → mtx_kept (mkern s) (code s) (inited s) r m' →
  inv (mk_sys m' (<[t := r]> (code s)) (enabled s) (inited s)).
Proof using Hi Hr.
  intros Ht Ha [Hd' Ho Hch Hlead]. split; cbn [mkern code enabled inited kern]; [done| |].
  - eapply threads_mutex; [apply Hi|apply Hr|done|apply (r_ok _ _ _ _ _ Hr)|exact Hch|..].
    + by apply run_ready_abs, i_sched.
    + by eapply run_ready_abs, dest_sched.
    + destruct Hlead as [E|?]; [left; by unfold kern; cbn [mkern]; rewrite E|by right].
    + intros x th. by apply (dest_prio _ _ _ Hd').
  - apply sources_pass; [done|done|]. by destruct Ht as [-> | ->].
Qed.

Lemma exec_lock mp : a = ALock mp → wp (exec_action (inited s) a) (mkern s) (λ pre m', inv (stepped s a r pre m')).
Proof using Hi Hr.
  intros Ea. pose proof (r_ok _ _ _ _ _ Hr) as (_ & _ & _ & _ & Hact). pose proof (i_mtx s Hi) as Hd.
  rewrite Ea in Hact. destruct Hact as (-> & Hu & El & Ht). destruct (dest_mutex _ _ _ Hd) as (x & _ & Ex & Hown).
  pose proof (r_code _ _ _ _ _ Hr) as Ec. rewrite El in Ec, Ht.
  assert (t = tp_udp_server ∨ t = tp_shell) as Ht' by tauto.
  assert (owner x ≠ 0 → udp_dest_mutex ∈ inited s) as Hin.
  { intros Ho. destruct (decide (udp_dest_mutex ∈ inited s)) as [|Hni]; [done|]. exfalso.
    destruct (d_early _ _ _ Hd Hni (owner x)) as [?|Eo]; [by apply Hown|done|].
    destruct Ht as [[Et Hn]|Et].
    - apply Hni, (d_ready _ _ _ Hd). rewrite Et in Ec. by rewrite (ready_lookup _ _ Ec).
    - destruct (d_owner _ _ _ Hd (owner x)) as [Hul _]; [done|by apply Hown|].
      rewrite Eo, <-Et, (unlocking_lookup _ _ _ Ec) in Hul. done. }
  rewrite Ea. unfold exec_action, chMtxGetOwnerI. apply wp_bind, wp_bind. eapply wp_get_mutex; [done|]. apply wp_ret.
  rewrite decide_False by tauto. apply wp_bind.
  destruct (decide (owner x = 0)) as [Ho|Ho].
  - eapply wp_mono; [by eapply (dest_free_keeps _ _ _ Hd x Ex (ALock udp_dest_mutex) r)|].
    cbv beta. intros _ m' [Hk Hd']. apply wp_ret. apply kept_inv; [done|by rewrite Ea|].
    split; [done|by rewrite Hk|rewrite Hk; apply mtx_change_refl|by left].
  - eapply wp_mono; [eapply (dest_held_keeps _ _ _ Hd x Ex (ALock udp_dest_mutex) r); try done; [by apply Hin|by eapply idle_other]|].
    cbv beta. intros _ m' Hk. apply wp_ret. apply kept_inv; [done|by rewrite Ea|done].
Qed.

Lemma exec_unlock mp :
  a = AUnlock mp → mp ∈ inited s → wp (exec_action (inited s) a) (mkern s) (λ pre m', inv (stepped s a r pre m')).
Proof using Hi Hr.
  intros Ea Hin. pose proof (r_ok _ _ _ _ _ Hr) as (_ & _ & _ & Hul & Hact). pose proof (i_mtx s Hi) as Hd.
  rewrite Ea in Hact, Hul. destruct Hact as (-> & El & Ht). destruct (dest_mutex _ _ _ Hd) as (x & _ & Ex & Hown).
  pose proof (r_code _ _ _ _ _ Hr) as Ec. rewrite El in Ec, Ht.
  rewrite Ea. unfold exec_action. rewrite decide_True by done. apply wp_bind.
  eapply wp_mono; [eapply (dest_unlock_keeps _ _ _ Hd x Ex (AUnlock udp_dest_mutex) r); try done; by intros ?%Hul|].
  cbv beta. intros _ m' Hk. apply wp_ret. apply kept_inv; [tauto|by rewrite Ea|done].
Qed.
End actions.

(** Every action of the application but the unlocking of a mutex that is not yet
    initialised runs, and keeps the invariant. *)
Lemma exec_inv s l r a :
  inv s → running s (currthread (kern s)) l a r →
  (a = AUnlock udp_dest_mutex → udp_dest_mutex ∈ inited s) →
  wp (exec_action (inited s) a) (mkern s) (λ pre m', inv (stepped s a r pre m')).
Proof.
  intros Hi Hr Hu. pose proof (r_ok _ _ _ _ _ Hr) as (_ & _ & _ & _ & Hact).
  destruct a as [x|es|es el ev|ev|ev|es| |mp|mp|mp| |].
  - by eapply exec_create.
  - by eapply exec_init.
  - destruct Hact as (_ & _ & _ & Hte).
    destruct Hte as [(Et & -> & -> & ->)|[(Et & -> & -> & ->)|(Et & -> & -> & ->)]].
    + eapply exec_register_ds5; [done..|by left].
    + eapply exec_register_ds5; [done..|by right].
    + by eapply exec_register_nrf.
  - by eapply exec_wait.
  - by eapply exec_resume.
  - eapply exec_call; [done..|]. do 3 right. by eexists.
  - eapply exec_call; [done..|]. by left.
  - by eapply exec_mtx_init.
  - by eapply exec_lock.
  - destruct Hact as [-> _]. eapply exec_unlock; [done..|]. by apply Hu.
  - eapply exec_call; [done..|]. right. by left.
  - eapply exec_call; [done..|]. right; right. by left.
Qed.

(** Only the shell can get to an unlock before the initialisation; that faults. *)
Lemma early_unlock s l r :
  inv s → running s (currthread (kern s)) l (AUnlock udp_dest_mutex) r → udp_dest_mutex ∉ inited s →
  currthread (kern s) = tp_shell ∧ exec_action (inited s) (AUnlock udp_dest_mutex) (mkern s) = Fault NullCall.
Proof.
  intros Hi Hr Hn. pose proof (r_ok _ _ _ _ _ Hr) as (_ & _ & _ & _ & _ & El & Ht). split.
  - destruct Ht as [[Et Hni]|?]; [|done]. destruct Hn. apply (d_ready _ _ _ (i_mtx s Hi)).
    pose proof (r_code _ _ _ _ _ Hr) as Ec. rewrite Et in Ec. by rewrite (ready_lookup _ _ Ec).
  - unfold exec_action. by rewrite decide_False.
Qed.

(** Who is about to unlock owns the mutex. *)
Lemma unlocks_own s l r mp :
  inv s → running s (currthread (kern s)) l (AUnlock mp) r → owns (mutexes (mkern s)) (currthread (kern s)) mp.
Proof.
  intros Hi Hr. pose proof (r_ok _ _ _ _ _ Hr) as (_ & _ & _ & _ & -> & El & _). pose proof (i_mtx s Hi) as Hd.
  destruct (d_unlock _ _ _ Hd (currthread (kern s))) as [?|Hw]; [|done|].
  - exists l. split; [apply Hr|by rewrite El].
  - by destruct (waits_not_run _ _ _ Hd _ _ Hw (current_run _ _ _ Hd)).
Qed.

(** An interrupt that readies a thread that waits in a call. *)
Lemma wake_inv s t th :
  inv s → threads (kern s) !! t = Some th → state th = CH_STATE_SUSPENDED →
  wp (wake_irq t) (kern s) (λ _ k', inv (mk_sys (with_kern k' (mkern s)) (code s) (enabled s) (inited s))).
Proof.
  intros Hi E Es. pose proof (i_threads s Hi) as Ht. unfold wake_irq.
  wp_with (ready_spec (kern s) t); [by apply i_sched| |].
  { exists th. by rewrite Es. }
  cbv beta. intros _ k1 (Hi1 & Ha1 & Ho1 & _).
  eapply wp_mono; [exact (reschedule_spec k1 Hi1)|]. cbv beta. intros _ k2 (Hi2 & Hs2 & Ha2 & Ho2).
  assert (Eath : a_threads (abs (kern s)) !! t = Some (vthread th)) by (by apply abs_lookup).
  split; cbn [mkern code enabled inited kern ChMutex.kern with_kern].
  - apply (dest_frame (mkern s) (code s) (inited s)); try done; [apply Hi|..].
    + rewrite Ha2, Ha1. unfold a_ready, a_set. cbn [a_threads]. apply undisturbed_one; [by apply no_cond|].
      intros th' E'. pose proof (eq_trans (eq_sym E') Eath) as Eq. injection Eq as ->. cbn. unfold vstate. by rewrite Es.
    + intros y _ Hy. change (y ∈ a_run (abs k2)). rewrite Ha2, Ha1, a_ready_run. by right.
  - rewrite Ha2, Ha1, <-(a_set_same (abs (kern s)) t (λ th, th)) by done.
    apply threads_ready; [done|by apply inv_run_exists| |by eexists|by intros].
    destruct (decide (t = tp_nrf24_irq)) as [->|?]; [|by left]. right.
    destruct (code s !! tp_nrf24_irq) as [l|] eqn:El; [|by auto].
    pose proof (t_irq_code _ _ Ht l El) as Hl. rewrite !elem_of_cons, elem_of_nil in Hl.
    destruct Hl as [->|[->|[->|[]]]]; [by auto|by auto|].
    destruct (t_irq _ _ Ht _ _ El) as (th' & E' & Es'). rewrite Eath in E'. injection E' as <-.
    simpl in Es'. by rewrite Es in Es'.
  - eapply (sources_same (kern s)); [by eapply objects_kept_trans|done..|apply Hi].
Qed.

(** The interrupt of an event source, with who is told. *)
Lemma event_effect s es :
  inv s → es ∈ enabled s → ∃ ls,
    registered (kern s) es ls ∧
    (es = esNRF24Interrupt → ls = []) ∧
    (∀ l e, l ∈ ls → listeners (kern s) !! l = Some e → listener e ≠ tp_nrf24_irq) ∧
    wp (event_irq es) (kern s) (λ _ k', sched_inv k' ∧ settled k' ∧ objects_kept (kern s) k' ∧
      abs k' = a_notify 0 (listeners (kern s)) ls (abs (kern s))).
Proof.
  intros Hi Hes. pose proof (i_sources s Hi) as Hs.
  assert (Hreg : ∃ ls, registered (kern s) es ls ∧ (es = esNRF24Interrupt → ls = []) ∧
    ∀ l e, l ∈ ls → listeners (kern s) !! l = Some e →
      is_Some (code s !! listener e) ∧ listener e ≠ tp_nrf24_irq).
  { destruct (s_enabled _ _ _ Hs es Hes) as [[-> Hst]|[-> Hst]].
    - destruct (s_ds5_started _ _ _ Hs Hst) as (ls & Hreg & Hls & Hu & Ht & Hlu & Hlt). exists ls.
      split_and!; [done|done|]. intros l e Hl E. destruct (Hls l Hl) as [->| ->].
      + rewrite (Hlu Hl) in E. injection E as <-. apply Hu in Hl as (? & ? & _). by split; [eexists|].
      + rewrite (Hlt Hl) in E. injection E as <-. apply Ht in Hl as (? & ? & _). by split; [eexists|].
    - exists []. destruct (s_nrf_started _ _ _ Hs Hst) as [Hn _].
      split; [|split; [done|by intros ? ? []%not_elem_of_nil]].
      split; [done|]. split; [constructor|by intros ? []%not_elem_of_nil]. }
  destruct Hreg as (ls & Hreg & Hnil & Hls). exists ls. split_and!; [done|done|intros l e Hl E; by apply (Hls l e)|].
  unfold event_irq. wp_with (broadcast_spec (kern s) es ls); [by apply i_sched|done| |].
  { intros l e Hl E. destruct (Hls l e Hl E) as [[c Ec] _].
    destruct (a_threads (abs (kern s)) !! listener e) eqn:Eth; [by eexists|].
    apply (t_code _ _ (i_threads s Hi)) in Eth. congruence. }
  cbv beta. intros _ k1 (Hi1 & Ha1 & Ho1 & _).
  eapply wp_mono; [exact (reschedule_spec k1 Hi1)|]. cbv beta. intros _ k2 (Hi2 & Hs2 & Ha2 & Ho2).
  split_and!; [done|done|by eapply objects_kept_trans|congruence].
Qed.

Lemma event_inv s es :
  inv s → es ∈ enabled s →
  wp (event_irq es) (kern s) (λ _ k', inv (mk_sys (with_kern k' (mkern s)) (code s) (enabled s) (inited s))).
Proof.
  intros Hi Hes. destruct (event_effect s es Hi Hes) as (ls & _ & _ & Hne & Hwp).
  eapply wp_mono; [exact Hwp|]. cbv beta. intros _ k' (? & ? & ? & Ha).
  split; cbn [mkern code enabled inited kern ChMutex.kern with_kern].
  - apply (dest_frame (mkern s) (code s) (inited s)); try done; [apply Hi|..].
    + rewrite Ha. by apply undisturbed_notify, no_cond.
    + intros y _ Hy. change (y ∈ a_run (abs k')). rewrite Ha. by apply notify_run.
  - rewrite Ha. apply threads_notify; [apply Hi|by apply inv_run_exists|done].
  - eapply (sources_same (kern s)); [done..|apply Hi].
Qed.

(** A call that waits. *)
Lemma wait_inv s r :
  inv s → fetch s (currthread (kern s)) = Some (ACall, r) →
  wp (chSchGoSleepS CH_STATE_SUSPENDED) (kern s)
    (λ _ k', inv (mk_sys (with_kern k' (mkern s)) (<[currthread (kern s) := ACall :: r]> (code s)) (enabled s) (inited s))).
Proof.
  intros Hi Ef. destruct (inv_running s _ _ Hi Ef) as (l & Hr).
  destruct (r_thread _ _ _ _ _ Hr) as (th & Eth & Eath).
  eapply wp_mono; [apply sleep_spec; [by apply i_sched|by apply i_settled|done|done|by eapply idle_other]|].
  cbv beta. intros _ k' (? & ? & Ha & ?).
  eapply (inv_sleep s l r _ Hi Hr k' CH_STATE_SUSPENDED (u th)); try done.
  - rewrite Ha. f_equal. symmetry. apply a_set_same. intros th' E. rewrite Eath in E. injection E as <-.
    by destruct th.
  - right. by left.
  - intros E. apply (f_equal length) in E. simpl in E. lia.
  - by left.
Qed.

(** The network thread's function returns. *)
Lemma exit_spec msg k th :
  sched_inv k → settled k → threads k !! currthread k = Some th → rlist k ≠ [] →
  wp (chThdExit msg) k (λ _ k', sched_inv k' ∧ settled k' ∧ objects_kept k k' ∧
    abs k' = a_sleep CH_STATE_FINAL (a_set (currthread k) (with_u msg) (abs k))).
Proof.
  intros Hi0 Hs0 E Hne. unfold chThdExit, chThdExitS. apply wp_bind, wp_gets.
  destruct (touch_spec k (currthread k) (with_u msg) Hi0) as
    (k1 & E1 & Hi & Hs & Ha & Ho & _ & _ & _ & Hr); [done|by eexists|].
  eapply wp_bind, wp_ok; [exact E1|]. rewrite <-Ha.
  eapply wp_mono; [apply (sleep_spec k1 CH_STATE_FINAL); [done|by apply Hs|done|done|by rewrite Hr]|].
  cbv beta. intros _ k2 (? & ? & ? & ?). split_and!; try done. by eapply objects_kept_trans.
Qed.
Lemma return_inv s r :
  inv s → fetch s (currthread (kern s)) = Some (AReturn, r) →
  wp (chThdExit MSG_OK) (kern s)
    (λ _ k', inv (mk_sys (with_kern k' (mkern s)) (<[currthread (kern s) := AReturn :: r]> (code s)) (enabled s) (inited s))).
Proof.
  intros Hi Ef. destruct (inv_running s _ _ Hi Ef) as (l & Hr).
  destruct (r_thread _ _ _ _ _ Hr) as (th & Eth & _).
  eapply wp_mono; [eapply exit_spec; [by apply i_sched|by apply i_settled|exact Eth|by eapply idle_other]|].
  cbv beta. intros _ k' (? & ? & ? & ?).
  eapply (inv_sleep s l r _ Hi Hr k' CH_STATE_FINAL MSG_OK); try done.
  - right. by left.
  - intros E. apply (f_equal length) in E. simpl in E. lia.
  - right. by left.
Qed.

(** The rest of a round is left out. *)
Lemma continue_inv s r :
  inv s → fetch s (currthread (kern s)) = Some (AContinue, r) →
  inv (mk_sys (mkern s) (<[currthread (kern s) := []]> (code s)) (enabled s) (inited s)).
Proof.
  intros Hi Ef. destruct (inv_running s _ _ Hi Ef) as (l & Hr). set (t := currthread (kern s)) in *.
  pose proof (r_ok _ _ _ _ _ Hr) as (_ & _ & _ & _ & Hact).
  assert (t = tp_udp_server ∨ t = tp_shell) as Ht by tauto.
  split; cbn [mkern code enabled inited kern].
  - rewrite <-(with_kern_same (mkern s)). change (ChMutex.kern (mkern s)) with (kern s). eapply dest_same; try done.
    + by apply i_sched.
    + by apply i_settled.
    + right. by left.
  - change (kern _) with (kern s). rewrite <-(a_set_same (abs (kern s)) t (λ th, th)) by done.
    apply (threads_go_on _ _ _ l); try done.
    + apply Hi.
    + apply Hr.
    + simpl. rewrite (r_run _ _ _ _ _ Hr). by left.
    + apply Hr.
    + destruct Ht as [-> | ->]; by_decision.
    + intros Hm. by destruct Ht as [Ht|Ht]; rewrite Ht in Hm.
  - change (kern _) with (kern s).
    eapply (sources_go_on (kern s)); [done|apply Hi|apply Hr|apply Hr|apply Hr|apply Hr|done|right; by left|].
    intros _. by destruct Ht as [-> | ->].
Qed.

Lemma step_inv s s' : inv s → step s s' → inv s'.
Proof.
  intros Hi Hstep. destruct Hstep as [s a l pre k' Ef E|s l k' Ef E|s l k' Ef E|s l Ef|s t th k' Et Es E|s es k' Hes E].
  - destruct (inv_running s a l Hi Ef) as (c & Hr). pose proof (exec_inv s c l a Hi Hr) as H.
    unfold wp in H. rewrite E in H. apply H. intros ->. unfold exec_action in E. by destruct (decide _).
  - pose proof (wait_inv s l Hi Ef) as H. unfold wp in H. by rewrite E in H.
  - pose proof (return_inv s l Hi Ef) as H. unfold wp in H. by rewrite E in H.
  - by eapply continue_inv.
  - pose proof (wake_inv s t th Hi Et Es) as H. unfold wp in H. by rewrite E in H.
  - pose proof (event_inv s es Hi Hes) as H. unfold wp in H. by rewrite E in H.
Qed.

Lemma reachable_inv s : reachable s → inv s.
Proof.
  unfold reachable. apply (rtc_ind_r (λ s, inv s) boot); [apply boot_inv|].
  intros s1 s2 _ Hstep Hi. by eapply step_inv.
Qed.
