(* ===== verification/AppProps.v ===== *)
(** * Theorems on the application's threads

    What every schedule of the threads of src/main.c has in common: no kernel call
    faults, the controller's reports reach both consumers, and the radio's
    interrupt never reaches the thread that handles it. *)
From stdpp Require Import relations.
From S2P Require Import Prelude ChKernel ChSched ChEvents ChMutex ChMutexFacts AppThreads AppFacts AppMutex AppSteps.

(** ** A schedule to run *)

(** The running thread takes its next action; or else it waits in it if it is a
    call, returns, or leaves out the rest of its round. *)
Definition run_one (other : bool) (s : sys) : option sys :=
  let t := currthread (kern s) in
  let sleep op (a : action) l :=
    match op (kern s) with
    | Ok tt k' => Some (mk_sys (with_kern k' (mkern s)) (<[t := a :: l]> (code s)) (enabled s) (inited s))
    | Fault _ => None
    end in
  match other, fetch s t with
  | _, None => None
  | true, Some (ACall, l) => sleep (chSchGoSleepS CH_STATE_SUSPENDED) ACall l
  | true, Some (AReturn, l) => sleep (chThdExit MSG_OK) AReturn l
  | true, Some (AContinue, _) => Some (mk_sys (mkern s) (<[t := []]> (code s)) (enabled s) (inited s))
  | _, Some (a, l) =>
      match exec_action (inited s) a (mkern s) with
      | Ok pre m' => Some (mk_sys m' (<[t := pre ++ l]> (start_code a (code s))) (enable a (enabled s))
                             (make_ready a (inited s)))
      | Fault _ => None
      end
  end.
Fixpoint run_all (waits : list bool) (s : sys) : sys :=
  match waits with
  | [] => s
  | w :: waits => match run_one w s with Some s' => run_all waits s' | None => s end
  end.

Lemma run_one_step w s s' : run_one w s = Some s' → step s s'.
Proof.
  unfold run_one. destruct (fetch s _) as [[a l]|] eqn:Ef; [|by destruct w].
  assert (∀ pre m', exec_action (inited s) a (mkern s) = Ok pre m' →
    step s (mk_sys m' (<[currthread (kern s) := pre ++ l]> (start_code a (code s))) (enable a (enabled s)) (make_ready a (inited s))))
    as Hrun by (intros pre m' E; by eapply step_run).
  destruct w; [|by destruct (exec_action _ _ _) as [pre m'|]; [intros [= <-]; apply Hrun|]].
  destruct a; try by (destruct (exec_action _ _ _) as [pre m'|]; [intros [= <-]; apply Hrun|]).
  - destruct (chSchGoSleepS _ _) as [[] k'|] eqn:E; [|done]. intros [= <-]. by eapply step_wait.
  - destruct (chThdExit _ _) as [[] k'|] eqn:E; [|done]. intros [= <-]. by eapply step_return.
  - intros [= <-]. by eapply step_continue.
Qed.
Lemma run_all_reachable ws : ∀ s, reachable s → reachable (run_all ws s).
Proof.
  induction ws as [|w ws IH]; intros s Hs; simpl; [done|].
  destruct (run_one w s) as [s'|] eqn:E; [|done]. apply IH. eapply rtc_r; [exact Hs|by eapply run_one_step].
Qed.

(** From the reset to the transmitter thread's loop: every driver call waits
    once the thread has nothing else to do, those of the transmitter do not. *)
Definition startup_waits : list bool := replicate 18 true ++ replicate 4 false.
Definition started_up : sys := run_all startup_waits boot.

(** ** Theorems *)

(** The shell gets and sets the destination before the network thread has run: the
    next action is the unlocking of the mutex in zeroed memory. *)
Definition early : sys := run_all (replicate 12 true ++ replicate 3 false) boot.
Lemma shell_unlocks_early :
  reachable early ∧ fetch early (currthread (kern early)) = Some (AUnlock udp_dest_mutex, []) ∧
  exec_action (inited early) (AUnlock udp_dest_mutex) (mkern early) = Fault NullCall.
Proof.
  split_and!; [apply run_all_reachable, rtc_refl|vm_compute; reflexivity|vm_compute; reflexivity].
Qed.



(** C1.  The radio's interrupt is never handled.  [main] starts the interrupt
    thread before the transmitter thread has run, and the transmitter thread
    initialises the event source the interrupt thread has already registered on.
    So in every reachable state in which the radio's interrupt is enabled the
    source has no listener: the broadcast of the interrupt changes nothing, and
    the interrupt thread sleeps in [chEvtWaitOne], not runnable; that stays so in
    every state reachable from there. *)
Theorem nrf_interrupt_lost s s' :
  reachable s → esNRF24Interrupt ∈ enabled s → rtc step s s' →
  registered (kern s') esNRF24Interrupt [] ∧
  wp (event_irq esNRF24Interrupt) (kern s') (λ _ k', abs k' = abs (kern s') ∧ objects_kept (kern s') k') ∧
  (∃ th, threads (kern s') !! tp_nrf24_irq = Some th ∧ state th = CH_STATE_WTOREVT ∧
     u th = EVT_NRF24_INTERRUPT ∧ epending th = 0) ∧
  tp_nrf24_irq ∉ runq (kern s').
Proof.
  intros Hs He Hss.
  assert (He' : esNRF24Interrupt ∈ enabled s').
  { clear Hs. induction Hss as [|s1 s2 s3 H12 _ IH]; [done|]. apply IH.
    destruct H12 as [s a l pre k' _ _| | | | |]; cbn [enabled]; try done. destruct a; simpl; set_solver. }
  assert (Hi : inv s') by (apply reachable_inv; by apply (transitivity Hs Hss)).
  destruct (event_effect s' _ Hi He') as (ls & Hreg & Hnil & _ & Hwp). rewrite (Hnil eq_refl) in Hreg, Hwp.
  destruct (s_enabled _ _ _ (i_sources s' Hi) _ He') as [[? _]|[_ Hst]]; [done|].
  destruct (s_nrf_started _ _ _ (i_sources s' Hi) Hst) as [_ Ec].
  destruct (t_irq _ _ (i_threads s' Hi) _ _ Ec) as (th & Eth & Es).
  pose proof (t_pending _ _ (i_threads s' Hi) th Eth) as Hp.
  destruct (t_thread _ _ (i_threads s' Hi) _ th Eth) as (_ & _ & Hu).
  split_and!; [done| | |by eapply irq_sleeps].
  - eapply wp_mono; [exact Hwp|]. cbv beta. by intros _ k' (_ & _ & ? & ?).
  - simpl in Eth. rewrite lookup_fmap in Eth. apply fmap_Some in Eth as (th0 & E0 & ->).
    exists th0. split_and!; [done| |by apply Hu|done].
    simpl in Es. unfold vstate in Es. by destruct (decide _).
Qed.

Lemma nrf_interrupt_lost_witness :
  registered (kern started_up) esNRF24Interrupt [] ∧ tp_nrf24_irq ∉ runq (kern started_up).
Proof.
  destruct (nrf_interrupt_lost started_up started_up) as (H & _ & _ & Hn).
  - apply run_all_reachable. apply rtc_refl.
  - by_decision.
  - apply rtc_refl.
  - by split.
Defined.

(** C2.  The controller's reports reach both consumers.  In every reachable
    state in which reports may come, the source's listeners are exactly those of
    the network and transmitter threads that have registered; a report leaves the
    event pending for each of them, and one that waits for it is runnable
    afterwards. *)
Theorem ds5_reaches_consumers s :
  reachable s → esDS5Ready ∈ enabled s →
  wp (event_irq esDS5Ready) (kern s) (λ _ k', ∀ t el,
    t = tp_udp_server ∧ el = el_udp ∨ t = tp_nrf24_tx ∧ el = el_tx →
    listens (code s) t el →
    ∃ th, a_threads (abs k') !! t = Some th ∧ Z.testbit (epending th) 0 = true ∧
      state th ≠ CH_STATE_WTOREVT ∧
      (∀ th0, threads (kern s) !! t = Some th0 → state th0 = CH_STATE_WTOREVT → t ∈ runq k')).
Proof.
  intros Hi%reachable_inv He. pose proof (i_sources s Hi) as Hs.
  destruct (s_enabled _ _ _ Hs _ He) as [[_ Hst]|[? _]]; [|done].
  destruct (s_ds5_started _ _ _ Hs Hst) as (ls & Hreg & Hls & Hu & Ht & Hlu & Hlt).
  pose proof (i_threads s Hi) as Hthr.
  assert (Hal : listeners_alive (kern s) ls).
  { intros l e Hl E. assert (Hc : is_Some (code s !! listener e)).
    { destruct (Hls l Hl) as [->| ->].
      - rewrite (Hlu Hl) in E. injection E as <-. apply Hu in Hl as (? & ? & _). by eexists.
      - rewrite (Hlt Hl) in E. injection E as <-. apply Ht in Hl as (? & ? & _). by eexists. }
    destruct (a_threads (abs (kern s)) !! listener e) eqn:E'; [by eexists|].
    apply (t_code _ _ Hthr) in E'. destruct Hc. congruence. }
  assert (Hev : ∀ t el, t = tp_udp_server ∧ el = el_udp ∨ t = tp_nrf24_tx ∧ el = el_tx →
    listens (code s) t el → Z.testbit (events_for (listeners (kern s)) t ls) 0 = true).
  { intros t el Hte Hl. assert (Hin : el ∈ ls ∧ listeners (kern s) !! el = Some (ds5_listener t)).
    { destruct Hte as [[-> ->]|[-> ->]]; [apply Hu in Hl|apply Ht in Hl]; auto. }
    destruct Hin as [Hin E]. clear - Hin E. induction ls as [|x ls IH]; [by apply elem_of_nil in Hin|].
    cbn [events_for foldr]. fold (events_for (listeners (kern s)) t ls).
    apply elem_of_cons in Hin as [<-|Hin].
    - rewrite E. rewrite decide_True by done. by rewrite Z.lor_spec.
    - specialize (IH Hin). destruct (listeners (kern s) !! x) as [e|]; [|done].
      destruct (decide _); [|done]. by rewrite Z.lor_spec, IH, orb_true_r. }
  unfold event_irq. wp_with (broadcast_spec (kern s) esDS5Ready ls); [apply Hi|done|done|].
  cbv beta. intros _ k1 (Hi1 & Ha1 & _ & _).
  eapply wp_mono; [exact (reschedule_spec k1 Hi1)|]. cbv beta. intros _ k2 (Hi2 & _ & Ha2 & _).
  intros t el Hte Hl. specialize (Hev t el Hte Hl). set (e := events_for (listeners (kern s)) t ls) in *.
  assert (Hth : ∃ th, a_threads (abs (kern s)) !! t = Some th).
  { destruct (a_threads (abs (kern s)) !! t) eqn:E; [by eexists|]. apply (t_code _ _ Hthr) in E.
    destruct Hl as (? & ? & _). congruence. }
  destruct Hth as [th E]. destruct (t_thread _ _ Hthr t th E) as (_ & Hmet & Hmask).
  assert (E' : a_threads (abs k2) !! t = Some (signalled e th)).
  { rewrite Ha2, Ha1. by apply notify_thread. }
  assert (Hpend : Z.testbit (epending (signalled e th)) 0 = true).
  { by rewrite signalled_epending, Z.lor_spec, Hev, orb_true_r. }
  assert (Hstate : state th = CH_STATE_WTOREVT → state (signalled e th) = CH_STATE_READY).
  { intros Hw. unfold signalled, event_wait_met. cbn [state epending u with_epending].
    rewrite bool_decide_eq_true_2; [done|]. split; [done|]. rewrite (Hmask Hw). destruct Hte as [[-> _]|[-> _]]; change (wait_mask _) with 1;
      intros Hz; apply (f_equal (λ z, Z.testbit z 0)) in Hz; cbv beta in Hz;
      by rewrite Z.land_spec, Z.lor_spec, Hev, orb_true_r in Hz. }
  exists (signalled e th). split_and!; [done|done| |].
  - destruct (decide (state th = CH_STATE_WTOREVT)) as [Hw|Hw]; [by rewrite (Hstate Hw)|].
    unfold signalled. cbv zeta. by destruct (event_wait_met (with_epending _ th)).
  - intros th0 E0 Hw. apply (runq_spec k2 t Hi2). eexists. split; [exact E'|]. apply Hstate.
    rewrite (abs_lookup _ _ _ E0) in E. injection E as <-. simpl. unfold vstate. by rewrite Hw.
Qed.

(** The transmitter thread has registered and waits. *)
Lemma ds5_reaches_consumers_witness :
  wp (event_irq esDS5Ready) (kern (run_all [true] started_up)) (λ _ k', tp_nrf24_tx ∈ runq k').
Proof.
  eapply wp_mono; [apply (ds5_reaches_consumers (run_all [true] started_up))|].
  - apply run_all_reachable, run_all_reachable, rtc_refl.
  - by_decision.
  - cbv beta. intros _ k' H.
    destruct (H tp_nrf24_tx el_tx) as (th & _ & _ & _ & Hr).
    + right. by split.
    + eexists. split; [vm_compute; reflexivity|]. by_decision.
    + eapply Hr; vm_compute; reflexivity.
Defined.
