(* ===== verification/Ds5.v ===== *)
(** * The controller's reports

    The part of src/main.c that takes the controller's HID reports to the
    consumers: the layout of the two structures, the parsing of a report, the
    double buffer the report callback publishes in, and the snapshot a consumer
    copies out of it while further reports may come. *)
From S2P Require Import Prelude.

(** ** The structures *)

(** Field names and sizes in bytes, in order; both structures are packed. *)
Definition common_fields : list (string * nat) :=
  [("hatValue"%string, 4%nat); ("trigger"%string, 2%nat); ("sequence_number"%string, 1%nat);
   ("btn"%string, 3%nat); ("reserved"%string, 5%nat);
   ("gyroX"%string, 2%nat); ("gyroZ"%string, 2%nat); ("gyroY"%string, 2%nat);
   ("accX"%string, 2%nat); ("accZ"%string, 2%nat); ("accY"%string, 2%nat);
   ("sensor_timestamp"%string, 4%nat)].
Definition PS5Data : list (string * nat) := common_fields.
Definition PS5DataFull : list (string * nat) :=
  common_fields ++ [("reserved2"%string, 1%nat); ("xy"%string, 8%nat)].

Definition sizeof (s : list (string * nat)) : nat := sum_list (snd <$> s).

(** Where a field starts, and its bytes in a structure in memory. *)
Fixpoint offsetof (s : list (string * nat)) (f : string) : option (nat * nat) :=
  match s with
  | [] => None
  | (g, n) :: s =>
      if decide (f = g) then Some (O, n)
      else '(o, m) ← offsetof s f; Some ((n + o)%nat, m)
  end.
Definition field_bytes (s : list (string * nat)) (f : string) (mem : list Z) : option (list Z) :=
  '(o, n) ← offsetof s f; Some (take n (drop o mem)).

(** Little-endian values of fields, unsigned and in two's complement. *)
Fixpoint le_value (bytes : list Z) : Z :=
  match bytes with [] => 0 | b :: bytes => b + 256 * le_value bytes end.
Definition signed_value (n : nat) (v : Z) : Z :=
  if decide (2 ^ (8 * Z.of_nat n - 1) <= v) then v - 2 ^ (8 * Z.of_nat n) else v.

(** The buttons: the directional pad is a number in the low half of the first
    byte, the others are a bit each. *)
Inductive ds5_dpad_t : Type :=
  | DS5_DPAD_UP | DS5_DPAD_UP_RIGHT | DS5_DPAD_RIGHT | DS5_DPAD_DOWN_RIGHT
  | DS5_DPAD_DOWN | DS5_DPAD_DOWN_LEFT | DS5_DPAD_LEFT | DS5_DPAD_UP_LEFT
  | DS5_DPAD_RELEASED.
#[export] Instance ds5_dpad_eq_dec : EqDecision ds5_dpad_t.
Proof. solve_decision. Defined.
Definition dpad_of (v : Z) : option ds5_dpad_t :=
  [DS5_DPAD_UP; DS5_DPAD_UP_RIGHT; DS5_DPAD_RIGHT; DS5_DPAD_DOWN_RIGHT; DS5_DPAD_DOWN;
   DS5_DPAD_DOWN_LEFT; DS5_DPAD_LEFT; DS5_DPAD_UP_LEFT; DS5_DPAD_RELEASED] !! Z.to_nat v.

Definition button_bits : list (string * Z) :=
  [("square"%string, 4); ("cross"%string, 5); ("circle"%string, 6); ("triangle"%string, 7);
   ("l1"%string, 8); ("r1"%string, 9); ("l2"%string, 10); ("r2"%string, 11);
   ("create"%string, 12); ("options"%string, 13); ("l3"%string, 14); ("r3"%string, 15);
   ("ps"%string, 16); ("touchpad"%string, 17); ("mic"%string, 18)].
(** A [PS5Buttons] in memory, through its 24-bit view. *)
Definition button (name : string) (btn : list Z) : option bool :=
  '(_, (_, bit)) ← list_find (λ p, p.1 = name) button_bits;
  Some (Z.testbit (le_value btn) bit).
Definition dpad (btn : list Z) : option ds5_dpad_t := dpad_of (Z.land (le_value btn) 15).

(** ** Parsing *)

(** [memcpy(dst, src, n)] of bytes both arrays have. *)
Definition copied (n : nat) (src dst : list Z) : list Z := take n src ++ drop n dst.

(** [None] is a null pointer; the destination is given back as it is left. *)
Definition ds5_from_hid_report (buf : option (list Z)) (len : Z) (out : option (list Z)) :
    bool * option (list Z) :=
  match buf, out with
  | Some buf, Some dst =>
      if decide (len < 2) then (false, out)
      else if decide (head buf = Some 0x01) then
        if decide (len < u16 (1 + Z.of_nat (sizeof PS5DataFull))) then (false, out)
        else (true, Some (copied (sizeof PS5DataFull) (tail buf) dst))
      else (false, out)
  | _, _ => (false, out)
  end.

Definition convert_to_trimmed (full trimmed : option (list Z)) : option (list Z) :=
  match full, trimmed with
  | Some full, Some dst => Some (copied (sizeof PS5Data) full dst)
  | _, _ => trimmed
  end.

(** ** The double buffer *)

Record ds5_state : Type := mk_ds5 {
  ds5Buf : list (list Z);         (* two structures *)
  ds5PublishedIndex : Z;
  ds5Generation : Z;
  notified : nat }.               (* broadcasts of esDS5Ready *)

Definition ds5_init : ds5_state :=
  mk_ds5 [replicate (sizeof PS5DataFull) 0; replicate (sizeof PS5DataFull) 0] 0 0 0.

(** The report callback, on the driver's report buffer; it runs with interrupts
    locked, so as one step. *)
Definition _hid_report_callback (report : list Z) (len : Z) (s : ds5_state) : ds5_state :=
  let next := Z.lxor (ds5PublishedIndex s) 1 in
  match ds5_from_hid_report (Some report) len (ds5Buf s !! Z.to_nat next) with
  | (true, Some dst) =>
      mk_ds5 (<[Z.to_nat next := dst]> (ds5Buf s)) next (u32 (ds5Generation s + 1)) (S (notified s))
  | _ => s
  end.

(** ** A consumer's snapshot *)

(** What happens around a consumer: a report, the read of the published index,
    and the copy of one byte, in whatever order [memcpy] takes them. *)
Inductive ds5_event : Type :=
  | EReport (report : list Z) (len : Z)
  | EPick
  | EByte (i : nat).

(** The consumer: the index it has read and its [trimmed] structure. *)
Record consumer : Type := mk_consumer { picked : Z; snap : list Z }.

Definition copy_byte (s : ds5_state) (i : nat) (c : consumer) : consumer :=
  match ds5Buf s !! Z.to_nat (picked c) ≫= lookup i with
  | Some b => mk_consumer (picked c) (<[i := b]> (snap c))
  | None => c
  end.
Definition ds5_step (e : ds5_event) (p : ds5_state * consumer) : ds5_state * consumer :=
  let '(s, c) := p in
  match e with
  | EReport report len => (_hid_report_callback report len s, c)
  | EPick => (s, mk_consumer (ds5PublishedIndex s) (snap c))
  | EByte i => (s, copy_byte s i c)
  end.
Definition ds5_run (es : list ds5_event) (p : ds5_state * consumer) : ds5_state * consumer :=
  foldl (λ p e, ds5_step e p) p es.

(** ** Facts *)

Definition valid_report (report : list Z) (len : Z) : Prop :=
  head report = Some 0x01 ∧ 41 <= len.
#[export] Instance valid_report_dec report len : Decision (valid_report report len).
Proof. unfold valid_report. apply _. Defined.

(** Both structures in place, one of them published. *)
Definition ds5_ok (s : ds5_state) : Prop :=
  length (ds5Buf s) = 2%nat ∧ Forall (λ b, length b = sizeof PS5DataFull) (ds5Buf s) ∧
  (ds5PublishedIndex s = 0 ∨ ds5PublishedIndex s = 1).
Definition published (s : ds5_state) : list Z :=
  default [] (ds5Buf s !! Z.to_nat (ds5PublishedIndex s)).

Lemma ds5_init_ok : ds5_ok ds5_init.
Proof. split_and!; [done| |by left]. by repeat constructor. Qed.

Lemma other_index p : p = 0 ∨ p = 1 →
  (Z.lxor p 1 = 0 ∨ Z.lxor p 1 = 1) ∧ Z.to_nat (Z.lxor p 1) ≠ Z.to_nat p ∧ Z.lxor (Z.lxor p 1) 1 = p.
Proof. intros [->| ->]; (split_and!; [vm_compute; auto|done|done]). Qed.

Lemma copied_length n src dst : (n ≤ length src)%nat → (n ≤ length dst)%nat →
  length (copied n src dst) = length dst.
Proof. intros ??. unfold copied. rewrite length_app, length_take, length_drop. lia. Qed.

Lemma parse_valid report len dst :
  valid_report report len →
  ds5_from_hid_report (Some report) len (Some dst) = (true, Some (copied 40 (tail report) dst)).
Proof.
  intros [Hh Hl]. unfold ds5_from_hid_report. rewrite decide_False by lia.
  rewrite (decide_True (P := head report = Some 1)) by done. rewrite decide_False; [done|].
  change (u16 _) with 41. lia.
Qed.

(** Everything else is refused and leaves the destination alone. *)
Lemma parse_invalid report len out :
  ¬ valid_report report len → ds5_from_hid_report (Some report) len out = (false, out).
Proof.
  intros Hn. unfold ds5_from_hid_report. destruct out as [dst|]; [|done].
  destruct (decide (len < 2)); [done|]. destruct (decide (head report = Some 1)); [|done].
  change (u16 _) with 41. rewrite decide_True; [done|].
  destruct (decide (len < 41)); [done|]. destruct Hn. split; [done|lia].
Qed.

Lemma callback_invalid report len s : ¬ valid_report report len → _hid_report_callback report len s = s.
Proof. intros Hn. unfold _hid_report_callback. rewrite parse_invalid by done. done. Qed.

Lemma callback_valid report len s :
  ds5_ok s → valid_report report len → (41 ≤ length report)%nat →
  let s' := _hid_report_callback report len s in
  ds5_ok s' ∧ ds5PublishedIndex s' = Z.lxor (ds5PublishedIndex s) 1 ∧
  ds5Buf s' = <[Z.to_nat (ds5PublishedIndex s') := take 40 (tail report)]> (ds5Buf s) ∧
  published s' = take 40 (tail report) ∧
  ds5Generation s' = u32 (ds5Generation s + 1) ∧ notified s' = S (notified s).
Proof.
  intros (Hlen & Hall & Hidx) Hv Hr. destruct (other_index _ Hidx) as (Hix & Hne & _).
  set (nx := Z.lxor (ds5PublishedIndex s) 1) in *.
  assert (Hb : ∃ dst, ds5Buf s !! Z.to_nat nx = Some dst ∧ length dst = 40%nat).
  { destruct (lookup_lt_is_Some_2 (ds5Buf s) (Z.to_nat nx)) as [dst E]; [destruct Hix as [->| ->]; simpl; lia|].
    exists dst. split; [done|]. rewrite Forall_lookup in Hall. by eapply Hall. }
  destruct Hb as (dst & Ed & Hd). unfold _hid_report_callback. fold nx. rewrite Ed, parse_valid by done.
  assert (Ht : copied 40 (tail report) dst = take 40 (tail report)).
  { unfold copied. rewrite (drop_ge dst) by lia. by rewrite app_nil_r. }
  rewrite Ht. cbn [ds5Buf ds5PublishedIndex ds5Generation notified]. split_and!; try done.
  - split_and!; cbn [ds5Buf ds5PublishedIndex]; [by rewrite length_insert| |done].
    apply Forall_insert; [done|]. change (sizeof PS5DataFull) with 40%nat.
    rewrite length_take. destruct report; cbn [length tail] in *; lia.
  - unfold published. cbn [ds5Buf ds5PublishedIndex]. rewrite list_lookup_insert_eq; [done|].
    by eapply lookup_lt_Some.
Qed.

(** ** Theorems *)

Definition reports (rs : list (list Z * Z)) (s : ds5_state) : ds5_state :=
  foldl (λ s r, _hid_report_callback r.1 r.2 s) s rs.
Definition accepted (rs : list (list Z * Z)) : list (list Z * Z) :=
  filter (λ r, valid_report r.1 r.2) rs.

Lemma reports_published rs :
  Forall (λ r, length r.1 = 64%nat) rs →
  let s := reports rs ds5_init in
  let n := length (accepted rs) in
  ds5_ok s ∧ ds5Generation s = u32 (Z.of_nat n) ∧ notified s = n ∧
  published s = match last (accepted rs) with
                | Some r => take 40 (tail r.1)
                | None => replicate 40 0
                end.
Proof.
  induction rs as [|[r len] rs IH] using rev_ind; intros Hall.
  { split_and!; try done. apply ds5_init_ok. }
  apply Forall_app in Hall as [Hall Hr]. apply Forall_cons in Hr as [Hr _]. specialize (IH Hall).
  cbv zeta in *. unfold reports, accepted in *. rewrite foldl_app, filter_app.
  set (s := foldl _ ds5_init rs) in *. cbn [foldl fst snd]. destruct IH as (Hok & Hg & Hn & Hp).
  rewrite filter_cons, filter_nil. cbn [fst snd]. destruct (decide (valid_report r len)) as [Hv|Hv].
  - destruct (callback_valid r len s Hok Hv) as (Hok' & _ & _ & Hp' & Hg' & Hn'); [cbn in Hr; lia|].
    rewrite Hg', Hn', Hp', length_app, last_snoc. simpl. rewrite Hn, Hg. split_and!; [done| |lia|done].
    unfold u32. rewrite Zplus_mod_idemp_l. f_equal. lia.
  - rewrite callback_invalid by done. rewrite app_nil_r. by split_and!.
Qed.
(** C11.  The double buffer always publishes the latest report: after any sequence of
    reports in the driver's 64 byte buffer, the published structure holds the 40
    bytes after the report number of the last report that was long enough and had
    the number 1 (zeros before the first), the generation counts those reports
    modulo 2^32, each was announced once, and the other reports have changed
    nothing. *)
Theorem ds5_publishes_latest rs :
  Forall (λ r, length r.1 = 64%nat) rs →
  let s := reports rs ds5_init in
  let n := length (accepted rs) in
  ds5_ok s ∧ ds5Generation s = u32 (Z.of_nat n) ∧ notified s = n ∧
  published s = match last (accepted rs) with
                | Some r => take 40 (tail r.1)
                | None => replicate 40 0
                end.
Proof. apply reports_published. Qed.

Definition bench_report (n : Z) : list Z := 0x01 :: replicate 63 n.

Lemma ds5_publishes_latest_witness :
  published (reports [(bench_report 7, 64); (bench_report 8, 20); (bench_report 9, 64); (0x31 :: replicate 63 1, 64)]
    ds5_init) = replicate 40 9.
Proof.
  destruct (ds5_publishes_latest [(bench_report 7, 64); (bench_report 8, 20); (bench_report 9, 64);
    (0x31 :: replicate 63 1, 64)]) as (_ & _ & _ & H).
  - by repeat constructor.
  - rewrite H. reflexivity.
Defined.

(** What is sent is what the controller reported: every field of the 31 byte
    structure, read out of the trimmed copy of a report that was accepted, has the
    bytes that follow its offset plus one in the report, and is the same field of
    the full structure. *)
Theorem trimmed_fields report len dst trimmed f o n :
  valid_report report len → length report = 64%nat →
  length dst = sizeof PS5DataFull → length trimmed = sizeof PS5Data →
  offsetof PS5Data f = Some (o, n) →
  ∃ full sent, ds5_from_hid_report (Some report) len (Some dst) = (true, Some full) ∧
    convert_to_trimmed (Some full) (Some trimmed) = Some sent ∧
    length sent = 31%nat ∧
    field_bytes PS5Data f sent = Some (take n (drop (S o) report)) ∧
    field_bytes PS5DataFull f full = field_bytes PS5Data f sent.
Proof.
  intros Hv Hr Hd Ht Ho. rewrite parse_valid by done. do 2 eexists. split; [done|]. split; [done|].
  change (sizeof PS5DataFull) with 40%nat in Hd. change (sizeof PS5Data) with 31%nat in *.
  destruct report as [|id body]; [done|]. cbn [tail length] in *.
  assert (Hfull : copied 40 body dst = take 40 body).
  { unfold copied. rewrite (drop_ge dst) by lia. by rewrite app_nil_r. }
  assert (Hsent : copied 31 (copied 40 body dst) trimmed = take 31 body).
  { rewrite Hfull. unfold copied. rewrite (drop_ge trimmed), app_nil_r, take_take by lia. done. }
  rewrite Hsent, Hfull. clear Hsent Hfull.
  assert (Hin : (o + n ≤ 31)%nat ∧ offsetof PS5DataFull f = Some (o, n)).
  { clear -Ho. unfold PS5Data, PS5DataFull, common_fields in *. cbn [offsetof app] in *.
    repeat match goal with
    | H : context [decide (f = ?g)] |- _ => destruct (decide (f = g)); [vm_compute in H; injection H as <- <-; split; [lia|done]|]
    end. done. }
  destruct Hin as [Hon Hof]. split; [rewrite length_take; lia|].
  assert (Hb : ∀ m, (31 ≤ m)%nat → take n (drop o (take m body)) = take n (drop o body)).
  { intros m Hm. rewrite !take_drop_commute, take_take. by rewrite Nat.min_l by lia. }
  unfold field_bytes. rewrite Ho, Hof. unfold mbind, option_bind. rewrite !Hb by lia. done.
Qed.

(** The sticks are bytes 1 to 4 of the report, the time stamp bytes 28 to 31. *)
Lemma trimmed_fields_witness :
  ∃ full sent, ds5_from_hid_report (Some (0x01 :: (Z.of_nat <$> seq 1 63))) 64 (Some (replicate 40 0)) = (true, Some full) ∧
    convert_to_trimmed (Some full) (Some (replicate 31 0)) = Some sent ∧
    field_bytes PS5Data "sensor_timestamp" sent = Some [28; 29; 30; 31].
Proof.
  destruct (trimmed_fields (0x01 :: (Z.of_nat <$> seq 1 63)) 64 (replicate 40 0) (replicate 31 0)
    "sensor_timestamp" 27 4) as (full & sent & E1 & E2 & _ & E3 & _).
  - by split.
  - reflexivity.
  - reflexivity.
  - reflexivity.
  - reflexivity.
  - exists full, sent. by split_and!.
Defined.

(** ** Snapshots *)

(** How many reports are published. *)
Fixpoint publications (es : list ds5_event) : nat :=
  match es with
  | [] => 0
  | EReport r len :: es => (if decide (valid_report r len) then 1 else 0) + publications es
  | _ :: es => publications es
  end.
Definition byte_index (e : ds5_event) : option nat :=
  match e with EByte i => Some i | _ => None end.
Definition event_ok (e : ds5_event) : Prop :=
  match e with EReport r _ => length r = 64%nat | EPick => False | EByte i => (i < sizeof PS5Data)%nat end.

(** While at most one more report overwrites the picked structure's sibling, the
    copy goes on reading the structure [b]. *)
Lemma snapshot_loop b es : ∀ s c,
  ds5_ok s → Forall event_ok es → length b = sizeof PS5DataFull →
  (picked c = 0 ∨ picked c = 1) → length (snap c) = sizeof PS5Data →
  ds5Buf s !! Z.to_nat (picked c) = Some b →
  (publications es ≤ if decide (ds5PublishedIndex s = picked c) then 1 else 0)%nat →
  let c' := (ds5_run es (s, c)).2 in
  picked c' = picked c ∧ length (snap c') = sizeof PS5Data ∧
  ∀ i, (i < sizeof PS5Data)%nat →
    snap c' !! i = if decide (i ∈ omap byte_index es) then b !! i else snap c !! i.
Proof.
  induction es as [|e es IH]; intros s c Hok Hev Hlb Hp Hls Hb Hn; cbv zeta; [done|].
  apply Forall_cons in Hev as [He Hev]. unfold ds5_run. cbn [foldl]. fold (ds5_run es).
  change (foldl _ ?p es) with (ds5_run es p).
  destruct e as [r len| |i]; [|done|]; cbn [ds5_step].
  - assert (Hom : omap byte_index (EReport r len :: es) = omap byte_index es) by done. rewrite Hom.
    cbn [publications event_ok] in Hn, He. destruct (decide (valid_report r len)) as [Hv|Hv].
    + destruct (decide (ds5PublishedIndex s = picked c)) as [Heq|]; [|lia].
      destruct (callback_valid r len s Hok Hv) as (Hok' & Hx & Hbuf & _); [rewrite He; lia|]. cbv zeta in *.
      apply IH; try done.
      * rewrite Hbuf, Hx, list_lookup_insert_ne; [done|].
        destruct (other_index (ds5PublishedIndex s)) as (_ & Hne & _); [by apply Hok|]. by rewrite <-Heq.
      * rewrite Hx. destruct (decide _); lia.
    + rewrite callback_invalid by done. by apply IH.
  - cbn [publications event_ok] in Hn, He.
    assert (Hbi : ∃ x, b !! i = Some x).
    { apply lookup_lt_is_Some_2. rewrite Hlb. change (sizeof PS5DataFull) with 40%nat.
      change (sizeof PS5Data) with 31%nat in He. lia. }
    destruct Hbi as [x Ex]. assert (Hc : copy_byte s i c = mk_consumer (picked c) (<[i := x]> (snap c))).
    { unfold copy_byte. rewrite Hb. unfold mbind, option_bind. by rewrite Ex. }
    rewrite Hc. destruct (IH s (mk_consumer (picked c) (<[i := x]> (snap c)))) as (H1 & H2 & H3); try done.
    { cbn [snap]. by rewrite length_insert. }
    split_and!; [done|done|]. intros j Hj. rewrite (H3 j Hj). cbn [snap].
    change (omap byte_index (EByte i :: es)) with (i :: omap byte_index es).
    destruct (decide (j ∈ omap byte_index es)) as [Hin|Hin].
    { by rewrite decide_True by (by right). }
    destruct (decide (j = i)) as [->|Hji].
    + rewrite decide_True by (by left). rewrite list_lookup_insert_eq by (by rewrite Hls). done.
    + rewrite decide_False; [by rewrite list_lookup_insert_ne|]. rewrite elem_of_cons. tauto.
Qed.

(** C12.  A snapshot is whole.  A consumer reads the published index and then copies
    the 31 bytes one by one in any order, while reports may be published between any
    two bytes; if at most one report is published until the last byte is copied, the
    snapshot is the published structure of the moment the index was read, all of
    it and nothing else. *)
Theorem snapshot_whole s c es :
  ds5_ok s → length (snap c) = sizeof PS5Data → Forall event_ok es →
  (∀ i, (i < sizeof PS5Data)%nat → i ∈ omap byte_index es) →
  (publications es ≤ 1)%nat →
  snap (ds5_run (EPick :: es) (s, c)).2 = take (sizeof PS5Data) (published s).
Proof.
  intros Hok Hs Hev Hall Hn. unfold ds5_run. cbn [foldl ds5_step]. change (foldl _ ?p es) with (ds5_run es p).
  set (c0 := mk_consumer (ds5PublishedIndex s) (snap c)).
  destruct Hok as (Hlen & Hlb & Hidx).
  assert (Hb : ∃ b, ds5Buf s !! Z.to_nat (ds5PublishedIndex s) = Some b).
  { apply lookup_lt_is_Some_2. destruct Hidx as [->| ->]; simpl; lia. }
  destruct Hb as [b Eb]. assert (Hbl : length b = sizeof PS5DataFull).
  { rewrite Forall_lookup in Hlb. by eapply Hlb. }
  destruct (snapshot_loop b es s c0) as (_ & Hl & H); try done.
  { cbn [picked c0]. by rewrite decide_True. }
  unfold published. rewrite Eb. change (default [] (Some b)) with b. apply list_eq_same_length with (sizeof PS5Data).
  - rewrite length_take, Hbl. reflexivity.
  - exact Hl.
  - intros i x y Hi Hx Hy. rewrite (H i Hi), decide_True in Hx by (by apply Hall).
    rewrite lookup_take_lt in Hy by done. congruence.
Qed.

Lemma snapshot_whole_witness :
  let s := reports [(bench_report 7, 64)] ds5_init in
  snap (ds5_run (EPick :: (EByte <$> seq 0 10) ++ [EReport (bench_report 8) 64] ++ (EByte <$> seq 10 21))
    (s, mk_consumer 0 (replicate 31 0))).2 = replicate 31 7.
Proof.
  cbv zeta. rewrite (snapshot_whole (reports [(bench_report 7, 64)] ds5_init) (mk_consumer 0 (replicate 31 0))
    ((EByte <$> seq 0 10) ++ [EReport (bench_report 8) 64] ++ (EByte <$> seq 10 21))).
  - reflexivity.
  - destruct (reports_published [(bench_report 7, 64)]) as (H & _); [by repeat constructor|exact H].
  - reflexivity.
  - repeat constructor; vm_compute; lia.
  - intros i Hi. change (omap byte_index _) with (seq 0 31). apply elem_of_seq.
    change (sizeof PS5Data) with 31%nat in Hi. lia.
  - vm_compute. lia.
Defined.

(** Two reports during the copy give a mixture of two of them: the first bytes are
    of the picked structure, the last ones of the second report, which is written
    over it. *)
Definition torn_copy : list ds5_event :=
  EPick :: (EByte <$> seq 0 10) ++
  [EReport (bench_report 8) 64; EReport (bench_report 9) 64] ++ (EByte <$> seq 10 21).

(** The snapshot is not protected against two publications: with 10 bytes
    copied, two reports and the other 21 bytes, a consumer gets the first half of the
    report published when it began and the second half of the last, and no structure
    ever published holds those bytes. *)
Theorem snapshot_torn :
  let s := reports [(bench_report 7, 64)] ds5_init in
  let s' := (ds5_run torn_copy (s, mk_consumer 0 (replicate 31 0))).1 in
  let got := snap (ds5_run torn_copy (s, mk_consumer 0 (replicate 31 0))).2 in
  got = replicate 10 7 ++ replicate 21 9 ∧
  s' = reports [(bench_report 7, 64); (bench_report 8, 64); (bench_report 9, 64)] ds5_init ∧
  ∀ n, got ≠ take 31 (published (reports (take n
    [(bench_report 7, 64); (bench_report 8, 64); (bench_report 9, 64)]) ds5_init)).
Proof.
  cbv zeta. split_and!; [reflexivity|reflexivity|]. intros [|[|[|[|n]]]]; by_decision.
Qed.
