(* ===== verification/Monitor.v ===== *)
(** * The loop statistics of the threads

    The monitoring table of src/main.c: registration of a thread and the two calls
    every thread makes around a turn of its loop.  A clock reading is the true tick
    count modulo 2^32, as [chVTGetSystemTime] gives it. *)
From S2P Require Import Prelude.

Definition MAX_MONITORED_THREADS : Z := 10.

Record thread_monitor_t : Type := mk_thread_monitor {
  name : option string;           (* a null pointer until the entry is used *)
  thread_ptr : option nat;
  last_loop_time : Z;
  current_loop_time : Z;
  loop_duration : Z;
  loop_count : Z;
  min_loop_time : Z;
  max_loop_time : Z;
  total_loop_time : Z;
  first_loop_time : Z;
  last_wake_time : Z;
  wake_count : Z;
  is_active : bool }.

Definition blank_monitor : thread_monitor_t :=
  mk_thread_monitor None None 0 0 0 0 0 0 0 0 0 0 false.

(** [thread_monitors] and [monitor_count]. *)
Record monitors : Type := mk_monitors {
  thread_monitors : list thread_monitor_t;
  monitor_count : Z }.
Definition monitors_init : monitors :=
  mk_monitors (replicate (Z.to_nat MAX_MONITORED_THREADS) blank_monitor) 0.

Definition register_thread_monitor (nm : string) (thread : nat) (now : Z) (m : monitors) :
    bool * monitors :=
  if decide (MAX_MONITORED_THREADS <= monitor_count m) then (false, m)
  else
    (true, mk_monitors
      (<[Z.to_nat (monitor_count m) :=
          mk_thread_monitor (Some nm) (Some thread) now now 0 0 0xFFFFFFFF 0 0 0 0 0 true]>
        (thread_monitors m))
      (u8 (monitor_count m + 1))).

(** The loops of the two calls: the first active entry of that name among the
    registered ones is changed, and the loop is left. *)
Fixpoint update_first (nm : string) (f : thread_monitor_t → thread_monitor_t) (fuel : nat)
    (ms : list thread_monitor_t) : list thread_monitor_t :=
  match fuel, ms with
  | S fuel, t :: ms =>
      if decide (is_active t = true ∧ name t = Some nm) then f t :: ms
      else t :: update_first nm f fuel ms
  | _, _ => ms
  end.
Definition update_monitor (nm : string) (f : thread_monitor_t → thread_monitor_t) (m : monitors) :
    monitors :=
  mk_monitors (update_first nm f (Z.to_nat (monitor_count m)) (thread_monitors m)) (monitor_count m).

Definition loop_start (now : Z) (t : thread_monitor_t) : thread_monitor_t :=
  mk_thread_monitor (name t) (thread_ptr t) (last_loop_time t) now (loop_duration t) (loop_count t)
    (min_loop_time t) (max_loop_time t) (total_loop_time t)
    (if decide (first_loop_time t = 0) then now else first_loop_time t)
    now (u32 (wake_count t + 1)) (is_active t).
Definition loop_end (now : Z) (t : thread_monitor_t) : thread_monitor_t :=
  let dur := u32 (now - current_loop_time t) in
  mk_thread_monitor (name t) (thread_ptr t) now (current_loop_time t) dur (u32 (loop_count t + 1))
    (if decide (dur < min_loop_time t) then dur else min_loop_time t)
    (if decide (max_loop_time t < dur) then dur else max_loop_time t)
    (u32 (total_loop_time t + dur))
    (first_loop_time t) (last_wake_time t) (wake_count t) (is_active t).

Definition update_thread_loop_start (nm : string) (now : Z) : monitors → monitors :=
  update_monitor nm (loop_start now).
Definition update_thread_loop_end (nm : string) (now : Z) : monitors → monitors :=
  update_monitor nm (loop_end now).

(** The registrations of [main], with the threads' numbers. *)
Definition main_registrations (now : Z) : list (string * nat * Z) :=
  [("blinker"%string, 1%nat, now); ("udp_server"%string, 2%nat, now); ("nrf24_tx"%string, 3%nat, now);
   ("nrf24_irq"%string, 4%nat, now); ("HID"%string, 5%nat, now); ("usb_host"%string, 6%nat, now)].

(** ** Runs *)

(** A turn's start or end in the thread [nm], at the true time [t]. *)
Inductive turn : Type := Start (nm : string) (t : Z) | End_ (nm : string) (t : Z).
Definition turn_name (e : turn) : string := match e with Start nm _ | End_ nm _ => nm end.
Definition do_turn (e : turn) : monitors → monitors :=
  match e with
  | Start nm t => update_thread_loop_start nm (u32 t)
  | End_ nm t => update_thread_loop_end nm (u32 t)
  end.
Definition do_turns (es : list turn) (m : monitors) : monitors := foldl (λ m e, do_turn e m) m es.

(** A registration at a true time; the table after a list of them. *)
Definition register (r : string * nat * Z) (m : monitors) : monitors :=
  (register_thread_monitor r.1.1 r.1.2 (u32 r.2) m).2.
Definition registrations (rs : list (string * nat * Z)) (m : monitors) : monitors :=
  foldl (λ m r, register r m) m rs.

(** ** What the statistics should be *)

(** The true durations of the turns that ended, the first of which may have begun
    before the registration, at [cur]. *)
Fixpoint durations (nm : string) (cur : Z) (es : list turn) : list Z :=
  match es with
  | [] => []
  | Start nm' t :: es => durations nm (if decide (nm = nm') then t else cur) es
  | End_ nm' t :: es =>
      if decide (nm = nm') then (t - cur) :: durations nm cur es else durations nm cur es
  end.
Fixpoint starts (nm : string) (es : list turn) : list Z :=
  match es with
  | [] => []
  | Start nm' t :: es => if decide (nm = nm') then t :: starts nm es else starts nm es
  | End_ _ _ :: es => starts nm es
  end.

(** ** The entry of a name *)

Fixpoint find_first (nm : string) (fuel : nat) (ms : list thread_monitor_t) : option thread_monitor_t :=
  match fuel, ms with
  | S fuel, t :: ms =>
      if decide (is_active t = true ∧ name t = Some nm) then Some t else find_first nm fuel ms
  | _, _ => None
  end.
Definition entry (nm : string) (m : monitors) : option thread_monitor_t :=
  find_first nm (Z.to_nat (monitor_count m)) (thread_monitors m).

Lemma find_first_S nm fuel t ms : find_first nm (S fuel) (t :: ms) =
  if decide (is_active t = true ∧ name t = Some nm) then Some t else find_first nm fuel ms.
Proof. done. Qed.

(** A change that keeps the entry's name and its being active. *)
Definition keeps_key (f : thread_monitor_t → thread_monitor_t) : Prop :=
  ∀ t, is_active (f t) = is_active t ∧ name (f t) = name t.
Lemma loop_start_keeps now : keeps_key (loop_start now). Proof. done. Qed.
Lemma loop_end_keeps now : keeps_key (loop_end now). Proof. done. Qed.

Lemma entry_update nm nm' f m : keeps_key f →
  entry nm (update_monitor nm' f m) = (if decide (nm = nm') then f else id) <$> entry nm m.
Proof.
  intros Hf. unfold entry. cbn [update_monitor thread_monitors monitor_count].
  generalize (Z.to_nat (monitor_count m)) as fuel, (thread_monitors m) as ms.
  induction fuel as [|fuel IH]; intros [|t ms]; try done. cbn [update_first find_first].
  destruct (Hf t) as [Ha Hn].
  destruct (decide (is_active t = true ∧ name t = Some nm')) as [[Ht Hm]|H]; cbn [find_first].
  - rewrite Ha, Hn. destruct (decide (nm = nm')) as [->|Hne]; [by rewrite !decide_True by done|].
    rewrite option_fmap_id. destruct (decide _) as [[_ E]|]; [congruence|done].
  - destruct (decide (is_active t = true ∧ name t = Some nm)) as [[Ht Hm]|].
    + rewrite decide_False; [done|]. intros ->. tauto.
    + by rewrite IH.
Qed.

Lemma entry_turn nm e m : entry nm (do_turn e m) =
  (λ t, if decide (nm = turn_name e) then
          match e with Start _ now => loop_start (u32 now) t | End_ _ now => loop_end (u32 now) t end
        else t) <$> entry nm m.
Proof.
  destruct e as [nm' t|nm' t]; cbn [do_turn turn_name]; (etrans; [by apply entry_update|]);
    destruct (decide (nm = nm')); by destruct (entry nm m).
Qed.

(** Room for [n] more entries, the rest of the table blank. *)
Definition table_ok (m : monitors) : Prop :=
  length (thread_monitors m) = 10%nat ∧ 0 <= monitor_count m <= MAX_MONITORED_THREADS ∧
  Forall (λ t, is_active t = true) (take (Z.to_nat (monitor_count m)) (thread_monitors m)).

Lemma find_first_insert nm fuel t ms : (fuel < length ms)%nat →
  find_first nm (S fuel) (<[fuel := t]> ms) =
    match find_first nm fuel ms with
    | Some e => Some e
    | None => if decide (is_active t = true ∧ name t = Some nm) then Some t else None
    end.
Proof.
  revert ms. induction fuel as [|fuel IH]; intros [|u ms] Hl; cbn [length] in Hl; try lia.
  - by cbn.
  - change (<[S fuel := t]> (u :: ms)) with (u :: <[fuel := t]> ms).
    rewrite !find_first_S, IH by lia. by destruct (decide (is_active u = true ∧ name u = Some nm)).
Qed.

Lemma register_full m nm th now : monitor_count m = MAX_MONITORED_THREADS →
  register_thread_monitor nm th now m = (false, m).
Proof. intros E. unfold register_thread_monitor. by rewrite decide_True by lia. Qed.

Lemma register_room m r : table_ok m → monitor_count m < MAX_MONITORED_THREADS →
  let m' := register r m in
  table_ok m' ∧ monitor_count m' = monitor_count m + 1 ∧
  ∀ nm, entry nm m' =
    match entry nm m with
    | Some e => Some e
    | None => if decide (r.1.1 = nm) then
        Some (mk_thread_monitor (Some nm) (Some r.1.2) (u32 r.2) (u32 r.2) 0 0 0xFFFFFFFF 0 0 0 0 0 true)
        else None
    end.
Proof.
  intros (Hlen & Hc & Ha) Hlt. unfold MAX_MONITORED_THREADS in *.
  unfold register, register_thread_monitor, MAX_MONITORED_THREADS. rewrite decide_False by lia.
  assert (Hu : u8 (monitor_count m + 1) = monitor_count m + 1) by (apply Z.mod_small; lia).
  cbn [snd thread_monitors monitor_count]. cbv zeta. unfold table_ok, entry. cbn [thread_monitors monitor_count].
  rewrite Hu. replace (Z.to_nat (monitor_count m + 1)) with (S (Z.to_nat (monitor_count m))) by lia.
  split_and!; try done; try (unfold MAX_MONITORED_THREADS; lia).
  - by rewrite length_insert.
  - rewrite take_S_r with (x := mk_thread_monitor (Some r.1.1) (Some r.1.2) (u32 r.2) (u32 r.2) 0 0 0xFFFFFFFF 0 0 0 0 0 true).
    + rewrite take_insert_ge by lia. apply Forall_app. by repeat constructor.
    + apply list_lookup_insert_eq. lia.
  - intros nm. rewrite find_first_insert by lia. cbn [is_active name]. destruct (find_first _ _ _); [done|].
    destruct (decide (r.1.1 = nm)) as [<-|Hne]; [by rewrite decide_True|].
    rewrite decide_False; [done|]. intros [_ E]. congruence.
Qed.

Lemma registrations_entry rs : ∀ m,
  table_ok m → monitor_count m + Z.of_nat (length rs) <= MAX_MONITORED_THREADS →
  NoDup (rs.*1.*1) → (∀ nm, nm ∈ rs.*1.*1 → entry nm m = None) →
  let m' := registrations rs m in
  table_ok m' ∧ monitor_count m' = monitor_count m + Z.of_nat (length rs) ∧
  (∀ nm, nm ∉ rs.*1.*1 → entry nm m' = entry nm m) ∧
  ∀ nm th t, (nm, th, t) ∈ rs → entry nm m' =
    Some (mk_thread_monitor (Some nm) (Some th) (u32 t) (u32 t) 0 0 0xFFFFFFFF 0 0 0 0 0 true).
Proof.
  induction rs as [|[[nm0 th0] t0] rs IH]; intros m Hok Hc Hnd Hno; cbv zeta.
  { split_and!; [done|cbn; lia|done|]. intros nm th t H. by apply elem_of_nil in H. }
  cbn [length fmap list_fmap] in *. rewrite NoDup_cons in Hnd. destruct Hnd as [Hnin Hnd].
  destruct (register_room m (nm0, th0, t0) Hok) as (Hok1 & Hc1 & He1); [lia|]. cbn [fst snd] in *.
  cbn [registrations foldl]. fold (registrations rs (register (nm0, th0, t0) m)).
  destruct (IH (register (nm0, th0, t0) m)) as (Hok2 & Hc2 & Hother & Hin); [done|lia|done| |].
  { intros nm H. rewrite He1, Hno by (by right). rewrite decide_False; [done|]. by intros ->. }
  split_and!; [done|lia| |].
  - intros nm H. rewrite not_elem_of_cons in H. destruct H as [Hne H].
    rewrite Hother by done. rewrite He1. rewrite decide_False by congruence. by destruct (entry nm m).
  - intros nm th t H. apply elem_of_cons in H as [H|H]; [|by apply Hin].
    injection H as -> -> ->. rewrite Hother, He1, Hno by (done || by left). by rewrite decide_True.
Qed.

(** ** The statistics *)

Lemma u32_u32_sub a b : u32 (u32 a - u32 b) = u32 (a - b).
Proof. unfold u32. by rewrite <-Zminus_mod. Qed.
Lemma u32_add_idem a b : u32 (u32 a + b) = u32 (a + b).
Proof. unfold u32. by rewrite Zplus_mod_idemp_l. Qed.

Lemma min_if a d : (if decide (d < a) then d else a) = Z.min a d.
Proof. destruct (decide (d < a)); lia. Qed.
Lemma max_if a d : (if decide (a < d) then d else a) = Z.max a d.
Proof. destruct (decide (a < d)); lia. Qed.

(** The first reading of the clock that is not 0. *)
Fixpoint first_reading (first : Z) (ts : list Z) : Z :=
  match ts with
  | [] => first
  | t :: ts => first_reading (if decide (first = 0) then u32 t else first) ts
  end.

Lemma turns_entry nm es : ∀ m e cur,
  entry nm m = Some e → current_loop_time e = u32 cur →
  Forall (λ d, 0 <= d < 2 ^ 32) (durations nm cur es) →
  ∃ e', entry nm (do_turns es m) = Some e' ∧ thread_ptr e' = thread_ptr e ∧
    (loop_count e = u32 (loop_count e) → 
     loop_count e' = u32 (loop_count e + Z.of_nat (length (durations nm cur es)))) ∧
    (total_loop_time e = u32 (total_loop_time e) →
     total_loop_time e' = u32 (total_loop_time e + foldr Z.add 0 (durations nm cur es))) ∧
    min_loop_time e' = foldl Z.min (min_loop_time e) (durations nm cur es) ∧
    max_loop_time e' = foldl Z.max (max_loop_time e) (durations nm cur es) ∧
    loop_duration e' = default (loop_duration e) (last (durations nm cur es)) ∧
    (wake_count e = u32 (wake_count e) →
     wake_count e' = u32 (wake_count e + Z.of_nat (length (starts nm es)))) ∧
    last_wake_time e' = default (last_wake_time e) (u32 <$> last (starts nm es)) ∧
    first_loop_time e' = first_reading (first_loop_time e) (starts nm es).
Proof.
  induction es as [|ev es IH]; intros m e cur He Hcur Hd.
  { exists e. cbn. rewrite !Z.add_0_r. by split_and!. }
  cbn [do_turns foldl]. fold (do_turns es (do_turn ev m)).
  pose proof (entry_turn nm ev m) as He1. rewrite He in He1. cbn [fmap option_fmap option_map] in He1.
  destruct ev as [nm' t|nm' t]; cbn [turn_name durations starts] in *;
    destruct (decide (nm = nm')) as [->|Hne]; try (by eapply IH).
  - destruct (IH _ _ t He1 eq_refl Hd) as (e' & E & Hth & Hlc & Htot & Hmin & Hmax & Hdur & Hwk & Hlw & Hfl).
    exists e'. cbn [loop_start thread_ptr loop_count total_loop_time min_loop_time max_loop_time loop_duration
      wake_count last_wake_time first_loop_time] in *.
    split_and!; try done.
    + intros Hw. rewrite Hwk by (symmetry; apply Zmod_mod). rewrite u32_add_idem. f_equal. cbn [length]. lia.
    + rewrite Hlw. by destruct (starts nm' es) as [|t' ts] using rev_ind; [|rewrite last_cons, last_snoc].
  - inversion Hd as [|d ds Hdt Hds]. subst d ds.
    destruct (IH _ _ cur He1 Hcur Hds) as (e' & E & Hth & Hlc & Htot & Hmin & Hmax & Hdur & Hwk & Hlw & Hfl).
    exists e'. cbn [loop_end thread_ptr loop_count total_loop_time min_loop_time max_loop_time loop_duration
      wake_count last_wake_time first_loop_time] in *.
    assert (Hdu : u32 (u32 t - current_loop_time e) = t - cur).
    { rewrite Hcur, u32_u32_sub. by apply Z.mod_small. }
    rewrite Hdu in *. cbn [length foldr foldl]. split_and!; try done.
    + intros Hw. rewrite Hlc by (symmetry; apply Zmod_mod). rewrite u32_add_idem. f_equal. lia.
    + intros Hw. rewrite Htot by (symmetry; apply Zmod_mod). rewrite u32_add_idem. f_equal. lia.
    + by rewrite Hmin, min_if.
    + by rewrite Hmax, max_if.
    + rewrite Hdur. by destruct (durations nm' cur es) as [|t' ts] using rev_ind; [|rewrite last_cons, last_snoc].
Qed.

(** C33.  The table measures what the threads do.  After the registration of at most
    ten threads under different names and any interleaving of their turns, the entry
    of each name has the number of its turns that ended and the sum of their true
    durations, both modulo 2^32, the shortest, the longest and the last of them, the
    number of turns that began, the clock at the last of those and the first clock
    reading that was not 0, whatever the other threads did and however often the
    clock wrapped around, as long as no turn took 2^32 ticks.  A turn that was under
    way when its thread was registered is measured from the registration.  With ten
    entries in use a further registration is refused. *)
Theorem loop_statistics rs es nm th t0 :
  NoDup (rs.*1.*1) → (length rs ≤ 10)%nat → (nm, th, t0) ∈ rs →
  let ds := durations nm t0 es in
  Forall (λ d, 0 <= d < 2 ^ 32) ds →
  let m := do_turns es (registrations rs monitors_init) in
  (∃ e, entry nm m = Some e ∧ thread_ptr e = Some th ∧
    loop_count e = u32 (Z.of_nat (length ds)) ∧ total_loop_time e = u32 (foldr Z.add 0 ds) ∧
    min_loop_time e = foldl Z.min 0xFFFFFFFF ds ∧ max_loop_time e = foldl Z.max 0 ds ∧
    loop_duration e = default 0 (last ds) ∧
    wake_count e = u32 (Z.of_nat (length (starts nm es))) ∧
    last_wake_time e = default 0 (u32 <$> last (starts nm es)) ∧
    first_loop_time e = first_reading 0 (starts nm es)) ∧
  (length rs = 10%nat → ∀ nm' th' now, register_thread_monitor nm' th' now m = (false, m)).
Proof.
  intros Hnd Hlen Hin ds Hds m.
  destruct (registrations_entry rs monitors_init) as (_ & Hc & _ & He); try done.
  { unfold MAX_MONITORED_THREADS. cbn [monitors_init monitor_count]. lia. }
  split.
  - destruct (turns_entry nm es _ _ t0 (He _ _ _ Hin) eq_refl Hds)
      as (e' & E & Hth & Hlc & Htot & Hmin & Hmax & Hdur & Hwk & Hlw & Hfl).
    exists e'. cbn [thread_ptr loop_count total_loop_time min_loop_time max_loop_time loop_duration
      wake_count last_wake_time first_loop_time] in *. rewrite Hlc, Htot, Hwk by done. by split_and!.
  - intros Hl nm' th' now. apply register_full. unfold m.
    assert (Hk : ∀ es m0, monitor_count (do_turns es m0) = monitor_count m0).
    { clear. induction es as [|ev es IH]; intros m0; [done|]. cbn [do_turns foldl].
      etrans; [apply IH|]. by destruct ev. }
    rewrite Hk, Hc, Hl. reflexivity.
Qed.

(** The blinker has begun a turn before [main] registers it; a later turn of it runs
    over the wrap-around of the clock. *)
Definition bench_turns : list turn :=
  [Start "HID" 4294967000; End_ "blinker" 4294967200; Start "blinker" 4294967290; End_ "HID" 4294967300;
   End_ "blinker" 4294967316].
Lemma loop_statistics_witness :
  ∃ e, entry "blinker" (do_turns bench_turns (registrations (main_registrations 4294967100) monitors_init)) = Some e ∧
    loop_count e = 2 ∧ total_loop_time e = 126 ∧ min_loop_time e = 26 ∧ max_loop_time e = 100 ∧ wake_count e = 1.
Proof.
  destruct (loop_statistics (main_registrations 4294967100) bench_turns "blinker" 1%nat 4294967100)
    as [(e & E & _ & H1 & H2 & H3 & H4 & _ & H5 & _) _].
  - by_decision.
  - vm_compute. lia.
  - left.
  - by_decision.
  - exists e. split_and!; [exact E|exact H1|exact H2|exact H3|exact H4|exact H5].
Defined.
