(* ===== verification/IpAddr.v ===== *)
(** * Addresses as text

    [ip4addr_aton] and [ip4addr_ntoa_r] of lwIP (src/ChibiOS_21.11.x/ext/lwip/src/core/
    ipv4/ip4_addr.c), which read and print the addresses the shell's commands take.
    A C string is the list of its characters' codes, without the null character at
    its end: the character at the end of the list is 0. *)
From S2P Require Import Prelude.

Definition chars (s : string) : list Z := (λ c, Z.of_N (Ascii.N_of_ascii c)) <$> String.list_ascii_of_string s.
(** [*cp]. *)
Definition char_at (cp : list Z) : Z := default 0 (head cp).

Definition lwip_in_range (c lo up : Z) : bool := bool_decide (lo <= u8 c) && bool_decide (u8 c <= up).
Definition lwip_isdigit (c : Z) : bool := lwip_in_range c 48 57.
Definition lwip_isxdigit (c : Z) : bool :=
  lwip_isdigit c || lwip_in_range c 97 102 || lwip_in_range c 65 70.
Definition lwip_islower (c : Z) : bool := lwip_in_range c 97 122.
Definition lwip_isspace (c : Z) : bool :=
  bool_decide (c = 32) || bool_decide (c = 12) || bool_decide (c = 10) || bool_decide (c = 13)
  || bool_decide (c = 9) || bool_decide (c = 11).

(** [PP_HTONL] on a little-endian machine. *)
Definition lwip_htonl (x : Z) : Z :=
  Z.lor (Z.lor (Z.lor (u32 (Z.shiftl (Z.land x 0xff) 24)) (u32 (Z.shiftl (Z.land x 0xff00) 8)))
    (Z.shiftr (Z.land x 0xff0000) 8)) (Z.shiftr (Z.land x 0xff000000) 24).

(** A byte of an address as it lies in memory. *)
Definition ip4_addr_get_byte (addr : Z) (i : Z) : Z := Z.land (Z.shiftr addr (8 * i)) 255.
Definition ip4_addr1 (addr : Z) : Z := ip4_addr_get_byte addr 0.
Definition ip4_addr2 (addr : Z) : Z := ip4_addr_get_byte addr 1.
Definition ip4_addr3 (addr : Z) : Z := ip4_addr_get_byte addr 2.
Definition ip4_addr4 (addr : Z) : Z := ip4_addr_get_byte addr 3.

(** ** Reading *)

(** The inner loop: a number in the given base, and what follows it. *)
Fixpoint aton_number (base val : Z) (cp : list Z) : Z * list Z :=
  match cp with
  | [] => (val, cp)
  | c :: cp' =>
      if lwip_isdigit c then
        if bool_decide (base = 8) && bool_decide (8 <= c - 48) then (val, cp)
        else aton_number base (u32 (val * base + (c - 48))) cp'
      else if bool_decide (base = 16) && lwip_isxdigit c then
        aton_number base
          (u32 (Z.lor (Z.shiftl val 4) (c + 10 - (if lwip_islower c then 97 else 65)))) cp'
      else (val, cp)
  end.

(** The prefix of a number gives its base. *)
Definition aton_prefix (cp : list Z) : Z * list Z :=
  if decide (char_at cp = 48) then
    let cp := tail cp in
    if decide (char_at cp = 120 ∨ char_at cp = 88) then (16, tail cp) else (8, cp)
  else (10, cp).

(** The outer loop, with room for [room] more parts; [parts] are the numbers before
    the last, which is given back with what follows it. *)
Fixpoint aton_parts (room : nat) (parts : list Z) (cp : list Z) : option (list Z * Z * list Z) :=
  if lwip_isdigit (char_at cp) then
    let '(base, cp) := aton_prefix cp in
    let '(val, cp) := aton_number base 0 cp in
    if decide (char_at cp = 46) then
      match room with
      | O => None
      | S room => aton_parts room (parts ++ [val]) (tail cp)
      end
    else Some (parts, val, cp)
  else None.

(** The address in host order, by the number of parts. *)
Definition aton_combine (parts : list Z) (val : Z) : option Z :=
  match parts with
  | [] => Some val
  | [p0] =>
      if decide (val > 0xffffff) then None else
      if decide (p0 > 0xff) then None else
      Some (Z.lor val (u32 (Z.shiftl p0 24)))
  | [p0; p1] =>
      if decide (val > 0xffff) then None else
      if decide (p0 > 0xff ∨ p1 > 0xff) then None else
      Some (Z.lor val (Z.lor (u32 (Z.shiftl p0 24)) (u32 (Z.shiftl p1 16))))
  | [p0; p1; p2] =>
      if decide (val > 0xff) then None else
      if decide (p0 > 0xff ∨ p1 > 0xff ∨ p2 > 0xff) then None else
      Some (Z.lor val (Z.lor (Z.lor (u32 (Z.shiftl p0 24)) (u32 (Z.shiftl p1 16))) (u32 (Z.shiftl p2 8))))
  | _ => Some val
  end.

(** [None] is the result 0; otherwise the address stored, in network order. *)
Definition ip4addr_aton (cp : list Z) : option Z :=
  match aton_parts 3 [] cp with
  | None => None
  | Some (parts, val, cp) =>
      if decide (char_at cp ≠ 0 ∧ lwip_isspace (char_at cp) = false) then None
      else lwip_htonl <$> aton_combine parts val
  end.

(** ** Printing *)

(** The digits of a byte, the last first: one for each turn of the loop, of which a
    byte has at most three. *)
Fixpoint octet_digits (fuel : nat) (v : Z) : list Z :=
  match fuel with
  | O => []
  | S fuel => (48 + v `mod` 10) :: (if decide (v `div` 10 = 0) then [] else octet_digits fuel (v `div` 10))
  end.

(** [if (len++ >= buflen) return NULL; *rp++ = c;] for each character. *)
Fixpoint emit (cs : list Z) (buflen : Z) (out : list Z) : option (list Z) :=
  match cs with
  | [] => Some out
  | c :: cs => if decide (Z.of_nat (length out) >= buflen) then None else emit cs buflen (out ++ [c])
  end.
Fixpoint ntoa_bytes (bytes : list Z) (buflen : Z) (out : list Z) : option (list Z) :=
  match bytes with
  | [] => Some out
  | b :: bytes =>
      out ← emit (reverse (octet_digits 3 b)) buflen out;
      out ← emit [46] buflen out;
      ntoa_bytes bytes buflen out
  end.
Definition IP4ADDR_STRLEN_MAX : Z := 16.

(** The text in the buffer, or [None] for the null pointer.  The last dot becomes the
    null character. *)
Definition ip4addr_ntoa_r (addr : Z) (buflen : Z) : option (list Z) :=
  out ← ntoa_bytes [ip4_addr1 addr; ip4_addr2 addr; ip4_addr3 addr; ip4_addr4 addr] buflen [];
  Some (take (length out - 1) out).

Example aton_ex1 : ip4addr_aton (chars "192.168.0.10") = Some 0x0A00A8C0.
Proof. vm_compute. reflexivity. Qed.
Example aton_ex2 : ip4addr_aton (chars "0300.0xa8.10 x") = Some 0x0A00A8C0.
Proof. vm_compute. reflexivity. Qed.
Example aton_ex3 : ip4addr_aton (chars "192.168.0.256") = None.
Proof. vm_compute. reflexivity. Qed.
Example ntoa_ex : ip4addr_ntoa_r 0x0A00A8C0 16 = Some (chars "192.168.0.10").
Proof. vm_compute. reflexivity. Qed.

(** ** Bytes of an address *)

Lemma get_byte_bit x i n : 0 <= n → 0 <= i →
  Z.testbit (ip4_addr_get_byte x i) n = bool_decide (n < 8) && Z.testbit x (n + 8 * i).
Proof.
  intros Hn Hi. unfold ip4_addr_get_byte. rewrite Z.land_spec, Z.shiftr_spec by done.
  change 255 with (Z.ones 8). destruct (decide (n < 8)) as [H|H].
  - rewrite bool_decide_eq_true_2 by done. rewrite Z.ones_spec_low by lia. by rewrite andb_comm.
  - rewrite bool_decide_eq_false_2 by done. rewrite Z.ones_spec_high by lia. by rewrite andb_comm.
Qed.

Lemma get_byte_htonl x i : 0 <= i < 4 → ip4_addr_get_byte (lwip_htonl x) i = ip4_addr_get_byte x (3 - i).
Proof.
  intros Hi. apply Z.bits_inj'. intros n Hn. rewrite !get_byte_bit by lia.
  case_bool_decide as H8; [|done]. cbn [andb].
  assert (Hu : ∀ v k, 0 <= k → Z.testbit (u32 v) k = bool_decide (k < 32) && Z.testbit v k).
  { intros v k Hk. unfold u32. change 4294967296 with (2 ^ 32). case_bool_decide.
    - by rewrite Z.mod_pow2_bits_low.
    - by rewrite Z.mod_pow2_bits_high by lia. }
  unfold lwip_htonl. rewrite !Z.lor_spec, !Hu, !Z.shiftl_spec, !Z.shiftr_spec, !Z.land_spec by lia.
  assert (Hi' : i = 0 ∨ i = 1 ∨ i = 2 ∨ i = 3) by lia.
  assert (Hn' : n = 0 ∨ n = 1 ∨ n = 2 ∨ n = 3 ∨ n = 4 ∨ n = 5 ∨ n = 6 ∨ n = 7) by lia.
  destruct Hi' as [->|[->|[->| ->]]]; destruct Hn' as [->|[->|[->|[->|[->|[->|[->| ->]]]]]]];
    cbn [Z.add Z.mul Z.sub Z.opp Z.pos_sub Pos.add Pos.mul Pos.succ Pos.pred_double];
    repeat match goal with |- context [Z.testbit (Zpos ?p) ?q] =>
      let b := eval vm_compute in (Z.testbit (Zpos p) q) in change (Z.testbit (Zpos p) q) with b end;
    cbn -[Z.testbit]; rewrite ?andb_true_r, ?andb_false_r, ?orb_false_r, ?orb_false_l; try done;
    rewrite ?Z.testbit_neg_r by done; by rewrite ?andb_false_l, ?orb_false_r.
Qed.

Lemma u32_bits z : (∀ n, 32 <= n → Z.testbit z n = false) → is_u32 z.
Proof.
  intros H. assert (E : z = u32 z); [|rewrite E; apply u32_range].
  apply Z.bits_inj'. intros n Hn. unfold u32. change 4294967296 with (2 ^ 32).
  destruct (decide (n < 32)); [by rewrite Z.mod_pow2_bits_low|].
  rewrite Z.mod_pow2_bits_high by lia. apply H. lia.
Qed.

Lemma u32_bit_high z n : is_u32 z → 32 <= n → Z.testbit z n = false.
Proof. intros. by apply (testbit_small z 32). Qed.

Lemma htonl_range x : is_u32 x → is_u32 (lwip_htonl x).
Proof.
  intros Hx. apply u32_bits. intros n Hn. unfold lwip_htonl.
  rewrite !Z.lor_spec, !Z.shiftr_spec, !Z.land_spec, !(u32_bit_high (u32 _)) by (done || lia).
  by rewrite !(u32_bit_high x) by (done || lia).
Qed.

Lemma get_byte_value x i : 0 <= i → ip4_addr_get_byte x i = (x `div` 2 ^ (8 * i)) `mod` 256.
Proof.
  intros Hi. unfold ip4_addr_get_byte. change 255 with (Z.ones 8).
  rewrite Z.land_ones, Z.shiftr_div_pow2 by lia. done.
Qed.
Lemma get_byte_u8 x i : 0 <= i → is_u8 (ip4_addr_get_byte x i).
Proof. intros. rewrite get_byte_value by done. apply Z.mod_pos_bound. lia. Qed.

(** The address whose bytes in memory are these, the first of which has the lowest
    place. *)
Definition addr_of (a b c d : Z) : Z := a + 256 * b + 65536 * c + 16777216 * d.

Lemma addr_of_bytes x : is_u32 x →
  x = addr_of (ip4_addr1 x) (ip4_addr2 x) (ip4_addr3 x) (ip4_addr4 x).
Proof.
  intros Hx. unfold ip4_addr1, ip4_addr2, ip4_addr3, ip4_addr4, addr_of, is_u32 in *.
  rewrite !get_byte_value by lia. change (2 ^ (8 * 0)) with 1. change (2 ^ (8 * 1)) with 256.
  change (2 ^ (8 * 2)) with 65536. change (2 ^ (8 * 3)) with 16777216.
  Z.to_euclidean_division_equations. lia.
Qed.

Lemma bytes_of_addr a b c d : is_u8 a → is_u8 b → is_u8 c → is_u8 d →
  let x := addr_of a b c d in
  is_u32 x ∧ ip4_addr1 x = a ∧ ip4_addr2 x = b ∧ ip4_addr3 x = c ∧ ip4_addr4 x = d.
Proof.
  unfold is_u8, is_u32, ip4_addr1, ip4_addr2, ip4_addr3, ip4_addr4. cbv zeta. intros.
  rewrite !get_byte_value by lia. change (2 ^ (8 * 0)) with 1. change (2 ^ (8 * 1)) with 256.
  change (2 ^ (8 * 2)) with 65536. change (2 ^ (8 * 3)) with 16777216. unfold addr_of.
  split_and!; Z.to_euclidean_division_equations; lia.
Qed.

Lemma htonl_addr a b c d : is_u8 a → is_u8 b → is_u8 c → is_u8 d →
  lwip_htonl (addr_of d c b a) = addr_of a b c d.
Proof.
  intros Ha Hb Hc Hd. destruct (bytes_of_addr d c b a Hd Hc Hb Ha) as (Hx & H1 & H2 & H3 & H4).
  rewrite (addr_of_bytes (lwip_htonl _)) by (by apply htonl_range).
  unfold ip4_addr1, ip4_addr2, ip4_addr3, ip4_addr4 in *. rewrite !get_byte_htonl by lia.
  change (3 - 0) with 3. change (3 - 1) with 2. change (3 - 2) with 1. change (3 - 3) with 0.
  by rewrite H1, H2, H3, H4.
Qed.

(** ** Reading decimal text *)

(** The digits of a number as text: no zero in front, but for the number 0. *)
Definition text (ds : list Z) : list Z := (λ d, 48 + d) <$> ds.
Definition dec_part (ds : list Z) : Prop :=
  ds ≠ [] ∧ Forall (λ d, 0 <= d <= 9) ds ∧ (head ds = Some 0 → ds = [0]).
Fixpoint dotted (ps : list (list Z)) : list Z :=
  match ps with
  | [] => []
  | [p] => text p
  | p :: ps => text p ++ 46 :: dotted ps
  end.
Definition dec_value (ds : list Z) : Z := foldl (λ v d, 10 * v + d) 0 ds.

(** The text ends, or goes on with anything but a digit, a dot or an x. *)
Definition stops (rest : list Z) : Prop :=
  lwip_isdigit (char_at rest) = false ∧ char_at rest ≠ 46 ∧ char_at rest ≠ 120 ∧ char_at rest ≠ 88.

#[export] Instance dec_part_dec ds : Decision (dec_part ds).
Proof. unfold dec_part. apply _. Defined.
#[export] Instance stops_dec rest : Decision (stops rest).
Proof. unfold stops. apply _. Defined.

Lemma digit_char d : 0 <= d <= 9 → lwip_isdigit (48 + d) = true.
Proof.
  intros. unfold lwip_isdigit, lwip_in_range. rewrite u8_id by (unfold is_u8; lia).
  rewrite !bool_decide_eq_true_2 by lia. done.
Qed.

Lemma number_stops base v rest : base ≠ 16 → lwip_isdigit (char_at rest) = false →
  aton_number base v rest = (v, rest).
Proof.
  intros Hb. destruct rest as [|c rest]; [done|]. intros H.
  change (lwip_isdigit c = false) in H. cbn [aton_number]. rewrite H.
  by rewrite bool_decide_eq_false_2.
Qed.

Lemma number_digits ds rest : Forall (λ d, 0 <= d <= 9) ds → lwip_isdigit (char_at rest) = false → ∀ v,
  u32 v = v → aton_number 10 v (text ds ++ rest) = (u32 (foldl (λ v d, 10 * v + d) v ds), rest).
Proof.
  intros Hds Hr. induction Hds as [|d ds Hd Hds IH]; intros v Hv.
  { cbn [foldl]. rewrite Hv. by apply number_stops. }
  change (text (d :: ds) ++ rest) with ((48 + d) :: (text ds ++ rest)). cbn [aton_number].
  rewrite digit_char by done. change (bool_decide (10 = 8)) with false. cbn [andb].
  rewrite IH by apply Zmod_mod. cbn [foldl]. f_equal.
  assert (Hm : ∀ ds x y, u32 x = u32 y → u32 (foldl (λ v d, 10 * v + d) x ds) = u32 (foldl (λ v d, 10 * v + d) y ds)).
  { clear. induction ds as [|d ds IH]; intros x y E; [done|]. cbn [foldl]. apply IH. unfold u32 in *.
    rewrite Zplus_mod, Zmult_mod, E, <-Zmult_mod, <-Zplus_mod. done. }
  apply Hm. unfold u32. rewrite Zmod_mod. f_equal. lia.
Qed.

(** One part of the text. *)
Lemma part_number p rest : dec_part p → lwip_isdigit (char_at rest) = false →
  char_at rest ≠ 120 → char_at rest ≠ 88 →
  lwip_isdigit (char_at (text p ++ rest)) = true ∧
  (let '(base, cp) := aton_prefix (text p ++ rest) in aton_number base 0 cp) = (u32 (dec_value p), rest).
Proof.
  intros (Hne & Hds & Hz) Hr Hx HX. destruct p as [|d p]; [done|].
  pose proof Hds as Hds'. apply Forall_cons in Hds' as [Hd Hp].
  change (text (d :: p) ++ rest) with ((48 + d) :: (text p ++ rest)).
  change (char_at ((48 + d) :: (text p ++ rest))) with (48 + d). split; [by apply digit_char|].
  unfold aton_prefix. change (char_at ((48 + d) :: (text p ++ rest))) with (48 + d). cbn [tail].
  destruct (decide (48 + d = 48)) as [E|E].
  - assert (d = 0) as -> by lia. injection (Hz eq_refl) as ->. cbn [text fmap list_fmap app].
    rewrite decide_False by tauto. by rewrite number_stops.
  - change ((48 + d) :: (text p ++ rest)) with (text (d :: p) ++ rest).
    by rewrite number_digits.
Qed.

Lemma parts_decimal ps rest : stops rest → Forall dec_part ps → ps ≠ [] → ∀ room acc,
  aton_parts room acc (dotted ps ++ rest) =
    if decide (length ps ≤ S room)%nat then
      Some (acc ++ ((λ p, u32 (dec_value p)) <$> take (length ps - 1) ps), u32 (dec_value (default [] (last ps))), rest)
    else None.
Proof.
  intros (Hr & Hdot & Hx & HX) Hps Hne. induction Hps as [|p ps Hp Hps IH]; [done|]. intros room acc.
  destruct ps as [|p' ps].
  - cbn [dotted length]. destruct (part_number p rest Hp Hr Hx HX) as [H1 H2].
    rewrite decide_True by lia. destruct room; cbn [aton_parts]; rewrite H1;
      (destruct (aton_prefix _) as [base cp]; rewrite H2, decide_False by done; by rewrite app_nil_r).
  - change (dotted (p :: p' :: ps) ++ rest) with ((text p ++ 46 :: dotted (p' :: ps)) ++ rest).
    rewrite <-app_assoc, <-app_comm_cons.
    destruct (part_number p (46 :: (dotted (p' :: ps) ++ rest)) Hp) as [H1 H2]; [done..|].
    destruct room as [|room]; cbn [aton_parts]; rewrite H1; destruct (aton_prefix _) as [base cp]; rewrite H2;
      rewrite decide_True by done.
    + rewrite decide_False; [done|]. cbn [length]. lia.
    + cbn [tail]. rewrite IH by done. cbn [length]. destruct (decide _) as [Hl|Hl].
      * rewrite decide_True by lia. rewrite <-app_assoc. do 3 f_equal.
        by replace (S (S (length ps)) - 1)%nat with (S (S (length ps) - 1)) by lia.
      * rewrite decide_False by lia. done.
Qed.

(** ** The meaning of an address *)

(** The address of one to four numbers: each but the last is a byte, the first the
    highest, and the last fills the bytes that are left. *)
Definition part_limit (n : nat) : Z := 256 ^ (5 - Z.of_nat n).
Definition address_of (vs : list Z) : option Z :=
  match vs with
  | [v] => Some v
  | [a; v] => if decide (a < 256 ∧ v < part_limit 2) then Some (16777216 * a + v) else None
  | [a; b; v] =>
      if decide (a < 256 ∧ b < 256 ∧ v < part_limit 3) then Some (16777216 * a + 65536 * b + v) else None
  | [a; b; c; v] =>
      if decide (a < 256 ∧ b < 256 ∧ c < 256 ∧ v < part_limit 4)
      then Some (16777216 * a + 65536 * b + 256 * c + v) else None
  | _ => None
  end.

Lemma lor_shift a b k : 0 <= k → 0 <= a < 2 ^ k → Z.lor a (Z.shiftl b k) = a + 2 ^ k * b.
Proof.
  intros Hk Ha. rewrite Z.shiftl_mul_pow2, Z.mul_comm, <-Z.add_lor_land by done.
  assert (E : Z.land a (2 ^ k * b) = 0); [|lia].
  apply Z.bits_inj'. intros n Hn. rewrite Z.land_spec, Z.bits_0, Z.mul_comm.
  destruct (decide (n < k)).
  - rewrite Z.mul_pow2_bits_low by done. apply andb_false_r.
  - rewrite (testbit_small a k) by lia. done.
Qed.

Lemma combine_address vs v : Forall is_u32 vs → is_u32 v → (length vs ≤ 3)%nat →
  aton_combine vs v = address_of (vs ++ [v]).
Proof.
  intros Hvs Hv Hl. unfold is_u32 in *. unfold aton_combine, address_of.
  change (part_limit 2) with 16777216. change (part_limit 3) with 65536. change (part_limit 4) with 256.
  assert (Hs : ∀ p k, 0 <= k <= 24 → 0 <= p < 256 → u32 (Z.shiftl p k) = Z.shiftl p k).
  { intros p k Hk Hp. apply u32_id. unfold is_u32. rewrite Z.shiftl_mul_pow2 by lia.
    assert (2 ^ k <= 2 ^ 24) by (apply Z.pow_le_mono_r; lia). change (2 ^ 24) with 16777216 in *. nia. }
  destruct vs as [|p0 [|p1 [|p2 [|p3 vs]]]]; cbn [app length] in *; [done| | | |lia].
  - apply Forall_cons in Hvs as [H0 _].
    repeat case_decide; try done; try lia. rewrite Hs by lia. rewrite lor_shift by lia. f_equal. lia.
  - apply Forall_cons in Hvs as [H0 Hvs]. apply Forall_cons in Hvs as [H1 _].
    repeat case_decide; try done; try lia. rewrite !Hs by lia.
    rewrite (Z.lor_comm (Z.shiftl p0 24)), Z.lor_assoc, (lor_shift v), lor_shift by lia. f_equal. lia.
  - apply Forall_cons in Hvs as [H0 Hvs]. apply Forall_cons in Hvs as [H1 Hvs]. apply Forall_cons in Hvs as [H2 _].
    repeat case_decide; try done; try lia. rewrite !Hs by lia.
    rewrite (Z.lor_comm _ (Z.shiftl p2 8)), (Z.lor_comm (Z.shiftl p0 24)), !Z.lor_assoc.
    rewrite (lor_shift v), (lor_shift _ p1), lor_shift by lia. f_equal. lia.
Qed.

(** Reading decimal text.  One to four decimal numbers with dots between them,
    followed by nothing or by white space and whatever comes after it, are the
    address whose first numbers are its first bytes and whose last number fills the
    rest of it, in network order; each number counts modulo 2^32, which for a number
    of ten and more digits is another number.  A number out of its range, a fifth
    number or anything else after the text is refused. *)
Theorem aton_decimal ps rest :
  ps ≠ [] → Forall dec_part ps → stops rest →
  ip4addr_aton (dotted ps ++ rest) =
    if decide ((length ps ≤ 4)%nat ∧ (char_at rest = 0 ∨ lwip_isspace (char_at rest) = true)) then
      lwip_htonl <$> address_of ((λ p, u32 (dec_value p)) <$> ps)
    else None.
Proof.
  intros Hne Hps Hr. unfold ip4addr_aton. rewrite parts_decimal by done. cbn [app].
  destruct (decide (length ps ≤ 4)%nat) as [Hl|Hl]; [|rewrite decide_False; [done|lia]].
  destruct (decide (char_at rest ≠ 0 ∧ lwip_isspace (char_at rest) = false)) as [[H1 H2]|H].
  { rewrite decide_False; [done|]. intros [_ [?|?]]; congruence. }
  rewrite decide_True.
  2:{ split; [done|]. destruct (decide (char_at rest = 0)); [by left|right]. by destruct (lwip_isspace _); [|destruct H]. }
  f_equal. destruct ps as [|p ps _] using rev_ind; [done|].
  rewrite last_snoc, length_app, fmap_app. cbn [length default fmap list_fmap].
  replace (length ps + 1 - 1)%nat with (length ps) by lia. rewrite take_app_length.
  apply combine_address; [|apply u32_range|rewrite length_fmap, length_app in *; cbn [length] in *; lia].
  apply Forall_fmap, Forall_true. intros x. apply u32_range.
Qed.

(** The largest last number, a number that has wrapped around, and text after the
    address. *)
Lemma aton_decimal_witness :
  ip4addr_aton (chars "10.16777215") = Some 0xFFFFFF0A ∧
  ip4addr_aton (chars "4294967297") = Some 0x01000000 ∧
  ip4addr_aton (chars "1.2.3.4 or so") = Some 0x04030201 ∧
  ip4addr_aton (chars "1.2.3.4:80") = None.
Proof.
  split_and!.
  - apply (aton_decimal [[1; 0]; [1; 6; 7; 7; 7; 2; 1; 5]] []); by_decision.
  - apply (aton_decimal [[4; 2; 9; 4; 9; 6; 7; 2; 9; 7]] []); by_decision.
  - apply (aton_decimal [[1]; [2]; [3]; [4]] (chars " or so")); by_decision.
  - apply (aton_decimal [[1]; [2]; [3]; [4]] (chars ":80")); by_decision.
Defined.

(** The digits of a byte. *)
Definition byte_digits (b : Z) : list Z := (λ c, c - 48) <$> reverse (octet_digits 3 b).
Definition byte_digits_ok (b : Z) : bool :=
  bool_decide (reverse (octet_digits 3 b) = text (byte_digits b)) && bool_decide (dec_part (byte_digits b)) &&
  bool_decide (dec_value (byte_digits b) = b) && bool_decide (length (byte_digits b) ≤ 3)%nat.
Lemma byte_digits_spec b : is_u8 b →
  reverse (octet_digits 3 b) = text (byte_digits b) ∧ dec_part (byte_digits b) ∧
  dec_value (byte_digits b) = b ∧ (length (byte_digits b) ≤ 3)%nat.
Proof.
  intros Hb. assert (H : byte_digits_ok b = true).
  { revert b Hb. apply (forall_below byte_digits_ok 256). vm_compute. reflexivity. }
  unfold byte_digits_ok in H. rewrite !andb_true_iff, !bool_decide_eq_true in H. tauto.
Qed.

Lemma emit_app a b buflen : ∀ out, emit (a ++ b) buflen out = (emit a buflen out ≫= emit b buflen).
Proof. induction a as [|c a IH]; intros out; [done|]. cbn [emit app]. by destruct (decide _). Qed.

Lemma emit_spec cs buflen : ∀ out, cs ≠ [] → emit cs buflen out =
  if decide (Z.of_nat (length (out ++ cs)) <= buflen) then Some (out ++ cs) else None.
Proof.
  induction cs as [|c cs IH]; intros out Hne; [done|]. cbn [emit].
  destruct cs as [|c' cs].
  - rewrite length_app. cbn [emit length]. repeat case_decide; done || lia.
  - rewrite IH, <-app_assoc by done. cbn [app]. rewrite length_app. cbn [length].
    repeat case_decide; done || lia.
Qed.

Lemma ntoa_bytes_emit bs buflen : Forall is_u8 bs → ∀ out,
  ntoa_bytes bs buflen out = emit (concat ((λ b, text (byte_digits b) ++ [46]) <$> bs)) buflen out.
Proof.
  induction 1 as [|b bs Hb Hbs IH]; intros out; [done|].
  destruct (byte_digits_spec b Hb) as (Et & _). cbn [ntoa_bytes fmap list_fmap concat].
  rewrite Et, <-app_assoc, !emit_app.
  destruct (emit (text (byte_digits b)) buflen out) as [o|]; [|done].
  change (emit ([46] ++ ?l) buflen o) with (emit ([46] ++ l) buflen o). cbn [mbind option_bind].
  rewrite emit_app. destruct (emit [46] buflen o) as [o'|]; [|done]. apply IH.
Qed.

(** Printing and reading an address undo each other.  Every address has a text of
    at most 15 characters, the four decimal bytes with dots between them; with a
    buffer of more characters than that text [ip4addr_ntoa_r] gives it, with a smaller one
    the null pointer, so it never fails with [IP4ADDR_STRLEN_MAX]; and [ip4addr_aton]
    reads the text, alone or before white space, back to the address. *)
Theorem aton_ntoa addr : is_u32 addr →
  ∃ t, (∀ buflen, ip4addr_ntoa_r addr buflen = if decide (Z.of_nat (length t) < buflen) then Some t else None) ∧
    Z.of_nat (length t) < IP4ADDR_STRLEN_MAX ∧
    t = dotted (byte_digits <$> [ip4_addr1 addr; ip4_addr2 addr; ip4_addr3 addr; ip4_addr4 addr]) ∧
    ∀ rest, rest = [] ∨ lwip_isspace (char_at rest) = true → ip4addr_aton (t ++ rest) = Some addr.
Proof.
  intros Hu. set (bs := [ip4_addr1 addr; ip4_addr2 addr; ip4_addr3 addr; ip4_addr4 addr]).
  assert (Hbs : Forall is_u8 bs) by (repeat constructor; apply get_byte_u8; lia).
  assert (Hds : Forall (λ b, dec_part (byte_digits b) ∧ dec_value (byte_digits b) = b ∧
    (length (byte_digits b) ≤ 3)%nat) bs).
  { eapply Forall_impl; [exact Hbs|]. intros b Hb. by destruct (byte_digits_spec b Hb) as (_ & ?). }
  set (t := dotted (byte_digits <$> bs)).
  assert (Hall : concat ((λ b, text (byte_digits b) ++ [46]) <$> bs) = t ++ [46]).
  { unfold t, bs. cbn [fmap list_fmap concat dotted]. rewrite app_nil_r. by repeat (rewrite <-app_assoc; cbn [app]). }
  assert (Hlen : (length t ≤ 15)%nat).
  { unfold t, bs in *. cbn [fmap list_fmap dotted]. rewrite !Forall_cons in Hds. unfold text.
    repeat (rewrite length_app, length_fmap; cbn [length]). rewrite length_fmap. lia. }
  exists t. split_and!; [|unfold IP4ADDR_STRLEN_MAX; lia|done|].
  - intros buflen. unfold ip4addr_ntoa_r. fold bs. rewrite ntoa_bytes_emit, Hall, emit_spec by
      (done || by destruct t). cbn [app]. rewrite length_app. cbn [length].
    destruct (decide (Z.of_nat (length t) < buflen)).
    + rewrite decide_True by lia. cbn [mbind option_bind]. rewrite length_app, take_app_le, take_ge by (cbn; lia). done.
    + by rewrite decide_False by lia.
  - intros rest Hrest. unfold t. rewrite aton_decimal.
    + rewrite decide_True by (split; [cbn; lia|destruct Hrest as [->|]; auto]).
      rewrite <-list_fmap_compose.
      assert (E : ∀ b, is_u8 b → u32 (dec_value (byte_digits b)) = b).
      { intros b Hb. destruct (byte_digits_spec b Hb) as (_ & _ & -> & _). apply u32_id.
        unfold is_u8, is_u32 in *. lia. }
      unfold bs in *. rewrite !Forall_cons in Hbs. cbn [fmap list_fmap compose]. unfold compose.
      rewrite !E by tauto. unfold is_u8 in Hbs.
      cbn [address_of]. rewrite decide_True by (change (part_limit 4) with 256; lia).
      rewrite (addr_of_bytes addr Hu) at 5. cbn [fmap option_fmap option_map]. f_equal.
      rewrite <-htonl_addr by (unfold is_u8; lia). f_equal. unfold addr_of. lia.
    + done.
    + apply Forall_fmap. eapply Forall_impl; [exact Hds|]. by intros b (? & _).
    + destruct Hrest as [->|Hs]; [by repeat split|].
      unfold lwip_isspace in Hs. unfold stops. rewrite !orb_true_iff, !bool_decide_eq_true in Hs.
      destruct Hs as [[[[[->| ->]| ->]| ->]| ->]| ->]; by repeat split.
Qed.

Lemma aton_ntoa_witness :
  ∃ t, ip4addr_ntoa_r 0x0A00A8C0 16 = Some t ∧ ip4addr_aton (t ++ []) = Some 0x0A00A8C0.
Proof.
  destruct (aton_ntoa 0x0A00A8C0) as (t & H & Hl & _ & Hr); [by split|].
  exists t. split; [|apply Hr; by left]. rewrite H. by rewrite decide_True.
Defined.
