(* ===== verification/Net.v ===== *)
(** * Network settings

    The part of src/main.c that keeps the addresses: the reconfiguration of the
    interface (with [do_reconfigure] of os/various/lwip_bindings/lwipthread.c, which the
    network thread runs for it), the text of the UDP destination behind its mutex, and
    the datagram a turn of [UdpServerThread] sends. *)
From S2P Require Import Prelude IpAddr.

(** ** State *)

Inductive net_addr_mode_t : Type := NET_ADDRESS_DHCP | NET_ADDRESS_STATIC.

Record netif : Type := mk_netif { ip_addr : Z; netmask : Z; gw : Z }.
Record lwipreconf_opts_t : Type := mk_reconf {
  opt_address : Z; opt_netmask : Z; opt_gateway : Z; opt_addrMode : net_addr_mode_t }.

Record net_state : Type := mk_net {
  addressMode : net_addr_mode_t;
  thisif : netif;
  udp_dest_ip : list Z }.         (* 16 characters of memory *)

(** [IP4_ADDR]: the bytes in memory order. *)
Definition IP4_ADDR (a b c d : Z) : Z :=
  lwip_htonl (Z.lor (Z.lor (Z.lor (Z.shiftl (Z.land a 0xff) 24) (Z.shiftl (Z.land b 0xff) 16))
    (Z.shiftl (Z.land c 0xff) 8)) (Z.land d 0xff)).

Definition udp_dest_size : nat := 16.
Definition net_init : net_state :=
  mk_net NET_ADDRESS_STATIC
    (mk_netif (IP4_ADDR 192 168 0 100) (IP4_ADDR 255 255 255 0) (IP4_ADDR 192 168 0 1))
    (chars "192.168.0.10" ++ replicate 4 0).

(** ** Strings in memory *)

(** The characters before the first null character. *)
Fixpoint cstr (mem : list Z) : list Z :=
  match mem with
  | [] => []
  | c :: mem => if decide (c = 0) then [] else c :: cstr mem
  end.
(** [strncpy(dst, src, n)] of the string [src]: short ones are filled up with null
    characters, long ones have none at their end. *)
Definition strncpy (dst src : list Z) (n : nat) : list Z := take n (src ++ replicate n 0) ++ drop n dst.

(** ** The interface *)

(** What it does in the static mode; the other mode starts and stops a protocol and
    is not described ([None]). *)
Definition do_reconfigure (opts : lwipreconf_opts_t) (s : net_state) : option net_state :=
  match addressMode s, opt_addrMode opts with
  | NET_ADDRESS_STATIC, NET_ADDRESS_STATIC =>
      let cleared := mk_netif 0 0 0 in
      let set_ip := mk_netif (opt_address opts) (netmask cleared) (gw cleared) in
      let set_mask := mk_netif (ip_addr set_ip) (opt_netmask opts) (gw set_ip) in
      let set_gw := mk_netif (ip_addr set_mask) (netmask set_mask) (opt_gateway opts) in
      Some (mk_net (opt_addrMode opts) set_gw (udp_dest_ip s))
  | _, _ => None
  end.
Definition lwipReconfigure : lwipreconf_opts_t → net_state → option net_state := do_reconfigure.

(** A null pointer is [None]. *)
Definition network_reconfigure (ip_str gateway_str netmask_str : option (list Z)) (s : net_state) :
    option (bool * net_state) :=
  match ip_str, gateway_str, netmask_str with
  | Some ip_str, Some gateway_str, Some netmask_str =>
      match ip4addr_aton ip_str with
      | None => Some (false, s)
      | Some ip =>
          match ip4addr_aton gateway_str with
          | None => Some (false, s)
          | Some gateway =>
              match ip4addr_aton netmask_str with
              | None => Some (false, s)
              | Some mask =>
                  s' ← lwipReconfigure (mk_reconf ip mask gateway NET_ADDRESS_STATIC) s;
                  Some (true, s')
              end
          end
      end
  | _, _, _ => Some (false, s)
  end.

(** ** The UDP destination

    Each call is one step, which [UdpShared.v] justifies. *)

Definition udp_set_destination (dest_ip : option (list Z)) (s : net_state) : bool * net_state :=
  match dest_ip with
  | None => (false, s)
  | Some dest_ip =>
      let len := length dest_ip in
      if decide (len = O ∨ udp_dest_size ≤ len)%nat then (false, s)
      else
        match ip4addr_aton dest_ip with
        | None => (false, s)
        | Some _ =>
            let mem := strncpy (udp_dest_ip s) dest_ip (udp_dest_size - 1) in
            (true, mk_net (addressMode s) (thisif s) (<[(udp_dest_size - 1)%nat := 0]> mem))
        end
  end.

(** The caller's buffer, [None] when it is a null pointer. *)
Definition udp_get_destination (dest_ip : option (list Z)) (buf_size : nat) (s : net_state) :
    option (list Z) :=
  match dest_ip with
  | None => None
  | Some mem =>
      if decide (buf_size = O) then dest_ip
      else Some (<[(buf_size - 1)%nat := 0]> (strncpy mem (cstr (udp_dest_ip s)) (buf_size - 1)))
  end.

(** ** A turn of the UDP thread *)

Definition JOY_STREAM_PORT : Z := 12346.
Record datagram : Type := mk_datagram { dg_addr : Z; dg_port : Z; dg_data : list Z }.

(** With the snapshot [snap] and [junk] in the buffer for the text; [None] when the send
    is skipped. *)
Definition udp_turn (junk snap : list Z) (s : net_state) : option datagram :=
  text ← udp_get_destination (Some junk) udp_dest_size s;
  addr ← ip4addr_aton (cstr text);
  Some (mk_datagram addr JOY_STREAM_PORT snap).

(** ** Sequences of calls *)

Inductive net_op : Type :=
  | OpConfig (ip gateway mask : option (list Z))
  | OpDest (dest : option (list Z)).
Definition net_step (op : net_op) (s : net_state) : option net_state :=
  match op with
  | OpConfig ip gateway mask => snd <$> network_reconfigure ip gateway mask s
  | OpDest dest => Some (udp_set_destination dest s).2
  end.
Fixpoint net_run (ops : list net_op) (s : net_state) : option net_state :=
  match ops with
  | [] => Some s
  | op :: ops => net_step op s ≫= net_run ops
  end.

(** ** Facts *)

(** A text without a null character in it. *)
Definition no_nul (t : list Z) : Prop := Forall (λ c, c ≠ 0) t.

Lemma cstr_no_nul mem : no_nul (cstr mem).
Proof. induction mem as [|c mem IH]; [constructor|]. cbn [cstr]. destruct (decide (c = 0)); by constructor. Qed.
Lemma cstr_text t n : no_nul t → cstr (t ++ replicate n 0) = t.
Proof.
  induction 1 as [|c t Hc Ht IH]; cbn [cstr app].
  - by destruct n.
  - rewrite decide_False by done. by rewrite IH.
Qed.

(** Copying a text with room for its end gives the text and null characters. *)
Lemma strncpy_text dst src n : (length src ≤ n)%nat → (S n = length dst)%nat →
  <[n := 0]> (strncpy dst src n) = src ++ replicate (S n - length src) 0.
Proof.
  intros Hs Hd. unfold strncpy. rewrite take_app_ge, take_replicate by done.
  replace (n - length src)%nat with (n - length src `min` n + 0)%nat by lia.
  rewrite insert_app_r_alt by (rewrite length_app, length_replicate; lia).
  rewrite length_app, length_replicate, <-app_assoc. f_equal.
  destruct (drop n dst) as [|x [|y r]] eqn:E; (assert (H := f_equal length E); rewrite length_drop in H; cbn [length] in H; try lia).
  replace (n - (length src + (n - length src `min` n + 0) `min` n))%nat with O by lia.
  change (<[O := 0]> [x]) with (replicate 1 0). rewrite <-replicate_add. f_equal. lia.
Qed.

(** Cutting a text off. *)
Lemma strncpy_cut dst src n : (n ≤ length src)%nat → (S n = length dst)%nat →
  <[n := 0]> (strncpy dst src n) = take n src ++ [0].
Proof.
  intros Hs Hd. unfold strncpy. rewrite take_app_le by done.
  rewrite insert_app_r_alt by (rewrite length_take; lia). rewrite length_take, Nat.min_l, Nat.sub_diag by done.
  f_equal. destruct (drop n dst) as [|x [|y r]] eqn:E;
    (assert (H := f_equal length E); rewrite length_drop in H; cbn [length] in H; try lia). done.
Qed.

(** ** Specification *)

(** The interface and the destination text as the calls should leave them. *)
Record net_spec : Type := mk_spec { spec_if : netif; spec_dest : list Z }.
Definition spec_init : net_spec := mk_spec (thisif net_init) (chars "192.168.0.10").

Definition valid_dest (t : list Z) : Prop :=
  t ≠ [] ∧ (length t < udp_dest_size)%nat ∧ is_Some (ip4addr_aton t).
#[export] Instance valid_dest_dec t : Decision (valid_dest t).
Proof. unfold valid_dest. apply _. Defined.

Definition spec_config (ip gateway mask : option (list Z)) (old : netif) : option netif :=
  ip ← ip ≫= ip4addr_aton; gateway ← gateway ≫= ip4addr_aton; mask ← mask ≫= ip4addr_aton;
  Some (mk_netif ip mask gateway).
Definition spec_step (sp : net_spec) (op : net_op) : net_spec :=
  match op with
  | OpConfig ip gateway mask =>
      mk_spec (default (spec_if sp) (spec_config ip gateway mask (spec_if sp))) (spec_dest sp)
  | OpDest (Some t) => if decide (valid_dest t) then mk_spec (spec_if sp) t else sp
  | OpDest None => sp
  end.

(** The state that keeps what the specification says. *)
Definition keeps (sp : net_spec) (s : net_state) : Prop :=
  addressMode s = NET_ADDRESS_STATIC ∧ thisif s = spec_if sp ∧
  no_nul (spec_dest sp) ∧ valid_dest (spec_dest sp) ∧
  udp_dest_ip s = spec_dest sp ++ replicate (udp_dest_size - length (spec_dest sp)) 0.

(** The arguments are strings. *)
Definition op_text (op : net_op) : Prop :=
  match op with OpDest (Some t) => no_nul t | _ => True end.

Lemma keeps_init : keeps spec_init net_init.
Proof.
  unfold keeps, no_nul. split; [done|]. split; [done|]. split; [by_decision|].
  split; [by_decision|]. vm_compute. reflexivity.
Qed.

Lemma set_destination_keeps sp s t : keeps sp s → no_nul t →
  (udp_set_destination (Some t) s).1 = bool_decide (valid_dest t) ∧
  keeps (spec_step sp (OpDest (Some t))) (udp_set_destination (Some t) s).2.
Proof.
  intros Hk Ht. pose proof Hk as (Hm & Hi & Hn & Hv & Hd). unfold udp_set_destination. cbn [spec_step].
  destruct (decide (length t = O ∨ udp_dest_size ≤ length t)%nat) as [Hl|Hl].
  { assert (¬ valid_dest t) by (intros (Hne & Hl' & _); destruct t; [done|cbn [length] in *; lia]).
    rewrite bool_decide_eq_false_2, decide_False by done. done. }
  assert (Hne : t ≠ []) by (intros ->; apply Hl; by left).
  destruct (ip4addr_aton t) as [a|] eqn:E.
  - assert (valid_dest t) by (split_and!; [done|lia|by rewrite E]).
    rewrite bool_decide_eq_true_2, decide_True by done. split; [done|].
    split_and!; try done. cbn [snd udp_dest_ip spec_dest].
    change (udp_dest_size - 1)%nat with 15%nat. rewrite strncpy_text; [done|change udp_dest_size with 16%nat in *; lia|].
    rewrite Hd, length_app, length_replicate. destruct Hv as (_ & Hv & _).
    change udp_dest_size with 16%nat in *. lia.
  - assert (¬ valid_dest t) by (intros (_ & _ & Hs); rewrite E in Hs; by destruct Hs).
    rewrite bool_decide_eq_false_2, decide_False by done. done.
Qed.

Lemma reconfigure_keeps sp s ip gateway mask : keeps sp s →
  ∃ s', network_reconfigure ip gateway mask s =
      Some (bool_decide (is_Some (spec_config ip gateway mask (spec_if sp))), s') ∧
    keeps (spec_step sp (OpConfig ip gateway mask)) s'.
Proof.
  intros Hk. pose proof Hk as (Hm & Hi & Hn & Hv & Hd).
  assert (Hsame : keeps (mk_spec (spec_if sp) (spec_dest sp)) s) by done.
  unfold network_reconfigure, spec_step, spec_config.
  destruct ip as [ip|]; [|by exists s]. cbn [mbind option_bind].
  destruct gateway as [gateway|]; cbn [mbind option_bind];
    [|exists s; split; [by destruct (ip4addr_aton ip)|by destruct (ip4addr_aton ip)]].
  destruct mask as [mask|]; cbn [mbind option_bind];
    [|exists s; split; by destruct (ip4addr_aton ip), (ip4addr_aton gateway)].
  destruct (ip4addr_aton ip) as [a|]; [|by exists s].
  destruct (ip4addr_aton gateway) as [g|]; [|by exists s].
  destruct (ip4addr_aton mask) as [m|]; [|by exists s].
  unfold lwipReconfigure, do_reconfigure. rewrite Hm. cbn. eexists. split; [done|]. by split_and!.
Qed.

Lemma net_run_keeps ops : ∀ sp s, keeps sp s → Forall op_text ops →
  ∃ s', net_run ops s = Some s' ∧ keeps (foldl spec_step sp ops) s'.
Proof.
  induction ops as [|op ops IH]; intros sp s Hk Ht; [by exists s|].
  apply Forall_cons in Ht as [Hop Ht]. cbn [net_run foldl]. destruct op as [ip gateway mask|[t|]]; cbn [net_step].
  - destruct (reconfigure_keeps sp s ip gateway mask Hk) as (s1 & -> & Hk1). by apply IH.
  - destruct (set_destination_keeps sp s t Hk Hop) as [_ Hk1]. by apply IH.
  - by apply IH.
Qed.

Lemma get_destination_text sp s mem n : keeps sp s → length mem = n → (0 < n)%nat →
  udp_get_destination (Some mem) n s =
    Some (if decide (n ≤ length (spec_dest sp))%nat then take (n - 1) (spec_dest sp) ++ [0]
          else spec_dest sp ++ replicate (n - length (spec_dest sp)) 0).
Proof.
  intros (_ & _ & Hn & _ & Hd) Hl Hpos. unfold udp_get_destination. rewrite decide_False by lia.
  rewrite Hd, cstr_text by done. f_equal. destruct n as [|n]; [lia|]. rewrite Nat.sub_succ, Nat.sub_0_r.
  destruct (decide _) as [Hc|Hc].
  - apply strncpy_cut; lia.
  - apply strncpy_text; lia.
Qed.

Lemma udp_turn_sends sp s junk snap : keeps sp s → length junk = udp_dest_size →
  udp_turn junk snap s =
    (λ a, mk_datagram a JOY_STREAM_PORT snap) <$> ip4addr_aton (spec_dest sp) ∧
  is_Some (ip4addr_aton (spec_dest sp)).
Proof.
  intros Hk Hj. pose proof Hk as (_ & _ & Hn & (_ & Hl & Ha) & _). split; [|done]. unfold udp_turn.
  rewrite (get_destination_text sp) by (done || unfold udp_dest_size; lia). cbn [mbind option_bind].
  rewrite decide_False by lia. rewrite cstr_text by done. by destruct (ip4addr_aton (spec_dest sp)).
Qed.

(** C32.  The settings are always those of the last accepted call.  After any sequence
    of calls with strings, each returning true exactly when its strings are
    addresses (and the destination fits its buffer), the interface has the three
    addresses of the last accepted reconfiguration; the stored text is the last
    accepted destination, which parses, so that no turn of the UDP thread skips its
    send: each sends the whole snapshot to that address; and reading the text into a
    buffer gives it, filled up with null characters, or as much of it as leaves room
    for one. *)
Theorem net_refines ops :
  Forall op_text ops →
  let sp := foldl spec_step spec_init ops in
  ∃ s, net_run ops net_init = Some s ∧
    thisif s = spec_if sp ∧ cstr (udp_dest_ip s) = spec_dest sp ∧
    (∃ addr, ip4addr_aton (spec_dest sp) = Some addr ∧
      ∀ junk snap, length junk = udp_dest_size →
        udp_turn junk snap s = Some (mk_datagram addr JOY_STREAM_PORT snap)) ∧
    (∀ mem, mem ≠ [] → udp_get_destination (Some mem) (length mem) s =
       Some (if decide (length mem ≤ length (spec_dest sp))%nat
             then take (length mem - 1) (spec_dest sp) ++ [0]
             else spec_dest sp ++ replicate (length mem - length (spec_dest sp)) 0)) ∧
    (∀ t, no_nul t → (udp_set_destination (Some t) s).1 = bool_decide (valid_dest t)) ∧
    (∀ ip gateway mask, fst <$> network_reconfigure ip gateway mask s =
       Some (bool_decide (is_Some (spec_config ip gateway mask (spec_if sp))))).
Proof.
  intros Ht sp. destruct (net_run_keeps ops spec_init net_init keeps_init Ht) as (s & Hs & Hk).
  fold sp in Hk. exists s. split; [done|]. pose proof Hk as (_ & Hi & Hn & (_ & _ & [addr Ha]) & Hd).
  split_and!.
  - done.
  - rewrite Hd. by apply cstr_text.
  - exists addr. split; [done|]. intros junk snap Hj. destruct (udp_turn_sends sp s junk snap Hk Hj) as [-> _].
    by rewrite Ha.
  - intros mem Hm. apply get_destination_text; [done|done|]. destruct mem; [done|cbn [length]; lia].
  - intros t Hnt. by destruct (set_destination_keeps sp s t Hk Hnt).
  - intros ip gateway mask. by destruct (reconfigure_keeps sp s ip gateway mask Hk) as (s' & -> & _).
Qed.

(** A destination that is too long, one that is none, and one accepted. *)
Lemma net_refines_witness :
  ∃ s, net_run [OpDest (Some (chars "0192.0168.0000.10")); OpDest (Some (chars "10.0.0.7"));
                OpDest (Some (chars "10.0.0")); OpDest (Some (chars "nowhere"))] net_init = Some s ∧
    udp_turn (replicate 16 7) [1; 2; 3] s = Some (mk_datagram 0x0000000A 12346 [1; 2; 3]).
Proof.
  destruct (net_refines [OpDest (Some (chars "0192.0168.0000.10")); OpDest (Some (chars "10.0.0.7"));
    OpDest (Some (chars "10.0.0")); OpDest (Some (chars "nowhere"))]) as (s & E & _ & _ & (addr & Ha & Hs) & _).
  - repeat (apply Forall_cons; split; [unfold op_text, no_nul; by_decision|]). constructor.
  - exists s. split; [exact E|]. vm_compute in Ha. injection Ha as <-. by apply Hs.
Defined.
