(* ===== verification/Shell.v ===== *)
(** * The shell's commands

    The commands of src/main.c over the radio driver and the network settings: the
    reading of numbers ([strtol] and [atoi] of the C library with 32-bit [long]), the
    eight commands with what they print, and their table; and the turn of the
    transmitter thread, which works on the same radio.  An argument is a string, the
    list of its characters' codes. *)
From S2P Require Import Prelude Nrf24l01 NrfBasic IpAddr Net Ds5.

(** ** Numbers *)

Definition LONG_MAX : Z := 2147483647.
Definition LONG_MIN : Z := -2147483648.
Definition isspace (c : Z) : bool := bool_decide (c = 32) || (bool_decide (9 <= c) && bool_decide (c <= 13)).

(** The value of a digit of any base up to 36. *)
Definition digit_value (c : Z) : option Z :=
  if decide (48 <= c <= 57) then Some (c - 48)
  else if decide (97 <= c <= 122) then Some (c - 87)
  else if decide (65 <= c <= 90) then Some (c - 55)
  else None.
Definition base_digit (base c : Z) : option Z :=
  d ← digit_value c; if decide (d < base) then Some d else None.

Fixpoint skip_space (s : list Z) : list Z :=
  match s with
  | c :: s' => if isspace c then skip_space s' else s
  | [] => []
  end.
(** The digits in front: whether there is one, their value, and what follows. *)
Fixpoint take_digits (base : Z) (any : bool) (acc : Z) (s : list Z) : bool * Z * list Z :=
  match s with
  | c :: s' =>
      match base_digit base c with
      | Some d => take_digits base true (acc * base + d) s'
      | None => (any, acc, s)
      end
  | [] => (any, acc, s)
  end.
(** A prefix 0x counts for base 0 and 16 when a digit follows; base 0 is 8 behind a 0. *)
Definition hex_prefix (s : list Z) : bool :=
  bool_decide (char_at s = 48)
  && (bool_decide (char_at (tail s) = 120) || bool_decide (char_at (tail s) = 88))
  && bool_decide (is_Some (base_digit 16 (char_at (tail (tail s))))).
Definition strtol_base (base : Z) (s : list Z) : Z * list Z :=
  if decide (base = 0 ∨ base = 16) then
    if hex_prefix s then (16, tail (tail s))
    else (if decide (base = 16) then 16 else if decide (char_at s = 48) then 8 else 10, s)
  else (base, s).
Definition sign_of (s : list Z) : Z * list Z :=
  if decide (char_at s = 45) then (-1, tail s)
  else if decide (char_at s = 43) then (1, tail s) else (1, s).
(** The value and the text [endptr] points to. *)
Definition strtol (nptr : list Z) (base : Z) : Z * list Z :=
  let s := skip_space nptr in
  let '(sg, s) := sign_of s in
  let '(b, s) := strtol_base base s in
  match take_digits b false 0 s with
  | (true, v, rest) =>
      (if decide (sg * v > LONG_MAX) then LONG_MAX
       else if decide (sg * v < LONG_MIN) then LONG_MIN else sg * v, rest)
  | (false, _, _) => (0, nptr)
  end.
Definition atoi (nptr : list Z) : Z := (strtol nptr 10).1.

(** ** Messages *)

(** What a command prints: a format and its arguments. *)
Inductive parg : Type := PInt (z : Z) | PStr (s : list Z).
Definition message : Type := string * list parg.

(** ** State: the radio, the remembered transmit address and the network settings. *)

Record sh_state (W : Type) : Type := mk_sh { radio : nrf24l01_dyn W; tx : tx_state; net : net_state }.
Arguments mk_sh {W} radio tx net.
Arguments radio {W} s.
Arguments tx {W} s.
Arguments net {W} s.

Definition on_radio {W A} (m : M (nrf24l01_dyn W) A) : M (sh_state W) A := λ s,
  match m (radio s) with
  | Ok a d => Ok a (mk_sh d (tx s) (net s))
  | Fault f => Fault f
  end.
Definition on_net {W A} (f : net_state → option (A * net_state)) : M (sh_state W) A := λ s,
  match f (net s) with
  | Some (a, n) => Ok a (mk_sh (radio s) (tx s) n)
  | None => Fault Diverged
  end.

Section Commands.
Context {W : Type} (gs_handle : nrf24l01_handle W).
#[local] Abbreviation S := (sh_state W).

Definition cmd_nrf_channel (argv : list (list Z)) : M S (list message) :=
  match argv with
  | [arg] =>
      let freq := atoi arg in
      if decide (freq < 0 ∨ freq > 127) then
        mret [("Error: Frequency must be between 0 and 127"%string, [])]
      else
        result ← on_radio (nrf24l01_basic_set_frequency gs_handle (u8 freq));
        if decide (result = 0) then
          mret [("nRF24L01 channel set to %d (frequency: %d MHz)"%string, [PInt freq; PInt (2400 + freq)])]
        else mret [("Error: Failed to set nRF24L01 channel"%string, [])]
  | _ =>
      mret [("Usage: nrf_channel <freq>"%string, []);
            ("  freq: Channel frequency (0-127)"%string, []);
            ("  Actual frequency = 2400 MHz + freq MHz"%string, []);
            ("Example: nrf_channel 94  (sets to 2494 MHz)"%string, [])]
  end.

Definition cmd_nrf_channel_get (argv : list (list Z)) : M S (list message) :=
  match argv with
  | [] =>
      '(result, freq) ← on_radio (nrf24l01_basic_get_frequency gs_handle);
      if decide (result = 0) then
        freq ← mlift Uninitialised freq;
        mret [("Current nRF24L01 channel: %d (frequency: %d MHz)"%string, [PInt freq; PInt (2400 + freq)])]
      else mret [("Error: Failed to get nRF24L01 channel"%string, [])]
  | _ =>
      mret [("Usage: nrf_channel_get"%string, []);
            ("  Displays the current nRF24L01 channel frequency"%string, [])]
  end.

(** The loop over the arguments: the bytes, or the number and text of the first bad one. *)
Fixpoint parse_addr (i : Z) (args : list (list Z)) : (Z * list Z) + list Z :=
  match args with
  | [] => inr []
  | arg :: args =>
      let '(val, endptr) := strtol arg 0 in
      if decide (endptr ≠ [] ∨ val < 0 ∨ val > 255) then inl (i, arg)
      else match parse_addr (i + 1) args with
           | inr addr => inr (u8 val :: addr)
           | inl bad => inl bad
           end
  end.

Definition cmd_nrf_addr (argv : list (list Z)) : M S (list message) :=
  if decide (length argv ≠ 5%nat) then
    mret [("Usage: nrf_addr <byte0> <byte1> <byte2> <byte3> <byte4>"%string, []);
          ("  Sets the nRF24L01 TX address (5 bytes in hex)"%string, []);
          ("Example: nrf_addr 0x65 0x64 0x6F 0x4E 0x32"%string, []);
          ("         nrf_addr 0xE7 0xE7 0xE7 0xE7 0xE7"%string, [])]
  else
    match parse_addr 0 argv with
    | inl (i, arg) =>
        mret [("Error: Invalid byte %d: %s (must be 0x00-0xFF)"%string, [PInt i; PStr arg])]
    | inr addr =>
        st ← mgets tx;
        '(result, st) ← on_radio (nrf24l01_basic_set_tx_address gs_handle (Some addr) st);
        mmodify (λ s, mk_sh (radio s) st (net s));;
        if decide (result = 0) then
          mret [("nRF24L01 TX address set to: 0x%02X 0x%02X 0x%02X 0x%02X 0x%02X"%string, PInt <$> addr)]
        else mret [("Error: Failed to set nRF24L01 TX address"%string, [])]
    end.

Definition cmd_nrf_addr_get (argv : list (list Z)) : M S (list message) :=
  match argv with
  | [] =>
      st ← mgets tx;
      match nrf24l01_basic_get_tx_address false st with
      | (0, Some (addr, is_set)) =>
          if decide (is_set ≠ 0) then
            mret (("Current nRF24L01 TX address: 0x%02X 0x%02X 0x%02X 0x%02X 0x%02X"%string, PInt <$> addr) ::
              if decide (Forall (λ c, ¬ (c < 32 ∨ c > 126)) addr)
              then [("                     (ASCII: '%c%c%c%c%c')"%string, PInt <$> addr)] else [])
          else mret [("nRF24L01 TX address has not been set yet"%string, [])]
      | _ => mret [("Error: Failed to get nRF24L01 TX address"%string, [])]
      end
  | _ =>
      mret [("Usage: nrf_addr_get"%string, []);
            ("  Displays the current nRF24L01 TX address"%string, [])]
  end.

Definition cmd_net_config (argv : list (list Z)) : M S (list message) :=
  match argv with
  | [ip_str; gateway_str; netmask_str] =>
      let intro := [("Configuring network to:"%string, []); ("  IP:      %s"%string, [PStr ip_str]);
                    ("  Gateway: %s"%string, [PStr gateway_str]); ("  Netmask: %s"%string, [PStr netmask_str])] in
      result ← on_net (network_reconfigure (Some ip_str) (Some gateway_str) (Some netmask_str));
      mret (intro ++
        if decide (result = true) then
          [("Network configuration applied successfully!"%string, []);
           ("Note: Existing connections may need to be reestablished."%string, [])]
        else [("Error: Failed to configure network (check IP format)"%string, [])])
  | _ =>
      mret [("Usage: net_config <ip> <gateway> <netmask>"%string, []);
            ("Example: net_config 192.168.0.150 192.168.0.1 255.255.255.0"%string, []);
            ("         net_config 10.0.0.50 10.0.0.1 255.255.255.0"%string, [])]
  end.

Definition octets (addr : Z) : list parg :=
  PInt <$> [ip4_addr1 addr; ip4_addr2 addr; ip4_addr3 addr; ip4_addr4 addr].

(** The default interface's other data: its name, number, hardware address and the two
    flags; [None] is no interface. *)
Definition cmd_net_info (dev : option (Z * Z * Z * list Z * bool * bool)) (argv : list (list Z)) :
    M S (list message) :=
  match argv with
  | [] =>
      match dev with
      | None => mret [("Error: Network interface not initialized"%string, [])]
      | Some (name0, name1, num, hwaddr, link_up, up) =>
          n ← mgets (λ s, thisif (net s));
          mret [("Current Network Configuration:"%string, []);
                ("  Interface:  %c%c%d"%string, [PInt name0; PInt name1; PInt num]);
                ("  IP Address: %d.%d.%d.%d"%string, octets (ip_addr n));
                ("  Gateway:    %d.%d.%d.%d"%string, octets (gw n));
                ("  Netmask:    %d.%d.%d.%d"%string, octets (netmask n));
                ("  MAC:        %02X:%02X:%02X:%02X:%02X:%02X"%string, PInt <$> hwaddr);
                ("  Link:       %s"%string, [PStr (chars (if link_up : bool then "UP" else "DOWN"))]);
                ("  Status:     %s"%string, [PStr (chars (if up : bool then "UP" else "DOWN"))])]
      end
  | _ =>
      mret [("Usage: net_info"%string, []); ("  Displays the current network configuration"%string, [])]
  end.

Definition cmd_udp_dest (argv : list (list Z)) : M S (list message) :=
  match argv with
  | [dest_ip] =>
      result ← on_net (λ n, Some (udp_set_destination (Some dest_ip) n));
      if decide (result = true) then
        mret [("UDP destination set to: %s"%string, [PStr dest_ip]);
              ("PS5 controller data will now be sent to %s:%d"%string, [PStr dest_ip; PInt JOY_STREAM_PORT])]
      else mret [("Error: Failed to set UDP destination (invalid IP format)"%string, [])]
  | _ =>
      mret [("Usage: udp_dest <ip>"%string, []);
            ("  Sets the UDP destination IP address"%string, []);
            ("Example: udp_dest 192.168.0.50    (unicast to specific device)"%string, []);
            ("         udp_dest 192.168.0.255   (subnet broadcast)"%string, []);
            ("         udp_dest 255.255.255.255 (global broadcast)"%string, [])]
  end.

(** [junk] is what the local buffer holds. *)
Definition cmd_udp_dest_get (junk : list Z) (argv : list (list Z)) : M S (list message) :=
  match argv with
  | [] =>
      n ← mgets net;
      text ← mlift NullCall (udp_get_destination (Some junk) udp_dest_size n);
      mret [("Current UDP destination: %s:%d"%string, [PStr (cstr text); PInt JOY_STREAM_PORT])]
  | _ =>
      mret [("Usage: udp_dest_get"%string, []);
            ("  Displays the current UDP destination IP address"%string, [])]
  end.

(** The table, and the search of ChibiOS's shell in it ([cmdexec]): [None] when no command
    has the name. *)
Definition commands (dev : option (Z * Z * Z * list Z * bool * bool)) (junk : list Z) :
    list (string * (list (list Z) → M S (list message))) :=
  [("nrf_channel"%string, cmd_nrf_channel); ("nrf_channel_get"%string, cmd_nrf_channel_get);
   ("nrf_addr"%string, cmd_nrf_addr); ("nrf_addr_get"%string, cmd_nrf_addr_get);
   ("net_config"%string, cmd_net_config); ("net_info"%string, cmd_net_info dev);
   ("udp_dest"%string, cmd_udp_dest); ("udp_dest_get"%string, cmd_udp_dest_get junk)].
Fixpoint cmdexec (scp : list (string * (list (list Z) → M S (list message)))) (name : string)
    (argv : list (list Z)) : option (M S (list message)) :=
  match scp with
  | [] => None
  | (sc_name, sc_function) :: scp =>
      if decide (sc_name = name) then Some (sc_function argv) else cmdexec scp name argv
  end.
End Commands.

(** ** The transmitter thread's turn *)

(** The address of the thread, which it also sets when it starts. *)
Definition nrf_tx_addr : list Z := [0x65; 0x64; 0x6F; 0x4E; 0x32].
(** After the wait: the published structure is trimmed into the local one and sent
    to the thread's address. *)
Definition tx_turn {W} (gs_handle : nrf24l01_handle W) (published trimmed : list Z) :
    M (nrf24l01_dyn W) Z :=
  trimmed ← mlift NullCall (convert_to_trimmed (Some published) (Some trimmed));
  nrf24l01_basic_send gs_handle nrf_tx_addr trimmed (Z.of_nat (sizeof PS5Data)) NRF24L01_BOOL_FALSE.
