(* ===== verification/ShellProps.v ===== *)
(** * Theorems on the shell and the radio

    What the commands do to the radio and its remembered address, and how the
    transmitter thread's turns and the address command get along. *)
From S2P Require Import Prelude Nrf24l01 Nrf24l01Bus NrfInterface NrfBasic NrfSetup NrfProps IpAddr Net Ds5 Shell.

(** ** Numbers *)

Lemma base_digit_dec d : 0 <= d <= 9 → base_digit 10 (48 + d) = Some d.
Proof.
  intros Hd. unfold base_digit, digit_value. rewrite decide_True by lia.
  cbn [mbind option_bind]. rewrite decide_True by lia. f_equal. lia.
Qed.

Lemma take_digits_dec ds rest : Forall (λ d, 0 <= d <= 9) ds → base_digit 10 (char_at rest) = None →
  ∀ any acc, take_digits 10 any acc (text ds ++ rest) =
    (any || bool_decide (ds ≠ []), foldl (λ v d, 10 * v + d) acc ds, rest).
Proof.
  intros Hds Hr. induction Hds as [|d ds Hd Hds IH]; intros any acc.
  - cbn [text fmap list_fmap app foldl]. rewrite orb_false_r. destruct rest as [|c rest]; [done|].
    cbn [take_digits]. change (base_digit 10 c = None) in Hr. by rewrite Hr.
  - change (text (d :: ds) ++ rest) with ((48 + d) :: (text ds ++ rest)). cbn [take_digits].
    rewrite base_digit_dec by done. rewrite IH. cbn [foldl]. rewrite orb_true_r. do 2 f_equal.
    f_equal. lia.
Qed.

Lemma foldl_dec_nonneg ds : Forall (λ d, 0 <= d <= 9) ds → ∀ v, 0 <= v → 0 <= foldl (λ v d, 10 * v + d) v ds.
Proof. induction 1 as [|d ds Hd Hds IH]; intros v Hv; [done|]. cbn [foldl]. apply IH. lia. Qed.

(** The characters [strtol] skips or takes for a sign. *)
Definition plain (c : Z) : Prop := isspace c = false ∧ c ≠ 43 ∧ c ≠ 45.

(** A decimal number is read with a limit, whatever follows it, and no number is 0. *)
Lemma atoi_decimal ds junk :
  Forall (λ d, 0 <= d <= 9) ds → base_digit 10 (char_at junk) = None →
  (ds = [] → plain (char_at junk)) →
  atoi (text ds ++ junk) = Z.min (dec_value ds) LONG_MAX.
Proof.
  intros Hds Hj Hp.
  assert (Hc : plain (char_at (text ds ++ junk))).
  { destruct ds as [|d ds]; [by apply Hp|]. apply Forall_cons in Hds as [Hd _].
    change (char_at (text (d :: ds) ++ junk)) with (48 + d). unfold plain, isspace.
    rewrite !bool_decide_eq_false_2 by lia. split_and!; [|lia..].
    rewrite (bool_decide_eq_false_2 (48 + d <= 13)) by lia. by rewrite andb_false_r. }
  destruct Hc as (Hs & H43 & H45). unfold atoi, strtol.
  assert (Hsk : skip_space (text ds ++ junk) = text ds ++ junk).
  { destruct (text ds ++ junk) as [|c s]; [done|]. cbn [skip_space].
    change (isspace c = false) in Hs. by rewrite Hs. }
  rewrite Hsk. unfold sign_of. rewrite !decide_False by done.
  unfold strtol_base. rewrite decide_False by lia. rewrite take_digits_dec by done. cbn [orb].
  fold (dec_value ds). pose proof (foldl_dec_nonneg ds Hds 0 ltac:(lia)) as Hn. fold (dec_value ds) in Hn.
  destruct ds as [|d ds].
  - rewrite bool_decide_eq_false_2 by (intros H; by apply H). done.
  - rewrite bool_decide_eq_true_2 by done. cbn [fst]. rewrite Z.mul_1_l. unfold LONG_MAX, LONG_MIN.
    destruct (decide (_ > _)); [lia|]. rewrite decide_False by lia. lia.
Qed.

Lemma wp_on_radio {W A} (m : M (nrf24l01_dyn W) A) (s : sh_state W) (R : A → nrf24l01_dyn W → Prop) :
  wp m (radio s) R → wp (on_radio m) s (λ a s', R a (radio s') ∧ tx s' = tx s ∧ net s' = net s).
Proof. unfold wp, on_radio. by destruct (m (radio s)). Qed.

Section Radio.
Context {W : Type} (h : nrf24l01_handle W) (inv : W → Prop) (regs : W → Z → list Z) (ce : W → Z).
Context `{Hb : !RegBus h inv regs ce}.

(** What a channel reads as. *)
Definition channel_of (w : W) (v : Z) : Prop :=
  ∃ b, regs w (field_reg FChannel) = [b] ∧ field_read FChannel b = v.

Lemma set_frequency_spec d v :
  inited d = 1 → inv (world d) → 0 <= v <= 127 →
  wp (nrf24l01_basic_set_frequency h v) d (λ res d',
    res = 0 ∧ touched inv regs ce [field_reg FChannel] d d' ∧ channel_of (world d') v).
Proof.
  intros Hin Hi Hv. unfold nrf24l01_basic_set_frequency. eapply wp_seq.
  { apply (field_set_spec h inv regs ce FChannel v); [done|done|cbn; lia]. }
  intros res d' (-> & Ht & b & b' & Hr & Hr' & Hw). rewrite decide_False by (intros E; done).
  apply wp_ret. split_and!; [done|done|]. exists b'. split; [done|].
  by rewrite (field_read_written FChannel FChannel v b b').
Qed.

Lemma get_frequency_spec d v :
  inited d = 1 → inv (world d) → channel_of (world d) v →
  wp (nrf24l01_basic_get_frequency h) d (λ '(res, o) d',
    res = 0 ∧ o = Some v ∧ touched inv regs ce [] d d').
Proof.
  intros Hin Hi (b & Hr & Hv). unfold nrf24l01_basic_get_frequency. eapply wp_seq.
  { by apply (field_get_spec h inv regs ce FChannel). }
  intros [res o] d' (-> & Ht & b' & Hr' & ->). rewrite Hr in Hr'. injection Hr' as <-.
  rewrite decide_False by (intros E; done). apply wp_ret. split_and!; [done|by f_equal|done].
Qed.
End Radio.

(** The channel command sets the number its argument begins with, when it is at
    most 127, and then the getter prints it; a larger number of any length is refused
    and nothing changes.  The argument is not checked beyond its number: whatever
    follows is ignored, and an argument that is no number at all sets channel 0.
    Nothing but the chip's channel register changes. *)
Theorem channel_command {W} (h : nrf24l01_handle W) inv regs ce `{!RegBus h inv regs ce}
    (s : sh_state W) ds junk :
  inited (radio s) = 1 → inv (world (radio s)) →
  Forall (λ d, 0 <= d <= 9) ds → base_digit 10 (char_at junk) = None → (ds = [] → plain (char_at junk)) →
  let v := dec_value ds in
  wp (out ← cmd_nrf_channel h [text ds ++ junk]; s' ← mget; got ← cmd_nrf_channel_get h [];
      mret (out, s', got)) s
    (λ '(out, s', got) _, tx s' = tx s ∧ net s' = net s ∧
      if decide (v <= 127) then
        touched inv regs ce [field_reg FChannel] (radio s) (radio s') ∧
        out = [("nRF24L01 channel set to %d (frequency: %d MHz)"%string, [PInt v; PInt (2400 + v)])] ∧
        got = [("Current nRF24L01 channel: %d (frequency: %d MHz)"%string, [PInt v; PInt (2400 + v)])]
      else s' = s ∧ out = [("Error: Frequency must be between 0 and 127"%string, [])]).
Proof.
  intros Hin Hi Hds Hj Hp v. unfold cmd_nrf_channel. rewrite atoi_decimal by done. fold v.
  pose proof (foldl_dec_nonneg ds Hds 0 ltac:(lia)) as Hn. fold (dec_value ds) in Hn. fold v in Hn.
  unfold LONG_MAX. destruct (decide (v <= 127)) as [Hv|Hv].
  - rewrite decide_False, Z.min_l by lia. apply wp_bind. rewrite u8_id by (unfold is_u8; lia).
    eapply wp_seq; [apply wp_on_radio, (set_frequency_spec h inv regs ce (radio s) v); done || lia|].
    intros res s1 ((-> & Ht & Hc) & Htx & Hnet). rewrite decide_True by done. apply wp_ret.
    apply wp_bind, wp_get. assert (Hin1 : inited (radio s1) = 1) by (by destruct Ht as (_ & -> & _)).
    unfold cmd_nrf_channel_get. apply wp_bind.
    eapply wp_seq; [apply wp_on_radio, (get_frequency_spec h inv regs ce (radio s1) v); [done|apply Ht|done]|].
    intros [res o] s2 ((-> & -> & _) & _ & _). cbv beta iota. rewrite decide_True by done.
    apply wp_bind, wp_ret, wp_ret, wp_ret. by split_and!.
  - rewrite decide_True by lia. apply wp_bind, wp_ret, wp_bind, wp_get.
    assert (Hg : ∀ (R : list message → sh_state W → Prop), (∀ a s1, R a s1) → wp (cmd_nrf_channel_get h []) s R).
    { intros R HR. destruct (field_reg_config FChannel) as [Hreg Hlen].
      destruct (one_byte h inv regs ce (world (radio s)) _ Hi Hreg Hlen) as (b & Hb & _).
      eapply wp_seq; [apply wp_on_radio, (get_frequency_spec h inv regs ce (radio s) (field_read FChannel b));
        [done|done|by exists b]|].
      intros [res o] s2 ((-> & -> & _) & _ & _). cbv beta iota. rewrite decide_True by done. by apply wp_bind, wp_ret, wp_ret. }
    apply wp_bind, Hg. intros a s1. apply wp_ret. by split_and!.
Qed.

Lemma channel_command_witness :
  let s := mk_sh Sim.sim_init tx_state_init net_init in
  wp (out ← cmd_nrf_channel Sim.sim_handle [chars "high"]; s' ← mget;
      got ← cmd_nrf_channel_get Sim.sim_handle []; mret (out, s', got)) s
    (λ '(_, _, got) _,
      got = [("Current nRF24L01 channel: %d (frequency: %d MHz)"%string, [PInt 0; PInt 2400])]).
Proof.
  eapply wp_mono.
  - apply (channel_command Sim.sim_handle Sim.sim_wf Sim.sim_reg Sim.s_ce
      (mk_sh Sim.sim_init tx_state_init net_init) [] (chars "high")).
    + reflexivity.
    + apply Sim.sim_init_wf.
    + constructor.
    + reflexivity.
    + intros _. unfold plain. split_and!; by_decision.
  - intros [[out s'] got] s1 (_ & _ & H). apply H.
Defined.

(** ** The address command and the transmitter thread *)

(** A radio on which nothing but a payload write adds to the payloads sent, and a payload
    write leaves the registers alone. *)
Class RadioBus {W} (h : nrf24l01_handle W) (inv : W → Prop) (regs : W → Z → list Z) (ce : W → Z)
    (payloads : W → list (Z * list Z)) : Prop := {
  radio_regs l : RegBus h (λ w, inv w ∧ payloads w = l) regs ce;
  radio_payload d cmd data : inv (world d) → (length data ≤ 32)%nat →
    cmd ∈ [NRF24L01_COMMAND_W_TX_PAYLOAD; NRF24L01_COMMAND_W_TX_PAYLOAD_NO_ACK] →
    wp (call_spi_write h cmd data) d (λ st d', st = 0 ∧
      inv (world d') ∧ inited d' = inited d ∧
      payloads (world d') = payloads (world d) ++ [(cmd, data)] ∧
      ∀ q, config_reg q → regs (world d') q = regs (world d) q)
}.
#[export] Existing Instance radio_regs.

(** The chip transmits to [addr] and takes acknowledges from there. *)
Definition addressed {W} (regs : W → Z → list Z) (w : W) (addr : list Z) : Prop :=
  regs w NRF24L01_REG_TX_ADDR = reverse addr ∧ regs w NRF24L01_REG_RX_ADDR_P0 = reverse addr.

Section Turn.
Context {W : Type} (h : nrf24l01_handle W) (inv : W → Prop) (regs : W → Z → list Z) (ce : W → Z)
  (payloads : W → list (Z * list Z)).
Context `{Hb : !RadioBus h inv regs ce payloads}.
#[local] Abbreviation D := (nrf24l01_dyn W).

(** A radio set up at the five byte width; what changes no register and sends nothing. *)
Definition ready (d : D) : Prop := inited d = 1 ∧ inv (world d) ∧ chip_width regs (world d) 5.
Definition same_radio (d d' : D) : Prop :=
  ready d' ∧ payloads (world d') = payloads (world d) ∧
  ∀ q, config_reg q → regs (world d') q = regs (world d) q.

Lemma same_ready (d d' : D) (l : list (Z * list Z)) :
  ready d → inited d' = inited d → inv (world d') →
  (∀ q, config_reg q → regs (world d') q = regs (world d) q) → ready d'.
Proof.
  intros (Hin & Hi & b & Hb0 & Hw) E1 Hi' E2. split_and!; [congruence|done|]. exists b. split; [|done].
  rewrite E2; [done|]. by refine (bool_decide_unpack (config_reg _) _).
Qed.

Lemma ce_same d v : ready d → v ∈ [0; 1] →
  wp (call_gpio_write h v) d (λ st d', st = 0 ∧ same_radio d d').
Proof.
  intros Hr Hv. pose proof Hr as (Hin & Hi & Hw). eapply wp_mono.
  { by apply (bus_ce (inv := λ w, inv w ∧ payloads w = payloads (world d))). }
  intros st d' (-> & [Hi' Hp] & Hin' & _ & Hq). split; [done|]. split_and!; [|done|done].
  by apply (same_ready d d' []).
Qed.

(** One address register set. *)
Lemma address_set reg msg d addr : ready d → reg ∈ [NRF24L01_REG_TX_ADDR; NRF24L01_REG_RX_ADDR_P0] →
  length addr = 5%nat → Forall is_u8 addr →
  wp (set_address reg msg (Some h) addr basic_address_len) d (λ res d',
    res = 0 ∧ ready d' ∧ payloads (world d') = payloads (world d) ∧
    regs (world d') reg = reverse addr ∧
    ∀ q, config_reg q → q ≠ reg → regs (world d') q = regs (world d) q).
Proof.
  intros (Hin & Hi & Hw) Hreg Hl Hu.
  assert (Hr : reg ∈ address_regs) by (unfold address_regs; rewrite !elem_of_cons, elem_of_nil in *; tauto).
  destruct (address_reg_facts reg Hr) as (Hc & Hrl & _).
  set (inv' := λ w, inv w ∧ payloads w = payloads (world d)).
  eapply wp_mono.
  { apply (set_address_spec h inv' regs ce reg msg d addr basic_address_len 5); try done. by rewrite Hl. }
  intros res d' (-> & Hd' & Ht). split; [done|]. pose proof Ht as ([Hi' Hp] & Hin' & _ & Hq).
  assert (Hne : NRF24L01_REG_SETUP_AW ∉ [reg]).
  { rewrite elem_of_cons, elem_of_nil in *. intros [<-|[]]. by destruct Hreg as [|[|[]]%elem_of_cons]. }
  split_and!; [split_and!; [congruence|done|]|done| |].
  - by apply (chip_width_touched inv' regs ce [reg] d d').
  - rewrite Hd'. destruct (regs_wf (inv := inv') (world d) reg (conj Hi eq_refl) Hc) as [Hlr _].
    change (Z.to_nat basic_address_len) with 5%nat. by rewrite take_ge, drop_ge, app_nil_r by lia.
  - intros q Hcq Hqr. apply Hq; [done|]. rewrite elem_of_cons, elem_of_nil. intros [E|[]]. by subst q.
Qed.

(** A payload without acknowledge goes out from a state whose registers are those
    before and after the call. *)
Lemma send_no_ack buf len d : ready d → 0 <= len <= 32 → len <= Z.of_nat (length buf) →
  wp (nrf24l01_send (Some h) buf len NRF24L01_BOOL_FALSE) d (λ r d', r = 0 ∧ ready d' ∧
    (∀ q, config_reg q → regs (world d') q = regs (world d) q) ∧
    payloads (world d') = payloads (world d) ++
      [(NRF24L01_COMMAND_W_TX_PAYLOAD_NO_ACK, reverse (take (Z.to_nat len) buf))] ∧
    ∃ d1 d2, call_spi_write h NRF24L01_COMMAND_W_TX_PAYLOAD_NO_ACK (reverse (take (Z.to_nat len) buf)) d1 = Ok 0 d2 ∧
      (∀ q, config_reg q → regs (world d1) q = regs (world d) q) ∧
      payloads (world d1) = payloads (world d) ∧ payloads (world d2) = payloads (world d')).
Proof.
  intros Hr Hlen Hbuf. apply checked_spec; [apply Hr|]. rewrite decide_False by lia.
  unfold memcpy_local. rewrite decide_True by lia. apply wp_bind, wp_ret.
  rewrite reverse_bytes_spec by (rewrite length_take; lia). apply wp_bind, wp_ret.
  rewrite take_ge, drop_ge, app_nil_r by (rewrite length_take; lia).
  set (data := reverse (take (Z.to_nat len) buf)).
  assert (Hdl : (length data ≤ 32)%nat) by (unfold data; rewrite length_reverse, length_take; lia).
  apply wp_bind, wp_modify. set (d0 := mk_dyn _ _ _). assert (Hr0 : ready d0) by done.
  eapply wp_seq; [by apply ce_same; [|rewrite !elem_of_cons; tauto]|].
  intros st d1 (-> & Hr1 & Hp1 & Hq1). rewrite decide_False by (intros E; done).
  destruct (wp_inv _ _ _ (radio_payload d1 NRF24L01_COMMAND_W_TX_PAYLOAD_NO_ACK data
    (proj1 (proj2 Hr1)) Hdl ltac:(rewrite !elem_of_cons; tauto))) as (st & d2 & E & -> & Hi2 & Hin2 & Hp2 & Hq2).
  apply wp_bind. eapply wp_ok; [exact E|]. rewrite decide_False by (intros H; done).
  assert (Hr2 : ready d2) by (by apply (same_ready d1 d2 [])).
  eapply wp_seq; [by apply ce_same; [|rewrite !elem_of_cons; tauto]|].
  intros st d3 (-> & Hr3 & Hp3 & Hq3). rewrite decide_False by (intros H; done).
  set (inv' := λ w, inv w ∧ payloads w = payloads (world d3)).
  destruct (field_reg_config FDynamic) as [Hc Hl]. change (field_reg FDynamic) with NRF24L01_REG_FEATURE in Hc, Hl.
  eapply wp_seq.
  { apply (spi_read_spec h inv' regs ce d3 NRF24L01_REG_FEATURE 1); [by split; [apply Hr3|]|done|rewrite Hl; lia]. }
  intros [st data'] d4 (_ & _ & [Hi4 Hp4] & Hin4 & _ & Hq4). apply wp_ret.
  assert (Hq4' : ∀ q, config_reg q → regs (world d4) q = regs (world d3) q).
  { intros q Hq. apply Hq4; [done|apply not_elem_of_nil]. }
  assert (Hr4 : ready d4) by (by apply (same_ready d3 d4 [])).
  assert (Hpay : payloads (world d4) = payloads (world d2)) by congruence.
  split_and!; [done|done| | |].
  - intros q Hq. by rewrite Hq4', Hq3, Hq2, Hq1.
  - rewrite Hpay, Hp2, Hp1. done.
  - exists d1, d2. split_and!; [done|by apply Hq1|done|done].
Qed.

Lemma inactive d : ready d →
  wp (nrf24l01_set_active (Some h) NRF24L01_BOOL_FALSE) d (λ r d', r = 0 ∧ same_radio d d').
Proof.
  intros Hr. apply checked_spec; [apply Hr|].
  eapply wp_seq; [by apply (ce_same d 0); [|rewrite !elem_of_cons; tauto]|].
  intros st d0 (-> & Hs). by apply wp_ret.
Qed.

(** Setting both address registers, as the basic layer does in two places. *)
Lemma both_addresses {A} addr d (Q : A → D → Prop) msg1 msg2 (k1 k2 : Z → M D A) (k : M D A) :
  ready d → length addr = 5%nat → Forall is_u8 addr →
  (∀ d', ready d' → payloads (world d') = payloads (world d) → addressed regs (world d') addr → wp k d' Q) →
  wp (res ← set_address NRF24L01_REG_TX_ADDR msg1 (Some h) addr basic_address_len;
      if decide (res ≠ 0) then k1 res else
      res ← set_address NRF24L01_REG_RX_ADDR_P0 msg2 (Some h) addr basic_address_len;
      if decide (res ≠ 0) then k2 res else k) d Q.
Proof.
  intros Hr Hl Hu Hk. eapply wp_seq; [by apply address_set; [|rewrite !elem_of_cons; tauto|..]|].
  intros r1 d1 (-> & Hr1 & Hp1 & Ha1 & _). rewrite decide_False by (intros H; done).
  eapply wp_seq; [by apply address_set; [|rewrite !elem_of_cons; tauto|..]|].
  intros r2 d2 (-> & Hr2 & Hp2 & Ha2 & Hq2). rewrite decide_False by (intros H; done).
  apply Hk; [done|congruence|]. split; [|done]. rewrite <-Ha1. apply Hq2; [|done].
  by refine (bool_decide_unpack (config_reg _) _).
Qed.

Lemma nrf_tx_addr_bytes : Forall is_u8 nrf_tx_addr.
Proof. unfold is_u8. by_decision. Qed.

(** A turn of the transmitter thread. *)
Lemma tx_turn_spec published trimmed d :
  ready d → (31 ≤ length published)%nat → length trimmed = 31%nat →
  wp (tx_turn h published trimmed) d (λ r d', r = 0 ∧ ready d' ∧ addressed regs (world d') nrf_tx_addr ∧
    let data := reverse (take 31 published) in
    payloads (world d') = payloads (world d) ++ [(NRF24L01_COMMAND_W_TX_PAYLOAD_NO_ACK, data)] ∧
    ∃ d1 d2, call_spi_write h NRF24L01_COMMAND_W_TX_PAYLOAD_NO_ACK data d1 = Ok 0 d2 ∧
      addressed regs (world d1) nrf_tx_addr ∧
      payloads (world d1) = payloads (world d) ∧ payloads (world d2) = payloads (world d')).
Proof.
  intros Hr Hlp Hlt. unfold tx_turn, convert_to_trimmed. apply wp_bind, wp_ret.
  change (sizeof PS5Data) with 31%nat. unfold copied.
  rewrite (drop_ge trimmed), app_nil_r by lia. unfold nrf24l01_basic_send.
  eapply wp_seq; [by apply inactive|].
  intros res d0 (-> & Hr0 & Hp0 & _). rewrite decide_False by (intros H; done).
  apply both_addresses; [done|done|apply nrf_tx_addr_bytes|]. intros d1 Hr1 Hp1 [Ha1 Ha1'].
  eapply wp_seq; [apply send_no_ack; [done|lia|rewrite length_take; lia]|].
  intros r d2 (-> & Hr2 & Hq & Hp2 & da & db & E & Hqa & Hpa & Hpb). rewrite decide_False by (intros H; done).
  change (Z.to_nat (Z.of_nat 31)) with 31%nat in *. rewrite take_take, Nat.min_id in *.
  assert (Hc1 : config_reg NRF24L01_REG_TX_ADDR) by (by refine (bool_decide_unpack (config_reg _) _)).
  assert (Hc2 : config_reg NRF24L01_REG_RX_ADDR_P0) by (by refine (bool_decide_unpack (config_reg _) _)).
  apply wp_ret. split; [done|]. split; [done|]. split; [by split; rewrite Hq|].
  split; [by rewrite Hp2, Hp1, Hp0|]. exists da, db. split; [done|].
  split; [by split; rewrite Hqa|]. split; congruence.
Qed.

(** The address command with five bytes. *)
Lemma parse_addr_bytes args : ∀ i addr, parse_addr i args = inr addr →
  length addr = length args ∧ Forall is_u8 addr.
Proof.
  induction args as [|arg args IH]; intros i addr; cbn [parse_addr]; [by intros [= <-]|].
  destruct (strtol arg 0) as [val endptr]. destruct (decide _); [done|].
  destruct (parse_addr (i + 1) args) as [|rest] eqn:E; [done|]. intros [= <-].
  destruct (IH _ _ E) as [Hl Hu]. cbn [length]. split; [by rewrite Hl|]. by constructor.
Qed.

Lemma cmd_nrf_addr_spec argv addr (s : sh_state W) :
  ready (radio s) → length argv = 5%nat → parse_addr 0 argv = inr addr →
  wp (cmd_nrf_addr h argv) s (λ _ s', ready (radio s') ∧ addressed regs (world (radio s')) addr ∧
    payloads (world (radio s')) = payloads (world (radio s)) ∧ tx s' = mk_tx_state addr 1).
Proof.
  intros Hr Hl Hp. destruct (parse_addr_bytes _ _ _ Hp) as [Hla Hu]. rewrite Hl in Hla.
  unfold cmd_nrf_addr. rewrite decide_False by (intros H; done). rewrite Hp. apply wp_bind, wp_gets.
  eapply wp_seq.
  { apply wp_on_radio with (R := λ '(res, st) d', res = 0 ∧ st = mk_tx_state addr 1 ∧ ready d' ∧
      addressed regs (world d') addr ∧ payloads (world d') = payloads (world (radio s))).
    apply both_addresses; [done..|]. intros d1 Hr1 Hp1 Ha1.
    unfold memcpy_local. rewrite decide_True by lia. apply wp_bind, wp_ret, wp_ret.
    by rewrite take_ge by lia. }
  intros [res st] s1 ((-> & -> & Hr1 & Ha & Hpay) & _). apply wp_bind, wp_modify.
  rewrite decide_True by done. by apply wp_ret.
Qed.
End Turn.

(** C10.  The address command does not change where the program transmits.  With a radio
    set up at the five byte width, [nrf_addr] with five bytes sets the chip and the
    remembered address to them, and [nrf_addr_get] prints them from then on; but the next
    turn of the transmitter thread sets the thread's own address again before its
    payload goes out, to that address, and the chip keeps it: the address printed is
    not the one in use. *)
Theorem nrf_addr_overridden {W} (h : nrf24l01_handle W) inv regs ce payloads
    `{!RadioBus h inv regs ce payloads} argv addr published trimmed (s : sh_state W) :
  ready inv regs (radio s) → length argv = 5%nat → parse_addr 0 argv = inr addr →
  (31 ≤ length published)%nat → length trimmed = 31%nat →
  wp (_ ← cmd_nrf_addr h argv; s1 ← mget;
      r ← on_radio (tx_turn h published trimmed);
      got ← cmd_nrf_addr_get []; mret (s1, r, head got)) s
    (λ '(s1, r, got) s',
      addressed regs (world (radio s1)) addr ∧ tx s' = mk_tx_state addr 1 ∧
      got = Some ("Current nRF24L01 TX address: 0x%02X 0x%02X 0x%02X 0x%02X 0x%02X"%string, PInt <$> addr) ∧
      r = 0 ∧ addressed regs (world (radio s')) nrf_tx_addr ∧
      let data := reverse (take 31 published) in
      payloads (world (radio s')) =
        payloads (world (radio s)) ++ [(NRF24L01_COMMAND_W_TX_PAYLOAD_NO_ACK, data)] ∧
      ∃ d1 d2, call_spi_write h NRF24L01_COMMAND_W_TX_PAYLOAD_NO_ACK data d1 = Ok 0 d2 ∧
        addressed regs (world d1) nrf_tx_addr ∧ payloads (world d1) = payloads (world (radio s)) ∧
        payloads (world d2) = payloads (world (radio s'))).
Proof.
  intros Hr Hl Hp Hlp Hlt. eapply wp_seq; [by eapply (cmd_nrf_addr_spec h inv regs ce payloads)|].
  intros _ s1 (Hr1 & Ha & Hpay & Htx). apply wp_bind, wp_get.
  eapply wp_seq; [by eapply wp_on_radio, (tx_turn_spec h inv regs ce payloads)|].
  intros r s2 ((-> & Hr2 & Ha2 & Hp2 & d1 & d2 & E & Hd1 & Hp1 & Hpd2) & Htx2 & _).
  unfold cmd_nrf_addr_get. apply wp_bind, wp_bind, wp_gets. rewrite Htx2, Htx.
  cbn [nrf24l01_basic_get_tx_address gs_tx_addr gs_tx_addr_set]. rewrite decide_True by done.
  apply wp_ret, wp_ret. split; [done|]. split; [by rewrite Htx2|]. split; [done|].
  split; [done|]. split; [done|]. rewrite Hpay in *. split; [done|]. by exists d1, d2.
Qed.

(** ** A radio to run it on *)

Module SimRadio.
Import Sim.
(** The payload frames among those the chip was sent. *)
Definition payload_of (frame : list Z) : option (Z * list Z) :=
  match frame with
  | c :: data =>
      if decide (c ∈ [NRF24L01_COMMAND_W_TX_PAYLOAD; NRF24L01_COMMAND_W_TX_PAYLOAD_NO_ACK])
      then Some (c, data) else None
  | [] => None
  end.
Definition sim_payloads (w : sim) : list (Z * list Z) := omap payload_of (s_log w).

Lemma payloads_send tx d l : omap payload_of (s_log (world d)) = l →
  (∀ c data, tx = c :: data → c ∉ [NRF24L01_COMMAND_W_TX_PAYLOAD; NRF24L01_COMMAND_W_TX_PAYLOAD_NO_ACK]) →
  wp (sim_send tx) d (λ _ d', sim_payloads (world d') = l).
Proof.
  intros Hl Hc. unfold sim_send, with_world. apply wp_bind, wp_modify, wp_ret. cbn [world].
  destruct tx as [|c data]; [exact Hl|].
  assert (E : omap payload_of (s_log (world d) ++ [c :: data]) = l).
  { rewrite omap_app, Hl. cbn [omap list_omap payload_of]. rewrite decide_False by (by eapply Hc). apply app_nil_r. }
  unfold sim_payloads. by destruct (decide _); cbn [s_log]; rewrite E.
Qed.

Lemma strengthen {A} (m : M (nrf24l01_dyn sim) A) d l rs (P : A → nrf24l01_dyn sim → Prop) :
  wp m d (λ a d', P a d' ∧ touched sim_wf sim_reg s_ce rs d d') →
  wp m d (λ _ d', sim_payloads (world d') = l) →
  wp m d (λ a d', P a d' ∧ touched (λ w, sim_wf w ∧ sim_payloads w = l) sim_reg s_ce rs d d').
Proof.
  intros H1 H2. eapply wp_mono; [apply (wp_conj _ _ _ _ H1 H2)|].
  intros a d' [(Ha & Hw & Ht) Hp]. exact (conj Ha (conj (conj Hw Hp) Ht)).
Qed.

(** No register or command frame is a payload. *)
Lemma register_frame r : config_reg r ∨ r = NRF24L01_REG_STATUS →
  Z.lor NRF24L01_COMMAND_W_REGISTER r ∉ [NRF24L01_COMMAND_W_TX_PAYLOAD; NRF24L01_COMMAND_W_TX_PAYLOAD_NO_ACK].
Proof.
  intros [Hr| ->]; [|by_decision].
  assert (H : forallb (λ r, bool_decide (Z.lor NRF24L01_COMMAND_W_REGISTER r ∉
    [NRF24L01_COMMAND_W_TX_PAYLOAD; NRF24L01_COMMAND_W_TX_PAYLOAD_NO_ACK])) config_regs = true) by reflexivity.
  rewrite forallb_forall in H. by apply (bool_decide_eq_true _), H, list_elem_of_In.
Qed.

#[global] Instance sim_chip_payloads l :
  SpiChip sim_exchange sim_send sim_nop sim_nop sim_nop sim_nop (sim_line 1) (sim_line 0)
    (λ w, sim_wf w ∧ sim_payloads w = l) sim_reg s_ce.
Proof.
  destruct sim_chip as [_ _ _ Hwrite Hstatus Hcommand _ _ _]. split.
  - intros w r [Hw _]. by apply Hw.
  - intros d r n [Hi Hp] Hr Hn. split_and!; [done| |done]. exists 0x0E.
    rewrite decide_True by done. by rewrite length_replicate.
  - intros d [Hi Hp]. split_and!; [done| |done]. by exists 0x0E, 0x0E.
  - intros d r data [Hi Hp] Hr Hn Hd.
    eapply wp_mono; [apply (strengthen _ d l [r] (λ msg d', msg = HAL_RET_SUCCESS ∧
      sim_reg (world d') r = ((λ b, Z.land b (reg_mask r)) <$> data) ++ drop (length data) (sim_reg (world d) r)))|].
    + eapply wp_mono; [by apply Hwrite|]. by intros msg d' (? & ? & ?).
    + apply payloads_send; [done|]. intros c x [= <- <-]. apply register_frame. by left.
    + by intros msg d' [[? ?] ?].
  - intros d b [Hi Hp] Hb. apply (strengthen _ d l [] (λ msg _, msg = HAL_RET_SUCCESS)).
    + by apply Hstatus.
    + apply payloads_send; [done|]. intros c x [= <- <-]. apply register_frame. by right.
  - intros d cmd [Hi Hp] Hc. apply (strengthen _ d l [] (λ msg _, msg = HAL_RET_SUCCESS)).
    + by apply Hcommand.
    + apply payloads_send; [done|]. intros c x [= <- <-].
      rewrite !elem_of_cons, elem_of_nil in Hc. destruct Hc as [->|[->|[->|[]]]]; by_decision.
  - intros m d Hm [Hi Hp]. rewrite !elem_of_cons, elem_of_nil in Hm.
    by destruct Hm as [->|[->|[->|[->|[]]]]].
  - done.
  - done.
Qed.

#[global] Instance sim_radio : RadioBus sim_handle sim_wf sim_reg s_ce sim_payloads.
Proof.
  split.
  - intros l. apply interface_bus. apply sim_chip_payloads.
  - intros d cmd data Hi Hl Hc.
    change (call_spi_write sim_handle cmd data) with
      (nrf24l01_interface_spi_write sim_send sim_nop sim_nop sim_nop sim_nop cmd data).
    unfold nrf24l01_interface_spi_write. rewrite decide_False by (unfold SPI_BUFFER_SIZE; lia).
    destruct (fill_tx_take cmd data) as (frame & -> & Htx & _); [unfold SPI_BUFFER_SIZE; lia|].
    replace (Z.to_nat (Z.of_nat (length data) + 1)) with (S (length data)) by lia.
    apply wp_bind, wp_ret. apply wp_bind, wp_ret. apply wp_bind, wp_ret. rewrite Htx.
    assert (Hn : ¬ config_reg (cmd - 0x20)).
    { rewrite !elem_of_cons, elem_of_nil in Hc. destruct Hc as [->|[->|[]]];
        by refine (bool_decide_unpack (¬ config_reg _) _). }
    unfold sim_send, with_world. apply wp_bind, wp_bind, wp_modify, wp_ret. cbn [world].
    rewrite (decide_False (P := config_reg (cmd - 0x20))) by done. apply wp_bind, wp_ret, wp_bind, wp_ret.
    rewrite decide_True by done. apply wp_ret. split_and!; try done. unfold sim_payloads. cbn [world s_log]. rewrite omap_app.
    cbn [omap list_omap payload_of]. by rewrite decide_True.
Qed.

Definition start (W : Type) (w : W) : sh_state W := mk_sh (mk_dyn 1 0 w) tx_state_init net_init.
End SimRadio.

Lemma nrf_addr_overridden_witness :
  let s := SimRadio.start Sim.sim (Sim.mk_sim {[ NRF24L01_REG_SETUP_AW := [3] ]} 0 []) in
  wp (_ ← cmd_nrf_addr Sim.sim_handle [chars "0xE7"; chars "231"; chars "0347"; chars "0xe7"; chars "1"];
      s1 ← mget; r ← on_radio (tx_turn Sim.sim_handle (replicate 40 5) (replicate 31 0));
      got ← cmd_nrf_addr_get []; mret (s1, r, head got)) s
    (λ '(_, r, got) s', r = 0 ∧
      got = Some ("Current nRF24L01 TX address: 0x%02X 0x%02X 0x%02X 0x%02X 0x%02X"%string,
        PInt <$> [231; 231; 231; 231; 1]) ∧
      addressed Sim.sim_reg (world (radio s')) [0x65; 0x64; 0x6F; 0x4E; 0x32] ∧
      SimRadio.sim_payloads (world (radio s')) =
        [(NRF24L01_COMMAND_W_TX_PAYLOAD_NO_ACK, replicate 31 5)]).
Proof.
  cbv zeta. eapply wp_mono.
  - apply (nrf_addr_overridden Sim.sim_handle Sim.sim_wf Sim.sim_reg Sim.s_ce SimRadio.sim_payloads
      [chars "0xE7"; chars "231"; chars "0347"; chars "0xe7"; chars "1"] [231; 231; 231; 231; 1]
      (replicate 40 5) (replicate 31 0)).
    + split; [reflexivity|]. split; [apply NrfProps.sim_width_wf; lia|]. exists 3. split; reflexivity.
    + reflexivity.
    + vm_compute. reflexivity.
    + vm_compute. lia.
    + reflexivity.
  - intros [[s1 r] got] s' (_ & _ & Hg & Hr & Ha & Hp & _). split_and!; [exact Hr|exact Hg|exact Ha|exact Hp].
Defined.
