(* ===== verification/UdpShared.v ===== *)
(** * The UDP destination, shared

    [udp_set_destination] and [udp_get_destination] of src/main.c run in several threads and copy the
    text byte by byte between [chMtxLock] and [chMtxUnlock], while the scheduler takes the processor
    away at any point.  [Net.v] has each call as one step; here every byte is one, over the
    kernel and the mutexes of [ChMutex.v], and the calls are proved to be atomic. *)
From stdpp Require Import relations.
From S2P Require Import Prelude ChKernel ChSched ChProps ChMutex ChMutexFacts ChMutexOps ChMutexProps IpAddr Net.

(** ** The threads *)

(** A call that passed the checks of its arguments; a get has the caller's buffer. *)
Inductive call : Type := CSet (text : list Z) | CGet (buf : list Z).
Definition call_ok (c : call) : Prop :=
  match c with CSet text => no_nul text ∧ valid_dest text | CGet buf => buf ≠ [] end.

(** Where a thread is in a call: before the mutex, asleep in [chMtxLock], or with [i] bytes copied. *)
Inductive progress : Type :=
  | Wants (c : call) | Asleep (c : call) | Copying (c : call) (i : nat) (dst : list Z).
Definition copy_start (c : call) : progress := Copying c 0 (match c with CSet _ => [] | CGet buf => buf end).

(** The bytes a call writes: those of [strncpy] and the terminator. *)
Definition copy_len (c : call) : nat :=
  match c with CSet _ => udp_dest_size | CGet buf => length buf end.
(** Byte [i], with the shared text in [mem] and the caller's buffer in [dst]: [strncpy] reads up to the
    first null character and writes null characters from there on; the last byte is the terminator. *)
Definition dest_byte (c : call) (i : nat) (mem dst : list Z) : option (list Z * list Z) :=
  match c with
  | CSet text => Some (<[i := if decide (i = udp_dest_size - 1)%nat then 0 else default 0 (text !! i)]> mem, dst)
  | CGet buf =>
      if decide (i = length buf - 1)%nat then Some (mem, <[i := 0]> dst)
      else b ← (if decide (0 ∈ take i dst) then Some 0 else mem !! i); Some (mem, <[i := b]> dst)
  end.

(** [log]: the calls that have returned, in order, with the buffers that gets were left with. *)
Record udp_sys : Type := mk_sys {
  sys_kernel : mkernel; sys_net : net_state; sys_progress : gmap Z progress; sys_log : list (call * list Z) }.
Definition with_dest (mem : list Z) (n : net_state) : net_state := mk_net (addressMode n) (thisif n) mem.

Section Shared.
Context (udp_dest_mutex : Z).

(** One step of the running thread [t] or of the scheduler. *)
Inductive udp_step : udp_sys → udp_sys → Prop :=
  | step_call s n ps log t c :
      t = currthread (kern s) → ps !! t = None → call_ok c →
      udp_step (mk_sys s n ps log) (mk_sys s n (<[t := Wants c]> ps) log)
  | step_lock s n ps log t c (b : bool) s' :
      t = currthread (kern s) → ps !! t = Some (Wants c) → rlist (kern s) ≠ [] → chMtxLock udp_dest_mutex s = Ok b s' →
      udp_step (mk_sys s n ps log) (mk_sys s' n (<[t := if b then copy_start c else Asleep c]> ps) log)
  | step_resume s n ps log t c :
      t = currthread (kern s) → ps !! t = Some (Asleep c) →
      udp_step (mk_sys s n ps log) (mk_sys s n (<[t := copy_start c]> ps) log)
  | step_copy s n ps log t c i dst mem' dst' :
      t = currthread (kern s) → ps !! t = Some (Copying c i dst) → (i < copy_len c)%nat →
      dest_byte c i (udp_dest_ip n) dst = Some (mem', dst') →
      udp_step (mk_sys s n ps log) (mk_sys s (with_dest mem' n) (<[t := Copying c (1 + i) dst']> ps) log)
  | step_unlock s n ps log t c dst s' :
      t = currthread (kern s) → ps !! t = Some (Copying c (copy_len c) dst) → chMtxUnlock udp_dest_mutex s = Ok tt s' →
      udp_step (mk_sys s n ps log) (mk_sys s' n (delete t ps) (log ++ [(c, dst)]))
  | step_sched s n ps log op s' :
      mtx_legal (MSched op) s → run_mtx (MSched op) s = Ok tt s' →
      udp_step (mk_sys s n ps log) (mk_sys s' n ps log).

(** ** One call at a time *)

(** The calls of a log, each run whole by the definitions of [Net.v], lead from [n] to [n']. *)
Fixpoint explains (n : net_state) (log : list (call * list Z)) (n' : net_state) : Prop :=
  match log with
  | [] => n = n'
  | (CSet text, _) :: log => (udp_set_destination (Some text) n).1 = true ∧ explains (udp_set_destination (Some text) n).2 log n'
  | (CGet buf, dst) :: log => udp_get_destination (Some buf) (length buf) n = Some dst ∧ explains n log n'
  end.
Definition terminated (mem : list Z) : Prop := length mem = udp_dest_size ∧ mem !! (udp_dest_size - 1)%nat = Some 0.

Lemma explains_app n log log' n' n'' : explains n log n' → explains n' log' n'' → explains n (log ++ log') n''.
Proof.
  revert n. induction log as [|[[text|buf] dst] log IH]; intros n; simpl; [by intros ->| |]; intros [? ?] ?; (split; [done|]; by apply IH).
Qed.
Lemma set_whole text n :
  no_nul text → valid_dest text → terminated (udp_dest_ip n) →
  udp_set_destination (Some text) n = (true, with_dest (text ++ replicate (udp_dest_size - length text) 0) n).
Proof.
  intros Hn (Hne & Hl & [a Ha]) [Hm _]. unfold udp_set_destination. rewrite decide_False.
  - rewrite Ha. unfold with_dest. do 2 f_equal. change (udp_dest_size - 1)%nat with 15%nat. rewrite strncpy_text; [done|change udp_dest_size with 16%nat in *; lia|].
    rewrite Hm. done.
  - intros [H0|?]; [|lia]. by apply nil_length_inv in H0.
Qed.

(** The text that is being copied in front of what was there. *)
Lemma splice_byte (whole old : list Z) i b :
  whole !! i = Some b → (i < length old)%nat → <[i := b]> (take i whole ++ drop i old) = take (1 + i) whole ++ drop (1 + i) old.
Proof.
  intros Hb Hi. pose proof (lookup_lt_Some _ _ _ Hb). rewrite insert_app_r_alt by (rewrite length_take; lia).
  rewrite length_take, Nat.min_l, Nat.sub_diag by lia. change (1 + i)%nat with (S i). rewrite (take_S_r _ _ _ Hb), <-app_assoc. f_equal.
  destruct (drop i old) as [|x r] eqn:E; [apply (f_equal length) in E; rewrite length_drop in E; simpl in E; lia|].
  cbn [insert list_insert app]. f_equal. rewrite <-Nat.add_1_r, <-drop_drop, E. done.
Qed.
(** What a call leaves in the buffer that it writes, when the shared text was [mem]. *)
Definition copied (c : call) (mem : list Z) : list Z :=
  match c with
  | CSet text => text ++ replicate (udp_dest_size - length text) 0
  | CGet buf => take (length buf - 1) (cstr mem ++ replicate (length buf - 1) 0) ++ [0]
  end.
Lemma dest_length c mem : call_ok c → length (copied c mem) = copy_len c.
Proof.
  destruct c as [text|buf]; simpl.
  - intros [_ (_ & ? & _)]. rewrite length_app, length_replicate. lia.
  - intros Hb. rewrite length_app, length_take, length_app, length_replicate. destruct buf; [done|]. simpl. lia.
Qed.
Lemma cstr_split mem : terminated mem → ∃ rest, mem = cstr mem ++ 0 :: rest.
Proof.
  intros [_ H]. assert (0 ∈ mem) as H0 by by eapply list_elem_of_lookup_2. clear H. induction mem as [|c mem IH]; [by apply elem_of_nil in H0|].
  cbn [cstr]. case_decide as Hc; [subst c; by exists mem|]. apply elem_of_cons in H0 as [?|H0]; [congruence|].
  destruct (IH H0) as [rest E]. exists rest. simpl. by rewrite <-E.
Qed.

Lemma set_byte text mem i :
  call_ok (CSet text) → length mem = udp_dest_size → (i < udp_dest_size)%nat →
  copied (CSet text) mem !! i = Some (if decide (i = udp_dest_size - 1)%nat then 0 else default 0 (text !! i)).
Proof.
  intros [_ (_ & Hl & _)] Hm Hi. cbn [copied]. unfold udp_dest_size in *. destruct (decide (i < length text)%nat) as [Hlt|Hge].
  - rewrite lookup_app_l by done. rewrite decide_False by lia. by destruct (lookup_lt_is_Some_2 _ _ Hlt) as [x ->].
  - rewrite lookup_app_r, lookup_replicate_2 by lia. rewrite (lookup_ge_None_2 text) by lia. by case_decide.
Qed.
Lemma get_byte buf mem i :
  terminated mem → (i < length buf)%nat → i ≠ (length buf - 1)%nat →
  ∃ b, copied (CGet buf) mem !! i = Some b ∧ (if decide (0 ∈ take i (copied (CGet buf) mem)) then Some 0 else mem !! i) = Some b.
Proof.
  intros Hm Hi Hn. destruct (cstr_split mem Hm) as [rest E]. pose proof (cstr_no_nul mem) as Hnul. simpl.
  set (src := cstr mem) in *. set (F := take _ _). assert (length F = length buf - 1)%nat as HF by (unfold F; rewrite length_take, length_app, length_replicate; lia).
  assert (∀ j, (j < length buf - 1)%nat → F !! j = if decide (j < length src)%nat then src !! j else Some 0) as HFj.
  { intros j Hj. unfold F. rewrite lookup_take_lt by done. case_decide; [by rewrite lookup_app_l|]. rewrite lookup_app_r, lookup_replicate_2 by lia. done. }
  rewrite lookup_app_l, take_app_le by lia. rewrite HFj by lia.
  assert (0 ∈ take i F ↔ (length src < i)%nat) as H0.
  { split.
    - intros (j & Hj)%list_elem_of_lookup_1. apply lookup_take_Some in Hj as [Hj Hji]. rewrite HFj in Hj by lia. case_decide as Hs; [|lia].
      unfold no_nul in Hnul. rewrite Forall_lookup in Hnul. by destruct (Hnul _ _ Hj).
    - intros Hs. apply (list_elem_of_lookup_2 _ (length src)). rewrite lookup_take_lt, HFj by lia. by rewrite decide_False by lia. }
  destruct (decide (0 ∈ take i F)) as [Hz|Hz]; rewrite H0 in Hz.
  - exists 0. by rewrite decide_False by lia.
  - rewrite E. case_decide as Hs.
    + rewrite lookup_app_l by done. destruct (lookup_lt_is_Some_2 _ _ Hs) as [b ->]. by exists b.
    + exists 0. split; [done|]. rewrite lookup_app_r by lia. replace (i - length src)%nat with 0%nat by lia. done.
Qed.

(** ** What the mutex gives and takes *)

Lemma slept_views mp m s s' :
  slept mp m s s' →
  (∀ t x, owns (mutexes s') t x ↔ owns (mutexes s) t x) ∧
  (∀ t x, waits (vths s') t x ↔ (t = currthread (kern s) ∧ x = mp) ∨ (t ≠ currthread (kern s) ∧ waits (vths s) t x)) ∧
  is_Some (mutexes s' !! mp).
Proof.
  intros (thc & ths & ms & m1 & Ec & Hb & _ & _ & Hr & Em & _ & -> & -> & _). split_and!; [| |by rewrite lookup_insert_eq; eexists].
  - intros t x. rewrite (same_owns ms) by by apply same_insert. by apply same_owns, requeued_same.
  - intros t x. rewrite waits_insert. cbn [state u with_state with_u]. rewrite (alike_waits (vths s)) by by eapply boosted_alike. naive_solver.
Qed.
(** The new owner [o] of a mutex that was unlocked, 0 when there is none. *)
Lemma unlocked_views mp m s s' :
  mtx_inv nothing nothing s → mutexes s !! mp = Some m → unlocked mp m s s' →
  ∃ o, (∀ t x, owns (mutexes s') t x ↔ (x = mp ∧ t = o) ∨ (x ≠ mp ∧ owns (mutexes s) t x)) ∧
    (∀ t x, waits (vths s') t x ↔ t ≠ o ∧ waits (vths s) t x) ∧ (o ≠ 0 → waits (vths s) o mp) ∧ is_Some (mutexes s' !! mp).
Proof.
  intros (Hi & _ & Ho) Em [Hu _]. destruct (ok_null _ _ _ _ _ _ Ho) as [H1 _]. destruct (queue m) as [|tp q] eqn:Eq.
  - destruct Hu as [Hk Hm]. exists 0. rewrite Hm. split_and!; [| |done|by rewrite lookup_insert_eq; eexists].
    + intros t x. rewrite owns_insert. naive_solver.
    + intros t x. unfold vths. rewrite Hk. split; [|tauto]. intros Hw. split; [|done]. intros ->. destruct Hw as (th & E & _). unfold vths in H1. congruence.
  - destruct Hu as (thc & thtp & p & ltp & Ec & Etp & Htc & Hv & Hm). exists tp. rewrite Hm, Hv.
    assert (∀ x, ¬ waits (vths s) (currthread (kern s)) x) as Hcw.
    { intros x (th & E & Hst & _). destruct (current_vths s Hi) as (th' & E' & Hst'). congruence. }
    split_and!; [| | |by rewrite lookup_insert_eq; eexists].
    + intros t x. rewrite owns_insert. naive_solver.
    + intros t x. rewrite !waits_insert. cbn [state u with_state with_prio]. split.
      * intros [(_ & [=] & _)|[? [(-> & Hst & Hu)|[? ?]]]]; [|done]. destruct (Hcw x). by exists thc.
      * intros [? Hw]. right. split; [done|right]. split; [|done]. intros ->. by apply (Hcw x).
    + intros _. apply (ok_waits _ _ _ _ _ _ Ho mp m tp Em). rewrite Eq. by left.
Qed.

(** ** The invariant *)

(** How far a call has come, with the text [mem] in memory and [a] when it started. *)
Definition copy_state (c : call) (i : nat) (dst mem a : list Z) : Prop :=
  match c with
  | CSet text => mem = take i (copied c a) ++ drop i a
  | CGet buf => mem = a ∧ dst = take i (copied c a) ++ drop i buf
  end.
Definition call_of (p : progress) : call := match p with Wants c | Asleep c | Copying c _ _ => c end.
(** [a]: the state as the calls that have returned leave it. *)
Record udp_inv (a : net_state) (y : udp_sys) : Prop := {
  u_mtx : mtx_inv nothing nothing (sys_kernel y);
  u_mutex : is_Some (mutexes (sys_kernel y) !! udp_dest_mutex);
  u_only : ∀ t x, t ≠ 0 → owns (mutexes (sys_kernel y)) t x → x = udp_dest_mutex;
  u_calls : ∀ t p, sys_progress y !! t = Some p → t ≠ 0 ∧ call_ok (call_of p);
  u_asleep : ∀ t c, sys_progress y !! t = Some (Asleep c) →
    waits (vths (sys_kernel y)) t udp_dest_mutex ∨ owns (mutexes (sys_kernel y)) t udp_dest_mutex;
  u_copying : ∀ t c i dst, sys_progress y !! t = Some (Copying c i dst) → owns (mutexes (sys_kernel y)) t udp_dest_mutex ∧
    (i <= copy_len c)%nat ∧ copy_state c i dst (udp_dest_ip (sys_net y)) (udp_dest_ip a);
  u_waits : ∀ t x, waits (vths (sys_kernel y)) t x → x = udp_dest_mutex ∧ ∃ c, sys_progress y !! t = Some (Asleep c);
  u_owns : ∀ t, t ≠ 0 → owns (mutexes (sys_kernel y)) t udp_dest_mutex →
    ∃ c, sys_progress y !! t = Some (Asleep c) ∨ ∃ i dst, sys_progress y !! t = Some (Copying c i dst);
  u_rest : (∀ t c i dst, sys_progress y !! t ≠ Some (Copying c i dst)) → udp_dest_ip (sys_net y) = udp_dest_ip a;
  u_net : sys_net y = with_dest (udp_dest_ip (sys_net y)) a;
  u_terminated : terminated (udp_dest_ip a) }.

Lemma owns_unique ms t1 t2 x : owns ms t1 x → owns ms t2 x → t1 = t2.
Proof. intros (m1 & E1 & <-) (m2 & E2 & <-). congruence. Qed.
Lemma copy_starts c mem : copy_state c 0 (match c with CSet _ => [] | CGet buf => buf end) mem mem.
Proof. by destruct c. Qed.
Lemma current_not_waiting s x : mtx_inv nothing nothing s → ¬ waits (vths s) (currthread (kern s)) x.
Proof. intros (Hi & _) (th & E & Hst & _). destruct (current_vths s Hi) as (th' & E' & Hst'). congruence. Qed.
Lemma current_not_null s : mtx_inv nothing nothing s → currthread (kern s) ≠ 0.
Proof. intros (Hi & _ & Ho). destruct (current_vths s Hi) as (th & E & _). eapply ok_thread; [exact Ho|by eexists]. Qed.
(** The thread that owns the mutex and has not started to copy is alone with the text. *)
Lemma nobody_copies a y t c : udp_inv a y → owns (mutexes (sys_kernel y)) t udp_dest_mutex → sys_progress y !! t = Some (Asleep c) →
  udp_dest_ip (sys_net y) = udp_dest_ip a.
Proof.
  intros Hu Hown Hp. apply (u_rest _ _ Hu). intros t' c' i dst E. destruct (u_copying _ _ Hu _ _ _ _ E) as (Hown' & _).
  pose proof (owns_unique _ _ _ _ Hown Hown'). congruence.
Qed.

(** ** The steps *)

Lemma wp_ran {A} (m : M mkernel A) s Q r s' : wp m s Q → m s = Ok r s' → Q r s'.
Proof. unfold wp. intros H E. by rewrite E in H. Qed.

Lemma call_keeps a s n ps log c :
  let t := currthread (kern s) in
  udp_inv a (mk_sys s n ps log) → ps !! t = None → call_ok c → udp_inv a (mk_sys s n (<[t := Wants c]> ps) log).
Proof.
  intros t Hu Hp Hc. pose proof (current_not_null s (u_mtx _ _ Hu)) as Ht0. destruct Hu. split; cbn [sys_kernel sys_net sys_progress] in *; try done.
  - intros t' p [(<- & <-)|[_ E]]%lookup_insert_Some; [done|by eapply u_calls0].
  - intros t' c' [(<- & [=])|[_ E]]%lookup_insert_Some. by eapply u_asleep0.
  - intros t' c' i dst [(<- & [=])|[_ E]]%lookup_insert_Some. by apply u_copying0.
  - intros t' x Hw. destruct (u_waits0 t' x Hw) as (-> & c' & E). split; [done|]. exists c'. rewrite lookup_insert_ne; [done|congruence].
  - intros t' Hn Ho. destruct (u_owns0 t' Hn Ho) as (c' & Hc'). exists c'. assert (t ≠ t') by (intros <-; naive_solver). by rewrite lookup_insert_ne.
  - intros Hnone. apply u_rest0. intros t' c' i dst E. apply (Hnone t' c' i dst). rewrite lookup_insert_ne; [done|congruence].
Qed.
(** The running thread enters the critical section: it owns the mutex, and nobody copies. *)
Lemma enter_keeps a s n ps log c :
  let t := currthread (kern s) in
  udp_inv a (mk_sys s n ps log) → ps !! t = Some (Asleep c) → udp_inv a (mk_sys s n (<[t := copy_start c]> ps) log).
Proof.
  intros t Hu Hp. pose proof (current_not_waiting s udp_dest_mutex (u_mtx _ _ Hu)) as Hnw.
  assert (owns (mutexes s) t udp_dest_mutex) as Hown by (destruct (u_asleep _ _ Hu t c Hp); [done|done]).
  pose proof (nobody_copies _ _ _ _ Hu Hown Hp) as Hmem. destruct Hu. split; cbn [sys_kernel sys_net sys_progress] in *; try done.
  - intros t' p [(<- & <-)|[_ E]]%lookup_insert_Some; [exact (u_calls0 _ _ Hp)|by eapply u_calls0].
  - intros t' c' [(<- & [=])|[_ E]]%lookup_insert_Some. by eapply u_asleep0.
  - intros t' c' i dst [(<- & [= <- <- <-])|[_ E]]%lookup_insert_Some; [|by apply u_copying0]. rewrite Hmem. split_and!; [done|lia|apply copy_starts].
  - intros t' x Hw. destruct (u_waits0 t' x Hw) as (-> & c' & E). split; [done|]. exists c'. rewrite lookup_insert_ne; [done|]. intros <-. by destruct Hnw.
  - intros t' Hn Ho. pose proof (owns_unique _ _ _ _ Ho Hown) as ->. exists c. right. rewrite lookup_insert_eq. by do 2 eexists.
Qed.
(** The mutex was free: as above. *)
Lemma lock_keeps a s n ps log c b s' :
  let t := currthread (kern s) in
  udp_inv a (mk_sys s n ps log) → ps !! t = Some (Wants c) → rlist (kern s) ≠ [] → chMtxLock udp_dest_mutex s = Ok b s' →
  udp_inv a (mk_sys s' n (<[t := if b then copy_start c else Asleep c]> ps) log).
Proof.
  intros t Hu Hp Hr E. pose proof (u_mtx _ _ Hu) as Hinv. pose proof (current_not_null s Hinv) as Ht0. destruct (u_mutex _ _ Hu) as [m Em].
  destruct (u_calls _ _ Hu t _ Hp) as [_ Hok]. cbn [sys_kernel sys_net sys_progress call_of] in *. destruct (decide (owner m = 0)) as [Ho|Ho].
  - destruct (current_list s Hinv) as [l Hl]. destruct (wp_ran _ _ _ _ _ (lock_free_runs _ _ _ _ Hinv Em Ho Hl) E) as (-> & Hinv' & Hk & _ & (p & Hm) & _).
    assert (∀ t' x, waits (vths s') t' x ↔ waits (vths s) t' x) as Hw by (intros; unfold vths; by rewrite Hk).
    assert (∀ t', t' ≠ 0 → ¬ owns (mutexes s) t' udp_dest_mutex) as Hno by (intros t' Hn (m' & ? & ?); simplify_eq; congruence).
    assert (∀ t' c' i dst, ps !! t' ≠ Some (Copying c' i dst)) as Hnc.
    { intros t' c' i dst Ec. destruct (u_copying _ _ Hu _ _ _ _ Ec) as (Hown & _). destruct (u_calls _ _ Hu _ _ Ec) as [Hn _]. by apply (Hno t'). }
    pose proof (u_rest _ _ Hu Hnc) as Hmem. destruct Hu. split; cbn [sys_kernel sys_net sys_progress] in *; try done.
    + rewrite Hm, lookup_insert_eq. by eexists.
    + intros t' x Hn. rewrite Hm, owns_insert. intros [[-> _]|[_ ?]]; [done|by eapply u_only0].
    + intros t' q [(<- & <-)|[_ Eq]]%lookup_insert_Some; [done|by eapply u_calls0].
    + intros t' c' [(<- & [=])|[_ Eq]]%lookup_insert_Some. rewrite Hw. destruct (u_asleep0 _ _ Eq) as [?|Hown]; [by left|].
      destruct (u_calls0 _ _ Eq) as [Hn _]. by destruct (Hno t').
    + intros t' c' i dst [(<- & [= <- <- <-])|[_ Eq]]%lookup_insert_Some; [|by destruct (Hnc _ _ _ _ Eq)].
      rewrite Hmem, Hm, owns_insert. split_and!; [by left|lia|apply copy_starts].
    + intros t' x. rewrite Hw. intros Hx. destruct (u_waits0 t' x Hx) as (-> & c' & Eq). split; [done|]. exists c'. rewrite lookup_insert_ne; [done|congruence].
    + intros t' Hn. rewrite Hm, owns_insert. cbn [owner]. intros [[_ <-]|[? _]]; [|done]. exists c. right. rewrite lookup_insert_eq. by do 2 eexists.
  - destruct (wp_ran _ _ _ _ _ (lock_held_runs _ _ _ Hinv Em Ho Hr) E) as (-> & Hinv' & Hsl). destruct (slept_views _ _ _ _ Hsl) as (Hown & Hw & Hmx).
    destruct Hu. split; cbn [sys_kernel sys_net sys_progress] in *; try done.
    + intros t' x Hn. rewrite Hown. by apply u_only0.
    + intros t' q [(<- & <-)|[_ Eq]]%lookup_insert_Some; [done|by eapply u_calls0].
    + intros t' c' [(<- & _)|[Hne Eq]]%lookup_insert_Some; rewrite Hw, Hown; [by left; left|].
      destruct (u_asleep0 _ _ Eq); [|by right]. left. right. by split; [apply not_eq_sym|].
    + intros t' c' i dst [(<- & [=])|[_ Eq]]%lookup_insert_Some. rewrite Hown. by apply u_copying0.
    + intros t' x. rewrite Hw. intros [[-> ->]|[Hne Hx]]; [split; [done|]; exists c; apply lookup_insert_eq|].
      destruct (u_waits0 t' x Hx) as (-> & c' & Eq). split; [done|]. exists c'. by rewrite lookup_insert_ne by by apply not_eq_sym.
    + intros t' Hn. rewrite Hown. intros Ho'. destruct (u_owns0 t' Hn Ho') as (c' & Hc'). exists c'.
      assert (t ≠ t') by (intros <-; naive_solver). by rewrite lookup_insert_ne.
    + intros Hnone. apply u_rest0. intros t' c' i dst Eq. apply (Hnone t' c' i dst). rewrite lookup_insert_ne; [done|congruence].
Qed.

Lemma copy_runs c i dst mem a :
  call_ok c → terminated a → (i < copy_len c)%nat → copy_state c i dst mem a →
  ∃ mem' dst', dest_byte c i mem dst = Some (mem', dst') ∧ copy_state c (1 + i) dst' mem' a.
Proof.
  intros Hok Ht Hi Hc. pose proof (dest_length c a Hok) as Hl. destruct c as [text|buf]; cbn [dest_byte copy_len copy_state] in *.
  - do 2 eexists. split; [done|]. rewrite Hc. apply splice_byte; [apply set_byte; [done|apply Ht|done]|by rewrite (proj1 Ht)].
  - destruct Hc as [-> ->]. destruct (decide (i = length buf - 1)%nat) as [->|Hn].
    + do 2 eexists. split; [done|]. split; [done|]. apply splice_byte; [|lia]. cbn [copied].
      rewrite lookup_app_r by (rewrite length_take, length_app, length_replicate; lia).
      rewrite length_take, length_app, length_replicate, Nat.min_l, Nat.sub_diag by lia. done.
    + destruct (get_byte buf a i Ht Hi Hn) as (b & Hb & Hb').
      assert (take i (take i (copied (CGet buf) a) ++ drop i buf) = take i (copied (CGet buf) a)) as ->.
      { rewrite take_app_le by (rewrite length_take; lia). by rewrite take_take, Nat.min_id. }
      rewrite Hb'. do 2 eexists. split; [done|]. split; [done|]. by apply splice_byte.
Qed.
Lemma copy_keeps a s n ps log c i dst mem' dst' :
  let t := currthread (kern s) in
  udp_inv a (mk_sys s n ps log) → ps !! t = Some (Copying c i dst) → (i < copy_len c)%nat →
  dest_byte c i (udp_dest_ip n) dst = Some (mem', dst') →
  udp_inv a (mk_sys s (with_dest mem' n) (<[t := Copying c (1 + i) dst']> ps) log).
Proof.
  intros t Hu Hp Hi E. pose proof (current_not_waiting s udp_dest_mutex (u_mtx _ _ Hu)) as Hnw.
  destruct (u_copying _ _ Hu _ _ _ _ Hp) as (Hown & _ & Hst). destruct (u_calls _ _ Hu _ _ Hp) as [Ht0 Hok].
  destruct (copy_runs _ _ _ _ _ Hok (u_terminated _ _ Hu) Hi Hst) as (? & ? & E' & Hst'). pose proof (eq_trans (eq_sym E) E') as Eb. injection Eb as <- <-.
  destruct Hu. split; cbn [sys_kernel sys_net sys_progress udp_dest_ip with_dest] in *; try done.
  - intros t' p [(<- & <-)|[_ Eq]]%lookup_insert_Some; [done|by eapply u_calls0].
  - intros t' c' [(<- & [=])|[_ Eq]]%lookup_insert_Some. by eapply u_asleep0.
  - intros t' c' j d [(<- & [= <- <- <-])|[Hne Eq]]%lookup_insert_Some; [split_and!; [done|lia|done]|].
    destruct (u_copying0 _ _ _ _ Eq) as (Hown' & _). by destruct Hne; eapply owns_unique.
  - intros t' x Hw. destruct (u_waits0 t' x Hw) as (-> & c' & Eq). split; [done|]. exists c'. rewrite lookup_insert_ne; [done|]. intros <-. by destruct Hnw.
  - intros t' Hn Ho. pose proof (owns_unique _ _ _ _ Ho Hown) as ->. exists c. right. rewrite lookup_insert_eq. by do 2 eexists.
  - intros Hnone. destruct (Hnone t c (1 + i)%nat dst'). apply lookup_insert_eq.
  - rewrite u_net0. done.
Qed.

(** The call that ends had its effect at once. *)
Definition effect (c : call) (a : net_state) : net_state :=
  match c with CSet text => with_dest (copied c (udp_dest_ip a)) a | CGet _ => a end.
Lemma call_ends c dst n a :
  call_ok c → terminated (udp_dest_ip a) → n = with_dest (udp_dest_ip n) a → copy_state c (copy_len c) dst (udp_dest_ip n) (udp_dest_ip a) →
  n = effect c a ∧ explains a [(c, dst)] (effect c a) ∧ terminated (udp_dest_ip (effect c a)).
Proof.
  intros Hok Ht Hn Hc. pose proof (dest_length c (udp_dest_ip a) Hok) as Hl. destruct c as [text|buf]; cbn [copy_len copy_state effect explains] in *.
  - rewrite take_ge in Hc by lia. rewrite drop_ge, app_nil_r in Hc by (rewrite (proj1 Ht); lia). rewrite Hn, Hc. destruct Hok as [Hnul Hv].
    rewrite (set_whole text a) by done. split; [done|]. split; [done|]. split; [exact Hl|].
    destruct Hv as (_ & Hlt & _). cbn [udp_dest_ip with_dest copied]. rewrite lookup_app_r by lia. apply lookup_replicate_2. lia.
  - destruct Hc as [Hm ->]. rewrite Hm in Hn. split_and!; [by rewrite Hn; destruct a| |done|apply Ht..].
    rewrite take_ge, drop_ge, app_nil_r by lia. unfold udp_get_destination. rewrite decide_False by (intros ?%nil_length_inv; by apply Hok).
    assert (0 < length buf)%nat by (destruct buf; [done|simpl; lia]). cbn [copied]. unfold strncpy. f_equal.
    rewrite insert_app_r_alt by (rewrite length_take, length_app, length_replicate; lia).
    rewrite length_take, length_app, length_replicate, Nat.min_l, Nat.sub_diag by lia. f_equal.
    destruct (drop (length buf - 1) buf) as [|x [|]] eqn:E; (apply (f_equal length) in E; rewrite length_drop in E; simpl in E; try lia). done.
Qed.

(** Inside the critical section the mutex is the only one the thread owns. *)
Lemma inside_unlocks a s n ps log c i dst :
  let t := currthread (kern s) in
  udp_inv a (mk_sys s n ps log) → ps !! t = Some (Copying c i dst) →
  ∃ m, mutexes s !! udp_dest_mutex = Some m ∧ owner m = t ∧ owned_list (mutexes s) (mtxlist s) t [udp_dest_mutex].
Proof.
  intros t Hu Hp. destruct (u_copying _ _ Hu _ _ _ _ Hp) as ((m & Em & Hm) & _). destruct (u_calls _ _ Hu _ _ Hp) as [Ht0 _].
  cbn [sys_kernel] in *. exists m. split; [done|split; [done|]]. destruct (current_list s (u_mtx _ _ Hu)) as (l & Hl).
  pose proof Hl as (p & _ & _ & Hnd & Hall). assert (∀ x, x ∈ l → x = udp_dest_mutex) as Hx by (intros x Hx%Hall; by eapply (u_only _ _ Hu)).
  assert (udp_dest_mutex ∈ l) as Hin by (apply Hall; by exists m). destruct l as [|x [|y l]]; [by apply elem_of_nil in Hin| |].
  - by rewrite (Hx x) in Hl by (by left).
  - apply NoDup_cons in Hnd as [Hnin _]. destruct Hnin. rewrite (Hx x), (Hx y) by (by repeat (left || right)). by left.
Qed.
Lemma unlock_keeps a s n ps log c dst s' :
  let t := currthread (kern s) in
  udp_inv a (mk_sys s n ps log) → ps !! t = Some (Copying c (copy_len c) dst) → chMtxUnlock udp_dest_mutex s = Ok tt s' →
  explains a [(c, dst)] (effect c a) ∧ udp_inv (effect c a) (mk_sys s' n (delete t ps) (log ++ [(c, dst)])).
Proof.
  intros t Hu Hp E. pose proof (u_mtx _ _ Hu) as Hinv. destruct (inside_unlocks _ _ _ _ _ _ _ _ Hu Hp) as (m & Em & Hm & Hlist).
  destruct (wp_ran _ _ _ _ _ (unlock_runs _ _ _ _ Hinv Em Hm Hlist) E) as (Hun & Hinv' & _).
  destruct (unlocked_views _ _ _ _ Hinv Em Hun) as (o & Hown & Hw & How & Hmx). pose proof (current_not_waiting s udp_dest_mutex Hinv) as Hnw.
  destruct (u_copying _ _ Hu _ _ _ _ Hp) as (Hot & _ & Hst). destruct (u_calls _ _ Hu _ _ Hp) as [Ht0 Hok]. cbn [sys_kernel sys_net sys_progress] in *.
  destruct (call_ends c dst n a Hok (u_terminated _ _ Hu) (u_net _ _ Hu) Hst) as (Hn & Hex & Hterm). split; [done|].
  assert (∀ t', owns (mutexes s) t' udp_dest_mutex → t' = t) as Huniq by (intros t' H'; by eapply owns_unique).
  destruct Hu. split; cbn [sys_kernel sys_net sys_progress] in *; try done.
  - intros t' x Hn'. rewrite Hown. intros [[-> _]|[_ ?]]; [done|by eapply u_only0].
  - intros t' p [_ Ep]%lookup_delete_Some. by eapply u_calls0.
  - intros t' c' [Hne Ep]%lookup_delete_Some. rewrite Hw, Hown. destruct (u_asleep0 _ _ Ep) as [?|Ho']; [|by apply Huniq in Ho' as ->].
    destruct (decide (t' = o)); [right; by left|by left].
  - intros t' c' i d [Hne Ep]%lookup_delete_Some. destruct (u_copying0 _ _ _ _ Ep) as (Ho' & _). by apply Huniq in Ho' as ->.
  - intros t' x [_ Hx]%Hw. destruct (u_waits0 t' x Hx) as (-> & c' & Ep). split; [done|]. exists c'. rewrite lookup_delete_ne; [done|].
    intros <-. by destruct Hnw.
  - intros t' Hn'. rewrite Hown. intros [[_ ->]|[? _]]; [|done]. destruct (u_waits0 _ _ (How Hn')) as (_ & c' & Ep). exists c'. left.
    rewrite lookup_delete_ne; [done|]. intros <-. destruct Hnw. by apply How.
  - intros _. by rewrite Hn.
  - rewrite Hn. by destruct (effect c a).
Qed.
Lemma sched_keeps a s n ps log op s' :
  udp_inv a (mk_sys s n ps log) → mtx_legal (MSched op) s → run_mtx (MSched op) s = Ok tt s' → udp_inv a (mk_sys s' n ps log).
Proof.
  intros Hu Hl E. destruct (wp_ran _ _ _ _ _ (sched_runs op s (u_mtx _ _ Hu) Hl) E) as (Hinv' & Hm & _ & _ & Hw).
  destruct Hu. split; cbn [sys_kernel sys_net sys_progress] in *; rewrite ?Hm; try done.
  - intros t c Ep. rewrite Hw. by apply (u_asleep0 t c).
  - intros t x. rewrite Hw. apply u_waits0.
Qed.

Lemma step_simulates a y y' :
  udp_inv a y → udp_step y y' → ∃ a' new, udp_inv a' y' ∧ sys_log y' = sys_log y ++ new ∧ explains a new a'.
Proof.
  intros Hu. destruct 1 as [s n ps log t c -> Hp Hc|s n ps log t c b s' -> Hp Hr E|s n ps log t c -> Hp|s n ps log t c i dst mem' dst' -> Hp Hi E
    |s n ps log t c dst s' -> Hp E|s n ps log op s' Hl E]; cbn [sys_log].
  1-4, 6: exists a, []; rewrite app_nil_r; split; [|done].
  - by apply call_keeps.
  - by apply lock_keeps.
  - by apply enter_keeps.
  - by eapply copy_keeps.
  - by eapply sched_keeps.
  - destruct (unlock_keeps _ _ _ _ _ _ _ _ Hu Hp E) as [Hex Hinv']. by exists (effect c a), [(c, dst)].
Qed.

(** Before the first call: the mutex is one, nobody owns any or waits, and the text has an end. *)
Definition udp_start (s : mkernel) (n : net_state) : Prop :=
  mtx_inv nothing nothing s ∧ (∃ m, mutexes s !! udp_dest_mutex = Some m) ∧ (∀ t x, t ≠ 0 → ¬ owns (mutexes s) t x) ∧
  (∀ t x, ¬ waits (threads (kern s)) t x) ∧ terminated (udp_dest_ip n).

Lemma start_inv s n : udp_start s n → udp_inv n (mk_sys s n ∅ []).
Proof.
  intros (Hinv & Hm & Hno & Hnw & Ht). split; cbn [sys_kernel sys_net sys_progress]; try done.
  - intros t x Hn Ho. by destruct (Hno t x).
  - intros t x Hw%vths_waits. by destruct (Hnw t x).
  - intros t Hn Ho. by destruct (Hno t udp_dest_mutex).
  - by destruct n.
Qed.
Lemma reached_inv s0 n0 y :
  udp_start s0 n0 → rtc udp_step (mk_sys s0 n0 ∅ []) y → ∃ a, udp_inv a y ∧ explains n0 (sys_log y) a.
Proof.
  intros H0 Hr. remember (mk_sys s0 n0 ∅ []) as y0 eqn:E0.
  assert (∃ a, udp_inv a y0 ∧ explains n0 (sys_log y0) a) as Hy0 by (subst; exists n0; split; [by apply start_inv|done]).
  clear E0 H0. induction Hr as [|y0 y1 y2 Hs _ IH]; [done|]. apply IH. destruct Hy0 as (a & Hu & Hex).
  destruct (step_simulates a y0 y1 Hu Hs) as (a' & new & Hu' & -> & Hnew). exists a'. split; [done|]. by eapply explains_app.
Qed.

(** What the running thread needs for its next step. *)
Definition can_go_on (y : udp_sys) : Prop :=
  let s := sys_kernel y in
  match sys_progress y !! currthread (kern s) with
  | Some (Wants _) => rlist (kern s) ≠ [] → ∃ b s', chMtxLock udp_dest_mutex s = Ok b s'
  | Some (Copying c i dst) =>
      if decide (i = copy_len c) then ∃ s', chMtxUnlock udp_dest_mutex s = Ok tt s'
      else (i < copy_len c)%nat ∧ is_Some (dest_byte c i (udp_dest_ip (sys_net y)) dst)
  | _ => True
  end.
Lemma wp_first {A B} (m : M mkernel A) (f : A → M mkernel B) s Q : wp (m ≫= f) s Q → ∃ a s', m s = Ok a s'.
Proof. unfold wp, mbind, M_bind. destruct (m s) as [a s'|]; [by exists a, s'|done]. Qed.
Lemma inv_goes_on a y : udp_inv a y → can_go_on y.
Proof.
  intros Hu. destruct y as [s n ps log]. unfold can_go_on. cbn [sys_kernel sys_net sys_progress].
  destruct (ps !! currthread (kern s)) as [[c|c|c i dst]|] eqn:Ep; try done.
  - intros Hr. eapply wp_first, (step_keeps (MLock udp_dest_mutex) s); [apply (u_mtx _ _ Hu)|]. split; [|done]. apply (u_mutex _ _ Hu).
  - destruct (u_copying _ _ Hu _ _ _ _ Ep) as (_ & Hi & Hst). destruct (u_calls _ _ Hu _ _ Ep) as [_ Hok]. cbn [sys_net] in Hst. case_decide as Hd.
    + destruct (inside_unlocks _ _ _ _ _ _ _ _ Hu Ep) as (m & Em & Hm & Hlist).
      pose proof (unlock_runs _ _ _ _ (u_mtx _ _ Hu) Em Hm Hlist) as Hw. apply wp_inv in Hw as ([] & s' & E & _). by exists s'.
    + split; [lia|]. destruct (copy_runs c i dst _ _ Hok (u_terminated _ _ Hu) ltac:(lia) Hst) as (mem' & dst' & -> & _). by eexists.
Qed.

(** C9.  The UDP destination under its mutex, however the scheduler interleaves the threads.  At any time the calls that have
    returned had exactly the results that [udp_set_destination] and [udp_get_destination] have when they
    run one after the other, in the order they returned; no get saw a text that was half written.  No two threads are in
    the critical section; when none is there, the text in memory is the one the calls left, with its end; and the running
    thread never gets stuck in a call. *)
Theorem udp_destination_atomic s0 n0 y :
  udp_start s0 n0 → rtc udp_step (mk_sys s0 n0 ∅ []) y →
  ∃ n, explains n0 (sys_log y) n ∧
    ((∀ t c i dst, sys_progress y !! t ≠ Some (Copying c i dst)) → sys_net y = n ∧ terminated (udp_dest_ip n)) ∧
    (∀ t1 t2 c1 c2 i1 i2 d1 d2, sys_progress y !! t1 = Some (Copying c1 i1 d1) → sys_progress y !! t2 = Some (Copying c2 i2 d2) → t1 = t2) ∧
    can_go_on y.
Proof.
  intros H0 Hr. destruct (reached_inv s0 n0 y H0 Hr) as (a & Hu & Hex). exists a. split_and!; [done|..].
  - intros Hnone. split; [|apply (u_terminated _ _ Hu)]. rewrite (u_net _ _ Hu), (u_rest _ _ Hu Hnone). by destruct a.
  - intros t1 t2 c1 c2 i1 i2 d1 d2 E1 E2. destruct (u_copying _ _ Hu _ _ _ _ E1) as (Ho1 & _). destruct (u_copying _ _ Hu _ _ _ _ E2) as (Ho2 & _).
    by eapply owns_unique.
  - by eapply inv_goes_on.
Qed.
End Shared.

(** ** A run *)

Lemma terminated_init : terminated (udp_dest_ip net_init).
Proof. split; reflexivity. Qed.
Lemma bench_start : udp_start 50 mtx_bench net_init.
Proof.
  split; [exact mtx_bench_inv|]. split; [by eexists|]. split; [|split; [|exact terminated_init]].
  - intros t x Ht (m & E & Ho). cbn [mutexes mtx_bench] in E. apply lookup_singleton_Some in E as [_ <-]. by destruct Ht.
  - intros t x (th & E & Hs & _). by destruct (mtx_bench_threads _ _ E) as [[-> ->]|[[-> ->]|[[-> ->]|[-> ->]]]].
Qed.

(** What happens next: the running thread calls, or goes on, or an interrupt wakes a thread that sleeps. *)
#[export] Instance call_eq_dec : EqDecision call.
Proof. solve_decision. Defined.
Inductive choice : Type := Calls (c : call) | GoesOn | Wakes (t : Z).
#[export] Instance progress_eq_dec : EqDecision progress.
Proof. solve_decision. Defined.
#[export] Instance call_ok_dec c : Decision (call_ok c).
Proof. destruct c; simpl; unfold no_nul; apply _. Defined.
Definition choose (ch : choice) (y : udp_sys) : option udp_sys :=
  let '(mk_sys s n ps log) := y in
  let t := currthread (kern s) in
  match ch with
  | Calls c => if decide (ps !! t = None ∧ call_ok c) then Some (mk_sys s n (<[t := Wants c]> ps) log) else None
  | GoesOn =>
  match ps !! t with
  | Some (Wants c) =>
      match chMtxLock 50 s with
      | Ok b s' => if decide (rlist (kern s) ≠ []) then Some (mk_sys s' n (<[t := if (b : bool) then copy_start c else Asleep c]> ps) log) else None
      | Fault _ => None
      end
  | Some (Asleep c) => Some (mk_sys s n (<[t := copy_start c]> ps) log)
  | Some (Copying c i dst) =>
      if decide (i < copy_len c)%nat then
        '(mem', dst') ← dest_byte c i (udp_dest_ip n) dst; Some (mk_sys s (with_dest mem' n) (<[t := Copying c (1 + i) dst']> ps) log)
      else if decide (i = copy_len c) then
        match chMtxUnlock 50 s with
        | Ok _ s' => Some (mk_sys s' n (delete t ps) (log ++ [(c, dst)]))
        | Fault _ => None
        end
      else None
  | None => None
  end
  | Wakes t =>
      if decide (state <$> vths s !! t = Some CH_STATE_SLEEPING) then
        match run_mtx (MSched (OIrq [t])) s with Ok _ s' => Some (mk_sys s' n ps log) | Fault _ => None end
      else None
  end.
Lemma choose_step ch y y' : choose ch y = Some y' → udp_step 50 y y'.
Proof.
  destruct y as [s n ps log]. destruct ch as [c| |t']; unfold choose.
  - case_decide as Hc; [|done]. intros [= <-]. destruct Hc. by apply step_call.
  - destruct (ps !! _) as [[c|c|c i dst]|] eqn:Ep; [..|done].
    + destruct (chMtxLock 50 s) as [b s'|] eqn:E; [|done]. case_decide; [|done]. intros [= <-]. by eapply step_lock.
    + intros [= <-]. by eapply step_resume.
    + case_decide as Hi.
      * destruct (dest_byte _ _ _ _) as [[mem' dst']|] eqn:E; [|done]. intros [= <-]. by eapply step_copy.
      * case_decide; [subst i|done]. destruct (chMtxUnlock 50 s) as [[] s'|] eqn:E; [|done]. intros [= <-]. by eapply step_unlock.
  - case_decide as Hs; [|done]. destruct (run_mtx (MSched (OIrq [t'])) s) as [[] s'|] eqn:E; [|done]. intros [= <-].
    apply (step_sched _ _ _ _ _ (OIrq [t'])); [|exact E]. apply bench_wakes. destruct (vths s !! t'); [|done]. simpl in Hs. congruence.
Qed.
Fixpoint chooses (chs : list choice) (y : udp_sys) : option udp_sys :=
  match chs with [] => Some y | ch :: chs => y' ← choose ch y; chooses chs y' end.
Lemma chooses_rtc chs : ∀ y y', chooses chs y = Some y' → rtc (udp_step 50) y y'.
Proof.
  induction chs as [|ch chs IH]; intros y y'; simpl; [by intros [= <-]|].
  destruct (choose ch y) as [y1|] eqn:E; [|done]. intros H. eapply rtc_l; [by eapply choose_step|by apply IH].
Qed.

(** Thread 1 has written five bytes of a new text when thread 3, which is more urgent, wakes up and asks for it. *)
Definition new_dest : list Z := chars "10.0.0.7".
Definition bench_run : list choice :=
  [Calls (CSet new_dest)] ++ replicate 6 GoesOn ++ [Wakes 3; Calls (CGet (replicate 16 7)); GoesOn] ++ replicate 12 GoesOn ++ replicate 18 GoesOn.
Lemma bench_run_log :
  match chooses bench_run (mk_sys mtx_bench net_init ∅ []) with
  | Some y => sys_log y = [(CSet new_dest, []); (CGet (replicate 16 7), new_dest ++ replicate 8 0)]
  | None => False
  end.
Proof. vm_compute. reflexivity. Qed.
Lemma udp_destination_atomic_witness :
  ∃ y n, sys_log y = [(CSet new_dest, []); (CGet (replicate 16 7), new_dest ++ replicate 8 0)] ∧ explains net_init (sys_log y) n.
Proof.
  pose proof bench_run_log as Hlog. destruct (chooses bench_run (mk_sys mtx_bench net_init ∅ [])) as [y|] eqn:E; [|destruct Hlog].
  destruct (udp_destination_atomic 50 mtx_bench net_init y bench_start (chooses_rtc _ _ _ E)) as (n & Hex & _).
  exists y, n. split; [exact Hlog|exact Hex].
Defined.
