(* ===== verification/W25qxx.v ===== *)
(** * The flash driver: [src/src/w25qxx/w25qxx.c]

    The commands of the driver over a handle of platform hooks.  Every function of the
    source has three arms, for a single line bus, a bus whose instructions go over one
    line with separate address and data phases, and one that uses four lines; [bus] is
    that choice, and the transfers below are its arms.  A transfer that fails and
    prints a message ends the function with a code. *)
From S2P Require Import Prelude.

(** ** Constants *)

Definition W25Q80 : Z := 0xEF13.
Definition W25Q16 : Z := 0xEF14.
Definition W25Q32 : Z := 0xEF15.
Definition W25Q64 : Z := 0xEF16.
Definition W25Q128 : Z := 0xEF17.
Definition W25Q256 : Z := 0xEF18.
Definition W25Q512 : Z := 0xEF19.
Definition W25Q1024 : Z := 0xEF20.
Definition W25Q2048 : Z := 0xEF21.
Definition W25QXX_INTERFACE_SPI : Z := 0.
Definition W25QXX_INTERFACE_QSPI : Z := 1.
Definition W25QXX_ADDRESS_MODE_3_BYTE : Z := 0.
Definition W25QXX_ADDRESS_MODE_4_BYTE : Z := 1.

Definition W25QXX_COMMAND_WRITE_ENABLE : Z := 0x06.
Definition W25QXX_COMMAND_VOLATILE_SR_WRITE_ENABLE : Z := 0x50.
Definition W25QXX_COMMAND_WRITE_DISABLE : Z := 0x04.
Definition W25QXX_COMMAND_READ_STATUS_REG1 : Z := 0x05.
Definition W25QXX_COMMAND_READ_STATUS_REG2 : Z := 0x35.
Definition W25QXX_COMMAND_READ_STATUS_REG3 : Z := 0x15.
Definition W25QXX_COMMAND_WRITE_STATUS_REG1 : Z := 0x01.
Definition W25QXX_COMMAND_WRITE_STATUS_REG2 : Z := 0x31.
Definition W25QXX_COMMAND_WRITE_STATUS_REG3 : Z := 0x11.
Definition W25QXX_COMMAND_CHIP_ERASE : Z := 0xC7.
Definition W25QXX_COMMAND_ERASE_PROGRAM_SUSPEND : Z := 0x75.
Definition W25QXX_COMMAND_ERASE_PROGRAM_RESUME : Z := 0x7A.
Definition W25QXX_COMMAND_POWER_DOWN : Z := 0xB9.
Definition W25QXX_COMMAND_RELEASE_POWER_DOWN : Z := 0xAB.
Definition W25QXX_COMMAND_READ_MANUFACTURER : Z := 0x90.
Definition W25QXX_COMMAND_JEDEC_ID : Z := 0x9F.
Definition W25QXX_COMMAND_GLOBAL_BLOCK_SECTOR_LOCK : Z := 0x7E.
Definition W25QXX_COMMAND_GLOBAL_BLOCK_SECTOR_UNLOCK : Z := 0x98.
Definition W25QXX_COMMAND_ENTER_QSPI_MODE : Z := 0x38.
Definition W25QXX_COMMAND_ENABLE_RESET : Z := 0x66.
Definition W25QXX_COMMAND_RESET_DEVICE : Z := 0x99.
Definition W25QXX_COMMAND_READ_UNIQUE_ID : Z := 0x4B.
Definition W25QXX_COMMAND_PAGE_PROGRAM : Z := 0x02.
Definition W25QXX_COMMAND_QUAD_PAGE_PROGRAM : Z := 0x32.
Definition W25QXX_COMMAND_SECTOR_ERASE_4K : Z := 0x20.
Definition W25QXX_COMMAND_BLOCK_ERASE_32K : Z := 0x52.
Definition W25QXX_COMMAND_BLOCK_ERASE_64K : Z := 0xD8.
Definition W25QXX_COMMAND_READ_DATA : Z := 0x03.
Definition W25QXX_COMMAND_FAST_READ : Z := 0x0B.
Definition W25QXX_COMMAND_FAST_READ_DUAL_OUTPUT : Z := 0x3B.
Definition W25QXX_COMMAND_FAST_READ_QUAD_OUTPUT : Z := 0x6B.
Definition W25QXX_COMMAND_READ_SFDP_REGISTER : Z := 0x5A.
Definition W25QXX_COMMAND_ERASE_SECURITY_REGISTER : Z := 0x44.
Definition W25QXX_COMMAND_PROGRAM_SECURITY_REGISTER : Z := 0x42.
Definition W25QXX_COMMAND_READ_SECURITY_REGISTER : Z := 0x48.
Definition W25QXX_COMMAND_INDIVIDUAL_BLOCK_LOCK : Z := 0x36.
Definition W25QXX_COMMAND_INDIVIDUAL_BLOCK_UNLOCK : Z := 0x39.
Definition W25QXX_COMMAND_READ_BLOCK_LOCK : Z := 0x3D.
Definition W25QXX_COMMAND_FAST_READ_DUAL_IO : Z := 0xBB.
Definition W25QXX_COMMAND_DEVICE_ID_DUAL_IO : Z := 0x92.
Definition W25QXX_COMMAND_SET_BURST_WITH_WRAP : Z := 0x77.
Definition W25QXX_COMMAND_FAST_READ_QUAD_IO : Z := 0xEB.
Definition W25QXX_COMMAND_WORD_READ_QUAD_IO : Z := 0xE7.
Definition W25QXX_COMMAND_OCTAL_WORD_READ_QUAD_IO : Z := 0xE3.
Definition W25QXX_COMMAND_DEVICE_ID_QUAD_IO : Z := 0x94.

Definition W25QXX_WRITE_STATUS_TIMEOUT_MS : nat := 1000.
Definition W25QXX_ERASE_CHIP_TIMEOUT_MS : nat := 1000 * 1000.
Definition W25QXX_ERASE_SECURITY_TIMEOUT_MS : nat := 100.
Definition W25QXX_PROGRAM_SECURITY_TIMEOUT_MS : nat := 3.
Definition W25QXX_PAGE_PROGRAM_TIMEOUT_MS : nat := 3.
Definition W25QXX_ERASE_4K_TIMEOUT_MS : nat := 400.
Definition W25QXX_ERASE_32K_TIMEOUT_MS : nat := 1600.
Definition W25QXX_ERASE_64K_TIMEOUT_MS : nat := 2000.

(** ** Types *)

(** The arguments of a transfer; an empty input and an output length of 0 stand for the
    null pointers the driver passes with them. *)
Record xfer : Type := mk_xfer {
  x_instruction : Z; x_instruction_line : Z;
  x_address : Z; x_address_line : Z; x_address_len : Z;
  x_alternate : Z; x_alternate_line : Z; x_alternate_len : Z;
  x_dummy : Z; x_in : list Z; x_out_len : Z; x_data_line : Z }.

(** The hooks, with effects on the platform only; [None] is a null pointer.  A transfer gives
    its status and the bytes it stored at the front of the output buffer. *)
Record w25qxx_handle (W : Type) : Type := mk_w25qxx {
  spi_qspi_init : option (M W Z);
  spi_qspi_deinit : option (M W Z);
  spi_qspi_write_read : option (xfer → M W (Z * list Z));
  delay_ms : option (Z → M W unit);
  delay_us : option (Z → M W unit);
  debug_print : option (string → M W unit) }.
Arguments mk_w25qxx {W}.
Arguments spi_qspi_init {W}.
Arguments spi_qspi_deinit {W}.
Arguments spi_qspi_write_read {W}.
Arguments delay_ms {W}.
Arguments delay_us {W}.
Arguments debug_print {W}.

(** The fields of the handle that change, and the platform. *)
Record w25qxx_dyn (W : Type) : Type := mk_dyn {
  inited : Z; type : Z; address_mode : Z; param : Z; dummy : Z;
  dual_quad_spi_enable : Z; spi_qspi : Z;
  buf : list Z;                   (* 262 bytes *)
  buf_4k : list Z;                (* 4097 bytes *)
  world : W }.
Arguments mk_dyn {W}.
Arguments inited {W}.
Arguments type {W}.
Arguments address_mode {W}.
Arguments param {W}.
Arguments dummy {W}.
Arguments dual_quad_spi_enable {W}.
Arguments spi_qspi {W}.
Arguments buf {W}.
Arguments buf_4k {W}.
Arguments world {W}.

(** Bytes written at an offset of a buffer that has them. *)
Definition write_at (off : nat) (bytes buf : list Z) : list Z :=
  take off buf ++ bytes ++ drop (off + length bytes) buf.
(** [memcpy] of [len] bytes to an offset; [None] outside of either array. *)
Definition memcpy_at (off len : nat) (src dst : list Z) : option (list Z) :=
  if decide ((len ≤ length src)%nat ∧ (off + len ≤ length dst)%nat)
  then Some (write_at off (take len src) dst) else None.

Section Driver.
Context {W : Type} (h : w25qxx_handle W).
#[local] Abbreviation D := (w25qxx_dyn W).

(** ** Calls of the hooks *)

Definition set_world (w : W) (d : D) : D :=
  mk_dyn (inited d) (type d) (address_mode d) (param d) (dummy d) (dual_quad_spi_enable d)
    (spi_qspi d) (buf d) (buf_4k d) w.
Definition set_buf (b : list Z) (d : D) : D :=
  mk_dyn (inited d) (type d) (address_mode d) (param d) (dummy d) (dual_quad_spi_enable d)
    (spi_qspi d) b (buf_4k d) (world d).
Definition set_buf_4k (b : list Z) (d : D) : D :=
  mk_dyn (inited d) (type d) (address_mode d) (param d) (dummy d) (dual_quad_spi_enable d)
    (spi_qspi d) (buf d) b (world d).

Definition on_platform {A} (m : M W A) : M D A := λ d,
  match m (world d) with
  | Ok a w => Ok a (set_world w d)
  | Fault f => Fault f
  end.
Definition flash_debug (msg : string) : M D unit :=
  f ← mlift NullCall (debug_print h); on_platform (f msg).
Definition flash_error (msg : string) (code : Z) : M D Z := flash_debug msg;; mret code.
Definition flash_delay_ms (ms : Z) : M D unit := f ← mlift NullCall (delay_ms h); on_platform (f ms).
Definition flash_delay_us (us : Z) : M D unit := f ← mlift NullCall (delay_us h); on_platform (f us).

Definition transfer (x : xfer) : M D (Z * list Z) :=
  f ← mlift NullCall (spi_qspi_write_read h);
  '(st, out) ← on_platform (f x);
  mret (if decide (st ≠ 0) then 1 else 0, out).
Definition a_w25qxx_spi_write_read (in_buf : list Z) (out_len : Z) : M D (Z * list Z) :=
  transfer (mk_xfer 0 0 0 0 0 0 0 0 0 in_buf out_len 1).
Definition a_w25qxx_qspi_write_read (instruction instruction_line address address_line address_len
    alternate alternate_line alternate_len dummy : Z) (in_buf : list Z) (out_len data_line : Z) :
    M D (Z * list Z) :=
  transfer (mk_xfer instruction instruction_line address address_line address_len
    alternate alternate_line alternate_len dummy in_buf out_len data_line).

(** [if (res != 0) { debug_print(msg); return code; }], then [k]. *)
Definition flash_check (op : M D (Z * list Z)) (msg : string) (code : Z) (k : list Z → M D Z) : M D Z :=
  '(res, out) ← op;
  if decide (res ≠ 0) then flash_error msg code else k out.

(** The same for a transfer whose bytes the caller keeps. *)
Definition flash_fetch (op : M D (Z * list Z)) (msg : string) (code : Z) : M D (Z * list Z) :=
  '(res, out) ← op;
  if decide (res ≠ 0) then flash_debug msg;; mret (code, out) else mret (0, out).

(** ** The arms *)

Inductive bus : Type := Single | Dual | Quad.
#[global] Instance bus_eq_dec : EqDecision bus.
Proof. solve_decision. Defined.
Definition bus_of (d : D) : bus :=
  if decide (spi_qspi d = W25QXX_INTERFACE_SPI) then
    if decide (dual_quad_spi_enable d ≠ 0) then Dual else Single
  else Quad.
Definition lines (b : bus) : Z := match b with Quad => 4 | _ => 1 end.

(** A lone instruction, a register read and a register write. *)
Definition instruct (b : bus) (cmd : Z) : M D (Z * list Z) :=
  match b with
  | Single => a_w25qxx_spi_write_read [cmd] 0
  | _ => a_w25qxx_qspi_write_read cmd (lines b) 0 0 0 0 0 0 0 [] 0 0
  end.
Definition read_reg (b : bus) (cmd n : Z) : M D (Z * list Z) :=
  match b with
  | Single => a_w25qxx_spi_write_read [cmd] n
  | _ => a_w25qxx_qspi_write_read cmd (lines b) 0 0 0 0 0 0 0 [] n (lines b)
  end.
Definition write_reg (b : bus) (cmd : Z) (data : list Z) : M D (Z * list Z) :=
  match b with
  | Single => a_w25qxx_spi_write_read (cmd :: data) 0
  | _ => a_w25qxx_qspi_write_read cmd (lines b) 0 0 0 0 0 0 0 data 0 (lines b)
  end.

(** The bytes of an address, the highest first. *)
Definition addr_bytes (len addr : Z) : list Z :=
  (if decide (len = 4) then [Z.land (Z.shiftr addr 24) 0xFF] else []) ++
  [Z.land (Z.shiftr addr 16) 0xFF; Z.land (Z.shiftr addr 8) 0xFF; Z.land (Z.shiftr addr 0) 0xFF].

(** An instruction with an address of [alen] bytes, which reads [n] bytes over [data_line]
    lines; and the fast read, with a dummy byte or dummy cycles before the data. *)
Definition addr_xfer (b : bus) (cmd alen addr n data_line : Z) : M D (Z * list Z) :=
  match b with
  | Single => a_w25qxx_spi_write_read (cmd :: addr_bytes alen addr) n
  | _ => a_w25qxx_qspi_write_read cmd (lines b) addr (lines b) alen 0 0 0 0 [] n data_line
  end.
Definition read_xfer (b : bus) (alen addr len : Z) : M D (Z * list Z) :=
  match b with
  | Single => a_w25qxx_spi_write_read (W25QXX_COMMAND_FAST_READ :: addr_bytes alen addr ++ [0]) len
  | _ =>
      dm ← mgets (λ d, match b with Quad => dummy d | _ => 8 end);
      a_w25qxx_qspi_write_read W25QXX_COMMAND_FAST_READ (lines b) addr (lines b) alen 0 0 0 dm [] len (lines b)
  end.

(** A header and [len] bytes of data through the buffer of the handle, and a page program:
    on the other buses the hook takes the bytes from the data itself. *)
Definition buffered (header data : list Z) (len : Z) : M D (Z * list Z) :=
  old ← mgets buf;
  b1 ← mlift OutOfBounds (memcpy_at 0 (length header) header old);
  b2 ← mlift OutOfBounds (memcpy_at (length header) (Z.to_nat len) data b1);
  mmodify (set_buf b2);;
  a_w25qxx_spi_write_read (take (length header + Z.to_nat len) b2) 0.
Definition in_bytes (data : list Z) (len : Z) : M D (list Z) :=
  mlift OutOfBounds (if decide (Z.to_nat len ≤ length data)%nat then Some (take (Z.to_nat len) data) else None).
Definition program_xfer (b : bus) (alen addr : Z) (data : list Z) (len : Z) : M D (Z * list Z) :=
  match b with
  | Single => buffered (W25QXX_COMMAND_PAGE_PROGRAM :: addr_bytes alen addr) data len
  | _ =>
      bytes ← in_bytes data len;
      a_w25qxx_qspi_write_read W25QXX_COMMAND_PAGE_PROGRAM (lines b) addr (lines b) alen 0 0 0 0
        bytes 0 (lines b)
  end.

(** The length of an address, by the mode and the type; [None] when the mode is invalid. *)
Definition address_length (d : D) : option Z :=
  if decide (address_mode d = W25QXX_ADDRESS_MODE_3_BYTE) then Some 3
  else if decide (address_mode d = W25QXX_ADDRESS_MODE_4_BYTE ∧ W25Q256 <= type d) then Some 4
  else None.
(** A three byte address to a large chip needs its extended address register. *)
Definition needs_extended (d : D) : bool :=
  bool_decide (address_mode d = W25QXX_ADDRESS_MODE_3_BYTE) && bool_decide (W25Q256 <= type d).

Definition write_enable (b : bus) (k : M D Z) : M D Z :=
  flash_check (instruct b W25QXX_COMMAND_WRITE_ENABLE) "w25qxx: write enable failed." 1 (λ _, k).
Definition extended_address (b : bus) (addr : Z) (k : M D Z) : M D Z :=
  flash_check (write_reg b 0xC5 [Z.land (Z.shiftr addr 24) 0xFF])
    "w25qxx: write extended addr register failed." 1 (λ _, k).

(** The polling loop: the status of the chip up to [timeout] times with a delay between;
    [None] after an error, otherwise whether the chip got ready. *)
Fixpoint poll_status (b : bus) (timeout : nat) (delay : M D unit) (msg : string) : M D (option bool) :=
  match timeout with
  | O => mret (Some false)
  | S timeout =>
      '(res, out) ← read_reg b W25QXX_COMMAND_READ_STATUS_REG1 1;
      if decide (res ≠ 0) then flash_debug msg;; mret None else
      status ← mlift Uninitialised (head out);
      if decide (Z.land status 0x01 = 0x00) then mret (Some true)
      else delay;; poll_status b timeout delay msg
  end.
Definition wait_ready (b : bus) (timeout : nat) (delay : M D unit) (msg timeout_msg : string)
    (timeout_code : Z) : M D Z :=
  ready ← poll_status b timeout delay msg;
  match ready with
  | None => mret 1
  | Some true => mret 0
  | Some false => flash_error timeout_msg timeout_code
  end.

(** ** Addressed instructions *)

(** Reads and lock commands: the extended address when it is needed, then the transfer.  The
    code for an invalid mode is the caller's. *)
Definition with_address (b : bus) (bad_mode addr : Z) (msg : string) (xf : Z → M D (Z * list Z)) :
    M D (Z * list Z) :=
  alen ← mgets address_length;
  ext ← mgets needs_extended;
  match alen with
  | None => res ← flash_error "w25qxx: address mode is invalid." bad_mode; mret (res, [])
  | Some alen =>
      res ← (if ext : bool then write_enable b (extended_address b addr (mret 0)) else mret 0);
      if decide (res ≠ 0) then mret (res, []) else flash_fetch (xf alen) msg 1
  end.
Definition read_with (bad_mode addr len : Z) : M D (Z * list Z) :=
  b ← mgets bus_of;
  with_address b bad_mode addr "w25qxx: fast read failed." (λ alen, read_xfer b alen addr len).
Definition a_w25qxx_read (addr len : Z) : M D (Z * list Z) := read_with 1 addr len.

(** Erasing and programming: enabled first and again after the extended address, then the
    chip is polled until it is ready. *)
Definition modifying (b : bus) (bad_mode addr : Z) (msg : string) (xf : Z → M D (Z * list Z))
    (wait : M D Z) : M D Z :=
  write_enable b (
    alen ← mgets address_length;
    ext ← mgets needs_extended;
    match alen with
    | None => flash_error "w25qxx: address mode is invalid." bad_mode
    | Some alen =>
        let go := flash_check (xf alen) msg 1 (λ _, wait) in
        if ext : bool then extended_address b addr (write_enable b go) else go
    end).

Definition erase_with (cmd : Z) (timeout : nat) (msg timeout_msg : string) (bad_mode timeout_code addr : Z) :
    M D Z :=
  b ← mgets bus_of;
  modifying b bad_mode addr msg (λ alen, addr_xfer b cmd alen addr 0 0)
    (wait_ready b timeout (flash_delay_ms 1) "w25qxx: get status1 failed." timeout_msg timeout_code).
Definition a_w25qxx_erase_sector (addr : Z) : M D Z :=
  erase_with W25QXX_COMMAND_SECTOR_ERASE_4K W25QXX_ERASE_4K_TIMEOUT_MS
    "w25qxx: sector erase 4k failed." "w25qxx: sector erase 4k timeout." 1 1 addr.

Definition program_with (bad_mode timeout_code addr : Z) (data : list Z) (len : Z) : M D Z :=
  b ← mgets bus_of;
  modifying b bad_mode addr "w25qxx: page program failed." (λ alen, program_xfer b alen addr data len)
    (wait_ready b (W25QXX_PAGE_PROGRAM_TIMEOUT_MS * 100) (flash_delay_us 10)
      (match b with Single => "w25qxx: get status1 failed." | _ => "w25qxx: page program failed." end)
      "w25qxx: page program timeout." timeout_code).
Definition a_w25qxx_page_program (addr : Z) (data : list Z) (len : Z) : M D Z :=
  program_with 1 1 addr data len.

(** The loop of [a_w25qxx_write_no_check] with [page_remain] bytes to go in the page. *)
Fixpoint write_pages (fuel : nat) (addr : Z) (data : list Z) (len page_remain : Z) : M D Z :=
  match fuel with
  | O => mfail Diverged
  | S fuel =>
      res ← a_w25qxx_page_program addr data page_remain;
      if decide (res ≠ 0) then flash_error "w25qxx: page program failed." 1 else
      if decide (len = page_remain) then mret 0 else
      let len' := u32 (len - page_remain) in
      write_pages fuel (u32 (addr + page_remain)) (drop (Z.to_nat page_remain) data) len'
        (if decide (len' > 256) then 256 else len')
  end.
(** A turn for each page and one more are enough. *)
Definition a_w25qxx_write_no_check (addr : Z) (data : list Z) (len : Z) : M D Z :=
  let page_remain := 256 - addr `mod` 256 in
  write_pages (Z.to_nat (len / 256) + 2) addr data len (if decide (len <= page_remain) then len else page_remain).

(** ** Writing *)

(** The sector erased, and written whole from the buffer with the new bytes merged in. *)
Definition refill_sector (sec_pos sec_off sec_remain : Z) (data sector : list Z) : M D Z :=
  res ← a_w25qxx_erase_sector (u32 (sec_pos * 4096));
  if decide (res ≠ 0) then flash_error "w25qxx: erase sector failed." 5 else
  merged ← mlift OutOfBounds (memcpy_at (Z.to_nat sec_off) (Z.to_nat sec_remain) data sector);
  mmodify (set_buf_4k merged);;
  res ← a_w25qxx_write_no_check (u32 (sec_pos * 4096)) merged 4096;
  if decide (res ≠ 0) then flash_error "w25qxx: write failed." 1 else mret 0.
(** A turn of the loop of [w25qxx_write]: [sec_remain] bytes at an offset of a sector, which is
    read, and erased when it does not hold 0xFF where they go. *)
Definition write_sector (sec_pos sec_off sec_remain addr : Z) (data : list Z) : M D Z :=
  '(res, out) ← a_w25qxx_read (u32 (sec_pos * 4096)) 4096;
  old ← mgets buf_4k;
  sector ← mlift OutOfBounds (memcpy_at 0 (length out) out old);
  mmodify (set_buf_4k sector);;
  if decide (res ≠ 0) then flash_error "w25qxx: read failed." 4 else
  let part := take (Z.to_nat sec_remain) (drop (Z.to_nat sec_off) sector) in
  if decide (Forall (λ b, b = 0xFF) part) then
    res ← a_w25qxx_write_no_check addr data sec_remain;
    if decide (res ≠ 0) then flash_error "w25qxx: write failed." 1 else mret 0
  else
    refill_sector sec_pos sec_off sec_remain data sector.
Fixpoint write_sectors (fuel : nat) (sec_pos sec_off sec_remain addr : Z) (data : list Z) (len : Z) : M D Z :=
  match fuel with
  | O => mfail Diverged
  | S fuel =>
      res ← write_sector sec_pos sec_off sec_remain addr data;
      if decide (res ≠ 0) then mret res else
      if decide (len = sec_remain) then mret 0 else
      let len' := u32 (len - sec_remain) in
      write_sectors fuel (u32 (sec_pos + 1)) 0 (if decide (len' > 4096) then 4096 else len')
        (u32 (addr + sec_remain)) (drop (Z.to_nat sec_remain) data) len'
  end.
End Driver.
