(* ===== verification/W25qxxOps.v ===== *)
(** * The public functions of the flash driver: [src/src/w25qxx/w25qxx.c]

    Each takes the pointer to the handle, [None] for a null one.  A function with a buffer
    to fill gives its code and the bytes it stored there. *)
From S2P Require Import Prelude W25qxx.

Section Setters.
Context {W : Type}.
#[local] Abbreviation D := (w25qxx_dyn W).
Definition set_flash_inited (v : Z) (d : D) : D :=
  mk_dyn v (type d) (address_mode d) (param d) (dummy d) (dual_quad_spi_enable d) (spi_qspi d) (buf d) (buf_4k d) (world d).
Definition set_type (v : Z) (d : D) : D :=
  mk_dyn (inited d) v (address_mode d) (param d) (dummy d) (dual_quad_spi_enable d) (spi_qspi d) (buf d) (buf_4k d) (world d).
Definition set_address_mode (v : Z) (d : D) : D :=
  mk_dyn (inited d) (type d) v (param d) (dummy d) (dual_quad_spi_enable d) (spi_qspi d) (buf d) (buf_4k d) (world d).
Definition set_param (v : Z) (d : D) : D :=
  mk_dyn (inited d) (type d) (address_mode d) v (dummy d) (dual_quad_spi_enable d) (spi_qspi d) (buf d) (buf_4k d) (world d).
Definition set_dummy (v : Z) (d : D) : D :=
  mk_dyn (inited d) (type d) (address_mode d) (param d) v (dual_quad_spi_enable d) (spi_qspi d) (buf d) (buf_4k d) (world d).
Definition set_dual (v : Z) (d : D) : D :=
  mk_dyn (inited d) (type d) (address_mode d) (param d) (dummy d) v (spi_qspi d) (buf d) (buf_4k d) (world d).
Definition set_spi_qspi (v : Z) (d : D) : D :=
  mk_dyn (inited d) (type d) (address_mode d) (param d) (dummy d) (dual_quad_spi_enable d) v (buf d) (buf_4k d) (world d).
End Setters.

Section Ops.
Context {W : Type} (hd : option (w25qxx_handle W)).
#[local] Abbreviation D := (w25qxx_dyn W).

(** The checks of a null handle and of its initialization. *)
Definition flash_checked (k : w25qxx_handle W → M D Z) : M D Z :=
  match hd with
  | None => mret 2
  | Some h => i ← mgets inited; if decide (i ≠ 1) then mret 3 else k h
  end.
Definition flash_checked_out (k : w25qxx_handle W → M D (Z * list Z)) : M D (Z * list Z) :=
  match hd with
  | None => mret (2, [])
  | Some h => i ← mgets inited; if decide (i ≠ 1) then mret (3, []) else k h
  end.
Definition fail_out (h : w25qxx_handle W) (msg : string) (code : Z) : M D (Z * list Z) :=
  flash_debug h msg;; mret (code, []).
(** The two first bytes a transfer stored, and what becomes of a result without them. *)
Definition id_pair (op : M D (Z * list Z)) : M D (Z * list Z) :=
  '(res, out) ← op;
  if decide (res ≠ 0) then mret (res, []) else
  m ← mlift Uninitialised (out !! 0%nat);
  d ← mlift Uninitialised (out !! 1%nat);
  mret (0, [m; d]).

(** ** Fields of the handle *)

Definition put_field (f : D → D) : M D Z :=
  match hd with None => mret 2 | Some _ => mmodify f;; mret 0 end.
Definition get_field (f : D → Z) : M D (Z * list Z) :=
  match hd with None => mret (2, []) | Some _ => v ← mgets f; mret (0, [v]) end.

Definition w25qxx_set_dual_quad_spi (enable : Z) : M D Z := put_field (set_dual (u8 enable)).
Definition w25qxx_get_dual_quad_spi : M D (Z * list Z) := get_field dual_quad_spi_enable.
Definition w25qxx_set_type (t : Z) : M D Z := put_field (set_type (u16 t)).
Definition w25qxx_get_type : M D (Z * list Z) := get_field type.
Definition w25qxx_set_interface (interface : Z) : M D Z := put_field (set_spi_qspi (u8 interface)).
Definition w25qxx_get_interface : M D (Z * list Z) := get_field spi_qspi.

Definition w25qxx_set_address_mode (mode : Z) : M D Z := flash_checked (λ h,
  t ← mgets type;
  if decide (t < W25Q256) then flash_error h "w25qxx: current type can't use this function." 4 else
  b ← mgets bus_of;
  flash_check h (instruct h b (if decide (mode = W25QXX_ADDRESS_MODE_3_BYTE) then 0xE9 else 0xB7))
    "w25qxx: set address mode failed." 1 (λ _, mmodify (set_address_mode (u8 mode));; mret 0)).
Definition w25qxx_get_address_mode : M D (Z * list Z) := flash_checked_out (λ h,
  v ← mgets address_mode; mret (0, [v])).

(** ** Lone instructions *)

Definition lone (cmd : Z) (msg : string) : M D Z := flash_checked (λ h,
  b ← mgets bus_of;
  flash_check h (instruct h b cmd) msg 1 (λ _, mret 0)).

Definition w25qxx_enable_write : M D Z :=
  lone W25QXX_COMMAND_WRITE_ENABLE "w25qxx: write enable failed.".
Definition w25qxx_enable_volatile_sr_write : M D Z :=
  lone W25QXX_COMMAND_VOLATILE_SR_WRITE_ENABLE "w25qxx: sr write enable failed.".
Definition w25qxx_disable_write : M D Z :=
  lone W25QXX_COMMAND_WRITE_DISABLE "w25qxx: write disable failed.".
Definition w25qxx_erase_program_suspend : M D Z :=
  lone W25QXX_COMMAND_ERASE_PROGRAM_SUSPEND "w25qxx: erase program suspend failed.".
Definition w25qxx_erase_program_resume : M D Z :=
  lone W25QXX_COMMAND_ERASE_PROGRAM_RESUME "w25qxx: erase program resume failed.".
Definition w25qxx_global_block_lock : M D Z :=
  lone W25QXX_COMMAND_GLOBAL_BLOCK_SECTOR_LOCK "w25qxx: global block lock failed.".
Definition w25qxx_global_block_unlock : M D Z :=
  lone W25QXX_COMMAND_GLOBAL_BLOCK_SECTOR_UNLOCK "w25qxx: global block unlock failed.".
Definition w25qxx_enable_reset : M D Z :=
  lone W25QXX_COMMAND_ENABLE_RESET "w25qxx: enable reset failed.".
Definition w25qxx_reset_device : M D Z :=
  lone W25QXX_COMMAND_RESET_DEVICE "w25qxx: reset device failed.".

(** On four lines the chip leaves its QSPI mode before it is powered down. *)
Definition leave_qspi (h : w25qxx_handle W) (k : M D Z) : M D Z :=
  flash_check h (instruct h Quad 0xFF) "w25qxx: exit qspi mode failed." 1 (λ _, k).
Definition w25qxx_power_down : M D Z := flash_checked (λ h,
  b ← mgets bus_of;
  let down := flash_check h (instruct h b W25QXX_COMMAND_POWER_DOWN) "w25qxx: power down failed." 1 (λ _, mret 0) in
  match b with
  | Quad => leave_qspi h (flash_delay_ms h 10;; down)
  | _ => down
  end).
Definition w25qxx_release_power_down : M D Z := flash_checked (λ h,
  b ← mgets bus_of;
  flash_check h
    match b with
    | Single => a_w25qxx_spi_write_read h [W25QXX_COMMAND_RELEASE_POWER_DOWN; 0xFF; 0xFF; 0xFF] 1
    | Dual => a_w25qxx_qspi_write_read h W25QXX_COMMAND_RELEASE_POWER_DOWN 1 0 0 0 0 0 0 (3 * 8) [] 1 1
    | Quad => a_w25qxx_qspi_write_read h W25QXX_COMMAND_RELEASE_POWER_DOWN 4 0 0 0 0 0 0 6 [] 1 4
    end "w25qxx: release power down failed." 1 (λ _, mret 0)).
Definition w25qxx_deinit : M D Z := flash_checked (λ h,
  b ← mgets bus_of;
  let close :=
    f ← mlift NullCall (spi_qspi_deinit h);
    res ← on_platform f;
    if decide (res ≠ 0) then flash_error h "w25qxx: spi or qspi deinit failed." 1 else mret 0 in
  let down b := flash_check h (instruct h b W25QXX_COMMAND_POWER_DOWN) "w25qxx: power down failed." 4 (λ _, close) in
  match b with
  | Quad => leave_qspi h (flash_delay_ms h 10;; down Dual)
  | _ => down b
  end).

(** ** Registers *)

Definition get_status (cmd : Z) (msg : string) : M D (Z * list Z) := flash_checked_out (λ h,
  b ← mgets bus_of;
  flash_fetch h (read_reg h b cmd 1) msg 1).
Definition w25qxx_get_status1 : M D (Z * list Z) :=
  get_status W25QXX_COMMAND_READ_STATUS_REG1 "w25qxx: get status1 failed.".
Definition w25qxx_get_status2 : M D (Z * list Z) :=
  get_status W25QXX_COMMAND_READ_STATUS_REG2 "w25qxx: get status2 failed.".
Definition w25qxx_get_status3 : M D (Z * list Z) :=
  get_status W25QXX_COMMAND_READ_STATUS_REG3 "w25qxx: get status3 failed.".

Definition set_status (cmd : Z) (msg timeout_msg : string) (status : Z) : M D Z := flash_checked (λ h,
  b ← mgets bus_of;
  flash_check h (instruct h b W25QXX_COMMAND_VOLATILE_SR_WRITE_ENABLE) "w25qxx: write enable failed." 1 (λ _,
  flash_check h (write_reg h b cmd [status]) msg 1 (λ _,
  wait_ready h b W25QXX_WRITE_STATUS_TIMEOUT_MS (flash_delay_ms h 1) "w25qxx: get status1 failed." timeout_msg 4))).
Definition w25qxx_set_status1 (status : Z) : M D Z :=
  set_status W25QXX_COMMAND_WRITE_STATUS_REG1 "w25qxx: set status1 failed." "w25qxx: write status 1 timeout." status.
Definition w25qxx_set_status2 (status : Z) : M D Z :=
  set_status W25QXX_COMMAND_WRITE_STATUS_REG2 "w25qxx: set status2 failed." "w25qxx: write status 2 timeout." status.
Definition w25qxx_set_status3 (status : Z) : M D Z :=
  set_status W25QXX_COMMAND_WRITE_STATUS_REG3 "w25qxx: set status3 failed." "w25qxx: write status 3 timeout." status.

(** The number of dummy cycles that bits 4 and 5 of the parameter choose. *)
Definition dummy_of (p : Z) : Z :=
  let v := Z.land (Z.shiftr p 4) 0x03 in
  if decide (v = 0x00) then 2 else if decide (v = 0x01) then 4 else if decide (v = 0x02) then 6 else 8.
Definition send_parameters (h : w25qxx_handle W) : M D Z :=
  p ← mgets param;
  flash_check h (write_reg h Quad 0xC0 [p]) "w25qxx: set read parameters failed." 5 (λ _,
  mmodify (set_dummy (dummy_of p));; mret 0).
Definition w25qxx_set_read_parameters (dm length : Z) : M D Z := flash_checked (λ h,
  b ← mgets bus_of;
  match b with
  | Quad => mmodify (set_param (u8 (Z.lor (Z.shiftl dm 4) (Z.shiftl length 0))));; send_parameters h
  | _ => flash_error h "w25qxx: spi interface can't use this function." 4
  end).
Definition w25qxx_enter_qspi_mode : M D Z := flash_checked (λ h,
  i ← mgets spi_qspi;
  if decide (i = W25QXX_INTERFACE_QSPI) then flash_error h "w25qxx: qspi interface can't use this function." 4 else
  flash_check h (instruct h Dual W25QXX_COMMAND_ENTER_QSPI_MODE) "w25qxx: enter qspi mode failed." 1 (λ _,
  flash_delay_ms h 10;; send_parameters h)).
Definition w25qxx_exit_qspi_mode : M D Z := flash_checked (λ h,
  b ← mgets bus_of;
  match b with
  | Quad => leave_qspi h (mret 0)
  | _ => flash_error h "w25qxx: spi interface can't use this function." 4
  end).
Definition w25qxx_set_burst_with_wrap (wrap : Z) : M D Z := flash_checked (λ h,
  b ← mgets bus_of;
  match b with
  | Quad => flash_error h "w25qxx: qspi can't use this function." 4
  | Dual => flash_check h
      (a_w25qxx_qspi_write_read h W25QXX_COMMAND_SET_BURST_WITH_WRAP 1 0 0 0 0 0 0 (3 * 8) [wrap] 0 1)
      "w25qxx: set burst with wrap failed." 1 (λ _, mret 0)
  | Single => flash_check h
      (a_w25qxx_spi_write_read h [W25QXX_COMMAND_SET_BURST_WITH_WRAP; 0x00; 0x00; 0x00; wrap] 0)
      "w25qxx: set burst with wrap failed." 1 (λ _, mret 0)
  end).

(** ** Identification *)

Definition manufacturer_xfer (h : w25qxx_handle W) (b : bus) : M D (Z * list Z) :=
  match b with
  | Single => a_w25qxx_spi_write_read h [W25QXX_COMMAND_READ_MANUFACTURER; 0x00; 0x00; 0x00] 2
  | _ => a_w25qxx_qspi_write_read h W25QXX_COMMAND_READ_MANUFACTURER (lines b) 0 (lines b) 3 0 0 0 0 [] 2 (lines b)
  end.
Definition w25qxx_get_manufacturer_device_id : M D (Z * list Z) := flash_checked_out (λ h,
  b ← mgets bus_of;
  id_pair (flash_fetch h (manufacturer_xfer h b) "w25qxx: get manufacturer device id failed." 1)).
Definition w25qxx_get_jedec_id : M D (Z * list Z) := flash_checked_out (λ h,
  b ← mgets bus_of;
  '(res, out) ← flash_fetch h (read_reg h b W25QXX_COMMAND_JEDEC_ID 3) "w25qxx: get jedec id failed." 1;
  if decide (res ≠ 0) then mret (res, []) else
  ids ← mlift Uninitialised (if decide (3 ≤ length out)%nat then Some (take 3 out) else None);
  mret (0, ids)).

(** The functions of the bus with separate phases only. *)
Definition dual_only (k : w25qxx_handle W → M D (Z * list Z)) : M D (Z * list Z) := flash_checked_out (λ h,
  b ← mgets bus_of;
  match b with
  | Quad => fail_out h "w25qxx: qspi can't use this function." 5
  | Single => fail_out h "w25qxx: standard spi can't use this function failed." 6
  | Dual => k h
  end).
Definition device_id_io (cmd line dm : Z) (msg : string) : M D (Z * list Z) := dual_only (λ h,
  alen ← mgets address_length;
  match alen with
  | None => fail_out h "w25qxx: address mode is invalid." 4
  | Some alen => id_pair (flash_fetch h (a_w25qxx_qspi_write_read h cmd 1 0 line alen 0xFF line 1 dm [] 2 line) msg 1)
  end).
Definition w25qxx_get_manufacturer_device_id_dual_io : M D (Z * list Z) :=
  device_id_io W25QXX_COMMAND_DEVICE_ID_DUAL_IO 2 0 "w25qxx: get manufacturer device id dual io failed.".
Definition w25qxx_get_manufacturer_device_id_quad_io : M D (Z * list Z) :=
  device_id_io W25QXX_COMMAND_DEVICE_ID_QUAD_IO 4 4 "w25qxx: get manufacturer device id quad io failed.".
Definition w25qxx_get_unique_id : M D (Z * list Z) := flash_checked_out (λ h,
  b ← mgets bus_of;
  alen ← mgets address_length;
  match b, alen with
  | Quad, _ => fail_out h "w25qxx: qspi can't use this function." 5
  | _, None => fail_out h "w25qxx: address mode is invalid." 4
  | Dual, Some alen => flash_fetch h
      (a_w25qxx_qspi_write_read h W25QXX_COMMAND_READ_UNIQUE_ID 1 0 0 0 0 0 0 ((alen + 1) * 8) [] 8 1)
      "w25qxx: read unique id failed." 1
  | Single, Some alen => flash_fetch h
      (a_w25qxx_spi_write_read h (W25QXX_COMMAND_READ_UNIQUE_ID :: replicate (Z.to_nat (alen + 1)) 0x00) 8)
      "w25qxx: read unique id failed." 1
  end).
Definition w25qxx_get_sfdp : M D (Z * list Z) := flash_checked_out (λ h,
  b ← mgets bus_of;
  match b with
  | Quad => fail_out h "w25qxx: qspi can't use this function." 4
  | Dual => flash_fetch h
      (a_w25qxx_qspi_write_read h W25QXX_COMMAND_READ_SFDP_REGISTER 1 0 1 3 0 0 0 8 [] 256 1)
      "w25qxx: read unique id failed." 1
  | Single => flash_fetch h
      (a_w25qxx_spi_write_read h [W25QXX_COMMAND_READ_SFDP_REGISTER; 0x00; 0x00; 0x00; 0x00] 256)
      "w25qxx: get sfdp failed." 1
  end).
(** ** Security registers *)

Definition security_address (alen num : Z) : list Z := (if decide (alen = 4) then [0x00] else []) ++ [0x00; num; 0x00].
Definition spi_only (h : w25qxx_handle W) (k : bus → M D Z) : M D Z :=
  b ← mgets bus_of;
  match b with
  | Quad => flash_error h "w25qxx: qspi can't use this function." 5
  | _ => k b
  end.
Definition security_modify (timeout : nat) (msg timeout_msg : string)
    (xf : w25qxx_handle W → bus → Z → M D (Z * list Z)) : M D Z := flash_checked (λ h,
  spi_only h (λ b, write_enable h b (
    alen ← mgets address_length;
    match alen with
    | None => flash_error h "w25qxx: address mode is invalid." 4
    | Some alen => flash_check h (xf h b alen) msg 1 (λ _,
        wait_ready h b timeout (flash_delay_us h 10) "w25qxx: get status1 failed." timeout_msg 6)
    end))).
Definition w25qxx_erase_security_register (num : Z) : M D Z :=
  security_modify (W25QXX_ERASE_SECURITY_TIMEOUT_MS * 100)
    "w25qxx: erase security register failed." "w25qxx: erase security register timeout." (λ h b alen,
    match b with
    | Single => a_w25qxx_spi_write_read h (W25QXX_COMMAND_ERASE_SECURITY_REGISTER :: security_address alen num) 0
    | _ => a_w25qxx_qspi_write_read h W25QXX_COMMAND_ERASE_SECURITY_REGISTER 1 (Z.shiftl num 8) 1 alen 0 0 0 0 [] 0 0
    end).
Definition w25qxx_program_security_register (num : Z) (data : list Z) : M D Z :=
  security_modify (W25QXX_PROGRAM_SECURITY_TIMEOUT_MS * 100)
    "w25qxx: program security register failed." "w25qxx: program security register timeout." (λ h b alen,
    match b with
    | Single => buffered h (W25QXX_COMMAND_PROGRAM_SECURITY_REGISTER :: security_address alen num) data 256
    | _ =>
        bytes ← in_bytes data 256;
        a_w25qxx_qspi_write_read h W25QXX_COMMAND_PROGRAM_SECURITY_REGISTER 1 (Z.shiftl num 8) 1 alen 0 0 0 0 bytes 0 1
    end).
Definition w25qxx_read_security_register (num : Z) : M D (Z * list Z) := flash_checked_out (λ h,
  b ← mgets bus_of;
  alen ← mgets address_length;
  match b, alen with
  | Quad, _ => fail_out h "w25qxx: qspi can't use this function." 5
  | _, None => fail_out h "w25qxx: address mode is invalid." 4
  | Dual, Some alen => flash_fetch h
      (a_w25qxx_qspi_write_read h W25QXX_COMMAND_READ_SECURITY_REGISTER 1 (Z.shiftl num 8) 1 alen 0 0 0 8 [] 256 1)
      "w25qxx: read security register failed." 1
  | Single, Some alen => flash_fetch h
      (a_w25qxx_spi_write_read h (W25QXX_COMMAND_READ_SECURITY_REGISTER :: security_address alen num ++ [0x00]) 256)
      "w25qxx: read security register failed." 1
  end).

(** ** Reads *)

Definition w25qxx_only_spi_read (addr len : Z) : M D (Z * list Z) := flash_checked_out (λ h,
  b ← mgets bus_of;
  match b with
  | Quad => fail_out h "w25qxx: only spi interface can use this function." 5
  | _ => with_address h b 4 addr "w25qxx: only spi read failed."
      (λ alen, addr_xfer h b W25QXX_COMMAND_READ_DATA alen addr len 1)
  end).
Definition w25qxx_fast_read (addr len : Z) : M D (Z * list Z) := flash_checked_out (λ h, read_with h 4 addr len).
Definition w25qxx_read (addr len : Z) : M D (Z * list Z) := flash_checked_out (λ h, read_with h 4 addr len).

(** The data over two or four lines, with the address over one; the address and the mode
    byte 0xFF over as many lines as the data. *)
Definition read_output (cmd line : Z) (msg : string) (addr len : Z) : M D (Z * list Z) := dual_only (λ h,
  with_address h Dual 4 addr msg (λ alen, a_w25qxx_qspi_write_read h cmd 1 addr 1 alen 0 0 0 8 [] len line)).
Definition read_io_xfer (h : w25qxx_handle W) (cmd cmd_line line dm alen addr len : Z) : M D (Z * list Z) :=
  a_w25qxx_qspi_write_read h cmd cmd_line addr line alen 0xFF line 1 dm [] len line.
Definition read_io (cmd line dm : Z) (msg : string) (addr len : Z) : M D (Z * list Z) := dual_only (λ h,
  with_address h Dual 4 addr msg (λ alen, read_io_xfer h cmd 1 line dm alen addr len)).
Definition w25qxx_fast_read_dual_output (addr len : Z) : M D (Z * list Z) :=
  read_output W25QXX_COMMAND_FAST_READ_DUAL_OUTPUT 2 "w25qxx: fast read dual output failed." addr len.
Definition w25qxx_fast_read_quad_output (addr len : Z) : M D (Z * list Z) :=
  read_output W25QXX_COMMAND_FAST_READ_QUAD_OUTPUT 4 "w25qxx: fast read quad output failed." addr len.
Definition w25qxx_fast_read_dual_io (addr len : Z) : M D (Z * list Z) :=
  read_io W25QXX_COMMAND_FAST_READ_DUAL_IO 2 0 "w25qxx: fast read dual io failed." addr len.
Definition w25qxx_fast_read_quad_io (addr len : Z) : M D (Z * list Z) := flash_checked_out (λ h,
  b ← mgets bus_of;
  dm ← mgets (λ d, match b with Quad => dummy d | _ => 4 end);
  match b with
  | Single => fail_out h "w25qxx: standard spi can't use this function failed." 6
  | _ => with_address h b 4 addr "w25qxx: fast read quad io failed."
      (λ alen, read_io_xfer h W25QXX_COMMAND_FAST_READ_QUAD_IO (lines b) 4 dm alen addr len)
  end).
Definition w25qxx_word_read_quad_io (addr len : Z) : M D (Z * list Z) :=
  read_io W25QXX_COMMAND_WORD_READ_QUAD_IO 4 2 "w25qxx: word read quad io failed." addr len.
Definition w25qxx_octal_word_read_quad_io (addr len : Z) : M D (Z * list Z) :=
  read_io W25QXX_COMMAND_OCTAL_WORD_READ_QUAD_IO 4 0 "w25qxx: octal word read quad io failed." addr len.

(** ** Erasing, programming and locks *)

Definition w25qxx_chip_erase : M D Z := flash_checked (λ h,
  b ← mgets bus_of;
  write_enable h b (
  flash_check h (instruct h b W25QXX_COMMAND_CHIP_ERASE) "w25qxx: chip erase failed." 1 (λ _,
  wait_ready h b W25QXX_ERASE_CHIP_TIMEOUT_MS (flash_delay_ms h 1) "w25qxx: get status1 failed."
    "w25qxx: erase timeout." 4))).
Definition erase_block (cmd size : Z) (timeout : nat) (msg timeout_msg : string) (addr : Z) : M D Z :=
  flash_checked (λ h,
  if decide (addr `mod` size ≠ 0) then flash_error h "w25qxx: addr is invalid." 4 else
  erase_with h cmd timeout msg timeout_msg 5 6 addr).
Definition w25qxx_sector_erase_4k (addr : Z) : M D Z :=
  erase_block W25QXX_COMMAND_SECTOR_ERASE_4K 4096 W25QXX_ERASE_4K_TIMEOUT_MS
    "w25qxx: sector erase 4k failed." "w25qxx: sector erase 4k timeout." addr.
Definition w25qxx_block_erase_32k (addr : Z) : M D Z :=
  erase_block W25QXX_COMMAND_BLOCK_ERASE_32K (32 * 1024) W25QXX_ERASE_32K_TIMEOUT_MS
    "w25qxx: block erase 32k failed." "w25qxx: block erase 32k timeout." addr.
Definition w25qxx_block_erase_64k (addr : Z) : M D Z :=
  erase_block W25QXX_COMMAND_BLOCK_ERASE_64K (64 * 1024) W25QXX_ERASE_64K_TIMEOUT_MS
    "w25qxx: block erase 64k failed." "w25qxx: block erase 64k timeout." addr.

Definition w25qxx_page_program (addr : Z) (data : list Z) (len : Z) : M D Z := flash_checked (λ h,
  if decide (addr `mod` 256 ≠ 0) then flash_error h "w25qxx: addr is invalid." 4 else
  if decide (len > 256) then flash_error h "w25qxx: length is over 256." 7 else
  program_with h 5 6 addr data len).
Definition w25qxx_page_program_quad_input (addr : Z) (data : list Z) (len : Z) : M D Z := flash_checked (λ h,
  if decide (addr `mod` 256 ≠ 0) then flash_error h "w25qxx: addr is invalid." 4 else
  if decide (len > 256) then flash_error h "w25qxx: length is over 256." 7 else
  i ← mgets spi_qspi;
  e ← mgets dual_quad_spi_enable;
  if decide (i = W25QXX_INTERFACE_QSPI) then flash_error h "w25qxx: qspi can't use this function." 5 else
  if decide (e = 0) then flash_error h "w25qxx: standard spi can't use this function failed." 8 else
  modifying h Dual 5 addr "w25qxx: quad page program failed." (λ alen,
      bytes ← in_bytes data len;
      a_w25qxx_qspi_write_read h W25QXX_COMMAND_QUAD_PAGE_PROGRAM 1 addr 1 alen 0 0 0 0 bytes 0 4)
    (wait_ready h Dual (W25QXX_PAGE_PROGRAM_TIMEOUT_MS * 100) (flash_delay_us h 10)
      "w25qxx: get status1 failed." "w25qxx: quad page program timeout." 6)).

Definition block_lock (cmd : Z) (msg : string) (addr : Z) : M D Z := flash_checked (λ h,
  b ← mgets bus_of;
  '(res, _) ← with_address h b 4 addr msg (λ alen, addr_xfer h b cmd alen addr 0 0);
  mret res).
Definition w25qxx_individual_block_lock (addr : Z) : M D Z :=
  block_lock W25QXX_COMMAND_INDIVIDUAL_BLOCK_LOCK "w25qxx: individual block lock failed." addr.
Definition w25qxx_individual_block_unlock (addr : Z) : M D Z :=
  block_lock W25QXX_COMMAND_INDIVIDUAL_BLOCK_UNLOCK "w25qxx: individual block unlock failed." addr.
Definition w25qxx_read_block_lock (addr : Z) : M D (Z * list Z) := flash_checked_out (λ h,
  b ← mgets bus_of;
  with_address h b 4 addr "w25qxx: read block lock failed."
    (λ alen, addr_xfer h b W25QXX_COMMAND_READ_BLOCK_LOCK alen addr 1 (lines b))).

(** [len / 4096] turns of the loop and two more are enough. *)
Definition w25qxx_write (addr : Z) (data : list Z) (len : Z) : M D Z := flash_checked (λ h,
  let sec_pos := addr / 4096 in
  let sec_off := addr `mod` 4096 in
  let sec_remain := 4096 - sec_off in
  write_sectors h (Z.to_nat (len / 4096) + 2) sec_pos sec_off
    (if decide (len <= sec_remain) then len else sec_remain) addr data len).

Definition w25qxx_write_read_reg (x : xfer) : M D (Z * list Z) := flash_checked_out (λ h, transfer h x).

(** ** Initialization *)

Definition init_check (h : w25qxx_handle W) (op : M D (Z * list Z)) (msg : string) (code : Z)
    (k : list Z → M D Z) : M D Z :=
  '(res, out) ← op;
  if decide (res ≠ 0) then
    flash_debug h msg;;
    f ← mlift NullCall (spi_qspi_deinit h);
    on_platform f;;
    mret code
  else k out.

(** The release from power down, the reset and the pause, in which the instructions go over
    one line on every bus. *)
Definition init_reset (h : w25qxx_handle W) (b : bus) (k : M D Z) : M D Z :=
  init_check h
    match b with
    | Single => a_w25qxx_spi_write_read h [W25QXX_COMMAND_RELEASE_POWER_DOWN; 0xFF; 0xFF; 0xFF] 1
    | _ => a_w25qxx_qspi_write_read h W25QXX_COMMAND_RELEASE_POWER_DOWN 1 0 0 0 0 0 0 (3 * 8) [] 1 1
    end "w25qxx: release power down failed." 1 (λ _,
  let one := match b with Single => Single | _ => Dual end in
  init_check h (instruct h one W25QXX_COMMAND_ENABLE_RESET) "w25qxx: enable reset failed." 7 (λ _,
  init_check h (instruct h one W25QXX_COMMAND_RESET_DEVICE) "w25qxx: reset device failed." 7 (λ _,
  flash_delay_ms h 10;; k))).

(** The quad enable bit when it is clear, the QSPI mode and the read parameters.  The write
    of the second status register has no data. *)
Definition init_quad (h : w25qxx_handle W) (k : M D Z) : M D Z :=
  init_check h (read_reg h Dual W25QXX_COMMAND_READ_STATUS_REG2 1) "w25qxx: read status 2 failed." 5 (λ out,
  status ← mlift Uninitialised (head out);
  let enter :=
    init_check h (instruct h Dual W25QXX_COMMAND_ENTER_QSPI_MODE) "w25qxx: enter qspi failed." 5 (λ _,
    flash_delay_ms h 10;;
    mmodify (λ d, set_dummy 8 (set_param (Z.shiftl 3 4) d));;
    init_check h (write_reg h Quad 0xC0 [Z.shiftl 3 4]) "w25qxx: set read parameters failed." 5 (λ _, k)) in
  if decide (Z.land status 0x02 = 0) then
    init_check h (instruct h Dual W25QXX_COMMAND_VOLATILE_SR_WRITE_ENABLE) "w25qxx: set sr write enable failed." 5 (λ _,
    init_check h (instruct h Dual W25QXX_COMMAND_WRITE_STATUS_REG2) "w25qxx: write status 2 failed." 5 (λ _, enter))
  else enter).

(** The check of the type, and three byte addresses on the large chips. *)
Definition init_identify (h : w25qxx_handle W) (b : bus) (k : M D Z) : M D Z :=
  init_check h (manufacturer_xfer h b) "w25qxx: get manufacturer device id failed."
    (match b with Single => 4 | _ => 1 end) (λ out,
  hi ← mlift Uninitialised (out !! 0%nat);
  lo ← mlift Uninitialised (out !! 1%nat);
  t ← mgets type;
  init_check h (mret (if decide (u16 (Z.lor (Z.shiftl hi 8) lo) ≠ t) then 1 else 0, [])) "w25qxx: id is invalid." 6 (λ _,
  if decide (W25Q256 <= t) then
    init_check h (instruct h b 0xE9)
      (match b with Single => "w25qxx: set address mode failed." | _ => "w25qxx: enter 3 byte mode failed." end)
      (match b with Single => 8 | _ => 1 end) (λ _, k)
  else k)).

Definition w25qxx_init : M D Z :=
  match hd with
  | None => mret 2
  | Some h =>
      match debug_print h, spi_qspi_init h, spi_qspi_deinit h, spi_qspi_write_read h, delay_us h, delay_ms h with
      | None, _, _, _, _, _ => mret 3
      | _, None, _, _, _, _ => flash_error h "w25qxx: spi_qspi_init is null." 3
      | _, _, None, _, _, _ => flash_error h "w25qxx: spi_qspi_deinit is null." 3
      | _, _, _, None, _, _ => flash_error h "w25qxx: spi_qspi_write_read is null." 3
      | _, _, _, _, None, _ => flash_error h "w25qxx: delay_us is null." 3
      | _, _, _, _, _, None => flash_error h "w25qxx: delay_ms is null." 3
      | _, Some f, _, _, _, _ =>
          b ← mgets bus_of;
          res ← on_platform f;
          if decide (res ≠ 0) then
            flash_error h (match b with Quad => "w25qxx: qspi init failed." | _ => "w25qxx: spi init failed." end) 1
          else
          let finish := mmodify (λ d, set_flash_inited 1 (set_address_mode W25QXX_ADDRESS_MODE_3_BYTE d));; mret 0 in
          init_reset h b (match b with
            | Quad => init_quad h (init_identify h b finish)
            | _ => init_identify h b finish
            end)
      end
  end.
End Ops.
