(* ===== verification/W25qxxProps.v ===== *)
(** * What the flash driver's writing promises

    [FlashChip] is what the data sheet says of the chip, seen through the hooks of a handle on
    a single line bus: a memory of bytes, the write enable latch, and the time an erase or
    a program keeps it busy.  The theorems are about any handle with these laws; the chip at the end
    has them. *)
From S2P Require Import Prelude W25qxx W25qxxOps.

(** A hook that is not null and whose call meets [Q]. *)
Definition hook_runs {W X A} (hook : option (X → M W A)) (x : X) (w : W) (Q : A → W → Prop) : Prop :=
  match hook with Some f => wp (f x) w Q | None => False end.

Definition spi (bytes : list Z) (n : Z) : xfer := mk_xfer 0 0 0 0 0 0 0 0 0 bytes n 1.

(** [size] bytes of memory behind a bus that takes up to [cap] bytes in one transfer; [busy]
    counts in steps of 10 microseconds. *)
Class FlashChip {W : Type} (h : w25qxx_handle W) (size cap : Z)
    (mem : W → Z → Z) (wel : W → bool) (busy : W → nat) : Prop := {
  chip_size : 0 <= size <= 2 ^ 24 ∧ size `mod` 4096 = 0;
  chip_bytes : ∀ w a, is_u8 (mem w a);
  chip_status : ∀ w,
    hook_runs (spi_qspi_write_read h) (spi [0x05] 1) w (λ r w',
      (∃ s, r = (0, [s]) ∧ (Z.land s 0x01 = 0 ↔ busy w = O)) ∧
      busy w' = busy w ∧ wel w' = wel w ∧ ∀ a, mem w' a = mem w a);
  chip_enable : ∀ w, busy w = O →
    hook_runs (spi_qspi_write_read h) (spi [0x06] 0) w (λ r w',
      r.1 = 0 ∧ busy w' = O ∧ wel w' = true ∧ ∀ a, mem w' a = mem w a);
  chip_read : ∀ w addr n, busy w = O → 0 <= addr → 0 < n → addr + n <= size → 5 + n <= cap →
    hook_runs (spi_qspi_write_read h) (spi (0x0B :: addr_bytes 3 addr ++ [0]) n) w (λ r w',
      r = (0, mem w <$> seqZ addr n) ∧ busy w' = O ∧ wel w' = wel w ∧ ∀ a, mem w' a = mem w a);
  chip_erase : ∀ w addr, busy w = O → wel w = true → 0 <= addr < size → addr `mod` 4096 = 0 →
    hook_runs (spi_qspi_write_read h) (spi (0x20 :: addr_bytes 3 addr) 0) w (λ r w',
      r.1 = 0 ∧ (busy w' ≤ 399 * 100)%nat ∧ wel w' = false ∧
      ∀ a, mem w' a = if decide (addr <= a < addr + 4096) then 0xFF else mem w a);
  chip_program : ∀ w addr data, busy w = O → wel w = true → Forall is_u8 data →
    (0 < length data)%nat → 4 + Z.of_nat (length data) <= cap → 0 <= addr → addr + Z.of_nat (length data) <= size → addr `mod` 256 + Z.of_nat (length data) <= 256 →
    hook_runs (spi_qspi_write_read h) (spi ((0x02 :: addr_bytes 3 addr) ++ data) 0) w (λ r w',
      r.1 = 0 ∧ (busy w' ≤ 299)%nat ∧ wel w' = false ∧
      ∀ a, mem w' a = if decide (addr <= a < addr + Z.of_nat (length data))
                      then Z.land (mem w a) (data !!! Z.to_nat (a - addr)) else mem w a);
  chip_delay_ms : ∀ w,
    hook_runs (delay_ms h) 1 w (λ _ w',
      (busy w' ≤ busy w - 100)%nat ∧ wel w' = wel w ∧ ∀ a, mem w' a = mem w a);
  chip_delay_us : ∀ w,
    hook_runs (delay_us h) 10 w (λ _ w',
      (busy w' ≤ busy w - 1)%nat ∧ wel w' = wel w ∧ ∀ a, mem w' a = mem w a) }.

Section Correct.
Context {W : Type} (h : w25qxx_handle W) (size cap : Z).
Context (mem : W → Z → Z) (wel : W → bool) (busy : W → nat) `{!FlashChip h size cap mem wel busy}.
#[local] Abbreviation D := (w25qxx_dyn W).

(** The handle as the program leaves it after its start: one line, three byte addresses. *)
Definition small_chip (d : D) : Prop :=
  inited d = 1 ∧ spi_qspi d = W25QXX_INTERFACE_SPI ∧ dual_quad_spi_enable d = 0 ∧
  address_mode d = W25QXX_ADDRESS_MODE_3_BYTE ∧ type d < W25Q256 ∧
  length (buf d) = 262%nat ∧ length (buf_4k d) = 4097%nat ∧ Forall is_u8 (buf_4k d).
Definition idle (d : D) : Prop := small_chip d ∧ busy (world d) = O.
Definition flash (d : D) (a : Z) : Z := mem (world d) a.

Lemma small_chip_world w d : small_chip d → small_chip (set_world w d).
Proof. done. Qed.
Lemma small_bus d : small_chip d → bus_of d = Single.
Proof. intros (_ & H1 & H2 & _). unfold bus_of. by rewrite H1, H2. Qed.
Lemma small_alen d : small_chip d → address_length d = Some 3.
Proof. intros (_ & _ & _ & H & _). unfold address_length. by rewrite H. Qed.
Lemma small_ext d : small_chip d → needs_extended d = false.
Proof.
  intros (_ & _ & _ & _ & H & _). unfold needs_extended.
  by rewrite andb_comm, bool_decide_eq_false_2 by lia.
Qed.

(** ** One call *)

Lemma wp_on_platform {A} (m : M W A) (d : D) (Q : A → D → Prop) :
  wp m (world d) (λ a w', Q a (set_world w' d)) → wp (on_platform m) d Q.
Proof. unfold wp, on_platform. by destruct (m (world d)). Qed.

Lemma wp_transfer bytes n (d : D) (P : Z * list Z → W → Prop) (Q : Z * list Z → D → Prop) :
  hook_runs (spi_qspi_write_read h) (spi bytes n) (world d) P →
  (∀ r w', P r w' → Q (if decide (r.1 ≠ 0) then 1 else 0, r.2) (set_world w' d)) →
  wp (a_w25qxx_spi_write_read h bytes n) d Q.
Proof.
  intros HP HQ. unfold a_w25qxx_spi_write_read, transfer, spi in *.
  destruct (spi_qspi_write_read h) as [f|] eqn:Ef; [|by destruct HP].
  apply wp_bind. eapply wp_lift; [done|].
  apply wp_bind, wp_on_platform. eapply wp_mono; [apply HP|]. intros [r out] w' Hr. by apply (HQ (r, out)).
Qed.

Lemma wp_check op msg code (k : list Z → M D Z) (d : D) (Q : Z → D → Prop) :
  wp op d (λ r d', r.1 = 0 ∧ wp (k r.2) d' Q) → wp (flash_check h op msg code k) d Q.
Proof. intros H. eapply wp_seq; [exact H|]. intros [r out] d' [Hr Hk]. simpl in Hr. by subst r. Qed.

Lemma wp_delay (hook : option (Z → M W unit)) ms n (d : D) (Q : unit → D → Prop) :
  hook_runs hook ms (world d) (λ _ w',
    (busy w' ≤ busy (world d) - n)%nat ∧ wel w' = wel (world d) ∧ ∀ a, mem w' a = mem (world d) a) →
  (∀ w', (busy w' ≤ busy (world d) - n)%nat → (∀ a, mem w' a = mem (world d) a) → Q tt (set_world w' d)) →
  wp (f ← mlift NullCall hook; on_platform (f ms)) d Q.
Proof.
  intros HP HQ. destruct hook as [f|]; [|by destruct HP].
  apply wp_bind. eapply wp_lift; [done|]. apply wp_on_platform.
  eapply wp_mono; [apply HP|]. intros [] w' (?&?&?). by apply HQ.
Qed.

(** Polling: the chip gets ready before the timeout, when each delay takes [n] of its time. *)
Lemma wait_ready_runs n timeout (delay : M D unit) msg tmsg tcode (d : D) (Q : Z → D → Prop) :
  (∀ d' (R : unit → D → Prop),
     (∀ w', (busy w' ≤ busy (world d') - n)%nat → (∀ a, mem w' a = mem (world d') a) → R tt (set_world w' d')) →
     wp delay d' R) →
  (busy (world d) ≤ timeout * n)%nat →
  (∀ w', busy w' = O → (∀ a, mem w' a = mem (world d) a) → Q 0 (set_world w' d)) →
  wp (wait_ready h Single (S timeout) delay msg tmsg tcode) d Q.
Proof.
  intros Hdelay Hb HQ. unfold wait_ready. apply wp_bind. revert d Hb HQ.
  induction timeout as [|timeout IH]; intros d Hb HQ.
  all: cbn [poll_status]; apply wp_bind; eapply wp_transfer; [apply chip_status|].
  all: intros r w' ((s & -> & Hs) & Hbusy & _ & Hmem); cbn [fst snd head].
  all: rewrite decide_False by (by intros []); apply wp_bind; eapply wp_lift; [done|].
  - assert (busy (world d) = O) as H0 by lia. rewrite decide_True by (by apply Hs).
    apply wp_ret, wp_ret, HQ; [congruence|done].
  - destruct (decide (Z.land s 1 = 0)) as [H0|H0].
    + apply Hs in H0. apply wp_ret, wp_ret, HQ; [congruence|done].
    + apply wp_bind, Hdelay. intros w'' Hb'' Hmem''. simpl in *.
      apply IH; [simpl; lia|]. intros w3 H3 Hm3. apply HQ; [done|]. intros a. by rewrite Hm3, Hmem'', Hmem.
Qed.

(** ** Reading, erasing and programming *)

(** The state after a command: the handle is idle, its sector buffer as before, and the
    memory is [m]. *)
Definition leaves (d : D) (m : Z → Z) (d' : D) : Prop :=
  idle d' ∧ buf_4k d' = buf_4k d ∧ ∀ a, flash d' a = m a.

Lemma leaves_world (d d0 : D) m w' :
  small_chip d → buf_4k d = buf_4k d0 → busy w' = O → (∀ a, mem w' a = m a) → leaves d0 m (set_world w' d).
Proof. intros Hc H4 Hb Hm. exact (conj (conj Hc Hb) (conj H4 Hm)). Qed.

Lemma read_runs bad_mode addr n (d : D) :
  idle d → 0 <= addr → 0 < n → addr + n <= size → 5 + n <= cap →
  wp (read_with h bad_mode addr n) d (λ r d', r.1 = 0 ∧ r.2 = flash d <$> seqZ addr n ∧ leaves d (flash d) d').
Proof.
  intros [Hc Hb] ????. unfold read_with, with_address.
  apply wp_bind, wp_gets. rewrite (small_bus d Hc).
  apply wp_bind, wp_gets. rewrite (small_alen d Hc).
  apply wp_bind, wp_gets. rewrite (small_ext d Hc).
  apply wp_bind, wp_ret. rewrite decide_False by (by intros []).
  apply wp_bind. eapply wp_transfer; [by apply chip_read|].
  intros r w' (-> & Hb' & _ & Hm). cbn [fst snd]. rewrite !decide_False by (by intros []).
  apply wp_ret. split; [done|]. split; [done|]. by apply leaves_world.
Qed.

Lemma enable_runs (k : M D Z) (d : D) Q :
  idle d →
  (∀ w', busy w' = O → wel w' = true → (∀ a, mem w' a = flash d a) → wp k (set_world w' d) Q) →
  wp (write_enable h Single k) d Q.
Proof.
  intros [Hc Hb] HQ. apply wp_check. eapply wp_transfer; [by apply chip_enable|].
  intros [r out] w' (Hr & ? & ? & ?). simpl in Hr. subst r. split; [done|]. by apply HQ.
Qed.

(** An instruction that modifies the memory, and the wait for its end. *)
Lemma modifying_runs bad_mode addr msg (xf : Z → M D (Z * list Z)) (wait : M D Z) (m : Z → Z) (bound : nat) (d : D) :
  idle d →
  (∀ d1, idle d1 → wel (world d1) = true → (∀ a, flash d1 a = flash d a) → buf_4k d1 = buf_4k d →
    wp (xf 3) d1 (λ r d', r.1 = 0 ∧ small_chip d' ∧ (busy (world d') ≤ bound)%nat ∧ buf_4k d' = buf_4k d ∧ ∀ a, flash d' a = m a)) →
  (∀ d2 Q, (busy (world d2) ≤ bound)%nat →
    (∀ w', busy w' = O → (∀ a, mem w' a = flash d2 a) → Q 0 (set_world w' d2)) → wp wait d2 Q) →
  wp (modifying h Single bad_mode addr msg xf wait) d (λ r d', r = 0 ∧ leaves d m d').
Proof.
  intros Hi Hxf Hwait. unfold modifying. apply enable_runs; [done|]. intros w' Hb Hw Hm.
  destruct Hi as [Hc _]. apply (small_chip_world w') in Hc.
  apply wp_bind, wp_gets. rewrite (small_alen _ Hc).
  apply wp_bind, wp_gets. rewrite (small_ext _ Hc).
  apply wp_check. eapply wp_mono; [by apply Hxf|].
  intros r d' (Hr & Hc' & Hb' & H4 & Hm'). split; [done|].
  apply Hwait; [done|]. intros w'' Hb'' Hm''. split; [done|].
  apply leaves_world; [done..|]. intros a. by rewrite <-Hm', <-Hm''.
Qed.

Definition erased (addr : Z) (m : Z → Z) (a : Z) : Z :=
  if decide (addr <= a < addr + 4096) then 0xFF else m a.
Definition programmed (addr : Z) (data : list Z) (m : Z → Z) (a : Z) : Z :=
  if decide (addr <= a < addr + Z.of_nat (length data))
  then Z.land (m a) (data !!! Z.to_nat (a - addr)) else m a.

Lemma erase_runs msg tmsg bad_mode tcode addr (d : D) :
  idle d → 0 <= addr < size → addr `mod` 4096 = 0 →
  wp (erase_with h W25QXX_COMMAND_SECTOR_ERASE_4K W25QXX_ERASE_4K_TIMEOUT_MS msg tmsg bad_mode tcode addr) d
    (λ r d', r = 0 ∧ leaves d (erased addr (flash d)) d').
Proof.
  intros Hi Ha Hmod. unfold erase_with. apply wp_bind, wp_gets. rewrite (small_bus d (proj1 Hi)).
  apply modifying_runs with (bound := (399 * 100)%nat); [done|..].
  - intros d1 [Hc1 Hb1] Hw1 Hm1 H4. eapply wp_transfer; [by apply (chip_erase (world d1) addr)|].
    intros [r out] w' (Hr & ? & _ & Hm). simpl in Hr. subst r.
    refine (conj eq_refl (conj Hc1 (conj _ (conj H4 _)))); [done|]. intros a. unfold flash in *. simpl. rewrite Hm. unfold erased. case_decide; [done|]. apply Hm1.
  - intros d2 Q Hb2 HQ. change W25QXX_ERASE_4K_TIMEOUT_MS with (S 399).
    apply (wait_ready_runs 100); [|done|done].
    intros d' R HR. eapply wp_delay; [apply chip_delay_ms|done].
Qed.

Lemma sector_erase_runs addr (d : D) :
  idle d → 0 <= addr < size → addr `mod` 4096 = 0 →
  wp (w25qxx_sector_erase_4k (Some h) addr) d (λ r d', r = 0 ∧ leaves d (erased addr (flash d)) d').
Proof.
  intros Hi Ha Hmod. unfold w25qxx_sector_erase_4k, erase_block, flash_checked. apply wp_bind, wp_gets.
  rewrite (proj1 (proj1 Hi)), Hmod, !decide_False by lia. by apply erase_runs.
Qed.

Lemma memcpy_ok off len src dst :
  (len ≤ length src)%nat → (off + len ≤ length dst)%nat →
  memcpy_at off len src dst = Some (take off dst ++ take len src ++ drop (off + len) dst).
Proof. intros. unfold memcpy_at, write_at. by rewrite decide_True, length_take_le. Qed.

Lemma buffered_runs header data len (d : D) Q :
  (length header + Z.to_nat len ≤ length (buf d))%nat → (Z.to_nat len ≤ length data)%nat →
  (∀ b, length b = length (buf d) →
     wp (a_w25qxx_spi_write_read h (header ++ take (Z.to_nat len) data) 0) (set_buf b d) Q) →
  wp (buffered h header data len) d Q.
Proof.
  intros Hb Hd HQ. unfold buffered. apply wp_bind, wp_gets.
  apply wp_bind. eapply wp_lift; [apply memcpy_ok; lia|].
  rewrite take_0, firstn_all, Nat.add_0_l. cbn [app].
  apply wp_bind. eapply wp_lift; [apply memcpy_ok; [lia|rewrite length_app, length_drop; lia]|].
  apply wp_bind, wp_modify. rewrite take_app_length, drop_app, drop_ge, (Nat.add_comm (length header)), Nat.add_sub by lia.
  cbn [app]. rewrite app_assoc, (take_app_length' (header ++ _)) by (rewrite length_app, length_take_le; lia).
  apply HQ. rewrite !length_app, !length_drop, length_take_le; lia.
Qed.

Lemma program_runs bad_mode tcode addr data len (d : D) :
  idle d → Forall is_u8 data → 0 < len → len <= Z.of_nat (length data) → 0 <= addr → addr + len <= size →
  4 + len <= cap → addr `mod` 256 + len <= 256 →
  wp (program_with h bad_mode tcode addr data len) d
    (λ r d', r = 0 ∧ leaves d (programmed addr (take (Z.to_nat len) data) (flash d)) d').
Proof.
  intros Hi Hd Hl Hlen Ha Hsz Hcap Hp. unfold program_with. apply wp_bind, wp_gets. rewrite (small_bus d (proj1 Hi)).
  assert (length (take (Z.to_nat len) data) = Z.to_nat len) as Ht by (apply length_take_le; lia).
  assert (Z.of_nat (Z.to_nat len) = len) as Hz by lia.
  pose proof (Z.mod_pos_bound addr 256).
  apply modifying_runs with (bound := 299%nat); [done|..].
  - intros d1 [Hc1 Hb1] Hw1 Hm1 H4. pose proof Hc1 as (?&?&?&?&?&Hl1&?&?).
    apply buffered_runs; [simpl; rewrite Hl1; change (length (addr_bytes 3 addr)) with 3%nat; lia|lia|].
    intros b Hbl. eapply wp_transfer; [apply (chip_program _ addr (take (Z.to_nat len) data)); try done|].
    1-5: rewrite ?Ht, ?Hz; first [by apply Forall_take|lia].
    intros [r out] w' (Hr & ? & _ & Hm). simpl in Hr. subst r.
    assert (small_chip (set_world w' (set_buf b d1))) as Hc2 by (unfold small_chip; simpl; repeat split; first [done|congruence]).
    refine (conj eq_refl (conj Hc2 (conj _ (conj H4 _)))); [done|].
    intros a. unfold flash in *. simpl. rewrite Hm. unfold programmed. rewrite Ht, Hz.
      simpl. case_decide; by rewrite ?Hm1.
  - intros d2 Q Hb2 HQ. change (W25QXX_PAGE_PROGRAM_TIMEOUT_MS * 100)%nat with (S 299).
    apply (wait_ready_runs 1); [|lia|done].
    intros d' R HR. eapply wp_delay; [apply chip_delay_us|done].
Qed.

(** ** Pages *)

Lemma programmed_split addr data (r len : Z) m a :
  0 <= r <= len → len <= Z.of_nat (length data) →
  programmed (addr + r) (take (Z.to_nat (len - r)) (drop (Z.to_nat r) data))
    (programmed addr (take (Z.to_nat r) data) m) a =
  programmed addr (take (Z.to_nat len) data) m a.
Proof.
  intros Hr Hl. unfold programmed. rewrite !length_take, length_drop.
  repeat case_decide; try lia; try done.
  - rewrite !list_lookup_total_alt, !lookup_take_lt, lookup_drop by lia. do 3 f_equal. lia.
  - rewrite !list_lookup_total_alt, !lookup_take_lt by lia. done.
Qed.

Lemma programmed_ext addr data m m' a : m a = m' a → programmed addr data m a = programmed addr data m' a.
Proof. unfold programmed. by intros ->. Qed.

Lemma leaves_weaken d m m' r d' :
  (∀ a, m a = m' a) → r = 0 ∧ leaves d m d' → r = 0 ∧ leaves d m' d'.
Proof. intros Hm (-> & Hi & H4 & Hf). split; [done|]. repeat split; try apply Hi; [done|]. intros a. by rewrite Hf. Qed.

(** From here on, a whole sector fits in one transfer. *)
Context (Hcap : 4101 <= cap).

Lemma write_pages_runs fuel addr data len r (d : D) :
  idle d → Forall is_u8 data → 0 < r <= len → len <= Z.of_nat (length data) →
  0 <= addr → addr + len <= size → addr `mod` 256 + r <= 256 →
  (r = len ∨ (addr + r) `mod` 256 = 0) → len - r + 256 <= Z.of_nat fuel * 256 →
  wp (write_pages h fuel addr data len r) d
    (λ res d', res = 0 ∧ leaves d (programmed addr (take (Z.to_nat len) data) (flash d)) d').
Proof.
  revert addr data len r d. induction fuel as [|fuel IH]; intros addr data len r d Hi Hd Hr Hl Ha Hs Hp Hn Hf; [lia|].
  destruct (chip_size (FlashChip := _)) as [Hsz _]. pose proof (Z.mod_pos_bound addr 256 eq_refl). cbn [write_pages].
  eapply wp_seq; [apply program_runs; first [done|lia]|]. intros res d1 [-> (Hi1 & H41 & Hf1)].
  rewrite decide_False by (by intros []). case_decide as Hlr; [subst len; by apply wp_ret|].
  rewrite !u32_id by (unfold is_u32; lia).
  destruct Hn as [|Hn]; [lia|]. set (r' := if decide (len - r > 256) then 256 else len - r).
  assert (0 < r' <= len - r ∧ r' <= 256 ∧ (r' = len - r ∨ r' = 256)) as (?&?&Hr') by (subst r'; case_decide; lia).
  eapply wp_mono; [apply IH; rewrite ?length_drop, ?Hn; try lia; [done|by apply Forall_drop|]|].
  - destruct Hr' as [->| ->]; [by left|right]. by rewrite Zplus_mod, Hn.
  - intros res d2 (-> & Hi2 & H42 & Hf2). split; [done|]. refine (conj Hi2 (conj _ _)); [by rewrite H42|].
    intros a. rewrite Hf2, <-(programmed_split addr data r len) by lia. by apply programmed_ext.
Qed.

Lemma write_no_check_runs addr data len (d : D) :
  idle d → Forall is_u8 data → 0 < len <= Z.of_nat (length data) → 0 <= addr → addr + len <= size →
  wp (a_w25qxx_write_no_check h addr data len) d
    (λ res d', res = 0 ∧ leaves d (programmed addr (take (Z.to_nat len) data) (flash d)) d').
Proof.
  intros Hi Hd Hl Ha Hs. unfold a_w25qxx_write_no_check.
  pose proof (Z.mod_pos_bound addr 256 eq_refl). pose proof (Z.div_mod len 256). pose proof (Z.mod_pos_bound len 256 eq_refl).
  pose proof (Z.div_pos len 256).
  apply write_pages_runs; try done; try lia.
  1-2,4: case_decide; lia.
  case_decide; [by left|right]. pose proof (Z.div_mod addr 256).
  replace (addr + (256 - addr `mod` 256)) with ((addr / 256 + 1) * 256) by lia. apply Z_mod_mult.
Qed.

(** ** Sectors *)

(** The memory with [data] at [addr]. *)
Definition flash_written (addr : Z) (data : list Z) (m : Z → Z) (a : Z) : Z :=
  if decide (addr <= a < addr + Z.of_nat (length data)) then data !!! Z.to_nat (a - addr) else m a.

Lemma flash_written_split addr data (r len : Z) m a :
  0 <= r <= len → len <= Z.of_nat (length data) →
  flash_written (addr + r) (take (Z.to_nat (len - r)) (drop (Z.to_nat r) data))
    (flash_written addr (take (Z.to_nat r) data) m) a =
  flash_written addr (take (Z.to_nat len) data) m a.
Proof.
  intros Hr Hl. unfold flash_written. rewrite !length_take, length_drop.
  repeat case_decide; try lia; try done.
  - rewrite !list_lookup_total_alt, !lookup_take_lt, lookup_drop by lia. do 2 f_equal. lia.
  - rewrite !list_lookup_total_alt, !lookup_take_lt by lia. done.
Qed.

Lemma programmed_erased addr data m a :
  Forall is_u8 data →
  (∀ b, addr <= b < addr + Z.of_nat (length data) → m b = 0xFF) →
  programmed addr data m a = flash_written addr data m a.
Proof.
  intros Hd Hm. unfold programmed, flash_written. case_decide as Ha; [|done].
  rewrite Hm, Z.land_comm by done. change 0xFF with (Z.ones 8). rewrite Z.land_ones by done.
  apply Z.mod_small. destruct (lookup_lt_is_Some_2 data (Z.to_nat (a - addr))) as [b Hb]; [lia|].
  rewrite list_lookup_total_alt, Hb. exact (Forall_lookup_1 _ _ _ _ Hd Hb).
Qed.

(** The sector with [data] merged at an offset, written over the erased sector. *)
Lemma flash_written_merged n sec so sector data m a :
  Z.of_nat n = 4096 → (so + length data ≤ n)%nat → (n ≤ length sector)%nat →
  (∀ i, (i < n)%nat → sector !!! i = m (sec + Z.of_nat i)) →
  flash_written sec (take n (take so sector ++ data ++ drop (so + length data) sector)) (erased sec m) a =
  flash_written (sec + Z.of_nat so) data m a.
Proof.
  intros Hn Hso Hlen Hsec. unfold flash_written, erased.
  set (merged := take so sector ++ data ++ drop (so + length data) sector).
  assert (length (take so sector) = so) as Hts by (rewrite length_take_le; lia).
  assert (length merged = length sector) as Hlm by (subst merged; rewrite !length_app, length_drop, Hts; lia).
  rewrite length_take_le by lia.
  case_decide as Hin; case_decide as Hd; try lia; [..|by rewrite decide_False by lia].
  all: rewrite list_lookup_total_alt, lookup_take_lt by lia; subst merged.
  - rewrite lookup_app_r, lookup_app_l, <-list_lookup_total_alt by lia. f_equal. lia.
  - destruct (decide (Z.to_nat (a - sec) < so)%nat).
    + rewrite lookup_app_l, lookup_take_lt, <-list_lookup_total_alt, Hsec by lia. f_equal. lia.
    + rewrite !lookup_app_r, lookup_drop, <-list_lookup_total_alt, Hsec by lia. f_equal. lia.
Qed.

(** The state after a part of the writing: the sector buffer may have changed. *)
Definition holds (m : Z → Z) (d' : D) : Prop := idle d' ∧ ∀ a, flash d' a = m a.

Lemma finish_runs (op : M D Z) msg code m (d d0 : D) :
  wp op d (λ r d', r = 0 ∧ leaves d0 m d') →
  wp (r ← op; if decide (r ≠ 0) then flash_error h msg code else mret 0) d (λ r d', r = 0 ∧ holds m d').
Proof. intros H. eapply wp_seq; [exact H|]. intros r d' (-> & Hi & _ & Hm). by apply wp_ret. Qed.

Lemma idle_buf_4k (d : D) b : idle d → length b = 4097%nat → Forall is_u8 b → idle (set_buf_4k b d).
Proof.
  intros ((H1&H2&H3&H4&H5&H6&_&_) & Hb) Hl Hu.
  exact (conj (conj H1 (conj H2 (conj H3 (conj H4 (conj H5 (conj H6 (conj Hl Hu))))))) Hb).
Qed.

Lemma seq_lookup (m : Z → Z) sec i :
  (i < 4096)%nat → (m <$> seqZ sec 4096) !! i = Some (m (sec + Z.of_nat i)).
Proof. intros Hi. rewrite list_lookup_fmap, lookup_seqZ_lt by lia. done. Qed.

Lemma refill_runs sp so sr data sector m (d : D) :
  idle d → length sector = 4097%nat → Forall is_u8 sector → Forall is_u8 data →
  (∀ i, (i < 4096)%nat → sector !! i = Some (m (sp * 4096 + Z.of_nat i))) → (∀ a, flash d a = m a) →
  0 <= sp → 0 <= so → 0 < sr → so + sr <= 4096 → sr <= Z.of_nat (length data) → sp * 4096 + 4096 <= size →
  wp (refill_sector h sp so sr data sector) d
    (λ r d', r = 0 ∧ holds (flash_written (sp * 4096 + so) (take (Z.to_nat sr) data) m) d').
Proof.
  intros Hi Hsl Hsu Hd Hsec Hm Hsp Hso Hsr Hle Hlen Hsz. destruct (chip_size (FlashChip := _)) as [Hmax _].
  unfold refill_sector. rewrite u32_id by (unfold is_u32; lia).
  eapply wp_seq; [apply erase_runs; [done|lia|apply Z_mod_mult]|].
  intros r d1 (-> & Hi1 & _ & Hf1). rewrite decide_False by (by intros []).
  apply wp_bind. eapply wp_lift; [apply memcpy_ok; lia|]. apply wp_bind, wp_modify.
  set (merged := take _ sector ++ _).
  assert (length merged = 4097%nat) as Hml by (subst merged; rewrite !length_app, length_drop, !length_take_le; lia).
  assert (Forall is_u8 merged) as Hmu by (by repeat apply Forall_app_2; apply Forall_take || apply Forall_drop).
  assert (idle (set_buf_4k merged d1)) as Hi2 by (by apply idle_buf_4k).
  eapply finish_runs, wp_mono; [by apply write_no_check_runs; try lia|].
  intros r d' H. eapply leaves_weaken, H. intros a.
  assert (length (take (Z.to_nat sr) data) = Z.to_nat sr) as Htl by (apply length_take_le; lia).
  rewrite (programmed_ext _ _ _ (erased (sp * 4096) m)).
  2:{ change (flash (set_buf_4k merged d1) a) with (flash d1 a). rewrite Hf1. unfold erased. case_decide; [done|apply Hm]. }
  rewrite programmed_erased; [|by apply Forall_take|].
  2:{ intros b. rewrite length_take_le by lia. intros Hb. unfold erased. by rewrite decide_True by lia. }
  subst merged. rewrite <-Htl at 2. rewrite flash_written_merged; [by rewrite Z2Nat.id by lia|lia..|].
  intros i Hi'. by rewrite list_lookup_total_alt, Hsec by lia.
Qed.

Lemma write_sector_runs sp so sr addr data (d : D) :
  idle d → Forall is_u8 data → 0 <= sp → 0 <= so → 0 < sr → so + sr <= 4096 → sr <= Z.of_nat (length data) →
  addr = sp * 4096 + so → sp * 4096 + 4096 <= size →
  wp (write_sector h sp so sr addr data) d
    (λ r d', r = 0 ∧ holds (flash_written addr (take (Z.to_nat sr) data) (flash d)) d').
Proof.
  intros Hi Hd Hsp Hso Hsr Hle Hlen -> Hsz. destruct (chip_size (FlashChip := _)) as [Hmax _].
  unfold write_sector. rewrite u32_id by (unfold is_u32; lia).
  eapply wp_seq; [apply read_runs; [done|lia..]|]. intros [res out] d1 (Hres & Hout & Hi1 & H41 & Hf1).
  cbn [fst snd] in Hres, Hout. subst res.
  assert (length out = 4096%nat) as Hol by (rewrite Hout, length_fmap, length_seqZ; lia).
  assert (length (buf_4k d1) = 4097%nat) as Hb4 by apply Hi1.
  apply wp_bind, wp_gets, wp_bind. eapply wp_lift; [apply memcpy_ok; lia|].
  rewrite take_0, firstn_all. cbn [app]. set (sector := out ++ _).
  assert (length sector = 4097%nat) as Hsl by (subst sector; rewrite length_app, length_drop; lia).
  assert (∀ i, (i < 4096)%nat → sector !! i = Some (flash d (sp * 4096 + Z.of_nat i))) as Hsec.
  { intros i Hi'. subst sector. rewrite lookup_app_l, Hout by lia. by apply seq_lookup. }
  apply wp_bind, wp_modify. rewrite decide_False by (by intros []).
  assert (Forall is_u8 sector) as Hsu.
  { subst sector. apply Forall_app_2; [|by apply Forall_drop, Hi1]. rewrite Hout.
    apply Forall_fmap, Forall_true. intros a. apply (chip_bytes (FlashChip := FlashChip0)). }
  assert (idle (set_buf_4k sector d1)) as Hi2 by (by apply idle_buf_4k).
  destruct (decide (Forall (λ b, b = 0xFF) (take (Z.to_nat sr) (drop (Z.to_nat so) sector)))) as [HF|_].
  - eapply finish_runs, wp_mono; [by apply write_no_check_runs; try lia|].
    intros r d' H. eapply leaves_weaken, H. intros a.
    rewrite (programmed_ext _ _ _ (flash d)) by apply Hf1. apply programmed_erased; [by apply Forall_take|].
    intros b Hb. rewrite length_take_le in Hb by lia.
    apply (Forall_lookup_1 _ _ (Z.to_nat (b - (sp * 4096 + so))) _ HF).
    rewrite lookup_take_lt, lookup_drop, Hsec by lia. do 2 f_equal. lia.
  - by apply refill_runs; try lia.
Qed.

Lemma flash_written_ext addr data m m' a : m a = m' a → flash_written addr data m a = flash_written addr data m' a.
Proof. unfold flash_written. by intros ->. Qed.

Lemma write_sectors_runs fuel sp so sr addr data len (d : D) :
  idle d → Forall is_u8 data → 0 <= sp → 0 <= so → 0 < sr <= len → so + sr <= 4096 →
  len <= Z.of_nat (length data) → addr = sp * 4096 + so → addr + len <= size →
  (sr = len ∨ so + sr = 4096) → len - sr + 4096 <= Z.of_nat fuel * 4096 →
  wp (write_sectors h fuel sp so sr addr data len) d
    (λ r d', r = 0 ∧ holds (flash_written addr (take (Z.to_nat len) data) (flash d)) d').
Proof.
  revert sp so sr addr data len d. induction fuel as [|fuel IH]; [lia|].
  intros sp so sr addr data len d Hi Hd Hsp Hso Hsr Hle Hlen Haddr Hsz Hn Hf. cbn [write_sectors].
  destruct (chip_size (FlashChip := _)) as [Hmax Hmul].
  assert (sp * 4096 + 4096 <= size) as Hsec by (pose proof (Z.div_mod size 4096); nia).
  eapply wp_seq; [apply write_sector_runs; first [done|lia]|].
  intros r d1 (-> & Hi1 & Hf1). rewrite decide_False by (by intros []).
  case_decide as Hlr; [subst sr; by apply wp_ret|]. destruct Hn as [|Hn]; [lia|].
  rewrite !u32_id by (unfold is_u32; lia). set (sr' := if decide (len - sr > 4096) then 4096 else len - sr).
  assert (0 < sr' <= len - sr ∧ sr' <= 4096 ∧ (sr' = len - sr ∨ 0 + sr' = 4096)) as (?&?&?) by (subst sr'; case_decide; lia).
  eapply wp_mono; [apply IH; rewrite ?length_drop; try lia; [done|by apply Forall_drop]|].
  intros r d2 (-> & Hi2 & Hf2). split; [done|]. split; [done|]. intros a.
  rewrite Hf2, <-(flash_written_split addr data sr len) by lia. by apply flash_written_ext.
Qed.

Lemma write_runs addr data len (d : D) :
  idle d → Forall is_u8 data → 0 < len <= Z.of_nat (length data) → 0 <= addr → addr + len <= size →
  wp (w25qxx_write (Some h) addr data len) d (λ r d',
    r = 0 ∧ idle d' ∧ ∀ a, flash d' a =
      if decide (addr <= a < addr + len) then data !!! Z.to_nat (a - addr) else flash d a).
Proof.
  intros Hi Hd Hl Ha Hs. unfold w25qxx_write, flash_checked. apply wp_bind, wp_gets.
  rewrite (proj1 (proj1 Hi)), decide_False by lia.
  pose proof (Z.mod_pos_bound addr 4096 eq_refl). pose proof (Z.div_mod addr 4096). pose proof (Z.div_pos addr 4096).
  pose proof (Z.mod_pos_bound len 4096 eq_refl). pose proof (Z.div_mod len 4096). pose proof (Z.div_pos len 4096).
  set (sr := if decide _ then len else _).
  assert (0 < sr <= len ∧ (sr = len ∨ addr `mod` 4096 + sr = 4096) ∧ addr `mod` 4096 + sr <= 4096) as (?&?&?) by (subst sr; case_decide; lia).
  eapply wp_mono; [apply write_sectors_runs; try done; lia|].
  intros r d' (-> & Hi' & Hf). split; [done|]. split; [done|]. intros a. rewrite Hf. unfold flash_written.
  rewrite length_take_le, Z2Nat.id by lia. case_decide; [|done].
  by rewrite !list_lookup_total_alt, lookup_take_lt by lia.
Qed.

(** C13. Over a single line with three byte addresses and a platform that takes transfers of a sector
    and its command: a write of at least one byte that ends within the chip succeeds, and the chip then holds the
    data where it was flash_written and its old bytes everywhere else. *)
Theorem w25qxx_write_correct addr data len (d : D) :
  idle d → Forall is_u8 data → 0 < len <= Z.of_nat (length data) → 0 <= addr → addr + len <= size →
  wp (w25qxx_write (Some h) addr data len) d (λ r d',
    r = 0 ∧ idle d' ∧ ∀ a, flash d' a =
      if decide (addr <= a < addr + len) then data !!! Z.to_nat (a - addr) else flash d a).
Proof. apply write_runs. Qed.

(** Reading back what was written gives it. *)
Theorem w25qxx_write_read addr data len (d : D) :
  idle d → Forall is_u8 data → 0 < len <= Z.of_nat (length data) → 0 <= addr → addr + len <= size →
  5 + len <= cap →
  wp (w25qxx_write (Some h) addr data len;; w25qxx_read (Some h) addr len) d
    (λ r _, r = (0, take (Z.to_nat len) data)).
Proof.
  intros Hi Hd Hl Ha Hs Hc. eapply wp_seq; [by apply write_runs|]. intros _ d1 (_ & Hi1 & Hf1).
  unfold w25qxx_read, flash_checked_out. apply wp_bind, wp_gets.
  rewrite (proj1 (proj1 Hi1)), decide_False by lia.
  eapply wp_mono; [apply read_runs; [done|lia..]|]. intros [res out] d2 (Hres & Hout & _). simpl in *.
  rewrite Hres, Hout. f_equal. apply list_eq_same_length with (n := Z.to_nat len).
  { rewrite length_take_le; lia. }
  { rewrite length_fmap, length_seqZ. lia. }
  intros i x y Hi' Hx Hy. rewrite list_lookup_fmap, lookup_seqZ_lt in Hx by lia.
  rewrite lookup_take_lt in Hy by lia. injection Hx as <-. rewrite Hf1, decide_True by lia.
  rewrite list_lookup_total_alt. replace (Z.to_nat (addr + Z.of_nat i - addr)) with i by lia. by rewrite Hy.
Qed.
End Correct.

(** ** A chip with these laws *)

Record chip : Type := mk_chip { cells : Z → Z; latch : bool; remaining : nat }.
Definition cell (c : chip) (a : Z) : Z := u8 (cells c a).
Definition chip_addr (b2 b1 b0 : Z) : Z := b2 * 65536 + b1 * 256 + b0.
Definition chip_xfer (x : xfer) : M chip (Z * list Z) := λ c,
  match x_in x with
  | [5] => Ok (0, [match remaining c with O => 0 | _ => 3 end]) c
  | [6] => Ok (0, []) (mk_chip (cells c) true (remaining c))
  | 11 :: b2 :: b1 :: b0 :: _ => Ok (0, cell c <$> seqZ (chip_addr b2 b1 b0) (x_out_len x)) c
  | [32; b2; b1; b0] =>
      Ok (0, []) (mk_chip (λ a, if decide (chip_addr b2 b1 b0 <= a < chip_addr b2 b1 b0 + 4096) then 0xFF else cell c a) false 4500)
  | 2 :: b2 :: b1 :: b0 :: data =>
      let addr := chip_addr b2 b1 b0 in
      Ok (0, []) (mk_chip (λ a, if decide (addr <= a < addr + Z.of_nat (length data))
                              then Z.land (cell c a) (data !!! Z.to_nat (a - addr)) else cell c a) false 70)
  | _ => Ok (0, []) c
  end.
Definition chip_wait (steps : nat) : M chip unit := mmodify (λ c, mk_chip (cells c) (latch c) (remaining c - steps)).
Definition chip_handle : w25qxx_handle chip :=
  mk_w25qxx (Some (mret 0)) (Some (mret 0)) (Some chip_xfer)
    (Some (λ ms, chip_wait (100 * Z.to_nat ms))) (Some (λ us, chip_wait (Z.to_nat us / 10))) (Some (λ _, mret tt)).

Lemma chip_addr_bytes addr :
  0 <= addr < 2 ^ 24 →
  chip_addr (Z.land (Z.shiftr addr 16) 0xFF) (Z.land (Z.shiftr addr 8) 0xFF) (Z.land (Z.shiftr addr 0) 0xFF) = addr.
Proof.
  intros Ha. change 0xFF with (Z.ones 8). rewrite !Z.land_ones, !Z.shiftr_div_pow2 by done. unfold chip_addr.
  change (2 ^ 0) with 1. rewrite Z.div_1_r. change (2 ^ 16) with 65536. change (2 ^ 8) with 256.
  Z.to_euclidean_division_equations. lia.
Qed.

Lemma land_u8 x y : is_u8 x → is_u8 (Z.land x y).
Proof.
  intros Hx. rewrite <-(u8_id x Hx). unfold u8. change 256 with (2 ^ 8).
  rewrite <-Z.land_ones, <-Z.land_assoc, (Z.land_comm (Z.ones 8)), Z.land_assoc, Z.land_ones by done. apply u8_range.
Qed.

Lemma addr_bytes_3 addr :
  addr_bytes 3 addr = [Z.land (Z.shiftr addr 16) 0xFF; Z.land (Z.shiftr addr 8) 0xFF; Z.land (Z.shiftr addr 0) 0xFF].
Proof. done. Qed.

Lemma chip_read_ok addr n c :
  0 <= addr < 2 ^ 24 → chip_xfer (spi (0x0B :: addr_bytes 3 addr ++ [0]) n) c = Ok (0, cell c <$> seqZ addr n) c.
Proof. intros Ha. rewrite addr_bytes_3. cbv [chip_xfer spi x_in x_out_len app]. by rewrite chip_addr_bytes. Qed.
Lemma chip_erase_ok addr c :
  0 <= addr < 2 ^ 24 →
  chip_xfer (spi (0x20 :: addr_bytes 3 addr) 0) c =
  Ok (0, []) (mk_chip (λ a, if decide (addr <= a < addr + 4096) then 0xFF else cell c a) false 4500).
Proof. intros Ha. rewrite addr_bytes_3. cbv [chip_xfer spi x_in x_out_len app]. by rewrite chip_addr_bytes. Qed.
Lemma chip_program_ok addr data c :
  0 <= addr < 2 ^ 24 →
  chip_xfer (spi ((0x02 :: addr_bytes 3 addr) ++ data) 0) c =
  Ok (0, []) (mk_chip (λ a, if decide (addr <= a < addr + Z.of_nat (length data))
                            then Z.land (cell c a) (data !!! Z.to_nat (a - addr)) else cell c a) false 70).
Proof. intros Ha. rewrite addr_bytes_3. cbv [chip_xfer spi x_in x_out_len app]. by rewrite chip_addr_bytes. Qed.

#[export] Instance chip_flash size :
  0 <= size <= 2 ^ 24 → size `mod` 4096 = 0 → FlashChip chip_handle size 65536 cell latch remaining.
Proof.
  intros Hs Hm. split; [done|intros; apply u8_range|..]; intros w.
  - split; [|done]. eexists. split; [done|]. by destruct (remaining w).
  - done.
  - intros addr n Hb Ha Hn Hl _. eapply wp_ok; [apply chip_read_ok; lia|done].
  - intros addr Hb Hw Ha Hmod. eapply wp_ok; [apply chip_erase_ok; lia|].
    split; [done|]. split; [by apply Nat.leb_le|]. split; [done|]. intros a.
    change (u8 (if decide (addr <= a < addr + 4096) then 0xFF else cell w a) =
      if decide (addr <= a < addr + 4096) then 0xFF else cell w a).
    case_decide; [done|]. apply u8_id, u8_range.
  - intros addr data Hb Hw Hd Hn _ Ha Hl Hp. eapply wp_ok; [apply chip_program_ok; lia|].
    split; [done|]. split; [by apply Nat.leb_le|]. split; [done|]. intros a. apply u8_id.
    case_decide as Hr; [|apply u8_range].
    apply land_u8, u8_range.
  - by split.
  - by split.
Qed.

(** A handle after its start, with a chip whose byte 4095 is 0 and whose others are erased:
    a write over the end of the first sector erases and fills that sector. *)
Definition demo_chip : chip := mk_chip (λ a, if decide (a = 4095) then 0 else 0xFF) false 0.
Definition demo : w25qxx_dyn chip :=
  mk_dyn 1 W25Q64 W25QXX_ADDRESS_MODE_3_BYTE 0 0 0 W25QXX_INTERFACE_SPI (replicate 262 0) (replicate 4097 0) demo_chip.
Lemma demo_idle : idle remaining demo.
Proof.
  split; [|done]. repeat split; try done. apply Forall_replicate. split; lia.
Qed.
Lemma demo_chip_flash : FlashChip chip_handle 8388608 65536 cell latch remaining.
Proof. apply chip_flash; [lia|done]. Qed.
Lemma demo_data : Forall is_u8 [1; 2; 3] ∧ 0 < 3 <= Z.of_nat (length [1; 2; 3]).
Proof. split; [repeat constructor; lia|simpl; lia]. Qed.
Lemma w25qxx_write_correct_witness :
  wp (w25qxx_write (Some chip_handle) 4094 [1; 2; 3] 3) demo (λ r d',
    r = 0 ∧ idle remaining d' ∧ ∀ a, flash cell d' a =
      if decide (4094 <= a < 4094 + 3) then [1; 2; 3] !!! Z.to_nat (a - 4094) else flash cell demo a).
Proof.
  refine (w25qxx_write_correct chip_handle 8388608 65536 cell latch remaining (FlashChip0 := demo_chip_flash)
    ltac:(lia) 4094 [1; 2; 3] 3 demo demo_idle (proj1 demo_data) (proj2 demo_data) _ _); lia.
Defined.
Lemma w25qxx_write_read_witness :
  wp (w25qxx_write (Some chip_handle) 4094 [1; 2; 3] 3;; w25qxx_read (Some chip_handle) 4094 3) demo
    (λ r _, r = (0, take (Z.to_nat 3) [1; 2; 3])).
Proof.
  refine (w25qxx_write_read chip_handle 8388608 65536 cell latch remaining (FlashChip0 := demo_chip_flash)
    ltac:(lia) 4094 [1; 2; 3] 3 demo demo_idle (proj1 demo_data) (proj2 demo_data) _ _ _); lia.
Defined.
