(* ===== verification/FlashPort.v ===== *)
(** * The flash of the program: [src/src/w25qxx/w25qxx_interface.c] and [src/src/flashdb/fdb_port.c]

    The hooks the program links into the flash driver, and the four functions it hands to
    the flash abstraction layer.  The HAL's calls are the parameters [spiStart],
    [spiExchange], ...; [SpiFlash] states what a flash chip on that SPI does with the
    frames it is sent, and [interface_chip] derives the driver's contract [FlashChip] from
    it, for transfers of at most 64 bytes. *)
From S2P Require Import Prelude W25qxx W25qxxOps W25qxxProps.

Definition SPI_BUFFER_SIZE : nat := 64.
Definition HAL_RET_SUCCESS : Z := 0.

(** The static receive buffer, which keeps the bytes of earlier transfers, and the rest. *)
Record flash_io (W : Type) : Type := mk_io { spi_rx_buffer : list Z; host : W }.
Arguments mk_io {W}.
Arguments spi_rx_buffer {W}.
Arguments host {W}.

Section Port.
Context {W : Type}.
#[local] Abbreviation IO := (flash_io W).
#[local] Abbreviation D := (w25qxx_dyn IO).
(** [spiExchange tx] clocks the bytes [tx] out and gives those the controller stored. *)
Context (spiStart : M W Z) (spiStop : M W unit) (spiExchange : list Z → M W (list Z))
  (spiAcquireBus spiSelect spiUnselect spiReleaseBus : M W unit)
  (chThdSleepMilliseconds chThdSleepMicroseconds : Z → M W unit)
  (print : string → M W unit) (chprintf : string → list Z → M W unit).

Definition on_host {A} (m : M W A) : M IO A := λ s,
  match m (host s) with
  | Ok a w => Ok a (mk_io (spi_rx_buffer s) w)
  | Fault f => Fault f
  end.

(** ** The interface *)

Definition w25qxx_interface_spi_qspi_init : M IO Z :=
  msg ← on_host spiStart;
  if decide (msg ≠ HAL_RET_SUCCESS) then mret 1 else mret 0.
Definition w25qxx_interface_spi_qspi_deinit : M IO Z := on_host spiStop;; mret 0.

(** The null pointer checks never fail here: a null pointer comes with a length of 0.  The
    cache calls have no effect on the bytes. *)
Definition w25qxx_interface_spi_qspi_write_read (x : xfer) : M IO (Z * list Z) :=
  let in_len := length (x_in x) in
  let out_len := Z.to_nat (x_out_len x) in
  let total_len := u32 (Z.of_nat in_len + x_out_len x) in
  if decide (total_len > Z.of_nat SPI_BUFFER_SIZE) then mret (1, []) else
  tx ← mlift OutOfBounds (memcpy_at 0 in_len (x_in x) (replicate SPI_BUFFER_SIZE 0));
  on_host spiAcquireBus;;
  on_host spiSelect;;
  stored ← on_host (spiExchange (take (Z.to_nat total_len) tx));
  mmodify (λ s, mk_io (write_at 0 stored (spi_rx_buffer s)) (host s));;
  rx ← mgets spi_rx_buffer;
  out ← mlift OutOfBounds (if decide (in_len + out_len ≤ SPI_BUFFER_SIZE)%nat
                           then Some (take out_len (drop in_len rx)) else None);
  on_host spiUnselect;;
  on_host spiReleaseBus;;
  mret (0, out).
Definition w25qxx_interface_delay_ms (ms : Z) : M IO unit := on_host (chThdSleepMilliseconds ms).
Definition w25qxx_interface_delay_us (us : Z) : M IO unit := on_host (chThdSleepMicroseconds us).

(** The handle after the link macros of [w25q_init]. *)
Definition flash_handle : w25qxx_handle IO :=
  mk_w25qxx (Some w25qxx_interface_spi_qspi_init) (Some w25qxx_interface_spi_qspi_deinit)
    (Some w25qxx_interface_spi_qspi_write_read) (Some w25qxx_interface_delay_ms)
    (Some w25qxx_interface_delay_us) (Some (λ msg, on_host (print msg))).

(** ** The port *)

Definition console (fmt : string) (args : list Z) : M D unit := on_platform (on_host (chprintf fmt args)).

Definition w25q_init : M D Z :=
  mmodify (λ d, mk_dyn 0 0 0 0 0 0 0 (replicate 262 0) (replicate 4097 0) (world d));;
  w25qxx_set_interface (Some flash_handle) W25QXX_INTERFACE_SPI;;
  w25qxx_set_type (Some flash_handle) W25Q64;;
  w25qxx_init (Some flash_handle);;
  '(res, ids) ← w25qxx_get_jedec_id (Some flash_handle);
  ids ← mlift Uninitialised (if decide (res = 0) then Some ids else None);
  console "Manufacturer: 0x%02x, Manufacturer ID: 0x%02x%02x" ids;;
  mret 0.
(** The result, always 0, and the bytes stored in the caller's buffer. *)
Definition w25q_read (addr size : Z) : M D (Z * list Z) :=
  console "w25q_read: addr: %ld, size: %ld" [addr; size];;
  '(_, out) ← w25qxx_read (Some flash_handle) (u32 addr) size;
  mret (0, out).
Definition w25q_write (addr : Z) (data : list Z) (size : Z) : M D Z :=
  console "w25q_write: addr: %ld, size: %ld" [addr; size];;
  w25qxx_write (Some flash_handle) (u32 addr) data size;;
  mret 0.
Fixpoint erase_loop (fuel : nat) (addr size i : Z) : M D unit :=
  match fuel with
  | O => mfail Diverged
  | S fuel =>
      if decide (i < size) then
        w25qxx_sector_erase_4k (Some flash_handle) (u32 (addr + i));;
        erase_loop fuel addr size (u32 (i + 4 * 1024))
      else mret tt
  end.
(** A turn for each sector and one more are enough. *)
Definition w25q_erase (addr size : Z) : M D Z :=
  erase_loop (Z.to_nat (size / 4096) + 2) addr size 0;;
  mret 0.
End Port.
