(* ===== verification/FlashPortProps.v ===== *)
(** * What the program's flash port promises

    [SpiFlash] is the data sheet's chip on the SPI; [interface_chip] derives the driver's
    contract from it for transfers of at most 64 bytes.  That is enough to erase and to
    read up to 59 bytes, and not enough to write: [flash_write_lost]. *)
From S2P Require Import Prelude W25qxx W25qxxOps W25qxxProps FlashPort.

Section Port.
Context {W : Type} (spiStart : M W Z) (spiStop : M W unit) (spiExchange : list Z → M W (list Z))
  (spiAcquireBus spiSelect spiUnselect spiReleaseBus : M W unit)
  (chThdSleepMilliseconds chThdSleepMicroseconds : Z → M W unit)
  (print : string → M W unit) (chprintf : string → list Z → M W unit).
#[local] Abbreviation IO := (flash_io W).
#[local] Abbreviation D := (w25qxx_dyn IO).
#[local] Abbreviation hd := (flash_handle spiStart spiStop spiExchange spiAcquireBus spiSelect
  spiUnselect spiReleaseBus chThdSleepMilliseconds chThdSleepMicroseconds print).
#[local] Abbreviation read := (w25q_read spiStart spiStop spiExchange spiAcquireBus spiSelect
  spiUnselect spiReleaseBus chThdSleepMilliseconds chThdSleepMicroseconds print chprintf).
#[local] Abbreviation write := (w25q_write spiStart spiStop spiExchange spiAcquireBus spiSelect
  spiUnselect spiReleaseBus chThdSleepMilliseconds chThdSleepMicroseconds print chprintf).
#[local] Abbreviation init := (w25q_init spiStart spiStop spiExchange spiAcquireBus spiSelect
  spiUnselect spiReleaseBus chThdSleepMilliseconds chThdSleepMicroseconds print chprintf).
#[local] Abbreviation erase := (w25q_erase spiStart spiStop spiExchange spiAcquireBus spiSelect
  spiUnselect spiReleaseBus chThdSleepMilliseconds chThdSleepMicroseconds print).

Lemma wp_on_host {A} (m : M W A) (s : IO) (Q : A → IO → Prop) :
  wp m (host s) (λ a w, Q a (mk_io (spi_rx_buffer s) w)) → wp (on_host m) s Q.
Proof. unfold wp, on_host. by destruct (m (host s)). Qed.

(** ** Writes *)

Section Lost.
(** Any HAL at all, and any observation of it that printing leaves as it is. *)
Context {O : Type} (obs : W → O).
Hypothesis print_obs : ∀ msg w, wp (print msg) w (λ _ w', obs w' = obs w).
Hypothesis console_obs : ∀ fmt args w, wp (chprintf fmt args) w (λ _ w', obs w' = obs w).

(** The handle after the start of the program, whatever its buffers and the chip hold. *)
Definition flash_started (d : D) : Prop :=
  inited d = 1 ∧ spi_qspi d = W25QXX_INTERFACE_SPI ∧ dual_quad_spi_enable d = 0 ∧
  address_mode d = W25QXX_ADDRESS_MODE_3_BYTE ∧ type d < W25Q256 ∧ length (buf_4k d) = 4097%nat.
(** The handle and the observation are as before. *)
Definition untouched (d d' : D) : Prop :=
  flash_started d' ∧ buf d' = buf d ∧ buf_4k d' = buf_4k d ∧
  spi_rx_buffer (world d') = spi_rx_buffer (world d) ∧ obs (host (world d')) = obs (host (world d)).

Lemma untouched_refl d : flash_started d → untouched d d.
Proof. done. Qed.
Lemma untouched_trans d d1 d2 : untouched d d1 → untouched d1 d2 → untouched d d2.
Proof. intros (_&H1&H2&H3&H4) (Hs&?&?&?&?). split; [exact Hs|]. split_and!; congruence. Qed.

Lemma debug_runs msg (d : D) : flash_started d → wp (flash_debug hd msg) d (λ _ d', untouched d d').
Proof.
  intros Hs. unfold flash_debug. apply wp_bind. eapply wp_lift; [done|].
  apply wp_on_platform, wp_on_host. eapply wp_mono; [apply print_obs|]. intros [] w' Hw.
  exact (conj Hs (conj eq_refl (conj eq_refl (conj eq_refl Hw)))).
Qed.
Lemma console_runs fmt args (d : D) : flash_started d → wp (console chprintf fmt args) d (λ _ d', untouched d d').
Proof.
  intros Hs. apply wp_on_platform, wp_on_host. eapply wp_mono; [apply console_obs|]. intros [] w' Hw.
  exact (conj Hs (conj eq_refl (conj eq_refl (conj eq_refl Hw)))).
Qed.

(** A transfer of more than 64 bytes fails before the bus is taken. *)
Lemma large_transfer bytes n (d : D) :
  64 < Z.of_nat (length bytes) + n < 2 ^ 32 →
  a_w25qxx_spi_write_read hd bytes n d = Ok (1, []) d.
Proof.
  intros Hn. unfold a_w25qxx_spi_write_read, transfer. etransitivity; [by eapply bind_lift|].
  unfold on_platform, mbind, M_bind, w25qxx_interface_spi_qspi_write_read. cbn [x_in x_out_len].
  rewrite u32_id by (unfold is_u32; lia). rewrite decide_True by (unfold SPI_BUFFER_SIZE; lia).
  by destruct d.
Qed.

Lemma large_read bad_mode addr n (d : D) :
  flash_started d → 59 < n < 2 ^ 31 →
  wp (read_with hd bad_mode addr n) d (λ r d', r = (1, []) ∧ untouched d d').
Proof.
  intros Hs Hn. destruct Hs as (Hi & H1 & H2 & H3 & H4 & H5).
  unfold read_with, with_address. apply wp_bind, wp_gets.
  assert (bus_of d = Single) as -> by (unfold bus_of; by rewrite H1, H2).
  apply wp_bind, wp_gets, wp_bind, wp_gets.
  assert (address_length d = Some 3) as -> by (unfold address_length; by rewrite H3).
  assert (needs_extended d = false) as -> by (unfold needs_extended; by rewrite andb_comm, bool_decide_eq_false_2 by lia).
  apply wp_bind, wp_ret. rewrite decide_False by (by intros []).
  apply wp_bind. eapply wp_ok; [apply large_transfer; simpl; lia|]. cbv beta iota. rewrite decide_True by done.
  wp_with debug_runs; [done|]. intros [] d1 Hd1. by apply wp_ret.
Qed.

Lemma write_fails fuel sp so sr addr data len (d : D) :
  flash_started d → wp (write_sectors hd (S fuel) sp so sr addr data len) d (λ r d', r = 4 ∧ untouched d d').
Proof.
  intros Hs. cbn [write_sectors]. unfold write_sector, a_w25qxx_read.
  apply wp_bind. eapply wp_seq; [apply large_read; [done|lia]|]. intros r d1 [-> Hd1].
  pose proof Hd1 as ((?&?&?&?&?&Hl) & _).
  apply wp_bind, wp_gets, wp_bind. eapply wp_lift; [apply (memcpy_ok 0 0); simpl; lia|].
  rewrite !take_0. cbn [app Nat.add length drop]. apply wp_bind, wp_modify.
  rewrite decide_True by done. wp_with debug_runs; [apply Hd1|]. intros [] d2 Hd2. apply wp_ret.
  rewrite decide_True by done. apply wp_ret. split; [done|]. eapply untouched_trans, Hd2. exact Hd1.
Qed.

Lemma driver_write_lost addr data len (d : D) :
  flash_started d → wp (w25qxx_write (Some hd) addr data len) d (λ r d', r = 4 ∧ untouched d d').
Proof.
  intros Hs. unfold w25qxx_write, flash_checked. apply wp_bind, wp_gets.
  rewrite (proj1 Hs), decide_False by lia. rewrite Nat.add_succ_r. by apply write_fails.
Qed.
Lemma port_write_lost addr data len (d : D) :
  flash_started d → wp (write addr data len) d (λ r d', r = 0 ∧ untouched d d').
Proof.
  intros Hs. unfold w25q_write. wp_with console_runs; [done|]. intros [] d1 Hd1.
  eapply wp_seq; [apply driver_write_lost, Hd1|]. intros r d2 [_ Hd2]. apply wp_ret. split; [done|]. by eapply untouched_trans.
Qed.

(** C14. No write reaches the chip: the sector it is in cannot be read through the program's buffer,
    the driver reports 4, and the port reports success. *)
Theorem flash_write_lost addr data len (d : D) :
  flash_started d →
  wp (w25qxx_write (Some hd) addr data len) d (λ r d', r = 4 ∧ untouched d d') ∧
  wp (write addr data len) d (λ r d', r = 0 ∧ untouched d d').
Proof. split; [by apply driver_write_lost|by apply port_write_lost]. Qed.
End Lost.

(** ** The chip on the SPI *)

(** The bytes of a frame: the instruction, then zeros while the chip answers. *)
Class SpiFlash (size : Z) (mem : W → Z → Z) (wel : W → bool) (busy : W → nat) : Prop := {
  spi_size : 0 <= size <= 2 ^ 24 ∧ size `mod` 4096 = 0;
  spi_bytes : ∀ w a, is_u8 (mem w a);
  spi_bus : ∀ m w, m ∈ [spiAcquireBus; spiSelect; spiUnselect; spiReleaseBus] →
    wp m w (λ _ w', busy w' = busy w ∧ wel w' = wel w ∧ ∀ a, mem w' a = mem w a);
  spi_status : ∀ w, wp (spiExchange [0x05; 0]) w (λ rx w',
    (∃ st s, rx = [st; s] ∧ (Z.land s 0x01 = 0 ↔ busy w = O)) ∧
    busy w' = busy w ∧ wel w' = wel w ∧ ∀ a, mem w' a = mem w a);
  spi_enable : ∀ w, busy w = O → wp (spiExchange [0x06]) w (λ rx w',
    (length rx ≤ 64)%nat ∧ busy w' = O ∧ wel w' = true ∧ ∀ a, mem w' a = mem w a);
  spi_read : ∀ w addr n, busy w = O → 0 <= addr → (0 < n ≤ 59)%nat → addr + Z.of_nat n <= size →
    wp (spiExchange ((0x0B :: addr_bytes 3 addr ++ [0]) ++ replicate n 0)) w (λ rx w',
      (∃ pre, length pre = 5%nat ∧ rx = pre ++ (mem w <$> seqZ addr (Z.of_nat n))) ∧
      busy w' = O ∧ wel w' = wel w ∧ ∀ a, mem w' a = mem w a);
  spi_erase : ∀ w addr, busy w = O → wel w = true → 0 <= addr < size → addr `mod` 4096 = 0 →
    wp (spiExchange (0x20 :: addr_bytes 3 addr)) w (λ rx w',
      (busy w' ≤ 399 * 100)%nat ∧ wel w' = false ∧
      ∀ a, mem w' a = if decide (addr <= a < addr + 4096) then 0xFF else mem w a);
  spi_program : ∀ w addr data, busy w = O → wel w = true → Forall is_u8 data →
    (0 < length data ≤ 60)%nat → 0 <= addr → addr + Z.of_nat (length data) <= size →
    addr `mod` 256 + Z.of_nat (length data) <= 256 →
    wp (spiExchange ((0x02 :: addr_bytes 3 addr) ++ data)) w (λ rx w',
      (busy w' ≤ 299)%nat ∧ wel w' = false ∧
      ∀ a, mem w' a = if decide (addr <= a < addr + Z.of_nat (length data))
                      then Z.land (mem w a) (data !!! Z.to_nat (a - addr)) else mem w a);
  spi_sleep_ms : ∀ w, wp (chThdSleepMilliseconds 1) w (λ _ w',
    (busy w' ≤ busy w - 100)%nat ∧ wel w' = wel w ∧ ∀ a, mem w' a = mem w a);
  spi_sleep_us : ∀ w, wp (chThdSleepMicroseconds 10) w (λ _ w',
    (busy w' ≤ busy w - 1)%nat ∧ wel w' = wel w ∧ ∀ a, mem w' a = mem w a) }.

Section Chip.
Context (size : Z) (mem : W → Z → Z) (wel : W → bool) (busy : W → nat) `{!SpiFlash size mem wel busy}.

(** The chip is as before. *)
Definition same (w w' : W) : Prop := busy w' = busy w ∧ wel w' = wel w ∧ ∀ a, mem w' a = mem w a.
#[local] Instance same_trans : Transitive same.
Proof. intros w1 w2 w3 (H1&H2&H3) (H4&H5&H6). split_and!; [congruence..|]. intros a. by rewrite H6, H3. Qed.

Lemma bus_runs m (s : IO) (Q : unit → IO → Prop) :
  m ∈ [spiAcquireBus; spiSelect; spiUnselect; spiReleaseBus] →
  (∀ w, same (host s) w → Q tt (mk_io (spi_rx_buffer s) w)) → wp (on_host m) s Q.
Proof. intros Hm HQ. apply wp_on_host. eapply wp_mono; [by apply spi_bus|]. intros [] w Hw. by apply HQ. Qed.

(** A transfer through the interface is an exchange of the bytes and as many zeros as
    are read. *)
Lemma interface_runs bytes n (s : IO) (P : W → list Z → W → Prop) (Q : Z * list Z → IO → Prop) :
  0 <= n → Z.of_nat (length bytes) + n <= 64 →
  (∀ w, same (host s) w → wp (spiExchange (bytes ++ replicate (Z.to_nat n) 0)) w (P w)) →
  (∀ rx w0 w w' rest, same (host s) w0 → P w0 rx w → same w w' →
     Q (0, take (Z.to_nat n) (drop (length bytes) (rx ++ rest))) (mk_io (rx ++ rest) w')) →
  hook_runs (spi_qspi_write_read hd) (spi bytes n) s Q.
Proof.
  intros Hn Hl HP HQ. change (wp (w25qxx_interface_spi_qspi_write_read spiExchange spiAcquireBus
    spiSelect spiUnselect spiReleaseBus (spi bytes n)) s Q).
  unfold w25qxx_interface_spi_qspi_write_read, SPI_BUFFER_SIZE. cbn [x_in x_out_len spi].
  rewrite u32_id by (unfold is_u32; lia). rewrite decide_False by lia.
  apply wp_bind. eapply wp_lift; [apply memcpy_ok; [done|rewrite length_replicate; lia]|].
  assert (take (Z.to_nat (Z.of_nat (length bytes) + n))
    (take 0 (replicate 64 0) ++ take (length bytes) bytes ++ drop (0 + length bytes) (replicate 64 0)) =
    bytes ++ replicate (Z.to_nat n) 0) as ->.
  { rewrite take_0, firstn_all, Nat.add_0_l, drop_replicate. cbn [app].
    rewrite Z2Nat.inj_add, Nat2Z.id, take_app_add', take_replicate by lia. do 2 f_equal. lia. }
  apply wp_bind, bus_runs; [set_solver|]. intros w1 H1.
  apply wp_bind, bus_runs; [set_solver|]. intros w2 H2.
  apply wp_bind, wp_on_host. eapply wp_mono; [apply HP; by transitivity w1|]. intros rx w3 HPw.
  apply wp_bind, wp_modify, wp_bind, wp_gets, wp_bind. eapply wp_lift; [by rewrite decide_True by lia|].
  apply wp_bind, bus_runs; [set_solver|]. intros w4 H4.
  apply wp_bind, bus_runs; [set_solver|]. intros w5 H5.
  apply wp_ret. eapply (HQ rx w2 w3 w5); [by transitivity w1|done|by transitivity w4].
Qed.

#[local] Abbreviation mem' := (λ s : IO, mem (host s)).
#[local] Abbreviation wel' := (λ s : IO, wel (host s)).
#[local] Abbreviation busy' := (λ s : IO, busy (host s)).

(** A command without an answer. *)
Lemma command_runs bytes (s : IO) (P : W → list Z → W → Prop) (Q : Z * list Z → IO → Prop) :
  (length bytes ≤ 64)%nat →
  (∀ w, same (host s) w → wp (spiExchange bytes) w (P w)) →
  (∀ rx w0 w w' rest, same (host s) w0 → P w0 rx w → same w w' → Q (0, []) (mk_io rest w')) →
  hook_runs (spi_qspi_write_read hd) (spi bytes 0) s Q.
Proof.
  intros Hl HP HQ. eapply (interface_runs _ _ _ P); [done|lia| |].
  - intros w Hw. rewrite app_nil_r. by apply HP.
  - intros rx w0 w w' rest H0 HPw Hw. by eapply HQ.
Qed.

Lemma interface_chip : FlashChip hd size 64 mem' wel' busy'.
Proof.
  split.
  - apply spi_size.
  - intros s a. apply spi_bytes.
  - intros s. eapply interface_runs; [done|simpl; lia|intros w _; apply (spi_status w)|].
    intros rx w0 w w' rest (Hb0&Hw0&Hm0) ((st & b & -> & Hb) & Hb1 & Hw1 & Hm1) (Hb2&Hw2&Hm2). simpl.
    rewrite Hb2, Hb1, Hw2, Hw1, Hb0, Hw0 in *. split_and!; [|done..|intros a; by rewrite Hm2, Hm1, Hm0].
    exists b. by rewrite take_0.
  - intros s Hs. eapply command_runs; [simpl; lia|intros w (Hb&_); apply (spi_enable w); congruence|].
    intros rx w0 w w' rest (Hb0&Hw0&Hm0) (_ & Hb1 & Hw1 & Hm1) (Hb2&Hw2&Hm2). simpl.
    split_and!; [done|congruence..|intros a; by rewrite Hm2, Hm1, Hm0].
  - intros s addr n Hs Ha Hn Hl Hc. eapply interface_runs; [lia|simpl; lia| |].
    + intros w (Hb&_). apply (spi_read w); [congruence|lia..].
    + intros rx w0 w w' rest (Hb0&Hw0&Hm0) ((pre & Hpre & ->) & Hb1 & Hw1 & Hm1) (Hb2&Hw2&Hm2). cbn [host].
      rewrite <-app_assoc, drop_app_length' by done.
      rewrite Z2Nat.id, take_app_length' by (rewrite ?length_fmap, ?length_seqZ; lia).
      split_and!; [|congruence..|intros a; by rewrite Hm2, Hm1, Hm0].
      f_equal. apply list_fmap_ext. intros i x _. apply Hm0.
  - intros s addr Hb Hw Ha Hmod. eapply command_runs; [simpl; lia| |].
    + intros w (Hb0&Hw0&_). apply (spi_erase w addr); [congruence..|done|done].
    + intros rx w0 w w' rest (Hb0&Hw0&Hm0) (Hb1 & Hw1 & Hm1) (Hb2&Hw2&Hm2). cbn [host].
      split_and!; [done|by rewrite Hb2|congruence|]. intros a. by rewrite Hm2, Hm1, Hm0.
  - intros s addr data Hb Hw Hd Hn Hc Ha Hl Hp. eapply command_runs; [simpl; lia| |].
    + intros w (Hb0&Hw0&_). apply (spi_program w addr data); first [congruence|done|lia].
    + intros rx w0 w w' rest (Hb0&Hw0&Hm0) (Hb1 & Hw1 & Hm1) (Hb2&Hw2&Hm2). cbn [host].
      split_and!; [done|by rewrite Hb2|congruence|]. intros a. by rewrite Hm2, Hm1, Hm0.
  - intros s. apply wp_on_host, (spi_sleep_ms (host s)).
  - intros s. apply wp_on_host, (spi_sleep_us (host s)).
Qed.

Lemma erase_loop_runs fuel addr len i (d : D) :
  idle busy' d → 0 <= addr → addr `mod` 4096 = 0 → 0 <= i → i `mod` 4096 = 0 →
  addr + (len + 4095) / 4096 * 4096 <= size → len - i + 4096 <= Z.of_nat fuel * 4096 → (0 < fuel)%nat →
  wp (erase_loop spiStart spiStop spiExchange spiAcquireBus spiSelect spiUnselect spiReleaseBus
        chThdSleepMilliseconds chThdSleepMicroseconds print fuel addr len i) d
    (λ _ d', idle busy' d' ∧ ∀ a, flash mem' d' a =
       if decide (addr + i <= a < addr + (len + 4095) / 4096 * 4096) then 0xFF else flash mem' d a).
Proof.
  pose proof interface_chip as HC. destruct spi_size as [Hmax _].
  revert i d. induction fuel as [|fuel IH]; [lia|]. intros i d Hi Ha Hm Hi0 Him Hs Hf _. cbn [erase_loop].
  pose proof (Z.div_mod (len + 4095) 4096). pose proof (Z.mod_pos_bound (len + 4095) 4096 eq_refl).
  pose proof (Z.div_mod i 4096).
  case_decide as Hlt.
  - assert (i + 4096 <= (len + 4095) / 4096 * 4096) as Htop by lia.
    rewrite !u32_id by (unfold is_u32; lia).
    eapply wp_seq; [apply (sector_erase_runs hd size 64 mem' wel' busy' (addr + i)); [done|lia|by rewrite Zplus_mod, Hm, Him]|].
    intros r d1 (_ & Hi1 & _ & Hf1).
    eapply wp_mono; [apply IH; try done; try lia; by rewrite Zplus_mod, Him|].
    intros [] d2 (Hi2 & Hf2). split; [done|]. intros a. rewrite Hf2, Hf1. unfold erased. repeat case_decide; lia || done.
  - apply wp_ret. split; [done|]. intros a. rewrite decide_False by lia. done.
Qed.

Lemma port_erase_runs addr len (d : D) :
  idle busy' d → 0 <= addr → addr `mod` 4096 = 0 → 0 <= len →
  addr + (len + 4095) / 4096 * 4096 <= size →
  wp (erase addr len) d (λ r d', r = 0 ∧ idle busy' d' ∧ ∀ a, flash mem' d' a =
    if decide (addr <= a < addr + (len + 4095) / 4096 * 4096) then 0xFF else flash mem' d a).
Proof.
  intros Hi Ha Hm Hl Hs. pose proof (Z.div_mod len 4096). pose proof (Z.mod_pos_bound len 4096 eq_refl).
  pose proof (Z.div_pos len 4096 Hl). unfold w25q_erase.
  eapply wp_seq; [apply erase_loop_runs; try done; lia|]. intros [] d' (Hi' & Hf). apply wp_ret.
  split; [done|]. split; [done|]. intros a. by rewrite Hf, Z.add_0_r.
Qed.

(** C16. Erasing a range that starts at a sector: every sector that it touches holds 0xFF, the others
    keep their bytes, the driver's retries end, and the result is 0. *)
Theorem w25q_erase_correct addr len (d : D) :
  idle busy' d → 0 <= addr → addr `mod` 4096 = 0 → 0 <= len →
  addr + (len + 4095) / 4096 * 4096 <= size →
  wp (erase addr len) d (λ r d', r = 0 ∧ idle busy' d' ∧ ∀ a, flash mem' d' a =
    if decide (addr <= a < addr + (len + 4095) / 4096 * 4096) then 0xFF else flash mem' d a).
Proof. apply port_erase_runs. Qed.

(** The console does not touch the chip. *)
Hypothesis console_same : ∀ fmt args w, wp (chprintf fmt args) w (λ _ w', same w w').
Hypothesis print_same : ∀ msg w, wp (print msg) w (λ _ w', same w w').

Lemma idle_started (d : D) : idle busy' d → flash_started d.
Proof. by intros ((?&?&?&?&?&_&?&_)&_). Qed.

Lemma same_all w w' : (∀ a, (busy w', wel w', mem w' a) = (busy w, wel w, mem w a)) → same w w'.
Proof. intros H. split_and!; [specialize (H 0); congruence..|]. intros a. specialize (H a). congruence. Qed.
Lemma port_read_runs addr len (d : D) :
  idle busy' d → 0 <= addr → 0 < len → addr + len <= size →
  wp (read addr len) d (λ r d', r = (0, if decide (len <= 59) then flash mem' d <$> seqZ addr len else []) ∧
    idle busy' d' ∧ ∀ a, flash mem' d' a = flash mem' d a).
Proof.
  intros Hi Ha Hl Hs. pose proof interface_chip as HC. destruct spi_size as [Hmax _].
  unfold w25q_read. rewrite u32_id by (unfold is_u32; lia).
  apply wp_bind, wp_on_platform, wp_on_host. eapply wp_mono; [apply console_same|]. intros [] w (Hb & _ & Hm).
  set (d1 := set_world _ d). assert (idle busy' d1) as Hi1 by (split; [apply Hi|]; simpl; rewrite Hb; apply Hi).
  unfold w25qxx_read, flash_checked_out. apply wp_bind, wp_bind, wp_gets.
  rewrite (proj1 (proj1 Hi1)), decide_False by lia. case_decide as Hlen.
  - eapply wp_mono; [apply (read_runs hd size 64 mem' wel' busy' 4 addr len); [done|lia..]|].
    intros [res out] d2 (_ & Hout & Hi2 & _ & Hm2). cbn [snd] in Hout. subst out. apply wp_ret. split; [|split; [done|]].
    + f_equal. apply list_fmap_ext. intros i a _. apply Hm.
    + intros a. rewrite Hm2. apply Hm.
  - eapply wp_mono; [apply (wp_all _ _ 0); intros a;
      apply (large_read (λ w, (busy w, wel w, mem w a))); [|by apply idle_started|lia]|].
    { intros msg w'. eapply wp_mono; [apply print_same|]. intros [] w2 (Hb2&Hw2&Hm2). by rewrite Hb2, Hw2, Hm2. }
    intros [r out] d2 Hall. pose proof (Hall 0) as (Hr & (?&?&?&?&?&?) & ? & Hb4 & _). injection Hr as -> ->.
    destruct (same_all (host (world d1)) (host (world d2))) as (Hb2 & _ & Hm2); [intros a; apply Hall|].
    apply wp_ret. split; [done|]. split; [split; [|by rewrite Hb2; apply Hi1]|].
    + destruct Hi1 as [(?&?&?&?&?&?&?&?) _]. split_and!; congruence.
    + intros a. unfold flash. rewrite Hm2. apply Hm.
Qed.

(** Reading: up to 59 bytes come from the chip.  For more than that nothing is read and the
    caller's buffer stays as it is, and the result is still 0. *)
Theorem w25q_read_correct addr len (d : D) :
  idle busy' d → 0 <= addr → 0 < len → addr + len <= size →
  wp (read addr len) d (λ r d', r = (0, if decide (len <= 59) then flash mem' d <$> seqZ addr len else [])).
Proof. intros. eapply wp_mono; [by apply port_read_runs|]. by intros r d' [? _]. Qed.

(** A write: nothing happens on the chip, and the result is 0. *)
Lemma port_write_runs addr data len (d : D) :
  idle busy' d → wp (write addr data len) d (λ r d', r = 0 ∧ idle busy' d' ∧ ∀ a, flash mem' d' a = flash mem' d a).
Proof.
  intros Hi. eapply wp_mono; [apply (wp_all _ _ 0); intros a;
      apply (port_write_lost (λ w, (busy w, wel w, mem w a))); [..|by apply idle_started]|].
  { intros msg w. eapply wp_mono; [apply print_same|]. intros [] w2 (Hb2&Hw2&Hm2). by rewrite Hb2, Hw2, Hm2. }
  { intros fmt args w. eapply wp_mono; [apply console_same|]. intros [] w2 (Hb2&Hw2&Hm2). by rewrite Hb2, Hw2, Hm2. }
  intros r d2 Hall. pose proof (Hall 0) as (-> & (?&?&?&?&?&?) & ? & Hb4 & _).
  destruct (same_all (host (world d)) (host (world d2))) as (Hb2 & _ & Hm2); [intros a; apply Hall|].
  destruct Hi as [(?&?&?&?&?&?&?&?) Hb]. split; [done|]. split; [split; [split_and!; congruence|by rewrite Hb2]|exact Hm2].
Qed.

(** ** The start *)

(** The commands of the start: the identification of a W25Q64, and a reset that takes no
    more than 30 microseconds. *)
Class SpiIdent : Prop := {
  ident_release : ∀ w, wp (spiExchange [0xAB; 0xFF; 0xFF; 0xFF; 0]) w (λ rx w', same w w');
  ident_enable_reset : ∀ w, wp (spiExchange [0x66]) w (λ rx w', same w w');
  ident_reset : ∀ w, busy w = O → wp (spiExchange [0x99]) w (λ rx w', (busy w' ≤ 3)%nat ∧ ∀ a, mem w' a = mem w a);
  ident_manufacturer : ∀ w, busy w = O → wp (spiExchange [0x90; 0; 0; 0; 0; 0]) w (λ rx w',
    (∃ pre, length pre = 4%nat ∧ rx = pre ++ [0xEF; 0x16]) ∧ same w w');
  ident_jedec : ∀ w, busy w = O → wp (spiExchange [0x9F; 0; 0; 0]) w (λ rx w',
    (∃ st, rx = [st; 0xEF; 0x40; 0x17]) ∧ same w w');
  ident_sleep : ∀ w, wp (chThdSleepMilliseconds 10) w (λ _ w', (busy w' ≤ busy w - 1000)%nat ∧ ∀ a, mem w' a = mem w a) }.
Context `{SpiIdent0 : !SpiIdent}.
Hypothesis start_ok : ∀ w, wp spiStart w (λ msg w', msg = HAL_RET_SUCCESS ∧ same w w').

(** The handle of a W25Q64 on the program's bus with [inited = i], and the chip with the memory
    [m] ready after at most [n] steps. *)
Definition booting (i : Z) (n : nat) (m : Z → Z) (d : D) : Prop :=
  (inited d = i ∧ (i = 1 → address_mode d = W25QXX_ADDRESS_MODE_3_BYTE)) ∧
  (spi_qspi d = W25QXX_INTERFACE_SPI ∧ dual_quad_spi_enable d = 0 ∧ type d = W25Q64) ∧
  (length (buf d) = 262%nat ∧ length (buf_4k d) = 4097%nat ∧ Forall is_u8 (buf_4k d)) ∧
  (busy' (world d) ≤ n)%nat ∧ ∀ a, flash mem' d a = m a.
Lemma booting_world i n n' m (d : D) (s : IO) :
  booting i n m d → (busy (host s) ≤ n')%nat → (∀ a, mem (host s) a = m a) → booting i n' m (set_world s d).
Proof. intros (Hi&Hc&Hb&_) Hn Hm. exact (conj Hi (conj Hc (conj Hb (conj Hn Hm)))). Qed.

Lemma wp_init_check op msg code (k : list Z → M D Z) (d : D) (Q : Z → D → Prop) :
  wp op d (λ r d', r.1 = 0 ∧ wp (k r.2) d' Q) → wp (init_check hd op msg code k) d Q.
Proof. intros Hop. eapply wp_seq; [exact Hop|]. intros [r out] d' [Hr Hk]. simpl in Hr. by subst r. Qed.

(** A transfer of the start, given what the exchange stores and leaves. *)
Lemma boot_transfer i n n' m bytes k (d : D) (R : list Z → Prop) (Q : Z * list Z → D → Prop) :
  booting i n m d → 0 <= k → Z.of_nat (length bytes) + k <= 64 →
  (∀ w, (busy w ≤ n)%nat → (∀ a, mem w a = m a) →
     wp (spiExchange (bytes ++ replicate (Z.to_nat k) 0)) w (λ rx w', R rx ∧ (busy w' ≤ n')%nat ∧ ∀ a, mem w' a = m a)) →
  (∀ rx rest d', R rx → booting i n' m d' → Q (0, take (Z.to_nat k) (drop (length bytes) (rx ++ rest))) d') →
  wp (a_w25qxx_spi_write_read hd bytes k) d Q.
Proof.
  intros Hd Hk Hl HR HQ. pose proof Hd as (_&_&_&Hb&Hm).
  eapply wp_transfer; [|intros r w' Hr; exact Hr].
  eapply (interface_runs bytes k (world d) (λ _ rx w', R rx ∧ (busy w' ≤ n')%nat ∧ ∀ a, mem w' a = m a)); [done..| |].
  - intros w (Hb0&_&Hm0). apply HR; [by rewrite Hb0|]. intros a. rewrite Hm0. apply Hm.
  - intros rx w0 w w' rest _ (HRx&Hb1&Hm1) (Hb2&_&Hm2). apply HQ; [done|].
    eapply booting_world; [done|simpl; by rewrite Hb2|]. intros a. simpl. by rewrite Hm2.
Qed.
Lemma boot_command i n n' m cmd (d : D) (Q : Z * list Z → D → Prop) :
  booting i n m d →
  (∀ w, (busy w ≤ n)%nat → (∀ a, mem w a = m a) →
     wp (spiExchange [cmd]) w (λ rx w', (busy w' ≤ n')%nat ∧ ∀ a, mem w' a = m a)) →
  (∀ d', booting i n' m d' → Q (0, []) d') →
  wp (instruct hd Single cmd) d Q.
Proof.
  intros Hd HR HQ. eapply (boot_transfer i n n' m [cmd] 0 d (λ _, True)); [done|done|simpl; lia| |].
  - intros w Hb Hm. eapply wp_mono; [by apply HR|]. by intros rx w' [].
  - intros rx rest d' _ Hd'. by apply HQ.
Qed.

Lemma boot_reset (k : M D Z) m (d : D) Q :
  booting 0 0 m d → (∀ d', booting 0 0 m d' → wp k d' Q) → wp (init_reset hd Single k) d Q.
Proof.
  intros Hd Hk. unfold init_reset. apply wp_init_check.
  eapply (boot_transfer 0 0 0 m [0xAB; 0xFF; 0xFF; 0xFF] 1 d (λ _, True)); [done|done|simpl; lia| |].
  { intros w Hb Hm. eapply wp_mono; [apply (ident_release w)|]. intros rx w' (Hb'&_&Hm').
    split_and!; [done|by rewrite Hb'|intros a; by rewrite Hm']. }
  intros rx rest d1 _ Hd1. split; [done|]. apply wp_init_check.
  eapply (boot_command 0 0 0 m); [done| |].
  { intros w Hb Hm. eapply wp_mono; [apply (ident_enable_reset w)|]. intros rx' w' (Hb'&_&Hm').
    split; [by rewrite Hb'|intros a; by rewrite Hm']. }
  intros d2 Hd2. split; [done|]. apply wp_init_check. eapply (boot_command 0 0 3 m); [done| |].
  { intros w Hb Hm. eapply wp_mono; [apply (ident_reset w); lia|]. intros rx' w' (Hb'&Hm').
    split; [done|intros a; by rewrite Hm']. }
  intros d3 Hd3. split; [done|]. apply wp_bind. unfold flash_delay_ms. apply wp_bind.
  eapply wp_lift; [done|]. apply wp_on_platform, wp_on_host. eapply wp_mono; [apply ident_sleep|].
  intros [] w (Hb&Hm). apply Hk. pose proof Hd3 as (_&_&_&Hb3&Hm3). simpl in Hb3.
  eapply booting_world; [done|simpl; lia|]. intros a. simpl. rewrite Hm. apply Hm3.
Qed.

Lemma boot_identify (k : M D Z) m (d : D) Q :
  booting 0 0 m d → (∀ d', booting 0 0 m d' → wp k d' Q) → wp (init_identify hd Single k) d Q.
Proof.
  intros Hd Hk. unfold init_identify. apply wp_init_check.
  eapply (boot_transfer 0 0 0 m [0x90; 0; 0; 0] 2 d (λ rx, ∃ pre, length pre = 4%nat ∧ rx = pre ++ [0xEF; 0x16])); [done|done|simpl; lia| |].
  { intros w Hb Hm. eapply wp_mono; [apply (ident_manufacturer w); lia|]. intros rx w' (Hrx&Hb'&_&Hm').
    split_and!; [done|by rewrite Hb'|intros a; by rewrite Hm']. }
  intros rx rest d1 (pre & Hpre & ->) Hd1. split; [done|].
  rewrite <-app_assoc, drop_app_length' by done.
  apply wp_bind. eapply wp_lift; [done|]. apply wp_bind. eapply wp_lift; [done|]. apply wp_bind, wp_gets.
  pose proof Hd1 as (_&(_&_&Ht)&_). rewrite Ht. apply wp_init_check, wp_ret. split; [done|]. by apply Hk.
Qed.

Lemma boot_init m (d : D) :
  booting 0 0 m d → wp (w25qxx_init (Some hd)) d (λ r d', r = 0 ∧ booting 1 0 m d').
Proof.
  intros Hd. unfold w25qxx_init. cbn [flash_handle debug_print spi_qspi_init spi_qspi_deinit spi_qspi_write_read W25qxx.delay_us W25qxx.delay_ms].
  pose proof Hd as (_&(H1&H2&_)&_&Hb&Hm). apply wp_bind, wp_gets.
  assert (bus_of d = Single) as -> by (unfold bus_of; by rewrite H1, H2).
  apply wp_bind, wp_on_platform. unfold w25qxx_interface_spi_qspi_init. apply wp_bind, wp_on_host.
  eapply wp_mono; [apply start_ok|]. intros msg w (->&Hb'&_&Hm').
  rewrite decide_False by (by intros []). apply wp_ret. rewrite decide_False by (by intros []).
  apply boot_reset with (m := m).
  { eapply booting_world; [done|simpl; by rewrite Hb'|]. intros a. simpl. rewrite Hm'. apply Hm. }
  intros d1 Hd1. apply boot_identify with (m := m); [done|]. intros d2 (_&Hc2&Hl2&Hb2&Hm2).
  apply wp_bind, wp_modify, wp_ret. split; [done|]. split_and!; try done; first [apply Hc2|apply Hl2].
Qed.

Lemma boot_jedec m (d : D) :
  booting 1 0 m d →
  wp (w25qxx_get_jedec_id (Some hd)) d (λ r d', r = (0, [0xEF; 0x40; 0x17]) ∧ booting 1 0 m d').
Proof.
  intros Hd. pose proof Hd as ((Hi&_)&(H1&H2&_)&_). unfold w25qxx_get_jedec_id, flash_checked_out.
  apply wp_bind, wp_gets. rewrite Hi, decide_False by lia. apply wp_bind, wp_gets.
  assert (bus_of d = Single) as -> by (unfold bus_of; by rewrite H1, H2).
  apply wp_bind, wp_bind.
  eapply (boot_transfer 1 0 0 m [0x9F] 3 d (λ rx, ∃ st, rx = [st; 0xEF; 0x40; 0x17])); [done|done|simpl; lia| |].
  { intros w Hb Hm. eapply wp_mono; [apply (ident_jedec w); lia|]. intros rx w' (Hrx&Hb'&_&Hm').
    split_and!; [done|by rewrite Hb'|intros a; by rewrite Hm']. }
  intros rx rest d' (st & ->) Hd'. cbv beta iota. rewrite decide_False by (by intros []). apply wp_ret.
  cbv beta iota. rewrite decide_False by (by intros []). apply wp_bind. eapply wp_lift; [done|]. by apply wp_ret.
Qed.

Lemma port_init_runs (d : D) :
  busy' (world d) = O →
  wp init d (λ r d', r = 0 ∧ idle busy' d' ∧ type d' = W25Q64 ∧ ∀ a, flash mem' d' a = flash mem' d a).
Proof.
  intros Hb. unfold w25q_init. apply wp_bind, wp_modify, wp_bind, wp_bind, wp_modify, wp_ret.
  apply wp_bind, wp_bind, wp_modify, wp_ret.
  eapply wp_seq; [apply (boot_init (flash mem' d))|].
  { split_and!; try done; [apply Forall_replicate; split; lia|simpl; lia]. }
  intros r d1 [_ Hd1]. eapply wp_seq; [by apply boot_jedec|]. intros r' d2 [-> Hd2].
  apply wp_bind. eapply wp_lift; [done|]. apply wp_bind, wp_on_platform, wp_on_host.
  eapply wp_mono; [apply console_same|]. intros [] w (Hb'&_&Hm'). apply wp_ret. split; [done|].
  destruct Hd2 as ((Hi&Ha)&(H1&H2&H3)&(H4&H5&H6)&Hb2&Hm2).
  split; [|split; [done|intros a; unfold flash; simpl; rewrite Hm'; apply Hm2]].
  split; [|simpl; rewrite Hb'; simpl in Hb2; lia].
  split_and!; try done; [by apply Ha|simpl; by rewrite H3].
Qed.
(** C15. The start of the flash: whatever the handle held, it ends initialised for a W25Q64 on one
    line with three byte addresses, an idle chip and the memory as it was. *)
Theorem w25q_init_correct (d : D) :
  busy' (world d) = O →
  wp init d (λ r d', r = 0 ∧ idle busy' d' ∧ type d' = W25Q64 ∧ ∀ a, flash mem' d' a = flash mem' d a).
Proof. apply port_init_runs. Qed.
End Chip.
End Port.

(** ** A chip with these laws *)

Definition frame_exchange (tx : list Z) : M chip (list Z) :=
  match tx with
  | 5 :: _ => '(_, out) ← chip_xfer (spi [5] 1); mret (0 :: out)
  | 11 :: b2 :: b1 :: b0 :: z :: rest =>
      '(_, out) ← chip_xfer (spi [11; b2; b1; b0; z] (Z.of_nat (length rest)));
      mret ([0; 0; 0; 0; 0] ++ out)
  | 0x90 :: _ => mret [0; 0; 0; 0; 0xEF; 0x16]
  | 0x9F :: _ => mret [0; 0xEF; 0x40; 0x17]
  | _ => chip_xfer (spi tx 0);; mret (replicate (length tx) 0)
  end.
Definition chip_sleep (steps : Z → nat) (t : Z) : M chip unit := chip_wait (steps t).
Definition sleep_ms : Z → M chip unit := chip_sleep (λ t, 100 * Z.to_nat t)%nat.
Definition sleep_us : Z → M chip unit := chip_sleep (λ t, Z.to_nat t / 10)%nat.

Lemma chip_spi size :
  0 <= size <= 2 ^ 24 → size `mod` 4096 = 0 →
  SpiFlash frame_exchange (mret tt) (mret tt) (mret tt) (mret tt) sleep_ms sleep_us size cell latch remaining.
Proof.
  intros Hs Hm. destruct (chip_flash size Hs Hm) as [_ Hbytes _ _ Hread Herase Hprogram Hms Hus].
  split; [done|done|..]; intros.
  - repeat (apply elem_of_cons in H as [->|H]; [done|]). by apply elem_of_nil in H.
  - split; [|done]. exists 0, (match remaining w with O => 0 | _ => 3 end). by destruct (remaining w).
  - split; [simpl; lia|done].
  - change (wp ('(_, out) ← chip_xfer (spi (0x0B :: addr_bytes 3 addr ++ [0]) (Z.of_nat (length (replicate n 0))));
      mret ([0; 0; 0; 0; 0] ++ out)) w (λ rx w', (∃ pre, length pre = 5%nat ∧ rx = pre ++ (cell w <$> seqZ addr (Z.of_nat n))) ∧
      remaining w' = O ∧ latch w' = latch w ∧ ∀ a, cell w' a = cell w a)).
    rewrite length_replicate. eapply wp_seq; [apply (Hread w addr (Z.of_nat n)); first [done|lia]|].
    intros r w' (-> & Hb & Hw). apply wp_ret. split; [|done]. by exists [0; 0; 0; 0; 0].
  - eapply (wp_seq (chip_xfer (spi (0x20 :: addr_bytes 3 addr) 0))); [by apply (Herase w addr)|].
    intros r w' (_ & H'). by apply wp_ret.
  - eapply (wp_seq (chip_xfer (spi ((0x02 :: addr_bytes 3 addr) ++ data) 0))); [apply (Hprogram w addr data); first [done|lia]|].
    intros r w' (_ & H'). by apply wp_ret.
  - by split.
  - by split.
Qed.

Definition demo_io : w25qxx_dyn (flash_io chip) :=
  mk_dyn 1 W25Q64 W25QXX_ADDRESS_MODE_3_BYTE 0 0 0 W25QXX_INTERFACE_SPI (replicate 262 0) (replicate 4097 0)
    (mk_io (replicate 64 0) demo_chip).

Definition quiet_print : string → M chip unit := λ _, mret tt.
Definition quiet_console : string → list Z → M chip unit := λ _ _, mret tt.
Lemma demo_spi : SpiFlash frame_exchange (mret tt) (mret tt) (mret tt) (mret tt) sleep_ms sleep_us 8388608 cell latch remaining.
Proof. apply chip_spi; [lia|done]. Qed.
Lemma demo_io_idle : idle (λ s : flash_io chip, remaining (host s)) demo_io.
Proof. split; [|done]. repeat split; try done. apply Forall_replicate. split; lia. Qed.

Lemma demo_ident : SpiIdent frame_exchange sleep_ms cell latch remaining.
Proof.
  split; intros; [done..|split; [simpl; lia|done]| | |split; [simpl; lia|done]].
  - split; [|done]. by exists [0; 0; 0; 0].
  - split; [|done]. by exists 0.
Qed.
Lemma w25q_init_correct_witness :
  wp (w25q_init (mret 0) (mret tt) frame_exchange (mret tt) (mret tt) (mret tt) (mret tt) sleep_ms sleep_us
        quiet_print quiet_console) demo_io (λ r d', r = 0 ∧ idle (λ s : flash_io chip, remaining (host s)) d' ∧
      type d' = W25Q64 ∧
      ∀ a, flash (λ s : flash_io chip, cell (host s)) d' a = flash (λ s : flash_io chip, cell (host s)) demo_io a).
Proof.
  refine (w25q_init_correct _ _ _ _ _ _ _ _ _ _ _ 8388608 cell latch remaining (SpiFlash0 := demo_spi) _
    (SpiIdent0 := demo_ident) _ demo_io eq_refl); done.
Defined.

(** A HAL whose exchange must never be called. *)
Lemma flash_write_lost_witness :
  let no_exchange (tx : list Z) : M chip (list Z) := mfail NullCall in
  wp (w25qxx_write (Some (flash_handle (mret 0) (mret tt) no_exchange (mret tt) (mret tt) (mret tt) (mret tt)
        sleep_ms sleep_us quiet_print)) 4094 [1; 2; 3] 3) demo_io (λ r d', r = 4 ∧ untouched id demo_io d') ∧
  wp (w25q_write (mret 0) (mret tt) no_exchange (mret tt) (mret tt) (mret tt) (mret tt)
        sleep_ms sleep_us quiet_print quiet_console 4094 [1; 2; 3] 3) demo_io (λ r d', r = 0 ∧ untouched id demo_io d').
Proof.
  intros no_exchange. refine (flash_write_lost _ _ _ _ _ _ _ _ _ _ _ id _ _ 4094 [1; 2; 3] 3 demo_io _).
  - done.
  - done.
  - by split_and!.
Defined.
Lemma w25q_erase_correct_witness :
  wp (w25q_erase (mret 0) (mret tt) frame_exchange (mret tt) (mret tt) (mret tt) (mret tt) sleep_ms sleep_us
        quiet_print 0 100) demo_io (λ r d', r = 0 ∧ idle (λ s : flash_io chip, remaining (host s)) d' ∧
      ∀ a, flash (λ s : flash_io chip, cell (host s)) d' a =
        if decide (0 <= a < 0 + (100 + 4095) / 4096 * 4096) then 0xFF
        else flash (λ s : flash_io chip, cell (host s)) demo_io a).
Proof.
  refine (w25q_erase_correct _ _ _ _ _ _ _ _ _ _ 8388608 cell latch remaining (SpiFlash0 := demo_spi) 0 100
    demo_io demo_io_idle _ _ _ _); [lia|done|lia|by apply Z.leb_le].
Defined.
Lemma w25q_read_correct_witness :
  wp (w25q_read (mret 0) (mret tt) frame_exchange (mret tt) (mret tt) (mret tt) (mret tt) sleep_ms sleep_us
        quiet_print quiet_console 4090 10) demo_io (λ r _,
    r = (0, if decide (10 <= 59) then flash (λ s : flash_io chip, cell (host s)) demo_io <$> seqZ 4090 10 else [])).
Proof.
  refine (w25q_read_correct _ _ _ _ _ _ _ _ _ _ _ 8388608 cell latch remaining (SpiFlash0 := demo_spi) _ _ 4090 10
    demo_io demo_io_idle _ _ _); [done|done|lia|lia|lia].
Defined.
