(* ===== verification/Fal.v ===== *)
(** * The flash abstraction layer: [src/src/flashdb/fal/src]

    [fal.c], [fal_flash.c] and [fal_partition.c] as src/src/flashdb/fal/inc/fal_cfg.h sets
    them up: one device, [w25q64_flash] of fdb_port.c, and a partition table in the program.
    A partition is addressed by its place in the table, a device by its place in the device
    table.  The assertions are compiled out, as [FAL_DEBUG] is 0; [log_e] prints through
    the parameter [printf], without its arguments. *)
From S2P Require Import Prelude W25qxx FlashPort.

Definition FAL_PART_MAGIC_WORD : Z := 0x45503130.
Definition FAL_DEV_NAME_MAX : nat := 24.

(** The value of a 32 bit [long]. *)
Definition to_long (z : Z) : Z := if decide (u32 z < 2147483648) then u32 z else u32 z - 4294967296.

Record fal_partition : Type := mk_part {
  magic_word : Z; part_name : string; flash_name : string; offset : Z; part_len : Z; reserved : Z }.

(** Reading gives the status and the bytes stored in the buffer. *)
Record fal_flash_dev (S : Type) : Type := mk_dev {
  dev_name : string; dev_addr : Z; dev_len : Z; blk_size : Z;
  ops_init : option (M S Z);
  ops_read : Z → Z → M S (Z * list Z);
  ops_write : Z → list Z → Z → M S Z;
  ops_erase : Z → Z → M S Z;
  write_gran : Z }.
Arguments mk_dev {S}.
Arguments dev_name {S}.
Arguments dev_addr {S}.
Arguments dev_len {S}.
Arguments blk_size {S}.
Arguments ops_init {S}.
Arguments ops_read {S}.
Arguments ops_write {S}.
Arguments ops_erase {S}.
Arguments write_gran {S}.

(** The static variables of the three files, and the platform.  [part_flash_cache] has as many
    entries as [partition_table_def]. *)
Record fal_state (S : Type) : Type := mk_fal {
  fal_init_ok : Z; flash_init_ok : Z; part_init_ok : Z;
  partition_table : option (list fal_partition); partition_table_len : nat;
  part_flash_cache : list (option nat); platform : S }.
Arguments mk_fal {S}.
Arguments fal_init_ok {S}.
Arguments flash_init_ok {S}.
Arguments part_init_ok {S}.
Arguments partition_table {S}.
Arguments partition_table_len {S}.
Arguments part_flash_cache {S}.
Arguments platform {S}.

Section Fal.
Context {S : Type} (device_table : list (fal_flash_dev S)) (partition_table_def : list fal_partition)
  (printf : string → M S unit).
#[local] Abbreviation F := (fal_state S).

Definition fal_start (s : S) : F :=
  mk_fal 0 0 0 None 0 (replicate (length partition_table_def) None) s.
Definition set_fal_ok (v : Z) (s : F) : F :=
  mk_fal v (flash_init_ok s) (part_init_ok s) (partition_table s) (partition_table_len s) (part_flash_cache s) (platform s).
Definition set_flash_ok (v : Z) (s : F) : F :=
  mk_fal (fal_init_ok s) v (part_init_ok s) (partition_table s) (partition_table_len s) (part_flash_cache s) (platform s).
Definition set_part_ok (v : Z) (s : F) : F :=
  mk_fal (fal_init_ok s) (flash_init_ok s) v (partition_table s) (partition_table_len s) (part_flash_cache s) (platform s).
Definition set_table (t : option (list fal_partition)) (n : nat) (s : F) : F :=
  mk_fal (fal_init_ok s) (flash_init_ok s) (part_init_ok s) t n (part_flash_cache s) (platform s).
Definition set_cache (c : list (option nat)) (s : F) : F :=
  mk_fal (fal_init_ok s) (flash_init_ok s) (part_init_ok s) (partition_table s) (partition_table_len s) c (platform s).

Definition on_flash {A} (m : M S A) : M F A := λ s,
  match m (platform s) with
  | Ok a p => Ok a (mk_fal (fal_init_ok s) (flash_init_ok s) (part_init_ok s) (partition_table s)
                      (partition_table_len s) (part_flash_cache s) p)
  | Fault f => Fault f
  end.
Definition log_e (msg : string) : M F unit := on_flash (printf msg).

(** ** Devices *)

Fixpoint init_devices (devs : list (fal_flash_dev S)) : M F unit :=
  match devs with
  | [] => mret tt
  | dev :: devs =>
      match ops_init dev with Some f => on_flash f;; mret tt | None => mret tt end;;
      init_devices devs
  end.
Definition fal_flash_init : M F Z :=
  ok ← mgets flash_init_ok;
  if decide (ok ≠ 0) then mret 0 else
  init_devices device_table;;
  mmodify (set_flash_ok 1);;
  mret 0.

(** [strncmp] of at most 24 characters. *)
Definition same_name (a b : string) : bool :=
  String.eqb (String.substring 0 FAL_DEV_NAME_MAX a) (String.substring 0 FAL_DEV_NAME_MAX b).
Fixpoint find_device (devs : list (fal_flash_dev S)) (i : nat) (name : string) : option nat :=
  match devs with
  | [] => None
  | dev :: devs => if same_name name (dev_name dev) then Some i else find_device devs (1 + i) name
  end.
Definition fal_flash_device_find (name : string) : option nat := find_device device_table 0 name.
Definition device (i : nat) : M F (fal_flash_dev S) := mlift OutOfBounds (device_table !! i).

(** ** Partitions *)

(** The loop of [check_and_update_part_cache] from entry [i] on, with [n] to go. *)
Fixpoint update_cache (table : list fal_partition) (n i : nat) : M F Z :=
  match n with
  | O => mret 0
  | Datatypes.S n =>
      p ← mlift OutOfBounds (table !! i);
      match fal_flash_device_find (flash_name p) with
      | None => update_cache table n (1 + i)
      | Some k =>
          dev ← device k;
          if decide (offset p >= to_long (dev_len dev)) then
            log_e "Initialize failed! Partition(%s) offset address(%ld) out of flash bound(<%d).";;
            t ← mgets partition_table;
            mmodify (set_table t 0);;
            mret (-1)
          else
            cache ← mgets part_flash_cache;
            if decide (i < length cache)%nat
            then mmodify (set_cache (<[i := Some k]> cache));; update_cache table n (1 + i)
            else mfail OutOfBounds
      end
  end.
Definition check_and_update_part_cache (table : list fal_partition) (len : nat) : M F Z :=
  update_cache table len 0.

Definition fal_partition_init : M F Z :=
  ok ← mgets part_init_ok;
  if decide (ok ≠ 0) then len ← mgets partition_table_len; mret (Z.of_nat len) else
  mmodify (set_table (Some partition_table_def) (length partition_table_def));;
  res ← check_and_update_part_cache partition_table_def (length partition_table_def);
  (if decide (res ≠ 0) then mret tt else mmodify (set_part_ok 1));;
  len ← mgets partition_table_len;
  mret (Z.of_nat len).

Fixpoint find_part (table : option (list fal_partition)) (n i : nat) (name : string) : M F (option nat) :=
  match n with
  | O => mret None
  | Datatypes.S n =>
      t ← mlift NullCall table;
      p ← mlift OutOfBounds (t !! i);
      if String.eqb name (part_name p) then mret (Some i) else find_part table n (1 + i) name
  end.
Definition fal_partition_find (name : string) : M F (option nat) :=
  table ← mgets partition_table;
  len ← mgets partition_table_len;
  find_part table len 0 name.
Definition flash_device_find_by_part (part : nat) : M F (option nat) :=
  cache ← mgets part_flash_cache;
  mlift OutOfBounds (cache !! part).
Definition fal_get_partition_table : M F (option (list fal_partition) * nat) :=
  len ← mgets partition_table_len;
  table ← mgets partition_table;
  mret (table, len).
Definition fal_set_partition_table_temp (table : list fal_partition) (len : nat) : M F unit :=
  check_and_update_part_cache table len;;
  mmodify (set_table (Some table) len).

(** The fields of the partition a pointer into the table leads to. *)
Definition part_at (part : nat) : M F fal_partition :=
  table ← mgets partition_table;
  t ← mlift NullCall table;
  mlift OutOfBounds (t !! part).

(** The checks of an access: the code -1, or the partition and its device. *)
Definition fal_access {A} (out_of_bound no_device failed : string) (none : A) (part : nat) (addr size : Z)
    (op : fal_flash_dev S → Z → M S (Z * A)) : M F (Z * A) :=
  p ← part_at part;
  if decide (u32 (addr + size) > part_len p) then
    log_e out_of_bound;; mret (-1, none)
  else
    dev ← flash_device_find_by_part part;
    match dev with
    | None =>
        log_e no_device;; mret (-1, none)
    | Some k =>
        dev ← device k;
        '(ret, a) ← on_flash (op dev (to_long (offset p + addr)));
        (if decide (ret < 0) then log_e failed else mret tt);;
        mret (ret, a)
    end.
Definition without {A} (m : M S A) : M S (A * unit) := a ← m; mret (a, tt).
Definition fal_partition_read (part : nat) (addr size : Z) : M F (Z * list Z) :=
  fal_access "Partition read error! Partition address out of bound."
    "Partition read error! Don't found flash device(%s) of the partition(%s)."
    "Partition read error! Flash device(%s) read error!" [] part addr size (λ dev at_, ops_read dev at_ size).
Definition fal_partition_write (part : nat) (addr : Z) (data : list Z) (size : Z) : M F Z :=
  '(ret, _) ← fal_access "Partition write error! Partition address out of bound."
    "Partition write error!  Don't found flash device(%s) of the partition(%s)."
    "Partition write error! Flash device(%s) write error!" tt part addr size (λ dev at_, without (ops_write dev at_ data size));
  mret ret.
Definition fal_partition_erase (part : nat) (addr size : Z) : M F Z :=
  '(ret, _) ← fal_access "Partition erase error! Partition address out of bound."
    "Partition erase error! Don't found flash device(%s) of the partition(%s)."
    "Partition erase error! Flash device(%s) erase error!" tt part addr size (λ dev at_, without (ops_erase dev at_ size));
  mret ret.
Definition fal_partition_erase_all (part : nat) : M F Z :=
  p ← part_at part;
  fal_partition_erase part 0 (part_len p).

(** ** The start *)

Definition fal_init : M F Z :=
  result ← fal_flash_init;
  result ← (if decide (result < 0) then mret result else fal_partition_init);
  ok ← mgets fal_init_ok;
  (if decide (result > 0 ∧ ok = 0) then
     mmodify (set_fal_ok 1);;
     log_e "Flash Abstraction Layer (V%s) initialize success."
   else if decide (result <= 0) then
     mmodify (set_fal_ok 0);;
     log_e "Flash Abstraction Layer (V%s) initialize failed."
   else mret tt);;
  mret result.
Definition fal_init_check : M F Z := mgets fal_init_ok.
End Fal.

(** ** The configuration of the program *)

Section Config.
Context {W : Type} (spiStart : M W Z) (spiStop : M W unit) (spiExchange : list Z → M W (list Z))
  (spiAcquireBus spiSelect spiUnselect spiReleaseBus : M W unit)
  (chThdSleepMilliseconds chThdSleepMicroseconds : Z → M W unit)
  (print : string → M W unit) (chprintf : string → list Z → M W unit).

Definition w25q64_flash : fal_flash_dev (w25qxx_dyn (flash_io W)) :=
  mk_dev "w25q64" 0 (8 * 1024 * 1024) (4 * 1024)
    (Some (w25q_init spiStart spiStop spiExchange spiAcquireBus spiSelect spiUnselect spiReleaseBus
             chThdSleepMilliseconds chThdSleepMicroseconds print chprintf))
    (w25q_read spiStart spiStop spiExchange spiAcquireBus spiSelect spiUnselect spiReleaseBus
             chThdSleepMilliseconds chThdSleepMicroseconds print chprintf)
    (w25q_write spiStart spiStop spiExchange spiAcquireBus spiSelect spiUnselect spiReleaseBus
             chThdSleepMilliseconds chThdSleepMicroseconds print chprintf)
    (w25q_erase spiStart spiStop spiExchange spiAcquireBus spiSelect spiUnselect spiReleaseBus
             chThdSleepMilliseconds chThdSleepMicroseconds print)
    1.
Definition FAL_FLASH_DEV_TABLE : list (fal_flash_dev (w25qxx_dyn (flash_io W))) := [w25q64_flash].
Definition FAL_PART_TABLE : list fal_partition :=
  [mk_part FAL_PART_MAGIC_WORD "kvdb1" "w25q64" 0 (1 * 1024 * 1024) 0].
End Config.
