(* ===== verification/FalProps.v ===== *)
(** * What the flash abstraction layer promises on the program's flash

    The layer of [Fal.v] with the device and the partition of the program, over the port of
    [FlashPort.v] and a chip on the SPI. *)
From S2P Require Import Prelude W25qxx W25qxxOps W25qxxProps FlashPort FlashPortProps Fal.

Section Kvdb.
Context {W : Type} (spiStart : M W Z) (spiStop : M W unit) (spiExchange : list Z → M W (list Z))
  (spiAcquireBus spiSelect spiUnselect spiReleaseBus : M W unit)
  (chThdSleepMilliseconds chThdSleepMicroseconds : Z → M W unit)
  (print : string → M W unit) (chprintf : string → list Z → M W unit).
#[local] Abbreviation D := (w25qxx_dyn (flash_io W)).
Context (printf : string → M D unit).
Context (size : Z) (mem : W → Z → Z) (wel : W → bool) (busy : W → nat)
  `{SpiFlash0 : !SpiFlash spiExchange spiAcquireBus spiSelect spiUnselect spiReleaseBus
      chThdSleepMilliseconds chThdSleepMicroseconds size mem wel busy}
  `{SpiIdent0 : !SpiIdent spiExchange chThdSleepMilliseconds mem wel busy}.
#[local] Abbreviation mem' := (λ s : flash_io W, mem (host s)).
#[local] Abbreviation busy' := (λ s : flash_io W, busy (host s)).
#[local] Abbreviation table := (FAL_FLASH_DEV_TABLE spiStart spiStop spiExchange spiAcquireBus spiSelect spiUnselect
  spiReleaseBus chThdSleepMilliseconds chThdSleepMicroseconds print chprintf).
#[local] Abbreviation init := (fal_init table FAL_PART_TABLE printf).
#[local] Abbreviation erase := (fal_partition_erase table printf).

(** Printing does not touch the chip or the handle, and the SPI starts. *)
Hypothesis console_same : ∀ fmt args w, wp (chprintf fmt args) w (λ _ w', same mem wel busy w w').
Hypothesis printf_same : ∀ msg d, wp (printf msg) d (λ _ d', ∃ s, d' = set_world s d ∧ same mem wel busy (host (world d)) (host s)).
Hypothesis start_ok : ∀ w, wp spiStart w (λ msg w', msg = HAL_RET_SUCCESS ∧ same mem wel busy w w').

(** The layer after its start, with an idle chip whose memory is [m]. *)
Definition fal_ready (m : Z → Z) (s : fal_state D) : Prop :=
  fal_init_ok s = 1 ∧ partition_table s = Some FAL_PART_TABLE ∧ part_flash_cache s = [Some 0%nat] ∧
  partition_table_len s = 1%nat ∧ idle busy' (platform s) ∧ ∀ a, flash mem' (platform s) a = m a.

Lemma wp_on_flash {A} (op : M D A) (s : fal_state D) (Q : A → fal_state D → Prop) :
  wp op (platform s) (λ a p, Q a (mk_fal (fal_init_ok s) (flash_init_ok s) (part_init_ok s) (partition_table s)
                      (partition_table_len s) (part_flash_cache s) p)) → wp (on_flash op) s Q.
Proof. unfold wp, on_flash. by destruct (op (platform s)). Qed.

Lemma log_runs m msg (s : fal_state D) (Q : unit → fal_state D → Prop) :
  fal_ready m s → (∀ s', fal_ready m s' → Q tt s') → wp (log_e printf msg) s Q.
Proof.
  intros (H1&H2&H3&H4&(Hc&Hb)&Hm) HQ. apply wp_on_flash. eapply wp_mono; [apply printf_same|].
  intros [] d (w & -> & Hb'&_&Hm'). apply HQ. refine (conj H1 (conj H2 (conj H3 (conj H4 (conj (conj Hc _) _))))); simpl.
  - by rewrite Hb'.
  - intros a. rewrite <-Hm. apply Hm'.
Qed.

Lemma fal_init_runs (d : D) :
  busy' (world d) = O →
  wp init (fal_start FAL_PART_TABLE d) (λ r s, r = 1 ∧ fal_ready (flash mem' d) s).
Proof.
  intros Hb. unfold fal_init, fal_flash_init. apply wp_bind, wp_bind, wp_gets. cbn [fal_start flash_init_ok].
  rewrite decide_False by (by intros []). apply wp_bind. cbn [init_devices FAL_FLASH_DEV_TABLE ops_init w25q64_flash].
  apply wp_bind, wp_bind, wp_on_flash.
  eapply wp_mono; [by eapply (port_init_runs _ _ _ _ _ _ _ _ _ print chprintf size mem wel busy)|].
  intros r p (_ & Hi & _ & Hm). apply wp_ret. apply wp_ret. apply wp_bind, wp_modify, wp_ret.
  apply wp_bind. rewrite decide_False by lia. unfold fal_partition_init.
  apply wp_bind, wp_gets. cbn [set_flash_ok part_init_ok]. rewrite decide_False by (by intros []).
  apply wp_bind, wp_modify, wp_bind. unfold check_and_update_part_cache. cbn [length FAL_PART_TABLE update_cache].
  apply wp_bind. eapply wp_lift; [done|]. cbn [flash_name].
  change (fal_flash_device_find table "w25q64") with (Some 0%nat). cbv beta iota.
  apply wp_bind. eapply wp_lift; [done|]. cbn [offset w25q64_flash dev_len]. rewrite decide_False by (intros Hge; by apply Hge).
  apply wp_bind, wp_gets, wp_bind, wp_modify, wp_ret.
  rewrite decide_False by (by intros []). apply wp_bind, wp_modify, wp_bind, wp_gets, wp_ret.
  apply wp_bind, wp_gets. cbn.
  apply wp_bind, wp_bind, wp_modify.
  eapply (log_runs (flash mem' d)); [by split_and!|]. intros s Hs. by apply wp_ret.
Qed.

Lemma find_kvdb1 m (s : fal_state D) (Q : option nat → fal_state D → Prop) :
  fal_ready m s → (fal_ready m s → Q (Some 0%nat) s) → wp (fal_partition_find "kvdb1") s Q.
Proof.
  intros Hs HQ. pose proof Hs as (_&Ht&_&Hl&_). unfold fal_partition_find.
  apply wp_bind, wp_gets, wp_bind, wp_gets. rewrite Ht, Hl. cbn [find_part].
  apply wp_bind. eapply wp_lift; [done|]. apply wp_bind. eapply wp_lift; [done|].
  apply wp_ret. by apply HQ.
Qed.

(** The partition [kvdb1] of 1 MB, found by its name after the start: an erase that fits in it erases the
    sectors of its range and nothing else; one that does not gives -1 and erases nothing. *)
Definition kvdb_erase (addr len : Z) : M (fal_state D) Z :=
  init;;
  part ← fal_partition_find "kvdb1";
  match part with Some p => erase p addr len | None => mret 1 end.

Lemma part_erase_runs m addr len (s : fal_state D) :
  fal_ready m s → 1024 * 1024 <= size → 0 <= addr → addr `mod` 4096 = 0 → 0 <= len → addr + len < 2 ^ 32 →
  wp (erase 0%nat addr len) s (λ r s', if decide (addr + len <= 1024 * 1024)
    then r = 0 ∧ fal_ready (λ a, if decide (addr <= a < addr + (len + 4095) / 4096 * 4096) then 0xFF else m a) s'
    else r = -1 ∧ fal_ready m s').
Proof.
  intros Hs Hsz Ha Hmod Hl Hal. pose proof Hs as (H1&Ht&Hca&Hlen&Hi&Hm).
  unfold fal_partition_erase, fal_access, part_at. apply wp_bind, wp_bind, wp_bind, wp_gets.
  rewrite Ht. apply wp_bind. eapply wp_lift; [done|]. eapply wp_lift; [done|]. cbn [part_len].
  rewrite u32_id by (unfold is_u32; lia).
  change (1 * 1024 * 1024) with (1024 * 1024).
  destruct (decide (addr + len <= 1024 * 1024)) as [Hb|Hb]; [rewrite decide_False by lia|rewrite decide_True by lia].
  - apply wp_bind. unfold flash_device_find_by_part. apply wp_bind, wp_gets. rewrite Hca. eapply wp_lift; [done|].
    apply wp_bind. eapply wp_lift; [done|]. apply wp_bind, wp_on_flash. unfold without. apply wp_bind.
    cbn [ops_erase w25q64_flash offset]. rewrite Z.add_0_l.
    assert (to_long addr = addr) as -> by (unfold to_long; rewrite u32_id by (unfold is_u32; lia); by rewrite decide_True by lia).
    pose proof (Z.div_mod (len + 4095) 4096). pose proof (Z.mod_pos_bound (len + 4095) 4096 eq_refl).
    pose proof (Z.div_mod addr 4096).
    eapply wp_mono; [apply (port_erase_runs _ _ _ _ _ _ _ _ _ print size mem wel busy); [done..|lia]|].
    intros r p (-> & Hi' & Hm'). apply wp_ret. rewrite decide_False by lia. apply wp_bind, wp_ret, wp_ret.
    apply wp_ret. split; [done|]. refine (conj H1 (conj Ht (conj Hca (conj Hlen (conj Hi' _))))).
    intros a. cbn [platform]. rewrite Hm'. case_decide; [done|apply Hm].
  - apply wp_bind. eapply log_runs; [done|]. intros s' Hs'. by apply wp_ret, wp_ret.
Qed.

(** C17. From the start of the layer, whatever the flash held, on an idle chip and for ranges that start
    at a sector and end below 2^32: an erase of a range that fits in the 1 MB partition gives
    0 (where fal.h promises the size erased) and sets the sectors the range touches to 0xFF and
    nothing else, and one that does not fit gives -1 and erases nothing; in both cases the bytes
    outside of the partition do not change. *)
Theorem fal_erase_confined addr len (d : D) :
  busy' (world d) = O → 1024 * 1024 <= size → 0 <= addr → addr `mod` 4096 = 0 → 0 <= len → addr + len < 2 ^ 32 →
  wp (kvdb_erase addr len) (fal_start FAL_PART_TABLE d) (λ r s,
    r = (if decide (addr + len <= 1024 * 1024) then 0 else -1) ∧
    (∀ a, flash mem' (platform s) a =
       if decide (addr + len <= 1024 * 1024 ∧ addr <= a < addr + (len + 4095) / 4096 * 4096) then 0xFF else flash mem' d a) ∧
    ∀ a, 1024 * 1024 <= a → flash mem' (platform s) a = flash mem' d a).
Proof.
  intros Hb Hsz Ha Hmod Hl Hal. unfold kvdb_erase. wp_with fal_init_runs; [done|]. intros r s [_ Hs].
  apply wp_bind. eapply find_kvdb1; [done|]. intros _.
  eapply wp_mono; [by apply (part_erase_runs (flash mem' d))|]. intros r' s' Hr.
  pose proof (Z.div_mod (len + 4095) 4096). pose proof (Z.mod_pos_bound (len + 4095) 4096 eq_refl).
  pose proof (Z.div_mod addr 4096).
  destruct (decide (addr + len <= 1024 * 1024)) as [Hle|Hle]; destruct Hr as (-> & _&_&_&_&_&Hm); split_and!; try done.
  - intros a. rewrite Hm. repeat case_decide; lia || done.
  - intros a Ho. rewrite Hm, decide_False by lia. done.
  - intros a. rewrite Hm, decide_False by lia. done.
Qed.
End Kvdb.

(** ** The demonstration chip *)

Lemma demo_same w : same cell latch remaining w w.
Proof. done. Qed.
Lemma fal_erase_confined_witness :
  let d := demo_io in
  wp (kvdb_erase (mret 0) (mret tt) frame_exchange (mret tt) (mret tt) (mret tt) (mret tt) sleep_ms sleep_us
        quiet_print quiet_console (λ _, mret tt) 4096 5000) (fal_start FAL_PART_TABLE d) (λ r s,
    r = (if decide (4096 + 5000 <= 1024 * 1024) then 0 else -1) ∧
    (∀ a, flash (λ s : flash_io chip, cell (host s)) (platform s) a =
       if decide (4096 + 5000 <= 1024 * 1024 ∧ 4096 <= a < 4096 + (5000 + 4095) / 4096 * 4096) then 0xFF
       else flash (λ s : flash_io chip, cell (host s)) d a) ∧
    ∀ a, 1024 * 1024 <= a → flash (λ s : flash_io chip, cell (host s)) (platform s) a =
      flash (λ s : flash_io chip, cell (host s)) d a).
Proof.
  intros d. refine (fal_erase_confined _ _ _ _ _ _ _ _ _ _ _ _ 8388608 cell latch remaining (SpiFlash0 := demo_spi)
    (SpiIdent0 := demo_ident) _ _ _ 4096 5000 d eq_refl _ _ _ _ _); try lia; try done.
  intros msg d'. by exists (world d'); destruct d'.
Defined.
