(* ===== verification/FdbUtils.v ===== *)
(** * FlashDB's low level: [src/src/flashdb/src/fdb_utils.c] and [fdb.c]

    The checksum, the status tables and the accesses to the flash, as
    src/src/flashdb/inc/fdb_cfg.h sets them up: the flash abstraction layer below, a write
    granularity of one bit, an erased byte 0xFF.  An assertion that fails loops for ever, which
    is the fault [Diverged]; [FDB_INFO] prints through [printf], without its arguments. *)
From S2P Require Import Prelude W25qxx Fal.

(** ** The checksum *)

Definition crc32_table : list Z :=
  [0x00000000; 0x77073096; 0xee0e612c; 0x990951ba; 0x076dc419; 0x706af48f; 0xe963a535; 0x9e6495a3;
   0x0edb8832; 0x79dcb8a4; 0xe0d5e91e; 0x97d2d988; 0x09b64c2b; 0x7eb17cbd; 0xe7b82d07; 0x90bf1d91;
   0x1db71064; 0x6ab020f2; 0xf3b97148; 0x84be41de; 0x1adad47d; 0x6ddde4eb; 0xf4d4b551; 0x83d385c7;
   0x136c9856; 0x646ba8c0; 0xfd62f97a; 0x8a65c9ec; 0x14015c4f; 0x63066cd9; 0xfa0f3d63; 0x8d080df5;
   0x3b6e20c8; 0x4c69105e; 0xd56041e4; 0xa2677172; 0x3c03e4d1; 0x4b04d447; 0xd20d85fd; 0xa50ab56b;
   0x35b5a8fa; 0x42b2986c; 0xdbbbc9d6; 0xacbcf940; 0x32d86ce3; 0x45df5c75; 0xdcd60dcf; 0xabd13d59;
   0x26d930ac; 0x51de003a; 0xc8d75180; 0xbfd06116; 0x21b4f4b5; 0x56b3c423; 0xcfba9599; 0xb8bda50f;
   0x2802b89e; 0x5f058808; 0xc60cd9b2; 0xb10be924; 0x2f6f7c87; 0x58684c11; 0xc1611dab; 0xb6662d3d;
   0x76dc4190; 0x01db7106; 0x98d220bc; 0xefd5102a; 0x71b18589; 0x06b6b51f; 0x9fbfe4a5; 0xe8b8d433;
   0x7807c9a2; 0x0f00f934; 0x9609a88e; 0xe10e9818; 0x7f6a0dbb; 0x086d3d2d; 0x91646c97; 0xe6635c01;
   0x6b6b51f4; 0x1c6c6162; 0x856530d8; 0xf262004e; 0x6c0695ed; 0x1b01a57b; 0x8208f4c1; 0xf50fc457;
   0x65b0d9c6; 0x12b7e950; 0x8bbeb8ea; 0xfcb9887c; 0x62dd1ddf; 0x15da2d49; 0x8cd37cf3; 0xfbd44c65;
   0x4db26158; 0x3ab551ce; 0xa3bc0074; 0xd4bb30e2; 0x4adfa541; 0x3dd895d7; 0xa4d1c46d; 0xd3d6f4fb;
   0x4369e96a; 0x346ed9fc; 0xad678846; 0xda60b8d0; 0x44042d73; 0x33031de5; 0xaa0a4c5f; 0xdd0d7cc9;
   0x5005713c; 0x270241aa; 0xbe0b1010; 0xc90c2086; 0x5768b525; 0x206f85b3; 0xb966d409; 0xce61e49f;
   0x5edef90e; 0x29d9c998; 0xb0d09822; 0xc7d7a8b4; 0x59b33d17; 0x2eb40d81; 0xb7bd5c3b; 0xc0ba6cad;
   0xedb88320; 0x9abfb3b6; 0x03b6e20c; 0x74b1d29a; 0xead54739; 0x9dd277af; 0x04db2615; 0x73dc1683;
   0xe3630b12; 0x94643b84; 0x0d6d6a3e; 0x7a6a5aa8; 0xe40ecf0b; 0x9309ff9d; 0x0a00ae27; 0x7d079eb1;
   0xf00f9344; 0x8708a3d2; 0x1e01f268; 0x6906c2fe; 0xf762575d; 0x806567cb; 0x196c3671; 0x6e6b06e7;
   0xfed41b76; 0x89d32be0; 0x10da7a5a; 0x67dd4acc; 0xf9b9df6f; 0x8ebeeff9; 0x17b7be43; 0x60b08ed5;
   0xd6d6a3e8; 0xa1d1937e; 0x38d8c2c4; 0x4fdff252; 0xd1bb67f1; 0xa6bc5767; 0x3fb506dd; 0x48b2364b;
   0xd80d2bda; 0xaf0a1b4c; 0x36034af6; 0x41047a60; 0xdf60efc3; 0xa867df55; 0x316e8eef; 0x4669be79;
   0xcb61b38c; 0xbc66831a; 0x256fd2a0; 0x5268e236; 0xcc0c7795; 0xbb0b4703; 0x220216b9; 0x5505262f;
   0xc5ba3bbe; 0xb2bd0b28; 0x2bb45a92; 0x5cb36a04; 0xc2d7ffa7; 0xb5d0cf31; 0x2cd99e8b; 0x5bdeae1d;
   0x9b64c2b0; 0xec63f226; 0x756aa39c; 0x026d930a; 0x9c0906a9; 0xeb0e363f; 0x72076785; 0x05005713;
   0x95bf4a82; 0xe2b87a14; 0x7bb12bae; 0x0cb61b38; 0x92d28e9b; 0xe5d5be0d; 0x7cdcefb7; 0x0bdbdf21;
   0x86d3d2d4; 0xf1d4e242; 0x68ddb3f8; 0x1fda836e; 0x81be16cd; 0xf6b9265b; 0x6fb077e1; 0x18b74777;
   0x88085ae6; 0xff0f6a70; 0x66063bca; 0x11010b5c; 0x8f659eff; 0xf862ae69; 0x616bffd3; 0x166ccf45;
   0xa00ae278; 0xd70dd2ee; 0x4e048354; 0x3903b3c2; 0xa7672661; 0xd06016f7; 0x4969474d; 0x3e6e77db;
   0xaed16a4a; 0xd9d65adc; 0x40df0b66; 0x37d83bf0; 0xa9bcae53; 0xdebb9ec5; 0x47b2cf7f; 0x30b5ffe9;
   0xbdbdf21c; 0xcabac28a; 0x53b39330; 0x24b4a3a6; 0xbad03605; 0xcdd70693; 0x54de5729; 0x23d967bf;
   0xb3667a2e; 0xc4614ab8; 0x5d681b02; 0x2a6f2b94; 0xb40bbe37; 0xc30c8ea1; 0x5a05df1b; 0x2d02ef8d].

(** [buf] has at least [size] bytes in C; here it is the bytes themselves. *)
Definition crc32_step (crc b : Z) : option Z :=
  e ← crc32_table !! Z.to_nat (Z.land (Z.lxor crc b) 0xFF);
  Some (Z.lxor e (Z.shiftr crc 8)).
Fixpoint crc32_loop (crc : Z) (buf : list Z) : option Z :=
  match buf with
  | [] => Some crc
  | b :: buf => crc ← crc32_step crc b; crc32_loop crc buf
  end.
Definition fdb_calc_crc32 (crc : Z) (buf : list Z) : option Z :=
  crc ← crc32_loop (Z.lxor crc 0xFFFFFFFF) buf;
  Some (Z.lxor crc 0xFFFFFFFF).

(** ** Status tables *)

Definition FDB_WRITE_GRAN : nat := 1.
Definition FDB_BYTE_ERASED : Z := 0xFF.
Definition FDB_BYTE_WRITTEN : Z := 0x00.
Definition FDB_STATUS_TABLE_SIZE (status_number : nat) : nat := (status_number * FDB_WRITE_GRAN + 7) / 8.

(** The index of the byte that changes, [None] for [SIZE_MAX], and the table. *)
Definition _fdb_set_status (status_table : list Z) (status_num status_index : nat) : option (option nat * list Z) :=
  let size := FDB_STATUS_TABLE_SIZE status_num in
  t ← memcpy_at 0 size (replicate size FDB_BYTE_ERASED) status_table;
  if decide (0 < status_index)%nat then
    let byte_index := ((status_index - 1) / 8)%nat in
    b ← t !! byte_index;
    Some (Some byte_index, <[byte_index := Z.land b (Z.shiftr 0x00ff (Z.of_nat (status_index `mod` 8)))]> t)
  else Some (None, t).

(** The loop with [n] as [status_num] and [i] steps done. *)
Fixpoint status_scan (status_table : list Z) (n i : nat) : option nat :=
  match n with
  | O => Some i
  | S n =>
      b ← status_table !! (n / 8)%nat;
      if decide (Z.land b (Z.shiftr 0x80 (Z.of_nat (n `mod` 8))) = 0x00) then Some i
      else status_scan status_table n (1 + i)
  end.
Definition _fdb_get_status (status_table : list Z) (status_num : nat) : option nat :=
  i ← status_scan status_table (status_num - 1) 0;
  Some (status_num - 1 - i)%nat.

(** ** Accesses *)

Definition FDB_NO_ERR : Z := 0.
Definition FDB_ERASE_ERR : Z := 1.
Definition FDB_READ_ERR : Z := 2.
Definition FDB_WRITE_ERR : Z := 3.
Definition FDB_PART_NOT_FOUND : Z := 4.
Definition FDB_INIT_FAILED : Z := 8.

(** The fields of a database that its start sets; [part] is a place in the partition table. *)
Record fdb_db : Type := mk_db {
  db_name : string; db_part : option nat; sec_size : Z; max_size : Z; init_ok : bool; file_mode : bool }.

Section Access.
Context {S : Type} (device_table : list (fal_flash_dev S)) (partition_table_def : list fal_partition)
  (printf : string → M S unit).
#[local] Abbreviation F := (fal_state S).
#[local] Abbreviation fal_find := (fal_flash_device_find device_table).

Definition FDB_ASSERT (b : bool) : M F unit := if b then mret tt else mfail Diverged.
Definition FDB_INFO (msg : string) : M F unit := on_flash (printf msg).

Definition _fdb_flash_read (db : fdb_db) (addr size : Z) : M F (Z * list Z) :=
  if file_mode db then mret (FDB_READ_ERR, []) else
  part ← mlift NullCall (db_part db);
  '(ret, out) ← fal_partition_read device_table printf part addr size;
  mret (if decide (ret < 0) then FDB_READ_ERR else FDB_NO_ERR, out).
Definition _fdb_flash_erase (db : fdb_db) (addr size : Z) : M F Z :=
  if file_mode db then mret FDB_ERASE_ERR else
  part ← mlift NullCall (db_part db);
  ret ← fal_partition_erase device_table printf part addr size;
  mret (if decide (ret < 0) then FDB_ERASE_ERR else FDB_NO_ERR).
Definition _fdb_flash_write (db : fdb_db) (addr : Z) (data : list Z) (size : Z) : M F Z :=
  if file_mode db then mret FDB_WRITE_ERR else
  part ← mlift NullCall (db_part db);
  ret ← fal_partition_write device_table printf part addr data size;
  mret (if decide (ret < 0) then FDB_WRITE_ERR else FDB_NO_ERR).

(** The result and the status table, which the caller owns. *)
Definition _fdb_write_status (db : fdb_db) (addr : Z) (status_table : list Z) (status_num status_index : nat) :
    M F (Z * list Z) :=
  FDB_ASSERT (bool_decide (status_index < status_num)%nat);;
  '(byte_index, t) ← mlift OutOfBounds (_fdb_set_status status_table status_num status_index);
  match byte_index with
  | None => mret (FDB_NO_ERR, t)
  | Some i =>
      res ← _fdb_flash_write db (u32 (addr + Z.of_nat i)) (drop i t) 1;
      mret (res, t)
  end.
Definition _fdb_read_status (db : fdb_db) (addr : Z) (status_table : list Z) (total_num : nat) :
    M F (nat * list Z) :=
  '(_, out) ← _fdb_flash_read db addr (Z.of_nat (FDB_STATUS_TABLE_SIZE total_num));
  let t := write_at 0 out status_table in
  i ← mlift OutOfBounds (_fdb_get_status t total_num);
  mret (i, t).

(** The first address from which on all bytes read are 0xFF, kept through the bytes of one
    buffer; [last] is the byte before. *)
Fixpoint ff_scan (bytes : list Z) (start i : Z) (addr last : Z) : Z * Z :=
  match bytes with
  | [] => (addr, last)
  | b :: bytes =>
      ff_scan bytes start (i + 1)
        (if decide (last ≠ FDB_BYTE_ERASED ∧ b = FDB_BYTE_ERASED) then u32 (start + i) else addr) b
  end.
(** The buffer's bytes that were never written are missing from [buf]. *)
Fixpoint ff_loop (fuel : nat) (db : fdb_db) (start end_ : Z) (buf : list Z) (addr last : Z) : M F (Z * Z) :=
  match fuel with
  | O => mfail Diverged
  | Datatypes.S fuel =>
      if decide (start < end_) then
        let read_size := if decide (u32 (start + 32) < end_) then 32 else end_ - start in
        '(_, out) ← _fdb_flash_read db start read_size;
        let buf := write_at 0 out buf in
        bytes ← mlift Uninitialised
          (if decide (Z.to_nat read_size ≤ length buf)%nat then Some (take (Z.to_nat read_size) buf) else None);
        let '(addr, last) := ff_scan bytes start 0 addr last in
        ff_loop fuel db (u32 (start + 32)) end_ buf addr last
      else mret (addr, last)
  end.
(** A turn for each 32 bytes and one more are enough when [end_ + 32] does not overflow. *)
Definition _fdb_continue_ff_addr (db : fdb_db) (start end_ : Z) : M F Z :=
  '(addr, last) ← ff_loop (Z.to_nat ((end_ - start) / 32) + 2) db start end_ [] start FDB_BYTE_WRITTEN;
  mret (if decide (last = FDB_BYTE_ERASED) then addr else end_).

(** A blob: the size of its buffer, and where it is saved. *)
Record fdb_blob : Type := mk_blob { blob_size : Z; saved_meta_addr : Z; saved_addr : Z; saved_len : Z }.
Definition fdb_blob_make (blob : fdb_blob) (buf_len : Z) : fdb_blob :=
  mk_blob buf_len (saved_meta_addr blob) (saved_addr blob) (saved_len blob).
Definition fdb_blob_read (db : fdb_db) (blob : fdb_blob) : M F (Z * list Z) :=
  let read_len := if decide (blob_size blob > saved_len blob) then saved_len blob else blob_size blob in
  '(res, out) ← _fdb_flash_read db (saved_addr blob) read_len;
  mret (if decide (res ≠ FDB_NO_ERR) then 0 else read_len, out).

(** ** The start of a database *)

Definition set_db_part (p : option nat) (db : fdb_db) : fdb_db :=
  mk_db (db_name db) p (sec_size db) (max_size db) (init_ok db) (file_mode db).
Definition set_db_sizes (sec max : Z) (db : fdb_db) : fdb_db :=
  mk_db (db_name db) (db_part db) sec max (init_ok db) (file_mode db).
Definition set_db_ok (b : bool) (db : fdb_db) : fdb_db :=
  mk_db (db_name db) (db_part db) (sec_size db) (max_size db) b (file_mode db).
Definition set_db_name (name : string) (db : fdb_db) : fdb_db :=
  mk_db name (db_part db) (sec_size db) (max_size db) (init_ok db) (file_mode db).

(** The checks of the sizes. *)
Definition check_sizes (db : fdb_db) : M F (Z * fdb_db) :=
  FDB_ASSERT (bool_decide (Z.land (sec_size db) (u32 (sec_size db - 1)) = 0));;
  if decide (sec_size db = 0) then mfail Diverged else
  if decide (max_size db `mod` sec_size db ≠ 0) then
    FDB_INFO "Error: db total size (%" ;; mret (FDB_INIT_FAILED, db)
  else if decide (max_size db / sec_size db < 2) then
    FDB_INFO "Error: db MUST has more than or equal 2 sectors, current has %" ;; mret (FDB_INIT_FAILED, db)
  else mret (FDB_NO_ERR, db).
Definition _fdb_init_ex (db : fdb_db) (name path : string) : M F (Z * fdb_db) :=
  if init_ok db then mret (FDB_NO_ERR, db) else
  let db := set_db_name name db in
  if file_mode db then check_sizes db else
  fal_init device_table partition_table_def printf;;
  part ← fal_partition_find path;
  let db := set_db_part part db in
  match part with
  | None => FDB_INFO "Error: Partition (%s) not found." ;; mret (FDB_PART_NOT_FOUND, db)
  | Some i =>
      p ← part_at i;
      k ← mlift NullCall (fal_find (flash_name p));
      dev ← device device_table k;
      let block_size := blk_size dev in
      if decide (sec_size db = 0) then check_sizes (set_db_sizes block_size (part_len p) db)
      else if decide (sec_size db `mod` block_size ≠ 0) then
        FDB_INFO "Error: db sector size (%" ;; mret (FDB_INIT_FAILED, db)
      else check_sizes (set_db_sizes (sec_size db) (part_len p) db)
  end.
Definition _fdb_deinit (db : fdb_db) : fdb_db := set_db_ok false db.
End Access.
