(* ===== verification/FdbProps.v ===== *)
(** * What FlashDB's low level promises

    The checksum is the reflected CRC-32 computed bit by bit, and can be continued over
    pieces of a buffer; the status tables of up to eight states can be stepped forward in
    a flash that only clears bits. *)
From S2P Require Import Prelude W25qxx W25qxxProps Fal FdbUtils.

(** ** The checksum *)

(** One bit, one byte and a buffer of the reference computation. *)
Definition crc_bit (c : Z) : Z :=
  Z.lxor (Z.shiftr c 1) (if Z.odd c then 0xEDB88320 else 0).
Definition crc_bits (n : nat) (c : Z) : Z := Nat.iter n crc_bit c.
Definition crc_byte (c b : Z) : Z := crc_bits 8 (Z.lxor c b).
Definition crc_reference (crc : Z) (buf : list Z) : Z :=
  Z.lxor (fold_left crc_byte buf (Z.lxor crc 0xFFFFFFFF)) 0xFFFFFFFF.

Lemma crc_bit_lxor a b : crc_bit (Z.lxor a b) = Z.lxor (crc_bit a) (crc_bit b).
Proof.
  unfold crc_bit. rewrite Z.shiftr_lxor.
  assert (Z.odd (Z.lxor a b) = xorb (Z.odd a) (Z.odd b)) as -> by (rewrite <-!Z.bit0_odd; apply Z.lxor_spec).
  set (x := Z.shiftr a 1). set (y := Z.shiftr b 1). set (p := 0xEDB88320).
  destruct (Z.odd a), (Z.odd b); cbn [xorb];
    apply Z.bits_inj'; intros n Hn; rewrite ?Z.lxor_spec, ?Z.bits_0;
    destruct (Z.testbit x n), (Z.testbit y n), (Z.testbit p n); done.
Qed.
Lemma crc_bits_lxor n a b : crc_bits n (Z.lxor a b) = Z.lxor (crc_bits n a) (crc_bits n b).
Proof. induction n as [|n IH]; [done|]. unfold crc_bits in *. simpl. by rewrite IH, crc_bit_lxor. Qed.
Lemma crc_bits_shift n y : crc_bits n (Z.shiftl y (Z.of_nat n)) = y.
Proof.
  revert y. induction n as [|n IH]; intros y; [apply Z.shiftl_0_r|].
  unfold crc_bits in *. rewrite Nat.iter_succ_r. rewrite <-(IH y) at 2. f_equal. unfold crc_bit.
  rewrite Nat2Z.inj_succ, <-Z.add_1_r.
  assert (Z.odd (Z.shiftl y (Z.of_nat n + 1)) = false) as ->.
  { rewrite <-Z.bit0_odd, Z.shiftl_spec by lia. apply Z.testbit_neg_r. lia. }
  rewrite Z.lxor_0_r, Z.shiftr_shiftl_l by lia. f_equal. lia.
Qed.

Lemma table_bits i : 0 <= i < 256 → crc32_table !! Z.to_nat i = Some (crc_bits 8 i).
Proof.
  intros Hi. refine (bool_decide_eq_true_1 _ (forall_below
    (λ i, bool_decide (crc32_table !! Z.to_nat i = Some (crc_bits 8 i))) 256 _ i Hi)). by vm_compute.
Qed.

(** A table step is eight reference steps. *)
Lemma crc32_step_byte c b : 0 <= b < 256 → crc32_step c b = Some (crc_byte c b).
Proof.
  intros Hb. unfold crc32_step. change 0xFF with (Z.ones 8). rewrite Z.land_ones by done. change (2 ^ 8) with 256.
  rewrite table_bits by (by apply Z.mod_pos_bound). cbn -[crc_bits]. f_equal. unfold crc_byte.
  set (x := Z.lxor c b).
  assert (x = Z.lxor (x `mod` 256) (Z.shiftl (Z.shiftr c 8) 8)) as Hx.
  { apply Z.bits_inj'. intros n Hn. change 256 with (2 ^ 8). rewrite Z.lxor_spec.
    destruct (Z.lt_ge_cases n 8).
    - rewrite Z.mod_pow2_bits_low, Z.shiftl_spec_low, xorb_false_r by lia. done.
    - rewrite Z.mod_pow2_bits_high, Z.shiftl_spec, Z.shiftr_spec by lia. subst x.
      rewrite Z.lxor_spec, (testbit_small b 8), xorb_false_r, xorb_false_l by (done || lia). f_equal. lia. }
  rewrite Hx at 2. rewrite crc_bits_lxor. f_equal. symmetry. apply (crc_bits_shift 8).
Qed.

Lemma crc32_loop_bytes buf c : Forall is_u8 buf → crc32_loop c buf = Some (fold_left crc_byte buf c).
Proof. intros Hb. revert c. induction Hb as [|b buf Hb _ IH]; intros c; [done|]. simpl. rewrite crc32_step_byte by done. apply IH. Qed.

(** C28. The table driven checksum never reads outside of its table and is the reflected CRC-32 of
    the polynomial 0xEDB88320 computed bit by bit, for every start value; continuing it
    over a second buffer is computing it over both at once; it is 0xCBF43926 of 123456789. *)
Theorem crc32_bitwise crc buf rest :
  Forall is_u8 buf → Forall is_u8 rest →
  fdb_calc_crc32 crc buf = Some (crc_reference crc buf) ∧
  (fdb_calc_crc32 crc buf ≫= λ c, fdb_calc_crc32 c rest) = fdb_calc_crc32 crc (buf ++ rest) ∧
  fdb_calc_crc32 0 [49; 50; 51; 52; 53; 54; 55; 56; 57] = Some 0xCBF43926.
Proof.
  intros Hb Hr. unfold fdb_calc_crc32, crc_reference.
  assert (Forall is_u8 (buf ++ rest)) by (by apply Forall_app_2).
  rewrite !crc32_loop_bytes by done. split_and!; [done| |by vm_compute].
  cbn. rewrite crc32_loop_bytes by done. cbn.
  by rewrite Z.lxor_assoc, Z.lxor_nilpotent, Z.lxor_0_r, fold_left_app.
Qed.
Lemma crc32_bitwise_witness :
  Forall is_u8 [1; 2] ∧ fdb_calc_crc32 0 [1; 2] = Some (crc_reference 0 [1; 2]).
Proof.
  assert (Forall is_u8 [1; 2]) as Hb by (repeat constructor; lia).
  split; [exact Hb|]. exact (proj1 (crc32_bitwise 0 [1; 2] [1; 2] Hb Hb)).
Defined.

(** ** The status tables *)

(** Bit [k] of a table, from the top of its first byte. *)
Definition status_bit (t : list Z) (k : nat) : option bool :=
  (λ b, Z.testbit b (7 - Z.of_nat (k `mod` 8))) <$> t !! (k / 8)%nat.

Lemma shifted_bit n m k : (k < 8)%nat → 0 <= m → 
  Z.testbit (Z.shiftr n m) (7 - Z.of_nat k) = Z.testbit n (7 - Z.of_nat k + m).
Proof. intros ??. apply Z.shiftr_spec. lia. Qed.
Lemma mask_bit b k : (k < 8)%nat → (Z.land b (Z.shiftr 0x80 (Z.of_nat k)) = 0 ↔ Z.testbit b (7 - Z.of_nat k) = false).
Proof.
  intros Hk. assert (Z.shiftr 0x80 (Z.of_nat k) = 2 ^ (7 - Z.of_nat k)) as -> by (by do 8 (destruct k as [|k]; [done|]); lia).
  assert (∀ n, Z.testbit (Z.land b (2 ^ (7 - Z.of_nat k))) n = Z.testbit b n && (7 - Z.of_nat k =? n)) as Hland.
  { intros n. by rewrite Z.land_spec, Z.pow2_bits_eqb by lia. }
  split; intros H.
  - specialize (Hland (7 - Z.of_nat k)). by rewrite H, Z.bits_0, Z.eqb_refl, andb_true_r in Hland.
  - apply Z.bits_inj'. intros n _. rewrite Hland, Z.bits_0. destruct (Z.eqb_spec (7 - Z.of_nat k) n) as [<-|]; [|apply andb_false_r].
    by rewrite H.
Qed.

(** The scan goes down over bits that are set and stops at the first clear one. *)
Lemma status_scan_runs t idx n i :
  (∀ k, (idx ≤ k < n)%nat → status_bit t k = Some true) →
  (idx = 0%nat ∨ status_bit t (idx - 1) = Some false) → (idx ≤ n)%nat →
  status_scan t n i = Some (i + (n - idx))%nat.
Proof.
  revert i. induction n as [|n IH]; intros i Hset Hstop Hle; [simpl; f_equal; lia|]. cbn [status_scan].
  pose proof (Nat.mod_upper_bound n 8 ltac:(done)) as H8.
  destruct (decide (idx = S n)) as [->|Hne].
  - destruct Hstop as [?|Hstop]; [done|]. replace (S n - 1)%nat with n in Hstop by lia.
    unfold status_bit in Hstop. destruct (t !! (n / 8)%nat) as [b|]; [|done]. injection Hstop as Hb.
    cbn. rewrite decide_True by (by apply mask_bit). f_equal. lia.
  - pose proof (Hset n ltac:(lia)) as Hn. unfold status_bit in Hn. destruct (t !! (n / 8)%nat) as [b|]; [|done].
    injection Hn as Hb. cbn. rewrite decide_False by (rewrite mask_bit by done; by rewrite Hb).
    rewrite IH; [f_equal; lia| |done|lia]. intros k Hk. apply Hset. lia.
Qed.

(** The table [_fdb_set_status] leaves, over what was in the caller's buffer. *)
Definition status_table (num idx : nat) (old : list Z) : list Z :=
  let size := FDB_STATUS_TABLE_SIZE num in
  let t := replicate size FDB_BYTE_ERASED ++ drop size old in
  if decide (0 < idx)%nat then <[((idx - 1) / 8)%nat := Z.shiftr 0xff (Z.of_nat (idx `mod` 8))]> t else t.

Lemma table_size num idx : (idx < num)%nat → (0 < num → idx / 8 < FDB_STATUS_TABLE_SIZE num)%nat.
Proof.
  intros Hi _. unfold FDB_STATUS_TABLE_SIZE, FDB_WRITE_GRAN. rewrite Nat.mul_1_r.
  pose proof (Nat.div_mod (num + 7) 8 ltac:(done)).
  pose proof (Nat.mod_upper_bound (num + 7) 8 ltac:(done)). pose proof (Nat.div_mod idx 8 ltac:(done)). lia.
Qed.

Lemma set_status_table num idx old :
  (idx < num)%nat → (FDB_STATUS_TABLE_SIZE num ≤ length old)%nat →
  _fdb_set_status old num idx = Some (if decide (0 < idx)%nat then Some ((idx - 1) / 8)%nat else None, status_table num idx old).
Proof.
  intros Hi Hl. unfold _fdb_set_status, status_table. set (size := FDB_STATUS_TABLE_SIZE num) in *.
  rewrite memcpy_ok by (rewrite ?length_replicate; lia). cbn [mbind option_bind Nat.add].
  rewrite take_0, (take_ge (replicate _ _)) by (by rewrite length_replicate). cbn [app].
  destruct (decide (0 < idx)%nat); [|done].
  pose proof (table_size num (idx - 1) ltac:(lia) ltac:(lia)) as Hb. fold size in Hb.
  rewrite lookup_app_l, lookup_replicate_2 by (rewrite ?length_replicate; done). cbn [mbind option_bind].
  do 3 f_equal. unfold FDB_BYTE_ERASED. change 0xFF with (Z.ones 8). rewrite Z.land_comm.
  apply Z.bits_inj'. intros n Hn. rewrite Z.land_spec, Z.shiftr_spec by done.
  rewrite !testbit_ones by lia. destruct (Z.ltb_spec (n + Z.of_nat (idx `mod` 8)) 8); [|done].
  by rewrite (proj2 (Z.ltb_lt n 8)) by lia.
Qed.
Lemma status_table_length num idx old :
  (FDB_STATUS_TABLE_SIZE num ≤ length old)%nat → length (status_table num idx old) = length old.
Proof.
  intros Hl. unfold status_table. case_decide; rewrite ?length_insert, length_app, length_replicate, length_drop; lia.
Qed.
Lemma status_table_byte num idx old k :
  (idx < num)%nat → (k < num)%nat →
  status_table num idx old !! (k / 8)%nat =
  Some (if decide (0 < idx ∧ k / 8 = (idx - 1) / 8)%nat then Z.shiftr 0xff (Z.of_nat (idx `mod` 8)) else 0xff).
Proof.
  intros Hi Hk. pose proof (table_size num k Hk ltac:(lia)) as Hb. unfold status_table.
  set (t := replicate _ _ ++ _).
  assert (∀ j, (j < FDB_STATUS_TABLE_SIZE num)%nat → t !! j = Some 0xff) as Ht.
  { intros j Hj. subst t. by rewrite lookup_app_l, lookup_replicate_2 by (rewrite ?length_replicate; done). }
  destruct (decide (0 < idx)%nat) as [H0|]; [|rewrite decide_False by lia; by apply Ht].
  destruct (decide (k / 8 = (idx - 1) / 8)%nat) as [Heq|Hne].
  - rewrite decide_True by done. rewrite Heq in *. apply list_lookup_insert_eq. by eapply lookup_lt_Some, Ht.
  - rewrite decide_False by lia. rewrite list_lookup_insert_ne by done. by apply Ht.
Qed.
Lemma status_table_bits num idx old k :
  (idx ≤ k < num)%nat → status_bit (status_table num idx old) k = Some true.
Proof.
  intros Hk. unfold status_bit. rewrite status_table_byte by lia. cbn [fmap option_fmap option_map]. f_equal.
  pose proof (Nat.mod_upper_bound k 8 ltac:(done)). pose proof (Nat.div_mod k 8 ltac:(done)).
  pose proof (Nat.mod_upper_bound idx 8 ltac:(done)). pose proof (Nat.div_mod idx 8 ltac:(done)).
  pose proof (Nat.mod_upper_bound (idx - 1) 8 ltac:(done)). pose proof (Nat.div_mod (idx - 1) 8 ltac:(done)).
  change 0xff with (Z.ones 8). case_decide; rewrite ?shifted_bit, testbit_ones by lia; apply Z.ltb_lt; lia.
Qed.
Lemma status_table_stop num idx old :
  (idx < num)%nat → (idx `mod` 8 ≠ 0)%nat → status_bit (status_table num idx old) (idx - 1) = Some false.
Proof.
  intros Hi Hm. assert (0 < idx)%nat by (destruct idx; [done|lia]).
  unfold status_bit. rewrite status_table_byte, decide_True by lia. cbn [fmap option_fmap option_map]. f_equal.
  pose proof (Nat.mod_upper_bound idx 8 ltac:(done)). pose proof (Nat.div_mod idx 8 ltac:(done)).
  pose proof (Nat.mod_upper_bound (idx - 1) 8 ltac:(done)). pose proof (Nat.div_mod (idx - 1) 8 ltac:(done)).
  change 0xff with (Z.ones 8). rewrite shifted_bit, testbit_ones by lia. apply Z.ltb_ge. lia.
Qed.

Lemma erased_table_bits num idx old k :
  (idx < num)%nat → (idx `mod` 8 = 0)%nat → (k < num)%nat → status_bit (status_table num idx old) k = Some true.
Proof.
  intros Hi Hm Hk. unfold status_bit. rewrite status_table_byte, Hm by lia. cbn [fmap option_fmap option_map]. f_equal.
  pose proof (Nat.mod_upper_bound k 8 ltac:(done)).
  change (Z.shiftr 0xff (Z.of_nat 0)) with (Z.ones 8). change 0xff with (Z.ones 8).
  case_decide; rewrite testbit_ones by lia; apply Z.ltb_lt; lia.
Qed.

Lemma get_status_runs t num idx :
  (idx < num)%nat → (∀ k, (idx ≤ k < num)%nat → status_bit t k = Some true) →
  (idx = 0%nat ∨ status_bit t (idx - 1) = Some false) → _fdb_get_status t num = Some idx.
Proof.
  intros Hi Hset Hstop. unfold _fdb_get_status. rewrite (status_scan_runs t idx); [|intros; apply Hset; lia|done|lia].
  cbn [mbind option_bind]. f_equal. lia.
Qed.

(** Programming a byte of a table in a flash, which can only clear bits. *)
Definition program_byte (w : nat) (t cells : list Z) : option (list Z) :=
  old ← cells !! w; new ← t !! w; Some (<[w := Z.land old new]> cells).

Lemma program_bit w t cells cells' k a b :
  program_byte w t cells = Some cells' → status_bit cells k = Some a → status_bit t k = Some b →
  status_bit cells' k = Some (if decide (k / 8 = w)%nat then a && b else a).
Proof.
  unfold program_byte, status_bit. intros Hp Ha Hb.
  destruct (cells !! w) as [x|] eqn:Hx; [|done]. destruct (t !! w) as [y|] eqn:Hy; [|done]. injection Hp as <-.
  destruct (decide (k / 8 = w)%nat) as [<-|Hne].
  - rewrite Hx in Ha. rewrite Hy in Hb. injection Ha as <-. injection Hb as <-.
    rewrite list_lookup_insert_eq by (by eapply lookup_lt_Some). simpl. f_equal. apply Z.land_spec.
  - by rewrite list_lookup_insert_ne.
Qed.

(** A status table that is set to a state reads back as that state, unless the state is a
    multiple of 8, whose table is the erased one and reads as state 0; and from the table of any state a
    flash steps to the table of a later one by programming the one byte that
    [_fdb_set_status] names, without an erase. *)
Theorem status_round_trip num idx next cells buf :
  (idx ≤ next < num)%nat → (FDB_STATUS_TABLE_SIZE num ≤ length cells)%nat → (FDB_STATUS_TABLE_SIZE num ≤ length buf)%nat →
  ∃ w t, _fdb_set_status cells num idx = Some (w, t) ∧ length t = length cells ∧
    _fdb_get_status t num = Some (if decide (idx `mod` 8 = 0)%nat then 0%nat else idx) ∧
    ((next `mod` 8 ≠ 0)%nat → ∃ w' t' cells', _fdb_set_status buf num next = Some (Some w', t') ∧
      program_byte w' t' t = Some cells' ∧ _fdb_get_status cells' num = Some next).
Proof.
  intros Hn Hc Hb. exists (if decide (0 < idx)%nat then Some ((idx - 1) / 8)%nat else None), (status_table num idx cells).
  split; [by apply set_status_table; [lia|]|]. split; [by apply status_table_length|]. split.
  - case_decide as Hm.
    + apply get_status_runs; [lia| |by left]. intros. apply erased_table_bits; lia.
    + apply get_status_runs; [lia|apply status_table_bits|right; apply status_table_stop; [lia|done]].
  - intros Hm. assert (0 < next)%nat by (destruct next; [done|lia]).
    assert (next - 1 < num)%nat as Hn1 by lia.
    exists ((next - 1) / 8)%nat, (status_table num next buf). rewrite set_status_table, decide_True by lia.
    eexists. split; [done|]. split.
    { unfold program_byte. rewrite !status_table_byte by lia. done. }
    match goal with |- _fdb_get_status ?c _ = _ => set (cells' := c) end.
    assert (program_byte ((next - 1) / 8) (status_table num next buf) (status_table num idx cells) = Some cells') as Hp
      by (unfold program_byte; rewrite !status_table_byte by lia; done).
    apply get_status_runs; [lia| |right].
    + intros k Hk. rewrite (program_bit _ _ _ _ k true true Hp) by (apply status_table_bits; lia). by case_decide.
    + assert (∃ a, status_bit (status_table num idx cells) (next - 1) = Some a) as [a Ha].
      { unfold status_bit. rewrite status_table_byte by lia. by eexists. }
      rewrite (program_bit _ _ _ _ _ _ _ Hp Ha (status_table_stop num next buf ltac:(lia) Hm)), decide_True by done.
      by rewrite andb_false_r.
Qed.
Lemma status_round_trip_witness :
  ∃ w t, _fdb_set_status [1; 2] 6 2 = Some (w, t) ∧ length t = 2%nat ∧
    _fdb_get_status t 6 = Some 2%nat ∧
    ((5 `mod` 8 ≠ 0)%nat → ∃ w' t' cells', _fdb_set_status [7] 6 5 = Some (Some w', t') ∧
      program_byte w' t' t = Some cells' ∧ _fdb_get_status cells' 6 = Some 5%nat).
Proof. apply (status_round_trip 6 2 5 [1; 2] [7]); cbn; lia. Defined.
