(* ===== verification/ChPrintf.v ===== *)
(** * ChibiOS's formatted output: [os/hal/lib/streams/chprintf.c]

    [chvprintf] over any stream, as the program compiles it ([CHPRINTF_USE_FLOAT] is 1 in the
    Makefile).  A format is the list of its characters' codes with the zero at its
    end; [int] and [long] have 32 bits.  A number that a [%f] prints is an IEEE 754 number of
    the Standard Library's [SpecFloat]. *)
From Stdlib Require Import Floats.SpecFloat.
From S2P Require Import Prelude IpAddr.

(** ** Arguments *)

(** An integer argument is its 32 bits, of either sign; a string is [None] for the null pointer. *)
Inductive va : Type := VInt (z : Z) | VStr (s : option (list Z)) | VDouble (f : spec_float).

Definition INT_MAX : Z := 2147483647.
Definition INT_MIN : Z := -2147483648.
(** The bits of [z] as an [int] or a [long]. *)
Definition to_int (z : Z) : Z := if decide (u32 z <= INT_MAX) then u32 z else u32 z - 4294967296.

(** What a piece of the function comes to: the end of the function, a value to go on with, or a fault. *)
Inductive piece (A : Type) : Type := Return | Next (a : A) | Crash (f : fault).
Arguments Return {A}.
Arguments Next {A} a.
Arguments Crash {A} f.
#[export] Instance piece_bind : MBind piece := λ A B f m,
  match m with Return => Return | Next a => f a | Crash e => Crash e end.

Definition take_int (ap : list va) : piece (Z * list va) :=
  match ap with VInt z :: ap => Next (to_int z, ap) | _ => Crash Uninitialised end.

(** ** Numbers *)

Definition MAX_FILLER : nat := 11.
Definition FLOAT_PRECISION : Z := 9.
Definition tmpbuf_size : nat := 2 * MAX_FILLER + 1.

Definition digit_char_of (i : Z) : Z :=
  let i := i + 48 in if decide (i > 57) then i + (65 - 48 - 10) else i.
(** The loop that fills the buffer from its end; the divisions are unsigned, as [radix] is.  A
    32 bit number is 0 after 32 divisions. *)
Fixpoint digit_loop (fuel : nat) (l ll radix : Z) (acc : list Z) : option (list Z) :=
  match fuel with
  | O => None
  | S fuel =>
      let acc := digit_char_of (u32 l `mod` radix) :: acc in
      let l := u32 l / radix in
      let ll := u32 ll / radix in
      if decide (ll ≠ 0) then digit_loop fuel l ll radix acc else Some acc
  end.
(** [p] is the text in front of the pointer, from the start of the buffer on. *)
Definition long_to_string_with_divisor (p : list Z) (num radix divisor : Z) : piece (list Z) :=
  match digit_loop 33 num (if decide (divisor = 0) then num else divisor) radix [] with
  | None => Crash Diverged
  | Some ds =>
      if decide (length ds ≤ MAX_FILLER ∧ length p + MAX_FILLER ≤ tmpbuf_size)%nat then Next (p ++ ds)
      else Crash OutOfBounds
  end.
Definition ch_ltoa (p : list Z) (num radix : Z) : piece (list Z) := long_to_string_with_divisor p num radix 0.

(** [float] has a significand of 24 bits, [double] of 53. *)
Definition round_to (prec emax : Z) (x : spec_float) : spec_float :=
  match x with
  | S754_finite s m e => binary_normalize prec emax (cond_Zopp s (Zpos m)) e s
  | _ => x
  end.
Definition to_float : spec_float → spec_float := round_to 24 128.
Definition to_double : spec_float → spec_float := round_to 53 1024.
Definition double_of (z : Z) : spec_float := binary_normalize 53 1024 z 0 false.
(** The conversion to [long], towards zero. *)
Definition to_long_of (x : spec_float) : piece Z :=
  match x with
  | S754_zero _ => Next 0
  | S754_finite s m e =>
      let v := cond_Zopp s (if decide (0 <= e) then Z.pos m * 2 ^ e else Z.pos m / 2 ^ (- e)) in
      if decide (INT_MIN <= v <= INT_MAX) then Next v else Crash Overflow
  | _ => Crash Overflow
  end.
Definition chpow10 : list Z :=
  [10; 100; 1000; 10000; 100000; 1000000; 10000000; 100000000; 1000000000].
Definition ftoa (p : list Z) (num : spec_float) (precision : Z) : piece (list Z) :=
  let precision := u32 precision in
  let precision := if decide (precision = 0 ∨ precision > FLOAT_PRECISION) then FLOAT_PRECISION else precision in
  match chpow10 !! Z.to_nat (precision - 1) with
  | None => Crash OutOfBounds
  | Some precision =>
      l ← to_long_of num;
      p ← long_to_string_with_divisor p l 10 0;
      l ← to_long_of (SFmul 53 1024 (SFsub 53 1024 num (double_of l)) (double_of precision));
      long_to_string_with_divisor (p ++ [46]) l 10 (precision / 10)
  end.

(** ** A directive *)

(** [conv] is the conversion character. *)
Record directive : Type := mk_directive {
  left_align : bool; do_sign : bool; filler : Z; width : Z; precision : Z; is_long : bool; conv : Z }.

Definition isdigit (c : Z) : bool := bool_decide (48 <= c) && bool_decide (c <= 57).
(** The digits of a width or a precision, and the character behind them. *)
Fixpoint read_number (acc : Z) (fmt : list Z) : piece (Z * Z * list Z) :=
  match fmt with
  | [] => Crash OutOfBounds
  | c :: fmt =>
      if decide (c = 0) then Return
      else if isdigit c then
        let acc := acc * 10 + (c - 48) in
        if decide (acc > INT_MAX) then Crash Overflow else read_number acc fmt
      else Next (acc, c, fmt)
  end.
(** [c = *fmt++] *)
Definition next_char (fmt : list Z) : piece (Z * list Z) :=
  match fmt with c :: fmt => Next (c, fmt) | [] => Crash OutOfBounds end.
Definition next_nonzero (fmt : list Z) : piece (Z * list Z) :=
  '(c, fmt) ← next_char fmt; if decide (c = 0) then Return else Next (c, fmt).
(** [if ( *fmt == c) fmt++;] *)
Definition skip_char (c : Z) (fmt : list Z) : piece (bool * list Z) :=
  '(d, rest) ← next_char fmt; if decide (d = c) then Next (true, rest) else Next (false, fmt).

(** A width or precision of [*] comes from the arguments; the character behind it is not
    compared with zero. *)
Definition read_star_or_number (fmt : list Z) (ap : list va) : piece (Z * Z * list Z * list va) :=
  '(star, rest) ← skip_char 42 fmt;
  if star : bool then
    '(v, ap) ← take_int ap;
    '(c, fmt) ← next_char rest;
    Next (v, c, fmt, ap)
  else
    '(v, c, fmt) ← read_number 0 fmt;
    Next (v, c, fmt, ap).

Definition parse_precision (c : Z) (fmt : list Z) (ap : list va) : piece (Z * Z * list Z * list va) :=
  if decide (c = 46) then
    '(_, _) ← next_nonzero fmt; read_star_or_number fmt ap
  else Next (0, c, fmt, ap).
Definition parse_long (c : Z) (fmt : list Z) : piece (bool * Z * list Z) :=
  if decide (c = 108 ∨ c = 76) then
    '(c, fmt) ← next_nonzero fmt; Next (true, c, fmt)
  else Next (bool_decide (65 <= c) && bool_decide (c <= 90), c, fmt).
Definition parse_directive (fmt : list Z) (ap : list va) : piece (directive * list Z * list va) :=
  '(align, fmt) ← skip_char 45 fmt;
  '(sign, fmt) ← skip_char 43 fmt;
  '(zero, fmt) ← skip_char 48 fmt;
  '(width, c, fmt, ap) ← read_star_or_number fmt ap;
  '(precision, c, fmt, ap) ← parse_precision c fmt ap;
  '(long, c, fmt) ← parse_long c fmt;
  Next (mk_directive align sign (if zero : bool then 48 else 32) width precision long c, fmt, ap).

(** The characters of a string up to its zero and the precision. *)
Definition string_text (s : option (list Z)) (precision : Z) : list Z :=
  let s := default (chars "(null)") s in
  take (Z.to_nat (if decide (precision = 0) then 32767 else precision)) s.

(** ** The conversions *)

(** The sign of a number and its absolute value; the most negative one has none. *)
Definition print_signed (do_sign : bool) (l : Z) : piece (list Z) :=
  if decide (l < 0) then
    if decide (l = INT_MIN) then Crash Overflow else ch_ltoa [45] (- l) 10
  else ch_ltoa (if do_sign then [43] else []) l 10.
Definition print_float (do_sign : bool) (d : spec_float) (precision : Z) : piece (list Z) :=
  let f := to_float d in
  if SFltb f (S754_zero false) then ftoa [45] (to_double (SFopp f)) precision
  else ftoa (if do_sign then [43] else []) (to_double f) precision.

(** The text, the filler and the arguments left. *)
Definition convert (d : directive) (ap : list va) : piece (list Z * Z * list va) :=
  if decide (conv d = 99) then
    '(v, ap) ← take_int ap; Next ([u8 v], 32, ap)
  else if decide (conv d = 115) then
    match ap with
    | VStr s :: ap => Next (string_text s (precision d), 32, ap)
    | _ => Crash Uninitialised
    end
  else if decide (conv d ∈ [68; 100; 73; 105]) then
    '(l, ap) ← take_int ap; p ← print_signed (do_sign d) l; Next (p, filler d, ap)
  else if decide (conv d = 102) then
    match ap with
    | VDouble f :: ap => p ← print_float (do_sign d) f (precision d); Next (p, filler d, ap)
    | _ => Crash Uninitialised
    end
  else if decide (conv d ∈ [88; 120; 80; 112]) then
    '(l, ap) ← take_int ap; p ← ch_ltoa [] l 16; Next (p, filler d, ap)
  else if decide (conv d ∈ [85; 117]) then
    '(l, ap) ← take_int ap; p ← ch_ltoa [] l 10; Next (p, filler d, ap)
  else if decide (conv d ∈ [79; 111]) then
    '(l, ap) ← take_int ap; p ← ch_ltoa [] l 8; Next (p, filler d, ap)
  else Next ([conv d], filler d, ap).

(** ** Output *)

Section Stream.
Context {S : Type} (streamPut : Z → M S Z).

Fixpoint put_filler (k : nat) (filler n : Z) : M S Z :=
  match k with
  | O => mret n
  | Datatypes.S k => _ ← streamPut (u8 filler); put_filler k filler (n + 1)
  end.
Fixpoint put_text (s : list Z) (n : Z) : M S Z :=
  match s with
  | [] => mret n
  | ch :: s => _ ← streamPut (u8 ch); put_text s (n + 1)
  end.
(** The text padded to the width; zeros go between a sign and its digits. *)
Definition put_padded (align : bool) (filler width : Z) (s : list Z) (n : Z) : M S Z :=
  let width := width - Z.of_nat (length s) in
  let width := if decide (width < 0) then 0 else width in
  let width := if align then width else - width in
  '(s, n) ← (if decide (width < 0) then
               '(s, n) ← (if decide ((char_at s = 45 ∨ char_at s = 43) ∧ filler = 48) then
                            _ ← streamPut (u8 (char_at s)); mret (tail s, n + 1)
                          else mret (s, n));
               n ← put_filler (Z.to_nat (- width)) filler n;
               mret (s, n)
             else mret (s, n));
  n ← put_text s n;
  put_filler (Z.to_nat (if decide (width < 0) then 0 else width)) filler n.

(** A turn takes at least one character of the format. *)
Fixpoint chvprintf_loop (fuel : nat) (fmt : list Z) (ap : list va) (n : Z) : M S Z :=
  match fuel with
  | O => mfail Diverged
  | Datatypes.S fuel =>
      match fmt with
      | [] => mfail OutOfBounds
      | ch :: fmt =>
          if decide (ch = 0) then mret n
          else if decide (ch ≠ 37) then
            _ ← streamPut (u8 ch); chvprintf_loop fuel fmt ap (n + 1)
          else
            match ('(d, fmt, ap) ← parse_directive fmt ap;
                   '(text, filler, ap) ← convert d ap;
                   if decide (width d - Z.of_nat (length text) < INT_MIN) then Crash Overflow
                   else Next (d, text, filler, fmt, ap)) with
            | Return => mret n
            | Crash f => mfail f
            | Next (d, text, filler, fmt, ap) =>
                n ← put_padded (left_align d) filler (width d) text n;
                chvprintf_loop fuel fmt ap n
            end
      end
  end.
Definition chvprintf (fmt : list Z) (ap : list va) : M S Z :=
  chvprintf_loop (Datatypes.S (length fmt)) (fmt ++ [0]) ap 0.
Definition chprintf (fmt : list Z) (ap : list va) : M S Z := chvprintf fmt ap.
End Stream.
