(* ===== verification/ChPrintfProps.v ===== *)
(** * What formatted output promises

    A reference for formats: a format is a list of items, [renders] says which text the
    items and the arguments mean, and [chvprintf] puts that text into any stream, byte by
    byte.  Nothing of the reference is the code's: numbers are characterised by their digits,
    not by how these are computed, digits are read off a table, and the text of a string is
    characterised as its longest prefix within the precision.  [%f] is left out of the
    reference. *)
From S2P Require Import Prelude IpAddr ChPrintf.

(** ** Numerals *)

Definition digits_value (radix : Z) (ds : list Z) : Z := foldl (λ v d, v * radix + d) 0 ds.
(** [ds] are the digits of [v], without a leading zero. *)
Definition numeral (radix v : Z) (ds : list Z) : Prop :=
  ds ≠ [] ∧ Forall (λ d, 0 <= d < radix) ds ∧ digits_value radix ds = v ∧ (head ds = Some 0 → ds = [0]).
(** The characters of the digits. *)
Definition digit_table : list Z := chars "0123456789ABCDEF".
Definition glyph (d : Z) : Z := default 0 (digit_table !! Z.to_nat d).
Definition digit_text (ds : list Z) : list Z := glyph <$> ds.

(** What the code computes for a digit is what the table says. *)
Lemma glyph_digit d : 0 <= d < 16 → glyph d = digit_char_of d.
Proof.
  intros Hd. assert (d ∈ seqZ 0 16) as Hin by (apply elem_of_seqZ; lia). clear Hd. revert d Hin.
  apply Forall_forall. by apply (bool_decide_unpack _); vm_compute.
Qed.

Lemma digits_value_snoc radix ds d : digits_value radix (ds ++ [d]) = digits_value radix ds * radix + d.
Proof. unfold digits_value. by rewrite foldl_snoc. Qed.

Lemma digit_loop_numeral fuel l radix acc :
  2 <= radix <= 16 → 0 <= l < radix ^ Z.of_nat fuel → l < 2 ^ 32 →
  ∃ ds, digit_loop (S fuel) l l radix acc = Some (digit_text ds ++ acc) ∧ numeral radix l ds.
Proof.
  intros Hr. revert l acc. induction fuel as [|fuel IH]; intros l acc Hl Hl32.
  { exists [0]. assert (l = 0) as -> by (change (radix ^ Z.of_nat 0) with 1 in Hl; lia). cbn [digit_loop].
    change (u32 0) with 0. rewrite Z.mod_0_l, Z.div_0_l, decide_False by (lia || (intros H; by apply H)).
    split; [done|]. by split_and!; [|repeat constructor; lia| |]. }
  assert (u32 l = l) as Hu by (apply u32_id; unfold is_u32; lia).
  pose proof (Z.mod_pos_bound l radix ltac:(lia)) as Hm. pose proof (Z.div_mod l radix ltac:(lia)) as Hdm.
  pose proof (Z.div_pos l radix ltac:(lia) ltac:(lia)) as Hq.
  remember (S fuel) as f eqn:Hf. cbn [digit_loop]. rewrite Hu.
  destruct (decide (l / radix ≠ 0)) as [Hnz|Hz].
  - subst f. rewrite Nat2Z.inj_succ, Z.pow_succ_r in Hl by lia.
    destruct (IH (l / radix) (digit_char_of (l `mod` radix) :: acc)) as (ds & E & Hne & Hds & Hv & Hh).
    { split; [done|]. apply Z.div_lt_upper_bound; lia. }
    { nia. }
    exists (ds ++ [l `mod` radix]). rewrite E. split.
    { unfold digit_text. rewrite fmap_app, <-app_assoc. cbn. by rewrite glyph_digit by lia. }
    split_and!; [by destruct ds|apply Forall_app_2; [done|by apply Forall_singleton]| |].
    + rewrite digits_value_snoc, Hv. lia.
    + intros H0. destruct ds as [|d ds]; [done|]. specialize (Hh H0). injection Hh as -> ->.
      by rewrite <-Hv in Hnz.
  - exists [l `mod` radix]. split; [unfold digit_text; cbn; by rewrite glyph_digit by lia|].
    assert (l `mod` radix = l) as -> by lia. split_and!; [done|by repeat constructor; lia| |by intros [= ->]].
    unfold digits_value. simpl. lia.
Qed.

(** The leading digit bounds the number from below. *)
Lemma digits_value_lower radix ds d :
  1 <= radix → 0 <= d → Forall (λ d, 0 <= d < radix) ds →
  d * radix ^ Z.of_nat (length ds) <= digits_value radix (d :: ds).
Proof.
  intros Hr Hd Hds. induction ds as [|x ds IH] using rev_ind.
  { unfold digits_value. simpl. lia. }
  apply Forall_app in Hds as [Hds Hx]. apply Forall_cons in Hx as [Hx _]. specialize (IH Hds).
  rewrite app_comm_cons, digits_value_snoc, length_app. simpl length.
  rewrite Nat.add_1_r, Nat2Z.inj_succ, Z.pow_succ_r by lia. nia.
Qed.
Lemma numeral_length radix v ds k :
  2 <= radix → numeral radix v ds → v < radix ^ Z.of_nat k → (0 < k)%nat → (length ds ≤ k)%nat.
Proof.
  intros Hr (Hne & Hds & Hv & Hh) Hk Hk0. destruct ds as [|d ds]; [done|]. apply Forall_cons in Hds as [Hd Hds].
  destruct (decide (d = 0)) as [->|Hd0]; [specialize (Hh eq_refl); injection Hh as ->; simpl; lia|].
  pose proof (digits_value_lower radix ds d ltac:(lia) ltac:(lia) Hds). simpl length.
  destruct (decide (S (length ds) ≤ k)%nat); [done|exfalso].
  assert (radix ^ Z.of_nat k <= radix ^ Z.of_nat (length ds)) by (apply Z.pow_le_mono_r; lia).
  assert (0 < radix ^ Z.of_nat k) by (apply Z.pow_pos_nonneg; lia). nia.
Qed.

(** A number goes behind at most a sign into the buffer, which is large enough. *)
Lemma ltoa_runs p v radix :
  8 <= radix <= 16 → 0 <= v < 2 ^ 32 → (length p ≤ 12)%nat →
  ∃ ds, ch_ltoa p v radix = Next (p ++ digit_text ds) ∧ numeral radix v ds.
Proof.
  intros Hr Hv Hp. unfold ch_ltoa, long_to_string_with_divisor. rewrite decide_True by done.
  assert (2 ^ 32 <= radix ^ Z.of_nat 11) by (transitivity (8 ^ Z.of_nat 11); [done|apply Z.pow_le_mono_l; lia]).
  assert (radix ^ Z.of_nat 11 <= radix ^ Z.of_nat 32) by (apply Z.pow_le_mono_r; lia).
  destruct (digit_loop_numeral 32 v radix []) as (ds & -> & Hn); [lia..|].
  pose proof (numeral_length radix v ds 11 ltac:(lia) Hn ltac:(lia) ltac:(lia)).
  exists ds. split; [|done]. rewrite app_nil_r. rewrite decide_True; [done|].
  unfold digit_text, MAX_FILLER, tmpbuf_size, MAX_FILLER. rewrite length_fmap. lia.
Qed.

Lemma u32_idem z : u32 (u32 z) = u32 z.
Proof. apply u32_id, u32_range. Qed.
Lemma to_int_u32 z : u32 (to_int z) = u32 z.
Proof.
  unfold to_int. pose proof (u32_range z) as Hr. unfold is_u32 in Hr.
  case_decide; [apply u32_idem|]. unfold u32 at 1. replace (u32 z - 4294967296) with (u32 z + (-1) * 4294967296) by lia.
  rewrite Z.mod_add by done. apply u32_idem.
Qed.
Lemma u8_u32 z : u8 (u32 z) = u8 z.
Proof. unfold u8, u32. apply Z.mod_mod_divide. by exists 16777216. Qed.
Lemma to_int_range z : INT_MIN <= to_int z <= INT_MAX.
Proof. unfold to_int, INT_MIN, INT_MAX. pose proof (u32_range z) as Hr. unfold is_u32 in Hr. case_decide; lia. Qed.

(** The divisions only see the 32 bits of a number. *)
Lemma ltoa_bits p l radix : ch_ltoa p l radix = ch_ltoa p (u32 l) radix.
Proof. unfold ch_ltoa, long_to_string_with_divisor. rewrite !decide_True by done. cbn [digit_loop]. by rewrite u32_idem. Qed.

(** ** The syntax of formats *)

(** A width or a precision: its digits, or [*]. *)
Inductive size : Type := Num (ds : list Z) | Star.
Record spec : Type := mk_spec {
  s_left : bool; s_plus : bool; s_zero : bool; s_width : size; s_prec : option size; s_long : bool; s_conv : Z }.
Inductive item : Type := Lit (ch : Z) | Dir (s : spec).

Definition flag (b : bool) (c : Z) : list Z := if b then [c] else [].
Definition unparse_size (sz : size) : list Z :=
  match sz with Num ds => (λ d, 48 + d) <$> ds | Star => [42] end.
(** What follows a width. *)
Definition unparse_end (s : spec) : list Z :=
  (match s_prec s with Some sz => 46 :: unparse_size sz | None => [] end) ++ flag (s_long s) 108 ++ [s_conv s].
Definition unparse_spec (s : spec) : list Z :=
  flag (s_left s) 45 ++ flag (s_plus s) 43 ++ flag (s_zero s) 48 ++ unparse_size (s_width s) ++ unparse_end s.
Definition unparse_item (i : item) : list Z :=
  match i with Lit ch => [ch] | Dir s => 37 :: unparse_spec s end.
Definition unparse (items : list item) : list Z := items ≫= unparse_item.

Definition size_ok (sz : size) : Prop :=
  match sz with Num ds => Forall (λ d, 0 <= d <= 9) ds ∧ digits_value 10 ds <= INT_MAX | Star => True end.
(** A conversion character: not one that the parser takes for something else. *)
Definition conv_ok (c : Z) : Prop := (c ∉ [0; 42; 43; 45; 46; 76; 108]) ∧ isdigit c = false.
Definition item_ok (i : item) : Prop :=
  match i with
  | Lit ch => ch ≠ 0 ∧ ch ≠ 37
  | Dir s => size_ok (s_width s) ∧ (s_zero s = false → s_width s = Star ∨ char_at (unparse_size (s_width s)) ≠ 48) ∧
      match s_prec s with Some sz => size_ok sz | None => True end ∧ conv_ok (s_conv s)
  end.

(** ** Their meaning *)

Definition size_value (sz : size) (ap : list va) : option (Z * list va) :=
  match sz, ap with
  | Num ds, _ => Some (digits_value 10 ds, ap)
  | Star, VInt z :: ap => Some (to_int z, ap)
  | _, _ => None
  end.
Definition prec_value (sz : option size) (ap : list va) : option (Z * list va) :=
  match sz with Some sz => size_value sz ap | None => Some (0, ap) end.

Definition radix_of (c : Z) : option Z :=
  if decide (c ∈ [88; 120; 80; 112]) then Some 16
  else if decide (c ∈ [85; 117]) then Some 10
  else if decide (c ∈ [79; 111]) then Some 8 else None.
Definition signed_conv (c : Z) : Prop := c ∈ [68; 100; 73; 105].

(** The text of a string: a prefix of it, the whole of it unless a precision other than 0
    cuts it (0 stands for 32767 characters); the null pointer has a text of its own. *)
Definition shows (s : option (list Z)) (p : Z) (text : list Z) : Prop :=
  let whole := match s with Some s => s | None => chars "(null)" end in
  let limit := if decide (p = 0) then 32767 else Z.max 0 p in
  ∃ cut, whole = text ++ cut ∧ Z.of_nat (length text) <= limit ∧
    (cut = [] ∨ Z.of_nat (length text) = limit).

Lemma shows_iff s p text : shows s p text ↔ text = string_text s p.
Proof.
  unfold shows, string_text. replace (default (chars "(null)") s) with
    (match s with Some s => s | None => chars "(null)" end) by (by destruct s).
  generalize (match s with Some s => s | None => chars "(null)" end). intros w.
  set (limit := if decide (p = 0) then 32767 else Z.max 0 p).
  replace (Z.to_nat (if decide (p = 0) then 32767 else p)) with (Z.to_nat limit)
    by (unfold limit; case_decide; lia).
  assert (0 <= limit) as Hl by (unfold limit; case_decide; lia). clearbody limit. split.
  - intros (cut & -> & Hle & [->|He]).
    + by rewrite app_nil_r, take_ge by lia.
    + by rewrite take_app_length' by lia.
  - intros ->. exists (drop (Z.to_nat limit) w). rewrite take_drop. split; [done|].
    rewrite length_take. split; [lia|].
    destruct (decide (length w ≤ Z.to_nat limit)%nat); [left; by apply drop_ge|right; lia].
Qed.

(** The text of a conversion and whether the filler is the directive's own. *)
Inductive means (c : Z) (plus : bool) (p : Z) : list va → list Z → bool → list va → Prop :=
  | means_char z ap : c = 99 → means c plus p (VInt z :: ap) [u8 z] false ap
  | means_string s text ap : c = 115 → shows s p text → means c plus p (VStr s :: ap) text false ap
  | means_signed z ds ap : signed_conv c → INT_MIN < to_int z → numeral 10 (Z.abs (to_int z)) ds →
      means c plus p (VInt z :: ap)
        ((if decide (to_int z < 0) then [45] else flag plus 43) ++ digit_text ds) true ap
  | means_unsigned radix z ds ap : radix_of c = Some radix → numeral radix (u32 z) ds →
      means c plus p (VInt z :: ap) (digit_text ds) true ap
  | means_other ap : c ∉ [99; 115; 102] → ¬ signed_conv c → radix_of c = None → means c plus p ap [c] true ap.

(** A text in its field; zeros go between a sign and the digits. *)
Definition pad (align : bool) (filler width : Z) (s : list Z) : list Z :=
  let fill := replicate (Z.to_nat (width - Z.of_nat (length s))) filler in
  if align then s ++ fill
  else if decide ((char_at s = 45 ∨ char_at s = 43) ∧ filler = 48) then take 1 s ++ fill ++ drop 1 s
  else fill ++ s.

Inductive renders : list item → list va → list Z → Prop :=
  | renders_nil ap : renders [] ap []
  | renders_lit ch items ap out : renders items ap out → renders (Lit ch :: items) ap (u8 ch :: out)
  | renders_dir s w ap1 p ap2 s_text own ap3 items ap out :
      size_value (s_width s) ap = Some (w, ap1) → prec_value (s_prec s) ap1 = Some (p, ap2) →
      means (s_conv s) (s_plus s) p ap2 s_text own ap3 → INT_MIN <= w - Z.of_nat (length s_text) →
      renders items ap3 out →
      renders (Dir s :: items) ap
        ((u8 <$> pad (s_left s) (if s_zero s && own then 48 else 32) w s_text) ++ out).

(** ** Reading a directive *)

Lemma skip_flag b c rest : rest ≠ [] → (b = false → char_at rest ≠ c) → skip_char c (flag b c ++ rest) = Next (b, rest).
Proof.
  intros Hne Hc. unfold skip_char. destruct b; cbn [flag app].
  - by cbn; rewrite decide_True.
  - destruct rest as [|d rest]; [done|]. cbn. by rewrite decide_False by (by apply Hc).
Qed.

Lemma isdigit_spec c : isdigit c = true ↔ 48 <= c <= 57.
Proof. unfold isdigit. rewrite andb_true_iff, !bool_decide_eq_true. done. Qed.

Lemma foldl_mono ds v : 0 <= v → Forall (λ d, 0 <= d <= 9) ds → v <= foldl (λ v d, v * 10 + d) v ds.
Proof.
  intros Hv Hds. revert v Hv. induction Hds as [|d ds Hd _ IH]; intros v Hv; [simpl; lia|]. simpl.
  specialize (IH (v * 10 + d) ltac:(lia)). lia.
Qed.

Lemma read_number_digits ds v c rest :
  Forall (λ d, 0 <= d <= 9) ds → 0 <= v → foldl (λ v d, v * 10 + d) v ds <= INT_MAX → c ≠ 0 → isdigit c = false →
  read_number v (((λ d, 48 + d) <$> ds) ++ c :: rest) = Next (foldl (λ v d, v * 10 + d) v ds, c, rest).
Proof.
  intros Hds. revert v. induction Hds as [|d ds Hd Hds IH]; intros v Hv Hmax Hc0 Hc.
  { simpl. by rewrite decide_False, Hc. }
  cbn [fmap list_fmap map app read_number]. rewrite decide_False by lia.
  replace (isdigit (48 + d)) with true by (symmetry; apply isdigit_spec; lia).
  simpl in Hmax. pose proof (foldl_mono ds (v * 10 + d) ltac:(lia) Hds).
  replace (v * 10 + (48 + d - 48)) with (v * 10 + d) by lia. rewrite decide_False by lia.
  apply IH; [lia|done..].
Qed.

Lemma read_size sz v ap ap' c rest :
  size_ok sz → size_value sz ap = Some (v, ap') → c ≠ 0 → c ≠ 42 → isdigit c = false →
  read_star_or_number (unparse_size sz ++ c :: rest) ap = Next (v, c, rest, ap').
Proof.
  intros Hsz Hv Hc0 Hc42 Hc. unfold read_star_or_number. destruct sz as [ds|]; cbn [unparse_size size_value] in *.
  - destruct Hsz as [Hds Hmax]. injection Hv as <- <-.
    rewrite <-(app_nil_l (_ <$> _)), <-app_assoc. change [] with (flag false 42). rewrite skip_flag.
    + cbn. by rewrite (read_number_digits ds 0).
    + by destruct ds.
    + intros _. destruct Hds; cbn; lia.
  - destruct ap as [|[z| |] ap]; [done| |done..]. injection Hv as <- <-. reflexivity.
Qed.

Lemma conv_not c k : conv_ok c → k ∈ [0; 42; 43; 45; 46; 76; 108] → c ≠ k.
Proof. by intros [H _] Hk ->. Qed.

(** The character behind a width or precision, and what the parser does with the rest. *)
Lemma long_end s rest : conv_ok (s_conv s) →
  ∃ c tl long, flag (s_long s) 108 ++ s_conv s :: rest = c :: tl ∧
    parse_long c tl = Next (long, s_conv s, rest) ∧
    (∀ k, k ∈ [0; 42; 43; 45; 46] → c ≠ k) ∧ isdigit c = false.
Proof.
  intros Hc. destruct (s_long s); eexists _, _, _; (split; [done|]).
  - split_and!; [|by intros k Hk <-; revert Hk; apply (bool_decide_unpack _); vm_compute|done].
    unfold parse_long, next_nonzero. rewrite decide_True by (by left). cbn. by rewrite decide_False by (by apply (conv_not _ 0); [|left]).
  - split_and!; [| |apply Hc].
    + unfold parse_long. rewrite decide_False; [done|].
      intros [E|E]; revert E; apply conv_not; [done| |done|]; by apply (bool_decide_unpack _); vm_compute.
    + intros k Hk. apply conv_not; [done|]. set_solver.
Qed.
Lemma precision_end s ap1 p ap2 rest :
  match s_prec s with Some sz => size_ok sz | None => True end → conv_ok (s_conv s) →
  prec_value (s_prec s) ap1 = Some (p, ap2) →
  ∃ c tl c' tl' long, unparse_end s ++ rest = c :: tl ∧ parse_precision c tl ap1 = Next (p, c', tl', ap2) ∧
    parse_long c' tl' = Next (long, s_conv s, rest) ∧ (∀ k, k ∈ [0; 42; 43; 45] → c ≠ k) ∧ isdigit c = false.
Proof.
  intros Hp Hc Hpv. destruct (long_end s rest Hc) as (c' & tl' & long & He & Hl & Hk & Hd).
  unfold unparse_end. rewrite <-!app_assoc. cbn [app]. rewrite He.
  assert (c' ≠ 0 ∧ c' ≠ 42 ∧ c' ≠ 46) as (H0 & H42 & H46)
    by (split_and!; apply Hk; by apply (bool_decide_unpack _); vm_compute).
  destruct (s_prec s) as [sz|]; cbn [prec_value] in Hpv.
  - exists 46, (unparse_size sz ++ c' :: tl'), c', tl', long. split; [done|]. split; [|split; [done|]; split; [|done]].
    + unfold parse_precision. rewrite decide_True by done.
      assert (∃ d r, unparse_size sz ++ c' :: tl' = d :: r ∧ d ≠ 0) as (d & r & E & Hdz).
      { destruct sz as [[|d ds]|]; [by eexists _, _| |by eexists _, _]. destruct Hp as [Hds _].
        apply Forall_cons in Hds as [Hdd _]. eexists _, _. split; [done|lia]. }
      unfold next_nonzero. rewrite E. cbn [next_char mbind piece_bind]. rewrite decide_False by done.
      rewrite <-E. by apply read_size.
    + intros k Hk' <-. revert Hk'. by apply (bool_decide_unpack _); vm_compute.
  - injection Hpv as <- <-. eexists c', tl', c', tl', long. split; [done|]. split; [|split; [done|]; split; [|done]].
    + unfold parse_precision. by rewrite decide_False.
    + intros k Hk'. apply Hk. set_solver.
Qed.

Lemma parse_spec s ap w ap1 p ap2 rest :
  item_ok (Dir s) → size_value (s_width s) ap = Some (w, ap1) → prec_value (s_prec s) ap1 = Some (p, ap2) →
  ∃ long, parse_directive (unparse_spec s ++ rest) ap =
    Next (mk_directive (s_left s) (s_plus s) (if s_zero s then 48 else 32) w p long (s_conv s), rest, ap2).
Proof.
  intros (Hw & Hz & Hp & Hc) Hwv Hpv.
  destruct (precision_end s ap1 p ap2 rest Hp Hc Hpv) as (c & tl & c' & tl' & long & He & Hpp & Hpl & Hk & Hcd).
  assert (c ≠ 0 ∧ c ≠ 42 ∧ c ≠ 43 ∧ c ≠ 45) as (Hc0 & Hc42 & Hc43 & Hc45)
    by (split_and!; apply Hk; by apply (bool_decide_unpack _); vm_compute).
  assert (¬ (48 <= c <= 57)) as Hcn by (rewrite <-isdigit_spec, Hcd; done).
  exists long. unfold unparse_spec, parse_directive. rewrite <-!app_assoc, He.
  set (W := unparse_size (s_width s) ++ c :: tl).
  assert (char_at W ≠ 45 ∧ char_at W ≠ 43 ∧ W ≠ [] ∧ (s_zero s = false → char_at W ≠ 48)) as (HW45 & HW43 & HWne & HW48).
  { unfold W. destruct (s_width s) as [[|d ds]|]; [split_and!; [done..|cbn; lia]| |by split_and!].
    destruct Hw as [Hds _]. apply Forall_cons in Hds as [Hd _].
    split_and!; [cbn; lia|cbn; lia|done|]. intros Hf. destruct (Hz Hf) as [?|H]; [done|exact H]. }
  rewrite skip_flag; [|by destruct (s_plus s), (s_zero s)|intros _; by destruct (s_plus s), (s_zero s)].
  cbn [mbind piece_bind]. rewrite skip_flag; [|by destruct (s_zero s)|intros _; by destruct (s_zero s)].
  cbn [mbind piece_bind]. rewrite skip_flag by done. cbn [mbind piece_bind]. unfold W.
  rewrite (read_size _ w _ ap1) by done. cbn [mbind piece_bind]. rewrite Hpp. cbn [mbind piece_bind]. by rewrite Hpl.
Qed.

(** ** Conversions *)

Lemma print_signed_runs plus l :
  INT_MIN < l <= INT_MAX →
  ∃ ds, print_signed plus l = Next ((if decide (l < 0) then [45] else flag plus 43) ++ digit_text ds) ∧
    numeral 10 (Z.abs l) ds.
Proof.
  unfold INT_MIN, INT_MAX. intros Hl. unfold print_signed. case_decide.
  - rewrite decide_False by (unfold INT_MIN; lia). rewrite Z.abs_neq by lia. apply ltoa_runs; [done|lia|simpl; lia].
  - rewrite Z.abs_eq by lia. apply ltoa_runs; [done|lia|by destruct plus; simpl; lia].
Qed.

(** The digits of a number are unique. *)
Lemma numeral_unique radix v ds ds' : 2 <= radix → numeral radix v ds → numeral radix v ds' → ds = ds'.
Proof.
  intros Hr. revert v ds'. induction ds as [|d ds IH] using rev_ind; intros v ds' H H'; [by destruct H|].
  destruct H' as (Hne' & Hds' & Hv' & Hh'). destruct H as (_ & Hds & Hv & Hh).
  destruct ds' as [|d' ds' _] using rev_ind; [done|]. apply Forall_app in Hds as [Hds Hd], Hds' as [Hds' Hd'].
  apply Forall_cons in Hd as [Hd _], Hd' as [Hd' _].
  rewrite digits_value_snoc in Hv, Hv'.
  assert (d = d' ∧ digits_value radix ds = digits_value radix ds') as [-> Heq].
  { assert (d = v `mod` radix) by (rewrite <-Hv, Z.add_comm, Z.mod_add, Z.mod_small; lia).
    assert (d' = v `mod` radix) by (rewrite <-Hv', Z.add_comm, Z.mod_add, Z.mod_small; lia). split; [lia|nia]. }
  f_equal. assert (∀ e es, Forall (λ d, 0 <= d < radix) (e :: es) → 1 <= e → digits_value radix (e :: es) ≠ 0) as Hpos.
  { intros e es [He Hes]%Forall_cons He1. pose proof (digits_value_lower radix es e ltac:(lia) ltac:(lia) Hes).
    pose proof (Z.pow_pos_nonneg radix (Z.of_nat (length es)) ltac:(lia) ltac:(lia)). nia. }
  destruct ds as [|e es], ds' as [|e' es']; [done|exfalso..|].
  - apply Forall_cons in Hds' as He'. destruct (decide (e' = 0)) as [->|]; [by destruct es'; specialize (Hh' eq_refl)|].
    by apply (Hpos e' es' Hds' ltac:(lia)).
  - apply Forall_cons in Hds as He. destruct (decide (e = 0)) as [->|]; [by destruct es; specialize (Hh eq_refl)|].
    by apply (Hpos e es Hds ltac:(lia)).
  - apply (IH (digits_value radix (e :: es))).
    + split_and!; [done..|]. intros [= ->]. by destruct es; specialize (Hh eq_refl).
    + split_and!; [done..|]. intros [= ->]. by destruct es'; specialize (Hh' eq_refl).
Qed.

Lemma radix_bounds c radix : radix_of c = Some radix → 8 <= radix <= 16.
Proof. unfold radix_of. repeat case_decide; intros [= <-]; lia. Qed.

Lemma convert_means d ap text own ap' :
  means (conv d) (do_sign d) (precision d) ap text own ap' →
  convert d ap = Next (text, if own then filler d else 32, ap').
Proof.
  intros H. unfold convert. inversion H as [z ap0 Hc|s text0 ap0 Hc Hsh|z ds ap0 Hc Hl Hn|radix z ds ap0 Hc Hn|ap0 Hc Hs Hr]; subst.
  - rewrite decide_True by done. cbn [take_int mbind piece_bind]. by rewrite <-(u8_u32 (to_int z)), to_int_u32, u8_u32.
  - rewrite decide_False, decide_True by (rewrite Hc; done). by apply shows_iff in Hsh as ->.
  - assert (conv d ≠ 99 ∧ conv d ≠ 115) as [??] by (split; intros E; unfold signed_conv in Hc; rewrite E in Hc; set_solver).
    rewrite !decide_False, decide_True by done. cbn [take_int mbind piece_bind].
    destruct (print_signed_runs (do_sign d) (to_int z)) as (ds' & -> & Hn'); [split; [done|apply to_int_range]|].
    by rewrite (numeral_unique 10 _ ds ds' ltac:(lia) Hn Hn').
  - assert (∃ ds', ch_ltoa [] (to_int z) radix = Next (digit_text ds') ∧ numeral radix (u32 z) ds') as (ds' & E & Hn').
    { rewrite ltoa_bits, to_int_u32. apply (ltoa_runs []); [by eapply radix_bounds|apply u32_range|simpl; lia]. }
    rewrite (numeral_unique radix _ ds ds') by (done || apply radix_bounds in Hc; lia).
    assert (conv d ∉ [99; 115; 68; 100; 73; 105; 102]) as Hno.
    { intros Hin. unfold radix_of in Hc. revert Hc. rewrite !elem_of_cons in Hin.
      destruct Hin as [->|[->|[->|[->|[->|[->|[->|[]%not_elem_of_nil]]]]]]]; by vm_compute. }
    rewrite !not_elem_of_cons in Hno. destruct Hno as (?&?&?&?&?&?&?&_).
    rewrite 2!decide_False by done. rewrite decide_False by set_solver. rewrite decide_False by done.
    unfold radix_of in Hc. repeat case_decide; try done; injection Hc as <-; cbn [take_int mbind piece_bind]; by rewrite E.
  - rewrite !not_elem_of_cons in Hc. destruct Hc as (?&?&?&_). unfold radix_of in Hr.
    rewrite 2!decide_False by done. rewrite decide_False by done. rewrite decide_False by done.
    repeat (case_decide; [done|]). done.
Qed.

(** ** Output *)

Section Stream.
Context {S : Type} (put : Z → M S Z).

Fixpoint put_bytes (bs : list Z) : M S unit :=
  match bs with
  | [] => mret tt
  | b :: bs => _ ← put b; put_bytes bs
  end.
(** [m] puts [bs] and counts them. *)
Definition emits (m : Z → M S Z) (bs : list Z) : Prop :=
  ∀ n s, m n s = (put_bytes bs;; mret (n + Z.of_nat (length bs))) s.

Lemma put_bytes_app b1 b2 s : put_bytes (b1 ++ b2) s = (put_bytes b1;; put_bytes b2) s.
Proof.
  revert s. induction b1 as [|b b1 IH]; intros s; [done|]. cbn [app put_bytes]. unfold mbind, M_bind in *.
  destruct (put b s) as [a s'|]; [|done]. by rewrite IH.
Qed.
Lemma emits_seq m1 m2 b1 b2 : emits m1 b1 → emits m2 b2 → emits (λ n, n ← m1 n; m2 n) (b1 ++ b2).
Proof.
  intros H1 H2 n s. unfold mbind at 1, M_bind at 1. rewrite H1. unfold mbind, M_bind in *.
  rewrite put_bytes_app. unfold mbind, M_bind. destruct (put_bytes b1 s) as [[] s'|]; [|done]. cbn.
  rewrite H2. unfold mbind, M_bind. destruct (put_bytes b2 s'); [|done]. cbn. f_equal. rewrite length_app. lia.
Qed.
Lemma emits_put b m bs : emits m bs → emits (λ n, _ ← put b; m (n + 1)) (b :: bs).
Proof.
  intros H n s. cbn [put_bytes length]. unfold mbind, M_bind. destruct (put b s) as [a s'|]; [|done].
  rewrite H. unfold mbind, M_bind. destruct (put_bytes bs s'); [|done]. cbn. f_equal. lia.
Qed.
Lemma emits_nil : emits mret [].
Proof. intros n s. cbn. by rewrite Z.add_0_r. Qed.

Lemma put_text_emits s : emits (put_text put s) (u8 <$> s).
Proof. induction s as [|c s IH]; [apply emits_nil|]. cbn [put_text fmap list_fmap map]. by apply emits_put. Qed.
Lemma put_filler_emits k f : emits (put_filler put k f) (u8 <$> replicate k f).
Proof. induction k as [|k IH]; [apply emits_nil|]. cbn [put_filler replicate fmap list_fmap map]. by apply emits_put. Qed.

Lemma emits_ext m m' bs : (∀ n s, m n s = m' n s) → emits m' bs → emits m bs.
Proof. intros E H n s. by rewrite E. Qed.

(** The end of a field: filler, text and no filler behind it. *)
Lemma fill_text_emits k f s :
  emits (λ n, n ← put_filler put k f n; n ← put_text put s n; put_filler put 0 f n) (u8 <$> replicate k f ++ s).
Proof.
  rewrite fmap_app.
  apply (emits_seq (put_filler put k f) (λ n, n ← put_text put s n; put_filler put 0 f n)); [apply put_filler_emits|].
  rewrite <-(app_nil_r (u8 <$> s)). apply emits_seq; [apply put_text_emits|apply emits_nil].
Qed.

Lemma put_padded_emits align filler width s :
  emits (put_padded put align filler width s) (u8 <$> pad align filler width s).
Proof.
  unfold pad. set (k := Z.to_nat (width - Z.of_nat (length s))).
  set (w := if decide (width - Z.of_nat (length s) < 0) then 0 else width - Z.of_nat (length s)).
  assert (k = Z.to_nat w) as Hk by (unfold k, w; case_decide; lia). assert (0 <= w) as Hw by (unfold w; case_decide; lia).
  unfold put_padded. fold w. clearbody w. destruct align.
  - eapply emits_ext; [intros n st; by rewrite !decide_False by lia|]. rewrite fmap_app, Hk.
    apply (emits_seq (put_text put s)); [apply put_text_emits|apply put_filler_emits].
  - destruct (decide (w = 0)) as [->|Hw0].
    { eapply emits_ext; [intros n st; by rewrite !decide_False by lia|]. rewrite Hk. cbn [Z.to_nat replicate].
      case_decide; [rewrite app_nil_l, take_drop|]; apply (fill_text_emits 0). }
    destruct (decide ((char_at s = 45 ∨ char_at s = 43) ∧ filler = 48)) as [[Hs Hf]|Hns].
    + destruct s as [|c s]; [by destruct Hs|]. cbn [take drop app fmap list_fmap map].
      refine (emits_ext _ _ _ _ (emits_put (u8 c) _ _ (fill_text_emits k filler s))). intros n st.
      rewrite !(decide_True (P := - w < 0)), Z.opp_involutive, <-Hk by lia. unfold mbind, M_bind.
      cbn [char_at head default from_option id tail].
      destruct (put (u8 c) st) as [a s'|]; [|done]. cbn. by destruct (put_filler put k filler (n + 1) s').
    + refine (emits_ext _ _ _ _ (fill_text_emits k filler s)). intros n st.
      rewrite !(decide_True (P := - w < 0)), Z.opp_involutive, <-Hk by lia. unfold mbind, M_bind. cbn.
      by destruct (put_filler put k filler n st).
Qed.

Lemma loop_renders items ap out :
  Forall item_ok items → renders items ap out →
  ∀ fuel, (length (unparse items) < fuel)%nat → emits (chvprintf_loop put fuel (unparse items ++ [0]) ap) out.
Proof.
  intros Hok H. induction H as [ap|ch items ap out _ IH|s w ap1 p ap2 text own ap3 items ap out Hw Hp Hm Hmin _ IH];
    intros [|fuel] Hf; try (cbn in Hf; lia).
  - eapply emits_ext; [|apply emits_nil]. intros n st. cbn [unparse mbind list_bind app chvprintf_loop]. by rewrite decide_True.
  - apply Forall_cons in Hok as [[H0 H37] Hok].
    eapply emits_ext; [|apply (emits_put (u8 ch) _ _ (IH Hok fuel ltac:(apply Nat.succ_lt_mono; exact Hf)))].
    intros n st. cbn [unparse mbind list_bind unparse_item app chvprintf_loop].
    by rewrite decide_False, decide_True.
  - apply Forall_cons in Hok as [Hs Hok].
    assert (length (unparse items) < fuel)%nat as Hfl.
    { unfold unparse in Hf |- *. cbn [mbind list_bind unparse_item] in Hf. rewrite length_app in Hf. cbn [length] in Hf. lia. }
    destruct (parse_spec s ap w ap1 p ap2 (unparse items ++ [0]) Hs Hw Hp) as [long Hparse].
    pose proof (convert_means (mk_directive (s_left s) (s_plus s) (if s_zero s then 48 else 32) w p long (s_conv s))
      ap2 text own ap3 Hm) as Hconv.
    eapply emits_ext; [|apply (emits_seq _ _ _ _ (put_padded_emits (s_left s) (if s_zero s && own then 48 else 32) w text)
      (IH Hok fuel Hfl))].
    intros n st. change (unparse (Dir s :: items)) with (37 :: (unparse_spec s ++ unparse items)).
    rewrite <-app_comm_cons, <-app_assoc. cbn [chvprintf_loop].
    rewrite decide_False, decide_False by (by intros H; try apply H).
    rewrite Hparse. cbn [mbind piece_bind]. rewrite Hconv. cbn [mbind piece_bind width left_align].
    rewrite decide_False by lia. by destruct own, (s_zero s).
Qed.
End Stream.

(** C30. Formatted output over any stream: for every format in the syntax of this file (flags,
    widths and precisions, given or taken from the arguments, and every conversion but [%f])
    and arguments it renders, [chvprintf] puts exactly the rendered text into the stream, byte
    by byte and in order, and returns its length, whatever the stream answers.  The text is
    that of a reference of its own: numbers as their digits in the radix, read off a table of
    characters; strings as the longest prefix within the precision. *)
Theorem chvprintf_renders {S} (put : Z → M S Z) items ap out s :
  Forall item_ok items → renders items ap out →
  chvprintf put (unparse items) ap s = (put_bytes put out;; mret (Z.of_nat (length out))) s.
Proof. intros Hok Hr. apply (loop_renders put items ap out Hok Hr). lia. Qed.

(** ** Formats that fit their arguments *)

#[export] Instance size_eq_dec : EqDecision size.
Proof. solve_decision. Defined.
#[export] Instance item_ok_dec i : Decision (item_ok i).
Proof. destruct i as [ch|s]; unfold item_ok; [apply _|]. destruct (s_width s), (s_prec s) as [[]|]; unfold size_ok, conv_ok; apply _. Defined.

(** The arguments a conversion takes, each with what it has to satisfy; a width or
    precision of [*] and [%f] are not covered. *)
Fixpoint accepts (items : list item) (ap : list va) : Prop :=
  match items with
  | [] => ap = []
  | Lit _ :: items => accepts items ap
  | Dir s :: items =>
      match s_width s, s_prec s with
      | Num _, (None | Some (Num _)) =>
          if bool_decide (s_conv s = 99) then match ap with VInt _ :: ap => accepts items ap | _ => False end
          else if bool_decide (s_conv s = 115) then match ap with VStr _ :: ap => accepts items ap | _ => False end
          else if bool_decide (signed_conv (s_conv s)) then
            match ap with VInt z :: ap => INT_MIN < to_int z ∧ accepts items ap | _ => False end
          else match radix_of (s_conv s) with
               | Some _ => match ap with VInt _ :: ap => accepts items ap | _ => False end
               | None => s_conv s ≠ 102 ∧ accepts items ap
               end
      | _, _ => False
      end
  end.

Lemma digits_value_nonneg_radix radix ds : 1 <= radix → Forall (λ d, 0 <= d < radix) ds → 0 <= digits_value radix ds.
Proof.
  intros Hr. induction ds as [|d ds IH] using rev_ind; [done|]. intros [Hds Hd]%Forall_app. rewrite digits_value_snoc.
  apply Forall_cons in Hd as [Hd _]. specialize (IH Hds). nia.
Qed.
Lemma digits_value_nonneg ds : Forall (λ d, 0 <= d <= 9) ds → 0 <= digits_value 10 ds.
Proof. intros H. by apply foldl_mono. Qed.

Lemma numeral_exists radix v : 8 <= radix <= 16 → 0 <= v < 2 ^ 32 → ∃ ds, numeral radix v ds ∧ (length ds ≤ 11)%nat.
Proof.
  intros Hr Hv. destruct (ltoa_runs [] v radix Hr Hv ltac:(simpl; lia)) as (ds & _ & Hn). exists ds. split; [done|].
  eapply (numeral_length radix v ds 11); [lia|done| |lia].
  eapply Z.lt_le_trans; [apply Hv|]. transitivity (8 ^ Z.of_nat 11); [done|apply Z.pow_le_mono_l; lia].
Qed.

Lemma string_text_length s p : p <= INT_MAX → Z.of_nat (length (string_text s p)) <= INT_MAX.
Proof. unfold string_text, INT_MAX. intros Hp. rewrite length_take. case_decide; lia. Qed.

(** A conversion in its field, when the text is no longer than an [int] can count. *)
Lemma renders_field s ds p ap text own ap' items :
  s_width s = Num ds → size_ok (Num ds) → prec_value (s_prec s) ap = Some (p, ap) →
  means (s_conv s) (s_plus s) p ap text own ap' → Z.of_nat (length text) <= INT_MAX →
  (∃ out, renders items ap' out) → ∃ out, renders (Dir s :: items) ap out.
Proof.
  intros Hw Hwok Hp Hm Hlen [out Hr]. eexists. eapply renders_dir; [by rewrite Hw|exact Hp|exact Hm| |exact Hr].
  destruct Hwok as [Hds _]. pose proof (digits_value_nonneg ds Hds). unfold INT_MIN, INT_MAX in *. lia.
Qed.

Lemma digit_text_length ds : length (digit_text ds) = length ds.
Proof. apply length_fmap. Qed.

Lemma accepts_renders items ap : Forall item_ok items → accepts items ap → ∃ out, renders items ap out.
Proof.
  intros Hok. revert ap. induction Hok as [|[ch|s] items Hi Hok IH]; intros ap Ha; [by exists []; constructor|..].
  { destruct (IH ap Ha) as [out Hr]. eexists. by constructor. }
  cbn [accepts] in Ha. destruct Hi as (Hw & _ & Hp & _). destruct (s_width s) as [ds|] eqn:Esw; [|done].
  assert (∃ p, p <= INT_MAX ∧ (∀ ap, prec_value (s_prec s) ap = Some (p, ap)) ∧
    (match s_prec s with None | Some (Num _) => True | _ => False end)) as (p & Hpm & Hpv & Hps).
  { destruct (s_prec s) as [[ps|]|]; [|done|by exists 0]. exists (digits_value 10 ps). by split; [apply Hp|]. }
  destruct (s_prec s) as [[ps|]|] eqn:Esp; try done.
  all: rewrite <-Esp in Hpv; clear Esp Hps Hp.
  all: destruct (bool_decide_reflect (s_conv s = 99)) as [Hc|Hn99];
    [destruct ap as [|[z| |] ap]; try done; eapply renders_field; [done..|by apply Hpv|by apply means_char|done|by apply IH]|].
  all: destruct (bool_decide_reflect (s_conv s = 115)) as [Hc|Hn115];
    [destruct ap as [|[|str|] ap]; try done; eapply renders_field; [done..|by apply Hpv|by apply means_string, shows_iff|by apply string_text_length|by apply IH]|].
  all: destruct (bool_decide_reflect (signed_conv (s_conv s))) as [Hc|Hns];
    [destruct ap as [|[z| |] ap]; try done; destruct Ha as [Hz Ha];
     pose proof (to_int_range z); unfold INT_MIN, INT_MAX in *;
     destruct (numeral_exists 10 (Z.abs (to_int z))) as (nd & Hnum & Hlen); [lia..|];
     eapply renders_field; [done..|by apply Hpv|by eapply means_signed| |by apply IH];
     rewrite length_app, digit_text_length; case_decide; [|destruct (s_plus s)]; cbn [length flag]; unfold INT_MAX; lia|].
  all: destruct (radix_of (s_conv s)) as [radix|] eqn:Erx;
    [destruct ap as [|[z| |] ap]; try done;
     destruct (numeral_exists radix (u32 z)) as (nd & Hnum & Hlen); [by eapply radix_bounds|apply u32_range|];
     eapply renders_field; [done..|by apply Hpv|by eapply means_unsigned| |by apply IH];
     rewrite digit_text_length; unfold INT_MAX; lia
    |destruct Ha as [H102 Ha]; eapply renders_field; [done..|by apply Hpv|apply means_other; [rewrite !not_elem_of_cons; split_and!; [done..|apply not_elem_of_nil]|done..]|done|by apply IH]].
Qed.

(** A reader of formats with plain widths, for concrete formats. *)
Fixpoint take_digit_run (fmt : list Z) : list Z * list Z :=
  match fmt with
  | c :: rest => if isdigit c then let '(ds, r) := take_digit_run rest in (c - 48 :: ds, r) else ([], fmt)
  | [] => ([], [])
  end.
Definition take_flag (c : Z) (fmt : list Z) : bool * list Z :=
  match fmt with d :: rest => if bool_decide (d = c) then (true, rest) else (false, fmt) | [] => (false, []) end.
Fixpoint items_of (fuel : nat) (fmt : list Z) : list item :=
  match fuel, fmt with
  | S fuel, c :: fmt =>
      if bool_decide (c = 37) then
        let '(l, fmt) := take_flag 45 fmt in
        let '(p, fmt) := take_flag 43 fmt in
        let '(z, fmt) := take_flag 48 fmt in
        let '(ds, fmt) := take_digit_run fmt in
        let '(long, fmt) := take_flag 108 fmt in
        Dir (mk_spec l p z (Num ds) None long (char_at fmt)) :: items_of fuel (tail fmt)
      else Lit c :: items_of fuel fmt
  | _, _ => []
  end.
(** The reader is right about [fmt]. *)
Definition format_ok (fmt : list Z) : bool :=
  let items := items_of (length fmt) fmt in bool_decide (unparse items = fmt) && bool_decide (Forall item_ok items).

Lemma format_runs fmt ap :
  format_ok fmt = true → accepts (items_of (length fmt) fmt) ap →
  ∃ out, ∀ S (put : Z → M S Z) s, chvprintf put fmt ap s = (put_bytes put out;; mret (Z.of_nat (length out))) s.
Proof.
  unfold format_ok. set (items := items_of _ fmt). rewrite andb_true_iff, !bool_decide_eq_true. intros [Hu Hok] Ha.
  destruct (accepts_renders items ap Hok Ha) as [out Hr]. exists out. intros S put s.
  rewrite <-Hu. apply (loop_renders put items ap out Hok Hr). lia.
Qed.

Lemma chvprintf_renders_witness :
  let d := mk_spec false false false (Num []) None false 100 in
  let x := mk_spec false false true (Num [2]) None false 88 in
  let items := [Lit 110; Dir d; Lit 32; Dir x] in
  let put := (λ b s, Ok 0 (s ++ [b])) : Z → M (list Z) Z in
  unparse items = chars "n%d %02X" ∧
  chvprintf put (unparse items) [VInt (-76); VInt 12] [] = (put_bytes put [110; 45; 55; 54; 32; 48; 67];; mret 7) [].
Proof.
  intros d x items put. split; [done|].
  refine (chvprintf_renders put items [VInt (-76); VInt 12] [110; 45; 55; 54; 32; 48; 67] [] _ _); [by_decision|].
  assert (means 100 false 0 [VInt (-76); VInt 12] [45; 55; 54] true [VInt 12]) as Hd.
  { apply (means_signed 100 false 0 (-76) [7; 6]); [by_decision|done|]. split_and!; [done| |done|done]. repeat constructor; lia. }
  assert (means 88 false 0 [VInt 12] [67] true []) as Hx.
  { apply (means_unsigned 88 false 0 16 12 [12]); [done|]. split_and!; [done| |done|done]. repeat constructor; lia. }
  apply (renders_lit 110).
  refine (renders_dir d 0 [VInt (-76); VInt 12] 0 [VInt (-76); VInt 12] [45; 55; 54] true [VInt 12] [Lit 32; Dir x] _
    [32; 48; 67] eq_refl eq_refl Hd _ _); [by apply Z.leb_le|].
  apply (renders_lit 32).
  refine (renders_dir x 2 [VInt 12] 0 [VInt 12] [67] true [] [] _ [] eq_refl eq_refl Hx _ (renders_nil [])). by apply Z.leb_le.
Defined.
