(* ===== verification/RttStream.v ===== *)
(** * The terminal as a channel: [src/src/RTT/SEGGER_RTT_Channel.c]

    The methods of [RTT_S0], over the control block of [RttRing.v].  A thread that finds no
    key sleeps and polls again; what happens meanwhile, the host's keys above all, comes
    from a schedule of the sleeps, and a wait that outlives its schedule is the fault
    [Diverged].  [ip] is not used by any method. *)
From S2P Require Import Prelude RttRing.

Definition STM_OK : Z := 0.
Definition STM_RESET : Z := -2.
Definition MSG_TIMEOUT : Z := -1.
Definition TIME_IMMEDIATE : Z := 0.
Definition TIME_INFINITE : Z := 4294967295.

(** What happens during each sleep of the thread. *)
Definition sleeps : Type := list (M rtt_cb unit).

Definition __writes (bp : list Z) (n : Z) : M rtt_cb Z := SEGGER_RTT_Write 0 bp n.

(** [r] has 16 bits; [bp] is the caller's buffer. *)
Fixpoint reads_loop (sl : sleeps) (bp : list Z) (n r : Z) : M rtt_cb (Z * list Z) :=
  '(k, bytes) ← SEGGER_RTT_Read 0 (u32 (n - r));
  bp ← mlift OutOfBounds (blit r bytes bp);
  let r := u16 (r + k) in
  if decide (r = n) then mret (n, bp)
  else match sl with
       | [] => mfail Diverged
       | a :: sl => a;; reads_loop sl bp n r
       end.
Definition __reads (sl : sleeps) (bp : list Z) (n : Z) : M rtt_cb (Z * list Z) := reads_loop sl bp n 0.

Definition __put (b : Z) : M rtt_cb Z :=
  k ← SEGGER_RTT_Write 0 [b] 1;
  mret (if decide (k ≠ 0) then STM_OK else STM_RESET).

Fixpoint __get (sl : sleeps) : M rtt_cb Z :=
  b ← SEGGER_RTT_GetKey;
  if decide (b < 0) then
    match sl with
    | [] => mfail Diverged
    | a :: sl => a;; __get sl
    end
  else mret b.

Definition __putt (b timeout : Z) : M rtt_cb Z := __put b.

Definition __gett (sl : sleeps) (timeout : Z) : M rtt_cb Z :=
  b ← SEGGER_RTT_GetKey;
  if decide (b >= 0) then mret b
  else if decide (timeout = TIME_IMMEDIATE) then mret MSG_TIMEOUT
  else if decide (timeout = TIME_INFINITE) then __get sl
  else match sl with
       | [] => mfail Diverged
       | a :: _ =>
           a;; b ← SEGGER_RTT_GetKey;
           mret (if decide (b >= 0) then b else MSG_TIMEOUT)
       end.

Definition __writet (bp : list Z) (n timeout : Z) : M rtt_cb Z := __writes bp n.

Definition __readt (sl : sleeps) (bp : list Z) (n timeout : Z) : M rtt_cb (Z * list Z) :=
  if decide (timeout = TIME_INFINITE) then reads_loop sl bp n 0
  else
    '(k, bytes) ← SEGGER_RTT_Read 0 n;
    bp ← mlift OutOfBounds (blit 0 bytes bp);
    let r := u16 k in
    if decide (timeout = TIME_IMMEDIATE) then mret (r, bp)
    else match sl with
         | [] => mfail Diverged
         | a :: _ =>
             a;; '(k, bytes) ← SEGGER_RTT_Read 0 (u32 (n - r));
             bp ← mlift OutOfBounds (blit r bytes bp);
             mret (u16 (r + k), bp)
         end.

Definition CHN_CTL_INVALID : Z := 0.
Definition CHN_CTL_NOP : Z := 1.
Definition HAL_RET_UNKNOWN_CTL : Z := -20.
(** The argument is only asserted on. *)
Definition __ctl (operation : Z) : Z :=
  if decide (operation = CHN_CTL_NOP) then 0 else HAL_RET_UNKNOWN_CTL.

(** The memory of channel 0 stays; the name and the memory given are not used. *)
Definition RTTchannelObjectInit : M rtt_cb unit :=
  _ ← SEGGER_RTT_ConfigUpBuffer 0 EmptyString None 0 SEGGER_RTT_MODE_NO_BLOCK_SKIP;
  mret tt.
