(* ===== verification/RttStreamProps.v ===== *)
(** * What the terminal's channel promises

    Writing through it is writing to the queue of up-buffer 0 until it is full; reading
    through it gives the host's keys in their order. *)
From S2P Require Import Prelude IpAddr RttRing RttFacts RttProps RttStream ChPrintf ChPrintfProps.

(** ** Writing *)

(** The terminal, ready for the channel: as [RTTchannelObjectInit] leaves it. *)
Definition terminal_up (cb : rtt_cb) (r : ring) : Prop :=
  initialised cb ∧ up_ring cb 0 = Some r ∧ ring_ok r ∧ SizeOfBuffer r <= 2147483648 ∧
  Flags r = SEGGER_RTT_MODE_NO_BLOCK_SKIP.

Lemma terminal_after cb r cb' r' :
  terminal_up cb r → only_up 0 cb cb' → up_ring cb' 0 = Some r' → ring_ok r' → same_shape r r' → terminal_up cb' r'.
Proof.
  intros (Hi & _ & _ & Hs & Hf) (_ & _ & _ & HID) Hr Hok (Hsz & Hfl & _).
  split_and!; [by unfold initialised in *; rewrite HID|done..|by rewrite Hsz|by rewrite Hfl].
Qed.

Lemma put_terminal b cb r :
  terminal_up cb r →
  ∃ cb' r', __put b cb = Ok (if decide (1 <= room r) then STM_OK else STM_RESET) cb' ∧ terminal_up cb' r' ∧
    only_up 0 cb cb' ∧ same_shape r r' ∧ contents r' = contents r ++ take (Z.to_nat (room r)) [b].
Proof.
  intros Ht. pose proof Ht as (Hi & Hr & Hok & Hs & Hf).
  destruct (room_free _ Hok) as [Hroom Hle].
  destruct (run_op_queue 0 (OpWrite [b]) cb r false Hi Hr Hok Hs) as (cb' & r' & E & Hr' & Hok' & Hsh & Hc & Ho); [done|done|].
  exists cb', r'. cbn [run_op queue_op length] in E, Hc.
  assert (SEGGER_RTT_WriteNoLock 0 [b] 1 cb = Ok (if decide (1 <= room r) then 1 else 0) cb') as Ew.
  { unfold mbind, M_bind in E. change (Z.of_nat 1) with 1 in E. destruct (SEGGER_RTT_WriteNoLock 0 [b] 1 cb) as [k c1|]; [|done].
    injection E as Ek <-. f_equal. rewrite Ek. repeat case_decide; lia. }
  split.
  { unfold __put, SEGGER_RTT_Write. rewrite (bind_ok _ _ _ (if decide (1 <= room r) then 1 else 0) cb').
    - by destruct (decide (1 <= room r)).
    - by rewrite init_done. }
  split; [by eapply terminal_after|]. split_and!; [done..|]. rewrite Hc. cbn [snd]. f_equal.
  destruct (decide (1 <= room r)).
  - rewrite decide_True by lia. by rewrite !take_ge by (simpl; lia).
  - rewrite decide_False by lia. by replace (Z.to_nat (room r)) with O by lia.
Qed.

(** Text goes in as far as there is room and is lost from there on. *)
Lemma put_bytes_terminal bs cb r :
  terminal_up cb r →
  ∃ cb' r', put_bytes __put bs cb = Ok tt cb' ∧ terminal_up cb' r' ∧ only_up 0 cb cb' ∧ same_shape r r' ∧
    contents r' = contents r ++ take (Z.to_nat (room r)) bs.
Proof.
  revert cb r. induction bs as [|b bs IH]; intros cb r Ht.
  { exists cb, r. rewrite take_nil, app_nil_r. by split_and!. }
  destruct (put_terminal b cb r Ht) as (cb1 & r1 & E1 & Ht1 & Ho1 & Hsh1 & Hc1).
  destruct (IH cb1 r1 Ht1) as (cb2 & r2 & E2 & Ht2 & Ho2 & Hsh2 & Hc2).
  exists cb2, r2. cbn [put_bytes]. rewrite (bind_ok _ _ _ _ _ E1), E2. split; [done|].
  split; [done|]. split; [by eapply only_up_trans|]. split.
  { destruct Hsh1 as (?&?&?), Hsh2 as (?&?&?). split_and!; congruence. }
  rewrite Hc2, Hc1, <-app_assoc. f_equal.
  assert (room r1 = if decide (1 <= room r) then room r - 1 else room r) as Hr1.
  { assert (used r1 = used r + Z.of_nat (Nat.min (Z.to_nat (room r)) 1)) as Hu
      by (unfold used; rewrite Hc1, length_app, length_take; simpl length; lia).
    unfold room at 1. rewrite Hu, (same_shape_capacity _ _ Hsh1). unfold room in *. case_decide; lia. }
  rewrite Hr1. destruct (decide (1 <= room r)).
  - replace (Z.to_nat (room r)) with (S (Z.to_nat (room r - 1))) by lia. cbn [take]. by rewrite take_nil.
  - by replace (Z.to_nat (room r)) with O by lia.
Qed.

(** C29. The program's console: a formatted line on the terminal's channel returns the length of
    its text; the host finds, behind what the buffer held, as much of the text as
    there is room for, in order and without gaps, and nothing else of the control block changes. *)
Theorem console_line items ap out cb r :
  Forall item_ok items → renders items ap out → terminal_up cb r →
  ∃ cb' r', chvprintf __put (unparse items) ap cb = Ok (Z.of_nat (length out)) cb' ∧
    terminal_up cb' r' ∧ only_up 0 cb cb' ∧ contents r' = contents r ++ take (Z.to_nat (room r)) out.
Proof.
  intros Hok Hr Ht. destruct (put_bytes_terminal out cb r Ht) as (cb' & r' & E & Ht' & Ho & _ & Hc).
  exists cb', r'. split_and!; [|done..]. unfold chvprintf.
  rewrite (loop_renders __put items ap out Hok Hr) by lia. by rewrite (bind_ok _ _ _ _ _ E).
Qed.

(** The block after [SEGGER_RTT_Init] and [RTTchannelObjectInit], with buffers of the real sizes. *)
Definition boot_cb : rtt_cb := mk_cb [] [] [] 0 (replicate 1024 0) (replicate 16 0) [[]; []; []].
Lemma console_line_witness :
  let d := mk_spec false false false (Num []) None false 100 in
  ∃ cb r cb' r', (SEGGER_RTT_Init;; RTTchannelObjectInit) boot_cb = Ok tt cb ∧
    chvprintf __put (unparse [Lit 104; Dir d]) [VInt 7] cb = Ok 2 cb' ∧
    terminal_up cb' r' ∧ only_up 0 cb cb' ∧ contents r' = contents r ++ [104; 55].
Proof.
  intros d. eexists _, (mk_ring "Terminal" (Some (replicate 1024 0)) 1024 0 0 0).
  assert (renders [Lit 104; Dir d] [VInt 7] [104; 55]) as Hr.
  { apply (renders_lit 104).
    refine (renders_dir d 0 [VInt 7] 0 [VInt 7] [55] true [] [] _ [] eq_refl eq_refl _ _ (renders_nil [])); [|by apply Z.leb_le].
    apply (means_signed 100 false 0 7 [7]); [by_decision|done|]. split_and!; [done| |done|done]. repeat constructor; lia. }
  edestruct (console_line [Lit 104; Dir d] [VInt 7] [104; 55]) as (cb' & r' & E & H); [by_decision|done| |].
  2: { exists cb', r'. split; [reflexivity|]. split; [exact E|]. exact H. }
  split_and!; [done|reflexivity| |by apply Z.leb_le|done].
  exists (replicate 1024 0). by split_and!; try (by apply Z.leb_le); try done.
Defined.

(** ** Reading *)

Definition keyboard (cb : rtt_cb) (r : ring) : Prop :=
  initialised cb ∧ aDown cb !! 0%nat = Some r ∧ ring_ok r ∧ Flags r = SEGGER_RTT_MODE_NO_BLOCK_SKIP.
(** What happens during a sleep adds the keys to down-buffer 0 if they fit, whatever else it does. *)
Definition delivers (a : M rtt_cb unit) (keys : list Z) : Prop :=
  ∀ cb r, keyboard cb r → Z.of_nat (length keys) <= room r →
    ∃ cb' r', a cb = Ok tt cb' ∧ keyboard cb' r' ∧ contents r' = contents r ++ keys ∧ same_shape r r'.

Lemma on_down_ok {A} (m : M chan A) cb r a r' h' :
  keyboard cb r → m (mk_chan r []) = Ok a (mk_chan r' h') → ring_ok r' → same_shape r r' →
  ∃ cb', on_down 0 m cb = Ok a cb' ∧ keyboard cb' r'.
Proof.
  intros (Hi & Hr & Hok & Hf) Hm Hok' (_ & Hf' & _). unfold on_down. change (Z.to_nat 0) with 0%nat. rewrite Hr, Hm.
  eexists. split; [done|]. split_and!; [done| |done|by rewrite Hf']. cbn [aDown rg]. apply list_lookup_insert_eq. by eapply lookup_lt_Some.
Qed.

Lemma read_keyboard cb r n :
  keyboard cb r → 0 <= n < 4294967296 →
  ∃ cb' r', SEGGER_RTT_Read 0 n cb = Ok (Z.min n (used r), take (Z.to_nat n) (contents r)) cb' ∧ keyboard cb' r' ∧
    contents r' = drop (Z.to_nat n) (contents r) ∧ same_shape r r'.
Proof.
  intros Hk Hn. pose proof Hk as (Hi & Hr & Hok & Hf).
  destruct (read_ring_spec (mk_chan r []) n Hok Hn) as (r' & E & Hc & Hok' & Hsh).
  destruct (on_down_ok _ cb r _ r' [] Hk E Hok' Hsh) as (cb' & E' & Hk').
  exists cb', r'. unfold SEGGER_RTT_Read, SEGGER_RTT_ReadNoLock. rewrite init_done by done. by split_and!.
Qed.

(** The host writes its keys as [SEGGER_RTT_WriteDownBuffer] does. *)
Definition host_types (keys : list Z) : M rtt_cb unit :=
  _ ← SEGGER_RTT_WriteDownBuffer 0 keys (Z.of_nat (length keys)); mret tt.
Lemma host_types_delivers keys : delivers (host_types keys) keys.
Proof.
  intros cb r Hk Hlen. pose proof Hk as (Hi & Hr & Hok & Hf). destruct (room_free _ Hok) as [Hroom Hle].
  pose proof (write_by_mode_queue (mk_chan r []) keys false Hok) as Hw. cbn [rg host queue_op] in Hw.
  rewrite decide_True, take_ge in Hw by lia.
  destruct Hw as (r' & E & Hok' & Hc & Hsh).
  { destruct Hok as (buf & _ & Hb & Hs & _). unfold room, capacity, used in *. lia. }
  { done. }
  destruct (on_down_ok _ cb r _ r' [] Hk E Hok' Hsh) as (cb' & E' & Hk').
  exists cb', r'. split; [|by split_and!]. unfold host_types, SEGGER_RTT_WriteDownBuffer.
  rewrite (bind_ok _ _ _ (Z.of_nat (length keys)) cb'); [done|]. rewrite init_done by done. exact E'.
Qed.

Lemma blit_runs off src buf :
  0 <= off → off + Z.of_nat (length src) <= Z.of_nat (length buf) →
  blit off src buf = Some (take (Z.to_nat off) buf ++ src ++ drop (Z.to_nat off + length src) buf).
Proof. intros. unfold blit. by rewrite decide_True. Qed.

Lemma reads_loop_runs sl keys bp n k cb r :
  Forall2 delivers sl keys → Forall (λ ks, Z.of_nat (length ks) <= capacity r) keys → keyboard cb r →
  0 <= k <= n → n <= 65535 → n <= Z.of_nat (length bp) →
  n - k <= Z.of_nat (length (contents r ++ concat keys)) →
  ∃ cb' r' j, reads_loop sl bp n k cb =
      Ok (n, take (Z.to_nat k) bp ++ take (Z.to_nat (n - k)) (contents r ++ concat keys) ++ drop (Z.to_nat n) bp) cb' ∧
    keyboard cb' r' ∧ contents r ++ concat (take j keys) = take (Z.to_nat (n - k)) (contents r ++ concat keys) ++ contents r'.
Proof.
  intros Hd. revert bp k cb r. induction Hd as [|a ks sl keys Ha Hd IH]; intros bp k cb r Hfit Hkb Hk Hn Hbp Hen.
  all: destruct (read_keyboard cb r (u32 (n - k)) Hkb) as (cb1 & r1 & E1 & Hk1 & Hc1 & Hsh1); [apply u32_range|].
  all: rewrite u32_id in E1, Hc1 by (unfold is_u32; lia).
  all: set (m := Z.min (n - k) (used r)) in *; set (got := take (Z.to_nat (n - k)) (contents r)) in *.
  all: assert (Z.of_nat (length got) = m) as Hgot by (unfold got, m, used; rewrite length_take; lia).
  all: assert (u16 (k + m) = k + m) as Hu16 by (apply Z.mod_small; unfold m, used; lia).
  all: cbn [reads_loop]; rewrite (u32_id (n - k)), (bind_ok _ _ _ _ _ E1), (bind_lift _ _ _ _ _ (blit_runs k got bp ltac:(lia) ltac:(lia))), Hu16
    by (unfold is_u32; lia).
  - cbn [concat] in Hen. rewrite app_nil_r in Hen. assert (m = n - k) as Hm by (unfold m, used; lia).
    rewrite decide_True by lia. exists cb1, r1, 0%nat. cbn [take concat]. rewrite !app_nil_r. fold got.
    split; [|split; [done|by unfold got; rewrite Hc1, take_drop]]. do 5 f_equal. lia.
  - destruct (decide (k + m = n)) as [Hm|Hm].
    + exists cb1, r1, 0%nat. cbn [take concat]. rewrite app_nil_r.
      assert (Z.to_nat (n - k) ≤ length (contents r))%nat by (unfold m, used in *; lia).
      rewrite take_app_le by done. fold got. split; [|split; [done|by unfold got; rewrite Hc1, take_drop]]. do 5 f_equal. lia.
    + assert (m = used r ∧ used r < n - k) as [Hmu Hlt] by (unfold m in *; lia).
      assert (got = contents r) as Eg by (unfold got, used in *; apply take_ge; lia).
      assert (contents r1 = []) as Hc1' by (rewrite Hc1; apply drop_ge; unfold used in *; lia).
      apply Forall_cons in Hfit as [Hks Hfit].
      assert (capacity r1 = capacity r) as Hcap by (by apply same_shape_capacity).
      destruct (Ha cb1 r1 Hk1) as (cb2 & r2 & E2 & Hk2 & Hc2 & Hsh2); [unfold room, used; rewrite Hc1'; simpl; lia|].
      rewrite Hc1' in Hc2. cbn [app] in Hc2.
      assert (capacity r2 = capacity r) as Hcap2 by (rewrite <-Hcap; by apply same_shape_capacity).
      set (bp' := take (Z.to_nat k) bp ++ got ++ drop (Z.to_nat k + length got) bp).
      assert (length bp' = length bp) as Hbp'.
      { unfold bp'. rewrite !length_app, length_take, length_drop. lia. }
      cbn [concat] in Hen |- *. rewrite length_app in Hen. unfold used in Hmu.
      destruct (IH bp' (k + m) cb2 r2) as (cb' & r' & j & E & Hk' & Hj).
      { by rewrite Hcap2. } { done. } { lia. } { lia. } { lia. } { rewrite Hc2. lia. }
      rewrite (bind_ok _ _ _ _ _ E2), E. exists cb', r', (S j). rewrite Hc2 in Hj |- *.
      assert (take (Z.to_nat (n - k)) (contents r ++ ks ++ concat keys) =
        contents r ++ take (Z.to_nat (n - (k + m))) (ks ++ concat keys)) as Et.
      { rewrite take_app_ge by lia. do 2 f_equal. lia. }
      split; [|split; [done|]].
      * rewrite Et. f_equal. f_equal. unfold bp'. rewrite <-Eg.
        rewrite take_app_ge by (rewrite length_take; lia). rewrite length_take, take_app_ge by lia.
        replace (_ - _ - _)%nat with 0%nat by lia. rewrite take_0, app_nil_r, drop_app_ge by (rewrite length_take; lia).
        rewrite length_take, drop_app_ge, drop_drop, <-!app_assoc by lia. do 4 f_equal. lia.
      * cbn [take concat]. rewrite Et, <-!app_assoc. f_equal. exact Hj.
Qed.

(** C31. A blocking read of at most 65535 bytes ends as soon as the host has typed enough, and
    gives the host's bytes in their order, without loss or repetition; what was typed beyond
    stays for the next read, and the caller's buffer behind [n] is untouched. *)
Theorem channel_reads sl keys bp n cb r :
  Forall2 delivers sl keys → Forall (λ ks, Z.of_nat (length ks) <= capacity r) keys → keyboard cb r →
  0 <= n <= 65535 → n <= Z.of_nat (length bp) → n <= Z.of_nat (length (contents r ++ concat keys)) →
  ∃ cb' r' j, __reads sl bp n cb =
      Ok (n, take (Z.to_nat n) (contents r ++ concat keys) ++ drop (Z.to_nat n) bp) cb' ∧
    keyboard cb' r' ∧ contents r ++ concat (take j keys) = take (Z.to_nat n) (contents r ++ concat keys) ++ contents r'.
Proof.
  intros Hd Hfit Hk Hn Hbp Hen.
  destruct (reads_loop_runs sl keys bp n 0 cb r Hd Hfit Hk) as (cb' & r' & j & E & Hk' & Hj); [lia..|].
  rewrite Z.sub_0_r in E, Hj. by exists cb', r', j.
Qed.
Definition keys_ring : ring := mk_ring "Terminal" (Some (replicate 16 0)) 16 0 0 0.
Definition ready_cb : rtt_cb :=
  mk_cb (reverse _aInitStr) [mk_ring "Terminal" (Some (replicate 1024 0)) 1024 0 0 0; zero_ring; zero_ring]
    [keys_ring; zero_ring; zero_ring] 0 (replicate 1024 0) (replicate 16 0) [[]; []; []].
Lemma channel_reads_witness :
  ∃ cb' r' j, (SEGGER_RTT_Init;; RTTchannelObjectInit) boot_cb = Ok tt ready_cb ∧
    __reads [host_types [65; 66]; host_types [67; 68]] [0; 0; 0; 9] 3 ready_cb = Ok (3, [65; 66; 67; 9]) cb' ∧
    keyboard cb' r' ∧ concat (take j [[65; 66]; [67; 68]]) = [65; 66; 67] ++ contents r'.
Proof.
  edestruct (channel_reads [host_types [65; 66]; host_types [67; 68]] [[65; 66]; [67; 68]] [0; 0; 0; 9] 3 ready_cb keys_ring)
    as (cb' & r' & j & E & H).
  - repeat constructor; apply host_types_delivers.
  - repeat constructor; by apply Z.leb_le.
  - split_and!; [done|reflexivity| |done]. exists (replicate 16 0). by split_and!; try (by apply Z.leb_le); try done.
  - done.
  - by apply Z.leb_le.
  - by apply Z.leb_le.
  - exists cb', r', j. split; [reflexivity|]. split; [exact E|]. exact H.
Defined.
