(* ===== verification/Console.v ===== *)
(** * The shell on the console

    The commands' messages ([Shell.v]) as the program prints them, through [chprintf]
    ([ChPrintf.v]) on the terminal's channel ([RttStream.v]): every message's format fits its
    arguments, and the numbers that are printed read back through the C library's number
    reading. *)
From S2P Require Import Prelude IpAddr Nrf24l01 NrfInterface NrfBasic Net Shell ShellProps ChPrintf ChPrintfProps.

(** ** Printing a message *)

Definition va_of (a : parg) : va := match a with PInt z => VInt z | PStr s => VStr (Some s) end.
(** Every message ends its line. *)
Definition message_format (m : message) : list Z := chars m.1 ++ [13; 10].
Definition print_message {S} (put : Z → M S Z) (m : message) : M S Z :=
  chprintf put (message_format m) (va_of <$> m.2).

(** [m] prints as [out] on every stream. *)
Definition prints (m : message) (out : list Z) : Prop :=
  ∀ S (put : Z → M S Z) s, print_message put m s = (put_bytes put out;; mret (Z.of_nat (length out))) s.


(** ** What the commands can print *)

(** [P] holds of every result. *)
Definition gives {S A} (m : M S A) (P : A → Prop) : Prop := ∀ s a s', m s = Ok a s' → P a.
Lemma gives_ret {S A} (a : A) (P : A → Prop) : P a → gives (S := S) (mret a) P.
Proof. by intros Ha s b s' [= <- _]. Qed.
Lemma gives_bind {S A B} (m : M S A) (f : A → M S B) (Q : A → Prop) P :
  gives m Q → (∀ a, Q a → gives (f a) P) → gives (m ≫= f) P.
Proof.
  intros Hm Hf s b s' E. unfold mbind, M_bind in E. destruct (m s) as [a s1|] eqn:Em; [|done].
  eapply Hf, E. by eapply Hm.
Qed.
Lemma gives_any {S A} (m : M S A) : gives m (λ _, True).
Proof. done. Qed.
Lemma gives_mono {S A} (m : M S A) (P Q : A → Prop) : gives m P → (∀ a, P a → Q a) → gives m Q.
Proof. intros Hm HPQ s a s' E. by eapply HPQ, Hm. Qed.

(** The channel the driver reads has 7 bits. *)
Lemma frequency_small {W} (h : nrf24l01_handle W) :
  gives (nrf24l01_basic_get_frequency h) (λ rf, ∀ v, rf.2 = Some v → 0 <= v <= 127).
Proof.
  assert (∀ b, 0 <= Z.land b 0x7F <= 127) as Hland.
  { intros b. pose proof (Z.land_ones b 7 ltac:(done)) as E. change (Z.ones 7) with 0x7F in E. rewrite E. pose proof (Z.mod_pos_bound b (2 ^ 7) eq_refl). lia. }
  unfold nrf24l01_basic_get_frequency. eapply (gives_bind _ _ (λ rf, ∀ v, rf.2 = Some v → 0 <= v <= 127)).
  - unfold nrf24l01_get_channel_frequency, checked_get, checked.
    eapply gives_bind; [apply gives_any|]. intros i _. case_decide; [|by apply gives_ret].
    unfold fetch_register. eapply gives_bind; [apply gives_any|]. intros [res data] _. case_decide.
    + eapply gives_bind; [apply gives_any|]. intros b _. apply gives_ret. by intros v [= <-].
    + eapply gives_bind; [apply gives_any|]. intros [] _. by apply gives_ret.
  - intros [res f] Hf. case_decide; [|by apply gives_ret].
    eapply gives_bind; [apply gives_any|]. intros [] _. by apply gives_ret.
Qed.



Section Messages.
Context {W : Type} (h : nrf24l01_handle W).







End Messages.


(** ** Reading back what was printed *)

Lemma base_digit_text radix d : 2 <= radix <= 16 → 0 <= d < radix → base_digit radix (glyph d) = Some d.
Proof.
  intros Hr Hd. rewrite glyph_digit by lia. unfold base_digit, digit_value, digit_char_of. repeat (case_decide; try lia); cbn [mbind option_bind];
    rewrite decide_True by lia; f_equal; lia.
Qed.
Lemma take_digits_text radix ds rest any acc :
  2 <= radix <= 16 → Forall (λ d, 0 <= d < radix) ds → base_digit radix (char_at rest) = None →
  take_digits radix any acc (digit_text ds ++ rest) =
    (any || bool_decide (ds ≠ []), foldl (λ v d, v * radix + d) acc ds, rest).
Proof.
  intros Hr Hds Hrest. revert any acc. induction Hds as [|d ds Hd Hds IH]; intros any acc.
  - cbn. rewrite orb_false_r. destruct rest as [|c rest]; [done|]. cbn [take_digits].
    change (base_digit radix c = None) in Hrest. by rewrite Hrest.
  - cbn [digit_text fmap list_fmap map app take_digits]. rewrite base_digit_text by done.
    etransitivity; [apply IH|]. cbn [foldl]. by rewrite orb_true_r.
Qed.

(** The first character of a number. *)
Lemma digit_char_first radix ds : 2 <= radix <= 16 → Forall (λ d, 0 <= d < radix) ds → ds ≠ [] →
  ∃ c s, digit_text ds = c :: s ∧ (48 <= c <= 57 ∨ 65 <= c <= 70).
Proof.
  intros Hr Hds Hne. destruct Hds as [|d ds Hd _]; [done|]. eexists _, _. split; [reflexivity|].
  rewrite glyph_digit by lia. unfold digit_char_of. case_decide; lia.
Qed.
Lemma not_space c : 33 <= c → isspace c = false.
Proof. intros Hc. unfold isspace. rewrite !bool_decide_eq_false_2 by lia. by rewrite (bool_decide_eq_false_2 (c <= 13)) by lia; rewrite andb_false_r. Qed.

Lemma no_hex_prefix radix ds : 2 <= radix <= 16 → Forall (λ d, 0 <= d < radix) ds → hex_prefix (digit_text ds) = false.
Proof.
  intros Hr Hds. unfold hex_prefix. destruct Hds as [|d ds _ Hds]; [done|]. cbn [digit_text fmap list_fmap map tail].
  destruct (decide (ds = [])) as [->|Hne]; [by rewrite andb_false_r|].
  destruct (digit_char_first radix ds Hr Hds Hne) as (c & s & E & Hc). unfold digit_text in E. cbn [fmap list_fmap] in E. rewrite E.
  cbn [char_at head default from_option id]. rewrite (bool_decide_eq_false_2 (c = 120)), (bool_decide_eq_false_2 (c = 88)) by lia.
  by rewrite andb_false_r.
Qed.

Lemma strtol_text radix v ds base :
  (radix = 10 ∨ radix = 16) → base = radix → numeral radix v ds → v <= LONG_MAX → strtol (digit_text ds) base = (v, []).
Proof.
  intros Hr -> (Hne & Hds & Hv & _) Hmax. assert (2 <= radix <= 16) as Hr' by lia.
  destruct (digit_char_first radix ds Hr' Hds Hne) as (c & s & E & Hc). unfold strtol.
  assert (skip_space (digit_text ds) = digit_text ds) as -> by (rewrite E; cbn [skip_space]; by rewrite not_space by lia).
  assert (sign_of (digit_text ds) = (1, digit_text ds)) as ->
    by (unfold sign_of; rewrite E; cbn [char_at head default from_option id]; by rewrite !decide_False by lia).
  assert (strtol_base radix (digit_text ds) = (radix, digit_text ds)) as ->.
  { unfold strtol_base. rewrite (no_hex_prefix radix) by done. destruct Hr as [->| ->]; done. }
  rewrite <-(app_nil_r (digit_text ds)), take_digits_text by done. cbn [orb].
  rewrite bool_decide_eq_true_2 by done. fold (digits_value radix ds). rewrite Hv, Z.mul_1_l.
  assert (0 <= v) by (rewrite <-Hv; apply digits_value_nonneg_radix; [lia|done]).
  unfold LONG_MAX, LONG_MIN in *. by rewrite !decide_False by lia.
Qed.

Lemma atoi_negative ds : Forall (λ d, 0 <= d < 10) ds → ds ≠ [] → digits_value 10 ds <= LONG_MAX →
  atoi (45 :: digit_text ds) = - digits_value 10 ds.
Proof.
  intros Hds Hne Hmax. unfold atoi, strtol. cbn [skip_space]. rewrite not_space by lia.
  unfold sign_of. cbn [char_at head default from_option id]. rewrite decide_True by done. cbn [tail].
  unfold strtol_base. rewrite decide_False by (by intros []). rewrite <-(app_nil_r (digit_text ds)), take_digits_text by (done || lia).
  cbn [orb]. rewrite bool_decide_eq_true_2 by done. fold (digits_value 10 ds). cbn [fst].
  pose proof (digits_value_nonneg_radix 10 ds ltac:(lia) Hds). unfold LONG_MAX, LONG_MIN in *. rewrite !decide_False by lia. lia.
Qed.
Lemma strtol_hex ds : Forall (λ d, 0 <= d < 16) ds → ds ≠ [] → digits_value 16 ds <= LONG_MAX →
  strtol (48 :: 120 :: digit_text ds) 0 = (digits_value 16 ds, []).
Proof.
  intros Hds Hne Hmax. destruct ds as [|d ds]; [done|]. pose proof Hds as Hds'. apply Forall_cons in Hds' as [Hd _].
  unfold strtol. cbn [skip_space]. rewrite not_space by lia.
  unfold sign_of. cbn [char_at head default from_option id]. rewrite !decide_False by lia.
  assert (strtol_base 0 (48 :: 120 :: digit_text (d :: ds)) = (16, digit_text (d :: ds))) as ->.
  { unfold strtol_base. rewrite decide_True by (by left). unfold hex_prefix. cbn [digit_text fmap list_fmap map tail char_at head default from_option id].
    rewrite base_digit_text by lia. done. }
  rewrite <-(app_nil_r (digit_text _)), take_digits_text by (done || lia). cbn [orb].
  rewrite bool_decide_eq_true_2 by done. fold (digits_value 16 (d :: ds)).
  pose proof (digits_value_nonneg_radix 16 (d :: ds) ltac:(lia) Hds). unfold LONG_MAX, LONG_MIN in *. rewrite !decide_False by lia.
  by rewrite Z.mul_1_l.
Qed.

Lemma u8_digit_text radix ds : 2 <= radix <= 16 → Forall (λ d, 0 <= d < radix) ds → u8 <$> digit_text ds = digit_text ds.
Proof.
  intros Hr Hds. induction Hds as [|d ds Hd _ IH]; [done|]. cbn [digit_text fmap list_fmap map]. f_equal; [|exact IH].
  apply u8_id. rewrite glyph_digit by lia. unfold digit_char_of, is_u8. case_decide; lia.
Qed.

(** The two conversions the radio's commands print numbers with. *)
Definition percent_d : item := Dir (mk_spec false false false (Num []) None false 100).
Definition percent_02X : item := Dir (mk_spec false false true (Num [2]) None false 88).

Lemma renders_lits cs items ap out : renders items ap out → renders ((Lit <$> cs) ++ items) ap ((u8 <$> cs) ++ out).
Proof. intros Hr. induction cs as [|c cs IH]; [done|]. cbn. by apply renders_lit. Qed.

Lemma to_int_id v : INT_MIN <= v <= INT_MAX → to_int v = v.
Proof.
  intros Hv. unfold INT_MIN, INT_MAX in Hv. unfold to_int, u32, INT_MAX. destruct (decide (0 <= v)).
  - by rewrite Z.mod_small, decide_True by lia.
  - rewrite <-(Z.mod_add v 1), Z.mod_small by lia. rewrite decide_False by lia. lia.
Qed.

(** A number that [%d] prints is read back by [atoi]. *)
Lemma renders_decimal v : INT_MIN < v <= INT_MAX → ∃ text, atoi text = v ∧
  ∀ items ap out, renders items ap out → renders (percent_d :: items) (VInt v :: ap) (text ++ out).
Proof.
  intros Hv. pose proof (to_int_id v ltac:(lia)) as Hi.
  destruct (numeral_exists 10 (Z.abs v)) as (ds & Hn & Hlen); [lia|unfold INT_MIN, INT_MAX in Hv; lia|].
  exists ((if decide (v < 0) then [45] else []) ++ digit_text ds). pose proof Hn as (Hne & Hds & Habs & _). split.
  - unfold INT_MIN, INT_MAX in Hv. case_decide; cbn [app].
    + rewrite atoi_negative by (done || (unfold LONG_MAX; lia)). lia.
    + unfold atoi. rewrite (strtol_text 10 (Z.abs v)) by (by left || done || (unfold LONG_MAX; lia)). cbn [fst]. lia.
  - intros items ap out Hr. set (text := _ ++ digit_text ds).
    assert (Hm : means 100 false 0 (VInt v :: ap) text true ap).
    { pose proof (means_signed 100 false 0 v ds ap ltac:(by_decision)) as Hm. rewrite Hi in Hm. apply Hm; [lia|done]. }
    assert (u8 <$> pad false 32 0 text = text) as E.
    { unfold pad. replace (Z.to_nat (0 - Z.of_nat (length text))) with O by lia. cbn [replicate].
      rewrite decide_False by (by intros [_ ?]). unfold text. cbn [app]. rewrite fmap_app, (u8_digit_text 10) by (done || lia).
      f_equal. by destruct (decide (v < 0)). }
    rewrite <-E at 1. refine (renders_dir (mk_spec false false false (Num []) None false 100) 0 (VInt v :: ap) 0 (VInt v :: ap)
      text true ap items (VInt v :: ap) out eq_refl eq_refl Hm _ Hr).
    unfold text. rewrite length_app, digit_text_length. unfold INT_MIN. case_decide; cbn [length]; lia.
Qed.

(** A byte that [%02X] prints, its two digits. *)
Definition hex_text (b : Z) : list Z := digit_text [b / 16; b `mod` 16].

Lemma renders_hex_byte b items ap out :
  is_u8 b → renders items ap out → renders (percent_02X :: items) (VInt b :: ap) (hex_text b ++ out).
Proof.
  unfold is_u8. intros Hb Hr. pose proof (Z.div_mod b 16 ltac:(done)). pose proof (Z.mod_pos_bound b 16 eq_refl).
  assert (∃ ds, numeral 16 b ds ∧ (length ds ≤ 2)%nat ∧ replicate (2 - length ds) 0 ++ ds = [b / 16; b `mod` 16])
    as (ds & Hn & Hlen & Hpad).
  { destruct (decide (b < 16)).
    - exists [b]. rewrite Z.div_small, Z.mod_small by lia. split; [|split; [simpl; lia|done]].
      split_and!; [done|by repeat constructor; lia| |by intros [= ->]]. unfold digits_value. simpl. lia.
    - exists [b / 16; b `mod` 16]. split; [|split; [simpl; lia|done]].
      split_and!; [done|repeat constructor; lia| |intros [= ?]; lia]. unfold digits_value. simpl. lia. }
  pose proof Hn as (Hne & Hds & _).
  assert (Hm : means 88 false 0 (VInt b :: ap) (digit_text ds) true ap).
  { apply (means_unsigned 88 false 0 16 b ds ap); [done|]. by rewrite u32_id by (unfold is_u32; lia). }
  assert (u8 <$> pad false 48 2 (digit_text ds) = hex_text b) as <-.
  { unfold pad, hex_text. rewrite digit_text_length. replace (Z.to_nat (2 - Z.of_nat (length ds))) with (2 - length ds)%nat by lia.
    destruct (digit_char_first 16 ds ltac:(lia) Hds Hne) as (c & t & Et & Hc).
    rewrite decide_False by (rewrite Et; cbn; lia). rewrite fmap_app, (u8_digit_text 16) by (done || lia).
    rewrite <-Hpad. unfold digit_text. rewrite fmap_app, !fmap_replicate. done. }
  refine (renders_dir (mk_spec false false true (Num [2]) None false 88) 2 (VInt b :: ap) 0 (VInt b :: ap)
    (digit_text ds) true ap items (VInt b :: ap) out eq_refl eq_refl Hm _ Hr). rewrite digit_text_length. unfold INT_MIN. lia.
Qed.

Lemma read_hex_byte b : is_u8 b → strtol (48 :: 120 :: hex_text b) 0 = (b, []).
Proof.
  unfold is_u8. intros Hb. pose proof (Z.div_mod b 16 ltac:(done)). pose proof (Z.mod_pos_bound b 16 eq_refl).
  assert (digits_value 16 [b / 16; b `mod` 16] = b) as E by (unfold digits_value; simpl; lia).
  unfold hex_text. rewrite strtol_hex; [by rewrite E|by repeat constructor; lia|done|rewrite E; unfold LONG_MAX; lia].
Qed.
Lemma parse_hex_bytes addr i : Forall is_u8 addr → parse_addr i ((λ b, 48 :: 120 :: hex_text b) <$> addr) = inr addr.
Proof.
  intros Hu. revert i. induction Hu as [|b addr Hb _ IH]; intros i; [done|]. cbn [fmap list_fmap map parse_addr].
  rewrite read_hex_byte by done. unfold is_u8 in Hb. rewrite decide_False by (intros [?|[?|?]]; [done|lia|lia]).
  change (map _ addr) with ((λ b, 48 :: 120 :: hex_text b) <$> addr). rewrite IH. by rewrite u8_id.
Qed.

(** A message whose format is that of [items]. *)
Lemma prints_items m items out :
  unparse items = message_format m → Forall item_ok items → renders items (va_of <$> m.2) out → prints m out.
Proof.
  intros Hf Hok Hr S put s. unfold print_message, chprintf, chvprintf. rewrite <-Hf.
  apply (loop_renders put items _ out Hok Hr). lia.
Qed.

Lemma channel_message_prints v : 0 <= v <= 127 → ∃ text mhz,
  prints ("Current nRF24L01 channel: %d (frequency: %d MHz)"%string, [PInt v; PInt (2400 + v)])
    (chars "Current nRF24L01 channel: " ++ text ++ chars " (frequency: " ++ mhz ++ chars " MHz)" ++ [13; 10]) ∧
  atoi text = v ∧ atoi mhz = 2400 + v.
Proof.
  intros Hv. destruct (renders_decimal v) as (text & Ht & Hrt); [unfold INT_MIN, INT_MAX; lia|].
  destruct (renders_decimal (2400 + v)) as (mhz & Hm & Hrm); [unfold INT_MIN, INT_MAX; lia|].
  exists text, mhz. split; [|done].
  apply (prints_items _ ((Lit <$> chars "Current nRF24L01 channel: ") ++ percent_d ::
    (Lit <$> chars " (frequency: ") ++ percent_d :: (Lit <$> (chars " MHz)" ++ [13; 10])) ++ [])); [reflexivity|by_decision|].
  apply (renders_lits (chars "Current nRF24L01 channel: ")), Hrt, (renders_lits (chars " (frequency: ")), Hrm.
  pose proof (renders_lits (chars " MHz)" ++ [13; 10]) [] [] [] (renders_nil [])) as Hr. exact Hr.
Qed.

Lemma address_message_prints addr : length addr = 5%nat → Forall is_u8 addr →
  prints ("Current nRF24L01 TX address: 0x%02X 0x%02X 0x%02X 0x%02X 0x%02X"%string, PInt <$> addr)
    (chars "Current nRF24L01 TX address:" ++ (((λ b, 48 :: 120 :: hex_text b) <$> addr) ≫= cons 32) ++ [13; 10]).
Proof.
  intros Hl Hu. destruct addr as [|a1 [|a2 [|a3 [|a4 [|a5 [|]]]]]]; try done.
  rewrite !Forall_cons in Hu. destruct Hu as (H1 & H2 & H3 & H4 & H5 & _).
  set (hex := (Lit <$> chars " 0x") ++ [percent_02X]).
  apply (prints_items _ ((Lit <$> chars "Current nRF24L01 TX address:") ++
    hex ++ hex ++ hex ++ hex ++ hex ++ (Lit <$> [13; 10]) ++ [])); [reflexivity|by_decision|].
  apply (renders_lits (chars "Current nRF24L01 TX address:")).
  assert (∀ b items ap out, is_u8 b → renders items ap out →
    renders (hex ++ items) (VInt b :: ap) ((32 :: 48 :: 120 :: hex_text b) ++ out)) as Hhex.
  { intros b items ap out Hb Hr. unfold hex. rewrite <-app_assoc.
    apply (renders_lits (chars " 0x") _ _ (hex_text b ++ out)). by apply renders_hex_byte. }
  do 5 (apply Hhex; [done|]). exact (renders_lits [13; 10] [] [] [] (renders_nil [])).
Qed.

Lemma hex_text_plain b : is_u8 b → length (48 :: 120 :: hex_text b) = 4%nat ∧ 32 ∉ 48 :: 120 :: hex_text b.
Proof.
  unfold is_u8. intros Hb. split; [done|]. unfold hex_text. cbn. pose proof (Z.mod_pos_bound b 16 eq_refl).
  assert (0 <= b / 16 < 16) by (split; [apply Z.div_pos|apply Z.div_lt_upper_bound]; lia).
  rewrite !glyph_digit by lia. unfold digit_char_of. rewrite !not_elem_of_cons. repeat case_decide; split_and!; try lia; apply not_elem_of_nil.
Qed.

(** C34. What the shell prints about the radio can be typed back in.  The line that [nrf_addr_get]
    prints for a remembered address is its heading and five words of four characters, each
    behind a space; [nrf_addr] with these five words as its arguments sets, on a working
    radio, the chip and the remembered address to the same bytes.  The channel in the line
    that [nrf_channel_get] prints when the driver's read succeeds is read by [atoi] as the
    driver's value, which is one that [nrf_channel] takes.  In general an integer printed by [%d] is
    read back by [atoi], INT_MIN excepted, which the formatter cannot print. *)
Theorem numbers_read_back {W} (h : nrf24l01_handle W) inv regs ce payloads
    `{!RadioBus h inv regs ce payloads} (s s0 : sh_state W) addr :
  tx s = mk_tx_state addr 1 → length addr = 5%nat → Forall is_u8 addr → ready inv regs (radio s0) →
  (∃ m ms texts, cmd_nrf_addr_get [] s = Ok (m :: ms) s ∧
    prints m (chars "Current nRF24L01 TX address:" ++ (texts ≫= cons 32) ++ [13; 10]) ∧
    Forall (λ t, length t = 4%nat ∧ 32 ∉ t) texts ∧
    wp (cmd_nrf_addr h texts) s0 (λ _ s1,
      tx s1 = mk_tx_state addr 1 ∧ addressed regs (world (radio s1)) addr)) ∧
  (∀ d v, nrf24l01_basic_get_frequency h (radio s) = Ok (0, Some v) d →
    0 <= v <= 127 ∧ ∃ m text mhz, cmd_nrf_channel_get h [] s = Ok [m] (mk_sh d (tx s) (net s)) ∧
      prints m (chars "Current nRF24L01 channel: " ++ text ++ chars " (frequency: " ++ mhz ++ chars " MHz)" ++ [13; 10]) ∧
      atoi text = v ∧ atoi mhz = 2400 + v) ∧
  (∀ v, INT_MIN < v <= INT_MAX → ∃ out, atoi out = v ∧
    ∀ S (put : Z → M S Z) s, chvprintf put (chars "%d") [VInt v] s = (put_bytes put out;; mret (Z.of_nat (length out))) s).
Proof.
  intros Htx Hl Hu Hr. split_and!.
  - eexists _, _, ((λ b, 48 :: 120 :: hex_text b) <$> addr). split.
    { unfold cmd_nrf_addr_get, mbind, M_bind, mgets. rewrite Htx. cbn [nrf24l01_basic_get_tx_address gs_tx_addr gs_tx_addr_set].
      rewrite decide_True by done. reflexivity. }
    split; [by apply address_message_prints|]. split; [apply Forall_fmap; eapply Forall_impl; [exact Hu|apply hex_text_plain]|].
    eapply wp_mono; [apply (cmd_nrf_addr_spec h inv regs ce payloads); [done|by rewrite length_fmap|by apply parse_hex_bytes]|].
    by intros _ s1 (_ & Ha & _ & ?).
  - intros d v E. pose proof (frequency_small h _ _ _ E v eq_refl) as Hv. split; [done|].
    destruct (channel_message_prints v Hv) as (text & mhz & Hp). eexists _, text, mhz. split; [|exact Hp].
    unfold cmd_nrf_channel_get, mbind, M_bind, on_radio. rewrite E. reflexivity.
  - intros v Hv. destruct (renders_decimal v Hv) as (text & Ht & Hrt). exists text. split; [done|].
    intros S put st. rewrite <-(app_nil_r text).
    apply (loop_renders put [percent_d] [VInt v]); [by_decision|apply Hrt, renders_nil|simpl; lia].
Qed.
Lemma numbers_read_back_witness :
  let s := mk_sh Sim.sim_init (mk_tx_state [0; 231; 16; 171; 255] 1) net_init in
  let s0 := SimRadio.start Sim.sim (Sim.mk_sim {[ NRF24L01_REG_SETUP_AW := [3] ]} 0 []) in
  ∃ m ms texts, cmd_nrf_addr_get [] s = Ok (m :: ms) s ∧
    prints m (chars "Current nRF24L01 TX address:" ++ (texts ≫= cons 32) ++ [13; 10]) ∧
    wp (cmd_nrf_addr Sim.sim_handle texts) s0 (λ _ s1, tx s1 = mk_tx_state [0; 231; 16; 171; 255] 1).
Proof.
  intros s s0.
  destruct (numbers_read_back Sim.sim_handle Sim.sim_wf Sim.sim_reg Sim.s_ce SimRadio.sim_payloads s s0
    [0; 231; 16; 171; 255]) as [(m & ms & texts & H1 & H2 & _ & H3) _].
  - reflexivity.
  - reflexivity.
  - repeat constructor; lia.
  - split; [reflexivity|]. split; [apply NrfProps.sim_width_wf; lia|]. exists 3. split; reflexivity.
  - exists m, ms, texts. split; [exact H1|]. split; [exact H2|]. eapply wp_mono; [exact H3|]. intros a s1 [Ht _]. exact Ht.
Defined.
