(* ===== verification/KvData.v ===== *)
(** * The data of FlashDB's key-value store: [src/src/flashdb/inc/fdb_def.h] and the head of [fdb_kvdb.c]

    The structures of the store, the headers of a sector and of a KV as the bytes they are in the
    flash, and the two caches.  The configuration is that of [FdbUtils.v]; a [char] array is its
    bytes, a C string its characters without the terminating 0. *)
From S2P Require Import Prelude W25qxx Fal FdbUtils.

(** ** Constants *)

Definition FDB_KV_NAME_ERR : Z := 5.
Definition FDB_KV_NAME_EXIST : Z := 6.
Definition FDB_SAVED_FULL : Z := 7.

Definition FDB_KV_UNUSED : nat := 0.
Definition FDB_KV_PRE_WRITE : nat := 1.
Definition FDB_KV_WRITE : nat := 2.
Definition FDB_KV_PRE_DELETE : nat := 3.
Definition FDB_KV_DELETED : nat := 4.
Definition FDB_KV_ERR_HDR : nat := 5.
Definition FDB_KV_STATUS_NUM : nat := 6.
Definition FDB_SECTOR_STORE_UNUSED : nat := 0.
Definition FDB_SECTOR_STORE_EMPTY : nat := 1.
Definition FDB_SECTOR_STORE_USING : nat := 2.
Definition FDB_SECTOR_STORE_FULL : nat := 3.
Definition FDB_SECTOR_STORE_STATUS_NUM : nat := 4.
Definition FDB_SECTOR_DIRTY_UNUSED : nat := 0.
Definition FDB_SECTOR_DIRTY_FALSE : nat := 1.
Definition FDB_SECTOR_DIRTY_TRUE : nat := 2.
Definition FDB_SECTOR_DIRTY_GC : nat := 3.
Definition FDB_SECTOR_DIRTY_STATUS_NUM : nat := 4.

Definition FDB_KV_NAME_MAX : Z := 64.
Definition FDB_KV_CACHE_TABLE_SIZE : nat := 64.
Definition FDB_SECTOR_CACHE_TABLE_SIZE : nat := 8.
Definition FDB_STR_KV_VALUE_MAX_SIZE : Z := 128.
Definition FDB_GC_EMPTY_SEC_THRESHOLD : Z := 1.
Definition FDB_DATA_UNUSED : Z := 0xFFFFFFFF.
Definition FAILED_ADDR : Z := 0xFFFFFFFF.
Definition SECTOR_MAGIC_WORD : Z := 0x30424446.
Definition KV_MAGIC_WORD : Z := 0x3030564B.
Definition SECTOR_NOT_COMBINED : Z := 0xFFFFFFFF.
Definition SECTOR_COMBINED : Z := 0x00000000.

(** Unsigned arithmetic of 32 bits. *)
Definition FDB_ALIGN (size align : Z) : Z :=
  let s := u32 (size + align - 1) in u32 (s - s `mod` align).
Definition FDB_WG_ALIGN (size : Z) : Z := FDB_ALIGN size ((Z.of_nat FDB_WRITE_GRAN + 7) / 8).
Definition FDB_ALIGN_DOWN (size align : Z) : Z := size / align * align.
Definition FDB_WG_ALIGN_DOWN (size : Z) : Z := FDB_ALIGN_DOWN size ((Z.of_nat FDB_WRITE_GRAN + 7) / 8).

(** ** Headers *)

(** A number of [n] bytes, the lowest first. *)
Fixpoint le_bytes (n : nat) (z : Z) : list Z :=
  match n with O => [] | S n => u8 z :: le_bytes n (Z.shiftr z 8) end.
Definition le_int (bytes : list Z) : Z := foldr (λ b v, b + 256 * v) 0 bytes.
Definition u32_at (off : nat) (bytes : list Z) : Z := le_int (take 4 (drop off bytes)).

(** The members in the order of the structures, with the padding between them. *)
Record sector_hdr_data : Type := mk_sec_hdr {
  hdr_store : list Z; hdr_dirty : list Z; sec_hdr_pad : list Z;
  sec_hdr_magic : Z; sec_hdr_combined : Z; sec_hdr_reserved : Z }.
Record kv_hdr_data : Type := mk_kv_hdr {
  hdr_status : list Z; kv_hdr_pad : list Z; hdr_magic : Z; hdr_len : Z; hdr_crc32 : Z;
  hdr_name_len : Z; hdr_name_pad : list Z; hdr_value_len : Z }.

Definition sizeof_sector_hdr_data : nat := 16.
Definition sizeof_kv_hdr_data : nat := 24.
Definition SECTOR_HDR_DATA_SIZE : Z := FDB_WG_ALIGN (Z.of_nat sizeof_sector_hdr_data).
Definition KV_HDR_DATA_SIZE : Z := FDB_WG_ALIGN (Z.of_nat sizeof_kv_hdr_data).
Definition SECTOR_DIRTY_OFFSET : Z := 1.
Definition KV_MAGIC_OFFSET : Z := 4.
Definition FDB_SEC_REMAIN_THRESHOLD : Z := KV_HDR_DATA_SIZE + FDB_KV_NAME_MAX.

Definition sector_hdr_bytes (h : sector_hdr_data) : list Z :=
  hdr_store h ++ hdr_dirty h ++ sec_hdr_pad h ++
  le_bytes 4 (sec_hdr_magic h) ++ le_bytes 4 (sec_hdr_combined h) ++ le_bytes 4 (sec_hdr_reserved h).
Definition sector_hdr_of (bytes : list Z) : sector_hdr_data :=
  mk_sec_hdr (take 1 bytes) (take 1 (drop 1 bytes)) (take 2 (drop 2 bytes))
    (u32_at 4 bytes) (u32_at 8 bytes) (u32_at 12 bytes).
Definition kv_hdr_bytes (h : kv_hdr_data) : list Z :=
  hdr_status h ++ kv_hdr_pad h ++ le_bytes 4 (hdr_magic h) ++ le_bytes 4 (hdr_len h) ++ le_bytes 4 (hdr_crc32 h) ++
  le_bytes 1 (hdr_name_len h) ++ hdr_name_pad h ++ le_bytes 4 (hdr_value_len h).
Definition kv_hdr_of (bytes : list Z) : kv_hdr_data :=
  mk_kv_hdr (take 1 bytes) (take 3 (drop 1 bytes)) (u32_at 4 bytes) (u32_at 8 bytes) (u32_at 12 bytes)
    (le_int (take 1 (drop 16 bytes))) (take 3 (drop 17 bytes)) (u32_at 20 bytes).

(** ** Structures *)

Record fdb_kv : Type := mk_kv {
  kv_status : nat; crc_is_ok : bool; kv_name_len : Z; kv_len : Z; kv_value_len : Z;
  kv_name : list Z; addr_start : Z; addr_value : Z }.
Record kvdb_sec_info : Type := mk_sec {
  check_ok : bool; sec_store : nat; sec_dirty : nat; sec_addr : Z; sec_magic : Z; sec_combined : Z;
  sec_remain : Z; sec_empty_kv : Z }.
Record kv_cache_node : Type := mk_node { name_crc : Z; active : Z; node_addr : Z }.
(** [default_value] is what the pointer leads to, with its terminating 0 when it is a string. *)
Record fdb_default_kv_node : Type := mk_default { default_key : list Z; default_value : list Z; default_len : Z }.

Definition set_kv_status (v : nat) (k : fdb_kv) : fdb_kv :=
  mk_kv v (crc_is_ok k) (kv_name_len k) (kv_len k) (kv_value_len k) (kv_name k) (addr_start k) (addr_value k).
Definition set_crc_is_ok (v : bool) (k : fdb_kv) : fdb_kv :=
  mk_kv (kv_status k) v (kv_name_len k) (kv_len k) (kv_value_len k) (kv_name k) (addr_start k) (addr_value k).
Definition set_kv_len (v : Z) (k : fdb_kv) : fdb_kv :=
  mk_kv (kv_status k) (crc_is_ok k) (kv_name_len k) v (kv_value_len k) (kv_name k) (addr_start k) (addr_value k).
Definition set_kv_name (v : list Z) (k : fdb_kv) : fdb_kv :=
  mk_kv (kv_status k) (crc_is_ok k) (kv_name_len k) (kv_len k) (kv_value_len k) v (addr_start k) (addr_value k).
Definition set_addr_start (v : Z) (k : fdb_kv) : fdb_kv :=
  mk_kv (kv_status k) (crc_is_ok k) (kv_name_len k) (kv_len k) (kv_value_len k) (kv_name k) v (addr_value k).
(** The lengths and the address of the value. *)
Definition set_kv_value (name_len value_len value : Z) (k : fdb_kv) : fdb_kv :=
  mk_kv (kv_status k) (crc_is_ok k) name_len (kv_len k) value_len (kv_name k) (addr_start k) value.

Definition set_sec_space (empty rem : Z) (s : kvdb_sec_info) : kvdb_sec_info :=
  mk_sec (check_ok s) (sec_store s) (sec_dirty s) (sec_addr s) (sec_magic s) (sec_combined s) rem empty.
Definition set_sec_store (v : nat) (s : kvdb_sec_info) : kvdb_sec_info :=
  mk_sec (check_ok s) v (sec_dirty s) (sec_addr s) (sec_magic s) (sec_combined s) (sec_remain s) (sec_empty_kv s).
Definition set_sec_dirty (v : nat) (s : kvdb_sec_info) : kvdb_sec_info :=
  mk_sec (check_ok s) (sec_store s) v (sec_addr s) (sec_magic s) (sec_combined s) (sec_remain s) (sec_empty_kv s).
Definition set_sec_addr (v : Z) (s : kvdb_sec_info) : kvdb_sec_info :=
  mk_sec (check_ok s) (sec_store s) (sec_dirty s) v (sec_magic s) (sec_combined s) (sec_remain s) (sec_empty_kv s).
Definition set_node_addr (v : Z) (n : kv_cache_node) : kv_cache_node := mk_node (name_crc n) (active n) v.
Definition set_active (v : Z) (n : kv_cache_node) : kv_cache_node := mk_node (name_crc n) v (node_addr n).

(** ** The cache of sectors *)

(** The loop of [update_sector_cache]: the entry with the address, or the last free one before
    the end. *)
Fixpoint sector_scan (table : list kvdb_sec_info) (i : nat) (addr : Z) (empty_index : nat) : nat + nat :=
  match table with
  | [] => inr empty_index
  | c :: table =>
      if decide (sec_addr c = addr) then inl i
      else sector_scan table (1 + i) addr (if decide (sec_addr c = FDB_DATA_UNUSED) then i else empty_index)
  end.
Definition update_sector_cache (sector : kvdb_sec_info) (table : list kvdb_sec_info) : list kvdb_sec_info :=
  match sector_scan table 0 (sec_addr sector) FDB_SECTOR_CACHE_TABLE_SIZE with
  | inl i =>
      if check_ok sector then <[i := sector]> table else alter (set_sec_addr FDB_DATA_UNUSED) i table
  | inr empty_index =>
      if check_ok sector && bool_decide (empty_index < FDB_SECTOR_CACHE_TABLE_SIZE)%nat
      then <[empty_index := sector]> table else table
  end.
(** The place of the entry, through which the callers read and write it. *)
Definition get_sector_from_cache (table : list kvdb_sec_info) (addr : Z) : option nat :=
  fst <$> list_find (λ c, sec_addr c = addr) table.
Definition update_sector_empty_addr_cache (db_sec_size addr empty_addr : Z) (table : list kvdb_sec_info) : list kvdb_sec_info :=
  match get_sector_from_cache table addr with
  | Some i => alter (λ c, set_sec_space empty_addr (u32 (db_sec_size - u32 (empty_addr - sec_addr c))) c) i table
  | None => table
  end.
Definition update_sector_status_store_cache (addr : Z) (status : nat) (table : list kvdb_sec_info) : list kvdb_sec_info :=
  match get_sector_from_cache table addr with
  | Some i => alter (set_sec_store status) i table
  | None => table
  end.

(** ** The cache of KVs *)

Definition kv_name_crc (name : list Z) : option Z :=
  crc ← fdb_calc_crc32 0 name;
  Some (u16 (Z.shiftr crc 16)).

(** The loop of [update_kv_cache]: the table it leaves, and the free and the least active entry
    when it does not return. *)
Fixpoint kv_cache_scan (todo : list kv_cache_node) (i : nat) (crc addr : Z) (empty_index min_activity_index : nat)
    (min_activity : Z) : list kv_cache_node * option (nat * nat) :=
  match todo with
  | [] => ([], Some (empty_index, min_activity_index))
  | n :: todo =>
      let next n' empty_index min_activity_index min_activity :=
        let '(done, r) := kv_cache_scan todo (1 + i) crc addr empty_index min_activity_index min_activity in
        (n' :: done, r) in
      if decide (addr ≠ FDB_DATA_UNUSED) then
        if decide (name_crc n = crc) then (set_node_addr addr n :: todo, None)
        else if decide (node_addr n = FDB_DATA_UNUSED ∧ empty_index = FDB_KV_CACHE_TABLE_SIZE) then
          next n i min_activity_index min_activity
        else if decide (node_addr n ≠ FDB_DATA_UNUSED) then
          let n' := if decide (active n > 0) then set_active (active n - 1) n else n in
          if decide (active n' < min_activity) then next n' empty_index i (active n')
          else next n' empty_index min_activity_index min_activity
        else next n empty_index min_activity_index min_activity
      else if decide (name_crc n = crc) then (mk_node (name_crc n) 0 FDB_DATA_UNUSED :: todo, None)
      else next n empty_index min_activity_index min_activity
  end.
Definition update_kv_cache_crc (crc addr : Z) (table : list kv_cache_node) : list kv_cache_node :=
  let added := mk_node crc (Z.of_nat FDB_KV_CACHE_TABLE_SIZE) addr in
  match kv_cache_scan table 0 crc addr FDB_KV_CACHE_TABLE_SIZE FDB_KV_CACHE_TABLE_SIZE 0xFFFF with
  | (table, None) => table
  | (table, Some (empty_index, min_activity_index)) =>
      if decide (empty_index < FDB_KV_CACHE_TABLE_SIZE)%nat then <[empty_index := added]> table
      else if decide (min_activity_index < FDB_KV_CACHE_TABLE_SIZE)%nat then <[min_activity_index := added]> table
      else table
  end.

(** ** The database *)

(** [lock] and [unlock] are functions of the platform. *)
Record fdb_kvdb (S : Type) : Type := mk_kvdb {
  parent : fdb_db; not_formatable : bool; oldest_addr : Z;
  lock : option (M (fal_state S) unit); unlock : option (M (fal_state S) unit);
  default_kvs : list fdb_default_kv_node; gc_request : bool; in_recovery_check : bool;
  cur_kv : fdb_kv; cur_sector : kvdb_sec_info; last_is_complete_del : bool;
  kv_cache_table : list kv_cache_node; sector_cache_table : list kvdb_sec_info }.
Arguments mk_kvdb {S}.
Arguments parent {S}.
Arguments not_formatable {S}.
Arguments oldest_addr {S}.
Arguments lock {S}.
Arguments unlock {S}.
Arguments default_kvs {S}.
Arguments gc_request {S}.
Arguments in_recovery_check {S}.
Arguments cur_kv {S}.
Arguments cur_sector {S}.
Arguments last_is_complete_del {S}.
Arguments kv_cache_table {S}.
Arguments sector_cache_table {S}.

Section Setters.
Context {S : Type}.
Definition set_parent (v : fdb_db) (d : fdb_kvdb S) : fdb_kvdb S :=
  mk_kvdb v (not_formatable d) (oldest_addr d) (lock d) (unlock d) (default_kvs d) (gc_request d)
    (in_recovery_check d) (cur_kv d) (cur_sector d) (last_is_complete_del d) (kv_cache_table d) (sector_cache_table d).
Definition set_not_formatable (v : bool) (d : fdb_kvdb S) : fdb_kvdb S :=
  mk_kvdb (parent d) v (oldest_addr d) (lock d) (unlock d) (default_kvs d) (gc_request d)
    (in_recovery_check d) (cur_kv d) (cur_sector d) (last_is_complete_del d) (kv_cache_table d) (sector_cache_table d).
Definition set_oldest_addr (v : Z) (d : fdb_kvdb S) : fdb_kvdb S :=
  mk_kvdb (parent d) (not_formatable d) v (lock d) (unlock d) (default_kvs d) (gc_request d)
    (in_recovery_check d) (cur_kv d) (cur_sector d) (last_is_complete_del d) (kv_cache_table d) (sector_cache_table d).
Definition set_lock (v : option (M (fal_state S) unit)) (d : fdb_kvdb S) : fdb_kvdb S :=
  mk_kvdb (parent d) (not_formatable d) (oldest_addr d) v (unlock d) (default_kvs d) (gc_request d)
    (in_recovery_check d) (cur_kv d) (cur_sector d) (last_is_complete_del d) (kv_cache_table d) (sector_cache_table d).
Definition set_unlock (v : option (M (fal_state S) unit)) (d : fdb_kvdb S) : fdb_kvdb S :=
  mk_kvdb (parent d) (not_formatable d) (oldest_addr d) (lock d) v (default_kvs d) (gc_request d)
    (in_recovery_check d) (cur_kv d) (cur_sector d) (last_is_complete_del d) (kv_cache_table d) (sector_cache_table d).
Definition set_default_kvs (v : list fdb_default_kv_node) (d : fdb_kvdb S) : fdb_kvdb S :=
  mk_kvdb (parent d) (not_formatable d) (oldest_addr d) (lock d) (unlock d) v (gc_request d)
    (in_recovery_check d) (cur_kv d) (cur_sector d) (last_is_complete_del d) (kv_cache_table d) (sector_cache_table d).
Definition set_gc_request (v : bool) (d : fdb_kvdb S) : fdb_kvdb S :=
  mk_kvdb (parent d) (not_formatable d) (oldest_addr d) (lock d) (unlock d) (default_kvs d) v
    (in_recovery_check d) (cur_kv d) (cur_sector d) (last_is_complete_del d) (kv_cache_table d) (sector_cache_table d).
Definition set_in_recovery (v : bool) (d : fdb_kvdb S) : fdb_kvdb S :=
  mk_kvdb (parent d) (not_formatable d) (oldest_addr d) (lock d) (unlock d) (default_kvs d) (gc_request d) v
    (cur_kv d) (cur_sector d) (last_is_complete_del d) (kv_cache_table d) (sector_cache_table d).
Definition set_cur_kv (v : fdb_kv) (d : fdb_kvdb S) : fdb_kvdb S :=
  mk_kvdb (parent d) (not_formatable d) (oldest_addr d) (lock d) (unlock d) (default_kvs d) (gc_request d)
    (in_recovery_check d) v (cur_sector d) (last_is_complete_del d) (kv_cache_table d) (sector_cache_table d).
Definition set_cur_sector (v : kvdb_sec_info) (d : fdb_kvdb S) : fdb_kvdb S :=
  mk_kvdb (parent d) (not_formatable d) (oldest_addr d) (lock d) (unlock d) (default_kvs d) (gc_request d)
    (in_recovery_check d) (cur_kv d) v (last_is_complete_del d) (kv_cache_table d) (sector_cache_table d).
Definition set_last_del (v : bool) (d : fdb_kvdb S) : fdb_kvdb S :=
  mk_kvdb (parent d) (not_formatable d) (oldest_addr d) (lock d) (unlock d) (default_kvs d) (gc_request d)
    (in_recovery_check d) (cur_kv d) (cur_sector d) v (kv_cache_table d) (sector_cache_table d).
Definition set_kv_cache (v : list kv_cache_node) (d : fdb_kvdb S) : fdb_kvdb S :=
  mk_kvdb (parent d) (not_formatable d) (oldest_addr d) (lock d) (unlock d) (default_kvs d) (gc_request d)
    (in_recovery_check d) (cur_kv d) (cur_sector d) (last_is_complete_del d) v (sector_cache_table d).
Definition set_sector_cache (v : list kvdb_sec_info) (d : fdb_kvdb S) : fdb_kvdb S :=
  mk_kvdb (parent d) (not_formatable d) (oldest_addr d) (lock d) (unlock d) (default_kvs d) (gc_request d)
    (in_recovery_check d) (cur_kv d) (cur_sector d) (last_is_complete_del d) (kv_cache_table d) v.
End Setters.

(** The database, the flash abstraction layer below it, and whether the banner was printed. *)
Record kv_state (S : Type) : Type := mk_ks { kv_db : fdb_kvdb S; kv_fal : fal_state S; log_is_show : bool }.
Arguments mk_ks {S}.
Arguments kv_db {S}.
Arguments kv_fal {S}.
Arguments log_is_show {S}.
