(* ===== verification/KvRead.v ===== *)
(** * FlashDB's key-value store, reading: [src/src/flashdb/src/fdb_kvdb.c]

    The functions that read sectors and KVs and search them, up to [get_kv].  A structure the
    C code passes by pointer is an argument and a result; [stack_sector] and [stack_kv] are
    what the uninitialised locals hold.  The [do]-[while] loops carry fuel: a KV of a sector starts
    behind its predecessor and sectors are counted, so a turn for each byte of a sector, and for each
    sector, with some to spare is enough. *)
From S2P Require Import Prelude W25qxx Fal FdbUtils KvData.

(** The arguments of a print. *)
Inductive farg : Type := FInt (z : Z) | FStr (s : option string) | FChars (s : list Z).

(** Whether [strncmp] of two arrays is 0; [None] is an access behind one of them. *)
Fixpoint strncmp_same (n : nat) (a b : list Z) : option bool :=
  match n with
  | O => Some true
  | S n =>
      match a, b with
      | x :: a, y :: b =>
          if decide (x ≠ y) then Some false else if decide (x = 0) then Some true else strncmp_same n a b
      | _, _ => None
      end
  end.

Section Read.
Context {S : Type} (device_table : list (fal_flash_dev S)) (partition_table_def : list fal_partition)
  (vprintf : string → list farg → M S unit) (file_name : string)
  (stack_sector : kvdb_sec_info) (stack_kv : fdb_kv).
#[local] Abbreviation K := (kv_state S).
#[local] Abbreviation printf := (λ msg, vprintf msg []).

Definition on_fal {A} (m : M (fal_state S) A) : M K A := λ s,
  match m (kv_fal s) with
  | Ok a f => Ok a (mk_ks (kv_db s) f (log_is_show s))
  | Fault f => Fault f
  end.
Definition kget {A} (f : fdb_kvdb S → A) : M K A := mgets (λ s, f (kv_db s)).
Definition kset (f : fdb_kvdb S → fdb_kvdb S) : M K unit :=
  mmodify (λ s, mk_ks (f (kv_db s)) (kv_fal s) (log_is_show s)).
Definition db_sec_size (d : fdb_kvdb S) : Z := sec_size (parent d).
Definition db_max_size (d : fdb_kvdb S) : Z := max_size (parent d).

(** ** Printing and assertions *)

Definition FDB_PRINT (fmt : string) (args : list farg) : M K unit := on_fal (on_flash (vprintf fmt args)).
(** Without the file mode a database in that mode has no path. *)
Definition _fdb_db_path : M K (option string) :=
  db ← kget parent;
  if file_mode db then mret None else
  part ← mlift NullCall (db_part db);
  p ← on_fal (part_at part);
  mret (Some (part_name p)).
Definition log_prefix : M K unit :=
  FDB_PRINT "[FlashDB][kv]" [];;
  path ← _fdb_db_path;
  name ← kget (λ d, FdbUtils.db_name (parent d));
  FDB_PRINT "[%s][%s] " [FStr (Some name); FStr path].
Definition kv_info (fmt : string) (args : list farg) : M K unit := log_prefix;; FDB_PRINT fmt args.
Definition kv_debug (line : Z) (fmt : string) (args : list farg) : M K unit :=
  log_prefix;; FDB_PRINT "(%s:%d) " [FStr (Some file_name); FInt line];; FDB_PRINT fmt args.
Definition kv_assert (b : bool) : M K unit := if b then mret tt else mfail Diverged.

(** ** Accesses *)

Definition flash_read (addr size : Z) : M K (Z * list Z) :=
  db ← kget parent; on_fal (_fdb_flash_read device_table printf db addr size).
Definition flash_write (addr : Z) (data : list Z) (size : Z) : M K Z :=
  db ← kget parent; on_fal (_fdb_flash_write device_table printf db addr data size).
Definition flash_erase (addr size : Z) : M K Z :=
  db ← kget parent; on_fal (_fdb_flash_erase device_table printf db addr size).
Definition write_status (addr : Z) (table : list Z) (num idx : nat) : M K (Z * list Z) :=
  db ← kget parent; on_fal (_fdb_write_status device_table printf db addr table num idx).
Definition read_status (addr : Z) (table : list Z) (num : nat) : M K (nat * list Z) :=
  db ← kget parent; on_fal (_fdb_read_status device_table printf db addr table num).
Definition continue_ff_addr (start end_ : Z) : M K Z :=
  db ← kget parent; on_fal (_fdb_continue_ff_addr device_table printf db start end_).

(** A status table on the stack, which the callee overwrites. *)
Definition stack_table : list Z := [0].
(** The first [n] bytes of a buffer of which only [buf] was written. *)
Definition filled (n : Z) (buf : list Z) : M K (list Z) :=
  mlift Uninitialised (if decide (Z.to_nat n ≤ length buf)%nat then Some (take (Z.to_nat n) buf) else None).
(** What a read stored goes to the start of an array. *)
Definition store_into (out array : list Z) : M K (list Z) :=
  mlift OutOfBounds (memcpy_at 0 (length out) out array).

(** ** The cache of KVs *)

Definition update_kv_cache (name : list Z) (addr : Z) : M K unit :=
  crc ← mlift OutOfBounds (kv_name_crc name);
  kset (λ d, set_kv_cache (update_kv_cache_crc crc addr (kv_cache_table d)) d).

(** The loop from entry [i] on, with [n] to go. *)
Fixpoint kv_cache_find (n i : nat) (crc : Z) (name : list Z) : M K (option Z) :=
  match n with
  | O => mret None
  | Datatypes.S n =>
      table ← kget kv_cache_table;
      e ← mlift OutOfBounds (table !! i);
      if decide (node_addr e ≠ FDB_DATA_UNUSED ∧ name_crc e = crc) then
        '(_, out) ← flash_read (u32 (node_addr e + KV_HDR_DATA_SIZE)) FDB_KV_NAME_MAX;
        saved_name ← store_into out (replicate (Z.to_nat FDB_KV_NAME_MAX) 0);
        same ← mlift OutOfBounds (strncmp_same (length name) name saved_name);
        if (same : bool) then
          let a := if decide (active e >= 0xFFFF - Z.of_nat FDB_KV_CACHE_TABLE_SIZE) then 0xFFFF
                   else active e + Z.of_nat FDB_KV_CACHE_TABLE_SIZE in
          kset (λ d, set_kv_cache (alter (set_active a) i (kv_cache_table d)) d);;
          mret (Some (node_addr e))
        else kv_cache_find n (1 + i) crc name
      else kv_cache_find n (1 + i) crc name
  end.
Definition get_kv_from_cache (name : list Z) : M K (option Z) :=
  crc ← mlift OutOfBounds (kv_name_crc name);
  kv_cache_find FDB_KV_CACHE_TABLE_SIZE 0 crc name.

(** ** The next KV *)

(** The places [i] on of a buffer, with [n] to go. *)
Fixpoint magic_scan (n i : nat) (buf : list Z) (start start_bak end_ : Z) : option Z :=
  match n with
  | O => None
  | Datatypes.S n =>
      let at_ := u32 (start + Z.of_nat i) in
      if decide (at_ < end_) then
        if decide (u32_at i buf = KV_MAGIC_WORD ∧ u32 (at_ - KV_MAGIC_OFFSET) >= start_bak)
        then Some (u32 (at_ - KV_MAGIC_OFFSET))
        else magic_scan n (1 + i) buf start start_bak end_
      else None
  end.
Fixpoint next_kv_loop (fuel : nat) (start start_bak end_ : Z) (buf : list Z) : M K Z :=
  match fuel with
  | O => mfail Diverged
  | Datatypes.S fuel =>
      if decide (start < end_ ∧ u32 (start + 32) < end_) then
        '(res, out) ← flash_read start 32;
        if decide (res ≠ FDB_NO_ERR) then mret FAILED_ADDR else
        let buf := write_at 0 out buf in
        bytes ← filled 32 buf;
        match magic_scan 28 0 bytes start start_bak end_ with
        | Some a => mret a
        | None => next_kv_loop fuel (u32 (start + 28)) start_bak end_ buf
        end
      else mret FAILED_ADDR
  end.
Definition find_next_kv_addr (start end_ : Z) : M K Z :=
  d ← kget id;
  let cached := get_sector_from_cache (sector_cache_table d) (FDB_ALIGN_DOWN start (db_sec_size d))
                ≫= (λ i, sector_cache_table d !! i) in
  match cached with
  | Some c =>
      if decide (start = sec_empty_kv c) then mret FAILED_ADDR
      else next_kv_loop (Z.to_nat ((end_ - start) / 28) + 2) start start end_ []
  | None => next_kv_loop (Z.to_nat ((end_ - start) / 28) + 2) start start end_ []
  end.
Definition get_next_kv_addr (sector : kvdb_sec_info) (pre_kv : fdb_kv) : M K Z :=
  if decide (sec_store sector = FDB_SECTOR_STORE_EMPTY) then mret FAILED_ADDR else
  if decide (addr_start pre_kv = FAILED_ADDR) then mret (u32 (sec_addr sector + SECTOR_HDR_DATA_SIZE)) else
  size ← kget db_sec_size;
  if decide (addr_start pre_kv <= u32 (sec_addr sector + size)) then
    let addr := if crc_is_ok pre_kv then u32 (addr_start pre_kv + kv_len pre_kv)
                else u32 (addr_start pre_kv + FDB_WG_ALIGN 1) in
    addr ← find_next_kv_addr addr (u32 (sec_addr sector + size - SECTOR_HDR_DATA_SIZE));
    if decide (addr = FAILED_ADDR ∨ addr > u32 (sec_addr sector + size) ∨ kv_len pre_kv = 0)
    then mret FAILED_ADDR else mret addr
  else mret FAILED_ADDR.

(** ** Reading a KV *)

(** The checksum over the [crc_data_len] bytes behind the header, from byte [len] on. *)
Fixpoint kv_crc_loop (fuel : nat) (start len crc_data_len : Z) (buf : list Z) (crc : Z) : M K Z :=
  match fuel with
  | O => mfail Diverged
  | Datatypes.S fuel =>
      if decide (len < crc_data_len) then
        let size := if decide (len + 32 < crc_data_len) then 32 else crc_data_len - len in
        '(_, out) ← flash_read (u32 (start + KV_HDR_DATA_SIZE + len)) (FDB_WG_ALIGN size);
        let buf := write_at 0 out buf in
        bytes ← filled size buf;
        crc ← mlift OutOfBounds (fdb_calc_crc32 crc bytes);
        kv_crc_loop fuel start (len + size) crc_data_len buf crc
      else mret crc
  end.
Definition read_kv (kv : fdb_kv) : M K (Z * fdb_kv) :=
  '(_, out) ← flash_read (addr_start kv) (Z.of_nat sizeof_kv_hdr_data);
  raw ← filled (Z.of_nat sizeof_kv_hdr_data) out;
  let kv_hdr := kv_hdr_of raw in
  st ← mlift OutOfBounds (_fdb_get_status (hdr_status kv_hdr) FDB_KV_STATUS_NUM);
  let kv := set_kv_len (hdr_len kv_hdr) (set_kv_status st kv) in
  max ← kget db_max_size;
  if decide (kv_len kv = 0xFFFFFFFF ∨ kv_len kv > max ∨ kv_len kv < KV_HDR_DATA_SIZE) then
    let kv := set_crc_is_ok false (set_kv_len KV_HDR_DATA_SIZE kv) in
    if decide (kv_status kv ≠ FDB_KV_ERR_HDR) then
      kv_info "Error: The KV @0x%08X length has an error." [FInt (addr_start kv)];;
      write_status (addr_start kv) (hdr_status kv_hdr) FDB_KV_STATUS_NUM FDB_KV_ERR_HDR;;
      mret (FDB_READ_ERR, set_kv_status FDB_KV_ERR_HDR kv)
    else mret (FDB_READ_ERR, kv)
  else
    crc ← mlift OutOfBounds (fdb_calc_crc32 0 (take 4 (drop 16 raw)));
    crc ← mlift OutOfBounds (fdb_calc_crc32 crc (take 4 (drop 20 raw)));
    let crc_data_len := kv_len kv - KV_HDR_DATA_SIZE in
    crc ← kv_crc_loop (Z.to_nat (crc_data_len / 32) + 2) (addr_start kv) 0 crc_data_len [] crc;
    let kv_name_addr := u32 (addr_start kv + KV_HDR_DATA_SIZE) in
    if decide (crc ≠ hdr_crc32 kv_hdr) then
      let name_len := if decide (hdr_name_len kv_hdr > FDB_KV_NAME_MAX) then FDB_KV_NAME_MAX else hdr_name_len kv_hdr in
      '(_, out) ← flash_read kv_name_addr (FDB_WG_ALIGN name_len);
      name ← store_into out (kv_name kv);
      kv_info "Error: Read the KV (%.*s@0x%08X) CRC32 check failed!" [FInt name_len; FChars name; FInt (addr_start kv)];;
      mret (FDB_READ_ERR, set_crc_is_ok false (set_kv_name name kv))
    else
      '(_, out) ← flash_read kv_name_addr (FDB_WG_ALIGN (hdr_name_len kv_hdr));
      name ← store_into out (kv_name kv);
      let last := if decide (hdr_name_len kv_hdr >= FDB_KV_NAME_MAX) then FDB_KV_NAME_MAX - 1 else hdr_name_len kv_hdr in
      mret (FDB_NO_ERR,
        set_kv_name (<[Z.to_nat last := 0]> name)
          (set_kv_value (hdr_name_len kv_hdr) (hdr_value_len kv_hdr)
             (u32 (kv_name_addr + FDB_WG_ALIGN (hdr_name_len kv_hdr))) (set_crc_is_ok true kv))).

(** ** Sectors *)

(** The [do] loop of [read_sector_info] over the KVs of a sector in use. *)
Fixpoint sector_kvs (fuel : nat) (sector : kvdb_sec_info) (kv_obj : fdb_kv) : M K (Z * kvdb_sec_info) :=
  match fuel with
  | O => mfail Diverged
  | Datatypes.S fuel =>
      '(_, kv_obj) ← read_kv kv_obj;
      if decide (crc_is_ok kv_obj = false ∧ kv_status kv_obj ≠ FDB_KV_PRE_WRITE ∧ kv_status kv_obj ≠ FDB_KV_ERR_HDR) then
        mret (FDB_READ_ERR, set_sec_space (sec_empty_kv sector) 0 sector)
      else
        let sector := set_sec_space (u32 (sec_empty_kv sector + kv_len kv_obj)) (u32 (sec_remain sector - kv_len kv_obj)) sector in
        next ← get_next_kv_addr sector kv_obj;
        if decide (next ≠ FAILED_ADDR) then sector_kvs fuel sector (set_addr_start next kv_obj)
        else mret (FDB_NO_ERR, sector)
  end.
Definition cached_sector (addr : Z) (d : fdb_kvdb S) : option kvdb_sec_info :=
  get_sector_from_cache (sector_cache_table d) addr ≫= (λ i, sector_cache_table d !! i).
Definition cache_sector (sector : kvdb_sec_info) : M K unit :=
  kset (λ d, set_sector_cache (update_sector_cache sector (sector_cache_table d)) d).
(** [sector] is what the caller's structure held. *)
Definition read_sector_info (addr : Z) (sector : kvdb_sec_info) (traversal : bool) : M K (Z * kvdb_sec_info) :=
  d ← kget id;
  kv_assert (bool_decide (addr `mod` db_sec_size d = 0));;
  let cached := cached_sector addr d in
  match (if traversal then c ← cached; (if decide (sec_empty_kv c ≠ FAILED_ADDR) then Some c else None) else cached) with
  | Some c => mret (FDB_NO_ERR, c)
  | None =>
      '(_, out) ← flash_read addr (Z.of_nat sizeof_sector_hdr_data);
      raw ← store_into out (replicate sizeof_sector_hdr_data 0);
      let sec_hdr := sector_hdr_of raw in
      if decide (sec_hdr_magic sec_hdr ≠ SECTOR_MAGIC_WORD ∨
                 (sec_hdr_combined sec_hdr ≠ SECTOR_NOT_COMBINED ∧ sec_hdr_combined sec_hdr ≠ SECTOR_COMBINED)) then
        mret (FDB_INIT_FAILED,
          mk_sec false FDB_SECTOR_STORE_UNUSED FDB_SECTOR_DIRTY_UNUSED addr (sec_hdr_magic sec_hdr) SECTOR_NOT_COMBINED
            (sec_remain sector) (sec_empty_kv sector))
      else
        store ← mlift OutOfBounds (_fdb_get_status (hdr_store sec_hdr) FDB_SECTOR_STORE_STATUS_NUM);
        dirty ← mlift OutOfBounds (_fdb_get_status (hdr_dirty sec_hdr) FDB_SECTOR_DIRTY_STATUS_NUM);
        let sector := mk_sec true store dirty addr (sec_hdr_magic sec_hdr) (sec_hdr_combined sec_hdr)
                        (sec_remain sector) (sec_empty_kv sector) in
        if traversal then
          let whole := u32 (db_sec_size d - SECTOR_HDR_DATA_SIZE) in
          let first := u32 (addr + SECTOR_HDR_DATA_SIZE) in
          '(result, sector) ←
            (if decide (store = FDB_SECTOR_STORE_EMPTY) then mret (FDB_NO_ERR, set_sec_space first whole sector)
             else if decide (store = FDB_SECTOR_STORE_USING) then
               '(result, sector) ← sector_kvs (Z.to_nat (db_sec_size d) + 2) (set_sec_space first whole sector)
                                     (set_addr_start first stack_kv);
               ff_addr ← continue_ff_addr (sec_empty_kv sector) (u32 (addr + db_sec_size d));
               mret (result,
                 if decide (sec_empty_kv sector ≠ ff_addr)
                 then set_sec_space ff_addr (u32 (db_sec_size d - u32 (ff_addr - addr))) sector else sector)
             else mret (FDB_NO_ERR, set_sec_space first 0 sector));
          cache_sector sector;;
          mret (result, sector)
        else
          now ← kget (cached_sector addr);
          match now with
          | Some _ => mret (FDB_NO_ERR, sector)
          | None =>
              let sector := set_sec_space FAILED_ADDR 0 sector in
              cache_sector sector;;
              mret (FDB_NO_ERR, sector)
          end
  end.
Definition get_next_sector_addr (d : fdb_kvdb S) (pre_sec : kvdb_sec_info) (traversed_len : Z) : Z :=
  let cur_block_size := if decide (sec_combined pre_sec = SECTOR_NOT_COMBINED) then db_sec_size d
                        else u32 (sec_combined pre_sec * db_sec_size d) in
  if decide (u32 (traversed_len + cur_block_size) <= db_max_size d) then
    if decide (u32 (sec_addr pre_sec + cur_block_size) < db_max_size d) then u32 (sec_addr pre_sec + cur_block_size) else 0
  else FAILED_ADDR.

(** ** Iteration over KVs *)

(** The KVs of one sector; whether the callback ended the iteration, the KV and the callback's
    arguments. *)
Fixpoint kv_walk {A} (fuel : nat) (callback : fdb_kv → A → M K (bool * A)) (sector : kvdb_sec_info) (kv : fdb_kv) (arg : A) :
    M K (bool * fdb_kv * A) :=
  match fuel with
  | O => mfail Diverged
  | Datatypes.S fuel =>
      '(_, kv) ← read_kv kv;
      '(stop, arg) ← callback kv arg;
      if (stop : bool) then mret (true, kv, arg) else
      next ← get_next_kv_addr sector kv;
      let kv := set_addr_start next kv in
      if decide (next ≠ FAILED_ADDR) then kv_walk fuel callback sector kv arg else mret (false, kv, arg)
  end.
Fixpoint kv_sectors {A} (fuel : nat) (callback : fdb_kv → A → M K (bool * A)) (sec_addr traversed_len : Z)
    (sector : kvdb_sec_info) (kv : fdb_kv) (arg : A) : M K (fdb_kv * A) :=
  match fuel with
  | O => mfail Diverged
  | Datatypes.S fuel =>
      d ← kget id;
      let traversed_len := u32 (traversed_len + db_sec_size d) in
      '(res, sector) ← read_sector_info sec_addr sector false;
      '(stop, kv, arg) ←
        (if decide (res = FDB_NO_ERR ∧ (sec_store sector = FDB_SECTOR_STORE_USING ∨ sec_store sector = FDB_SECTOR_STORE_FULL)) then
           kv_walk (Z.to_nat (db_sec_size d) + 2) callback sector
             (set_addr_start (u32 (KvData.sec_addr sector + SECTOR_HDR_DATA_SIZE)) kv) arg
         else mret (false, kv, arg));
      if (stop : bool) then mret (kv, arg) else
      d ← kget id;
      let next := get_next_sector_addr d sector traversed_len in
      if decide (next ≠ FAILED_ADDR) then kv_sectors fuel callback next traversed_len sector kv arg else mret (kv, arg)
  end.
Definition sector_fuel (d : fdb_kvdb S) : nat := Z.to_nat (db_max_size d / db_sec_size d) + 2.
(** Every caller passes a callback. *)
Definition kv_iterator {A} (kv : fdb_kv) (arg : A) (callback : fdb_kv → A → M K (bool * A)) : M K (fdb_kv * A) :=
  d ← kget id;
  kv_sectors (sector_fuel d) callback (oldest_addr d) 0 stack_sector kv arg.

(** ** Search *)

Definition find_kv_cb (key : list Z) (kv : fdb_kv) (find_ok : bool) : M K (bool * bool) :=
  if decide (Z.of_nat (length key) ≠ kv_name_len kv) then mret (false, find_ok) else
  if crc_is_ok kv && bool_decide (kv_status kv = FDB_KV_WRITE) then
    same ← mlift OutOfBounds (strncmp_same (length key) (kv_name kv) key);
    if (same : bool) then mret (true, true) else mret (false, find_ok)
  else mret (false, find_ok).
Definition find_kv_no_cache (key : list Z) (kv : fdb_kv) : M K (bool * fdb_kv) :=
  '(kv, find_ok) ← kv_iterator kv false (find_kv_cb key);
  mret (find_ok, kv).
Definition find_kv (key : list Z) (kv : fdb_kv) : M K (bool * fdb_kv) :=
  cached ← get_kv_from_cache key;
  match cached with
  | Some addr =>
      '(_, kv) ← read_kv (set_addr_start addr kv);
      mret (true, kv)
  | None =>
      '(find_ok, kv) ← find_kv_no_cache key kv;
      (if (find_ok : bool) then update_kv_cache key (addr_start kv) else mret tt);;
      mret (find_ok, kv)
  end.

Definition is_print (ch : Z) : bool := bool_decide (u32 (ch - 32) < 127 - 32).
Definition fdb_is_str (value : list Z) : bool := forallb is_print value.

(** The size read, the length of the value and the caller's buffer, [None] for a null pointer. *)
Definition get_kv (key : list Z) (value_buf : option (list Z)) (buf_len : Z) : M K (Z * Z * option (list Z)) :=
  '(found, kv) ← find_kv key stack_kv;
  if (found : bool) then
    let read_len := if decide (buf_len > kv_value_len kv) then kv_value_len kv else buf_len in
    match value_buf with
    | Some buf =>
        '(_, out) ← flash_read (addr_value kv) read_len;
        buf ← store_into out buf;
        mret (read_len, kv_value_len kv, Some buf)
    | None => mret (read_len, kv_value_len kv, None)
    end
  else mret (0, 0, value_buf).
End Read.
