(* ===== verification/KvWrite.v ===== *)
(** * FlashDB's key-value store, writing: [src/src/flashdb/src/fdb_kvdb.c]

    Formatting, allocation, deletion, the garbage collection, and the creation of a KV.  The
    conventions are those of [KvRead.v]; a key that is a null pointer is [None]. *)
From S2P Require Import Prelude W25qxx Fal FdbUtils KvData KvRead.

Section Write.
Context {S : Type} (device_table : list (fal_flash_dev S)) (partition_table_def : list fal_partition)
  (vprintf : string → list farg → M S unit) (file_name : string)
  (stack_sector : kvdb_sec_info) (stack_kv : fdb_kv).
#[local] Abbreviation K := (kv_state S).
#[local] Abbreviation flash_read := (flash_read device_table vprintf).
#[local] Abbreviation flash_write := (flash_write device_table vprintf).
#[local] Abbreviation flash_erase := (flash_erase device_table vprintf).
#[local] Abbreviation write_status := (write_status device_table vprintf).
#[local] Abbreviation read_status := (read_status device_table vprintf).
#[local] Abbreviation kv_info := (kv_info vprintf).
#[local] Abbreviation kv_debug := (kv_debug vprintf file_name).
#[local] Abbreviation read_kv := (read_kv device_table vprintf).
#[local] Abbreviation read_sector_info := (read_sector_info device_table vprintf stack_kv).
#[local] Abbreviation find_kv := (find_kv device_table vprintf stack_sector stack_kv).
#[local] Abbreviation find_kv_no_cache := (find_kv_no_cache device_table vprintf stack_sector stack_kv).
#[local] Abbreviation kv_walk := (kv_walk device_table vprintf).

(** ** Headers *)

Definition write_kv_hdr (addr : Z) (kv_hdr : kv_hdr_data) : M K Z :=
  '(result, t) ← write_status addr (hdr_status kv_hdr) FDB_KV_STATUS_NUM FDB_KV_PRE_WRITE;
  if decide (result ≠ FDB_NO_ERR) then mret result else
  flash_write (u32 (addr + KV_MAGIC_OFFSET)) (drop (Z.to_nat KV_MAGIC_OFFSET) (kv_hdr_bytes kv_hdr))
    (Z.of_nat sizeof_kv_hdr_data - KV_MAGIC_OFFSET).
Definition format_sector (addr combined_value : Z) : M K Z :=
  d ← kget id;
  kv_assert (bool_decide (addr `mod` db_sec_size d = 0));;
  result ← flash_erase addr (db_sec_size d);
  if decide (result = FDB_NO_ERR) then
    '(_, store) ← mlift OutOfBounds (_fdb_set_status [FDB_BYTE_ERASED] FDB_SECTOR_STORE_STATUS_NUM FDB_SECTOR_STORE_EMPTY);
    '(_, dirty) ← mlift OutOfBounds (_fdb_set_status [FDB_BYTE_ERASED] FDB_SECTOR_DIRTY_STATUS_NUM FDB_SECTOR_DIRTY_FALSE);
    let sec_hdr := mk_sec_hdr store dirty [FDB_BYTE_ERASED; FDB_BYTE_ERASED] SECTOR_MAGIC_WORD combined_value FDB_DATA_UNUSED in
    result ← flash_write addr (sector_hdr_bytes sec_hdr) SECTOR_HDR_DATA_SIZE;
    cache_sector (mk_sec false FDB_SECTOR_STORE_UNUSED FDB_SECTOR_DIRTY_UNUSED addr 0 0 0 FAILED_ADDR);;
    mret result
  else mret result.
(** The result and whether the sector is full, from what the caller's variable held. *)
Definition update_sec_status (sector : kvdb_sec_info) (new_kv_len : Z) (is_full : bool) : M K (Z * bool) :=
  if decide (sec_store sector = FDB_SECTOR_STORE_EMPTY) then
    '(result, _) ← write_status (sec_addr sector) stack_table FDB_SECTOR_STORE_STATUS_NUM FDB_SECTOR_STORE_USING;
    kset (λ d, set_sector_cache (update_sector_status_store_cache (sec_addr sector) FDB_SECTOR_STORE_USING (sector_cache_table d)) d);;
    mret (result, is_full)
  else if decide (sec_store sector = FDB_SECTOR_STORE_USING) then
    if decide (sec_remain sector < FDB_SEC_REMAIN_THRESHOLD ∨ u32 (sec_remain sector - new_kv_len) < FDB_SEC_REMAIN_THRESHOLD) then
      '(result, _) ← write_status (sec_addr sector) stack_table FDB_SECTOR_STORE_STATUS_NUM FDB_SECTOR_STORE_FULL;
      kset (λ d, set_sector_cache (update_sector_status_store_cache (sec_addr sector) FDB_SECTOR_STORE_FULL (sector_cache_table d)) d);;
      mret (result, true)
    else mret (FDB_NO_ERR, false)
  else mret (FDB_NO_ERR, is_full).

(** ** Iteration over sectors *)

Fixpoint sectors_loop {A} (fuel : nat) (status : nat) (callback : kvdb_sec_info → A → M K (bool * A)) (traversal_kv : bool)
    (sec_addr traversed_len : Z) (sector : kvdb_sec_info) (arg : A) : M K (kvdb_sec_info * A) :=
  match fuel with
  | O => mfail Diverged
  | Datatypes.S fuel =>
      d ← kget id;
      let traversed_len := u32 (traversed_len + db_sec_size d) in
      '(_, sector) ← read_sector_info sec_addr sector false;
      '(stop, sector, arg) ←
        (if decide (status = FDB_SECTOR_STORE_UNUSED ∨ status = sec_store sector) then
           '(_, sector) ← (if traversal_kv then read_sector_info sec_addr sector true else mret (FDB_NO_ERR, sector));
           '(stop, arg) ← callback sector arg;
           mret (stop, sector, arg)
         else mret (false, sector, arg));
      if (stop : bool) then mret (sector, arg) else
      d ← kget id;
      let next := get_next_sector_addr d sector traversed_len in
      if decide (next ≠ FAILED_ADDR) then sectors_loop fuel status callback traversal_kv next traversed_len sector arg
      else mret (sector, arg)
  end.
Definition sector_iterator {A} (sector : kvdb_sec_info) (status : nat) (arg : A)
    (callback : kvdb_sec_info → A → M K (bool * A)) (traversal_kv : bool) : M K (kvdb_sec_info * A) :=
  d ← kget id;
  sectors_loop (sector_fuel d) status callback traversal_kv (oldest_addr d) 0 sector arg.

(** ** Allocation *)

Definition sector_statistics_cb (sector : kvdb_sec_info) (n : Z * Z) : M K (bool * (Z * Z)) :=
  let '(empty_sector, using_sector) := n in
  if check_ok sector && bool_decide (sec_store sector = FDB_SECTOR_STORE_EMPTY) then mret (false, (u32 (empty_sector + 1), using_sector))
  else if check_ok sector && bool_decide (sec_store sector = FDB_SECTOR_STORE_USING) then mret (false, (empty_sector, u32 (using_sector + 1)))
  else mret (false, (empty_sector, using_sector)).
Definition alloc_kv_cb (kv_size : Z) (sector : kvdb_sec_info) (empty_kv : Z) : M K (bool * Z) :=
  gc ← kget gc_request;
  if decide (check_ok sector = true ∧ sec_remain sector > u32 (kv_size + FDB_SEC_REMAIN_THRESHOLD) ∧
             (sec_dirty sector = FDB_SECTOR_DIRTY_FALSE ∨ (sec_dirty sector = FDB_SECTOR_DIRTY_TRUE ∧ gc = false)))
  then mret (true, sec_empty_kv sector) else mret (false, empty_kv).
Definition alloc_kv (sector : kvdb_sec_info) (kv_size : Z) : M K (Z * kvdb_sec_info) :=
  '(sector, (empty_sector, using_sector)) ← sector_iterator sector FDB_SECTOR_STORE_UNUSED (0, 0) sector_statistics_cb false;
  '(sector, empty_kv) ←
    (if decide (using_sector > 0) then sector_iterator sector FDB_SECTOR_STORE_USING FAILED_ADDR (alloc_kv_cb kv_size) true
     else mret (sector, FAILED_ADDR));
  if decide (empty_sector > 0 ∧ empty_kv = FAILED_ADDR) then
    gc ← kget gc_request;
    if decide (empty_sector > FDB_GC_EMPTY_SEC_THRESHOLD ∨ gc = true) then
      '(sector, empty_kv) ← sector_iterator sector FDB_SECTOR_STORE_EMPTY empty_kv (alloc_kv_cb kv_size) true;
      mret (empty_kv, sector)
    else
      kv_debug 929 "Trigger a GC check after alloc KV failed." [];;
      kset (set_gc_request true);;
      mret (empty_kv, sector)
  else mret (empty_kv, sector).

(** ** Deletion *)

(** The two halves of [del_kv]: the status of the KV with the cache, then the mark of its sector. *)
Definition del_status (key : option (list Z)) (old_kv : fdb_kv) (complete_del : bool) : M K (Z * list Z) :=
  if complete_del then
    '(result, t) ← write_status (addr_start old_kv) stack_table FDB_KV_STATUS_NUM FDB_KV_DELETED;
    last ← kget last_is_complete_del;
    (if decide (last = false ∧ result = FDB_NO_ERR) then
       match key with
       | Some k => update_kv_cache k FDB_DATA_UNUSED
       | None =>
           n ← mlift OutOfBounds (if decide (kv_name_len old_kv <= Z.of_nat (length (kv_name old_kv)))
                                  then Some (take (Z.to_nat (kv_name_len old_kv)) (kv_name old_kv)) else None);
           update_kv_cache n FDB_DATA_UNUSED
       end
     else mret tt);;
    kset (set_last_del false);;
    mret (result, t)
  else
    '(result, t) ← write_status (addr_start old_kv) stack_table FDB_KV_STATUS_NUM FDB_KV_PRE_DELETE;
    kset (set_last_del true);;
    mret (result, t).
Definition mark_dirty (addr result : Z) (t : list Z) : M K Z :=
  d ← kget id;
  let sec := FDB_ALIGN_DOWN addr (db_sec_size d) in
  let dirty_status_addr := u32 (sec + SECTOR_DIRTY_OFFSET) in
  if decide (result = FDB_NO_ERR) then
    '(dirty, t) ← read_status dirty_status_addr t FDB_SECTOR_DIRTY_STATUS_NUM;
    if decide (dirty = FDB_SECTOR_DIRTY_FALSE) then
      '(result, _) ← write_status dirty_status_addr t FDB_SECTOR_DIRTY_STATUS_NUM FDB_SECTOR_DIRTY_TRUE;
      kset (λ d, match get_sector_from_cache (sector_cache_table d) sec with
                 | Some i => set_sector_cache (alter (set_sec_dirty FDB_SECTOR_DIRTY_TRUE) i (sector_cache_table d)) d
                 | None => d
                 end);;
      mret result
    else mret result
  else mret result.
(** [old_kv] is [None] for a null pointer. *)
Definition del_kv (key : option (list Z)) (old_kv : option fdb_kv) (complete_del : bool) : M K Z :=
  old_kv ← (match old_kv with
            | Some kv => mret (Some kv)
            | None =>
                k ← mlift NullCall key;
                '(found, kv) ← find_kv k (mk_kv FDB_KV_UNUSED false 0 0 0 (replicate (Z.to_nat FDB_KV_NAME_MAX) 0) 0 0);
                if (found : bool) then mret (Some kv) else
                kv_debug 955 "Not found '%s' in KV." [FChars k];;
                mret None
            end);
  match old_kv with
  | None => mret FDB_KV_NAME_ERR
  | Some old_kv =>
      '(result, t) ← del_status key old_kv complete_del;
      mark_dirty (addr_start old_kv) result t
  end.

(** ** Moving a KV *)

(** The copying loop of [move_kv]; [result] is that of the last write. *)
Fixpoint copy_loop (fuel : nat) (from to_ len kv_len : Z) (buf : list Z) (result : Z) : M K Z :=
  match fuel with
  | O => mfail Diverged
  | Datatypes.S fuel =>
      if decide (len < kv_len) then
        let size := if decide (u32 (len + 32) < kv_len) then 32 else kv_len - len in
        '(_, out) ← flash_read (u32 (from + KV_MAGIC_OFFSET + len)) (FDB_WG_ALIGN size);
        let buf := write_at 0 out buf in
        bytes ← filled size buf;
        result ← flash_write (u32 (to_ + KV_MAGIC_OFFSET + len)) bytes size;
        copy_loop fuel from to_ (u32 (len + size)) kv_len buf result
      else mret result
  end.
(** [strncpy] to a zeroed array of 65 bytes. *)
Definition name_copy (kv : fdb_kv) : option (list Z) :=
  let n := Z.to_nat (kv_name_len kv) in
  let s := take n (kv_name kv) in
  match list_find (λ c, c = 0) s with
  | Some (i, _) => if decide (kv_name_len kv <= FDB_KV_NAME_MAX + 1) then Some (take i s) else None
  | None => if decide (n ≤ length (kv_name kv))%nat then Some s else None
  end.
Definition move_kv (kv : fdb_kv) : M K Z :=
  (if decide (kv_status kv = FDB_KV_WRITE) then del_kv None (Some kv) false;; mret tt else mret tt);;
  '(kv_addr, sector) ← alloc_kv stack_sector (kv_len kv);
  if decide (kv_addr = FAILED_ADDR) then mret FDB_SAVED_FULL else
  rec ← kget in_recovery_check;
  created ← (if decide (rec = true ∧ kv_status kv = FDB_KV_PRE_DELETE) then
               name ← mlift OutOfBounds (name_copy kv);
               '(found, _) ← find_kv_no_cache name stack_kv;
               mret (found : bool)
             else mret false);
  result ←
    (if (created : bool) then mret FDB_NO_ERR else
     update_sec_status sector (kv_len kv) false;;
     write_status kv_addr stack_table FDB_KV_STATUS_NUM FDB_KV_PRE_WRITE;;
     let len := u32 (kv_len kv - KV_MAGIC_OFFSET) in
     result ← copy_loop (Z.to_nat (len / 32) + 2) (addr_start kv) kv_addr 0 len [] FDB_NO_ERR;
     write_status kv_addr stack_table FDB_KV_STATUS_NUM FDB_KV_WRITE;;
     kset (λ d, set_sector_cache (update_sector_empty_addr_cache (db_sec_size d) (FDB_ALIGN_DOWN kv_addr (db_sec_size d))
                  (u32 (kv_addr + KV_HDR_DATA_SIZE + FDB_WG_ALIGN (kv_name_len kv) + FDB_WG_ALIGN (kv_value_len kv)))
                  (sector_cache_table d)) d);;
     n ← mlift OutOfBounds (if decide (kv_name_len kv <= Z.of_nat (length (kv_name kv)))
                            then Some (take (Z.to_nat (kv_name_len kv)) (kv_name kv)) else None);
     update_kv_cache n kv_addr;;
     kv_debug 1058 "Moved the KV (%.*s) from 0x%08X to 0x%08X."
       [FInt (kv_name_len kv); FChars (kv_name kv); FInt (addr_start kv); FInt kv_addr];;
     mret result);
  del_kv None (Some kv) true;;
  mret result.

(** ** The garbage collection *)

Definition gc_check_cb (sector : kvdb_sec_info) (n : Z * Z) : M K (bool * (Z * Z)) :=
  if check_ok sector then mret (false, (u32 (n.1 + 1), sec_addr sector)) else mret (false, n).
Definition do_gc (setting_free_size : Z) (sector : kvdb_sec_info) (last_gc_sec_addr : Z) : M K (bool * Z) :=
  if decide (check_ok sector = true ∧ (sec_dirty sector = FDB_SECTOR_DIRTY_TRUE ∨ sec_dirty sector = FDB_SECTOR_DIRTY_GC)) then
    write_status (u32 (sec_addr sector + SECTOR_DIRTY_OFFSET)) stack_table FDB_SECTOR_DIRTY_STATUS_NUM FDB_SECTOR_DIRTY_GC;;
    d ← kget id;
    kv_walk (Z.to_nat (db_sec_size d) + 2)
      (λ kv _,
         (if decide (crc_is_ok kv = true ∧ (kv_status kv = FDB_KV_WRITE ∨ kv_status kv = FDB_KV_PRE_DELETE)) then
            result ← move_kv kv;
            if decide (result ≠ FDB_NO_ERR) then
              kv_info "Error: Moved the KV (%.*s) for GC failed." [FInt (kv_name_len kv); FChars (kv_name kv)]
            else mret tt
          else kv_debug 1130 "KV (%.*s) is garbage NOT need move, collect it." [FInt (kv_name_len kv); FChars (kv_name kv)]);;
         mret (false, tt))
      sector (set_addr_start (u32 (sec_addr sector + SECTOR_HDR_DATA_SIZE)) stack_kv) tt;;
    format_sector (sec_addr sector) SECTOR_NOT_COMBINED;;
    kset (λ d, set_oldest_addr (get_next_sector_addr d sector 0) d);;
    kv_debug 1138 "Collect a sector @0x%08X" [FInt (sec_addr sector)];;
    '(res, last_gc_sector) ← read_sector_info last_gc_sec_addr stack_sector true;
    mret (bool_decide (res = FDB_NO_ERR ∧ sec_remain last_gc_sector > setting_free_size), sec_addr sector)
  else mret (false, last_gc_sec_addr).
Definition gc_collect_by_free_size (free_size : Z) : M K unit :=
  '(sector, (empty_sec_num, empty_sec_addr)) ← sector_iterator stack_sector FDB_SECTOR_STORE_EMPTY (0, 0) gc_check_cb false;
  kv_debug 1161 "The remain empty sector is %u, GC threshold is %d." [FInt empty_sec_num; FInt FDB_GC_EMPTY_SEC_THRESHOLD];;
  (if decide (empty_sec_num <= FDB_GC_EMPTY_SEC_THRESHOLD) then
     sector_iterator sector FDB_SECTOR_STORE_UNUSED empty_sec_addr (do_gc free_size) false;; mret tt
   else mret tt);;
  kset (set_gc_request false).
Definition gc_collect : M K unit :=
  max ← kget db_max_size;
  gc_collect_by_free_size max.

(** ** Creation *)

(** The [goto] goes back at most once, after a collection. *)
Definition new_kv (sector : kvdb_sec_info) (kv_size : Z) : M K (Z * kvdb_sec_info) :=
  '(empty_kv, sector) ← alloc_kv sector kv_size;
  if decide (empty_kv ≠ FAILED_ADDR) then mret (empty_kv, sector) else
  gc ← kget gc_request;
  if (gc : bool) then
    kv_debug 1075 "Alloc an KV (size %u) failed when new KV. Now will GC then retry." [FInt kv_size];;
    gc_collect_by_free_size kv_size;;
    '(empty_kv, sector) ← alloc_kv sector kv_size;
    if decide (empty_kv ≠ FAILED_ADDR) then mret (empty_kv, sector) else
    kv_info "Error: Alloc an KV (size %u) failed after GC. KV full." [FInt kv_size];;
    kset (set_gc_request false);;
    mret (empty_kv, sector)
  else mret (empty_kv, sector).
Definition new_kv_ex (sector : kvdb_sec_info) (key_len buf_len : Z) : M K (Z * kvdb_sec_info) :=
  new_kv sector (u32 (KV_HDR_DATA_SIZE + FDB_WG_ALIGN key_len + FDB_WG_ALIGN buf_len)).

Definition align_write (addr : Z) (buf : list Z) (size : Z) : M K Z :=
  let down := FDB_WG_ALIGN_DOWN size in
  result ← (if decide (down > 0) then flash_write addr buf down else mret FDB_NO_ERR);
  let align_remain := size - down in
  if decide (result = FDB_NO_ERR ∧ align_remain ≠ 0) then
    align_data ← mlift OutOfBounds (memcpy_at 0 (Z.to_nat align_remain) (drop (Z.to_nat down) buf) [FDB_BYTE_ERASED]);
    flash_write (u32 (addr + down)) align_data 1
  else mret result.

(** [while (align_remain--)] over one erased byte. *)
Fixpoint crc_padding (n : nat) (crc : Z) : option Z :=
  match n with O => Some crc | Datatypes.S n => crc ← fdb_calc_crc32 crc [FDB_BYTE_ERASED]; crc_padding n crc end.
(** The header of a new KV before its checksum is known, over erased bytes. *)
Definition new_hdr (key_len len : Z) (crc : Z) : kv_hdr_data :=
  mk_kv_hdr [FDB_BYTE_ERASED] (replicate 3 FDB_BYTE_ERASED) KV_MAGIC_WORD
    (u32 (KV_HDR_DATA_SIZE + FDB_WG_ALIGN (u8 key_len) + FDB_WG_ALIGN len)) crc (u8 key_len) (replicate 3 FDB_BYTE_ERASED) len.
Definition kv_crc (key value : list Z) (len : Z) : option Z :=
  let raw := kv_hdr_bytes (new_hdr (Z.of_nat (length key)) len 0) in
  let name_len := u8 (Z.of_nat (length key)) in
  crc ← fdb_calc_crc32 0 (take 4 (drop 16 raw));
  crc ← fdb_calc_crc32 crc (take 4 (drop 20 raw));
  crc ← fdb_calc_crc32 crc (take (Z.to_nat name_len) key);
  crc ← crc_padding (Z.to_nat (FDB_WG_ALIGN name_len - name_len)) crc;
  value ← (if decide (Z.to_nat len ≤ length value)%nat then Some (take (Z.to_nat len) value) else None);
  crc ← fdb_calc_crc32 crc value;
  crc_padding (Z.to_nat (FDB_WG_ALIGN len - len)) crc.
(** The steps after the place of the KV is known. *)
Definition write_new_kv (sector : kvdb_sec_info) (kv_addr : Z) (key value : list Z) (len : Z) : M K Z :=
  let name_len := u8 (Z.of_nat (length key)) in
  '(result, is_full) ← update_sec_status sector (hdr_len (new_hdr (Z.of_nat (length key)) len 0)) false;
  if decide (result ≠ FDB_NO_ERR) then mret result else
  crc ← mlift OutOfBounds (kv_crc key value len);
  result ← write_kv_hdr kv_addr (new_hdr (Z.of_nat (length key)) len crc);
  if decide (result ≠ FDB_NO_ERR) then mret result else
  result ← align_write (u32 (kv_addr + KV_HDR_DATA_SIZE)) key name_len;
  (if (is_full : bool) then mret tt else
   kset (λ d, set_sector_cache (update_sector_empty_addr_cache (db_sec_size d) (sec_addr sector)
                (u32 (kv_addr + KV_HDR_DATA_SIZE + FDB_WG_ALIGN name_len + FDB_WG_ALIGN len)) (sector_cache_table d)) d));;
  update_kv_cache (take (Z.to_nat name_len) key) kv_addr;;
  if decide (result ≠ FDB_NO_ERR) then mret result else
  result ← align_write (u32 (kv_addr + KV_HDR_DATA_SIZE + FDB_WG_ALIGN name_len)) value len;
  if decide (result ≠ FDB_NO_ERR) then mret result else
  '(result, _) ← write_status kv_addr [FDB_BYTE_ERASED] FDB_KV_STATUS_NUM FDB_KV_WRITE;
  if decide (result = FDB_NO_ERR ∧ is_full = true) then
    kv_debug 1282 "Trigger a GC check after created KV." [];;
    kset (set_gc_request true);;
    mret result
  else mret result.
Definition create_kv_blob (sector : kvdb_sec_info) (key value : list Z) (len : Z) : M K (Z * kvdb_sec_info) :=
  if decide (Z.of_nat (length key) > FDB_KV_NAME_MAX) then
    kv_info "Error: The KV name length is more than %d" [FInt FDB_KV_NAME_MAX];;
    mret (FDB_KV_NAME_ERR, sector)
  else
    let kv_len := hdr_len (new_hdr (Z.of_nat (length key)) len 0) in
    d ← kget id;
    if decide (kv_len > u32 (db_sec_size d - SECTOR_HDR_DATA_SIZE)) then
      kv_info "Error: The KV size is too big" [];;
      mret (FDB_SAVED_FULL, sector)
    else
      '(kv_addr, sector) ← (if decide (sec_empty_kv sector ≠ FAILED_ADDR) then mret (sec_empty_kv sector, sector)
                            else new_kv sector kv_len);
      if decide (kv_addr = FAILED_ADDR) then mret (FDB_SAVED_FULL, sector) else
      result ← write_new_kv sector kv_addr key value len;
      mret (result, sector).

(** The middle of [set_kv]: the old KV prepared for deletion, the new one created, the old one deleted. *)
Definition replace_kv (key value : list Z) (buf_len : Z) (kv_is_found : bool) (kv : fdb_kv) : M K Z :=
  result ← (if kv_is_found then del_kv (Some key) (Some kv) false else mret FDB_NO_ERR);
  result ← (if decide (result = FDB_NO_ERR) then
              sector ← kget cur_sector;
              '(result, sector) ← create_kv_blob sector key value buf_len;
              kset (set_cur_sector sector);;
              mret result
            else mret result);
  if decide (kv_is_found = true ∧ result = FDB_NO_ERR) then del_kv (Some key) (Some kv) true else mret result.
(** [value_buf] is [None] for a null pointer. *)
Definition set_kv (key : list Z) (value_buf : option (list Z)) (buf_len : Z) : M K Z :=
  match value_buf with
  | None => del_kv (Some key) None true
  | Some value =>
      sector ← kget cur_sector;
      '(kv_addr, sector) ← new_kv_ex sector (Z.of_nat (length key)) buf_len;
      kset (set_cur_sector sector);;
      if decide (kv_addr = FAILED_ADDR) then mret FDB_SAVED_FULL else
      kv ← kget cur_kv;
      '(kv_is_found, kv) ← find_kv key kv;
      kset (set_cur_kv kv);;
      result ← replace_kv key value buf_len kv_is_found kv;
      gc ← kget gc_request;
      (if (gc : bool) then
         gc_collect_by_free_size (u32 (KV_HDR_DATA_SIZE + FDB_WG_ALIGN (Z.of_nat (length key)) + FDB_WG_ALIGN buf_len))
       else mret tt);;
      mret result
  end.
End Write.
