(* ===== verification/KvApi.v ===== *)
(** * FlashDB's key-value store, its interface: [src/src/flashdb/src/fdb_kvdb.c], [fdb.c] and [fdb_port.c]

    The functions a program calls: getting, setting and deleting under the lock, the
    defaults, loading with its recovery, the initialisation, the iterator and the check; then the
    wrappers of the port.  [retries] bounds the [goto] of the loading, which the code does
    not bound. *)
From S2P Require Import Prelude W25qxx Fal FdbUtils KvData KvRead KvWrite.

Section Api.
Context {S : Type} (device_table : list (fal_flash_dev S)) (partition_table_def : list fal_partition)
  (vprintf : string → list farg → M S unit) (file_name : string)
  (stack_sector : kvdb_sec_info) (stack_kv : fdb_kv) (retries : nat).
#[local] Abbreviation K := (kv_state S).
#[local] Abbreviation flash_read := (flash_read device_table vprintf).
#[local] Abbreviation write_status := (write_status device_table vprintf).
#[local] Abbreviation kv_info := (kv_info vprintf).
#[local] Abbreviation kv_debug := (kv_debug vprintf file_name).
#[local] Abbreviation FDB_PRINT := (FDB_PRINT vprintf).
#[local] Abbreviation read_kv := (read_kv device_table vprintf).
#[local] Abbreviation get_next_kv_addr := (get_next_kv_addr device_table vprintf).
#[local] Abbreviation read_sector_info := (read_sector_info device_table vprintf stack_kv).
#[local] Abbreviation find_kv := (find_kv device_table vprintf stack_sector stack_kv).
#[local] Abbreviation get_kv := (get_kv device_table vprintf stack_sector stack_kv).
#[local] Abbreviation kv_iterator := (kv_iterator device_table vprintf stack_sector stack_kv).
#[local] Abbreviation sector_iterator := (sector_iterator device_table vprintf stack_kv).
#[local] Abbreviation format_sector := (format_sector device_table vprintf).
#[local] Abbreviation del_kv := (del_kv device_table vprintf file_name stack_sector stack_kv).
#[local] Abbreviation move_kv := (move_kv device_table vprintf file_name stack_sector stack_kv).
#[local] Abbreviation gc_collect := (gc_collect device_table vprintf file_name stack_sector stack_kv).
#[local] Abbreviation create_kv_blob := (create_kv_blob device_table vprintf file_name stack_sector stack_kv).
#[local] Abbreviation set_kv := (set_kv device_table vprintf file_name stack_sector stack_kv).

Definition db_lock : M K unit := f ← kget lock; match f with Some f => on_fal f | None => mret tt end.
Definition db_unlock : M K unit := f ← kget unlock; match f with Some f => on_fal f | None => mret tt end.
(** The test at the head of the public functions, and the lock around them. *)
Definition when_init {A} (none : A) (m : M K A) : M K A :=
  ok ← kget (λ d, init_ok (parent d));
  if (ok : bool) then a ← (db_lock;; m); db_unlock;; mret a else
  name ← kget (λ d, FdbUtils.db_name (parent d));
  kv_info "Error: KV (%s) isn't initialize OK." [FStr (Some name)];;
  mret none.

(** ** Getting *)

Definition fdb_kv_get_obj (key : list Z) (kv : fdb_kv) : M K (option fdb_kv) :=
  when_init None ('(find_ok, kv) ← find_kv key kv; mret (if (find_ok : bool) then Some kv else None)).
Definition fdb_kv_to_blob (kv : fdb_kv) (blob : fdb_blob) : fdb_blob :=
  mk_blob (blob_size blob) (addr_start kv) (addr_value kv) (kv_value_len kv).
(** The size read, the blob and its buffer. *)
Definition fdb_kv_get_blob (key : list Z) (blob : fdb_blob) (buf : option (list Z)) : M K (Z * fdb_blob * option (list Z)) :=
  when_init (0, blob, buf)
    ('(read_len, value_len, buf) ← get_kv key buf (blob_size blob);
     mret (read_len, mk_blob (blob_size blob) (saved_meta_addr blob) (saved_addr blob) value_len, buf)).
(** [value] is the static buffer; the result is the string in it, and the buffer. *)
Definition fdb_kv_get (key : list Z) (blob : fdb_blob) (value : list Z) : M K (option (list Z) * list Z) :=
  '(get_size, blob, buf) ← fdb_kv_get_blob key (fdb_blob_make blob FDB_STR_KV_VALUE_MAX_SIZE) (Some value);
  value ← mlift NullCall buf;
  if decide (get_size > 0) then
    if fdb_is_str (take (Z.to_nat get_size) value) then
      if decide (Z.to_nat get_size < length value)%nat
      then let value := <[Z.to_nat get_size := 0]> value in mret (Some (take (Z.to_nat get_size) value), value)
      else mfail OutOfBounds
    else if decide (saved_len blob > FDB_STR_KV_VALUE_MAX_SIZE) then
      kv_info "Warning: The default string KV value buffer length (%d) is too less (%u)."
        [FInt FDB_STR_KV_VALUE_MAX_SIZE; FInt (saved_len blob)];;
      mret (None, value)
    else
      kv_info "Warning: The KV value isn't string. Could not be returned" [];;
      mret (None, value)
  else mret (None, value).

(** ** Setting and deleting *)

Definition fdb_kv_del (key : list Z) : M K Z := when_init FDB_INIT_FAILED (del_kv (Some key) None true).
Definition fdb_kv_set_blob (key : list Z) (blob : fdb_blob) (buf : option (list Z)) : M K Z :=
  when_init FDB_INIT_FAILED (set_kv key buf (blob_size blob)).
Definition fdb_kv_set (key : list Z) (value : option (list Z)) (blob : fdb_blob) : M K Z :=
  match value with
  | Some v => fdb_kv_set_blob key (fdb_blob_make blob (Z.of_nat (length v))) (Some v)
  | None => fdb_kv_del key
  end.

(** ** Defaults *)

(** The loop from address [addr] on. *)
Fixpoint format_loop (fuel : nat) (addr : Z) : M K Z :=
  match fuel with
  | O => mfail Diverged
  | Datatypes.S fuel =>
      d ← kget id;
      if decide (addr < db_max_size d) then
        result ← format_sector addr SECTOR_NOT_COMBINED;
        if decide (result ≠ FDB_NO_ERR) then mret result else format_loop fuel (u32 (addr + db_sec_size d))
      else mret FDB_NO_ERR
  end.
(** A string when the length is 0. *)
Definition default_size (n : fdb_default_kv_node) : option Z :=
  if decide (default_len n = 0)
  then '(i, _) ← list_find (λ c, c = 0) (default_value n); Some (Z.of_nat i)
  else Some (default_len n).
(** The results of the creations are not looked at. *)
Fixpoint create_defaults (nodes : list fdb_default_kv_node) (sector : kvdb_sec_info) : M K unit :=
  match nodes with
  | [] => mret tt
  | n :: nodes =>
      len ← mlift OutOfBounds (default_size n);
      '(_, sector) ← create_kv_blob (set_sec_space FAILED_ADDR (sec_remain sector) sector) (default_key n) (default_value n) len;
      create_defaults nodes sector
  end.
Definition fdb_kv_set_default : M K Z :=
  db_lock;;
  kset (λ d, set_kv_cache (set_node_addr FDB_DATA_UNUSED <$> kv_cache_table d) d);;
  d ← kget id;
  result ← format_loop (sector_fuel d) 0;
  (if decide (result = FDB_NO_ERR) then create_defaults (default_kvs d) stack_sector else mret tt);;
  kset (set_oldest_addr 0);;
  db_unlock;;
  mret result.

(** ** Printing *)

(** The loop of [print_kv_cb] over the value, to check it or to print it; whether it is a string. *)
Fixpoint value_loop (fuel : nat) (kv : fdb_kv) (print_value : bool) (len : Z) (buf : list Z) : M K bool :=
  match fuel with
  | O => mfail Diverged
  | Datatypes.S fuel =>
      if decide (len < kv_value_len kv) then
        let size := if decide (len + 32 < kv_value_len kv) then 32 else kv_value_len kv - len in
        '(_, out) ← flash_read (u32 (addr_value kv + len)) (FDB_WG_ALIGN size);
        let buf := write_at 0 out buf in
        bytes ← filled size buf;
        if print_value then
          FDB_PRINT "%.*s" [FInt size; FChars bytes];; value_loop fuel kv print_value (len + size) buf
        else if fdb_is_str bytes then value_loop fuel kv print_value (len + size) buf
        else mret false
      else mret true
  end.
Definition print_kv_cb (kv : fdb_kv) (using_size : Z) : M K (bool * Z) :=
  if crc_is_ok kv then
    let using_size := u32 (using_size + kv_len kv) in
    if decide (kv_status kv = FDB_KV_WRITE) then
      FDB_PRINT "%.*s=" [FInt (kv_name_len kv); FChars (kv_name kv)];;
      value_is_str ← (if decide (kv_value_len kv < FDB_STR_KV_VALUE_MAX_SIZE)
                      then value_loop 6 kv false 0 [] else mret false);
      (if (value_is_str : bool) then value_loop 6 kv true 0 [];; mret tt
       else FDB_PRINT "blob @0x%08X %ubytes" [FInt (addr_value kv); FInt (kv_value_len kv)]);;
      FDB_PRINT "" [];;
      mret (false, using_size)
    else mret (false, using_size)
  else mret (false, using_size).
Definition fdb_kv_print : M K unit :=
  when_init tt
    ('(_, using_size) ← kv_iterator stack_kv 0 print_kv_cb;
     FDB_PRINT "mode: next generation" [];;
     d ← kget id;
     FDB_PRINT "size: %u/%u bytes."
       [FInt (u32 (using_size + (db_max_size d / db_sec_size d - FDB_GC_EMPTY_SEC_THRESHOLD) * SECTOR_HDR_DATA_SIZE));
        FInt (u32 (db_max_size d - db_sec_size d * FDB_GC_EMPTY_SEC_THRESHOLD))]).

(** ** Loading and recovery *)

(** The oldest sector's address and the last sector's status. *)
Definition check_oldest_addr_cb (sector : kvdb_sec_info) (arg : Z * nat) : M K (bool * (Z * nat)) :=
  let '(oldest, last) := arg in
  mret (false,
    (if decide (last = FDB_SECTOR_STORE_EMPTY ∧ (sec_store sector = FDB_SECTOR_STORE_FULL ∨ sec_store sector = FDB_SECTOR_STORE_USING))
     then sec_addr sector else oldest, sec_store sector)).
Definition check_sec_hdr_cb (sector : kvdb_sec_info) (failed_count : Z) : M K (bool * Z) :=
  if check_ok sector then mret (false, failed_count) else
  strict ← kget not_formatable;
  if (strict : bool) then mret (true, u32 (failed_count + 1)) else
  kv_debug 1598 "Sector header info is incorrect. Auto format this sector (0x%08X)." [FInt (sec_addr sector)];;
  format_sector (sec_addr sector) SECTOR_NOT_COMBINED;;
  mret (false, u32 (failed_count + 1)).
Definition check_and_recovery_gc_cb (sector : kvdb_sec_info) (_ : unit) : M K (bool * unit) :=
  (if check_ok sector && bool_decide (sec_dirty sector = FDB_SECTOR_DIRTY_GC)
   then kset (set_gc_request true);; gc_collect else mret tt);;
  mret (false, tt).
Definition check_and_recovery_kv_cb (kv : fdb_kv) (_ : unit) : M K (bool * unit) :=
  if crc_is_ok kv && bool_decide (kv_status kv = FDB_KV_PRE_DELETE) then
    kv_info "Found an KV (%.*s) which has changed value failed. Now will recovery it."
      [FInt (kv_name_len kv); FChars (kv_name kv)];;
    result ← move_kv kv;
    if decide (result = FDB_NO_ERR) then
      kv_debug 1629 "Recovery the KV successful." [];; mret (false, tt)
    else
      kv_debug 1631 "Warning: Moved an KV (size %u) failed when recovery. Now will GC then retry." [FInt (kv_len kv)];;
      mret (true, tt)
  else if decide (kv_status kv = FDB_KV_PRE_WRITE) then
    write_status (addr_start kv) stack_table FDB_KV_STATUS_NUM FDB_KV_ERR_HDR;;
    mret (true, tt)
  else if crc_is_ok kv && bool_decide (kv_status kv = FDB_KV_WRITE) then
    n ← mlift OutOfBounds (if decide (kv_name_len kv <= Z.of_nat (length (kv_name kv)))
                           then Some (take (Z.to_nat (kv_name_len kv)) (kv_name kv)) else None);
    update_kv_cache n (addr_start kv);;
    mret (false, tt)
  else mret (false, tt).
Fixpoint recover_loop (fuel : nat) (kv : fdb_kv) : M K unit :=
  match fuel with
  | O => mfail Diverged
  | Datatypes.S fuel =>
      '(kv, _) ← kv_iterator kv tt check_and_recovery_kv_cb;
      gc ← kget gc_request;
      if (gc : bool) then gc_collect;; recover_loop fuel kv else mret tt
  end.
Definition _fdb_kv_load : M K Z :=
  kset (set_in_recovery true);;
  '(sector, failed) ← sector_iterator stack_sector FDB_SECTOR_STORE_UNUSED 0 check_sec_hdr_cb false;
  d ← kget id;
  if decide (not_formatable d = true ∧ failed > 0) then mret FDB_READ_ERR else
  (if decide (failed = db_max_size d / db_sec_size d) then
     kv_info "All sector header is incorrect. Set it to default." [];; fdb_kv_set_default;; mret tt
   else mret tt);;
  sector_iterator sector FDB_SECTOR_STORE_UNUSED tt check_and_recovery_gc_cb false;;
  recover_loop retries stack_kv;;
  kset (set_in_recovery false);;
  mret FDB_NO_ERR.

(** ** The database *)

(** The argument of a command; the modes of a file need the file mode, which is not configured. *)
Inductive kvdb_ctrl : Type :=
  | FDB_KVDB_CTRL_SET_SEC_SIZE (size : Z)
  | FDB_KVDB_CTRL_GET_SEC_SIZE
  | FDB_KVDB_CTRL_SET_LOCK (f : option (M (fal_state S) unit))
  | FDB_KVDB_CTRL_SET_UNLOCK (f : option (M (fal_state S) unit))
  | FDB_KVDB_CTRL_SET_FILE_MODE
  | FDB_KVDB_CTRL_SET_MAX_SIZE
  | FDB_KVDB_CTRL_SET_NOT_FORMAT (b : bool).
Definition not_started : M K unit := ok ← kget (λ d, init_ok (parent d)); kv_assert (negb ok).
(** What the command stores through its argument. *)
Definition fdb_kvdb_control (cmd : kvdb_ctrl) : M K (option Z) :=
  match cmd with
  | FDB_KVDB_CTRL_SET_SEC_SIZE size =>
      not_started;; kset (λ d, set_parent (set_db_sizes size (max_size (parent d)) (parent d)) d);; mret None
  | FDB_KVDB_CTRL_GET_SEC_SIZE => size ← kget db_sec_size; mret (Some size)
  | FDB_KVDB_CTRL_SET_LOCK f => kset (set_lock f);; mret None
  | FDB_KVDB_CTRL_SET_UNLOCK f => kset (set_unlock f);; mret None
  | FDB_KVDB_CTRL_SET_FILE_MODE =>
      kv_info "Error: set file mode Failed. Please defined the FDB_USING_FILE_MODE macro." [];; mret None
  | FDB_KVDB_CTRL_SET_MAX_SIZE => mret None
  | FDB_KVDB_CTRL_SET_NOT_FORMAT b => not_started;; kset (set_not_formatable b);; mret None
  end.

(** [fdb.c] has an empty log tag. *)
Definition fdb_info (fmt : string) (args : list farg) : M K unit :=
  FDB_PRINT "[FlashDB]" [];; FDB_PRINT " " [];; FDB_PRINT fmt args.
(** Every database here is a KVDB. *)
Definition _fdb_init_finish (result : Z) : M K unit :=
  if decide (result = FDB_NO_ERR) then
    kset (λ d, set_parent (set_db_ok true (parent d)) d);;
    shown ← mgets log_is_show;
    if (shown : bool) then mret tt else
    fdb_info "FlashDB V%s is initialize success." [FStr (Some "2.1.1"%string)];;
    fdb_info "You can get the latest version on https://github.com/armink/FlashDB ." [];;
    mmodify (λ s, mk_ks (kv_db s) (kv_fal s) true)
  else
    strict ← kget not_formatable;
    if (strict : bool) then mret tt else
    path ← _fdb_db_path;
    name ← kget (λ d, FdbUtils.db_name (parent d));
    fdb_info "Error: %s (%s@%s) is initialize fail (%d)."
      [FStr (Some "KVDB"%string); FStr (Some name); FStr path; FInt result].
(** The entries of both caches, emptied in place. *)
Definition clear_sector_entry (c : kvdb_sec_info) : kvdb_sec_info :=
  mk_sec false (sec_store c) (sec_dirty c) FDB_DATA_UNUSED (sec_magic c) (sec_combined c) (sec_remain c) FAILED_ADDR.
(** The search for the oldest sector, before the caches are emptied. *)
Definition find_oldest : M K Z :=
  kset (set_oldest_addr 0);;
  '(_, (oldest, _)) ← sector_iterator stack_sector FDB_SECTOR_STORE_UNUSED (0, FDB_SECTOR_STORE_UNUSED) check_oldest_addr_cb false;
  kset (set_oldest_addr oldest);;
  mret oldest.
Definition fdb_kvdb_init (name path : string) (default_kv : option (list fdb_default_kv_node)) : M K Z :=
  kv_assert (bool_decide ((FDB_STR_KV_VALUE_MAX_SIZE * 8) `mod` Z.of_nat FDB_WRITE_GRAN = 0));;
  db ← kget parent;
  '(result, db) ← on_fal (_fdb_init_ex device_table partition_table_def (λ msg, vprintf msg []) db name path);
  kset (set_parent db);;
  result ←
    (if decide (result ≠ FDB_NO_ERR) then mret result else
     db_lock;;
     kset (set_gc_request false);;
     kset (set_in_recovery false);;
     kset (set_default_kvs (default [] default_kv));;
     oldest ← find_oldest;
     kv_debug 1803 "The oldest addr is @0x%08X" [FInt oldest];;
     d ← kget id;
     kv_assert (bool_decide (FDB_GC_EMPTY_SEC_THRESHOLD < db_max_size d / db_sec_size d));;
     kset (λ d, set_sector_cache (clear_sector_entry <$> sector_cache_table d) d);;
     kset (λ d, set_kv_cache (set_node_addr FDB_DATA_UNUSED <$> kv_cache_table d) d);;
     kv_debug 1819 "KVDB size is %u bytes." [FInt (db_max_size d)];;
     db_unlock;;
     result ← _fdb_kv_load;
     db_lock;;
     db_unlock;;
     mret result);
  _fdb_init_finish result;;
  mret result.
Definition fdb_kvdb_deinit : M K Z :=
  kset (λ d, set_parent (_fdb_deinit (parent d)) d);;
  mret FDB_NO_ERR.

(** ** The iterator and the check *)

Record fdb_kv_iterator : Type := mk_itr {
  curr_kv : fdb_kv; iterated_cnt : Z; iterated_obj_bytes : Z; iterated_value_bytes : Z; itr_sector_addr : Z; traversed_len : Z }.
Definition fdb_kv_iterator_init (itr : fdb_kv_iterator) : M K fdb_kv_iterator :=
  oldest ← kget oldest_addr;
  mret (mk_itr (set_addr_start 0 (curr_kv itr)) 0 0 0 oldest 0).
Definition set_itr_kv (kv : fdb_kv) (i : fdb_kv_iterator) : fdb_kv_iterator :=
  mk_itr kv (iterated_cnt i) (iterated_obj_bytes i) (iterated_value_bytes i) (itr_sector_addr i) (traversed_len i).
Definition set_itr_place (addr len : Z) (i : fdb_kv_iterator) : fdb_kv_iterator :=
  mk_itr (curr_kv i) (iterated_cnt i) (iterated_obj_bytes i) (iterated_value_bytes i) addr len.
Definition count_kv (i : fdb_kv_iterator) : fdb_kv_iterator :=
  mk_itr (curr_kv i) (u32 (iterated_cnt i + 1)) (u32 (iterated_obj_bytes i + kv_len (curr_kv i)))
    (u32 (iterated_value_bytes i + kv_value_len (curr_kv i))) (itr_sector_addr i) (traversed_len i).
(** The inner [do] loop: whether it found a KV. *)
Fixpoint iterate_kvs (fuel : nat) (sector : kvdb_sec_info) (itr : fdb_kv_iterator) : M K (bool * fdb_kv_iterator) :=
  match fuel with
  | O => mfail Diverged
  | Datatypes.S fuel =>
      '(_, kv) ← read_kv (curr_kv itr);
      let itr := set_itr_kv kv itr in
      if decide (kv_status kv = FDB_KV_WRITE ∧ crc_is_ok kv = true) then mret (true, count_kv itr) else
      next ← get_next_kv_addr sector kv;
      let itr := set_itr_kv (set_addr_start next kv) itr in
      if decide (next ≠ FAILED_ADDR) then iterate_kvs fuel sector itr else mret (false, itr)
  end.
Fixpoint iterate_sectors (fuel : nat) (sector : kvdb_sec_info) (itr : fdb_kv_iterator) : M K (bool * fdb_kv_iterator) :=
  match fuel with
  | O => mfail Diverged
  | Datatypes.S fuel =>
      d ← kget id;
      let leave sector itr :=
        let itr := set_itr_kv (set_addr_start 0 (curr_kv itr)) itr in
        let traversed := u32 (traversed_len itr + db_sec_size d) in
        let next := get_next_sector_addr d sector traversed in
        let itr := set_itr_place next traversed itr in
        if decide (next ≠ FAILED_ADDR) then iterate_sectors fuel sector itr else mret (false, itr) in
      '(res, sector) ← read_sector_info (itr_sector_addr itr) sector false;
      if decide (res = FDB_NO_ERR ∧ (sec_store sector = FDB_SECTOR_STORE_USING ∨ sec_store sector = FDB_SECTOR_STORE_FULL)) then
        start ← (if decide (addr_start (curr_kv itr) = 0) then mret (u32 (sec_addr sector + SECTOR_HDR_DATA_SIZE))
                 else get_next_kv_addr sector (curr_kv itr));
        if decide (addr_start (curr_kv itr) ≠ 0 ∧ start = FAILED_ADDR) then leave sector itr else
        '(found, itr) ← iterate_kvs (Z.to_nat (db_sec_size d) + 2) sector (set_itr_kv (set_addr_start start (curr_kv itr)) itr);
        if (found : bool) then mret (true, itr) else leave sector itr
      else leave sector itr
  end.
Definition fdb_kv_iterate (itr : fdb_kv_iterator) : M K (bool * fdb_kv_iterator) :=
  d ← kget id;
  iterate_sectors (sector_fuel d) stack_sector itr.

(** The loop over the KVs of a sector, which an error ends. *)
Fixpoint check_kvs (fuel : nat) (sector : kvdb_sec_info) (kv : fdb_kv) : M K (Z * fdb_kv) :=
  match fuel with
  | O => mfail Diverged
  | Datatypes.S fuel =>
      '(result, kv) ← read_kv kv;
      next ← get_next_kv_addr sector kv;
      let kv := set_addr_start next kv in
      if decide (next ≠ FAILED_ADDR ∧ result = FDB_NO_ERR) then check_kvs fuel sector kv else mret (result, kv)
  end.
Fixpoint check_sectors (fuel : nat) (addr traversed_len : Z) (sector : kvdb_sec_info) (kv : fdb_kv) : M K Z :=
  match fuel with
  | O => mfail Diverged
  | Datatypes.S fuel =>
      d ← kget id;
      let traversed_len := u32 (traversed_len + db_sec_size d) in
      '(result, sector) ← read_sector_info addr sector false;
      '(result, kv) ←
        (if decide (result = FDB_NO_ERR ∧ (sec_store sector = FDB_SECTOR_STORE_USING ∨ sec_store sector = FDB_SECTOR_STORE_FULL)) then
           check_kvs (Z.to_nat (db_sec_size d) + 2) sector
             (set_addr_start (u32 (sec_addr sector + SECTOR_HDR_DATA_SIZE)) kv)
         else mret (result, kv));
      let next := get_next_sector_addr d sector traversed_len in
      if decide (next ≠ FAILED_ADDR ∧ result = FDB_NO_ERR) then check_sectors fuel next traversed_len sector kv else mret result
  end.
Definition fdb_kvdb_check : M K Z :=
  when_init FDB_INIT_FAILED
    (d ← kget id; check_sectors (sector_fuel d) (oldest_addr d) 0 stack_sector stack_kv).

(** ** The port *)

Section Port.
Context (w25q_start chMtxObjectInit : M (fal_state S) unit) (fdb_lock fdb_unlock : M (fal_state S) unit)
  (console : string → list farg → M (fal_state S) unit) (stack_blob : fdb_blob).

Definition default_kv_table : list fdb_default_kv_node :=
  [mk_default [100; 101; 118; 105; 99; 101; 95; 110; 97; 109; 101]
     [100; 115; 45; 101; 116; 104; 45; 99; 111; 109; 109; 0] 0].
(** [w25q_start] is [w25q_init]; its result is not looked at. *)
Definition flashdb_init : M K Z :=
  on_fal chMtxObjectInit;;
  on_fal w25q_start;;
  fdb_kvdb_control (FDB_KVDB_CTRL_SET_LOCK (Some fdb_lock));;
  fdb_kvdb_control (FDB_KVDB_CTRL_SET_UNLOCK (Some fdb_unlock));;
  result ← fdb_kvdb_init "w25q64" "kvdb1" (Some default_kv_table);
  if decide (result ≠ FDB_NO_ERR) then
    on_fal (console "KVDB init failed! Error code: %d" [FInt result]);; mret (-1)
  else
    on_fal (console "KVDB init success! Error code: %d" [FInt result]);; mret 0.
(** [stack_blob] is what the uninitialised local holds. *)
Definition flashdb_get_kv_value (key : list Z) (value : option (list Z)) (value_size : Z) : M K (Z * option (list Z)) :=
  '(_, blob, value) ← fdb_kv_get_blob key (fdb_blob_make stack_blob value_size) value;
  mret (if decide (saved_len blob > 0) then 0 else 1, value).
Definition flashdb_set_kv_value (key : list Z) (value : option (list Z)) (value_size : Z) : M K Z :=
  let blob := fdb_blob_make stack_blob value_size in
  fdb_kv_set_blob key blob value;;
  mret (if decide (saved_len blob > 0) then 0 else 1).
Definition flashdb_del_kv_value (key : list Z) : M K Z :=
  result ← fdb_kv_del key;
  mret (if decide (result = FDB_NO_ERR) then 0 else 1).
End Port.
End Api.
