(* ===== verification/KvFlash.v ===== *)
(** * What FlashDB's key-value store needs of its flash

    [PartFlash] states what a partition promises to the store: bytes that reading gives, that programming only
    clears and that erasing sets.  A flash that loses its power programs the bytes its [budget]
    allows and no more; reads of more than [cap] bytes may store nothing, as through the
    program's port.  The accesses of the store follow from these laws, and the flash abstraction
    layer over a device in memory has them. *)
From S2P Require Import Prelude W25qxx W25qxxProps Fal FdbUtils FdbProps KvData KvRead.

(** Programming [data] from address [a] on. *)
Definition programmed (a : Z) (data : list Z) (m : Z → Z) : Z → Z := λ x,
  if decide (a <= x < a + Z.of_nat (length data)) then Z.land (m x) (data !!! Z.to_nat (x - a)) else m x.
Definition erased (a n : Z) (m : Z → Z) : Z → Z := λ x, if decide (a <= x < a + n) then 0xFF else m x.

Class PartFlash {S : Type} (device_table : list (fal_flash_dev S)) (vprintf : string → list farg → M S unit)
    (p : nat) (size cap blk : Z) (good : fal_state S → Prop) (cell : fal_state S → Z → Z)
    (budget : fal_state S → nat) (erases : fal_state S → bool) : Prop := {
  part_size : 0 < blk ∧ 0 < size <= 2 ^ 31;
  part_cap : 32 <= cap;
  part_byte : ∀ f a, is_u8 (cell f a);
  part_print : ∀ fmt args f, good f → wp (on_flash (vprintf fmt args)) f (λ _ f',
    good f' ∧ (∀ x, cell f' x = cell f x) ∧ budget f' = budget f ∧ erases f' = erases f);
  part_named : ∀ f, good f → wp (part_at p) f (λ _ f', f' = f);
  part_read : ∀ f a n, good f → 0 <= a → 0 < n → a + n <= size →
    wp (fal_partition_read device_table (λ msg, vprintf msg []) p a n) f (λ r f',
      0 <= r.1 ∧ r.2 = (if decide (n <= cap) then cell f <$> seqZ a n else []) ∧
      good f' ∧ (∀ x, cell f' x = cell f x) ∧ budget f' = budget f ∧ erases f' = erases f);
  part_write : ∀ f a data n, good f → 0 <= a → 0 < n → a + n <= size → n <= Z.of_nat (length data) →
    wp (fal_partition_write device_table (λ msg, vprintf msg []) p a data n) f (λ r f',
      0 <= r ∧ good f' ∧ (∀ x, cell f' x = programmed a (take (budget f) (take (Z.to_nat n) data)) (cell f) x) ∧
      budget f' = (budget f - Z.to_nat n)%nat ∧ erases f' = erases f);
  part_erase : ∀ f a n, good f → 0 <= a → 0 <= n → a `mod` blk = 0 → n `mod` blk = 0 → a + n <= size →
    wp (fal_partition_erase device_table (λ msg, vprintf msg []) p a n) f (λ r f',
      0 <= r ∧ good f' ∧ (∀ x, cell f' x = if erases f then erased a n (cell f) x else cell f x) ∧
      budget f' = budget f ∧ erases f' = erases f) }.

Section Accesses.
Context {S : Type} (device_table : list (fal_flash_dev S)) (vprintf : string → list farg → M S unit) (file_name : string)
  (p : nat) (size cap blk : Z) (good : fal_state S → Prop) (cell : fal_state S → Z → Z)
  (budget : fal_state S → nat) (erases : fal_state S → bool)
  `{HP : !PartFlash device_table vprintf p size cap blk good cell budget erases} (ssz : Z).
#[local] Abbreviation K := (kv_state S).

(** A database on the partition, in sectors of [ssz] bytes, whose flash has the bytes [m] and
    the budget [k]. *)
Definition on_part (s : K) : Prop :=
  db_part (parent (kv_db s)) = Some p ∧ file_mode (parent (kv_db s)) = false ∧
  sec_size (parent (kv_db s)) = ssz ∧ max_size (parent (kv_db s)) = size.
Definition flash_is (m : Z → Z) (k : nat) (s : K) : Prop :=
  on_part s ∧ good (kv_fal s) ∧ (∀ a, cell (kv_fal s) a = m a) ∧ budget (kv_fal s) = k.

Lemma flash_is_ext m m' k s : flash_is m k s → (∀ a, m a = m' a) → flash_is m' k s.
Proof. intros (H1&H2&H3&H4) He. split_and!; try done. intros a. by rewrite H3. Qed.
Lemma flash_is_db m k s d :
  flash_is m k s → parent d = parent (kv_db s) → flash_is m k (mk_ks d (kv_fal s) (log_is_show s)).
Proof. intros (Hp&Hg&Hm&Hk) E. unfold flash_is, on_part. simpl. by rewrite E. Qed.
Lemma flash_byte m k s a : flash_is m k s → is_u8 (m a).
Proof. intros (_&_&Hm&_). rewrite <-Hm. apply part_byte. Qed.

Lemma wp_on_fal {A} (m : M (fal_state S) A) (s : K) (Q : A → K → Prop) :
  wp m (kv_fal s) (λ a f, Q a (mk_ks (kv_db s) f (log_is_show s))) → wp (on_fal m) s Q.
Proof. unfold wp, on_fal. by destruct (m (kv_fal s)). Qed.

(** The state after a step that leaves the database as it is. *)
Definition moved (s s' : K) : Prop := kv_db s' = kv_db s ∧ log_is_show s' = log_is_show s ∧ erases (kv_fal s') = erases (kv_fal s).
Lemma moved_refl s : moved s s.
Proof. done. Qed.
Lemma moved_trans s1 s2 s3 : moved s1 s2 → moved s2 s3 → moved s1 s3.
Proof. intros (H1&H2&H3) (H4&H5&H6). split_and!; congruence. Qed.

Lemma print_runs m k fmt args s (Q : unit → K → Prop) :
  flash_is m k s → (∀ s', moved s s' → flash_is m k s' → Q tt s') → wp (FDB_PRINT vprintf fmt args) s Q.
Proof.
  intros (Hp&Hg&Hm&Hk) HQ. apply wp_on_fal. eapply wp_mono; [by apply part_print|].
  intros [] f (Hg'&Hm'&Hk'&He). apply HQ; [done|]. split_and!; try done; simpl; [|congruence]. intros a. by rewrite Hm'.
Qed.
Lemma prefix_runs m k s (Q : unit → K → Prop) :
  flash_is m k s → (∀ s', moved s s' → flash_is m k s' → Q tt s') → wp (log_prefix vprintf) s Q.
Proof.
  intros Hs HQ. unfold log_prefix. apply wp_bind. eapply print_runs; [done|]. intros s1 M1 H1. apply wp_bind.
  pose proof H1 as ((Hpart&Hfile&_)&Hg&_). unfold _fdb_db_path. apply wp_bind, wp_gets. rewrite Hfile.
  apply wp_bind. eapply wp_lift; [done|]. apply wp_bind, wp_on_fal. eapply wp_mono; [by apply part_named|].
  intros pt f ->. apply wp_ret. apply wp_bind, wp_gets. destruct s1 as [d1 f1 l1].
  eapply print_runs; [exact H1|]. intros s2 M2 H2. apply HQ; [by eapply moved_trans|done].
Qed.
Lemma info_runs m k fmt args s (Q : unit → K → Prop) :
  flash_is m k s → (∀ s', moved s s' → flash_is m k s' → Q tt s') → wp (kv_info vprintf fmt args) s Q.
Proof.
  intros Hs HQ. unfold kv_info. apply wp_bind. eapply prefix_runs; [done|]. intros s1 M1 H1.
  eapply print_runs; [done|]. intros s2 M2 H2. apply HQ; [by eapply moved_trans|done].
Qed.
Lemma kv_debug_runs m k line fmt args s (Q : unit → K → Prop) :
  flash_is m k s → (∀ s', moved s s' → flash_is m k s' → Q tt s') → wp (kv_debug vprintf file_name line fmt args) s Q.
Proof.
  intros Hs HQ. unfold kv_debug. apply wp_bind. eapply prefix_runs; [done|]. intros s1 M1 H1. apply wp_bind.
  eapply print_runs; [done|]. intros s2 M2 H2. eapply print_runs; [done|]. intros s3 M3 H3.
  apply HQ; [by eapply moved_trans, moved_trans|done].
Qed.

(** The accesses of FlashDB's low level, and those of the store through them. *)
Lemma low_read m k a n s (Q : Z * list Z → fal_state S → Prop) :
  flash_is m k s → 0 <= a → 0 < n → a + n <= size →
  (∀ f, let s' := mk_ks (kv_db s) f (log_is_show s) in moved s s' → flash_is m k s' →
     Q (FDB_NO_ERR, if decide (n <= cap) then m <$> seqZ a n else []) f) →
  wp (_fdb_flash_read device_table (λ msg, vprintf msg []) (parent (kv_db s)) a n) (kv_fal s) Q.
Proof.
  intros (Hp&Hg&Hm&Hk) Ha Hn Hb HQ. pose proof Hp as (Hpart&Hfile&_).
  unfold _fdb_flash_read. rewrite Hfile. apply wp_bind. eapply wp_lift; [done|].
  apply wp_bind. eapply wp_mono; [by apply part_read|]. intros [r out] f (Hr & Hout & Hg' & Hm' & Hk' & He). cbn [fst snd] in *.
  apply wp_ret. rewrite decide_False by lia. rewrite Hout.
  assert ((if decide (n <= cap) then cell (kv_fal s) <$> seqZ a n else []) = if decide (n <= cap) then m <$> seqZ a n else []) as ->.
  { case_decide; [|done]. by apply list_fmap_ext. }
  apply HQ; [done|]. split_and!; try done; simpl; [|congruence]. intros x. by rewrite Hm'.
Qed.
Lemma low_write m k a data n s (Q : Z → fal_state S → Prop) :
  flash_is m k s → 0 <= a → 0 < n → a + n <= size → n <= Z.of_nat (length data) →
  (∀ f, let s' := mk_ks (kv_db s) f (log_is_show s) in moved s s' →
     flash_is (programmed a (take k (take (Z.to_nat n) data)) m) (k - Z.to_nat n) s' → Q FDB_NO_ERR f) →
  wp (_fdb_flash_write device_table (λ msg, vprintf msg []) (parent (kv_db s)) a data n) (kv_fal s) Q.
Proof.
  intros (Hp&Hg&Hm&Hk) Ha Hn Hb Hd HQ. pose proof Hp as (Hpart&Hfile&_).
  unfold _fdb_flash_write. rewrite Hfile. apply wp_bind. eapply wp_lift; [done|].
  apply wp_bind. eapply wp_mono; [by apply part_write|]. intros r f (Hr & Hg' & Hm' & Hk' & He).
  apply wp_ret. rewrite decide_False by lia.
  apply HQ; [done|]. split_and!; try done; simpl; [|congruence]. intros x. rewrite Hm', Hk. unfold programmed. by rewrite !Hm.
Qed.
Lemma kv_read_runs m k a n s (Q : Z * list Z → K → Prop) :
  flash_is m k s → 0 <= a → 0 < n → a + n <= size →
  (∀ s', moved s s' → flash_is m k s' → Q (FDB_NO_ERR, if decide (n <= cap) then m <$> seqZ a n else []) s') →
  wp (flash_read device_table vprintf a n) s Q.
Proof. intros Hs Ha Hn Hb HQ. apply wp_bind, wp_gets, wp_on_fal. eapply low_read; try done. intros f. apply HQ. Qed.
Lemma kv_write_runs m k a data n s (Q : Z → K → Prop) :
  flash_is m k s → 0 <= a → 0 < n → a + n <= size → n <= Z.of_nat (length data) →
  (∀ s', moved s s' → flash_is (programmed a (take k (take (Z.to_nat n) data)) m) (k - Z.to_nat n) s' → Q FDB_NO_ERR s') →
  wp (flash_write device_table vprintf a data n) s Q.
Proof. intros Hs Ha Hn Hb Hd HQ. apply wp_bind, wp_gets, wp_on_fal. eapply low_write; try done. intros f. apply HQ. Qed.
Lemma kv_erase_runs m k a n s (Q : Z → K → Prop) :
  flash_is m k s → 0 <= a → 0 <= n → a `mod` blk = 0 → n `mod` blk = 0 → a + n <= size →
  (∀ s', moved s s' → flash_is (if erases (kv_fal s) then erased a n m else m) k s' → Q FDB_NO_ERR s') →
  wp (flash_erase device_table vprintf a n) s Q.
Proof.
  intros (Hp&Hg&Hm&Hk) Ha Hn Hab Hnb Hb HQ. pose proof Hp as (Hpart&Hfile&_). unfold flash_erase.
  apply wp_bind, wp_gets, wp_on_fal. unfold _fdb_flash_erase. rewrite Hfile. apply wp_bind. eapply wp_lift; [done|].
  apply wp_bind. eapply wp_mono; [by apply part_erase|]. intros r f (Hr & Hg' & Hm' & Hk' & He).
  apply wp_ret. rewrite decide_False by lia.
  apply HQ; [done|]. split_and!; try done; simpl; [|congruence]. intros x. rewrite Hm'. unfold erased. by destruct (erases (kv_fal s)); rewrite Hm.
Qed.

(** ** Status tables of one byte *)

(** The table of state [idx]; the tables of this store have one byte. *)
Definition status_byte (idx : nat) : Z := if decide (0 < idx)%nat then Z.shiftr 0xff (Z.of_nat idx) else 0xff.

Lemma set_status_byte num idx b :
  (idx < num ≤ 8)%nat →
  _fdb_set_status [b] num idx = Some (if decide (0 < idx)%nat then Some 0%nat else None, [status_byte idx]).
Proof.
  intros Hi. assert (FDB_STATUS_TABLE_SIZE num = 1%nat) as Hsz.
  { unfold FDB_STATUS_TABLE_SIZE, FDB_WRITE_GRAN. rewrite Nat.mul_1_r. symmetry. apply (Nat.div_unique _ _ _ (num - 1)); lia. }
  rewrite set_status_table by (rewrite ?Hsz; simpl; lia). unfold status_table, status_byte. rewrite Hsz. cbn [replicate drop app].
  destruct (decide (0 < idx)%nat) as [H0|]; [|done]. rewrite (Nat.div_small (idx - 1) 8), (Nat.mod_small idx 8) by lia. done.
Qed.
Lemma get_status_byte num idx :
  (idx < num ≤ 8)%nat → _fdb_get_status [status_byte idx] num = Some idx.
Proof.
  intros Hi. do 9 (destruct num as [|num]; [do 9 (destruct idx as [|idx]; [first [lia | by vm_compute]|]); lia|]). lia.
Qed.
(** Programming the byte of a later state gives that state. *)
Lemma status_byte_land i j : (i ≤ j ≤ 8)%nat → Z.land (status_byte i) (status_byte j) = status_byte j.
Proof.
  intros H. do 9 (destruct j as [|j]; [do 9 (destruct i as [|i]; [first [lia | by vm_compute]|]); lia|]). lia.
Qed.

Lemma low_status m k a b num idx s (Q : Z * list Z → fal_state S → Prop) :
  flash_is m k s → 0 <= a → a + 1 <= size → (0 < idx < num)%nat → (num ≤ 8)%nat →
  (∀ f, let s' := mk_ks (kv_db s) f (log_is_show s) in moved s s' →
     flash_is (programmed a (take k [status_byte idx]) m) (k - 1) s' → Q (FDB_NO_ERR, [status_byte idx]) f) →
  wp (_fdb_write_status device_table (λ msg, vprintf msg []) (parent (kv_db s)) a [b] num idx) (kv_fal s) Q.
Proof.
  intros Hs Ha Hb Hi Hn HQ. pose proof Hs as ((Hpart&Hfile&_)&_). destruct part_size as [_ Hsz].
  unfold _fdb_write_status, FDB_ASSERT. rewrite bool_decide_eq_true_2 by lia. apply wp_bind, wp_ret.
  rewrite set_status_byte by lia. rewrite decide_True by lia. apply wp_bind. eapply wp_lift; [done|]. cbv beta iota.
  rewrite Z.add_0_r, u32_id by (unfold is_u32; lia). cbn [drop].
  apply wp_bind. eapply low_write; [done|lia..|simpl; lia|]. intros f s' Hmv Hs'. apply wp_ret. by apply HQ.
Qed.
Lemma write_status_runs m k a b num idx s (Q : Z * list Z → K → Prop) :
  flash_is m k s → 0 <= a → a + 1 <= size → (0 < idx < num)%nat → (num ≤ 8)%nat →
  (∀ s', moved s s' → flash_is (programmed a (take k [status_byte idx]) m) (k - 1) s' → Q (FDB_NO_ERR, [status_byte idx]) s') →
  wp (write_status device_table vprintf a [b] num idx) s Q.
Proof.
  intros Hs Ha Hb Hi Hn HQ. apply wp_bind, wp_gets, wp_on_fal. eapply low_status; try done. intros f. apply HQ.
Qed.
Lemma read_status_runs m k a b num idx s (Q : nat * list Z → K → Prop) :
  flash_is m k s → 0 <= a → a + 1 <= size → (0 < num ≤ 8)%nat → _fdb_get_status [m a] num = Some idx →
  (∀ s', moved s s' → flash_is m k s' → Q (idx, [m a]) s') →
  wp (read_status device_table vprintf a [b] num) s Q.
Proof.
  intros Hs Ha Hb Hi Hget HQ. pose proof part_cap as Hcap.
  assert (FDB_STATUS_TABLE_SIZE num = 1%nat) as Hsz.
  { unfold FDB_STATUS_TABLE_SIZE, FDB_WRITE_GRAN. rewrite Nat.mul_1_r. symmetry. apply (Nat.div_unique _ _ _ (num - 1)); lia. }
  apply wp_bind, wp_gets, wp_on_fal. unfold _fdb_read_status. rewrite Hsz.
  apply wp_bind. eapply low_read; [done|lia..|]. intros f s' Hmv Hs'. rewrite decide_True by lia.
  cbn [Z.of_nat Pos.of_succ_nat seqZ fmap list_fmap write_at app take length drop Nat.add].
  apply wp_bind. eapply wp_lift; [exact Hget|]. apply wp_ret. by apply (HQ s').
Qed.
End Accesses.
Arguments kv_read_runs {S device_table vprintf p size cap blk good cell budget erases HP ssz}.
Arguments kv_write_runs {S device_table vprintf p size cap blk good cell budget erases HP ssz}.
Arguments kv_erase_runs {S device_table vprintf p size cap blk good cell budget erases HP ssz}.
Arguments print_runs {S device_table vprintf p size cap blk good cell budget erases HP ssz}.
Arguments prefix_runs {S device_table vprintf p size cap blk good cell budget erases HP ssz}.
Arguments info_runs {S device_table vprintf p size cap blk good cell budget erases HP ssz}.
Arguments kv_debug_runs {S device_table vprintf file_name p size cap blk good cell budget erases HP ssz}.
Arguments write_status_runs {S device_table vprintf p size cap blk good cell budget erases HP ssz}.
Arguments read_status_runs {S device_table vprintf p size cap blk good cell budget erases HP ssz}.
Arguments low_read {S device_table vprintf p size cap blk good cell budget erases HP ssz}.
Arguments low_status {S device_table vprintf p size cap blk good cell budget erases HP ssz}.
Arguments low_write {S device_table vprintf p size cap blk good cell budget erases HP ssz}.
Arguments flash_byte {S device_table vprintf p size cap blk good cell budget erases HP ssz}.

(** ** A flash in memory

    A device of [ram_size] bytes with a budget, and the flash abstraction layer after its start: an
    instance of [PartFlash]. *)

Record ram : Type := mk_ram { ram_byte : Z → Z; ram_budget : nat }.
Definition ram_size : Z := 4096.
Definition ram_blk : Z := 256.
Definition ram_read (addr n : Z) : M ram (Z * list Z) := r ← mget; mret (0, (λ a, u8 (ram_byte r a)) <$> seqZ addr n).
Definition ram_write (addr : Z) (data : list Z) (n : Z) : M ram Z :=
  r ← mget;
  mput (mk_ram (programmed addr (take (ram_budget r) (take (Z.to_nat n) data)) (λ a, u8 (ram_byte r a)))
          (ram_budget r - Z.to_nat n));;
  mret 0.
Definition ram_erase (addr n : Z) : M ram Z :=
  mmodify (λ r, mk_ram (erased addr n (λ a, u8 (ram_byte r a))) (ram_budget r));;
  mret 0.
Definition ram_devices : list (fal_flash_dev ram) := [mk_dev "ram" 0 ram_size ram_blk None ram_read ram_write ram_erase 1].
Definition ram_parts : list fal_partition := [mk_part FAL_PART_MAGIC_WORD "kvdb1" "ram" 0 ram_size 0].
Definition ram_print : string → list farg → M ram unit := λ _ _, mret tt.
Definition ram_good (f : fal_state ram) : Prop := partition_table f = Some ram_parts ∧ part_flash_cache f = [Some 0%nat].
Definition ram_cell (f : fal_state ram) (a : Z) : Z := u8 (ram_byte (platform f) a).
Definition ram_power (f : fal_state ram) : nat := ram_budget (platform f).
Definition ram_fal (r : ram) : fal_state ram := mk_fal 1 1 1 (Some ram_parts) 1 [Some 0%nat] r.

Lemma u8_programmed a data m x : (∀ x, is_u8 (m x)) → u8 (programmed a data m x) = programmed a data m x.
Proof.
  intros Hm. unfold programmed. case_decide; apply u8_id; [|done].
  specialize (Hm x). generalize dependent (m x). intros b Hb. generalize (data !!! Z.to_nat (x - a)). intros d.
  assert (Z.land b d = u8 (Z.land b d)) as ->; [|apply u8_range].
  unfold u8. change 256 with (2 ^ 8). rewrite <-Z.land_ones by done. rewrite (Z.land_comm b), <-Z.land_assoc.
  f_equal. rewrite Z.land_ones by done. symmetry. by apply Z.mod_small.
Qed.
Lemma ram_access {A} m1 m2 m3 (none : A) a n f (op : fal_flash_dev ram → Z → M ram (Z * A)) (Q : Z * A → fal_state ram → Prop) :
  ram_good f → 0 <= a → 0 <= n → a + n <= ram_size →
  (∀ dev, ram_devices !! 0%nat = Some dev → wp (op dev a) (platform f) (λ r p, 0 <= r.1 ∧
     Q r (mk_fal (fal_init_ok f) (flash_init_ok f) (part_init_ok f) (partition_table f) (partition_table_len f) (part_flash_cache f) p))) →
  wp (fal_access ram_devices (λ msg, ram_print msg []) m1 m2 m3 none 0 a n op) f Q.
Proof.
  intros [Ht Hc] Ha Hn Hb HQ. unfold ram_size in Hb. unfold fal_access, part_at. apply wp_bind, wp_bind, wp_gets. rewrite Ht.
  apply wp_bind. eapply wp_lift; [done|]. eapply wp_lift; [done|]. cbn [part_len offset].
  rewrite u32_id by (unfold is_u32; lia). change ram_size with 4096. rewrite decide_False by lia.
  apply wp_bind. unfold flash_device_find_by_part. apply wp_bind, wp_gets. rewrite Hc. eapply wp_lift; [done|].
  apply wp_bind. eapply wp_lift; [done|]. rewrite Z.add_0_l.
  assert (to_long a = a) as -> by (unfold to_long; rewrite u32_id by (unfold is_u32; lia); by rewrite decide_True by lia).
  apply wp_bind. specialize (HQ _ eq_refl). unfold wp, on_flash in *. destruct (op _ a (platform f)) as [[r o] p|]; [|done].
  destruct HQ as [Hr HQ]. cbn [fst] in Hr. rewrite decide_False by lia. done.
Qed.
#[export] Instance ram_flash : PartFlash ram_devices ram_print 0 ram_size ram_size ram_blk ram_good ram_cell ram_power (λ _, true).
Proof.
  split.
  - done.
  - done.
  - intros f a. apply u8_range.
  - intros fmt args f Hg. by destruct f.
  - intros f [Ht _]. unfold part_at. apply wp_bind, wp_gets. rewrite Ht. apply wp_bind. eapply wp_lift; [done|]. by eapply wp_lift.
  - intros f a n Hg Ha Hn Hb. unfold fal_partition_read. eapply ram_access; [done|lia..|]. intros dev [= <-].
    cbn [ops_read]. apply wp_bind, wp_get, wp_ret. split; [done|]. rewrite decide_True by lia. by split_and!; try apply Hg.
  - intros f a data n Hg Ha Hn Hb Hd. unfold fal_partition_write. apply wp_bind. eapply ram_access; [done|lia..|]. intros dev [= <-].
    cbn [ops_write]. unfold without. apply wp_bind. unfold ram_write. apply wp_bind, wp_get, wp_bind, wp_put, wp_ret, wp_ret.
    split; [done|]. apply wp_ret. split_and!; try done; try apply Hg.
    intros x. unfold ram_cell at 1. cbn [platform ram_byte]. rewrite u8_programmed by (intros; apply u8_range). done.
  - intros f a n Hg Ha Hn Hab Hnb Hb. unfold fal_partition_erase. apply wp_bind. eapply ram_access; [done|lia..|]. intros dev [= <-].
    cbn [ops_erase]. unfold without. apply wp_bind. unfold ram_erase. apply wp_bind, wp_modify, wp_ret, wp_ret.
    split; [done|]. apply wp_ret. split_and!; try done; try apply Hg.
    intros x. unfold ram_cell, erased. cbn [platform ram_byte]. case_decide; [done|]. apply u8_id, u8_range.
Qed.
