(* ===== verification/KvNode.v ===== *)
(** * A KV in the flash

    The bytes of a KV, and that reading them back gives what was written: the header's encoding, the
    checksum over the pieces the code reads, the name and the place of the value. *)
From S2P Require Import Prelude W25qxx W25qxxProps Fal FdbUtils FdbProps KvData KvRead KvWrite KvFlash.

(** ** Numbers and sizes *)

Lemma le_value_bytes n z : 0 <= z < 256 ^ Z.of_nat n → le_int (le_bytes n z) = z.
Proof.
  revert z. induction n as [|n IH]; intros z Hz; [change (256 ^ Z.of_nat 0) with 1 in Hz; simpl; lia|].
  rewrite Nat2Z.inj_succ, Z.pow_succ_r in Hz by lia. cbn [le_bytes le_int foldr]. fold (le_int (le_bytes n (Z.shiftr z 8))).
  rewrite Z.shiftr_div_pow2 by lia. change (2 ^ 8) with 256.
  assert (0 <= z / 256 < 256 ^ Z.of_nat n) by (split; [apply Z.div_pos; lia|apply Z.div_lt_upper_bound; lia]).
  rewrite IH by done. unfold u8. pose proof (Z.div_mod z 256). lia.
Qed.
Lemma le_bytes_length n z : length (le_bytes n z) = n.
Proof. revert z. induction n as [|n IH]; intros z; simpl; [done|]. by rewrite IH. Qed.
Lemma le_bytes_u8 n z : Forall is_u8 (le_bytes n z).
Proof. revert z. induction n as [|n IH]; intros z; simpl; constructor; [apply u8_range|apply IH]. Qed.

Lemma wg_align z : is_u32 z → FDB_WG_ALIGN z = z.
Proof.
  intros Hz. unfold FDB_WG_ALIGN, FDB_ALIGN. change ((Z.of_nat FDB_WRITE_GRAN + 7) / 8) with 1.
  rewrite Z.add_simpl_r, Z.mod_1_r, Z.sub_0_r. by rewrite (u32_id z), u32_id.
Qed.
Lemma wg_align_down z : FDB_WG_ALIGN_DOWN z = z.
Proof. unfold FDB_WG_ALIGN_DOWN, FDB_ALIGN_DOWN. change ((Z.of_nat FDB_WRITE_GRAN + 7) / 8) with 1. by rewrite Z.div_1_r, Z.mul_1_r. Qed.
Lemma kv_hdr_size : KV_HDR_DATA_SIZE = 24.
Proof. done. Qed.
Lemma sector_hdr_size : SECTOR_HDR_DATA_SIZE = 16.
Proof. done. Qed.

Lemma crc_reference_app c a b : crc_reference (crc_reference c a) b = crc_reference c (a ++ b).
Proof. unfold crc_reference. by rewrite Z.lxor_assoc, Z.lxor_nilpotent, Z.lxor_0_r, fold_left_app. Qed.
Lemma calc_crc_some c a : Forall is_u8 a → fdb_calc_crc32 c a = Some (crc_reference c a).
Proof. intros Ha. unfold fdb_calc_crc32, crc_reference. by rewrite crc32_loop_bytes. Qed.
Lemma calc_crc_nil c : is_u32 c → fdb_calc_crc32 c [] = Some c.
Proof. intros Hc. unfold fdb_calc_crc32. cbn. by rewrite Z.lxor_assoc, Z.lxor_nilpotent, Z.lxor_0_r. Qed.

(** A checksum has 32 bits. *)
Lemma lxor_u32 a b : is_u32 a → is_u32 b → is_u32 (Z.lxor a b).
Proof.
  intros Ha Hb. unfold is_u32 in *. split; [apply Z.lxor_nonneg; lia|].
  destruct (Z.eq_dec (Z.lxor a b) 0) as [->|Hne]; [lia|]. change 4294967296 with (2 ^ 32).
  apply Z.log2_lt_pow2; [pose proof (proj2 (Z.lxor_nonneg a b) ltac:(lia)); lia|].
  eapply Z.le_lt_trans; [apply Z.log2_lxor; lia|]. apply Z.max_lub_lt.
  - destruct (Z.eq_dec a 0) as [->|]; [done|]. apply Z.log2_lt_pow2; lia.
  - destruct (Z.eq_dec b 0) as [->|]; [done|]. apply Z.log2_lt_pow2; lia.
Qed.
Lemma crc_bit_u32 c : is_u32 c → is_u32 (crc_bit c).
Proof.
  intros Hc. unfold crc_bit. apply lxor_u32; [|destruct (Z.odd c); split; lia].
  rewrite Z.shiftr_div_pow2 by lia. unfold is_u32 in *. split; [apply Z.div_pos; lia|]. apply Z.div_lt_upper_bound; lia.
Qed.
Lemma crc_bits_u32 n c : is_u32 c → is_u32 (crc_bits n c).
Proof. intros Hc. induction n as [|n IH]; [done|]. by apply crc_bit_u32. Qed.
Lemma crc_reference_u32 c a : is_u32 c → Forall is_u8 a → is_u32 (crc_reference c a).
Proof.
  intros Hc Ha. unfold crc_reference. apply lxor_u32; [|split; lia].
  assert (is_u32 (Z.lxor c 0xFFFFFFFF)) as H by (apply lxor_u32; [done|split; lia]).
  revert H. generalize (Z.lxor c 0xFFFFFFFF). induction Ha as [|b a Hb _ IH]; intros c' H; [done|]. apply IH.
  apply crc_bits_u32, lxor_u32; [done|]. unfold is_u8, is_u32 in *. lia.
Qed.

(** ** Bytes in the flash *)

Definition mem_at (m : Z → Z) (a : Z) (bs : list Z) : Prop := m <$> seqZ a (Z.of_nat (length bs)) = bs.

Lemma mem_at_lookup m a bs : mem_at m a bs ↔ ∀ i b, bs !! i = Some b → m (a + Z.of_nat i) = b.
Proof.
  unfold mem_at. split.
  - intros E i b Hb. rewrite <-E in Hb. rewrite list_lookup_fmap in Hb.
    rewrite lookup_seqZ_lt in Hb; [by injection Hb|].
    destruct (decide (i < length bs)%nat) as [|Hge]; [lia|]. rewrite lookup_seqZ_ge in Hb by lia. done.
  - intros H. apply list_eq. intros i. rewrite list_lookup_fmap.
    destruct (bs !! i) as [b|] eqn:Hb.
    + pose proof (lookup_lt_Some _ _ _ Hb). rewrite lookup_seqZ_lt by lia. simpl. f_equal. by apply H.
    + apply lookup_ge_None in Hb. by rewrite lookup_seqZ_ge by lia.
Qed.
Lemma mem_at_app m a l1 l2 : mem_at m a (l1 ++ l2) ↔ mem_at m a l1 ∧ mem_at m (a + Z.of_nat (length l1)) l2.
Proof.
  rewrite !mem_at_lookup. split.
  - intros H. split; intros i b Hb.
    + apply H. by apply lookup_app_l_Some.
    + rewrite <-Z.add_assoc, <-Nat2Z.inj_add. apply H. rewrite lookup_app_r by lia. by rewrite Nat.add_sub_swap, Nat.sub_diag by lia.
  - intros [H1 H2] i b [Hb|[Hl Hb]]%lookup_app_Some; [by apply H1|].
    replace (a + Z.of_nat i) with (a + Z.of_nat (length l1) + Z.of_nat (i - length l1)) by lia. by apply H2.
Qed.
(** Reading a part of them. *)
Lemma mem_at_read m a bs o n :
  mem_at m a bs → 0 <= o → 0 <= n → o + n <= Z.of_nat (length bs) →
  m <$> seqZ (a + o) n = take (Z.to_nat n) (drop (Z.to_nat o) bs).
Proof.
  intros H Ho Hn Hb. rewrite mem_at_lookup in H. apply list_eq. intros i. rewrite list_lookup_fmap.
  destruct (decide (i < Z.to_nat n)%nat) as [Hi|Hi].
  - rewrite lookup_seqZ_lt, lookup_take, decide_True, lookup_drop by lia. simpl.
    destruct (lookup_lt_is_Some_2 bs (Z.to_nat o + i) ltac:(lia)) as [b Hbi]. rewrite Hbi. f_equal.
    rewrite <-(H _ _ Hbi). f_equal. lia.
  - rewrite lookup_seqZ_ge by lia. symmetry. apply lookup_ge_None_2. rewrite length_take. lia.
Qed.
Lemma mem_at_here m a bs : mem_at m a bs → m <$> seqZ a (Z.of_nat (length bs)) = bs.
Proof. done. Qed.
Lemma mem_at_ext m m' a bs : (∀ x, a <= x < a + Z.of_nat (length bs) → m x = m' x) → mem_at m a bs → mem_at m' a bs.
Proof.
  rewrite !mem_at_lookup. intros He H i b Hb. pose proof (lookup_lt_Some _ _ _ Hb). rewrite <-He by lia. by apply H.
Qed.

(** ** The bytes of a KV *)

Definition node_len (key value : list Z) : Z := 24 + Z.of_nat (length key) + Z.of_nat (length value).
(** The checksummed words of the header. *)
Definition node_words (key value : list Z) : list Z :=
  [Z.of_nat (length key); 0xFF; 0xFF; 0xFF] ++ le_bytes 4 (Z.of_nat (length value)).
Definition node_crc (key value : list Z) : Z := crc_reference 0 (node_words key value ++ key ++ value).
Definition node_hdr (st : nat) (key value : list Z) : list Z :=
  [status_byte st; 0xFF; 0xFF; 0xFF] ++ le_bytes 4 KV_MAGIC_WORD ++ le_bytes 4 (node_len key value) ++
  le_bytes 4 (node_crc key value) ++ node_words key value.
Definition node_bytes (st : nat) (key value : list Z) : list Z := node_hdr st key value ++ key ++ value.

(** What the store can write: a name of up to 64 bytes, and a value that fits in a sector. *)
Definition storable (key value : list Z) : Prop :=
  Forall is_u8 key ∧ Forall is_u8 value ∧ (0 < length key ≤ 64)%nat ∧ (0 < length value)%nat ∧ node_len key value < 2 ^ 31.

Lemma node_hdr_length st key value : length (node_hdr st key value) = 24%nat.
Proof. unfold node_hdr, node_words. by rewrite !length_app, !le_bytes_length. Qed.
Lemma node_bytes_length st key value : Z.of_nat (length (node_bytes st key value)) = node_len key value.
Proof. unfold node_bytes, node_len. rewrite !length_app, node_hdr_length. lia. Qed.
Lemma node_words_u8 key value : storable key value → Forall is_u8 (node_words key value).
Proof.
  intros (_&_&Hk&_). unfold node_words. apply Forall_app_2; [|apply le_bytes_u8].
  repeat constructor; unfold is_u8; lia.
Qed.
Lemma node_crc_u32 key value : storable key value → is_u32 (node_crc key value).
Proof.
  intros Hs. pose proof Hs as (Hk&Hv&_). unfold node_crc. apply crc_reference_u32; [split; lia|].
  apply Forall_app_2; [by apply node_words_u8|by apply Forall_app_2].
Qed.

(** The fields of a node's header. *)
Lemma node_hdr_fields st key value :
  storable key value →
  kv_hdr_of (node_hdr st key value) =
  mk_kv_hdr [status_byte st] [0xFF; 0xFF; 0xFF] KV_MAGIC_WORD (node_len key value) (node_crc key value)
    (Z.of_nat (length key)) [0xFF; 0xFF; 0xFF] (Z.of_nat (length value)) ∧
  take 4 (drop 16 (node_hdr st key value)) ++ take 4 (drop 20 (node_hdr st key value)) = node_words key value.
Proof.
  intros Hs. pose proof (node_crc_u32 _ _ Hs) as Hc. pose proof Hs as (_&_&Hk&Hv0&Hl).
  unfold node_hdr, node_words, kv_hdr_of, u32_at.
  set (cl := le_bytes 4 (node_crc key value)). set (ll := le_bytes 4 (node_len key value)). set (vl := le_bytes 4 (Z.of_nat (length value))).
  assert (length cl = 4%nat ∧ length ll = 4%nat ∧ length vl = 4%nat) as (Hcl & Hll & Hvl) by (split_and!; apply le_bytes_length).
  assert (le_int cl = node_crc key value) as Ec by (apply le_value_bytes; unfold is_u32 in Hc; lia).
  assert (le_int ll = node_len key value) as El by (apply le_value_bytes; unfold node_len in *; lia).
  assert (le_int vl = Z.of_nat (length value)) as Ev by (apply le_value_bytes; unfold node_len in *; lia).
  rewrite <-Ec, <-El, <-Ev.
  destruct cl as [|c1 [|c2 [|c3 [|c4 [|]]]]]; try done. destruct ll as [|l1 [|l2 [|l3 [|l4 [|]]]]]; try done.
  destruct vl as [|v1 [|v2 [|v3 [|v4 [|]]]]]; try done.
  split; [|done]. cbn -[Z.mul KV_MAGIC_WORD]. f_equal. lia.
Qed.

(** ** Reading a KV *)

Section Node.
Context {S : Type} (device_table : list (fal_flash_dev S)) (vprintf : string → list farg → M S unit) (file_name : string)
  (p : nat) (size cap blk : Z) (good : fal_state S → Prop) (cell : fal_state S → Z → Z)
  (budget : fal_state S → nat) (erases : fal_state S → bool)
  `{HP : !PartFlash device_table vprintf p size cap blk good cell budget erases} (ssz : Z).
#[local] Abbreviation K := (kv_state S).
#[local] Abbreviation flash_is := (flash_is p size good cell budget ssz).
#[local] Abbreviation moved := (moved erases).
#[local] Abbreviation read_kv := (read_kv device_table vprintf).

Lemma write_at_all out buf : write_at 0 out buf = out ++ drop (length out) buf.
Proof. unfold write_at. by rewrite take_0. Qed.
Lemma written_runs n out rest s (Q : list Z → K → Prop) :
  Z.of_nat (length out) = n → Q out s → wp (filled n (out ++ rest)) s Q.
Proof.
  intros Hn HQ. unfold filled. rewrite decide_True by (rewrite length_app; lia).
  rewrite take_app_length' by lia. done.
Qed.
Lemma store_into_runs out array s (Q : list Z → K → Prop) :
  (length out ≤ length array)%nat → Q (out ++ drop (length out) array) s → wp (store_into out array) s Q.
Proof.
  intros Hl HQ. unfold store_into. rewrite memcpy_ok by lia. rewrite take_0, take_ge by done. done.
Qed.

(** The checksum loop over [data] in the flash from byte [len] on. *)
Lemma crc_loop_runs fuel m k a data s crc :
  flash_is m k s → mem_at m (a + 24) data → Forall is_u8 data → 0 <= a → a + 24 + Z.of_nat (length data) <= size →
  ∀ len buf (Q : Z → K → Prop), 0 <= len <= Z.of_nat (length data) → (Z.to_nat ((Z.of_nat (length data) - len + 31) / 32) + 1 ≤ fuel)%nat →
  is_u32 crc →
  (∀ c s', fdb_calc_crc32 crc (drop (Z.to_nat len) data) = Some c → moved s s' → flash_is m k s' → Q c s') →
  wp (kv_crc_loop device_table vprintf fuel a len (Z.of_nat (length data)) buf crc) s Q.
Proof.
  intros Hs Hd Hu Ha Hb. destruct part_size as [_ Hsz]. pose proof part_cap as Hcap.
  revert s crc Hs. induction fuel as [|fuel IH]; intros s crc Hs len buf Q Hl Hf Hc HQ; [lia|]. cbn [kv_crc_loop].
  destruct (decide (len < Z.of_nat (length data))) as [Hlt|Hge].
  - set (n := if decide (len + 32 < Z.of_nat (length data)) then 32 else Z.of_nat (length data) - len).
    assert (0 < n <= 32 ∧ len + n <= Z.of_nat (length data)) as Hn by (unfold n; case_decide; lia).
    rewrite kv_hdr_size, wg_align, u32_id by (unfold is_u32; lia).
    apply wp_bind. eapply kv_read_runs; [done|lia..|]. intros s1 M1 H1. rewrite decide_True by lia.
    rewrite (mem_at_read m (a + 24) data) by (done || lia).
    set (out := take (Z.to_nat n) (drop (Z.to_nat len) data)).
    assert (Z.of_nat (length out) = n) as Hout by (unfold out; rewrite length_take, length_drop; lia).
    rewrite write_at_all. apply wp_bind. apply written_runs; [done|].
    assert (Forall is_u8 out) as Hou by (by apply Forall_take, Forall_drop).
    apply wp_bind. eapply wp_lift; [by apply calc_crc_some|].
    apply IH; [done|lia| |by apply crc_reference_u32|].
    { assert (n = 32 ∧ len + 32 < Z.of_nat (length data) ∨ n = Z.of_nat (length data) - len) as [[-> Hl2]| ->]
        by (unfold n; case_decide; lia).
      - replace (Z.of_nat (length data) - len + 31) with (1 * 32 + (Z.of_nat (length data) - (len + 32) + 31)) in Hf by lia.
        rewrite Z.div_add_l in Hf by done. pose proof (Z.div_pos (Z.of_nat (length data) - (len + 32) + 31) 32). lia.
      - replace (_ - (_ + _) + 31) with 31 by lia. change (31 / 32) with 0.
        pose proof (Z.div_le_lower_bound (Z.of_nat (length data) - len + 31) 32 1). lia. }
    intros c s2 Hcalc M2 H2. apply HQ; [|by eapply moved_trans|done].
    rewrite <-Hcalc. rewrite <-(take_drop (Z.to_nat n) (drop (Z.to_nat len) data)). fold out. rewrite drop_drop.
    rewrite calc_crc_some by (apply Forall_app_2; [done|by apply Forall_drop]).
    rewrite <-crc_reference_app, <-calc_crc_some by (by apply Forall_drop). do 2 f_equal. lia.
  - apply wp_ret. apply HQ; [|done|done]. rewrite drop_ge by lia. by apply calc_crc_nil.
Qed.

(** What reading a KV gives. *)
Definition node_kv (st : nat) (a : Z) (key value name : list Z) : fdb_kv :=
  mk_kv st true (Z.of_nat (length key)) (node_len key value) (Z.of_nat (length value))
    (<[Z.to_nat (Z.min (Z.of_nat (length key)) 63) := 0]> (key ++ drop (length key) name)) a (a + 24 + Z.of_nat (length key)).

Lemma read_kv_runs m k a st key value kv s (Q : Z * fdb_kv → K → Prop) :
  flash_is m k s → mem_at m a (node_bytes st key value) → storable key value → (st < 6)%nat →
  0 <= a → a + node_len key value <= size → Z.of_nat (length key) <= cap → length (kv_name kv) = 64%nat → addr_start kv = a →
  (∀ s', moved s s' → flash_is m k s' → Q (FDB_NO_ERR, node_kv st a key value (kv_name kv)) s') →
  wp (read_kv kv) s Q.
Proof.
  intros Hs Hat Hst Hst6 Ha Hb Hkc Hname Hka HQ. destruct part_size as [_ Hsz]. pose proof part_cap as Hcap.
  pose proof Hst as (Hku & Hvu & Hkl & Hvl & Hl). unfold node_len in Hb, Hl.
  destruct (node_hdr_fields st key value Hst) as [Hof Hwords].
  unfold read_kv. rewrite Hka. apply wp_bind. change (Z.of_nat sizeof_kv_hdr_data) with 24.
  eapply kv_read_runs; [done|unfold node_len in *; lia..|]. intros s1 M1 H1. rewrite decide_True by lia.
  unfold node_bytes in Hat. apply mem_at_app in Hat as [Hh Hkv]. rewrite node_hdr_length in Hkv. change (Z.of_nat 24) with 24 in Hkv.
  pose proof (mem_at_here _ _ _ Hh) as Eh. rewrite node_hdr_length in Eh. change (Z.of_nat 24) with 24 in Eh. rewrite Eh.
  apply wp_bind. rewrite <-(app_nil_r (node_hdr st key value)). apply written_runs; [by rewrite node_hdr_length|].
  rewrite Hof. cbn [hdr_status hdr_len hdr_crc32 hdr_name_len hdr_value_len].
  apply wp_bind. eapply wp_lift; [apply get_status_byte; unfold FDB_KV_STATUS_NUM; lia|].
  apply wp_bind, wp_gets. pose proof H1 as ((_&_&_&Hmax)&_). change (db_max_size (kv_db s1)) with (max_size (parent (kv_db s1))). rewrite Hmax.
  cbn [kv_len set_kv_len set_kv_status]. rewrite kv_hdr_size. rewrite decide_False by (unfold node_len; lia).
  set (w1 := take 4 (drop 16 (node_hdr st key value))) in *. set (w2 := take 4 (drop 20 (node_hdr st key value))) in *.
  assert (Forall is_u8 w1 ∧ Forall is_u8 w2) as [Hw1 Hw2] by (rewrite <-Forall_app, Hwords; by apply node_words_u8).
  apply wp_bind. eapply wp_lift; [by apply calc_crc_some|]. apply wp_bind. eapply wp_lift; [by apply calc_crc_some|].
  apply wp_bind.
  assert (node_len key value - 24 = Z.of_nat (length (key ++ value))) as El by (rewrite length_app; unfold node_len; lia). rewrite El.
  assert (Forall is_u8 (key ++ value)) as Hkvu by (by apply Forall_app_2).
  cbn [addr_start set_kv_len set_kv_status kv_name]. rewrite ?Hka.
  eapply (crc_loop_runs _ m k a (key ++ value)); [done|done|done|done|rewrite length_app; lia|lia| | |].
  { rewrite Z.sub_0_r. replace (_ + 31) with (Z.of_nat (length (key ++ value)) + 31) by lia.
    pose proof (Z.div_le_mono (Z.of_nat (length (key ++ value)) + 31) (1 * 32 + Z.of_nat (length (key ++ value))) 32).
    rewrite Z.div_add_l in H by done. lia. }
  { apply crc_reference_u32; [|done]. apply crc_reference_u32; [split; lia|done]. }
  intros c s2 Hc M2 H2. change (Z.to_nat 0) with 0%nat in Hc. rewrite drop_0 in Hc.
  assert (c = node_crc key value) as ->.
  { rewrite calc_crc_some in Hc by done. injection Hc as <-. unfold node_crc. by rewrite !crc_reference_app, <-Hwords, <-app_assoc. }
  rewrite decide_False by (intros Hne; by apply Hne).
  apply wp_bind. rewrite (u32_id (a + 24)), wg_align by (unfold is_u32; lia).
  eapply kv_read_runs; [done|lia..|]. intros s3 M3 H3. rewrite (decide_True _ _ Hkc).
  apply mem_at_app in Hkv as [Hk _]. rewrite (mem_at_here _ _ _ Hk).
  apply wp_bind, store_into_runs; [cbn [kv_name set_kv_len set_kv_status]; lia|]. apply wp_ret.
  assert ((if decide (Z.of_nat (length key) >= FDB_KV_NAME_MAX) then FDB_KV_NAME_MAX - 1 else Z.of_nat (length key)) = Z.min (Z.of_nat (length key)) 63) as ->.
  { unfold FDB_KV_NAME_MAX. case_decide; lia. }
  rewrite (u32_id (a + 24 + _)) by (unfold is_u32; lia).
  assert (moved s s3) as HM by (eapply moved_trans; [exact M1|]; eapply moved_trans; [exact M2|exact M3]).
  specialize (HQ s3 HM H3). unfold node_kv in HQ.
  destruct kv. cbn in *. subst. done.
Qed.
End Node.
Arguments read_kv_runs {S device_table vprintf p size cap blk good cell budget erases HP ssz}.
