(* ===== verification/KvBurn.v ===== *)
(** * The order in which a KV is written

    What the store programs, byte by byte in the order it sends them: with [k] bytes of power left the flash
    takes the first [k].  [issued] follows a sequence of programmings through the code, and
    [write_new_kv_runs] gives the sequence a new KV makes, with the database it leaves. *)
From S2P Require Import Prelude W25qxx W25qxxProps Fal FdbUtils FdbProps KvData KvRead KvWrite KvFlash KvNode.

(** ** Programming byte by byte *)

Definition place (a : Z) (data : list Z) : list (Z * Z) := zip (seqZ a (Z.of_nat (length data))) data.
Definition burn1 (m : Z → Z) (ab : Z * Z) : Z → Z := λ x, if decide (x = ab.1) then Z.land (m x) ab.2 else m x.
Definition burn (seq : list (Z * Z)) (m : Z → Z) : Z → Z := foldl burn1 m seq.

Lemma place_cons a b data : place a (b :: data) = (a, b) :: place (a + 1) data.
Proof. unfold place. cbn [length]. rewrite Nat2Z.inj_succ, seqZ_cons by lia. cbn [zip zip_with]. by rewrite Z.pred_succ, <-Z.add_1_r. Qed.
Lemma place_length a data : length (place a data) = length data.
Proof. unfold place. rewrite length_zip, length_seqZ. lia. Qed.
Lemma place_take k a data : take k (place a data) = place a (take k data).
Proof.
  revert a data. induction k as [|k IH]; intros a data; [done|].
  destruct data as [|b data]; [done|]. rewrite place_cons. cbn [take]. by rewrite place_cons, IH.
Qed.
Lemma place_app a l1 l2 : place a (l1 ++ l2) = place a l1 ++ place (a + Z.of_nat (length l1)) l2.
Proof.
  revert a. induction l1 as [|b l1 IH]; intros a; [simpl; by rewrite Z.add_0_r|].
  cbn [app]. rewrite !place_cons, IH. cbn [app length]. do 3 f_equal. lia.
Qed.
Lemma burn_app s1 s2 m : burn (s1 ++ s2) m = burn s2 (burn s1 m).
Proof. apply foldl_app. Qed.
Lemma burn_ext seq m m' : (∀ x, m x = m' x) → ∀ x, burn seq m x = burn seq m' x.
Proof.
  revert m m'. induction seq as [|ab seq IH]; intros m m' He x; [apply He|]. apply IH. intros y. unfold burn1. by rewrite He.
Qed.
Lemma burn_place a data m x : burn (place a data) m x = programmed a data m x.
Proof.
  revert a m. induction data as [|b data IH]; intros a m; [unfold programmed; simpl; by rewrite decide_False by lia|].
  rewrite place_cons. cbn [burn foldl]. fold (burn (place (a + 1) data) (burn1 m (a, b))). rewrite IH.
  unfold programmed, burn1. cbn [fst snd length].
  destruct (decide (x = a)) as [->|Hne].
  - rewrite decide_False, decide_True by lia. by rewrite Z.sub_diag.
  - destruct (decide (a + 1 <= x < a + 1 + Z.of_nat (length data))).
    + rewrite decide_True by lia. f_equal. replace (Z.to_nat (x - a)) with (1 + Z.to_nat (x - (a + 1)))%nat by lia. done.
    + by rewrite decide_False by lia.
Qed.
(** Places that are not written keep their bytes. *)
Lemma burn_outside seq m x : Forall (λ ab, ab.1 ≠ x) seq → burn seq m x = m x.
Proof.
  revert m. induction seq as [|ab seq IH]; intros m Hf; [done|]. apply Forall_cons in Hf as [Hne Hf].
  cbn [burn foldl]. fold (burn seq (burn1 m ab)). rewrite IH by done. unfold burn1. by rewrite decide_False by congruence.
Qed.
Lemma place_outside a data x : x < a ∨ a + Z.of_nat (length data) <= x → Forall (λ ab : Z * Z, ab.1 ≠ x) (place a data).
Proof.
  revert a. induction data as [|b data IH]; intros a Hx; [constructor|]. rewrite place_cons. cbn [length] in Hx.
  constructor; [simpl; lia|]. apply IH. lia.
Qed.

Section Issue.
Context {S : Type} (device_table : list (fal_flash_dev S)) (vprintf : string → list farg → M S unit) (file_name : string)
  (p : nat) (size cap blk : Z) (good : fal_state S → Prop) (cell : fal_state S → Z → Z)
  (budget : fal_state S → nat) (erases : fal_state S → bool)
  `{HP : !PartFlash device_table vprintf p size cap blk good cell budget erases} (ssz : Z).
#[local] Abbreviation K := (kv_state S).
#[local] Abbreviation flash_is := (flash_is p size good cell budget ssz).
#[local] Abbreviation moved := (moved erases).

(** The programmings [seq] have been sent to a flash that held [m] and had [k] bytes of power. *)
Definition issued (m : Z → Z) (k : nat) (seq : list (Z * Z)) (s : K) : Prop :=
  flash_is (burn (take k seq) m) (k - length seq) s.

Lemma issued_nil m k s : flash_is m k s → issued m k [] s.
Proof. intros H. unfold issued. rewrite take_nil. simpl. by rewrite Nat.sub_0_r. Qed.
Lemma issued_db m k seq s d :
  issued m k seq s → parent d = parent (kv_db s) → issued m k seq (mk_ks d (kv_fal s) (log_is_show s)).
Proof. intros H. by apply flash_is_db. Qed.
Lemma issue m k seq a data s :
  flash_is (programmed a (take (k - length seq) data) (burn (take k seq) m)) (k - length seq - length data) s →
  issued m k (seq ++ place a data) s.
Proof.
  intros H. unfold issued. rewrite length_app, place_length, take_app, burn_app, place_take, Nat.sub_add_distr.
  eapply flash_is_ext; [exact H|]. intros x. symmetry. apply burn_place.
Qed.

(** The state after a step that turned the database into [d]. *)
Definition turned (d : fdb_kvdb S) (s s' : K) : Prop :=
  kv_db s' = d ∧ log_is_show s' = log_is_show s ∧ erases (kv_fal s') = erases (kv_fal s).
Lemma moved_turned d s s1 s2 : turned d s s1 → moved s1 s2 → turned d s s2.
Proof. intros (H1&H2&H3) (H4&H5&H6). split_and!; congruence. Qed.

Lemma issue_write m k seq a data n s (Q : Z → K → Prop) :
  issued m k seq s → 0 <= a → 0 < n → a + n <= size → n <= Z.of_nat (length data) →
  (∀ s', moved s s' → issued m k (seq ++ place a (take (Z.to_nat n) data)) s' → Q FDB_NO_ERR s') →
  wp (flash_write device_table vprintf a data n) s Q.
Proof.
  intros Hs Ha Hn Hb Hd HQ. eapply kv_write_runs; [exact Hs|done..|]. intros s' M' H'. apply HQ; [done|].
  apply issue. rewrite (length_take_le _ (Z.to_nat n)) by lia. exact H'.
Qed.
Lemma issue_status m k seq a b num idx s (Q : Z * list Z → K → Prop) :
  issued m k seq s → 0 <= a → a + 1 <= size → (0 < idx < num)%nat → (num ≤ 8)%nat →
  (∀ s', moved s s' → issued m k (seq ++ place a [status_byte idx]) s' → Q (FDB_NO_ERR, [status_byte idx]) s') →
  wp (write_status device_table vprintf a [b] num idx) s Q.
Proof.
  intros Hs Ha Hb Hi Hn HQ. eapply write_status_runs; [exact Hs|done..|]. intros s' M' H'. apply HQ; [done|]. by apply issue.
Qed.

(** ** The status of the sector *)

(** The status a sector steps to when a KV of [len] bytes comes, and whether it is full. *)
Definition sector_step (sector : kvdb_sec_info) (len : Z) : option nat * bool :=
  if decide (sec_store sector = FDB_SECTOR_STORE_EMPTY) then (Some FDB_SECTOR_STORE_USING, false)
  else if decide (sec_store sector = FDB_SECTOR_STORE_USING ∧
                  (sec_remain sector < 88 ∨ u32 (sec_remain sector - len) < 88)) then (Some FDB_SECTOR_STORE_FULL, true)
  else (None, false).
Definition sector_seq (sector : kvdb_sec_info) (len : Z) : list (Z * Z) :=
  match (sector_step sector len).1 with Some st => place (sec_addr sector) [status_byte st] | None => [] end.
Definition sector_db (sector : kvdb_sec_info) (len : Z) (d : fdb_kvdb S) : fdb_kvdb S :=
  match (sector_step sector len).1 with
  | Some st => set_sector_cache (update_sector_status_store_cache (sec_addr sector) st (sector_cache_table d)) d
  | None => d
  end.

Lemma wp_kset f (s : K) (Q : unit → K → Prop) :
  Q tt (mk_ks (f (kv_db s)) (kv_fal s) (log_is_show s)) → wp (kset f) s Q.
Proof. done. Qed.

Lemma update_sec_status_runs m k seq sector len s (Q : Z * bool → K → Prop) :
  issued m k seq s → 0 <= sec_addr sector → sec_addr sector + 1 <= size →
  (∀ s', turned (sector_db sector len (kv_db s)) s s' → issued m k (seq ++ sector_seq sector len) s' →
     Q (FDB_NO_ERR, (sector_step sector len).2) s') →
  wp (update_sec_status device_table vprintf sector len false) s Q.
Proof.
  intros Hs Ha Hb HQ. unfold update_sec_status, sector_db, sector_seq, sector_step in *.
  change FDB_SEC_REMAIN_THRESHOLD with 88.
  destruct (decide (sec_store sector = FDB_SECTOR_STORE_EMPTY)).
  - apply wp_bind. unfold stack_table. eapply issue_status; [done|lia|lia|unfold FDB_SECTOR_STORE_USING, FDB_SECTOR_STORE_STATUS_NUM; lia|unfold FDB_SECTOR_STORE_USING, FDB_SECTOR_STORE_STATUS_NUM; lia|].
    intros s1 (E1&E2&E3) H1. cbv beta iota. apply wp_bind, wp_kset, wp_ret. cbn [fst snd] in HQ.
    apply HQ; [split_and!; simpl; congruence|]. apply issued_db; [done|simpl; congruence].
  - destruct (decide (sec_store sector = FDB_SECTOR_STORE_USING)) as [Hu|Hu].
    + destruct (decide (sec_remain sector < 88 ∨ u32 (sec_remain sector - len) < 88)) as [Hr|Hr].
      * rewrite decide_True in HQ by done.
        apply wp_bind. unfold stack_table. eapply issue_status; [done|lia|lia|unfold FDB_SECTOR_STORE_FULL, FDB_SECTOR_STORE_STATUS_NUM; lia|unfold FDB_SECTOR_STORE_FULL, FDB_SECTOR_STORE_STATUS_NUM; lia|].
        intros s1 (E1&E2&E3) H1. cbv beta iota. apply wp_bind, wp_kset, wp_ret. cbn [fst snd] in HQ.
        apply HQ; [split_and!; simpl; congruence|]. apply issued_db; [done|simpl; congruence].
      * rewrite decide_False in HQ by tauto. apply wp_ret, HQ; [done|]. cbn [fst]. by rewrite app_nil_r.
    + rewrite decide_False in HQ by tauto. apply wp_ret, HQ; [done|]. cbn [fst]. by rewrite app_nil_r.
Qed.

(** ** A new KV *)

Definition node_seq (a : Z) (key value : list Z) : list (Z * Z) :=
  place a [status_byte FDB_KV_PRE_WRITE] ++ place (a + 4) (drop 4 (node_hdr 0 key value)) ++
  place (a + 24) key ++ place (a + 24 + Z.of_nat (length key)) value ++ place a [status_byte FDB_KV_WRITE].
Definition key_crc (key : list Z) : Z := u16 (Z.shiftr (crc_reference 0 key) 16).
(** The database after the creation of a KV at [a]. *)
Definition created_db (sector : kvdb_sec_info) (a : Z) (key value : list Z) (d : fdb_kvdb S) : fdb_kvdb S :=
  let len := node_len key value in
  let full := (sector_step sector len).2 in
  let d1 := sector_db sector len d in
  let d2 := if full then d1 else
    set_sector_cache (update_sector_empty_addr_cache (db_sec_size d1) (sec_addr sector) (a + len) (sector_cache_table d1)) d1 in
  let d3 := set_kv_cache (update_kv_cache_crc (key_crc key) a (kv_cache_table d2)) d2 in
  if full then set_gc_request true d3 else d3.

Lemma kv_name_crc_some key : Forall is_u8 key → kv_name_crc key = Some (key_crc key).
Proof. intros Hk. unfold kv_name_crc. by rewrite calc_crc_some. Qed.
Lemma u8_key key value : storable key value → u8 (Z.of_nat (length key)) = Z.of_nat (length key).
Proof. intros (_&_&Hk&_). apply u8_id. unfold is_u8. lia. Qed.
Lemma new_hdr_eq key value c :
  storable key value →
  new_hdr (Z.of_nat (length key)) (Z.of_nat (length value)) c =
  mk_kv_hdr [0xFF] [0xFF; 0xFF; 0xFF] KV_MAGIC_WORD (node_len key value) c (Z.of_nat (length key)) [0xFF; 0xFF; 0xFF] (Z.of_nat (length value)).
Proof.
  intros Hs. pose proof Hs as (_&_&Hk&_&Hl). unfold node_len in Hl. unfold new_hdr.
  rewrite (u8_key key value Hs). rewrite kv_hdr_size, !wg_align, u32_id by (unfold is_u32; lia). done.
Qed.
Lemma new_hdr_bytes key value c :
  storable key value →
  kv_hdr_bytes (new_hdr (Z.of_nat (length key)) (Z.of_nat (length value)) c) =
  [0xFF; 0xFF; 0xFF; 0xFF] ++ le_bytes 4 KV_MAGIC_WORD ++ le_bytes 4 (node_len key value) ++ le_bytes 4 c ++ node_words key value.
Proof.
  intros Hs. rewrite new_hdr_eq by done. unfold kv_hdr_bytes, node_words. cbn [hdr_status kv_hdr_pad hdr_magic hdr_len hdr_crc32 hdr_name_len hdr_name_pad hdr_value_len le_bytes].
  pose proof Hs as (_&_&Hk&_). rewrite !(u8_id (Z.of_nat (length key))) by (unfold is_u8; lia). done.
Qed.
Lemma drop_pieces (l0 l1 l2 l3 l4 : list Z) n :
  length l0 = 4%nat → length l1 = 4%nat → length l2 = 4%nat → length l3 = 4%nat → (n = 16 ∨ n = 20)%nat →
  drop n (l0 ++ l1 ++ l2 ++ l3 ++ l4) = drop (n - 16) l4.
Proof.
  intros H0 H1 H2 H3 Hn.
  destruct l0 as [|? [|? [|? [|? [|]]]]]; try done. destruct l1 as [|? [|? [|? [|? [|]]]]]; try done.
  destruct l2 as [|? [|? [|? [|? [|]]]]]; try done. destruct l3 as [|? [|? [|? [|? [|]]]]]; try done.
  by destruct Hn as [-> | ->].
Qed.
Lemma calc_crc_chain a b key value :
  Forall is_u8 a → Forall is_u8 b → Forall is_u8 key → Forall is_u8 value →
  (c ← fdb_calc_crc32 0 a; c ← fdb_calc_crc32 c b; c ← fdb_calc_crc32 c key; fdb_calc_crc32 c value) =
  Some (crc_reference 0 ((a ++ b) ++ key ++ value)).
Proof.
  intros Ha Hb Hk Hv. do 3 (rewrite calc_crc_some by done; cbn [mbind option_bind]).
  rewrite calc_crc_some by done. by rewrite !crc_reference_app, <-!app_assoc.
Qed.
Lemma kv_crc_eq key value :
  storable key value → kv_crc key value (Z.of_nat (length value)) = Some (node_crc key value).
Proof.
  intros Hs. pose proof Hs as (Hk&Hv&Hkl&Hvl&Hl). unfold node_len in Hl. unfold kv_crc.
  rewrite (u8_key key value Hs), new_hdr_bytes by done.
  rewrite (drop_pieces _ _ _ _ _ 16), (drop_pieces _ _ _ _ _ 20) by first [done | left; done | right; done | apply le_bytes_length].
  cbn [Nat.sub].
  rewrite !wg_align by (unfold is_u32; lia). rewrite !Z.sub_diag, !Nat2Z.id, decide_True by lia. rewrite !take_ge by lia.
  change (Z.to_nat 0) with 0%nat. cbn [crc_padding]. rewrite drop_0.
  pose proof (node_words_u8 key value Hs) as Hw. unfold node_crc, node_words in *. apply Forall_app in Hw as [Hw1 Hw2].
  pose proof (le_bytes_length 4 (Z.of_nat (length value))) as Hlen.
  rewrite (take_app_length' [_; _; _; _]) by done. rewrite (drop_app_length' [_; _; _; _]) by done.
  generalize dependent (le_bytes 4 (Z.of_nat (length value))). intros vl Hw2 Hlen. rewrite (take_ge vl) by lia.
  generalize dependent [Z.of_nat (length key); 255; 255; 255]. intros kl Hw1.
  rewrite <-calc_crc_chain by done. cbn [mbind option_bind].
  destruct (fdb_calc_crc32 0 kl); [|done]. cbn [mbind option_bind]. destruct (fdb_calc_crc32 z vl); [|done]. cbn [mbind option_bind].
  destruct (fdb_calc_crc32 z0 key); [|done]. cbn [mbind option_bind]. by destruct (fdb_calc_crc32 z1 value).
Qed.

Lemma align_write_runs m k seq a data s (Q : Z → K → Prop) :
  issued m k seq s → 0 <= a → (0 < length data)%nat → a + Z.of_nat (length data) <= size →
  (∀ s', moved s s' → issued m k (seq ++ place a data) s' → Q FDB_NO_ERR s') →
  wp (align_write device_table vprintf a data (Z.of_nat (length data))) s Q.
Proof.
  intros Hs Ha Hd Hb HQ. unfold align_write. rewrite wg_align_down, Z.sub_diag. rewrite decide_True by lia.
  apply wp_bind. eapply issue_write; [done|lia..|]. intros s1 M1 H1. rewrite take_ge in H1 by lia.
  rewrite decide_False by lia. apply wp_ret. by apply HQ.
Qed.
Lemma write_kv_hdr_runs m k seq a key value s (Q : Z → K → Prop) :
  issued m k seq s → storable key value → 0 <= a → a + 24 <= size →
  (∀ s', moved s s' → issued m k (seq ++ place a [status_byte FDB_KV_PRE_WRITE] ++ place (a + 4) (drop 4 (node_hdr 0 key value))) s' → Q FDB_NO_ERR s') →
  wp (write_kv_hdr device_table vprintf a (new_hdr (Z.of_nat (length key)) (Z.of_nat (length value)) (node_crc key value))) s Q.
Proof.
  intros Hs Hst Ha Hb HQ. destruct part_size as [_ Hsz]. unfold write_kv_hdr.
  change (hdr_status (new_hdr _ _ _)) with [FDB_BYTE_ERASED].
  apply wp_bind. eapply issue_status; [done|lia|lia|unfold FDB_KV_PRE_WRITE, FDB_KV_STATUS_NUM; lia|unfold FDB_KV_STATUS_NUM; lia|].
  intros s1 M1 H1. cbv beta iota. rewrite decide_False by (intros Hne; by apply Hne).
  rewrite new_hdr_bytes by done. change (Z.to_nat KV_MAGIC_OFFSET) with 4%nat. change KV_MAGIC_OFFSET with 4.
  change (drop 4 ([0xFF; 0xFF; 0xFF; 0xFF] ++ ?l)) with (drop 4 (node_hdr 0 key value)).
  rewrite u32_id by (unfold is_u32; lia). pose proof (node_hdr_length 0 key value) as Hl.
  eapply issue_write; [done|lia|done|change (Z.of_nat sizeof_kv_hdr_data) with 24; lia|rewrite length_drop, Hl; done|].
  intros s2 M2 H2. apply HQ; [by eapply moved_trans|].
  rewrite <-app_assoc in H2. rewrite take_ge in H2 by (rewrite length_drop, Hl; done). exact H2.
Qed.

Lemma sector_db_parent sector len d : parent (sector_db sector len d) = parent d.
Proof. unfold sector_db. by destruct (sector_step sector len).1. Qed.
Lemma created_db_parent sector a key value d : parent (created_db sector a key value d) = parent d.
Proof. unfold created_db. by destruct (sector_step _ _).2; simpl; rewrite sector_db_parent. Qed.

Lemma created_db_cache sector a key value d :
  kv_cache_table (created_db sector a key value d) = update_kv_cache_crc (key_crc key) a (kv_cache_table d) ∧
  last_is_complete_del (created_db sector a key value d) = last_is_complete_del d ∧
  ((sector_step sector (node_len key value)).2 = false → gc_request (created_db sector a key value d) = gc_request d).
Proof.
  unfold created_db, sector_db. destruct (sector_step _ _) as [[st|] []]; cbn [fst snd]; split_and!; done.
Qed.
Lemma write_new_kv_runs m k seq sector a key value s (Q : Z → K → Prop) :
  issued m k seq s → storable key value → 0 <= sec_addr sector → sec_addr sector + 1 <= size →
  0 <= a → a + node_len key value <= size →
  (∀ s', turned (created_db sector a key value (kv_db s)) s s' →
     issued m k (seq ++ sector_seq sector (node_len key value) ++ node_seq a key value) s' → Q FDB_NO_ERR s') →
  wp (write_new_kv device_table vprintf file_name sector a key value (Z.of_nat (length value))) s Q.
Proof.
  intros Hs Hst Hsa Hsb Ha Hb HQ. destruct part_size as [_ Hsz]. pose proof Hst as (Hk&Hv&Hkl&Hvl&Hl).
  unfold node_len in Hb, Hl. unfold write_new_kv. rewrite (u8_key key value Hst).
  rewrite (new_hdr_eq key value 0 Hst). cbn [hdr_len]. apply wp_bind.
  eapply update_sec_status_runs; [done..|]. intros s1 (E1&L1&R1) H1. cbv beta iota. rewrite decide_False by (intros Hne; by apply Hne).
  rewrite kv_crc_eq by done. apply wp_bind. eapply wp_lift; [done|]. apply wp_bind.
  eapply write_kv_hdr_runs; [done|done|lia|lia|]. intros s2 M2 H2. rewrite decide_False by (intros Hne; by apply Hne).
  rewrite kv_hdr_size, !wg_align, (take_ge key) by (unfold is_u32; lia || lia). rewrite !u32_id by (unfold is_u32; lia).
  apply wp_bind. eapply align_write_runs; [done|lia|lia|lia|]. intros s3 M3 H3.
  pose proof (moved_turned _ _ _ _ (conj E1 (conj L1 R1)) (moved_trans _ _ _ _ M2 M3)) as (E3&L3&R3).
  set (full := (sector_step sector (node_len key value)).2) in *.
  set (d1 := sector_db sector (node_len key value) (kv_db s)) in *.
  set (d2 := if full then d1 else set_sector_cache (update_sector_empty_addr_cache (db_sec_size d1) (sec_addr sector)
               (a + node_len key value) (sector_cache_table d1)) d1).
  apply wp_bind.
  assert (wp (if full then mret tt else kset (λ d, set_sector_cache (update_sector_empty_addr_cache (db_sec_size d) (sec_addr sector)
      (a + 24 + Z.of_nat (length key) + Z.of_nat (length value)) (sector_cache_table d)) d)) s3
    (λ _ s4, s4 = mk_ks d2 (kv_fal s3) (log_is_show s3))) as Hcache.
  { subst d2. destruct full; [apply wp_ret; rewrite <-E3; by destruct s3|]. apply wp_kset. rewrite E3. unfold node_len. by rewrite !Z.add_assoc. }
  eapply wp_mono; [exact Hcache|]. intros [] s4 ->. unfold update_kv_cache. apply wp_bind, wp_bind.
  rewrite kv_name_crc_some by done. eapply wp_lift; [done|]. apply wp_kset. cbn [kv_db kv_fal log_is_show].
  rewrite decide_False by (intros Hne; by apply Hne).
  set (d3 := set_kv_cache _ d2).
  assert (parent d3 = parent (kv_db s3)) as P3.
  { rewrite E3. subst d3 d2. by destruct full. }
  apply (issued_db _ _ _ _ d3) in H3; [|done].
  apply wp_bind. eapply align_write_runs; [done|lia|lia|lia|]. intros s5 (E5&L5&R5) H5. cbn [kv_db log_is_show kv_fal] in *.
  rewrite decide_False by (intros Hne; by apply Hne).
  apply wp_bind. eapply issue_status; [done|lia|lia|unfold FDB_KV_WRITE, FDB_KV_STATUS_NUM; lia|unfold FDB_KV_STATUS_NUM; lia|].
  intros s6 (E6&L6&R6) H6. cbv beta iota. fold full.
  assert (issued m k (seq ++ sector_seq sector (node_len key value) ++ node_seq a key value) s6) as H7.
  { unfold node_seq. rewrite <-!app_assoc in H6. exact H6. }
  unfold created_db in HQ. fold full d1 d2 d3 in HQ.
  destruct full eqn:Ef.
  - rewrite decide_True by done. apply wp_bind. eapply kv_debug_runs; [exact H7|]. intros s8 (E8&L8&R8) H8.
    apply wp_bind, wp_kset, wp_ret. apply HQ; [split_and!; simpl; congruence|]. apply issued_db; [done|]. simpl. congruence.
  - rewrite decide_False by (by intros [_ ?]). apply wp_ret. apply HQ; [split_and!; congruence|done].
Qed.
End Issue.
Arguments issue_write {S device_table vprintf p size cap blk good cell budget erases HP ssz}.
Arguments issue_status {S device_table vprintf p size cap blk good cell budget erases HP ssz}.
Arguments update_sec_status_runs {S device_table vprintf p size cap blk good cell budget erases HP ssz}.
Arguments align_write_runs {S device_table vprintf p size cap blk good cell budget erases HP ssz}.
Arguments write_kv_hdr_runs {S device_table vprintf p size cap blk good cell budget erases HP ssz}.
Arguments write_new_kv_runs {S device_table vprintf file_name p size cap blk good cell budget erases HP ssz}.
