(* ===== verification/KvPower.v ===== *)
(** * What a loss of power leaves of a KV

    The bytes of the flash after any part of the programmings of [KvBurn.v]: a new KV is complete or
    its status says that it is not, and a KV that is replaced stays until the new one is
    complete. *)
From S2P Require Import Prelude W25qxx W25qxxProps Fal FdbUtils FdbProps KvData KvRead KvWrite KvFlash KvNode KvBurn.

(** ** Bytes after a programming *)

(** Whether a place is one of a range. *)
Definition in_node (a : Z) (key value : list Z) (x : Z) : Prop := a <= x < a + node_len key value.
Definition erased_at (m : Z → Z) (a n : Z) : Prop := ∀ x, a <= x < a + n → m x = 0xFF.

Lemma land_low_byte b : is_u8 b → Z.land 0xFF b = b.
Proof. intros Hb. change 0xFF with (Z.ones 8). rewrite Z.land_comm, Z.land_ones by done. by apply Z.mod_small. Qed.
Lemma burn_erased a data m :
  erased_at m a (Z.of_nat (length data)) → Forall is_u8 data → mem_at (burn (place a data) m) a data.
Proof.
  intros He Hu. apply mem_at_lookup. intros i b Hb. pose proof (lookup_lt_Some _ _ _ Hb).
  rewrite burn_place. unfold programmed. rewrite decide_True, He by lia.
  replace (Z.to_nat (a + Z.of_nat i - a)) with i by lia. rewrite (list_lookup_total_correct _ _ _ Hb).
  apply land_low_byte. rewrite Forall_lookup in Hu. by eapply Hu.
Qed.
Lemma mem_at_outside seq m a bs :
  Forall (λ ab : Z * Z, ab.1 < a ∨ a + Z.of_nat (length bs) <= ab.1) seq → mem_at m a bs → mem_at (burn seq m) a bs.
Proof.
  intros Hf. apply mem_at_ext. intros x Hx. symmetry. apply burn_outside. eapply Forall_impl; [exact Hf|]. intros ab Hab. simpl in *. lia.
Qed.
Lemma place_range a data (P : Z * Z → Prop) :
  (∀ x b, a <= x < a + Z.of_nat (length data) → P (x, b)) → Forall P (place a data).
Proof.
  revert a. induction data as [|b data IH]; intros a H; [constructor|]. rewrite place_cons. cbn [length] in H.
  constructor; [apply H; lia|]. apply IH. intros x b' Hx. apply H. lia.
Qed.

Lemma status_byte_u8 idx : is_u8 (status_byte idx).
Proof.
  unfold status_byte. case_decide; [|split; lia]. rewrite Z.shiftr_div_pow2 by lia.
  pose proof (Z.pow_pos_nonneg 2 (Z.of_nat idx) ltac:(lia) ltac:(lia)).
  split; [apply Z.div_pos; lia|]. apply Z.div_lt_upper_bound; nia.
Qed.
Lemma node_hdr_split st key value : node_hdr st key value = [status_byte st; 0xFF; 0xFF; 0xFF] ++ drop 4 (node_hdr 0 key value).
Proof. done. Qed.
Lemma node_hdr_u8 st key value : storable key value → Forall is_u8 (node_hdr st key value).
Proof.
  intros Hs. unfold node_hdr. apply Forall_app_2; [repeat constructor; try apply status_byte_u8; unfold is_u8; lia|].
  do 3 (apply Forall_app_2; [apply le_bytes_u8|]). by apply node_words_u8.
Qed.

(** ** The programmings of a new KV *)

Lemma node_seq_inside a key value :
  storable key value → Forall (λ ab, in_node a key value ab.1) (node_seq a key value).
Proof.
  intros (_&_&Hk&_&_). unfold node_seq, in_node, node_len.
  pose proof (node_hdr_length 0 key value) as Hh.
  repeat apply Forall_app_2; apply place_range; intros x b; rewrite ?length_drop, ?Hh; cbn [length fst]; lia.
Qed.
Lemma node_seq_take_outside k a key value m x :
  storable key value → ¬ in_node a key value x → burn (take k (node_seq a key value)) m x = m x.
Proof.
  intros Hs Hx. apply burn_outside, Forall_take. eapply Forall_impl; [by apply node_seq_inside|].
  intros ab Hab <-. by apply Hx.
Qed.

(** All of them make the KV. *)
Lemma node_seq_complete a key value m :
  storable key value → erased_at m a (node_len key value) →
  mem_at (burn (node_seq a key value) m) a (node_bytes FDB_KV_WRITE key value).
Proof.
  intros Hs He. pose proof Hs as (Hk&Hv&Hkl&Hvl&_).
  pose proof (node_hdr_length 0 key value) as Hh. unfold node_len in He.
  unfold node_bytes. rewrite node_hdr_split, <-app_assoc.
  set (tl := drop 4 (node_hdr 0 key value)).
  assert (length tl = 20%nat) as Htl by (unfold tl; rewrite length_drop, Hh; done).
  assert (Forall is_u8 tl) as Htu by (unfold tl; apply Forall_drop; by apply node_hdr_u8).
  unfold node_seq. fold tl. rewrite !burn_app.
  (* the status byte *)
  set (m1 := burn (place a [status_byte FDB_KV_PRE_WRITE]) m).
  assert (∀ x, x ≠ a → m1 x = m x) as Hm1.
  { intros x Hx. apply burn_outside, place_outside. simpl. lia. }
  set (m2 := burn (place (a + 4) tl) m1). set (m3 := burn (place (a + 24) key) m2).
  set (m4 := burn (place (a + 24 + Z.of_nat (length key)) value) m3).
  assert (∀ x, x < a + 4 → m4 x = m1 x) as Hm4.
  { intros x Hx. unfold m4. rewrite burn_outside by (apply place_outside; lia).
    unfold m3. rewrite burn_outside by (apply place_outside; lia).
    unfold m2. by rewrite burn_outside by (apply place_outside; lia). }
  apply mem_at_app. split.
  - apply mem_at_lookup. intros i b Hb. pose proof (lookup_lt_Some _ _ _ Hb) as Hi. cbn [length] in Hi.
    rewrite burn_place. unfold programmed. cbn [length]. destruct i as [|i].
    + injection Hb as <-. rewrite decide_True by lia. replace (Z.to_nat (a + Z.of_nat 0 - a)) with 0%nat by lia.
      rewrite Hm4 by lia. unfold m1. rewrite burn_place. unfold programmed. cbn [length].
      rewrite decide_True by lia. replace (Z.to_nat (a + Z.of_nat 0 - a)) with 0%nat by lia. rewrite He by lia. done.
    + rewrite decide_False by lia. rewrite Hm4, Hm1, He by lia. do 3 (destruct i as [|i]; [by injection Hb|]). lia.
  - cbn [length]. change (Z.of_nat 4) with 4. apply mem_at_outside.
    { apply place_range. intros x b Hx. left. cbn [length fst] in *. lia. }
    assert (erased_at m1 (a + 4) (20 + Z.of_nat (length key) + Z.of_nat (length value))) as He1.
    { intros x Hx. rewrite Hm1 by lia. apply He. lia. }
    rewrite mem_at_app, Htl. change (Z.of_nat 20) with 20. replace (a + 4 + 20) with (a + 24) by lia. rewrite mem_at_app. split_and!.
    + apply mem_at_outside; [apply place_range; intros x b Hx; right; simpl in *; lia|].
      apply mem_at_outside; [apply place_range; intros x b Hx; right; simpl in *; lia|].
      apply burn_erased; [|done]. intros x Hx. apply He1. lia.
    + apply mem_at_outside; [apply place_range; intros x b Hx; right; simpl in *; lia|].
      apply burn_erased; [|done]. intros x Hx. unfold m2. rewrite burn_outside by (apply place_outside; lia). apply He1. lia.
    + apply burn_erased; [|done]. intros x Hx. unfold m3. rewrite burn_outside by (apply place_outside; lia).
      unfold m2. rewrite burn_outside by (apply place_outside; lia). apply He1. lia.
Qed.
(** Some of them leave a status before [FDB_KV_WRITE]. *)
Lemma node_seq_partial k a key value m :
  storable key value → m a = 0xFF → (k < length (node_seq a key value))%nat →
  burn (take k (node_seq a key value)) m a = status_byte FDB_KV_UNUSED ∨
  burn (take k (node_seq a key value)) m a = status_byte FDB_KV_PRE_WRITE.
Proof.
  intros Hs He Hk. pose proof (node_hdr_length 0 key value) as Hh. unfold node_seq in *.
  set (rest := place (a + 4) (drop 4 (node_hdr 0 key value)) ++ place (a + 24) key ++ place (a + 24 + Z.of_nat (length key)) value).
  assert (Forall (λ ab : Z * Z, ab.1 ≠ a) rest) as Hrest.
  { unfold rest. repeat apply Forall_app_2; apply place_outside; lia. }
  replace (place a [status_byte FDB_KV_PRE_WRITE] ++ place (a + 4) (drop 4 (node_hdr 0 key value)) ++
     place (a + 24) key ++ place (a + 24 + Z.of_nat (length key)) value ++ place a [status_byte FDB_KV_WRITE])
    with ((a, status_byte FDB_KV_PRE_WRITE) :: rest ++ [(a, status_byte FDB_KV_WRITE)]) in * by (unfold rest; by rewrite <-!app_assoc).
  cbn [length] in Hk. rewrite length_app in Hk. cbn [length] in Hk.
  destruct k as [|k]; [left; simpl; by rewrite He|]. right. cbn [take]. rewrite take_app_le by lia.
  change (burn (?x :: ?l) m a) with (burn l (burn1 m x) a). rewrite burn_outside by (by apply Forall_take).
  unfold burn1. cbn [fst snd]. rewrite decide_True, He by done. apply land_low_byte, status_byte_u8.
Qed.

(** ** Deleting and replacing *)

Lemma get_status_some b num : (num ≤ 8)%nat → ∃ i, _fdb_get_status [b] num = Some i.
Proof.
  intros Hn. unfold _fdb_get_status.
  assert (∀ n i, (n ≤ 8)%nat → ∃ j, status_scan [b] n i = Some j) as Hscan.
  { intros n. induction n as [|n IH]; intros i H; [by eexists|]. cbn [status_scan].
    rewrite Nat.div_small by lia. cbn [lookup list_lookup mbind option_bind]. case_decide; [by eexists|]. apply IH. lia. }
  destruct (Hscan (num - 1)%nat 0%nat ltac:(lia)) as [j ->]. by eexists.
Qed.

Section Power.
Context {S : Type} (device_table : list (fal_flash_dev S)) (vprintf : string → list farg → M S unit) (file_name : string)
  (stack_sector : kvdb_sec_info) (stack_kv : fdb_kv)
  (p : nat) (size cap blk : Z) (good : fal_state S → Prop) (cell : fal_state S → Z → Z)
  (budget : fal_state S → nat) (erases : fal_state S → bool)
  `{HP : !PartFlash device_table vprintf p size cap blk good cell budget erases} (ssz : Z).
#[local] Abbreviation K := (kv_state S).
#[local] Abbreviation flash_is := (flash_is p size good cell budget ssz).
#[local] Abbreviation issued := (issued p size good cell budget ssz).
#[local] Abbreviation turned := (turned erases).
#[local] Abbreviation del_kv := (del_kv device_table vprintf file_name stack_sector stack_kv).
#[local] Abbreviation replace_kv := (replace_kv device_table vprintf file_name stack_sector stack_kv).

(** The database after the status of a KV is changed, and after its sector became dirty when [hit]. *)
Definition status_db (key : list Z) (complete : bool) (d : fdb_kvdb S) : fdb_kvdb S :=
  if complete then
    set_last_del false
      (if last_is_complete_del d then d
       else set_kv_cache (update_kv_cache_crc (key_crc key) FDB_DATA_UNUSED (kv_cache_table d)) d)
  else set_last_del true d.
Definition dirty_db (sec : Z) (hit : bool) (d : fdb_kvdb S) : fdb_kvdb S :=
  if hit then
    match get_sector_from_cache (sector_cache_table d) sec with
    | Some i => set_sector_cache (alter (set_sec_dirty FDB_SECTOR_DIRTY_TRUE) i (sector_cache_table d)) d
    | None => d
    end
  else d.
Definition deleted_db (key : list Z) (complete : bool) (sec : Z) (hit : bool) (d : fdb_kvdb S) : fdb_kvdb S :=
  dirty_db sec hit (status_db key complete d).
Definition del_seq (o sec : Z) (complete hit : bool) : list (Z * Z) :=
  place o [status_byte (if complete then FDB_KV_DELETED else FDB_KV_PRE_DELETE)] ++
  (if hit then place (sec + SECTOR_DIRTY_OFFSET) [status_byte FDB_SECTOR_DIRTY_TRUE] else []).

Lemma dirty_db_same sec hit d : parent (dirty_db sec hit d) = parent d ∧ cur_sector (dirty_db sec hit d) = cur_sector d.
Proof. unfold dirty_db. destruct hit; [|done]. by destruct (get_sector_from_cache _ sec). Qed.
Lemma deleted_db_same key complete sec hit d :
  parent (deleted_db key complete sec hit d) = parent d ∧ cur_sector (deleted_db key complete sec hit d) = cur_sector d.
Proof.
  unfold deleted_db. rewrite !(proj1 (dirty_db_same _ _ _)), !(proj2 (dirty_db_same _ _ _)).
  unfold status_db. by destruct complete, (last_is_complete_del d).
Qed.

Lemma dirty_db_kept sec hit d :
  kv_cache_table (dirty_db sec hit d) = kv_cache_table d ∧ last_is_complete_del (dirty_db sec hit d) = last_is_complete_del d ∧
  gc_request (dirty_db sec hit d) = gc_request d.
Proof. unfold dirty_db. destruct hit; [|done]. by destruct (get_sector_from_cache _ sec). Qed.
Lemma deleted_db_kept key complete sec hit d :
  last_is_complete_del d = true ∨ complete = false → kv_cache_table (deleted_db key complete sec hit d) = kv_cache_table d.
Proof.
  intros H. unfold deleted_db. rewrite (proj1 (dirty_db_kept _ _ _)). unfold status_db.
  destruct complete; [|done]. by destruct H as [->|?].
Qed.
Lemma deleted_db_last key complete sec hit d : last_is_complete_del (deleted_db key complete sec hit d) = negb complete.
Proof. unfold deleted_db. rewrite (proj1 (proj2 (dirty_db_kept _ _ _))). by destruct complete. Qed.
Lemma deleted_db_gc key complete sec hit d : gc_request (deleted_db key complete sec hit d) = gc_request d.
Proof.
  unfold deleted_db. rewrite (proj2 (proj2 (dirty_db_kept _ _ _))). unfold status_db.
  by destruct complete, (last_is_complete_del d).
Qed.

Lemma mark_dirty_runs m k seq a b d s (Q : Z → K → Prop) :
  let sec := FDB_ALIGN_DOWN a ssz in
  issued m k seq s → 0 <= sec → sec + 2 <= size → kv_db s = d →
  (∀ hit s', turned (dirty_db sec hit d) s s' →
     hit = bool_decide (_fdb_get_status [burn (take k seq) m (sec + 1)] 4 = Some FDB_SECTOR_DIRTY_FALSE) →
     issued m k (seq ++ if hit : bool then place (sec + 1) [status_byte FDB_SECTOR_DIRTY_TRUE] else []) s' → Q FDB_NO_ERR s') →
  wp (mark_dirty device_table vprintf a FDB_NO_ERR [b]) s Q.
Proof.
  intros sec Hs Ha Hb Hd HQ. destruct part_size as [_ Hsz]. unfold mark_dirty. apply wp_bind, wp_gets. cbv beta iota zeta delta [id].
  pose proof Hs as ((_&_&Hssz&_)&_). change (db_sec_size (kv_db s)) with (sec_size (parent (kv_db s))). rewrite Hssz. fold sec.
  rewrite decide_True by done. change SECTOR_DIRTY_OFFSET with 1. rewrite u32_id by (unfold is_u32; lia).
  unfold FDB_SECTOR_DIRTY_STATUS_NUM. apply wp_bind.
  destruct (get_status_some (burn (take k seq) m (sec + 1)) 4 ltac:(lia)) as [i Hi].
  eapply read_status_runs; [exact Hs|lia|lia|lia|exact Hi|]. intros s1 (E1&L1&R1) H1. cbv beta iota. rewrite Hi in HQ.
  change (issued m k seq s1) in H1.
  destruct (decide (i = FDB_SECTOR_DIRTY_FALSE)) as [->|Hne].
  - apply wp_bind. eapply issue_status; [exact H1|lia|lia|unfold FDB_SECTOR_DIRTY_TRUE; lia|lia|].
    intros s2 (E2&L2&R2) H2. cbv beta iota. apply wp_bind, wp_kset, wp_ret.
    assert (kv_db s2 = d) as Ed by congruence. rewrite Ed.
    apply (HQ true); [split_and!; simpl; congruence|by rewrite bool_decide_eq_true_2|].
    apply issued_db; [exact H2|]. rewrite Ed. by destruct (get_sector_from_cache (sector_cache_table d) sec).
  - apply wp_ret. apply (HQ false); [split_and!; [unfold dirty_db; congruence|congruence..]| |by rewrite app_nil_r].
    rewrite bool_decide_eq_false_2; [done|]. by intros [= ?].
Qed.

Lemma del_status_runs m k seq key old complete s (Q : Z * list Z → K → Prop) :
  issued m k seq s → Forall is_u8 key → 0 <= addr_start old → addr_start old + 1 <= size →
  (∀ s', turned (status_db key complete (kv_db s)) s s' →
     issued m k (seq ++ place (addr_start old) [status_byte (if complete then FDB_KV_DELETED else FDB_KV_PRE_DELETE)]) s' →
     Q (FDB_NO_ERR, [status_byte (if complete then FDB_KV_DELETED else FDB_KV_PRE_DELETE)]) s') →
  wp (del_status device_table vprintf (Some key) old complete) s Q.
Proof.
  intros Hs Hk Ha Hb HQ. unfold del_status, stack_table, status_db in *. destruct complete.
  - apply wp_bind. eapply issue_status; [done|lia|lia|unfold FDB_KV_DELETED, FDB_KV_STATUS_NUM; lia|unfold FDB_KV_STATUS_NUM; lia|].
    intros s1 (E1&L1&R1) H1. cbv beta iota. apply wp_bind, wp_gets. rewrite E1. apply wp_bind.
    destruct (last_is_complete_del (kv_db s)) eqn:El.
    + rewrite decide_False by (by intros [? _]). apply wp_ret, wp_bind, wp_kset, wp_ret.
      apply HQ; [split_and!; simpl; congruence|]. by apply issued_db.
    + rewrite decide_True by done. unfold update_kv_cache. apply wp_bind.
      eapply wp_lift; [by apply kv_name_crc_some|]. apply wp_kset, wp_bind, wp_kset, wp_ret. cbn [kv_db kv_fal log_is_show].
      apply HQ; [split_and!; simpl; congruence|]. by apply issued_db.
  - apply wp_bind. eapply issue_status; [done|lia|lia|unfold FDB_KV_PRE_DELETE, FDB_KV_STATUS_NUM; lia|unfold FDB_KV_STATUS_NUM; lia|].
    intros s1 (E1&L1&R1) H1. cbv beta iota. apply wp_bind, wp_kset, wp_ret.
    apply HQ; [split_and!; simpl; congruence|]. by apply issued_db.
Qed.

Lemma del_kv_runs m k seq key old complete s (Q : Z → K → Prop) :
  let o := addr_start old in let sec := FDB_ALIGN_DOWN o ssz in
  issued m k seq s → Forall is_u8 key → 0 <= o → o + 1 <= size → 0 <= sec → sec + 2 <= size →
  (∀ hit s', turned (deleted_db key complete sec hit (kv_db s)) s s' →
     hit = bool_decide (_fdb_get_status [burn (take k (seq ++ del_seq o sec complete false)) m (sec + 1)] 4 = Some FDB_SECTOR_DIRTY_FALSE) →
     issued m k (seq ++ del_seq o sec complete hit) s' → Q FDB_NO_ERR s') →
  wp (del_kv (Some key) (Some old) complete) s Q.
Proof.
  intros o sec Hs Hk Ha Hb Hsa Hsb HQ. unfold del_kv. apply wp_bind, wp_ret, wp_bind.
  eapply del_status_runs; [done|done|lia|lia|]. intros s1 (E1&L1&R1) H1. cbv beta iota.
  eapply (mark_dirty_runs m k _ (addr_start old) _ (kv_db s1)); [exact H1|exact Hsa|exact Hsb|done|]. intros hit s2 (E2&L2&R2) Hhit H2.
  apply (HQ hit).
  - split_and!; [|congruence|congruence]. rewrite E2, E1. by destruct hit.
  - rewrite Hhit. unfold del_seq. by rewrite app_nil_r.
  - unfold del_seq. by rewrite app_assoc.
Qed.
Lemma create_runs m k seq sector a key value s (Q : Z * kvdb_sec_info → K → Prop) :
  issued m k seq s → storable key value → sec_empty_kv sector = a → 0 <= sec_addr sector → sec_addr sector + 1 <= size →
  0 <= a → a + node_len key value <= size → node_len key value <= ssz - 16 → ssz < 2 ^ 32 →
  (∀ s', turned (created_db sector a key value (kv_db s)) s s' →
     issued m k (seq ++ sector_seq sector (node_len key value) ++ node_seq a key value) s' → Q (FDB_NO_ERR, sector) s') →
  wp (create_kv_blob device_table vprintf file_name stack_sector stack_kv sector key value (Z.of_nat (length value))) s Q.
Proof.
  intros Hs Hst He Hsa Hsb Ha Hb Hfit Hss HQ. destruct part_size as [_ Hsz]. pose proof Hst as (_&_&Hkl&_&Hl).
  unfold create_kv_blob. change FDB_KV_NAME_MAX with 64. rewrite decide_False by lia.
  rewrite (new_hdr_eq key value 0 Hst). cbn [hdr_len]. apply wp_bind, wp_gets. cbv beta iota zeta delta [id].
  pose proof Hs as ((_&_&Hssz&_)&_). change (db_sec_size (kv_db s)) with (sec_size (parent (kv_db s))). rewrite Hssz.
  assert (0 < node_len key value) by (unfold node_len; lia).
  rewrite sector_hdr_size, u32_id by (unfold is_u32; lia). rewrite decide_False by lia.
  apply wp_bind. rewrite He. unfold FAILED_ADDR. rewrite decide_True by lia. apply wp_ret. cbv beta iota.
  rewrite decide_False by lia. apply wp_bind. eapply write_new_kv_runs; [done..|]. intros s1 T1 H1. apply wp_ret. by apply HQ.
Qed.

(** ** Replacing a KV without power *)

(** [n] bytes behind the header of a sector. *)
Definition in_sector (a n : Z) : Prop := FDB_ALIGN_DOWN a ssz + 16 <= a ∧ a + n <= FDB_ALIGN_DOWN a ssz + ssz.

(** Reading at [a] gives a whole KV. *)
Definition reads_as (m : Z → Z) (a : Z) (st : nat) (key value : list Z) : Prop :=
  ∀ s k kv, flash_is m k s → length (kv_name kv) = 64%nat →
    wp (read_kv device_table vprintf (set_addr_start a kv)) s (λ r s', r = (FDB_NO_ERR, node_kv st a key value (kv_name kv))).

Lemma reads_node m a st key value :
  mem_at m a (node_bytes st key value) → storable key value → (st < 6)%nat → 0 <= a → a + node_len key value <= size →
  Z.of_nat (length key) <= cap → reads_as m a st key value.
Proof. intros Hat Hs Hst Ha Hb Hc s k kv Hf Hn. eapply read_kv_runs; try done. Qed.

(** A later status programmed over a KV. *)
Lemma node_step m a st st' key value :
  (st ≤ st' < 6)%nat → mem_at m a (node_bytes st key value) →
  mem_at (burn1 m (a, status_byte st')) a (node_bytes st' key value).
Proof.
  intros Hst Hat. unfold node_bytes in *. rewrite node_hdr_split, <-app_assoc in *. cbn [app] in *.
  rewrite mem_at_lookup in *. intros i b Hb. unfold burn1. cbn [fst snd].
  destruct i as [|i].
  - injection Hb as <-. rewrite decide_True by lia. rewrite (Hat 0%nat (status_byte st)) by done. by apply status_byte_land; lia.
  - rewrite decide_False by lia. by apply (Hat (1 + i)%nat).
Qed.
Lemma node_steps seq m a st key value :
  (st < 6)%nat → Forall (λ ab, ab = (a, status_byte st) ∨ ¬ in_node a key value ab.1) seq →
  (∃ i, (i = FDB_KV_WRITE ∨ i = st) ∧ (i ≤ st)%nat ∧ mem_at m a (node_bytes i key value)) →
  ∃ i, (i = FDB_KV_WRITE ∨ i = st) ∧ (i ≤ st)%nat ∧ mem_at (burn seq m) a (node_bytes i key value).
Proof.
  intros Hst. revert m. induction seq as [|ab seq IH]; intros m Hf (i & Hi & Hle & Hat); [by exists i|].
  apply Forall_cons in Hf as [Hab Hf]. cbn [burn foldl]. apply IH; [done|]. destruct Hab as [-> | Hout].
  - exists st. split_and!; [by right|done|]. by apply (node_step _ _ i).
  - exists i. split_and!; [done|done|]. eapply mem_at_ext; [|exact Hat]. intros x Hx. unfold burn1.
    rewrite decide_False; [done|]. intros ->. apply Hout. unfold in_node. by rewrite <-(node_bytes_length i).
Qed.

Lemma sector_spot o n a : 0 < ssz → in_sector o n → 0 <= n → ∀ d, 0 <= d < 16 → ¬ (o <= FDB_ALIGN_DOWN a ssz + d < o + n).
Proof.
  intros Hss [H1 H2] Hn d Hd. unfold FDB_ALIGN_DOWN in *. intros Hx.
  destruct (Z.lt_trichotomy (o / ssz) (a / ssz)) as [H|[H|H]]; nia.
Qed.

(** The programmings of [replace_kv]; [h1] and [h2] say when the old KV's sector becomes dirty. *)
Definition replace_seq (sector : kvdb_sec_info) (o a : Z) (key value : list Z) (h1 h2 : bool) : list (Z * Z) :=
  (del_seq o (FDB_ALIGN_DOWN o ssz) false h1 ++ sector_seq sector (node_len key value)) ++
  node_seq a key value ++ del_seq o (FDB_ALIGN_DOWN o ssz) true h2.
Lemma replace_seq_length sector o a key value h1 h2 :
  Z.of_nat (length (replace_seq sector o a key value h1 h2)) <= 80 + 2 * node_len key value.
Proof.
  unfold replace_seq, del_seq, sector_seq, node_seq, node_len. pose proof (node_hdr_length 0 key value) as Hh.
  rewrite !length_app, !place_length, length_drop, Hh. cbn [length].
  destruct (sector_step _ _).1, h1, h2; rewrite ?place_length; cbn [length]; lia.
Qed.
Lemma replace_runs m k sector o a key old value kv s (Q : Z → K → Prop) :
  flash_is m k s → cur_sector (kv_db s) = sector → storable key old → storable key value →
  addr_start kv = o → sec_empty_kv sector = a → sec_addr sector = FDB_ALIGN_DOWN a ssz →
  0 <= o → o + node_len key old <= size → in_sector o (node_len key old) →
  0 <= a → a + node_len key value <= size → in_sector a (node_len key value) → 0 < ssz < 2 ^ 32 →
  (∀ h1 h2 s', issued m k (replace_seq sector o a key value h1 h2) s' → parent (kv_db s') = parent (kv_db s) →
     kv_cache_table (kv_db s') = update_kv_cache_crc (key_crc key) a (kv_cache_table (kv_db s)) →
     ((sector_step sector (node_len key value)).2 = false → gc_request (kv_db s') = gc_request (kv_db s)) → Q FDB_NO_ERR s') →
  wp (replace_kv key value (Z.of_nat (length value)) true kv) s Q.
Proof.
  intros Hs Hcs Hso Hsv Hko Hse Hsec Ho Hob Hoin Ha Hab Hain Hss HQ. unfold replace_kv.
  pose proof Hoin as [Ho1 Ho2]. pose proof Hain as [Ha1 Ha2]. pose proof Hso as (Hk&_).
  assert (24 < node_len key old ∧ 24 < node_len key value) as [Hno Hnv] by (destruct Hso as (_&_&?&?&_), Hsv as (_&_&?&?&_); unfold node_len; lia).
  assert (0 <= FDB_ALIGN_DOWN o ssz ∧ 0 <= FDB_ALIGN_DOWN a ssz) as [Hod Had].
  { unfold FDB_ALIGN_DOWN. pose proof (Z.div_pos o ssz). pose proof (Z.div_pos a ssz). nia. }
  apply issued_nil in Hs. apply wp_bind.
  eapply del_kv_runs; [exact Hs|done|lia|lia|rewrite Hko; lia|rewrite Hko; lia|]. intros h1 s1 (E1&L1&R1) _ H1. rewrite Hko in *.
  rewrite decide_True by done. apply wp_bind, wp_bind, wp_gets.
  assert (cur_sector (kv_db s1) = sector) as -> by (rewrite E1; by rewrite (proj2 (deleted_db_same _ _ _ _ _))).
  apply wp_bind. eapply create_runs; [exact H1|done|done|lia..|]. intros s2 (E2&L2&R2) H2. cbv beta iota.
  apply wp_bind, wp_kset, wp_ret. rewrite decide_True by done.
  eapply (issued_db _ _ _ _ _ _ _ _ _ _ (set_cur_sector sector (kv_db s2))) in H2; [|done].
  eapply del_kv_runs; [exact H2|done|rewrite ?Hko; lia..|]. intros h2 s3 (E3&L3&R3) _ H3. rewrite Hko in *. cbn [kv_db kv_fal log_is_show] in *.
  apply (HQ h1 h2).
  - unfold replace_seq. rewrite !app_nil_l, <-!app_assoc in H3. by rewrite <-!app_assoc.
  - rewrite E3, (proj1 (deleted_db_same _ _ _ _ _)). cbn [parent set_cur_sector]. rewrite E2, created_db_parent, E1.
    by rewrite (proj1 (deleted_db_same _ _ _ _ _)).
  - destruct (created_db_cache sector a key value (kv_db s1)) as (C1 & C2 & _).
    rewrite E3, E2, deleted_db_kept by (left; cbn [last_is_complete_del set_cur_sector]; rewrite C2, E1; apply deleted_db_last).
    cbn [kv_cache_table set_cur_sector]. rewrite C1, E1, deleted_db_kept; [done|by right].
  - intros Hst. destruct (created_db_cache sector a key value (kv_db s1)) as (_ & _ & C3).
    rewrite E3, deleted_db_gc. cbn [gc_request set_cur_sector]. by rewrite E2, C3, E1, deleted_db_gc.
Qed.
(** The spots outside of the two KVs that a replacement programs. *)
Definition replace_spots (sector : kvdb_sec_info) (o x : Z) : Prop := x = FDB_ALIGN_DOWN o ssz + 1 ∨ x = sec_addr sector.

Lemma del_seq_spots o (complete hit : bool) :
  Forall (λ ab : Z * Z, ab = (o, status_byte (if complete then FDB_KV_DELETED else FDB_KV_PRE_DELETE)) ∨ ab.1 = FDB_ALIGN_DOWN o ssz + 1)
    (del_seq o (FDB_ALIGN_DOWN o ssz) complete hit).
Proof.
  unfold del_seq. change SECTOR_DIRTY_OFFSET with 1. rewrite place_cons. cbn [place length seqZ zip app].
  constructor; [by left|]. destruct hit; [|constructor]. rewrite place_cons. constructor; [by right|constructor].
Qed.
Lemma sector_seq_spots sector len : Forall (λ ab : Z * Z, ab.1 = sec_addr sector) (sector_seq sector len).
Proof. unfold sector_seq. destruct (sector_step sector len).1; [|constructor]. rewrite place_cons. by repeat constructor. Qed.

Lemma take_app3 {A} k (l1 l2 l3 : list A) :
  (k < length l1 + length l2)%nat ∧ take k (l1 ++ l2 ++ l3) = take k l1 ++ take (k - length l1) l2 ∧
    (k - length l1 < length l2 ∨ length l2 = 0)%nat ∨
  (length l1 + length l2 ≤ k)%nat ∧ take k (l1 ++ l2 ++ l3) = l1 ++ l2 ++ take (k - length l1 - length l2) l3.
Proof.
  rewrite !take_app. destruct (decide (k < length l1 + length l2)%nat).
  - left. split; [done|]. replace (k - length l1 - length l2)%nat with 0%nat by lia. rewrite take_0, app_nil_r. split; [done|]. lia.
  - right. split; [lia|]. by rewrite (take_ge l1), (take_ge l2) by lia.
Qed.

Section Cut.
Context (m : Z → Z) (sector : kvdb_sec_info) (o a : Z) (key old value : list Z) (h1 h2 : bool).
Hypothesis (Hso : storable key old) (Hsv : storable key value) (Hsec : sec_addr sector = FDB_ALIGN_DOWN a ssz)
  (Hold : mem_at m o (node_bytes FDB_KV_WRITE key old)) (Hnew : erased_at m a (node_len key value))
  (Hoin : in_sector o (node_len key old)) (Hain : in_sector a (node_len key value)) (Hss : 0 < ssz)
  (Hdis : o + node_len key old <= a ∨ a + node_len key value <= o).

Lemma node_len_pos key' value' : 24 <= node_len key' value'.
Proof. unfold node_len. lia. Qed.
(** What is programmed around the new KV touches the old one's status only, and not the new one. *)
Lemma pre_apart (complete hit : bool) :
  Forall (λ ab : Z * Z, (ab = (o, status_byte (if complete then FDB_KV_DELETED else FDB_KV_PRE_DELETE)) ∨ ¬ in_node o key old ab.1) ∧
                ¬ in_node a key value ab.1)
    (del_seq o (FDB_ALIGN_DOWN o ssz) complete hit).
Proof.
  pose proof (node_len_pos key old). pose proof (node_len_pos key value).
  eapply Forall_impl; [apply del_seq_spots|]. intros ab [-> | Hab]; unfold in_node.
  - split; [by left|]. simpl. lia.
  - rewrite Hab. split; [right|]; apply sector_spot; done || lia.
Qed.
Lemma sector_apart len : Forall (λ ab : Z * Z, ¬ in_node o key old ab.1 ∧ ¬ in_node a key value ab.1) (sector_seq sector len).
Proof.
  pose proof (node_len_pos key old). pose proof (node_len_pos key value).
  eapply Forall_impl; [apply sector_seq_spots|]. intros ab Hab. rewrite Hab, Hsec. unfold in_node.
  rewrite <-(Z.add_0_r (FDB_ALIGN_DOWN a ssz)). split; apply sector_spot; done || lia.
Qed.
Lemma node_apart : Forall (λ ab : Z * Z, ¬ in_node o key old ab.1) (node_seq a key value).
Proof. eapply Forall_impl; [by apply node_seq_inside|]. intros ab. unfold in_node. lia. Qed.

(** The old KV stands, prepared for deletion or not, or the new one is complete. *)
Lemma cut_bytes k :
  let m' := burn (take k (replace_seq sector o a key value h1 h2)) m in
  ((m' a = status_byte FDB_KV_UNUSED ∨ m' a = status_byte FDB_KV_PRE_WRITE) ∧
    ∃ st, (st = FDB_KV_WRITE ∨ st = FDB_KV_PRE_DELETE) ∧ mem_at m' o (node_bytes st key old)) ∨
  mem_at m' a (node_bytes FDB_KV_WRITE key value).
Proof.
  intros m'. unfold replace_seq in m'. set (pre := del_seq o _ false h1 ++ sector_seq sector _) in m'.
  assert (Forall (λ ab : Z * Z, (ab = (o, status_byte FDB_KV_PRE_DELETE) ∨ ¬ in_node o key old ab.1) ∧ ¬ in_node a key value ab.1) pre) as Hpre.
  { apply Forall_app_2; [exact (pre_apart false h1)|]. eapply Forall_impl; [apply sector_apart|]. naive_solver. }
  apply Forall_and in Hpre as [Hpo Hpa].
  assert (∀ x, in_node a key value x → ∀ l, Forall (λ ab : Z * Z, ¬ in_node a key value ab.1) l → ∀ m, burn l m x = m x) as Hkeep.
  { intros x Hx l Hl m0. apply burn_outside. eapply Forall_impl; [exact Hl|]. intros ab Hab <-. by apply Hab. }
  pose proof (node_len_pos key value) as Hlen.
  destruct (take_app3 k pre (node_seq a key value) (del_seq o (FDB_ALIGN_DOWN o ssz) true h2)) as [(Hk & E & Hk2)|(Hk & E)];
    subst m'; rewrite E, ?burn_app.
  - left. set (m1 := burn (take k pre) m). assert (m1 a = 0xFF) as Hm1.
    { unfold m1. rewrite Hkeep by first [by apply Forall_take | unfold in_node; lia]. apply Hnew. lia. }
    assert (length (node_seq a key value) ≠ 0%nat) by done.
    split; [by apply node_seq_partial; [|done|lia]|].
    assert (∃ i, (i = FDB_KV_WRITE ∨ i = FDB_KV_PRE_DELETE) ∧ (i ≤ FDB_KV_PRE_DELETE)%nat ∧
      mem_at (burn (take (k - length pre) (node_seq a key value)) m1) o (node_bytes i key old)) as (i & Hi & _ & Hat); [|by exists i].
    apply node_steps; [unfold FDB_KV_PRE_DELETE; lia| |].
    + apply Forall_take. eapply Forall_impl; [apply node_apart|]. by right.
    + apply node_steps; [unfold FDB_KV_PRE_DELETE; lia|by apply Forall_take|].
      exists FDB_KV_WRITE. split_and!; [by left|unfold FDB_KV_WRITE, FDB_KV_PRE_DELETE; lia|done].
  - right. set (m1 := burn pre m).
    pose proof (pre_apart true h2) as Hpost. apply Forall_and in Hpost as [_ Hpost].
    eapply mem_at_ext; [|apply (node_seq_complete a key value m1); [done|]].
    + intros x Hx. symmetry. apply Hkeep; [|by apply Forall_take]. unfold in_node. by rewrite <-(node_bytes_length FDB_KV_WRITE).
    + intros x Hx. unfold m1. rewrite Hkeep by done. by apply Hnew.
Qed.
(** With the power for all of it the new KV is complete and the old one deleted. *)
Lemma whole_bytes k :
  (length (replace_seq sector o a key value h1 h2) ≤ k)%nat →
  let m' := burn (take k (replace_seq sector o a key value h1 h2)) m in
  mem_at m' a (node_bytes FDB_KV_WRITE key value) ∧ mem_at m' o (node_bytes FDB_KV_DELETED key old).
Proof.
  intros Hk m'. unfold m'. rewrite take_ge by done. unfold replace_seq. set (pre := del_seq o _ false h1 ++ sector_seq sector _).
  assert (Forall (λ ab : Z * Z, (ab = (o, status_byte FDB_KV_PRE_DELETE) ∨ ¬ in_node o key old ab.1) ∧ ¬ in_node a key value ab.1) pre) as Hpre.
  { apply Forall_app_2; [exact (pre_apart false h1)|]. eapply Forall_impl; [apply sector_apart|]. naive_solver. }
  apply Forall_and in Hpre as [Hpo Hpa].
  pose proof (pre_apart true h2) as Hpost. apply Forall_and in Hpost as [_ Hpost].
  rewrite !burn_app. set (m1 := burn pre m). set (m2 := burn (node_seq a key value) m1). split.
  - eapply mem_at_ext; [|apply (node_seq_complete a key value m1); [done|]].
    + intros x Hx. symmetry. apply burn_outside. eapply Forall_impl; [exact Hpost|]. intros ab Hab <-. apply Hab.
      unfold in_node. by rewrite <-(node_bytes_length FDB_KV_WRITE).
    + intros x Hx. unfold m1. rewrite burn_outside; [by apply Hnew|]. eapply Forall_impl; [exact Hpa|]. intros ab Hab <-. by apply Hab.
  - assert (∃ i, (i = FDB_KV_WRITE ∨ i = FDB_KV_PRE_DELETE) ∧ (i ≤ FDB_KV_PRE_DELETE)%nat ∧ mem_at m2 o (node_bytes i key old)) as (i & _ & Hi & Hat).
    { apply node_steps; [unfold FDB_KV_PRE_DELETE; lia|eapply Forall_impl; [apply node_apart|]; by right|].
      apply node_steps; [unfold FDB_KV_PRE_DELETE; lia|done|].
      exists FDB_KV_WRITE. split_and!; [by left|unfold FDB_KV_WRITE, FDB_KV_PRE_DELETE; lia|done]. }
    unfold del_seq. rewrite place_cons. change SECTOR_DIRTY_OFFSET with 1. cbn [place length seqZ zip app].
    change (burn (?x :: ?l) m2) with (burn l (burn1 m2 x)).
    apply mem_at_outside; [|apply (node_step m2 o i FDB_KV_DELETED); [unfold FDB_KV_DELETED, FDB_KV_PRE_DELETE in *; lia|done]].
    destruct h2; [|constructor]. rewrite place_cons. constructor; [|constructor]. cbn [fst]. rewrite node_bytes_length.
    pose proof (sector_spot o (node_len key old) o Hss Hoin ltac:(pose proof (node_len_pos key old); lia) 1 ltac:(lia)). lia.
Qed.
(** Everything else is as it was. *)
Lemma cut_others k x :
  ¬ in_node o key old x → ¬ in_node a key value x → ¬ replace_spots sector o x →
  burn (take k (replace_seq sector o a key value h1 h2)) m x = m x.
Proof.
  intros Ho Ha Hx. unfold replace_spots in Hx. apply burn_outside, Forall_take. unfold replace_seq.
  assert (∀ complete hit, Forall (λ ab : Z * Z, ab.1 ≠ x) (del_seq o (FDB_ALIGN_DOWN o ssz) complete hit)) as Hd.
  { intros complete hit. eapply Forall_impl; [apply del_seq_spots|]. intros ab [-> | Hab]; [|tauto || (intros <-; tauto)].
    cbn [fst]. intros <-. apply Ho. unfold in_node. pose proof (node_len_pos key old). lia. }
  apply Forall_app_2; [apply Forall_app_2; [apply Hd|]|apply Forall_app_2; [|apply Hd]].
  - eapply Forall_impl; [apply sector_seq_spots|]. intros ab Hab <-. tauto.
  - eapply Forall_impl; [by apply node_seq_inside|]. by intros ab Hab <-.
Qed.
End Cut.

(** C18. Replacing a stored value when the power may fail at any byte: whatever part of its programmings
    the flash still took, afterwards the old KV reads back whole, with its status still the written one or the one
    that recovery restores, and the new one is marked as not written, or the new KV reads back
    whole; nothing but the two KVs and the two sectors' status bytes changed; and with enough
    power the new value is stored and the old one marked as deleted. *)
Theorem replace_power_cut m k sector o a key old value kv s :
  flash_is m k s → cur_sector (kv_db s) = sector → storable key old → storable key value → Z.of_nat (length key) <= cap →
  addr_start kv = o → sec_empty_kv sector = a → sec_addr sector = FDB_ALIGN_DOWN a ssz →
  mem_at m o (node_bytes FDB_KV_WRITE key old) → erased_at m a (node_len key value) →
  0 <= o → o + node_len key old <= size → in_sector o (node_len key old) →
  0 <= a → a + node_len key value <= size → in_sector a (node_len key value) → 0 < ssz < 2 ^ 32 →
  o + node_len key old <= a ∨ a + node_len key value <= o →
  wp (replace_kv key value (Z.of_nat (length value)) true kv) s (λ r s', r = FDB_NO_ERR ∧ ∃ m' k', flash_is m' k' s' ∧
    (((m' a = status_byte FDB_KV_UNUSED ∨ m' a = status_byte FDB_KV_PRE_WRITE) ∧
      (reads_as m' o FDB_KV_WRITE key old ∨ reads_as m' o FDB_KV_PRE_DELETE key old)) ∨
     reads_as m' a FDB_KV_WRITE key value) ∧
    (∀ x, ¬ in_node o key old x → ¬ in_node a key value x → ¬ replace_spots sector o x → m' x = m x) ∧
    (80 + 2 * node_len key value <= Z.of_nat k →
     reads_as m' a FDB_KV_WRITE key value ∧ reads_as m' o FDB_KV_DELETED key old)).
Proof.
  intros Hs Hcs Hso Hsv Hc Hko Hse Hsec Hold Hnew Ho Hob Hoin Ha Hab Hain Hss Hdis.
  eapply (replace_runs m k sector o a key old); [done..|]. intros h1 h2 s' H' _ _ _. split; [done|].
  eexists _, _. split; [exact H'|]. split_and!.
  - destruct (cut_bytes m sector o a key old value h1 h2 Hsv Hsec Hold Hnew Hoin Hain ltac:(lia) Hdis k) as [[Hst (st & Hi & Hat)]|Hat].
    + left. split; [done|]. destruct Hi as [-> | ->]; [left|right]; (apply reads_node; try done; unfold FDB_KV_WRITE, FDB_KV_PRE_DELETE; lia).
    + right. apply reads_node; try done. unfold FDB_KV_WRITE. lia.
  - intros x Hx1 Hx2 Hx3. by apply (cut_others m sector o a key old value).
  - intros Hk. destruct (whole_bytes m sector o a key old value h1 h2 Hsv Hsec Hold Hnew Hoin Hain ltac:(lia) Hdis k) as [H1 H2].
    + pose proof (replace_seq_length sector o a key value h1 h2). lia.
    + split; (apply reads_node; try done; unfold FDB_KV_WRITE, FDB_KV_DELETED; lia).
Qed.
End Power.

(** ** A database in memory *)

Definition no_sector : kvdb_sec_info := mk_sec false 0 0 0 0 0 0 0.
Definition no_kv : fdb_kv := mk_kv 0 false 0 0 0 (replicate 64 0) 0 0.
(** Empty caches, an initialised database on the partition in sectors of 256 bytes. *)
Definition ram_db (sector : kvdb_sec_info) : fdb_kvdb ram :=
  mk_kvdb (mk_db "ram" (Some 0%nat) 256 4096 true false) false 0 None None [] false false no_kv sector false
    (replicate 64 (mk_node 0 0 FDB_DATA_UNUSED)) (replicate 8 (set_sec_addr FDB_DATA_UNUSED no_sector)).
Definition ram_state (m : Z → Z) (k : nat) (sector : kvdb_sec_info) : kv_state ram :=
  mk_ks (ram_db sector) (ram_fal (mk_ram m k)) false.
Lemma ram_is m k sector :
  (∀ a, is_u8 (m a)) → flash_is 0 ram_size ram_good ram_cell ram_power 256 m k (ram_state m k sector).
Proof. intros Hm. split_and!; try done. intros a. by apply u8_id. Qed.

(** A flash that holds the one-byte value 1 of the key "a" behind the header of its first sector. *)
Definition demo_mem : Z → Z := programmed 16 (node_bytes FDB_KV_WRITE [97] [1]) (λ _, 0xFF).
Definition demo_sector : kvdb_sec_info :=
  mk_sec true FDB_SECTOR_STORE_USING FDB_SECTOR_DIRTY_FALSE 0 SECTOR_MAGIC_WORD SECTOR_NOT_COMBINED 214 42.
Lemma demo_storable v : is_u8 v → storable [97] [v].
Proof. intros Hv. split_and!; try (cbn; lia); repeat constructor; unfold is_u8 in *; lia. Qed.
Lemma demo_bytes a : is_u8 (demo_mem a).
Proof.
  unfold demo_mem. rewrite <-u8_programmed; [apply u8_range|]. intros x. split; lia.
Qed.
Lemma demo_node : mem_at demo_mem 16 (node_bytes FDB_KV_WRITE [97] [1]).
Proof.
  unfold demo_mem. eapply mem_at_ext; [intros x _; apply burn_place|].
  apply burn_erased; [by intros x _|]. apply Forall_app_2; [apply node_hdr_u8, demo_storable; split; lia|].
  repeat constructor; unfold is_u8; lia.
Qed.
Lemma replace_power_cut_witness :
  let kv := set_addr_start 16 no_kv in
  let s := ram_state demo_mem 40 demo_sector in
  let reads := reads_as ram_devices ram_print 0 ram_size ram_good ram_cell ram_power 256 in
  wp (replace_kv ram_devices ram_print "fdb_kvdb.c" no_sector no_kv [97] [2] 1 true kv) s (λ r s', r = FDB_NO_ERR ∧ ∃ m' k',
    flash_is 0 ram_size ram_good ram_cell ram_power 256 m' k' s' ∧
    (((m' 42 = status_byte FDB_KV_UNUSED ∨ m' 42 = status_byte FDB_KV_PRE_WRITE) ∧
      (reads m' 16 FDB_KV_WRITE [97] [1] ∨ reads m' 16 FDB_KV_PRE_DELETE [97] [1])) ∨
     reads m' 42 FDB_KV_WRITE [97] [2]) ∧
    (∀ x, ¬ in_node 16 [97] [1] x → ¬ in_node 42 [97] [2] x → ¬ replace_spots 256 demo_sector 16 x → m' x = demo_mem x) ∧
    (80 + 2 * node_len [97] [2] <= Z.of_nat 40 →
     reads m' 42 FDB_KV_WRITE [97] [2] ∧ reads m' 16 FDB_KV_DELETED [97] [1])).
Proof.
  intros kv s reads.
  refine (replace_power_cut ram_devices ram_print "fdb_kvdb.c" no_sector no_kv 0 ram_size ram_size ram_blk ram_good ram_cell ram_power
    (λ _, true) 256 demo_mem 40 demo_sector 16 42 [97] [1] [2] kv s (ram_is _ _ _ demo_bytes) eq_refl (demo_storable 1 _) (demo_storable 2 _)
    _ eq_refl eq_refl eq_refl demo_node _ _ _ _ _ _ _ _ _);
    unfold ram_size, in_sector, node_len, is_u8; try (by vm_compute); try (cbn; lia).
  intros x Hx. unfold demo_mem, programmed. rewrite node_bytes_length. unfold node_len in *. cbn [length] in *. by rewrite decide_False by lia.
Defined.
