(* ===== verification/KvCache.v ===== *)
(** * The cache of KVs as a bounded map

    [update_kv_cache] of src/src/flashdb/src/fdb_kvdb.c keeps the address of a KV under the 16-bit
    checksum of its name.  The table is a map of at most 64 entries: a change sets or removes
    one checksum, and at most one other, a least active one of a full table, is lost. *)
From S2P Require Import Prelude FdbUtils KvData.

Definition live (n : kv_cache_node) : Prop := node_addr n ≠ FDB_DATA_UNUSED.
#[export] Instance live_dec n : Decision (live n).
Proof. unfold live. apply _. Defined.
(** The address kept for a checksum. *)
Definition cached (table : list kv_cache_node) (crc : Z) : option Z :=
  '(_, n) ← list_find (λ n, name_crc n = crc ∧ live n) table; Some (node_addr n).
(** Behind an entry no live one has its checksum; the degrees of activity have 16 bits. *)
Definition cache_ok (table : list kv_cache_node) : Prop :=
  length table = FDB_KV_CACHE_TABLE_SIZE ∧
  (∀ i j n n', (i < j)%nat → table !! i = Some n → table !! j = Some n' → name_crc n = name_crc n' → ¬ live n') ∧
  ∀ i n, table !! i = Some n → 0 <= active n <= 0xFFFF.

(** What a pass over an entry that is not the one wanted does to it. *)
Definition aged (n : kv_cache_node) : kv_cache_node :=
  if decide (live n) then if decide (active n > 0) then set_active (active n - 1) n else n else n.
Lemma aged_crc n : name_crc (aged n) = name_crc n.
Proof. unfold aged. by repeat case_decide. Qed.
Lemma aged_addr n : node_addr (aged n) = node_addr n.
Proof. unfold aged. by repeat case_decide. Qed.
Lemma aged_live n : live (aged n) ↔ live n.
Proof. unfold live. by rewrite aged_addr. Qed.
Lemma aged_active n : 0 <= active n <= 0xFFFF → 0 <= active (aged n) <= 0xFFFF ∧ (live n → active (aged n) < 0xFFFF).
Proof. unfold aged. repeat case_decide; simpl; (split; [lia|intros ?; lia || done]). Qed.

(** ** The pass *)

(** The entry it stops at, when one has the checksum. *)
Lemma scan_found crc addr todo k n : ∀ i e m mn,
  addr ≠ FDB_DATA_UNUSED → todo !! k = Some n → name_crc n = crc →
  (∀ j n', (j < k)%nat → todo !! j = Some n' → name_crc n' ≠ crc) →
  kv_cache_scan todo i crc addr e m mn = ((aged <$> take k todo) ++ set_node_addr addr n :: drop (1 + k) todo, None).
Proof.
  revert k. induction todo as [|n0 todo IH]; intros k i e m mn Ha Hk Hc Hb; [done|]. cbn [kv_cache_scan].
  rewrite decide_True by done. destruct k as [|k].
  - injection Hk as ->. by rewrite decide_True by done.
  - rewrite decide_False by (apply (Hb 0%nat); [lia|done]).
    assert (∀ i e m mn, kv_cache_scan todo i crc addr e m mn =
      ((aged <$> take k todo) ++ set_node_addr addr n :: drop (1 + k) todo, None)) as IH'.
    { intros. apply IH; [done|done|done|]. intros j n' Hj. apply (Hb (1 + j)%nat). lia. }
    cbn [take fmap list_fmap drop app Nat.add].
    destruct (decide (live n0)) as [Hl|Hl]; unfold aged at 1; unfold live in *.
    + rewrite decide_False by tauto. rewrite !(decide_True (P := node_addr n0 ≠ FDB_DATA_UNUSED)) by done.
      case_decide; case_decide; by rewrite IH'.
    + rewrite !(decide_False (P := node_addr n0 ≠ FDB_DATA_UNUSED)) by done. case_decide; by rewrite IH'.
Qed.
(** The free entry [e'] and the least active one [m'] that a pass over [todo] from entry [i] on leaves. *)
Definition passed (i e m : nat) (mn : Z) (todo : list kv_cache_node) (e' m' : nat) (mn' : Z) : Prop :=
  ((e < FDB_KV_CACHE_TABLE_SIZE)%nat ∧ e' = e ∨
   e = FDB_KV_CACHE_TABLE_SIZE ∧
     ((e' = FDB_KV_CACHE_TABLE_SIZE ∧ Forall live todo) ∨ ∃ k n, todo !! k = Some n ∧ ¬ live n ∧ e' = (i + k)%nat)) ∧
  mn' <= mn ∧ Forall (λ n, live n → mn' <= active (aged n)) todo ∧
  (m' = m ∧ mn' = mn ∨ ∃ k n, todo !! k = Some n ∧ live n ∧ m' = (i + k)%nat ∧ active (aged n) = mn').
Lemma passed_live i e m mn m1 mn1 n0 todo e' m' mn' :
  live n0 → (m1 = i ∧ mn1 = active (aged n0) ∧ mn1 <= mn ∨ m1 = m ∧ mn1 = mn ∧ mn <= active (aged n0)) →
  passed (1 + i) e m1 mn1 todo e' m' mn' → passed i e m mn (n0 :: todo) e' m' mn'.
Proof.
  intros Hl Hm (He & Hle & Hall & Hm'). split_and!.
  - destruct He as [?|(-> & [[-> Hall']|(k & n & Hk & Hn & ->)])]; [by left|right|right]; (split; [done|]).
    + left. split; [done|]. by constructor.
    + right. exists (1 + k)%nat, n. split_and!; [done|done|lia].
  - lia.
  - constructor; [lia|done].
  - destruct Hm' as [[-> ->]|(k & n & Hk & Hn & -> & Ha)].
    + destruct Hm as [(-> & -> & _)|(-> & -> & _)]; [right|by left]. exists 0%nat, n0. split_and!; try done; lia.
    + right. exists (1 + k)%nat, n. split_and!; try done; lia.
Qed.
Lemma passed_dead i e e1 m mn n0 todo e' m' mn' :
  ¬ live n0 → ((e < FDB_KV_CACHE_TABLE_SIZE)%nat ∧ e1 = e ∨ e = FDB_KV_CACHE_TABLE_SIZE ∧ e1 = i ∧ (i < FDB_KV_CACHE_TABLE_SIZE)%nat) →
  passed (1 + i) e1 m mn todo e' m' mn' → passed i e m mn (n0 :: todo) e' m' mn'.
Proof.
  intros Hl He1 (He & Hle & Hall & Hm'). split_and!; [|done|by constructor|].
  - destruct He1 as [[? ->]|(-> & -> & ?)]; [left; destruct He as [?|[? _]]; [done|lia]|right].
    split; [done|right]. exists 0%nat, n0. split_and!; [done|done|]. destruct He as [[_ ->]|[? _]]; lia.
  - destruct Hm' as [?|(k & n & Hk & Hn & -> & Ha)]; [by left|right]. exists (1 + k)%nat, n. split_and!; try done; lia.
Qed.
(** No entry has the checksum. *)
Lemma scan_missed crc addr todo : ∀ i e m mn,
  addr ≠ FDB_DATA_UNUSED → (i + length todo ≤ FDB_KV_CACHE_TABLE_SIZE)%nat → (e ≤ FDB_KV_CACHE_TABLE_SIZE)%nat →
  Forall (λ n, name_crc n ≠ crc) todo →
  ∃ e' m' mn', kv_cache_scan todo i crc addr e m mn = (aged <$> todo, Some (e', m')) ∧ passed i e m mn todo e' m' mn'.
Proof.
  induction todo as [|n0 todo IH]; intros i e m mn Ha Hi He Hb.
  { exists e, m, mn. split; [done|]. split_and!; [|done|done|by left].
    destruct (decide (e = FDB_KV_CACHE_TABLE_SIZE)); [right|left; lia]. by auto. }
  apply Forall_cons in Hb as [Hb0 Hb]. cbn [kv_cache_scan length] in *. rewrite decide_True, decide_False by done.
  assert (∀ n e1 m1 mn1, n = aged n0 → (e1 ≤ FDB_KV_CACHE_TABLE_SIZE)%nat →
    (∀ e' m' mn', passed (1 + i) e1 m1 mn1 todo e' m' mn' → passed i e m mn (n0 :: todo) e' m' mn') →
    ∃ e' m' mn', (let '(done0, r) := kv_cache_scan todo (1 + i) crc addr e1 m1 mn1 in (n :: done0, r)) =
      (aged <$> n0 :: todo, Some (e', m')) ∧ passed i e m mn (n0 :: todo) e' m' mn') as Hnext.
  { intros n e1 m1 mn1 -> He1 Hp. destruct (IH (1 + i)%nat e1 m1 mn1) as (e' & m' & mn' & -> & ?); [done|lia|done|done|].
    exists e', m', mn'. split; [done|]. by apply Hp. }
  destruct (decide (live n0)) as [Hl|Hl].
  - pose proof Hl as Hl'. unfold live in Hl'. rewrite decide_False by tauto. rewrite decide_True by done.
    assert ((if decide (active n0 > 0) then set_active (active n0 - 1) n0 else n0) = aged n0) as ->.
    { unfold aged. by rewrite (decide_True (P := live n0)) by done. }
    case_decide; apply Hnext; try done; intros e' m' mn'; (apply passed_live; [done|]); [left|right]; split_and!; (done || lia).
  - assert (n0 = aged n0) as Hage by (unfold aged; by rewrite decide_False by done).
    assert (node_addr n0 = FDB_DATA_UNUSED) as Hu by (by apply dec_stable).
    case_decide as Hcase.
    + destruct Hcase as [_ ->]. apply Hnext; [done|lia|]. intros e' m' mn'. apply passed_dead; [done|]. right. split_and!; [done|done|lia].
    + rewrite decide_False by (by intros ?). apply Hnext; [done|done|]. intros e' m' mn'. apply passed_dead; [done|]. left.
      split; [|done]. destruct (decide (e = FDB_KV_CACHE_TABLE_SIZE)); [tauto|lia].
Qed.
(** Removing a checksum touches nothing but the first entry that has it. *)
Lemma scan_removed crc todo : ∀ i e m mn,
  kv_cache_scan todo i crc FDB_DATA_UNUSED e m mn =
  match list_find (λ n, name_crc n = crc) todo with
  | Some (k, n) => (<[k := mk_node crc 0 FDB_DATA_UNUSED]> todo, None)
  | None => (todo, Some (e, m))
  end.
Proof.
  induction todo as [|n0 todo IH]; intros i e m mn; [done|]. cbn [kv_cache_scan list_find].
  rewrite (decide_False (P := FDB_DATA_UNUSED ≠ FDB_DATA_UNUSED)) by (by intros []).
  destruct (decide (name_crc n0 = crc)) as [<-|Hc]; [done|]. rewrite IH. by destruct (list_find _ todo) as [[k n]|].
Qed.

(** ** The map *)

Lemma cached_spec table crc a :
  cache_ok table → cached table crc = Some a ↔ ∃ i n, table !! i = Some n ∧ name_crc n = crc ∧ live n ∧ node_addr n = a.
Proof.
  intros (_ & Hok & _). unfold cached. destruct (list_find _ table) as [[i n]|] eqn:E.
  - apply list_find_Some in E as (Hi & [Hc Hl] & Hb). split; [intros [= <-]; by exists i, n|].
    intros (j & n' & Hj & Hc' & Hl' & <-). destruct (Nat.lt_trichotomy i j) as [Hlt|[<-|Hlt]].
    + exfalso. by apply (Hok i j n n'); rewrite ?Hc, ?Hc'.
    + simpl. congruence.
    + by destruct (Hb _ _ Hj Hlt).
  - split; [done|]. intros (i & n & Hi & Hc & Hl & _). apply list_find_None in E. rewrite Forall_lookup in E. by destruct (E _ _ Hi).
Qed.
(** Tables that differ in the degrees of activity only. *)
Definition alike (t t' : list kv_cache_node) : Prop :=
  Forall2 (λ n n', name_crc n' = name_crc n ∧ node_addr n' = node_addr n ∧ 0 <= active n' <= 0xFFFF) t t'.
Lemma alike_lookup t t' i n' :
  alike t t' → t' !! i = Some n' → ∃ n, t !! i = Some n ∧ name_crc n' = name_crc n ∧ (live n' ↔ live n) ∧ 0 <= active n' <= 0xFFFF.
Proof.
  intros H Hi. destruct (Forall2_lookup_r _ _ _ _ _ H Hi) as (n & Hn & Hc & Ha & Hb). exists n. unfold live. rewrite Ha. split_and!; (done || lia).
Qed.
Lemma alike_ok t t' : alike t t' → cache_ok t → cache_ok t'.
Proof.
  intros H (Hl & Hok & Hact). split; [by rewrite <-(Forall2_length _ _ _ H)|split].
  - intros i j n1 n2 Hij H1 H2 Hc. destruct (alike_lookup _ _ _ _ H H1) as (m1 & M1 & C1 & _). destruct (alike_lookup _ _ _ _ H H2) as (m2 & M2 & C2 & L2 & _).
    rewrite L2. apply (Hok i j m1 m2); congruence.
  - intros i n Hi. by destruct (alike_lookup _ _ _ _ H Hi) as (m & _ & _ & _ & ?).
Qed.
Lemma alike_cached t t' c : alike t t' → cached t' c = cached t c.
Proof.
  intros H. unfold cached. induction H as [|n n' t t' (Hc & Ha & _) _ IH]; [done|]. cbn [list_find].
  assert (live n' ↔ live n) as Hl by (unfold live; by rewrite Ha).
  destruct (decide (name_crc n = c ∧ live n)) as [Hd|Hd]; [rewrite decide_True by (rewrite Hc; tauto)|rewrite decide_False by (rewrite Hc; tauto)].
  - cbn. by rewrite Ha.
  - by destruct (list_find _ t) as [[??]|], (list_find _ t') as [[??]|].
Qed.
Lemma aged_alike table : cache_ok table → alike table (aged <$> table).
Proof.
  intros (_ & _ & Hact). apply Forall2_fmap_r, Forall_Forall2_diag, Forall_lookup. intros i n Hi.
  unfold compose. rewrite aged_crc, aged_addr. destruct (aged_active n (Hact _ _ Hi)). split_and!; (done || lia).
Qed.
(** One entry replaced by [n], which no other live entry shares its checksum with. *)
Lemma cached_insert table i old n :
  cache_ok table → table !! i = Some old → live n → 0 <= active n <= 0xFFFF →
  (∀ j n', table !! j = Some n' → name_crc n' = name_crc n → (i ≤ j)%nat) → (name_crc old = name_crc n ∨ ∀ j n', table !! j = Some n' → name_crc n' ≠ name_crc n) →
  cache_ok (<[i := n]> table) ∧ cached (<[i := n]> table) (name_crc n) = Some (node_addr n) ∧
  ∀ c, c ≠ name_crc n → cached (<[i := n]> table) c = if decide (name_crc old = c ∧ live old) then None else cached table c.
Proof.
  intros Hok Hold Hl Hact Hbefore Hafter. pose proof Hok as (Hlen & Hdup & Hacts).
  assert (∀ j n', table !! j = Some n' → (i < j)%nat → name_crc n' = name_crc n → ¬ live n') as Hbehind.
  { intros j n' Hj Hij Hc. destruct Hafter as [He|Hn]; [|by destruct (Hn j n')]. apply (Hdup i j old n'); [done|done|done|congruence]. }
  assert (cache_ok (<[i := n]> table)) as Hok'.
  { split; [by rewrite length_insert|split].
    - intros j k n1 n2 Hjk H1 H2 Hc. apply list_lookup_insert_Some in H1 as [(<- & <- & _)|[? H1]], H2 as [(<- & <- & _)|[? H2]].
      + lia.
      + by apply (Hbehind k n2).
      + assert (i ≤ j)%nat by (by eapply Hbefore). lia.
      + by apply (Hdup j k n1 n2).
    - intros j n' Hj. apply list_lookup_insert_Some in Hj as [(_ & <- & _)|[_ Hj]]; [done|by eapply Hacts]. }
  split; [done|]. assert (i < length table)%nat by (by eapply lookup_lt_Some). split.
  - apply cached_spec; [done|]. exists i, n. by rewrite list_lookup_insert_eq.
  - intros c Hc. apply option_eq. intros a. rewrite cached_spec by done. split.
    + intros (j & n' & Hj & Hc' & Hl' & Ha). apply list_lookup_insert_Some in Hj as [(_ & <- & _)|[Hne Hj]]; [congruence|].
      rewrite decide_False; [apply cached_spec; [done|by exists j, n']|]. intros [Hco Hlo].
      destruct (Nat.lt_trichotomy i j) as [Hlt|[?|Hlt]]; [|done|].
      * apply (Hdup i j old n' Hlt Hold Hj); congruence.
      * apply (Hdup j i n' old Hlt Hj Hold); congruence.
    + case_decide as Hd; [done|]. rewrite cached_spec by done. intros (j & n' & Hj & Hc' & Hl' & Ha).
      destruct (decide (i = j)) as [<-|Hne]; [destruct Hd; split; congruence|].
      exists j, n'. by rewrite list_lookup_insert_ne.
Qed.

(** What putting [addr] under [crc] does: the others keep their addresses but for a [victim], which a full table without [crc]
    gives up, the first of the least active after the ageing. *)
Definition put_spec (table : list kv_cache_node) (crc addr : Z) (table' : list kv_cache_node) : Prop :=
  cache_ok table' ∧ cached table' crc = Some addr ∧ ∃ victim,
    (∀ c, c ≠ crc → cached table' c = if decide (victim = Some c) then None else cached table c) ∧
    ∀ v, victim = Some v → Forall (λ n, live n ∧ name_crc n ≠ crc) table ∧
      ∃ i n, table !! i = Some n ∧ name_crc n = v ∧ Forall (λ n', active (aged n) <= active (aged n')) table.
Lemma put_alike table t1 i old crc addr n :
  cache_ok table → alike table t1 → table !! i = Some old → live n → name_crc n = crc → node_addr n = addr → 0 <= active n <= 0xFFFF →
  (∀ j n', table !! j = Some n' → name_crc n' = crc → (i ≤ j)%nat) → (name_crc old = crc ∨ ∀ j n', table !! j = Some n' → name_crc n' ≠ crc) →
  let table' := <[i := n]> t1 in
  cache_ok table' ∧ cached table' crc = Some addr ∧
  ∀ c, c ≠ crc → cached table' c = if decide (name_crc old = c ∧ live old) then None else cached table c.
Proof.
  intros Hok Ht Hold Hl <- <- Hact Hb Ha table'.
  destruct (Forall2_lookup_l _ _ _ _ _ Ht Hold) as (old' & Hold' & Hc & Hadr & _).
  assert (∀ j n', t1 !! j = Some n' → ∃ n0, table !! j = Some n0 ∧ name_crc n' = name_crc n0) as Hback.
  { intros j n' Hj. destruct (alike_lookup _ _ _ _ Ht Hj) as (n0 & ? & ? & _). by exists n0. }
  destruct (cached_insert t1 i old' n) as (H1 & H2 & H3); [by eapply alike_ok|done|done|done| | |].
  - intros j n' Hj Hcj. destruct (Hback _ _ Hj) as (n0 & H0 & E). apply (Hb j n0 H0). congruence.
  - destruct Ha as [He|Hn]; [left; congruence|right]. intros j n' Hj. destruct (Hback _ _ Hj) as (n0 & H0 & E). rewrite E. by eapply Hn.
  - split_and!; [done|done|]. intros c Hcn. rewrite H3, (alike_cached table t1) by done.
    destruct (decide (name_crc old' = c ∧ live old')) as [Hd|Hd], (decide (name_crc old = c ∧ live old)) as [Hd'|Hd']; try done;
      unfold live in *; rewrite Hc, Hadr in *; tauto.
Qed.
Lemma put_found table crc addr k n :
  cache_ok table → addr ≠ FDB_DATA_UNUSED → list_find (λ n, name_crc n = crc) table = Some (k, n) →
  put_spec table crc addr (update_kv_cache_crc crc addr table).
Proof.
  intros Hok Ha E. pose proof Hok as (Hlen & Hdup & Hact). unfold update_kv_cache_crc.
  apply list_find_Some in E as (Hk & Hc & Hb).
  assert (∀ j n', (j < k)%nat → table !! j = Some n' → name_crc n' ≠ crc) as Hb' by (intros; by eapply Hb).
  rewrite (scan_found crc addr table k n) by done.
  set (t1 := (aged <$> take k table) ++ drop k table).
  assert (alike table t1) as Ht1.
  { unfold t1, alike. rewrite <-(take_drop k table) at 1. apply Forall2_app.
    - pose proof (aged_alike table Hok) as H. apply (Forall2_take _ _ _ k) in H. by rewrite <-fmap_take in H.
    - apply Forall_Forall2_diag, Forall_lookup. intros i n' Hi. rewrite lookup_drop in Hi. by pose proof (Hact _ _ Hi). }
  assert (length (aged <$> take k table) = k) as Hlk.
  { rewrite length_fmap, length_take. apply lookup_lt_Some in Hk. lia. }
  assert ((aged <$> take k table) ++ set_node_addr addr n :: drop (1 + k) table = <[k := set_node_addr addr n]> t1) as ->.
  { unfold t1. rewrite insert_app_r_alt by lia. rewrite Hlk, Nat.sub_diag, (drop_S table n k) by done. done. }
  destruct (put_alike table t1 k n crc addr (set_node_addr addr n)) as (H1 & H2 & H3); try done.
  { by apply (Hact k n). }
  { intros j n' Hj Hcj. destruct (decide (j < k)%nat); [|lia]. by destruct (Hb' j n'). }
  { by left. }
  split_and!; [done|done|]. exists None. split; [|done]. intros c Hcn. rewrite H3 by done.
  rewrite decide_False by (intros [? _]; congruence). done.
Qed.
Lemma put_missed table crc addr :
  cache_ok table → addr ≠ FDB_DATA_UNUSED → list_find (λ n, name_crc n = crc) table = None →
  put_spec table crc addr (update_kv_cache_crc crc addr table).
Proof.
  intros Hok Ha E. pose proof Hok as (Hlen & Hdup & Hact). unfold update_kv_cache_crc.
  apply list_find_None in E. pose proof E as Hmiss. rewrite Forall_lookup in Hmiss.
  destruct (scan_missed crc addr table 0 FDB_KV_CACHE_TABLE_SIZE FDB_KV_CACHE_TABLE_SIZE 0xFFFF) as (e' & m' & mn' & -> & He & _ & Hmin & Hm);
    [done|lia|done|done|].
  assert (∀ k n, table !! k = Some n → let t' := <[k := mk_node crc (Z.of_nat FDB_KV_CACHE_TABLE_SIZE) addr]> (aged <$> table) in
    cache_ok t' ∧ cached t' crc = Some addr ∧ ∀ c, c ≠ crc → cached t' c = if decide (name_crc n = c ∧ live n) then None else cached table c) as Hput.
  { intros k n Hk. apply put_alike; try done; [by apply aged_alike| |by right].
    intros j n' Hj Hcj. by destruct (Hmiss j n'). }
  destruct He as [[? _]|[_ [[-> Hlive]|(k & n & Hk & Hn & ->)]]]; [unfold FDB_KV_CACHE_TABLE_SIZE in *; lia| |].
  + rewrite decide_False by lia. rewrite Forall_lookup in Hmin, Hlive.
    destruct Hm as [[-> ->]|(k & n & Hk & Hn & -> & Hmn)].
    { destruct (lookup_lt_is_Some_2 table 0) as [n Hn]; [rewrite Hlen; unfold FDB_KV_CACHE_TABLE_SIZE; lia|].
      pose proof (Hmin _ _ Hn (Hlive _ _ Hn)). pose proof (proj2 (aged_active n (Hact _ _ Hn)) (Hlive _ _ Hn)). lia. }
    pose proof (lookup_lt_Some _ _ _ Hk). rewrite decide_True by (simpl; lia). destruct (Hput k n Hk) as (H1 & H2 & H3).
    split_and!; [done|done|]. exists (Some (name_crc n)). split.
    * intros c Hc. rewrite H3 by done. destruct (decide (Some (name_crc n) = Some c)) as [[= Hv]|Hv].
      -- by rewrite decide_True.
      -- rewrite decide_False by (intros [? _]; congruence). done.
    * intros v [= <-]. split; [apply Forall_lookup; intros i n' Hi; split; [by eapply Hlive|by eapply Hmiss]|].
      exists k, n. split_and!; [done|done|]. apply Forall_lookup. intros i n' Hi. rewrite Hmn. by eapply Hmin; [|eapply Hlive].
  + pose proof (lookup_lt_Some _ _ _ Hk). rewrite decide_True by (simpl; lia). destruct (Hput k n Hk) as (H1 & H2 & H3).
    split_and!; [done|done|]. exists None. split; [|done]. intros c Hc. rewrite H3 by done. by rewrite decide_False by (by intros [_ ?]).
Qed.
Lemma put_runs table crc addr :
  cache_ok table → addr ≠ FDB_DATA_UNUSED → put_spec table crc addr (update_kv_cache_crc crc addr table).
Proof.
  intros Hok Ha. destruct (list_find (λ n, name_crc n = crc) table) as [[k n]|] eqn:E; [by eapply put_found|by apply put_missed].
Qed.
Lemma remove_runs table crc :
  cache_ok table → let table' := update_kv_cache_crc crc FDB_DATA_UNUSED table in
  cache_ok table' ∧ cached table' crc = None ∧ ∀ c, c ≠ crc → cached table' c = cached table c.
Proof.
  intros Hok. pose proof Hok as (Hlen & Hdup & Hact). unfold update_kv_cache_crc. cbv zeta. rewrite scan_removed.
  destruct (list_find _ table) as [[k n]|] eqn:E.
  - apply list_find_Some in E as (Hk & Hc & Hb). set (dead := mk_node crc 0 FDB_DATA_UNUSED).
    assert (∀ j n', <[k := dead]> table !! j = Some n' → live n' → table !! j = Some n' ∧ j ≠ k) as Hlive.
    { intros j n' Hj Hl. apply list_lookup_insert_Some in Hj as [(_ & <- & _)|[? Hj]]; [by destruct Hl|done]. }
    assert (cache_ok (<[k := dead]> table)) as Hok'.
    { split; [by rewrite length_insert|split].
      - intros i j n1 n2 Hij H1 H2 Hcc Hl. destruct (Hlive _ _ H2 Hl) as [H2' ?].
        apply list_lookup_insert_Some in H1 as [(<- & <- & _)|[? H1]]; [|by apply (Hdup i j n1 n2)].
        apply (Hdup k j n n2); try done. by rewrite Hc.
      - intros i n' Hi. apply list_lookup_insert_Some in Hi as [(_ & <- & _)|[_ Hi]]; [done|by eapply Hact]. }
    split_and!; [done| |].
    + apply eq_None_not_Some. intros [a Hs]. apply cached_spec in Hs as (j & n' & Hj & Hcj & Hl & _); [|done].
      destruct (Hlive _ _ Hj Hl) as [Hj' Hne]. destruct (decide (j < k)%nat) as [Hlt|Hge]; [by destruct (Hb j n' Hj' Hlt)|].
      apply (Hdup k j n n'); try done; [lia|congruence].
    + intros c Hcn. apply option_eq. intros a. rewrite !cached_spec by done. split; intros (j & n' & Hj & Hcj & Hl & Hadr); exists j, n'.
      * by destruct (Hlive _ _ Hj Hl).
      * rewrite list_lookup_insert_ne; [done|]. intros ->. congruence.
  - rewrite !decide_False by lia. split_and!; [done| |done]. apply list_find_None in E. rewrite Forall_lookup in E.
    apply eq_None_not_Some. intros [a Hs]. apply cached_spec in Hs as (j & n' & Hj & Hcj & _); [|done]. by destruct (E _ _ Hj).
Qed.

(** C20. The cache is a map of bounded size from checksums to addresses.  From a well-formed table, putting an address leaves a
    well-formed table that has it, and every other checksum keeps its address but for at most one: the first of the least
    active entries, when no entry was free.  Removing a checksum removes it and nothing else. *)
Theorem kv_cache_map table crc addr :
  cache_ok table → addr ≠ FDB_DATA_UNUSED →
  put_spec table crc addr (update_kv_cache_crc crc addr table) ∧
  let table' := update_kv_cache_crc crc FDB_DATA_UNUSED table in
  cache_ok table' ∧ cached table' crc = None ∧ ∀ c, c ≠ crc → cached table' c = cached table c.
Proof. intros Hok Ha. split; [by apply put_runs|by apply remove_runs]. Qed.

(** A full table, and one more checksum: the first entry goes. *)
Definition full_table : list kv_cache_node := (λ i, mk_node i 64 i) <$> seqZ 0 64.
Lemma full_entry i n : full_table !! i = Some n → n = mk_node (Z.of_nat i) 64 (Z.of_nat i) ∧ (i < 64)%nat.
Proof.
  unfold full_table. rewrite list_lookup_fmap, fmap_Some. intros (x & Hx & ->). apply lookup_seqZ in Hx as [-> Hi].
  split; [done|lia].
Qed.
Lemma full_table_ok : cache_ok full_table.
Proof.
  split; [done|split].
  - intros i j n n' Hij Hi Hj Hc. apply full_entry in Hi as [-> _], Hj as [-> _]. cbn in Hc. lia.
  - intros i n Hi. apply full_entry in Hi as [-> _]. cbn. lia.
Qed.
Lemma kv_cache_map_witness :
  put_spec full_table 100 4096 (update_kv_cache_crc 100 4096 full_table) ∧
  (let table' := update_kv_cache_crc 100 FDB_DATA_UNUSED full_table in
   cache_ok table' ∧ cached table' 100 = None ∧ ∀ c, c ≠ 100 → cached table' c = cached full_table c) ∧
  cached (update_kv_cache_crc 100 4096 full_table) 0 = None.
Proof. destruct (kv_cache_map full_table 100 4096 full_table_ok) as [H1 H2]; [done|]. split; [exact H1|]. split; [exact H2|done]. Defined.
