(* ===== verification/KvLost.v ===== *)
(** * The key-value store on a flash that loses its writes

    A database whose sectors have no valid header, on a flash that reports success for writes it does
    not make, as the program's port does: the store formats it, reports success, and no value can
    be stored. *)
From S2P Require Import Prelude W25qxx W25qxxProps Fal FdbUtils FdbProps KvData KvRead KvWrite KvApi KvFlash KvNode KvPower.

Section Lost.
Context {S : Type} (device_table : list (fal_flash_dev S)) (partition_table_def : list fal_partition)
  (vprintf : string → list farg → M S unit) (file_name : string)
  (stack_sector : kvdb_sec_info) (stack_kv : fdb_kv) (retries : nat)
  (p : nat) (size cap blk : Z) (good : fal_state S → Prop) (cell : fal_state S → Z → Z)
  (budget : fal_state S → nat) (erases : fal_state S → bool)
  `{HP : !PartFlash device_table vprintf p size cap blk good cell budget erases} (ssz : Z) (num : nat).
Hypothesis sizes : 32 <= ssz ∧ ssz `mod` blk = 0 ∧ size = Z.of_nat num * ssz ∧ (2 ≤ num)%nat.
#[local] Abbreviation K := (kv_state S).
#[local] Abbreviation flash_is := (flash_is p size good cell budget ssz).
#[local] Abbreviation read_sector_info := (read_sector_info device_table vprintf stack_kv).
#[local] Abbreviation sectors_loop := (sectors_loop device_table vprintf stack_kv).
#[local] Abbreviation sector_iterator := (sector_iterator device_table vprintf stack_kv).
#[local] Abbreviation alloc_kv := (alloc_kv device_table vprintf file_name stack_kv).
#[local] Abbreviation kv_iterator := (kv_iterator device_table vprintf stack_sector stack_kv).
#[local] Abbreviation find_kv := (find_kv device_table vprintf stack_sector stack_kv).

(** No sector has the magic word of a header. *)
Definition no_header (m : Z → Z) : Prop :=
  ∀ i, (i < num)%nat → le_int (m <$> seqZ (Z.of_nat i * ssz + 4) 4) ≠ SECTOR_MAGIC_WORD.
(** A function of the platform that leaves the flash alone. *)
Definition quiet (f : M (fal_state S) unit) : Prop :=
  ∀ x, good x → wp f x (λ _ y, good y ∧ (∀ a, cell y a = cell x a) ∧ budget y = budget x).
(** A database without any sector, KV or request. *)
Definition blank_db (d : fdb_kvdb S) : Prop :=
  Forall (λ c, sec_addr c = FDB_DATA_UNUSED) (sector_cache_table d) ∧
  Forall (λ n, node_addr n = FDB_DATA_UNUSED) (kv_cache_table d) ∧ length (kv_cache_table d) = FDB_KV_CACHE_TABLE_SIZE ∧
  oldest_addr d = 0 ∧ gc_request d = false ∧ not_formatable d = false ∧
  (∀ f, lock d = Some f ∨ unlock d = Some f → quiet f).
Definition blank (s : K) : Prop := (∃ m, flash_is m 0 s ∧ no_header m) ∧ blank_db (kv_db s).

Lemma blank_part s : blank s → sec_size (parent (kv_db s)) = ssz ∧ max_size (parent (kv_db s)) = size.
Proof. intros ((m & ((_&_&?&?)&_) & _) & _). done. Qed.
Lemma blank_set s d : blank s → parent d = parent (kv_db s) → blank_db d → blank (mk_ks d (kv_fal s) (log_is_show s)).
Proof. intros ((m & Hf & Hn) & _) Hp Hd. split; [|done]. exists m. split; [|done]. by apply flash_is_db. Qed.
Lemma no_header_erased m a : no_header m → (∃ i, a = Z.of_nat i * ssz) → no_header (erased a ssz m).
Proof.
  intros Hm [j ->] i Hi. destruct sizes as (Hs&_). destruct (decide (i = j)) as [->|Hne].
  - replace (erased _ ssz m <$> seqZ (Z.of_nat j * ssz + 4) 4) with [0xFF; 0xFF; 0xFF; 0xFF]; [done|].
    symmetry. apply (mem_at_lookup _ _ [0xFF; 0xFF; 0xFF; 0xFF]). intros k b Hk. pose proof (lookup_lt_Some _ _ _ Hk) as Hl. cbn [length] in Hl.
    unfold erased. rewrite decide_True by lia. do 4 (destruct k as [|k]; [by injection Hk|]). lia.
  - replace (erased _ ssz m <$> seqZ (Z.of_nat i * ssz + 4) 4) with (m <$> seqZ (Z.of_nat i * ssz + 4) 4); [by apply Hm|].
    apply list_fmap_ext. intros k x Hx. apply list_elem_of_lookup_2 in Hx. apply elem_of_seqZ in Hx.
    unfold erased. rewrite decide_False; [done|]. intros Hr. apply Hne. nia.
Qed.
Lemma unused_cached (d : fdb_kvdb S) addr :
  Forall (λ c, sec_addr c = FDB_DATA_UNUSED) (sector_cache_table d) → addr ≠ FDB_DATA_UNUSED →
  get_sector_from_cache (sector_cache_table d) addr = None.
Proof.
  intros Hu Ha. unfold get_sector_from_cache. destruct (list_find _ _) as [[i c]|] eqn:E; [|done].
  apply list_find_Some in E as (Hc & Ha' & _). rewrite Forall_lookup in Hu. specialize (Hu _ _ Hc). cbn in *. congruence.
Qed.
Lemma unused_update sector (table : list kvdb_sec_info) :
  Forall (λ c, sec_addr c = FDB_DATA_UNUSED) table → sec_addr sector ≠ FDB_DATA_UNUSED → check_ok sector = false →
  update_sector_cache sector table = table.
Proof.
  intros Hu Ha Hc. unfold update_sector_cache.
  assert (∀ t i e, Forall (λ c, sec_addr c = FDB_DATA_UNUSED) t → ∃ e', sector_scan t i (sec_addr sector) e = inr e') as Hscan.
  { intros t. induction t as [|c t IH]; intros i e Ht; [by eexists|]. apply Forall_cons in Ht as [Hc' Ht]. cbn [sector_scan].
    rewrite decide_False by congruence. by apply IH. }
  destruct (Hscan table 0%nat FDB_SECTOR_CACHE_TABLE_SIZE Hu) as [e ->]. by rewrite Hc.
Qed.

(** ** Sectors *)

Lemma blank_sector addr sector tr s (Q : Z * kvdb_sec_info → K → Prop) i :
  blank s → (i < num)%nat → addr = Z.of_nat i * ssz →
  (∀ c s', kv_db s' = kv_db s → blank s' → check_ok c = false → sec_addr c = addr → sec_store c = FDB_SECTOR_STORE_UNUSED →
     sec_combined c = SECTOR_NOT_COMBINED → Q (FDB_INIT_FAILED, c) s') →
  wp (read_sector_info addr sector tr) s Q.
Proof.
  intros Hb Hi -> HQ. destruct part_size as [_ Hsz]. pose proof part_cap as Hcap. destruct sizes as (Hs&_&Hn&_).
  pose proof Hb as ((m & Hf & Hm) & Hd). pose proof Hd as (Hu & _). pose proof (blank_part _ Hb) as [Hssz Hmax].
  unfold read_sector_info. apply wp_bind, wp_gets. cbv beta iota zeta delta [id].
  change (db_sec_size (kv_db s)) with (sec_size (parent (kv_db s))). rewrite Hssz.
  apply wp_bind. rewrite bool_decide_eq_true_2 by (apply Z.mod_mul; lia). apply wp_ret.
  assert (0 <= Z.of_nat i * ssz ∧ Z.of_nat i * ssz + ssz <= size) as Hrange by nia.
  unfold cached_sector. rewrite unused_cached by (done || unfold FDB_DATA_UNUSED; lia). cbn [mbind option_bind].
  assert ((if tr then None else None) = (None : option kvdb_sec_info)) as -> by (by destruct tr). cbv iota beta.
  apply wp_bind. eapply kv_read_runs; [exact Hf|lia|done|change (Z.of_nat sizeof_sector_hdr_data) with 16; lia|].
  intros s1 (E1&_) H1. change (Z.of_nat sizeof_sector_hdr_data) with 16. rewrite decide_True by lia.
  set (out := m <$> seqZ (Z.of_nat i * ssz) 16).
  assert (length out = 16%nat) as Hout by (unfold out; by rewrite length_fmap, length_seqZ).
  apply wp_bind, store_into_runs; [by rewrite Hout|]. rewrite Hout, drop_ge, app_nil_r by done.
  assert (sec_hdr_magic (sector_hdr_of out) ≠ SECTOR_MAGIC_WORD) as Hmagic.
  { unfold sector_hdr_of. cbn [sec_hdr_magic]. unfold u32_at.
    change (take 4 (drop 4 out)) with (take (Z.to_nat 4) (drop (Z.to_nat 4) out)).
    rewrite <-(mem_at_read m (Z.of_nat i * ssz) out 4 4) by (done || unfold mem_at; rewrite Hout; done). by apply Hm. }
  rewrite decide_True by (by left). apply wp_ret. apply HQ; try done.
  split; [by exists m|]. by rewrite E1.
Qed.

(** Formatting a sector leaves it without a header. *)
Lemma blank_format i s (Q : Z → K → Prop) :
  blank s → (i < num)%nat → (∀ s', kv_db s' = kv_db s → blank s' → Q FDB_NO_ERR s') →
  wp (format_sector device_table vprintf (Z.of_nat i * ssz) SECTOR_NOT_COMBINED) s Q.
Proof.
  intros Hb Hi HQ. destruct part_size as [Hblk Hsz]. destruct sizes as (Hs&Hmod&Hn&_).
  pose proof Hb as ((m & Hf & Hm) & Hd). pose proof Hd as (Hu & Hrest). pose proof (blank_part _ Hb) as [Hssz Hmax].
  assert (0 <= Z.of_nat i * ssz ∧ Z.of_nat i * ssz + ssz <= size) as Hrange by nia.
  unfold format_sector. apply wp_bind, wp_gets. cbv beta iota zeta delta [id].
  change (db_sec_size (kv_db s)) with (sec_size (parent (kv_db s))). rewrite Hssz.
  apply wp_bind. rewrite bool_decide_eq_true_2 by (apply Z.mod_mul; lia). apply wp_ret.
  apply wp_bind. eapply kv_erase_runs; [exact Hf|lia|lia|by rewrite Z.mul_mod, Hmod, Z.mul_0_r by lia|done|lia|].
  intros s1 (E1&_) H1. rewrite decide_True by done.
  apply wp_bind. eapply wp_lift; [done|]. cbv beta iota. apply wp_bind. eapply wp_lift; [done|]. cbv beta iota.
  apply wp_bind. eapply kv_write_runs; [exact H1|lia|done|change SECTOR_HDR_DATA_SIZE with 16; lia|done|].
  intros s2 (E2&_) H2. rewrite take_0 in H2. cbn [Nat.sub] in H2. apply wp_bind. unfold cache_sector, kset. apply wp_modify, wp_ret.
  rewrite E2, E1, unused_update by (done || cbn [sec_addr]; unfold FDB_DATA_UNUSED; lia).
  assert (set_sector_cache (sector_cache_table (kv_db s)) (kv_db s) = kv_db s) as -> by (by destruct (kv_db s)).
  apply HQ; [done|]. split; [|done].
  exists (if erases (kv_fal s) then erased (Z.of_nat i * ssz) ssz m else m). split.
  - eapply flash_is_ext; [apply (flash_is_db _ _ _ _ _ _ _ _ _ (kv_db s) H2); congruence|].
    intros a. unfold programmed. cbn [length]. by rewrite decide_False by lia.
  - destruct (erases (kv_fal s)); [|done]. apply no_header_erased; [done|]. by eexists.
Qed.
(** ** Iterations *)

Lemma next_addr s c i :
  blank s → (i < num)%nat → sec_addr c = Z.of_nat i * ssz → sec_combined c = SECTOR_NOT_COMBINED →
  u32 (Z.of_nat i * ssz + ssz) = Z.of_nat (1 + i) * ssz ∧
  get_next_sector_addr (kv_db s) c (Z.of_nat (1 + i) * ssz) = if decide (1 + i < num)%nat then Z.of_nat (1 + i) * ssz else FAILED_ADDR.
Proof.
  intros Hb Hi Ha Hc. destruct part_size as [_ Hsz]. destruct sizes as (Hs&_&Hn&Hn2). pose proof (blank_part _ Hb) as [Hssz Hmax].
  assert (Z.of_nat i * ssz + ssz = Z.of_nat (1 + i) * ssz) as Hadd by nia.
  assert (Z.of_nat (1 + i) * ssz <= size) by nia.
  assert (2 * ssz <= size) by nia.
  rewrite Hadd. split; [apply u32_id; unfold is_u32; lia|]. unfold get_next_sector_addr.
  change (db_sec_size (kv_db s)) with (sec_size (parent (kv_db s))). change (db_max_size (kv_db s)) with (max_size (parent (kv_db s))).
  rewrite Hssz, Hmax, Hc, Ha. destruct (decide (SECTOR_NOT_COMBINED = SECTOR_NOT_COMBINED)) as [_|Hne]; [|by destruct Hne]. rewrite Hadd.
  rewrite !u32_id by (unfold is_u32; lia).
  case_decide as Hd; [rewrite !decide_True by nia|rewrite decide_False by nia]; done.
Qed.
Lemma next_not_failed i : (i < num)%nat → Z.of_nat i * ssz ≠ FAILED_ADDR.
Proof. intros Hi. destruct part_size as [_ Hsz]. destruct sizes as (Hs&_&Hn&_). unfold FAILED_ADDR. nia. Qed.

(** A callback that meets every sector: [I n] holds when [n] of them are behind. *)
Lemma visit_sectors {A} (I : nat → A → fdb_kvdb S → Prop) callback tr fuel :
  (∀ i a c s, (i < num)%nat → blank s → I i a (kv_db s) → check_ok c = false → sec_addr c = Z.of_nat i * ssz → sec_store c = FDB_SECTOR_STORE_UNUSED →
     wp (callback c a) s (λ r s', r.1 = false ∧ blank s' ∧ I (1 + i)%nat r.2 (kv_db s'))) →
  ∀ i a sector s, (i < num)%nat → (num - i ≤ fuel)%nat → blank s → I i a (kv_db s) →
  wp (sectors_loop fuel FDB_SECTOR_STORE_UNUSED callback tr (Z.of_nat i * ssz) (Z.of_nat i * ssz) sector a) s
    (λ r s', blank s' ∧ I num r.2 (kv_db s')).
Proof.
  intros Hcb. induction fuel as [|fuel IH]; intros i a sector s Hi Hf Hb HI; [lia|]. cbn [KvWrite.sectors_loop].
  apply wp_bind, wp_gets. cbv beta iota zeta delta [id].
  pose proof (blank_part _ Hb) as [Hssz _]. change (db_sec_size (kv_db s)) with (sec_size (parent (kv_db s))). rewrite Hssz.
  apply wp_bind. eapply blank_sector; [done|exact Hi|done|]. intros c s1 E1 H1 Hc Ha Hst Hcomb. cbv beta iota.
  rewrite decide_True by (by left). apply wp_bind.
  assert (wp ('(_, sector0) ← (if tr then read_sector_info (Z.of_nat i * ssz) c true else mret (FDB_NO_ERR, c));
     '(stop, arg) ← callback sector0 a; mret (stop, sector0, arg)) s1
     (λ r s2, r.1.1 = false ∧ sec_addr r.1.2 = Z.of_nat i * ssz ∧ sec_combined r.1.2 = SECTOR_NOT_COMBINED ∧ blank s2 ∧ I (1 + i)%nat r.2 (kv_db s2))) as Hstep.
  { rewrite <-E1 in HI. destruct tr.
    - apply wp_bind. eapply blank_sector; [done|exact Hi|done|]. intros c2 s2 E2 H2 Hc2 Ha2 Hst2 Hcomb2. cbv beta iota. rewrite <-E2 in HI.
      wp_with Hcb; [done..|]. intros [stop arg] s3 (Hstop & H3 & HI3). apply wp_ret. done.
    - apply wp_bind, wp_ret. wp_with Hcb; [done..|]. intros [stop arg] s3 (Hstop & H3 & HI3). apply wp_ret. done. }
  eapply wp_mono; [exact Hstep|]. intros [[stop c2] a2] s2 (Hstop & Ha2 & Hc2 & H2 & HI2). cbn [fst snd] in *. subst stop.
  apply wp_bind, wp_gets. cbv beta iota zeta delta [id].
  destruct (next_addr s2 c2 i H2 Hi Ha2 Hc2) as [Hadd Hnext]. rewrite Hadd, Hnext.
  destruct (decide (1 + i < num)%nat).
  - rewrite decide_True by (by apply next_not_failed). apply IH; [lia|lia|done|done].
  - rewrite decide_False by (intros Hne; by apply Hne). apply wp_ret. split; [done|]. by replace num with (1 + i)%nat by lia.
Qed.
(** A search for sectors of some status finds none. *)
Lemma skip_sectors {A} status (callback : kvdb_sec_info → A → M K (bool * A)) tr fuel :
  status ≠ FDB_SECTOR_STORE_UNUSED →
  ∀ i a sector s, (i < num)%nat → (num - i ≤ fuel)%nat → blank s →
  wp (sectors_loop fuel status callback tr (Z.of_nat i * ssz) (Z.of_nat i * ssz) sector a) s
    (λ r s', r.2 = a ∧ blank s' ∧ kv_db s' = kv_db s).
Proof.
  intros Hstatus. induction fuel as [|fuel IH]; intros i a sector s Hi Hf Hb; [lia|]. cbn [KvWrite.sectors_loop].
  apply wp_bind, wp_gets. cbv beta iota zeta delta [id].
  pose proof (blank_part _ Hb) as [Hssz _]. change (db_sec_size (kv_db s)) with (sec_size (parent (kv_db s))). rewrite Hssz.
  apply wp_bind. eapply blank_sector; [done|exact Hi|done|]. intros c s1 E1 H1 Hc Ha Hst Hcomb. cbv beta iota.
  rewrite decide_False by (intros [?|?]; congruence). apply wp_bind, wp_ret, wp_bind, wp_gets. cbv beta iota zeta delta [id].
  destruct (next_addr s1 c i H1 Hi Ha Hcomb) as [Hadd Hnext]. rewrite Hadd, Hnext.
  destruct (decide (1 + i < num)%nat).
  - rewrite decide_True by (by apply next_not_failed). eapply wp_mono; [apply IH; [lia|lia|done]|].
    intros r s2 (?&?&?). split_and!; [done|done|congruence].
  - rewrite decide_False by (intros Hne; by apply Hne). by apply wp_ret.
Qed.
Lemma blank_fuel s : blank s → (num ≤ sector_fuel (kv_db s))%nat.
Proof.
  intros Hb. pose proof (blank_part _ Hb) as [Hssz Hmax]. destruct sizes as (Hs&_&Hn&_). unfold sector_fuel.
  change (db_sec_size (kv_db s)) with (sec_size (parent (kv_db s))). change (db_max_size (kv_db s)) with (max_size (parent (kv_db s))).
  rewrite Hssz, Hmax, Hn, Z.div_mul by lia. lia.
Qed.
Lemma visit_all {A} (I : nat → A → fdb_kvdb S → Prop) callback tr sector a s (Q : kvdb_sec_info * A → K → Prop) :
  (∀ i a c s, (i < num)%nat → blank s → I i a (kv_db s) → check_ok c = false → sec_addr c = Z.of_nat i * ssz → sec_store c = FDB_SECTOR_STORE_UNUSED →
     wp (callback c a) s (λ r s', r.1 = false ∧ blank s' ∧ I (1 + i)%nat r.2 (kv_db s'))) →
  blank s → I 0%nat a (kv_db s) → (∀ c a s', blank s' → I num a (kv_db s') → Q (c, a) s') →
  wp (sector_iterator sector FDB_SECTOR_STORE_UNUSED a callback tr) s Q.
Proof.
  intros Hcb Hb HI HQ. destruct sizes as (_&_&_&Hn2). unfold sector_iterator. apply wp_bind, wp_gets. cbv beta iota zeta delta [id].
  pose proof Hb as (_&(_&_&_&Ho&_)). rewrite Ho. change 0 with (Z.of_nat 0 * ssz).
  eapply wp_mono; [apply (visit_sectors I); [exact Hcb|lia|pose proof (blank_fuel s Hb); lia|done|done]|].
  intros [c a'] s' [H1 H2]. by apply HQ.
Qed.
Lemma skip_all {A} status (callback : kvdb_sec_info → A → M K (bool * A)) tr sector a s (Q : kvdb_sec_info * A → K → Prop) :
  status ≠ FDB_SECTOR_STORE_UNUSED → blank s → (∀ c s', blank s' → kv_db s' = kv_db s → Q (c, a) s') →
  wp (sector_iterator sector status a callback tr) s Q.
Proof.
  intros Hst Hb HQ. destruct sizes as (_&_&_&Hn2). unfold sector_iterator. apply wp_bind, wp_gets. cbv beta iota zeta delta [id].
  pose proof Hb as (_&(_&_&_&Ho&_)). rewrite Ho. change 0 with (Z.of_nat 0 * ssz).
  eapply wp_mono; [apply (skip_sectors status); [done|lia|pose proof (blank_fuel s Hb); lia|done]|].
  intros [c a'] s' (Ha&?&?). cbn [snd] in Ha. subst a'. by apply HQ.
Qed.

(** ** Allocation and search *)

Lemma blank_alloc sector n s (Q : Z * kvdb_sec_info → K → Prop) :
  blank s → (∀ c s', blank s' → kv_db s' = kv_db s → Q (FAILED_ADDR, c) s') → wp (alloc_kv sector n) s Q.
Proof.
  intros Hb HQ. unfold alloc_kv. apply wp_bind.
  eapply (visit_all (λ _ a d, a = (0, 0) ∧ d = kv_db s)); [|done|done|].
  - intros i a c s1 Hi H1 [-> E1] Hc _ _. unfold sector_statistics_cb. rewrite Hc. cbn [andb]. by apply wp_ret.
  - intros c a s1 H1 [-> E1]. cbv beta iota. rewrite decide_False by lia. apply wp_bind, wp_ret. cbv beta iota.
    rewrite decide_False by lia. apply wp_ret. by apply HQ.
Qed.

(** The iteration over KVs meets no sector with KVs. *)
Lemma blank_kv_sectors {A} (callback : fdb_kv → A → M K (bool * A)) fuel :
  ∀ i a kv sector s, (i < num)%nat → (num - i ≤ fuel)%nat → blank s →
  wp (kv_sectors device_table vprintf stack_kv fuel callback (Z.of_nat i * ssz) (Z.of_nat i * ssz) sector kv a) s
    (λ r s', r = (kv, a) ∧ blank s' ∧ kv_db s' = kv_db s).
Proof.
  induction fuel as [|fuel IH]; intros i a kv sector s Hi Hf Hb; [lia|]. cbn [kv_sectors].
  apply wp_bind, wp_gets. cbv beta iota zeta delta [id].
  pose proof (blank_part _ Hb) as [Hssz _]. change (db_sec_size (kv_db s)) with (sec_size (parent (kv_db s))). rewrite Hssz.
  apply wp_bind. eapply blank_sector; [done|exact Hi|done|]. intros c s1 E1 H1 Hc Ha Hst Hcomb. cbv beta iota.
  rewrite decide_False by (by intros [? _]). apply wp_bind, wp_ret, wp_bind, wp_gets. cbv beta iota zeta delta [id].
  destruct (next_addr s1 c i H1 Hi Ha Hcomb) as [Hadd Hnext]. rewrite Hadd, Hnext.
  destruct (decide (1 + i < num)%nat).
  - rewrite decide_True by (by apply next_not_failed). eapply wp_mono; [apply IH; [lia|lia|done]|].
    intros r s2 (?&?&?). split_and!; [done|done|congruence].
  - rewrite decide_False by (intros Hne; by apply Hne). by apply wp_ret.
Qed.
Lemma blank_kv_iterator {A} kv (a : A) callback s (Q : fdb_kv * A → K → Prop) :
  blank s → (∀ s', blank s' → kv_db s' = kv_db s → Q (kv, a) s') → wp (kv_iterator kv a callback) s Q.
Proof.
  intros Hb HQ. destruct sizes as (_&_&_&Hn2). unfold kv_iterator. apply wp_bind, wp_gets. cbv beta iota zeta delta [id].
  pose proof Hb as (_&(_&_&_&Ho&_)). rewrite Ho. change 0 with (Z.of_nat 0 * ssz).
  eapply wp_mono; [apply blank_kv_sectors; [lia|pose proof (blank_fuel s Hb); lia|done]|].
  intros r s' (->&?&?). by apply HQ.
Qed.
Lemma blank_find key kv s (Q : bool * fdb_kv → K → Prop) :
  blank s → Forall is_u8 key → (∀ s', blank s' → kv_db s' = kv_db s → Q (false, kv) s') → wp (find_kv key kv) s Q.
Proof.
  intros Hb Hk HQ. unfold find_kv. apply wp_bind. unfold get_kv_from_cache. apply wp_bind.
  assert (∃ c, kv_name_crc key = Some c) as [c Hc] by (unfold kv_name_crc; rewrite calc_crc_some by done; by eexists).
  eapply wp_lift; [exact Hc|].
  assert (∀ n i, (i + n ≤ FDB_KV_CACHE_TABLE_SIZE)%nat → wp (kv_cache_find device_table vprintf n i c key) s (λ r s', r = None ∧ s' = s)) as Hfind.
  { intros n. induction n as [|n IH]; intros i Hi; [by apply wp_ret|]. cbn [kv_cache_find].
    pose proof Hb as (_&(_&Hu&Hl&_)). apply wp_bind, wp_gets.
    destruct (lookup_lt_is_Some_2 (kv_cache_table (kv_db s)) i ltac:(lia)) as [e He].
    apply wp_bind. eapply wp_lift; [exact He|]. rewrite Forall_lookup in Hu. specialize (Hu _ _ He).
    rewrite decide_False by tauto. apply IH. lia. }
  eapply wp_mono; [apply Hfind; lia|]. intros r s1 [-> ->]. cbv iota beta.
  apply wp_bind. unfold find_kv_no_cache. apply wp_bind. apply blank_kv_iterator; [done|]. intros s2 H2 E2. cbv beta iota. apply wp_ret.
  cbv beta iota. apply wp_bind, wp_ret, wp_ret. by apply HQ.
Qed.
(** ** Printing and locking *)

Lemma blank_info fmt args s (Q : unit → K → Prop) :
  blank s → (∀ s', blank s' → kv_db s' = kv_db s → Q tt s') → wp (kv_info vprintf fmt args) s Q.
Proof.
  intros ((m & Hf & Hm) & Hd) HQ. eapply info_runs; [exact Hf|]. intros s1 (E1&_) H1. apply HQ; [|done].
  split; [by exists m|]. by rewrite E1.
Qed.
Lemma blank_debug line fmt args s (Q : unit → K → Prop) :
  blank s → (∀ s', blank s' → kv_db s' = kv_db s → Q tt s') → wp (kv_debug vprintf file_name line fmt args) s Q.
Proof.
  intros ((m & Hf & Hm) & Hd) HQ. eapply kv_debug_runs; [exact Hf|]. intros s1 (E1&_) H1. apply HQ; [|done].
  split; [by exists m|]. by rewrite E1.
Qed.
Lemma blank_quiet f s (Q : unit → K → Prop) :
  blank s → quiet f → (∀ s', blank s' → kv_db s' = kv_db s → Q tt s') → wp (on_fal f) s Q.
Proof.
  intros ((m & (Hp&Hg&Hc&Hk) & Hm) & Hd) Hq HQ. apply wp_on_fal. eapply wp_mono; [by apply Hq|].
  intros [] f' (Hg'&Hc'&Hk'). apply HQ; [|done]. split; [|done]. exists m. split; [|done].
  split_and!; [done|done| |simpl; congruence]. intros a. simpl. by rewrite Hc'.
Qed.
Lemma blank_lock s (Q : unit → K → Prop) :
  blank s → (∀ s', blank s' → kv_db s' = kv_db s → Q tt s') → wp db_lock s Q.
Proof.
  intros Hb HQ. apply wp_bind, wp_gets. pose proof Hb as (_&(_&_&_&_&_&_&Hq)).
  destruct (lock (kv_db s)) as [f|] eqn:E; [|by apply wp_ret, HQ]. eapply blank_quiet; [done|apply Hq; by left|done].
Qed.
Lemma blank_unlock s (Q : unit → K → Prop) :
  blank s → (∀ s', blank s' → kv_db s' = kv_db s → Q tt s') → wp db_unlock s Q.
Proof.
  intros Hb HQ. apply wp_bind, wp_gets. pose proof Hb as (_&(_&_&_&_&_&_&Hq)).
  destruct (unlock (kv_db s)) as [f|] eqn:E; [|by apply wp_ret, HQ]. eapply blank_quiet; [done|apply Hq; by right|done].
Qed.
Lemma blank_kset f s (Q : unit → K → Prop) :
  blank s → parent (f (kv_db s)) = parent (kv_db s) → blank_db (f (kv_db s)) →
  (∀ s', blank s' → kv_db s' = f (kv_db s) → Q tt s') → wp (kset f) s Q.
Proof. intros Hb Hp Hd HQ. apply wp_modify. apply HQ; [|done]. by apply blank_set. Qed.

(** ** Creating, setting, getting, deleting *)

#[local] Abbreviation new_kv := (new_kv device_table vprintf file_name stack_sector stack_kv).
#[local] Abbreviation create_kv_blob := (create_kv_blob device_table vprintf file_name stack_sector stack_kv).
#[local] Abbreviation del_kv := (del_kv device_table vprintf file_name stack_sector stack_kv).
#[local] Abbreviation set_kv := (set_kv device_table vprintf file_name stack_sector stack_kv).
#[local] Abbreviation get_kv := (get_kv device_table vprintf stack_sector stack_kv).
#[local] Abbreviation load := (_fdb_kv_load device_table vprintf file_name stack_sector stack_kv retries).
#[local] Abbreviation init := (fdb_kvdb_init device_table partition_table_def vprintf file_name stack_sector stack_kv retries).

Lemma blank_new sector n s (Q : Z * kvdb_sec_info → K → Prop) :
  blank s → (∀ c s', blank s' → kv_db s' = kv_db s → Q (FAILED_ADDR, c) s') → wp (new_kv sector n) s Q.
Proof.
  intros Hb HQ. unfold new_kv. apply wp_bind. eapply blank_alloc; [done|]. intros c s1 H1 E1. cbv beta iota.
  rewrite decide_False by (intros Hne; by apply Hne). apply wp_bind, wp_gets.
  pose proof H1 as (_&(_&_&_&_&Hg&_)). rewrite Hg. apply wp_ret. by apply HQ.
Qed.
Lemma blank_create sector key value len s (Q : Z * kvdb_sec_info → K → Prop) :
  blank s → sec_empty_kv sector = FAILED_ADDR →
  (∀ r c s', r ≠ FDB_NO_ERR → blank s' → kv_db s' = kv_db s → Q (r, c) s') → wp (create_kv_blob sector key value len) s Q.
Proof.
  intros Hb He HQ. unfold create_kv_blob. case_decide.
  { apply wp_bind. eapply blank_info; [done|]. intros s1 H1 E1. apply wp_ret. by apply HQ. }
  apply wp_bind, wp_gets. case_decide.
  { apply wp_bind. eapply blank_info; [done|]. intros s1 H1 E1. apply wp_ret. by apply HQ. }
  apply wp_bind. rewrite He, decide_False by (intros Hne; by apply Hne). eapply blank_new; [done|]. intros c s1 H1 E1. cbv beta iota.
  rewrite decide_True by done. apply wp_ret. by apply HQ.
Qed.
Lemma blank_del key s (Q : Z → K → Prop) :
  blank s → Forall is_u8 key → (∀ s', blank s' → kv_db s' = kv_db s → Q FDB_KV_NAME_ERR s') → wp (del_kv (Some key) None true) s Q.
Proof.
  intros Hb Hk HQ. unfold del_kv. apply wp_bind, wp_bind. eapply wp_lift; [done|]. apply wp_bind.
  eapply blank_find; [done|done|]. intros s1 H1 E1. cbv beta iota. apply wp_bind. eapply blank_debug; [done|].
  intros s2 H2 E2. apply wp_ret. cbv beta iota. apply wp_ret. apply HQ; [done|congruence].
Qed.
Lemma blank_set_kv key value len s (Q : Z → K → Prop) :
  blank s → Forall is_u8 key →
  (∀ r s', r ≠ FDB_NO_ERR → blank s' → parent (kv_db s') = parent (kv_db s) → Q r s') → wp (set_kv key value len) s Q.
Proof.
  intros Hb Hk HQ. unfold set_kv. destruct value as [v|].
  - apply wp_bind, wp_gets, wp_bind. unfold new_kv_ex. eapply blank_new; [done|]. intros c s1 H1 E1. cbv beta iota.
    apply wp_bind. eapply blank_kset; [done|done|apply H1|]. intros s2 H2 E2. rewrite decide_True by done. apply wp_ret.
    apply HQ; [done|done|]. by rewrite E2, <-E1.
  - eapply blank_del; [done|done|]. intros s1 H1 E1. apply HQ; [done|done|by rewrite E1].
Qed.
Lemma blank_get key buf len s (Q : Z * Z * option (list Z) → K → Prop) :
  blank s → Forall is_u8 key → (∀ s', blank s' → kv_db s' = kv_db s → Q (0, 0, buf) s') → wp (get_kv key buf len) s Q.
Proof.
  intros Hb Hk HQ. unfold get_kv. apply wp_bind. eapply blank_find; [done|done|]. intros s1 H1 E1. cbv beta iota. apply wp_ret. by apply HQ.
Qed.

(** ** Loading *)

Lemma blank_format_all fuel :
  ∀ i s (Q : Z → K → Prop), (i ≤ num)%nat → (num - i < fuel)%nat → blank s →
  (∀ s', blank s' → kv_db s' = kv_db s → Q FDB_NO_ERR s') → wp (format_loop device_table vprintf fuel (Z.of_nat i * ssz)) s Q.
Proof.
  destruct part_size as [_ Hsz]. destruct sizes as (Hs&_&Hn&Hn2).
  induction fuel as [|fuel IH]; intros i s Q Hi Hf Hb HQ; [lia|]. cbn [format_loop].
  apply wp_bind, wp_gets. cbv beta iota zeta delta [id]. pose proof (blank_part _ Hb) as [Hssz Hmax].
  change (db_sec_size (kv_db s)) with (sec_size (parent (kv_db s))). change (db_max_size (kv_db s)) with (max_size (parent (kv_db s))).
  rewrite Hssz, Hmax. destruct (decide (i < num)%nat) as [Hlt|Hge].
  - rewrite decide_True by nia. apply wp_bind. eapply blank_format; [done|done|]. intros s1 E1 H1.
    rewrite decide_False by (intros Hne; by apply Hne). rewrite u32_id by (unfold is_u32; nia).
    replace (Z.of_nat i * ssz + ssz) with (Z.of_nat (1 + i) * ssz) by nia.
    apply IH; [lia|lia|done|]. intros s2 H2 E2. apply HQ; [done|congruence].
  - rewrite decide_False by nia. apply wp_ret. by apply HQ.
Qed.
Lemma blank_defaults nodes :
  Forall (λ n, is_Some (default_size n)) nodes → ∀ sector s (Q : unit → K → Prop), blank s →
  (∀ s', blank s' → kv_db s' = kv_db s → Q tt s') →
  wp (create_defaults device_table vprintf file_name stack_sector stack_kv nodes sector) s Q.
Proof.
  induction 1 as [|n nodes [len Hl] _ IH]; intros sector s Q Hb HQ; [by apply wp_ret, HQ|]. cbn [create_defaults].
  apply wp_bind. eapply wp_lift; [done|]. apply wp_bind. eapply blank_create; [done|done|]. intros r c s1 _ H1 E1. cbv beta iota.
  apply IH; [done|]. intros s2 H2 E2. apply HQ; [done|congruence].
Qed.
Lemma blank_default s (Q : Z → K → Prop) :
  blank s → Forall (λ n, is_Some (default_size n)) (default_kvs (kv_db s)) →
  (∀ s', blank s' → parent (kv_db s') = parent (kv_db s) → Q FDB_NO_ERR s') →
  wp (fdb_kv_set_default device_table vprintf file_name stack_sector stack_kv) s Q.
Proof.
  intros Hb Hdef HQ. unfold fdb_kv_set_default. apply wp_bind. eapply blank_lock; [done|]. intros s1 H1 E1.
  pose proof H1 as (_&(Hu&Hv&Hl&Hrest)).
  apply wp_bind. eapply blank_kset; [done|done| |].
  { split; [exact Hu|]. split; [|split; [cbn [kv_cache_table set_kv_cache]; by rewrite length_fmap|exact Hrest]].
    apply Forall_fmap. eapply Forall_impl; [exact Hv|done]. }
  intros s2 H2 E2. apply wp_bind, wp_gets. cbv beta iota zeta delta [id]. apply wp_bind.
  pose proof (blank_fuel s2 H2) as Hfuel. unfold sector_fuel in *. change 0 with (Z.of_nat 0 * ssz).
  pose proof (blank_part _ H2) as [Hssz Hmax]. destruct sizes as (Hs&_&Hn&Hn2).
  assert (db_max_size (kv_db s2) / db_sec_size (kv_db s2) = Z.of_nat num) as Hq.
  { unfold db_max_size, db_sec_size. rewrite Hssz, Hmax, Hn, Z.div_mul by lia. done. }
  eapply blank_format_all; [lia|lia|done|]. intros s3 H3 E3. rewrite decide_True by done. apply wp_bind.
  eapply blank_defaults; [by rewrite E2, E1|done|]. intros s4 H4 E4. apply wp_bind.
  eapply blank_kset; [done|done| |].
  { destruct H4 as (_&(?&?&?&_&?)). done. }
  intros s5 H5 E5. apply wp_bind. eapply blank_unlock; [done|]. intros s6 H6 E6. apply wp_ret.
  apply HQ; [done|]. rewrite E6, E5, E4, E3, E2. cbn [parent set_oldest_addr set_kv_cache]. by rewrite E1.
Qed.
Lemma blank_load s (Q : Z → K → Prop) :
  blank s → Forall (λ n, is_Some (default_size n)) (default_kvs (kv_db s)) → (0 < retries)%nat →
  (∀ s', blank s' → parent (kv_db s') = parent (kv_db s) → Q FDB_NO_ERR s') → wp load s Q.
Proof.
  intros Hb Hdef Hr HQ. destruct part_size as [_ Hsz]. destruct sizes as (Hs&_&Hn&Hn2). unfold _fdb_kv_load.
  apply wp_bind. eapply blank_kset; [done|done|apply Hb|]. intros s1 H1 E1. apply wp_bind.
  eapply (visit_all (λ n a d, a = Z.of_nat n ∧ d = kv_db s1)); [|done|done|].
  { intros i a c t Hi Ht [-> Et] Hc Ha _. unfold check_sec_hdr_cb. rewrite Hc. apply wp_bind, wp_gets.
    pose proof Ht as (_&(_&_&_&_&_&Hnf&_)). rewrite Hnf. apply wp_bind. eapply blank_debug; [done|]. intros t1 Ht1 Et1.
    apply wp_bind. rewrite Ha. eapply blank_format; [done|done|]. intros t2 Et2 Ht2. apply wp_ret. cbn [fst snd].
    rewrite u32_id by (unfold is_u32; nia). split_and!; [done|done|lia|congruence]. }
  intros c a s2 H2 [-> E2]. cbv beta iota. apply wp_bind, wp_gets. cbv beta iota zeta delta [id].
  pose proof H2 as (_&(_&_&_&_&_&Hnf&_)). rewrite Hnf, decide_False by (by intros [? _]).
  pose proof (blank_part _ H2) as [Hssz Hmax].
  assert (db_max_size (kv_db s2) / db_sec_size (kv_db s2) = Z.of_nat num) as ->.
  { unfold db_max_size, db_sec_size. rewrite Hssz, Hmax, Hn, Z.div_mul by lia. done. }
  apply wp_bind. rewrite decide_True by done. apply wp_bind. eapply blank_info; [done|]. intros s3 H3 E3.
  apply wp_bind. eapply blank_default; [done|by rewrite E3, E2, E1|]. intros s4 H4 E4. apply wp_ret.
  apply wp_bind. eapply (visit_all (λ _ _ d, d = kv_db s4)); [|done|done|].
  { intros i [] c2 t Hi Ht Et Hc _ _. unfold check_and_recovery_gc_cb. rewrite Hc. cbn [andb]. apply wp_bind, wp_ret. by apply wp_ret. }
  intros c2 [] s5 H5 E5. apply wp_bind. destruct retries as [|n]; [lia|]. cbn [recover_loop].
  apply wp_bind. eapply blank_kv_iterator; [done|]. intros s6 H6 E6. cbv beta iota. apply wp_bind, wp_gets.
  pose proof H6 as (_&(_&_&_&_&Hg&_)). rewrite Hg. apply wp_ret.
  apply wp_bind. eapply blank_kset; [done|done|apply H6|]. intros s7 H7 E7. apply wp_ret. apply HQ; [done|].
  rewrite E7. cbn [parent set_in_recovery]. rewrite E6, E5, E4, E3, E2, E1. done.
Qed.
(** ** The start *)

Lemma bind_kget {A} (f : fdb_kvdb S → M K A) s : (kget id ≫= f) s = f (kv_db s) s.
Proof. done. Qed.
Definition zero_sector : kvdb_sec_info := mk_sec false 0 0 0 0 0 0 0.
Definition sized (d : fdb_kvdb S) : Prop := sec_size (parent d) = ssz ∧ max_size (parent d) = size.
Lemma zeroed_next d t :
  sized d → is_u32 t → get_next_sector_addr d zero_sector t = if decide (t <= size) then 0 else FAILED_ADDR.
Proof.
  intros [Hssz Hmax] Ht. destruct part_size as [_ Hsz]. unfold get_next_sector_addr.
  change (db_sec_size d) with (sec_size (parent d)). change (db_max_size d) with (max_size (parent d)). rewrite Hssz, Hmax.
  change (sec_combined zero_sector) with 0. change (sec_addr zero_sector) with 0.
  destruct (decide (0 = SECTOR_NOT_COMBINED)) as [?|_]; [done|]. rewrite Z.mul_0_l. change (u32 0) with 0. rewrite Z.add_0_r.
  rewrite (u32_id t) by done. case_decide; [|done]. change (u32 (0 + 0)) with 0. by rewrite decide_True by lia.
Qed.
Lemma zeroed_loop rest fuel :
  ∀ i sector s, sized (kv_db s) → oldest_addr (kv_db s) = 0 → sector_cache_table (kv_db s) = zero_sector :: rest →
  (i ≤ num)%nat → (num - i < fuel)%nat →
  sectors_loop fuel FDB_SECTOR_STORE_UNUSED check_oldest_addr_cb false 0 (Z.of_nat i * ssz) sector (0, FDB_SECTOR_STORE_UNUSED) s =
  Ok (zero_sector, (0, FDB_SECTOR_STORE_UNUSED)) s.
Proof.
  destruct part_size as [_ Hsz]. destruct sizes as (Hs&_&Hn&Hn2).
  induction fuel as [|fuel IH]; intros i sector s Hsd Ho Hc Hi Hf; [lia|]. cbn [KvWrite.sectors_loop]. pose proof Hsd as [Hssz Hmax].
  rewrite bind_kget.
  change (db_sec_size (kv_db s)) with (sec_size (parent (kv_db s))). rewrite Hssz.
  erewrite bind_ok.
  2: { unfold KvRead.read_sector_info. rewrite bind_kget.
       change (db_sec_size (kv_db s)) with (sec_size (parent (kv_db s))). rewrite Hssz, Z.mod_0_l, bool_decide_eq_true_2 by (done || lia).
       unfold kv_assert. cbv iota. rewrite bind_ret. unfold cached_sector. rewrite Hc. reflexivity. }
  cbv beta iota. rewrite decide_True by (by left). erewrite bind_ok by reflexivity. cbv beta iota.
  rewrite bind_kget.
  assert (u32 (Z.of_nat i * ssz + ssz) = Z.of_nat (1 + i) * ssz) as -> by (rewrite u32_id; unfold is_u32; nia).
  rewrite zeroed_next by (done || unfold is_u32; nia).
  destruct (decide (Z.of_nat (1 + i) * ssz <= size)) as [Hle|Hgt].
  - rewrite decide_True by done. apply IH; [done|done|done|nia|nia].
  - by rewrite decide_False by (intros Hne; by apply Hne).
Qed.
(** With the zeroed cache of a static database the search for the oldest sector does not look at the flash. *)
Lemma zeroed_oldest rest s :
  sized (kv_db s) → sector_cache_table (kv_db s) = zero_sector :: rest →
  find_oldest device_table vprintf stack_sector stack_kv s = Ok 0 (mk_ks (set_oldest_addr 0 (kv_db s)) (kv_fal s) (log_is_show s)).
Proof.
  intros [Hssz Hmax] Hc. destruct sizes as (Hs&_&Hn&Hn2). unfold find_oldest. erewrite bind_ok by reflexivity.
  set (s1 := mk_ks (set_oldest_addr 0 (kv_db s)) (kv_fal s) (log_is_show s)).
  pose proof (zeroed_loop rest (sector_fuel (kv_db s1)) 0 stack_sector s1) as Hloop. rewrite Z.mul_0_l in Hloop.
  erewrite bind_ok; [|unfold KvWrite.sector_iterator; rewrite bind_kget; apply Hloop; [done|done|done|lia|]].
  - cbv beta iota. erewrite bind_ok by reflexivity. done.
  - unfold sector_fuel, db_max_size, db_sec_size, s1. cbn [kv_db set_oldest_addr parent]. rewrite Hssz, Hmax, Hn, Z.div_mul by lia. lia.
Qed.

(** A flash that loses its writes, under any database. *)
Definition bare (s : K) : Prop := ∃ m, flash_is m 0 s ∧ no_header m.
Lemma bare_moved s s' : bare s → kv_db s' = kv_db s → (∀ m, flash_is m 0 s → flash_is m 0 s') → bare s'.
Proof. intros (m & Hf & Hm) _ H. exists m. split; [by apply H|done]. Qed.
Lemma bare_quiet f s (Q : unit → K → Prop) :
  bare s → quiet f → (∀ s', bare s' → kv_db s' = kv_db s → Q tt s') → wp (on_fal f) s Q.
Proof.
  intros (m & (Hp&Hg&Hc&Hk) & Hm) Hq HQ. apply wp_on_fal. eapply wp_mono; [by apply Hq|].
  intros [] f' (Hg'&Hc'&Hk'). apply HQ; [|done]. exists m. split; [|done].
  split_and!; [done|done| |simpl; congruence]. intros a. simpl. by rewrite Hc'.
Qed.
Lemma bare_kset f s (Q : unit → K → Prop) :
  bare s → parent (f (kv_db s)) = parent (kv_db s) → (∀ s', bare s' → kv_db s' = f (kv_db s) → Q tt s') → wp (kset f) s Q.
Proof.
  intros (m & Hf & Hm) Hp HQ. apply wp_modify. apply HQ; [|done]. exists m. split; [|done]. by apply flash_is_db.
Qed.
Lemma bare_debug line fmt args s (Q : unit → K → Prop) :
  bare s → (∀ s', bare s' → kv_db s' = kv_db s → Q tt s') → wp (kv_debug vprintf file_name line fmt args) s Q.
Proof.
  intros (m & Hf & Hm) HQ. eapply kv_debug_runs; [exact Hf|]. intros s1 (E1&_) H1. apply HQ; [|done]. by exists m.
Qed.

(** The end of a successful initialisation. *)
Lemma blank_finish s (Q : unit → K → Prop) :
  blank s → (∀ s', blank s' → init_ok (parent (kv_db s')) = true → Q tt s') → wp (_fdb_init_finish vprintf FDB_NO_ERR) s Q.
Proof.
  intros ((m & (Hp&Hg&Hc&Hk) & Hm) & Hd) HQ. unfold _fdb_init_finish. rewrite decide_True by done. apply wp_bind, wp_modify.
  set (s1 := mk_ks _ _ _). assert (flash_is m 0 s1) as H1 by (by split_and!; try apply Hp).
  assert (blank_db (kv_db s1)) as Hd1 by done.
  assert (∀ fmt args t (R : unit → K → Prop), flash_is m 0 t → (∀ t', flash_is m 0 t' → kv_db t' = kv_db t → R tt t') →
    wp (fdb_info vprintf fmt args) t R) as Hprint.
  { intros fmt args t R Ht HR. unfold fdb_info. apply wp_bind. eapply print_runs; [exact Ht|]. intros t1 (E1&_) Ht1.
    apply wp_bind. eapply print_runs; [exact Ht1|]. intros t2 (E2&_) Ht2.
    eapply print_runs; [exact Ht2|]. intros t3 (E3&_) Ht3. apply HR; [done|congruence]. }
  apply wp_bind, wp_gets. destruct (log_is_show s1).
  - apply wp_ret. apply HQ; [|done]. split; [by exists m|done].
  - apply wp_bind. apply Hprint; [done|]. intros s2 H2 E2. apply wp_bind. apply Hprint; [done|]. intros s3 H3 E3.
    apply wp_modify. rewrite E2 in E3. apply HQ; [|by cbn [kv_db]; rewrite E3]. split; [exists m; split; [|done]; exact H3|]. cbn [kv_db]. by rewrite E3.
Qed.

Lemma blank_init name path nodes db' rest s :
  wp (on_fal (_fdb_init_ex device_table partition_table_def (λ msg, vprintf msg []) (parent (kv_db s)) name path)) s (λ r s1,
    r = (FDB_NO_ERR, db') ∧ kv_db s1 = kv_db s ∧ bare (mk_ks (set_parent db' (kv_db s1)) (kv_fal s1) (log_is_show s1))) →
  sector_cache_table (kv_db s) = zero_sector :: rest → length (kv_cache_table (kv_db s)) = FDB_KV_CACHE_TABLE_SIZE →
  not_formatable (kv_db s) = false → (∀ f, lock (kv_db s) = Some f ∨ unlock (kv_db s) = Some f → quiet f) →
  Forall (λ n, is_Some (default_size n)) nodes → (0 < retries)%nat →
  wp (init name path (Some nodes)) s (λ r s', r = FDB_NO_ERR ∧ blank s' ∧ init_ok (parent (kv_db s')) = true).
Proof.
  intros Hex Hcache Hlen Hnf Hq Hdef Hr. destruct sizes as (Hs&_&Hn&Hn2). unfold fdb_kvdb_init.
  apply wp_bind. rewrite bool_decide_eq_true_2 by done. apply wp_ret. apply wp_bind, wp_gets. apply wp_bind.
  eapply wp_mono; [exact Hex|]. intros r s1 (-> & E1 & H1). cbv beta iota. apply wp_bind, wp_modify.
  set (s2 := mk_ks _ _ _) in *. apply wp_bind. rewrite decide_False by (intros Hne; by apply Hne).
  apply wp_bind. unfold db_lock. apply wp_bind, wp_gets.
  assert (∀ t (o : option (M (fal_state S) unit)) (Q : unit → K → Prop), bare t → (∀ f, o = Some f → quiet f) →
    (∀ t', bare t' → kv_db t' = kv_db t → Q tt t') → wp (match o with Some f => on_fal f | None => mret tt end) t Q) as Hlk.
  { intros t o Q Ht Ho HQ. destruct o as [f|]; [eapply bare_quiet; [done|by apply Ho|done]|by apply wp_ret, HQ]. }
  apply Hlk; [done|intros f Hf; apply Hq; left; by rewrite <-E1|]. intros s3 H3 E3.
  apply wp_bind. eapply bare_kset; [done|done|]. intros s4 H4 E4. apply wp_bind. eapply bare_kset; [done|done|]. intros s5 H5 E5.
  apply wp_bind. eapply bare_kset; [done|done|]. intros s6 H6 E6. apply wp_bind.
  assert (sized (kv_db s6)) as Hsized by (destruct H6 as (m & ((_&_&?&?)&_) & _); done).
  assert (sector_cache_table (kv_db s6) = zero_sector :: rest) as Hc6.
  { rewrite E6, E5, E4, E3. cbn [sector_cache_table set_default_kvs set_in_recovery set_gc_request s2 kv_db set_parent]. by rewrite E1. }
  eapply wp_ok; [by apply (zeroed_oldest rest)|]. set (s7 := mk_ks _ _ _).
  assert (bare s7) as H7 by (destruct H6 as (m & Hf & Hm); exists m; split; [by apply flash_is_db|done]).
  apply wp_bind. eapply bare_debug; [done|]. intros s8 H8 E8. apply wp_bind, wp_gets. cbv beta iota zeta delta [id].
  assert (sized (kv_db s8)) as [Hssz Hmax] by (destruct H8 as (m & ((_&_&?&?)&_) & _); done).
  assert (db_max_size (kv_db s8) / db_sec_size (kv_db s8) = Z.of_nat num) as ->.
  { unfold db_max_size, db_sec_size. rewrite Hssz, Hmax, Hn, Z.div_mul by lia. done. }
  apply wp_bind. rewrite bool_decide_eq_true_2 by (unfold FDB_GC_EMPTY_SEC_THRESHOLD; lia). apply wp_ret.
  apply wp_bind. eapply bare_kset; [done|done|]. intros s9 H9 E9. apply wp_bind. eapply bare_kset; [done|done|]. intros s10 H10 E10.
  apply wp_bind. eapply bare_debug; [done|]. intros s11 H11 E11.
  assert (∀ A (f : fdb_kvdb S → A), f (kv_db s11) = f (set_kv_cache (set_node_addr FDB_DATA_UNUSED <$> kv_cache_table (kv_db s9))
     (set_sector_cache (clear_sector_entry <$> sector_cache_table (kv_db s8)) (kv_db s8)))) as F11 by (intros A f; by rewrite E11, E10, E9).
  assert (kv_db s8 = set_oldest_addr 0 (set_default_kvs nodes (set_in_recovery false (set_gc_request false (set_parent db' (kv_db s)))))) as D8.
  { rewrite E8. unfold s7. cbn [kv_db]. rewrite E6, E5, E4, E3. unfold s2. cbn [kv_db]. by rewrite E1. }
  assert (blank s11) as B11.
  { split; [done|]. unfold blank_db. rewrite !F11. rewrite D8. split_and!; try done.
    - apply Forall_fmap, Forall_forall. by intros c _.
    - apply Forall_fmap, Forall_forall. by intros c _.
    - cbn [kv_cache_table set_kv_cache]. rewrite length_fmap, E9, D8. done. }
  assert (default_kvs (kv_db s11) = nodes) as D11 by (rewrite F11, D8; done).
  apply wp_bind. eapply blank_unlock; [done|]. intros s12 H12 E12. apply wp_bind.
  eapply blank_load; [done|by rewrite E12, D11|done|]. intros s13 H13 E13.
  apply wp_bind. eapply blank_lock; [done|]. intros s14 H14 E14. apply wp_bind. eapply blank_unlock; [done|]. intros s15 H15 E15.
  apply wp_ret. apply wp_bind. eapply blank_finish; [done|]. intros s16 H16 E16. by apply wp_ret.
Qed.

(** ** Calls of the program *)

(** A call through the port; [blob] is what its uninitialised local holds. *)
Inductive kv_call : Type :=
  | call_get (blob : fdb_blob) (key : list Z) (value : option (list Z)) (size : Z)
  | call_set (blob : fdb_blob) (key : list Z) (value : option (list Z)) (size : Z)
  | call_del (key : list Z).
Definition call_key (c : kv_call) : list Z :=
  match c with call_get _ key _ _ => key | call_set _ key _ _ => key | call_del key => key end.
#[local] Abbreviation get_value := (flashdb_get_kv_value device_table vprintf stack_sector stack_kv).
#[local] Abbreviation set_value := (flashdb_set_kv_value device_table vprintf file_name stack_sector stack_kv).
#[local] Abbreviation del_value := (flashdb_del_kv_value device_table vprintf file_name stack_sector stack_kv).
(** The result, and the buffer a get leaves. *)
Definition run_call (c : kv_call) : M K (Z * option (list Z)) :=
  match c with
  | call_get blob key value size => get_value blob key value size
  | call_set blob key value size => r ← set_value blob key value size; mret (r, None)
  | call_del key => r ← del_value key; mret (r, None)
  end.
Fixpoint run_calls (cs : list kv_call) : M K (list (Z * option (list Z))) :=
  match cs with
  | [] => mret []
  | c :: cs => r ← run_call c; rs ← run_calls cs; mret (r :: rs)
  end.
(** What it returns when nothing is stored: a get and a deletion fail, and a set succeeds when the garbage of its local says so. *)
Definition lost_result (c : kv_call) : Z * option (list Z) :=
  match c with
  | call_get _ _ value _ => (1, value)
  | call_set blob _ _ _ => (if decide (saved_len blob > 0) then 0 else 1, None)
  | call_del _ => (1, None)
  end.

Definition running (s : K) : Prop := blank s ∧ init_ok (parent (kv_db s)) = true.
Lemma running_when_init {A} (none : A) (f : M K A) s (Q : A → K → Prop) :
  running s →
  (∀ t, blank t → parent (kv_db t) = parent (kv_db s) →
     wp f t (λ a t', blank t' ∧ parent (kv_db t') = parent (kv_db t) ∧ ∀ u, running u → Q a u)) →
  wp (when_init vprintf none f) s Q.
Proof.
  intros [Hb Hok] Hf. unfold when_init. apply wp_bind, wp_gets. rewrite Hok. apply wp_bind, wp_bind.
  eapply blank_lock; [done|]. intros s1 H1 E1. eapply wp_mono; [apply Hf; [done|by rewrite E1]|]. intros a s2 (H2 & E2 & HQ).
  apply wp_bind. eapply blank_unlock; [done|]. intros s3 H3 E3. apply wp_ret, HQ. split; [done|]. by rewrite E3, E2, E1.
Qed.
Lemma running_call c s :
  running s → Forall is_u8 (call_key c) → wp (run_call c) s (λ r s', r = lost_result c ∧ running s').
Proof.
  intros Hs Hk. destruct c as [blob key value size0|blob key value size0|key]; cbn [run_call lost_result call_key] in *.
  - unfold flashdb_get_kv_value, fdb_kv_get_blob. apply wp_bind, running_when_init; [done|]. intros t Ht Et.
    apply wp_bind. eapply blank_get; [done|done|]. intros t1 H1 E1. cbv beta iota. apply wp_ret. split_and!; [done|by rewrite E1|].
    intros u Hu. by apply wp_ret.
  - apply wp_bind. unfold flashdb_set_kv_value, fdb_kv_set_blob. apply wp_bind, running_when_init; [done|]. intros t Ht Et.
    eapply blank_set_kv; [done|done|]. intros r t1 _ H1 E1. split_and!; [done..|]. intros u Hu. by apply wp_ret, wp_ret.
  - apply wp_bind. unfold flashdb_del_kv_value, fdb_kv_del. apply wp_bind, running_when_init; [done|]. intros t Ht Et.
    eapply blank_del; [done|done|]. intros t1 H1 E1. split_and!; [done|by rewrite E1|]. intros u Hu. by apply wp_ret, wp_ret.
Qed.
Lemma running_calls cs s :
  running s → Forall (λ c, Forall is_u8 (call_key c)) cs → wp (run_calls cs) s (λ rs s', rs = lost_result <$> cs ∧ running s').
Proof.
  intros Hs Hcs. revert s Hs. induction Hcs as [|c cs Hc _ IH]; intros s Hs; cbn [run_calls]; [by apply wp_ret|].
  wp_with running_call; [done..|]. intros r s1 [-> H1].
  wp_with IH; [done|]. intros rs s2 [-> H2]. by apply wp_ret.
Qed.

(** The static database starts with a zeroed sector cache, whose first entry then answers every read of sector 0 with the
    address 0 and the combination 0.  The initialisation searches the oldest sector before it empties that cache: the search
    returns 0 whatever the flash holds, and does not look at it. *)
Theorem oldest_addr_lost rest s :
  sized (kv_db s) → sector_cache_table (kv_db s) = zero_sector :: rest →
  find_oldest device_table vprintf stack_sector stack_kv s = Ok 0 (mk_ks (set_oldest_addr 0 (kv_db s)) (kv_fal s) (log_is_show s)).
Proof. apply zeroed_oldest. Qed.
End Lost.

(** ** A flash whose oldest sector is the second *)

(** Headers of an empty sector and of one in use, the first two sectors of the flash. *)
Definition header (store : Z) : list Z := [store; 0xFF; 0xFF; 0xFF; 0x46; 0x44; 0x42; 0x30; 0xFF; 0xFF; 0xFF; 0xFF; 0xFF; 0xFF; 0xFF; 0xFF].
Definition turned_mem : Z → Z := programmed 256 (header 0x3F) (programmed 0 (header 0x7F) (λ _, 0xFF)).
Definition with_cache (table : list kvdb_sec_info) : kv_state ram :=
  mk_ks (set_sector_cache table (ram_db zero_sector)) (ram_fal (mk_ram turned_mem 0)) false.
Definition find_ram (table : list kvdb_sec_info) : option Z :=
  match find_oldest ram_devices ram_print zero_sector no_kv (with_cache table) with Ok a _ => Some a | Fault _ => None end.
(** With an emptied cache the search finds the second sector. *)
Lemma oldest_addr_lost_witness :
  let s := with_cache (replicate 8 zero_sector) in
  find_oldest ram_devices ram_print zero_sector no_kv s = Ok 0 (mk_ks (set_oldest_addr 0 (kv_db s)) (kv_fal s) (log_is_show s)) ∧
  find_ram (replicate 8 (set_sec_addr FDB_DATA_UNUSED zero_sector)) = Some 256.
Proof.
  intros s. split; [|by vm_compute].
  refine (oldest_addr_lost ram_devices ram_print zero_sector no_kv 0 ram_size ram_size ram_blk ram_good ram_cell ram_power
    (λ _, true) 256 16 _ (replicate 7 zero_sector) s _ eq_refl); [split_and!; [done|done|done|lia]|done].
Defined.
