(* ===== verification/KvProgram.v ===== *)
(** * The key-value store of the program

    The store of [KvApi.v] with the program's partition, device and flash port.  The port has the laws of
    [PartFlash] with no byte of budget: reads of up to 59 bytes and erases work, writes do nothing
    and report success.  So the store starts, and keeps nothing. *)
From S2P Require Import Prelude W25qxx W25qxxOps W25qxxProps FlashPort FlashPortProps Fal FalProps FdbUtils FdbProps KvData KvRead KvWrite KvApi KvFlash KvNode KvPower KvLost.

Section Program.
Context {W : Type} (spiStart : M W Z) (spiStop : M W unit) (spiExchange : list Z → M W (list Z))
  (spiAcquireBus spiSelect spiUnselect spiReleaseBus : M W unit)
  (chThdSleepMilliseconds chThdSleepMicroseconds : Z → M W unit)
  (print : string → M W unit) (chprintf : string → list Z → M W unit).
#[local] Abbreviation D := (w25qxx_dyn (flash_io W)).
Context (vprintf : string → list farg → M D unit).
Context (size : Z) (mem : W → Z → Z) (wel : W → bool) (busy : W → nat)
  `{SpiFlash0 : !SpiFlash spiExchange spiAcquireBus spiSelect spiUnselect spiReleaseBus
      chThdSleepMilliseconds chThdSleepMicroseconds size mem wel busy}
  `{SpiIdent0 : !SpiIdent spiExchange chThdSleepMilliseconds mem wel busy}.
#[local] Abbreviation mem' := (λ s : flash_io W, mem (host s)).
#[local] Abbreviation busy' := (λ s : flash_io W, busy (host s)).
#[local] Abbreviation printf := (λ msg, vprintf msg []).
#[local] Abbreviation table := (FAL_FLASH_DEV_TABLE spiStart spiStop spiExchange spiAcquireBus spiSelect spiUnselect
  spiReleaseBus chThdSleepMilliseconds chThdSleepMicroseconds print chprintf).
#[local] Abbreviation part_size := (1024 * 1024).

(** Printing does not touch the chip or the handle, the SPI starts, and the partition fits in the chip. *)
#[local] Abbreviation same := (same mem wel busy).
Hypothesis console_same : ∀ fmt args w, wp (chprintf fmt args) w (λ _ w', same w w').
Hypothesis print_same : ∀ msg w, wp (print msg) w (λ _ w', same w w').
Hypothesis vprintf_same : ∀ fmt args d, wp (vprintf fmt args) d (λ _ d', ∃ s, d' = set_world s d ∧ same (host (world d)) (host s)).
Hypothesis start_ok : ∀ w, wp spiStart w (λ msg w', msg = HAL_RET_SUCCESS ∧ same w w').
Hypothesis part_fits : part_size <= size.

(** ** The partition *)

Definition part_bytes (f : fal_state D) : Z → Z := flash mem' (platform f).
Definition part_ready (f : fal_state D) : Prop := fal_ready mem busy (part_bytes f) f.

Lemma ready_bytes m f : fal_ready mem busy m f → part_ready f ∧ ∀ a, part_bytes f a = m a.
Proof. intros (H1&H2&H3&H4&H5&Hm). split; [by split_and!|done]. Qed.
Lemma part_access {A} m1 m2 m3 (none : A) a n f (op : fal_flash_dev D → Z → M D (Z * A)) (Q : Z * A → fal_state D → Prop) :
  part_ready f → 0 <= a → 0 <= n → a + n <= part_size →
  (∀ dev, table !! 0%nat = Some dev → wp (op dev a) (platform f) (λ r d, 0 <= r.1 ∧ idle busy' d ∧
     (∀ f', part_ready f' → (∀ x, part_bytes f' x = flash mem' d x) → Q r f'))) →
  wp (fal_access table printf m1 m2 m3 none 0 a n op) f Q.
Proof.
  intros (H1&Ht&Hc&Hl&Hi&Hm) Ha Hn Hb HQ. unfold fal_access, part_at. apply wp_bind, wp_bind, wp_gets. rewrite Ht.
  apply wp_bind. eapply wp_lift; [done|]. eapply wp_lift; [done|]. cbn [part_len offset].
  rewrite u32_id by (unfold is_u32; lia). change (1 * 1024 * 1024) with (1024 * 1024). rewrite decide_False by lia.
  apply wp_bind. unfold flash_device_find_by_part. apply wp_bind, wp_gets. rewrite Hc. eapply wp_lift; [done|].
  apply wp_bind. eapply wp_lift; [done|]. rewrite Z.add_0_l.
  assert (to_long a = a) as -> by (unfold to_long; rewrite u32_id by (unfold is_u32; lia); by rewrite decide_True by lia).
  apply wp_bind, wp_on_flash. eapply wp_mono; [by apply HQ|]. intros [r o] d (Hr & Hid & HQ'). cbn [fst] in Hr.
  rewrite decide_False by lia. apply wp_bind, wp_ret, wp_ret. apply HQ'; [|done]. by split_and!.
Qed.
#[export] Instance program_flash :
  PartFlash table vprintf 0 part_size 59 4096 part_ready part_bytes (λ _, O) (λ _, true).
Proof.
  split.
  - lia.
  - done.
  - intros f a. exact (spi_bytes _ _ _ _ _ _ _ (host (world (platform f))) a).
  - intros fmt args f Hf. pose proof Hf as (H1&H2&H3&H4&(Hc&Hb)&_). apply wp_on_flash.
    eapply wp_mono; [apply vprintf_same|]. intros [] d (s & -> & Hb' & _ & Hm'). split_and!; try done.
    refine (conj H1 (conj H2 (conj H3 (conj H4 (conj (conj Hc _) _))))); simpl; [by rewrite Hb'|done].
  - intros f (_&Ht&_). unfold part_at. apply wp_bind, wp_gets. rewrite Ht. apply wp_bind. eapply wp_lift; [done|]. by eapply wp_lift.
  - intros f a n Hg Ha Hn Hb. pose proof Hg as (_&_&_&_&Hi&_). unfold fal_partition_read. eapply part_access; [done|lia..|].
    intros dev [= <-]. cbn [ops_read w25q64_flash].
    eapply wp_mono; [apply (port_read_runs _ _ _ _ _ _ _ _ _ print chprintf size mem wel busy); [done..|lia]|].
    intros r d (-> & Hi' & Hm'). split; [done|]. split; [done|]. intros f' Hf' E. split_and!; try done. intros x. by rewrite E, Hm'.
  - intros f a data n Hg Ha Hn Hb Hd. pose proof Hg as (_&_&_&_&Hi&_). unfold fal_partition_write. apply wp_bind.
    eapply part_access; [done|lia..|]. intros dev [= <-]. cbn [ops_write w25q64_flash]. unfold without. apply wp_bind.
    eapply wp_mono; [apply (port_write_runs _ _ _ _ _ _ _ _ _ print chprintf mem wel busy); done|].
    intros r d (-> & Hi' & Hm'). apply wp_ret. split; [done|]. split; [done|]. intros f' Hf' E. apply wp_ret. split_and!; try done.
    intros x. rewrite E, Hm'. unfold programmed. rewrite take_0. cbn [length]. by rewrite decide_False by lia.
  - intros f a n Hg Ha Hn Hab Hnb Hb. pose proof Hg as (_&_&_&_&Hi&_). unfold fal_partition_erase. apply wp_bind.
    pose proof (Z.div_mod n 4096 ltac:(lia)). assert ((n + 4095) / 4096 * 4096 = n) as Hup.
    { rewrite (Z.mul_comm _ 4096). pose proof (Z.div_mod (n + 4095) 4096 ltac:(lia)). pose proof (Z.mod_pos_bound (n + 4095) 4096 ltac:(lia)). lia. }
    eapply part_access; [done|lia..|]. intros dev [= <-]. cbn [ops_erase w25q64_flash]. unfold without. apply wp_bind.
    eapply wp_mono; [apply (port_erase_runs _ _ _ _ _ _ _ _ _ print size mem wel busy); [done..|rewrite Hup; lia]|].
    intros r d (-> & Hi' & Hm'). apply wp_ret. split; [done|]. split; [done|]. intros f' Hf' E. apply wp_ret. split_and!; try done.
    intros x. rewrite E, Hm', Hup. unfold erased. done.
Qed.

(** ** The start *)

#[local] Abbreviation K := (kv_state D).
#[local] Abbreviation store_start := (fal_start FAL_PART_TABLE).
(** The static database, all zeros. *)
Definition static_kvdb : fdb_kvdb D :=
  mk_kvdb (mk_db "" None 0 0 false false) false 0 None None [] false false (mk_kv 0 false 0 0 0 (replicate 64 0) 0 0) zero_sector false
    (replicate FDB_KV_CACHE_TABLE_SIZE (mk_node 0 0 0)) (replicate FDB_SECTOR_CACHE_TABLE_SIZE zero_sector).
Definition store_db : fdb_db := mk_db "w25q64" (Some 0%nat) 4096 part_size false false.
(** A function of the system that leaves the chip, the handle and the layer alone. *)
Definition beside (m : M (fal_state D) unit) : Prop := ∀ f, wp m f (λ _ f', ∃ s,
  f' = mk_fal (fal_init_ok f) (flash_init_ok f) (part_init_ok f) (partition_table f) (partition_table_len f) (part_flash_cache f)
         (set_world s (platform f)) ∧ same (host (world (platform f))) (host s)).
Lemma beside_quiet m : beside m → quiet part_ready part_bytes (λ _, O) m.
Proof.
  intros Hm f (H1&H2&H3&H4&(Hc&Hb)&_). eapply wp_mono; [apply Hm|]. intros [] f' (s & -> & Hb' & _ & Hm').
  split; [|done]. refine (conj H1 (conj H2 (conj H3 (conj H4 (conj (conj Hc _) _))))); simpl; [by rewrite Hb'|done].
Qed.
Lemma init_ex_runs (d : D) :
  busy' (world d) = O →
  wp (_fdb_init_ex table FAL_PART_TABLE printf (parent static_kvdb) "w25q64" "kvdb1") (store_start d) (λ r f,
    r = (FDB_NO_ERR, store_db) ∧ part_ready f ∧ ∀ a, part_bytes f a = flash mem' d a).
Proof.
  intros Hb. unfold _fdb_init_ex. cbn [static_kvdb parent init_ok set_db_name file_mode].
  wp_with (fal_init_runs spiStart spiStop spiExchange spiAcquireBus spiSelect spiUnselect spiReleaseBus
    chThdSleepMilliseconds chThdSleepMicroseconds print chprintf printf size mem wel busy); [done|intros; apply vprintf_same|done|done|].
  intros _ f [_ Hf]. apply wp_bind. eapply (find_kvdb1 mem busy); [done|]. intros _.
  pose proof Hf as (_&Ht&_). apply wp_bind. unfold part_at. apply wp_bind, wp_gets. rewrite Ht.
  apply wp_bind. eapply wp_lift; [done|]. eapply wp_lift; [done|].
  apply wp_bind. eapply wp_lift; [done|]. apply wp_bind. eapply wp_lift; [done|].
  cbn [set_db_part sec_size]. rewrite decide_True by done. unfold check_sizes, FDB_ASSERT.
  apply wp_bind. rewrite bool_decide_eq_true_2 by done. apply wp_ret.
  rewrite !decide_False by done. apply wp_ret. split; [done|]. by apply ready_bytes.
Qed.

Section Store.
Context (file_name : string) (stack_sector : kvdb_sec_info) (stack_kv : fdb_kv) (retries : nat)
  (chMtxObjectInit fdb_lock fdb_unlock : M (fal_state D) unit) (console : string → list farg → M (fal_state D) unit).
Hypothesis mutex_beside : beside chMtxObjectInit ∧ beside fdb_lock ∧ beside fdb_unlock.
Hypothesis console_beside : ∀ fmt args, beside (console fmt args).
Definition w25q_start : M (fal_state D) unit :=
  on_flash (w25q_init spiStart spiStop spiExchange spiAcquireBus spiSelect spiUnselect spiReleaseBus
    chThdSleepMilliseconds chThdSleepMicroseconds print chprintf);; mret tt.
(** The start of the program's store, and some calls. *)
Definition store_session (cs : list kv_call) : M K (Z * list (Z * option (list Z))) :=
  r ← flashdb_init table FAL_PART_TABLE vprintf file_name stack_sector stack_kv retries w25q_start chMtxObjectInit fdb_lock fdb_unlock console;
  rs ← run_calls table vprintf file_name stack_sector stack_kv cs;
  mret (r, rs).
#[local] Abbreviation running := (running 0 part_size part_ready part_bytes (λ _, O) 4096 256).

Lemma part_sizes : 32 <= 4096 ∧ 4096 `mod` 4096 = 0 ∧ part_size = Z.of_nat 256 * 4096 ∧ (2 ≤ 256)%nat.
Proof. split_and!; [done|done|done|lia]. Qed.
Lemma beside_start m (d : D) (Q : unit → fal_state D → Prop) :
  beside m → busy' (world d) = O →
  (∀ d', busy' (world d') = O → (∀ a, flash mem' d' a = flash mem' d a) → Q tt (store_start d')) → wp m (store_start d) Q.
Proof.
  intros Hm Hb HQ. eapply wp_mono; [apply Hm|]. intros [] f' (s & -> & Hb' & _ & Hm').
  apply (HQ (set_world s d)); [by simpl in *; rewrite Hb'|exact Hm'].
Qed.
Lemma flashdb_init_runs (d : D) :
  busy' (world d) = O → no_header 4096 256 (flash mem' d) → (0 < retries)%nat →
  wp (flashdb_init table FAL_PART_TABLE vprintf file_name stack_sector stack_kv retries w25q_start chMtxObjectInit fdb_lock fdb_unlock console)
    (mk_ks static_kvdb (store_start d) false) (λ r s, r = 0 ∧ running s).
Proof.
  intros Hb Hm Hr. destruct mutex_beside as (Hmtx & Hlock & Hunlock). unfold flashdb_init.
  apply wp_bind, wp_on_fal. cbn [kv_fal]. eapply beside_start; [done..|]. intros d1 Hb1 Hm1.
  apply wp_bind, wp_on_fal. unfold w25q_start. apply wp_bind, wp_on_flash. cbn [platform kv_fal fal_start].
  eapply wp_mono; [by eapply (port_init_runs _ _ _ _ _ _ _ _ _ print chprintf size mem wel busy)|].
  intros _ d2 (_ & [_ Hb2] & _ & Hm2). apply wp_ret.
  apply wp_bind, wp_bind, wp_modify, wp_ret, wp_bind, wp_bind, wp_modify, wp_ret.
  set (s := mk_ks _ _ _). cbn [kv_db kv_fal log_is_show] in s.
  assert (∀ a, flash mem' d2 a = flash mem' d a) as Hm' by (intros a; by rewrite Hm2, Hm1).
  apply wp_bind. eapply wp_mono.
  { eapply (blank_init table FAL_PART_TABLE vprintf file_name stack_sector stack_kv retries 0 part_size 59 4096
      part_ready part_bytes (λ _, O) (λ _, true) 4096 256 part_sizes "w25q64" "kvdb1" default_kv_table store_db
      (replicate 7 zero_sector) s).
    - apply wp_on_fal. eapply wp_mono; [apply (init_ex_runs d2 Hb2)|]. intros r f (-> & Hf & Hb3).
      split; [done|]. split; [done|]. exists (flash mem' d). split; [split_and!|]; try done.
      intros a. cbn [kv_fal]. by rewrite Hb3, Hm'.
    - done.
    - done.
    - done.
    - intros f [[= <-]|[= <-]]; by apply beside_quiet.
    - repeat constructor. by eexists.
    - done. }
  intros r s1 (-> & H1 & Hok). rewrite decide_False by (intros Hne; by apply Hne). apply wp_bind.
  eapply blank_quiet; [exact H1|by apply beside_quiet|]. intros s2 H2 E2. apply wp_ret.
  split; [done|]. split; [done|]. by rewrite E2.
Qed.

(** C19. The program's store on a flash without a sector header, a new one for instance: the start reports success, and every call
    gets the answer of a store that keeps nothing.  A value can never be read back, whatever was set before, and nothing faults or
    hangs; a set reports success when the garbage of an uninitialised local is positive. *)
Theorem store_keeps_nothing cs (d : D) :
  busy' (world d) = O → no_header 4096 256 (flash mem' d) → (0 < retries)%nat → Forall (λ c, Forall is_u8 (call_key c)) cs →
  wp (store_session cs) (mk_ks static_kvdb (store_start d) false) (λ r s,
    r = (0, lost_result <$> cs) ∧ no_header 4096 256 (part_bytes (kv_fal s))).
Proof.
  intros Hb Hm Hr Hcs. unfold store_session. wp_with flashdb_init_runs; [done..|]. intros r s [-> Hs].
  apply wp_bind. eapply wp_mono; [apply (running_calls _ _ _ _ _ 0 part_size 59 4096 part_ready part_bytes (λ _, O) (λ _, true) 4096 256 part_sizes); done|].
  intros rs s' (-> & ((m & (_&_&Hc&_) & Hm') & _) & _). apply wp_ret. split; [done|].
  intros i Hi Hle. apply (Hm' i Hi). rewrite <-Hle. f_equal. by apply list_fmap_ext.
Qed.
End Store.
End Program.

(** ** The demonstration chip *)

Definition quiet_vprintf : string → list farg → M (w25qxx_dyn (flash_io chip)) unit := λ _ _, mret tt.
Lemma demo_no_header : no_header 4096 256 (flash (λ s : flash_io chip, cell (host s)) demo_io).
Proof.
  intros i Hi. assert (∀ a, a ≠ 4095 → flash (λ s : flash_io chip, cell (host s)) demo_io a = 0xFF) as Ha.
  { intros a Ha. unfold flash, cell. cbn. by rewrite decide_False by done. }
  assert (∀ a, seqZ a 4 = [a; a + 1; a + 2; a + 3]) as -> by (intros a; apply (list_eq_same_length _ _ 4); [done|by rewrite length_seqZ|];
    intros k x y Hk H1 H2; apply lookup_seqZ in H1 as [-> _]; do 4 (destruct k as [|k]; [injection H2 as <-; lia|]); lia).
  cbn [fmap list_fmap]. rewrite !Ha by lia. done.
Qed.
(** A set that reports success, and a get of the same key that fails. *)
Lemma store_keeps_nothing_witness :
  let blob := mk_blob 0 0 0 1 in
  wp (store_session (mret 0) (mret tt) frame_exchange (mret tt) (mret tt) (mret tt) (mret tt) sleep_ms sleep_us
        quiet_print quiet_console quiet_vprintf "fdb_kvdb.c" zero_sector no_kv 1 (mret tt) (mret tt) (mret tt) (λ _ _, mret tt)
        [call_set blob [97] (Some [1]) 1; call_get blob [97] (Some [7]) 1])
    (mk_ks static_kvdb (fal_start FAL_PART_TABLE demo_io) false) (λ r s,
      r = (0, [(0, None); (1, Some [7])]) ∧ no_header 4096 256 (part_bytes (λ c, cell c) (kv_fal s))).
Proof.
  intros blob.
  refine (store_keeps_nothing _ _ _ _ _ _ _ _ _ _ _ _ 8388608 cell latch remaining (SpiFlash0 := demo_spi) (SpiIdent0 := demo_ident)
    _ _ _ _ _ "fdb_kvdb.c" zero_sector no_kv 1 _ _ _ _ _ _
    [call_set blob [97] (Some [1]) 1; call_get blob [97] (Some [7]) 1] demo_io eq_refl demo_no_header _ _); try done.
  - intros fmt args d. exists (world d). by destruct d.
  - split_and!; intros f; exists (world (platform f)); by destruct f as [? ? ? ? ? ? []].
  - intros fmt args f. exists (world (platform f)). by destruct f as [? ? ? ? ? ? []].
  - lia.
  - repeat constructor; unfold is_u8; lia.
Defined.
