(* ===== verification/KvGet.v ===== *)
(** * Setting and getting through the cache of KVs

    A KV whose address the cache holds is found there, and its value is what was set last. *)
From S2P Require Import Prelude W25qxx W25qxxProps Fal FdbUtils FdbProps KvData KvRead KvWrite KvFlash KvNode KvBurn KvPower KvCache.

Section Get.
Context {S : Type} (device_table : list (fal_flash_dev S)) (vprintf : string → list farg → M S unit) (file_name : string)
  (stack_sector : kvdb_sec_info) (stack_kv : fdb_kv)
  (p : nat) (size cap blk : Z) (good : fal_state S → Prop) (cell : fal_state S → Z → Z)
  (budget : fal_state S → nat) (erases : fal_state S → bool)
  `{HP : !PartFlash device_table vprintf p size cap blk good cell budget erases} (ssz : Z).
Hypothesis stack_name : length (kv_name stack_kv) = 64%nat.
(** Names are read whole. *)
Hypothesis name_cap : 64 <= cap.
#[local] Abbreviation K := (kv_state S).
#[local] Abbreviation flash_is := (flash_is p size good cell budget ssz).
#[local] Abbreviation find_kv := (find_kv device_table vprintf stack_sector stack_kv).
#[local] Abbreviation get_kv := (get_kv device_table vprintf stack_sector stack_kv).
#[local] Abbreviation set_kv := (set_kv device_table vprintf file_name stack_sector stack_kv).
#[local] Abbreviation new_kv_ex := (new_kv_ex device_table vprintf file_name stack_sector stack_kv).

(** The states that a search through the cache leaves: the table only aged. *)
Definition searched (s s' : K) : Prop :=
  alike (kv_cache_table (kv_db s)) (kv_cache_table (kv_db s')) ∧ parent (kv_db s') = parent (kv_db s) ∧
  cur_sector (kv_db s') = cur_sector (kv_db s) ∧ cur_kv (kv_db s') = cur_kv (kv_db s) ∧ gc_request (kv_db s') = gc_request (kv_db s).

Lemma strncmp_prefix a rest : strncmp_same (length a) a (a ++ rest) = Some true.
Proof.
  induction a as [|x a IH]; [done|]. cbn [length strncmp_same app]. rewrite decide_False by (by intros []). by case_decide.
Qed.
Lemma cache_hit_runs m k a st key value s (Q : option Z → K → Prop) :
  flash_is m k s → cache_ok (kv_cache_table (kv_db s)) → cached (kv_cache_table (kv_db s)) (key_crc key) = Some a →
  storable key value → mem_at m a (node_bytes st key value) → 0 <= a → a + 88 <= size →
  (∀ s', flash_is m k s' → searched s s' → Q (Some a) s') →
  wp (get_kv_from_cache device_table vprintf key) s Q.
Proof.
  intros Hs Hok Hc Hst Hm Ha Hb HQ. destruct part_size as [_ Hsz]. unfold get_kv_from_cache. apply wp_bind.
  pose proof Hst as (Hk & _ & Hkl & _). eapply wp_lift; [by apply kv_name_crc_some|].
  unfold cached in Hc. destruct (list_find _ _) as [[i n]|] eqn:E; [|done]. injection Hc as Hadr.
  apply list_find_Some in E as (Hi & [Hcrc Hl] & Hbefore). unfold live in Hl. pose proof Hok as (Hlen & _ & Hact).
  assert (∀ todo j, (j + todo = FDB_KV_CACHE_TABLE_SIZE)%nat → (j ≤ i)%nat →
    wp (kv_cache_find device_table vprintf todo j (key_crc key) key) s Q) as Hfind; [|by apply Hfind; [|lia]].
  pose proof (lookup_lt_Some _ _ _ Hi) as Hlt.
  intros todo. induction todo as [|todo IH]; intros j Hj Hji; [lia|]. cbn [kv_cache_find].
  apply wp_bind, wp_gets, wp_bind.
  destruct (decide (j = i)) as [->|Hne].
  - eapply wp_lift; [exact Hi|]. rewrite decide_True by done. rewrite Hadr, kv_hdr_size, u32_id by (unfold is_u32; lia).
    apply wp_bind. unfold FDB_KV_NAME_MAX. eapply kv_read_runs; [exact Hs|lia|lia|lia|]. intros s1 (E1&L1&R1) H1.
    cbv beta iota. rewrite (decide_True (P := 64 <= cap)) by lia.
    apply wp_bind, store_into_runs; [by rewrite length_fmap, length_seqZ, length_replicate|].
    rewrite length_fmap, length_seqZ, drop_replicate. change (Z.to_nat 64) with 64%nat. change (64 - 64)%nat with 0%nat. cbn [replicate].
    assert (∃ rest, m <$> seqZ (a + 24) 64 = key ++ rest) as [rest Hname].
    { exists (m <$> seqZ (a + 24 + Z.of_nat (length key)) (64 - Z.of_nat (length key))).
      replace 64 with (Z.of_nat (length key) + (64 - Z.of_nat (length key))) at 1 by lia. rewrite seqZ_app, fmap_app by lia. f_equal.
      unfold node_bytes in Hm. rewrite mem_at_app, node_hdr_length, mem_at_app in Hm. apply Hm. }
    rewrite Hname, app_nil_r. apply wp_bind. eapply wp_lift; [apply strncmp_prefix|]. cbv iota zeta.
    apply wp_bind, wp_kset. set (act := if decide _ then _ else _). apply wp_ret. apply HQ.
    + by apply flash_is_db.
    + unfold searched. cbn [kv_db]. rewrite E1. split_and!; try done. cbn [kv_cache_table set_kv_cache].
      pose proof (Hact _ _ Hi) as Hacti. unfold alike. apply Forall2_same_length_lookup. split; [by rewrite length_alter|].
      intros j x y Hx Hy. pose proof (Hact _ _ Hx). destruct (decide (i = j)) as [<-|Hij].
      * rewrite list_lookup_alter_eq, Hx in Hy. injection Hy as <-. cbn [name_crc node_addr active set_active].
        split_and!; try done; unfold act; case_decide; lia.
      * rewrite list_lookup_alter_ne, Hx in Hy by done. by injection Hy as <-.
  - destruct (lookup_lt_is_Some_2 (kv_cache_table (kv_db s)) j ltac:(lia)) as [e He]. eapply wp_lift; [exact He|].
    rewrite decide_False; [apply IH; lia|]. intros [He1 He2]. apply (Hbefore j e He ltac:(lia)). done.
Qed.
Lemma find_kv_cached m k a st key value kv s (Q : bool * fdb_kv → K → Prop) :
  flash_is m k s → cache_ok (kv_cache_table (kv_db s)) → cached (kv_cache_table (kv_db s)) (key_crc key) = Some a →
  storable key value → mem_at m a (node_bytes st key value) → (st < 6)%nat → 0 <= a → a + 88 <= size → a + node_len key value <= size →
  length (kv_name kv) = 64%nat →
  (∀ s', flash_is m k s' → searched s s' → Q (true, node_kv st a key value (kv_name kv)) s') → wp (find_kv key kv) s Q.
Proof.
  intros Hs Hok Hc Hst Hm Hst6 Ha Hb Hb2 Hn HQ. unfold find_kv. apply wp_bind. eapply cache_hit_runs; [done..|].
  intros s1 H1 Hs1. cbv beta iota. pose proof Hst as (_ & _ & Hkl & _).
  apply wp_bind. eapply read_kv_runs; [exact H1|done|done|done|done|done|lia|done|done|]. intros s2 (E2&L2&R2) H2.
  apply wp_ret. apply HQ; [done|]. unfold searched. by rewrite E2.
Qed.
Lemma get_kv_cached m k a key value buf n s (Q : Z * Z * option (list Z) → K → Prop) :
  flash_is m k s → cache_ok (kv_cache_table (kv_db s)) → cached (kv_cache_table (kv_db s)) (key_crc key) = Some a →
  storable key value → mem_at m a (node_bytes FDB_KV_WRITE key value) → 0 <= a → a + 88 <= size → a + node_len key value <= size →
  let len := Z.min n (Z.of_nat (length value)) in
  0 < n → len <= cap → len <= Z.of_nat (length buf) →
  (∀ s', flash_is m k s' → searched s s' → Q (len, Z.of_nat (length value), Some (take (Z.to_nat len) value ++ drop (Z.to_nat len) buf)) s') →
  wp (get_kv key (Some buf) n) s Q.
Proof.
  intros Hs Hok Hc Hst Hm Ha Hb Hb2 len Hn Hcap Hbuf HQ. unfold get_kv. apply wp_bind.
  eapply find_kv_cached; [done|done|done|done|done|unfold FDB_KV_WRITE; lia|done|done|done|done|]. intros s1 H1 Hs1. cbv beta iota zeta. cbn [node_kv kv_value_len addr_value].
  pose proof Hst as (_ & _ & Hkl & Hvl & _).
  assert ((if decide (n > Z.of_nat (length value)) then Z.of_nat (length value) else n) = len) as -> by (unfold len; case_decide; lia).
  unfold node_len in *. apply wp_bind. eapply kv_read_runs; [exact H1|lia|lia|lia|]. intros s2 (E2&L2&R2) H2. rewrite (decide_True (P := len <= cap)) by done.
  assert (m <$> seqZ (a + 24 + Z.of_nat (length key)) len = take (Z.to_nat len) value) as ->.
  { unfold node_bytes in Hm. rewrite !mem_at_app, node_hdr_length in Hm. destruct Hm as (_ & _ & Hv).
    replace (a + Z.of_nat 24 + Z.of_nat (length key)) with (a + 24 + Z.of_nat (length key)) in Hv by lia.
    pose proof (mem_at_read m _ value 0 len Hv) as Hr. rewrite Z.add_0_r in Hr. apply Hr; lia. }
  apply wp_bind, store_into_runs; [rewrite length_take; lia|]. rewrite length_take, Nat.min_l by lia.
  apply wp_ret. apply HQ; [done|]. unfold searched. by rewrite E2.
Qed.

Lemma searched_cache s s' crc a :
  searched s s' → cache_ok (kv_cache_table (kv_db s)) → cached (kv_cache_table (kv_db s)) crc = Some a →
  cache_ok (kv_cache_table (kv_db s')) ∧ cached (kv_cache_table (kv_db s')) crc = Some a.
Proof. intros (Ht & _) Hok Hc. split; [by eapply alike_ok|]. by rewrite (alike_cached _ _ _ Ht). Qed.

(** The place that an allocation gives for a KV: erased, in the sector it describes, with room behind it. *)
Definition free_place (m : Z → Z) (a : Z) (sector : kvdb_sec_info) (key value : list Z) : Prop :=
  sec_empty_kv sector = a ∧ sec_addr sector = FDB_ALIGN_DOWN a ssz ∧ (sector_step sector (node_len key value)).2 = false ∧
  erased_at m a (node_len key value) ∧ 0 <= a ∧ a + 88 <= size ∧ a + node_len key value <= size ∧ in_sector ssz a (node_len key value).
(** Where a stored KV is. *)
Definition stored (m : Z → Z) (o : Z) (key old : list Z) : Prop :=
  storable key old ∧ mem_at m o (node_bytes FDB_KV_WRITE key old) ∧ 0 <= o ∧ o + 88 <= size ∧ o + node_len key old <= size ∧
  in_sector ssz o (node_len key old).
Lemma set_kv_runs m k sector o a key old value s (Q : Z → K → Prop) :
  flash_is m k s → 0 < ssz < 2 ^ 32 → length (kv_name (cur_kv (kv_db s))) = 64%nat →
  cache_ok (kv_cache_table (kv_db s)) → cached (kv_cache_table (kv_db s)) (key_crc key) = Some o →
  stored m o key old → storable key value →
  wp (new_kv_ex (cur_sector (kv_db s)) (Z.of_nat (length key)) (Z.of_nat (length value))) s (λ r s1,
    r = (a, sector) ∧ flash_is m k s1 ∧ searched s s1 ∧ gc_request (kv_db s1) = false) →
  free_place m a sector key value → o + node_len key old <= a ∨ a + node_len key value <= o →
  80 + 2 * node_len key value <= Z.of_nat k →
  (∀ m' k' s', flash_is m' k' s' → mem_at m' a (node_bytes FDB_KV_WRITE key value) → cache_ok (kv_cache_table (kv_db s')) →
     cached (kv_cache_table (kv_db s')) (key_crc key) = Some a → Q FDB_NO_ERR s') →
  wp (set_kv key (Some value) (Z.of_nat (length value))) s Q.
Proof.
  intros Hs Hss Hn Hok Hc (Hso & Hmo & Ho & Hob & Hob2 & Hoin) Hsv Halloc (Hse & Hsec & Hstep & Her & Ha & Hab & Hab2 & Hain) Hdis Hk HQ.
  destruct part_size as [_ Hsz]. unfold KvWrite.set_kv. apply wp_bind, wp_gets, wp_bind.
  eapply wp_mono; [exact Halloc|]. intros r s1 (-> & H1 & Hs1 & Hg1). cbv beta iota. apply wp_bind, wp_kset.
  rewrite decide_False by (unfold FAILED_ADDR; lia). apply wp_bind, wp_gets. cbn [kv_db cur_kv set_cur_sector].
  destruct (searched_cache _ _ _ _ Hs1 Hok Hc) as [Hok1 Hc1]. destruct Hs1 as (_ & _ & _ & Hcur & _).
  apply wp_bind. eapply (find_kv_cached m k o FDB_KV_WRITE key old); [by apply flash_is_db|done|done|done|done|unfold FDB_KV_WRITE; lia|done|done|done|by rewrite Hcur|].
  intros s2 H2 Hs2. cbv beta iota. apply wp_bind, wp_kset, wp_bind. set (kv := node_kv _ _ _ _ _).
  destruct (searched_cache _ _ _ _ Hs2 Hok1 Hc1) as [Hok2 Hc2]. destruct Hs2 as (_ & _ & Hsc2 & _ & Hg2). cbn [kv_db cur_sector set_cur_sector gc_request] in *.
  set (s3 := mk_ks _ _ _). assert (flash_is m k s3) as H3 by (by apply flash_is_db).
  eapply (replace_runs _ _ _ _ _ _ _ _ _ _ _ _ _ ssz m k sector o a key old value kv s3); try done; [lia..|].
  intros h1 h2 s4 H4 _ Ht4 Hg4.
  apply wp_bind, wp_gets. rewrite (Hg4 Hstep). cbn [s3 kv_db gc_request set_cur_kv]. rewrite Hg2. cbn [kv_db gc_request set_cur_sector]. rewrite Hg1.
  apply wp_bind, wp_ret, wp_ret.
  destruct (put_runs (kv_cache_table (kv_db s2)) (key_crc key) a) as (Hok4 & Hc4 & _); [done|unfold FDB_DATA_UNUSED; lia|].
  eapply HQ; [exact H4| |by rewrite Ht4|by rewrite Ht4].
  pose proof (replace_seq_length ssz sector o a key value h1 h2). eapply (whole_bytes ssz); try done; lia.
Qed.

(** C21. Set, then get, on a flash that works, when there is room.  Assumed are: the key is stored and in the cache; the search for
    a place, [new_kv_ex], finds one without asking for garbage collection, off the old KV, in a sector that stays open, erased;
    and the flash still takes the programmings of a set.  (On a full store the search fails, and so does the set.)  Then setting
    succeeds, and getting finds the new value through the cache, its length, and as many of its bytes as were asked for, at
    the start of the caller's buffer. *)
Theorem set_then_get m k sector o a key old value buf n s :
  flash_is m k s → 0 < ssz < 2 ^ 32 → length (kv_name (cur_kv (kv_db s))) = 64%nat →
  cache_ok (kv_cache_table (kv_db s)) → cached (kv_cache_table (kv_db s)) (key_crc key) = Some o →
  stored m o key old → storable key value →
  wp (new_kv_ex (cur_sector (kv_db s)) (Z.of_nat (length key)) (Z.of_nat (length value))) s (λ r s1,
    r = (a, sector) ∧ flash_is m k s1 ∧ searched s s1 ∧ gc_request (kv_db s1) = false) →
  free_place m a sector key value → o + node_len key old <= a ∨ a + node_len key value <= o →
  80 + 2 * node_len key value <= Z.of_nat k →
  let len := Z.min n (Z.of_nat (length value)) in
  0 < n → len <= cap → len <= Z.of_nat (length buf) →
  wp (r ← set_kv key (Some value) (Z.of_nat (length value)); g ← get_kv key (Some buf) n; mret (r, g)) s (λ r _,
    r = (FDB_NO_ERR, (len, Z.of_nat (length value), Some (take (Z.to_nat len) value ++ drop (Z.to_nat len) buf)))).
Proof.
  intros Hs Hss Hn Hok Hc Hst Hsv Halloc Hfree Hdis Hk len Hn0 Hcap Hbuf. pose proof Hfree as (_ & _ & _ & _ & Ha & Hab & Hab2 & _).
  apply wp_bind. eapply set_kv_runs; try done. intros m' k' s1 H1 Hm1 Hok1 Hc1.
  apply wp_bind. eapply get_kv_cached; try done.
Qed.
End Get.

(** ** A value in memory that is set again *)

Definition sector_header (store : Z) : list Z :=
  [store; 0x7F; 0xFF; 0xFF; 0x46; 0x44; 0x42; 0x30; 0xFF; 0xFF; 0xFF; 0xFF; 0xFF; 0xFF; 0xFF; 0xFF].
(** A sector in use with the value 1 of "a", and an empty one. *)
Definition set_mem : Z → Z := programmed 256 (sector_header 0x7F) (programmed 0 (sector_header 0x3F) demo_mem).
Definition one_cached : list kv_cache_node := mk_node (key_crc [97]) 0 16 :: replicate 63 (mk_node 0 0 FDB_DATA_UNUSED).
Definition set_state : kv_state ram :=
  mk_ks (set_kv_cache one_cached (ram_db no_sector)) (ram_fal (mk_ram set_mem 200)) false.
Lemma one_cached_ok : cache_ok one_cached ∧ cached one_cached (key_crc [97]) = Some 16.
Proof.
  assert (∀ i n, (0 < i)%nat → one_cached !! i = Some n → n = mk_node 0 0 FDB_DATA_UNUSED) as Hdead.
  { intros [|i] n Hi Hn; [lia|]. by apply lookup_replicate in Hn as [-> _]. }
  split; [split; [done|split]|].
  - intros i j n n' Hij _ Hj _ Hl. apply Hdead in Hj as ->; [|lia]. by apply Hl.
  - intros [|i] n Hi; [injection Hi as <-; split; done|]. apply Hdead in Hi as ->; [done|lia].
  - unfold cached, one_cached. cbn [list_find]. by rewrite decide_True by (split; [done|unfold live; done]).
Qed.
Lemma set_mem_u8 a : is_u8 (set_mem a).
Proof. unfold set_mem. by repeat (rewrite <-u8_programmed; [apply u8_range|]; intros x; apply demo_bytes || (rewrite <-u8_programmed; [apply u8_range|]; apply demo_bytes)). Qed.
Lemma set_is s : kv_fal s = kv_fal set_state → parent (kv_db s) = parent (kv_db set_state) → flash_is 0 ram_size ram_good ram_cell ram_power 256 set_mem 200 s.
Proof.
  intros Hf Hp. unfold flash_is, on_part. rewrite Hf, Hp. split_and!; try done. intros a. apply (u8_id (set_mem a)), set_mem_u8.
Qed.
Lemma set_mem_behind x : 16 <= x < 256 → set_mem x = demo_mem x.
Proof. intros Hx. unfold set_mem, programmed. cbn [length sector_header]. by rewrite !decide_False by lia. Qed.
Lemma set_stored : stored ram_size 256 set_mem 16 [97] [1].
Proof.
  split; [by apply demo_storable; split; lia|]. split.
  { eapply mem_at_ext; [|apply demo_node]. intros x Hx. rewrite node_bytes_length in Hx. unfold node_len in Hx. cbn [length] in Hx.
    symmetry. apply set_mem_behind. lia. }
  unfold ram_size, in_sector, node_len. split_and!; try lia; done.
Qed.
Lemma set_free : free_place ram_size 256 set_mem 42 demo_sector [97] [2].
Proof.
  unfold free_place, ram_size, in_sector, node_len. split_and!; try done; try lia.
  intros x Hx. cbn [length] in Hx. rewrite set_mem_behind by lia. unfold demo_mem, programmed.
  rewrite node_bytes_length. unfold node_len. cbn [length]. by rewrite decide_False by lia.
Qed.
(** The sectors that the allocation meets and caches. *)
Definition set_found : list kvdb_sec_info :=
  replicate 6 (set_sec_addr FDB_DATA_UNUSED no_sector) ++
  [mk_sec true FDB_SECTOR_STORE_EMPTY FDB_SECTOR_DIRTY_FALSE 256 SECTOR_MAGIC_WORD SECTOR_NOT_COMBINED 0 FAILED_ADDR; demo_sector].
Lemma set_alloc :
  wp (new_kv_ex ram_devices ram_print "fdb_kvdb.c" no_sector no_kv no_sector 1 1) set_state (λ r s1,
    r = (42, demo_sector) ∧ flash_is 0 ram_size ram_good ram_cell ram_power 256 set_mem 200 s1 ∧ searched set_state s1 ∧
    gc_request (kv_db s1) = false).
Proof.
  apply (wp_ok _ _ (42, demo_sector) (mk_ks (set_sector_cache set_found (kv_db set_state)) (kv_fal set_state) false)); [reflexivity|].
  split; [done|]. split; [by apply set_is|split; [|done]]. split; [|done].
  apply Forall_Forall2_diag, Forall_lookup. intros i n Hi. cbn [kv_db kv_cache_table set_kv_cache set_state] in Hi.
  pose proof (proj2 (proj2 (proj1 one_cached_ok)) i n Hi). split_and!; try done; lia.
Qed.
Lemma set_then_get_witness :
  let len := Z.min 4 (Z.of_nat (length [2])) in
  wp (r ← set_kv ram_devices ram_print "fdb_kvdb.c" no_sector no_kv [97] (Some [2]) 1;
      g ← get_kv ram_devices ram_print no_sector no_kv [97] (Some [9; 9]) 4; mret (r, g)) set_state (λ r _,
    r = (FDB_NO_ERR, (len, Z.of_nat (length [2]), Some (take (Z.to_nat len) [2] ++ drop (Z.to_nat len) [9; 9])))).
Proof.
  intros len.
  refine (set_then_get ram_devices ram_print "fdb_kvdb.c" no_sector no_kv 0 ram_size ram_size ram_blk ram_good ram_cell ram_power
    (λ _, true) 256 eq_refl _ set_mem 200 demo_sector 16 42 [97] [1] [2] [9; 9] 4 set_state
    (set_is set_state eq_refl eq_refl) _ eq_refl (proj1 one_cached_ok) (proj2 one_cached_ok) set_stored (demo_storable 2 _) set_alloc set_free _ _ _ _ _);
    unfold ram_size, is_u8, node_len; try (cbn; lia); done.
Defined.
