(* ===== verification/TsData.v ===== *)
(** * The data of FlashDB's time series store: [src/src/flashdb/inc/fdb_def.h] and the head of [fdb_tsdb.c]

    The structures of the store and the bytes of its headers in the flash.  [fdb_time_t] is an
    [int32_t]; the sizes and the tables of states are those of [FdbUtils.v] and [KvData.v]. *)
From S2P Require Import Prelude W25qxx Fal FdbUtils KvData KvRead.

(** ** Constants *)

Definition FDB_TSL_UNUSED : nat := 0.
Definition FDB_TSL_PRE_WRITE : nat := 1.
Definition FDB_TSL_WRITE : nat := 2.
Definition FDB_TSL_USER_STATUS1 : nat := 3.
Definition FDB_TSL_DELETED : nat := 4.
Definition FDB_TSL_USER_STATUS2 : nat := 5.
Definition FDB_TSL_STATUS_NUM : nat := 6.

Definition TSL_MAGIC_WORD : Z := 0x304C5354.
Definition sizeof_tsl_sector_hdr : nat := 40.
Definition sizeof_log_idx_data : nat := 16.
Definition TSL_SECTOR_HDR_SIZE : Z := FDB_WG_ALIGN (Z.of_nat sizeof_tsl_sector_hdr).
Definition LOG_IDX_DATA_SIZE : Z := FDB_WG_ALIGN (Z.of_nat sizeof_log_idx_data).
Definition LOG_IDX_TS_OFFSET : Z := 4.
Definition TSL_MAGIC_OFFSET : Z := 4.
Definition SECTOR_START_TIME_OFFSET : Z := 8.
Definition SECTOR_END0_TIME_OFFSET : Z := 12.
Definition SECTOR_END0_IDX_OFFSET : Z := 16.
Definition SECTOR_END0_STATUS_OFFSET : Z := 20.
Definition SECTOR_END1_TIME_OFFSET : Z := 24.
Definition SECTOR_END1_IDX_OFFSET : Z := 28.
Definition SECTOR_END1_STATUS_OFFSET : Z := 32.

(** ** Headers *)

(** A signed time as its bytes, and back. *)
Definition time_bytes (t : Z) : list Z := le_bytes 4 (u32 t).
Definition time_at (off : nat) (bytes : list Z) : Z := to_long (u32_at off bytes).

(** The members in the order of the structures; the padding behind a table of states is not
    used. *)
Record tsl_end_info : Type := mk_end { end_hdr_time : Z; end_hdr_index : Z; end_hdr_status : list Z }.
Record tsl_sector_hdr : Type := mk_tsl_hdr {
  tsl_hdr_status : list Z; tsl_hdr_magic : Z; tsl_hdr_start : Z; tsl_hdr_end0 : tsl_end_info; tsl_hdr_end1 : tsl_end_info }.
Record log_idx_data : Type := mk_idx { idx_status_table : list Z; idx_time : Z; idx_log_len : Z; idx_log_addr : Z }.

Definition end_info_of (off : nat) (bytes : list Z) : tsl_end_info :=
  mk_end (time_at off bytes) (u32_at (4 + off) bytes) (take 1 (drop (8 + off) bytes)).
Definition tsl_sector_hdr_of (bytes : list Z) : tsl_sector_hdr :=
  mk_tsl_hdr (take 1 bytes) (u32_at 4 bytes) (time_at 8 bytes) (end_info_of 12 bytes) (end_info_of 24 bytes).
Definition log_idx_of (bytes : list Z) : log_idx_data :=
  mk_idx (take 1 bytes) (time_at 4 bytes) (u32_at 8 bytes) (u32_at 12 bytes).
(** The bytes of an index from its time on. *)
Definition log_idx_tail (time log_len log_addr : Z) : list Z :=
  time_bytes time ++ le_bytes 4 log_len ++ le_bytes 4 log_addr.

(** ** Structures *)

Record fdb_tsl : Type := mk_tsl { tsl_status : nat; tsl_time : Z; tsl_log_len : Z; tsl_index : Z; tsl_log : Z }.
Record tsdb_sec_info : Type := mk_tsec {
  tsec_check_ok : bool; tsec_status : nat; tsec_addr : Z; tsec_magic : Z; tsec_start_time : Z; tsec_end_time : Z;
  tsec_end_idx : Z; tsec_end0 : nat; tsec_end1 : nat; tsec_remain : Z; tsec_empty_idx : Z; tsec_empty_data : Z }.

(** The result of a header whose magic word is wrong: the other members stay. *)
Definition set_tsec_bad (addr magic : Z) (s : tsdb_sec_info) : tsdb_sec_info :=
  mk_tsec false (tsec_status s) addr magic (tsec_start_time s) (tsec_end_time s) (tsec_end_idx s)
    (tsec_end0 s) (tsec_end1 s) (tsec_remain s) (tsec_empty_idx s) (tsec_empty_data s).
Definition set_tsec_addr (v : Z) (s : tsdb_sec_info) : tsdb_sec_info :=
  mk_tsec (tsec_check_ok s) (tsec_status s) v (tsec_magic s) (tsec_start_time s) (tsec_end_time s) (tsec_end_idx s)
    (tsec_end0 s) (tsec_end1 s) (tsec_remain s) (tsec_empty_idx s) (tsec_empty_data s).
Definition set_tsec_status (v : nat) (s : tsdb_sec_info) : tsdb_sec_info :=
  mk_tsec (tsec_check_ok s) v (tsec_addr s) (tsec_magic s) (tsec_start_time s) (tsec_end_time s) (tsec_end_idx s)
    (tsec_end0 s) (tsec_end1 s) (tsec_remain s) (tsec_empty_idx s) (tsec_empty_data s).
Definition set_tsec_start (v : Z) (s : tsdb_sec_info) : tsdb_sec_info :=
  mk_tsec (tsec_check_ok s) (tsec_status s) (tsec_addr s) (tsec_magic s) v (tsec_end_time s) (tsec_end_idx s)
    (tsec_end0 s) (tsec_end1 s) (tsec_remain s) (tsec_empty_idx s) (tsec_empty_data s).
Definition set_tsec_end (time idx : Z) (s : tsdb_sec_info) : tsdb_sec_info :=
  mk_tsec (tsec_check_ok s) (tsec_status s) (tsec_addr s) (tsec_magic s) (tsec_start_time s) time idx
    (tsec_end0 s) (tsec_end1 s) (tsec_remain s) (tsec_empty_idx s) (tsec_empty_data s).
Definition set_tsec_space (idx data rem : Z) (s : tsdb_sec_info) : tsdb_sec_info :=
  mk_tsec (tsec_check_ok s) (tsec_status s) (tsec_addr s) (tsec_magic s) (tsec_start_time s) (tsec_end_time s)
    (tsec_end_idx s) (tsec_end0 s) (tsec_end1 s) rem idx data.

(** [lock], [unlock] and [get_time] are functions of the platform. *)
Record fdb_tsdb (S : Type) : Type := mk_tsdb {
  ts_parent : fdb_db; ts_not_formatable : bool; ts_oldest_addr : Z;
  ts_lock : option (M (fal_state S) unit); ts_unlock : option (M (fal_state S) unit);
  ts_cur_sec : tsdb_sec_info; ts_last_time : Z; ts_get_time : option (M (fal_state S) Z);
  ts_max_len : Z; ts_rollover : bool }.
Arguments mk_tsdb {S}.
Arguments ts_parent {S}.
Arguments ts_not_formatable {S}.
Arguments ts_oldest_addr {S}.
Arguments ts_lock {S}.
Arguments ts_unlock {S}.
Arguments ts_cur_sec {S}.
Arguments ts_last_time {S}.
Arguments ts_get_time {S}.
Arguments ts_max_len {S}.
Arguments ts_rollover {S}.

Section Setters.
Context {S : Type}.
Definition set_ts_parent (v : fdb_db) (d : fdb_tsdb S) : fdb_tsdb S :=
  mk_tsdb v (ts_not_formatable d) (ts_oldest_addr d) (ts_lock d) (ts_unlock d) (ts_cur_sec d) (ts_last_time d)
    (ts_get_time d) (ts_max_len d) (ts_rollover d).
Definition set_ts_not_formatable (v : bool) (d : fdb_tsdb S) : fdb_tsdb S :=
  mk_tsdb (ts_parent d) v (ts_oldest_addr d) (ts_lock d) (ts_unlock d) (ts_cur_sec d) (ts_last_time d)
    (ts_get_time d) (ts_max_len d) (ts_rollover d).
Definition set_ts_oldest (v : Z) (d : fdb_tsdb S) : fdb_tsdb S :=
  mk_tsdb (ts_parent d) (ts_not_formatable d) v (ts_lock d) (ts_unlock d) (ts_cur_sec d) (ts_last_time d)
    (ts_get_time d) (ts_max_len d) (ts_rollover d).
Definition set_ts_lock (v : option (M (fal_state S) unit)) (d : fdb_tsdb S) : fdb_tsdb S :=
  mk_tsdb (ts_parent d) (ts_not_formatable d) (ts_oldest_addr d) v (ts_unlock d) (ts_cur_sec d) (ts_last_time d)
    (ts_get_time d) (ts_max_len d) (ts_rollover d).
Definition set_ts_unlock (v : option (M (fal_state S) unit)) (d : fdb_tsdb S) : fdb_tsdb S :=
  mk_tsdb (ts_parent d) (ts_not_formatable d) (ts_oldest_addr d) (ts_lock d) v (ts_cur_sec d) (ts_last_time d)
    (ts_get_time d) (ts_max_len d) (ts_rollover d).
Definition set_ts_cur (v : tsdb_sec_info) (d : fdb_tsdb S) : fdb_tsdb S :=
  mk_tsdb (ts_parent d) (ts_not_formatable d) (ts_oldest_addr d) (ts_lock d) (ts_unlock d) v (ts_last_time d)
    (ts_get_time d) (ts_max_len d) (ts_rollover d).
Definition set_ts_last_time (v : Z) (d : fdb_tsdb S) : fdb_tsdb S :=
  mk_tsdb (ts_parent d) (ts_not_formatable d) (ts_oldest_addr d) (ts_lock d) (ts_unlock d) (ts_cur_sec d) v
    (ts_get_time d) (ts_max_len d) (ts_rollover d).
Definition set_ts_source (time : option (M (fal_state S) Z)) (len : Z) (d : fdb_tsdb S) : fdb_tsdb S :=
  mk_tsdb (ts_parent d) (ts_not_formatable d) (ts_oldest_addr d) (ts_lock d) (ts_unlock d) (ts_cur_sec d) (ts_last_time d)
    time len (ts_rollover d).
Definition set_ts_rollover (v : bool) (d : fdb_tsdb S) : fdb_tsdb S :=
  mk_tsdb (ts_parent d) (ts_not_formatable d) (ts_oldest_addr d) (ts_lock d) (ts_unlock d) (ts_cur_sec d) (ts_last_time d)
    (ts_get_time d) (ts_max_len d) v.
End Setters.

(** The database, the flash abstraction layer below it, and whether the banner was printed. *)
Record ts_state (S : Type) : Type := mk_tss { ts_db : fdb_tsdb S; ts_fal : fal_state S; ts_log_is_show : bool }.
Arguments mk_tss {S}.
Arguments ts_db {S}.
Arguments ts_fal {S}.
Arguments ts_log_is_show {S}.
