(* ===== verification/TsDb.v ===== *)
(** * FlashDB's time series store: [src/src/flashdb/src/fdb_tsdb.c]

    Every function of the file.  The conventions are those of [KvRead.v]: a structure the C code
    passes by pointer is an argument and a result, [stack_sector] is what an uninitialised local
    holds, and reading bytes that a failed read did not store is the fault [Uninitialised].  The
    callback of an iterator has an argument of its own and leaves the TSL as it is.

    The loops carry fuel.  An index moves by 16 bytes, and behind the database its read stores
    nothing, so a turn for each 16 bytes with some to spare is enough; sectors are counted by their
    sizes; the binary search halves an interval of 32-bit addresses. *)
From S2P Require Import Prelude W25qxx Fal FdbUtils KvData KvRead TsData.

Section Tsdb.
Context {S : Type} (device_table : list (fal_flash_dev S)) (partition_table_def : list fal_partition)
  (vprintf : string → list farg → M S unit) (file_name : string) (stack_sector : tsdb_sec_info).
#[local] Abbreviation T := (ts_state S).
#[local] Abbreviation printf := (λ msg, vprintf msg []).

Definition ts_on_fal {A} (m : M (fal_state S) A) : M T A := λ s,
  match m (ts_fal s) with
  | Ok a f => Ok a (mk_tss (ts_db s) f (ts_log_is_show s))
  | Fault f => Fault f
  end.
Definition tget {A} (f : fdb_tsdb S → A) : M T A := mgets (λ s, f (ts_db s)).
Definition tset (f : fdb_tsdb S → fdb_tsdb S) : M T unit :=
  mmodify (λ s, mk_tss (f (ts_db s)) (ts_fal s) (ts_log_is_show s)).
Definition ts_sec_size (d : fdb_tsdb S) : Z := sec_size (ts_parent d).
Definition ts_max_size (d : fdb_tsdb S) : Z := max_size (ts_parent d).
Definition ts_fuel (d : fdb_tsdb S) : nat := Z.to_nat (ts_max_size d / LOG_IDX_DATA_SIZE) + 2.
Definition ts_sector_fuel (d : fdb_tsdb S) : nat := Z.to_nat (ts_max_size d / ts_sec_size d) + 2.

(** ** Printing, locks and assertions *)

Definition TS_PRINT (fmt : string) (args : list farg) : M T unit := ts_on_fal (on_flash (vprintf fmt args)).
Definition ts_db_path : M T (option string) :=
  db ← tget ts_parent;
  if file_mode db then mret None else
  part ← mlift NullCall (db_part db);
  p ← ts_on_fal (part_at part);
  mret (Some (part_name p)).
Definition ts_prefix : M T unit :=
  TS_PRINT "[FlashDB][tsl]" [];;
  path ← ts_db_path;
  name ← tget (λ d, db_name (ts_parent d));
  TS_PRINT "[%s][%s] " [FStr (Some name); FStr path].
Definition ts_info (fmt : string) (args : list farg) : M T unit := ts_prefix;; TS_PRINT fmt args.
Definition ts_debug (line : Z) (fmt : string) (args : list farg) : M T unit :=
  ts_prefix;; TS_PRINT "(%s:%d) " [FStr (Some file_name); FInt line];; TS_PRINT fmt args.
Definition ts_assert (b : bool) : M T unit := if b then mret tt else mfail Diverged.
Definition ts_db_lock : M T unit := f ← tget ts_lock; match f with Some f => ts_on_fal f | None => mret tt end.
Definition ts_db_unlock : M T unit := f ← tget ts_unlock; match f with Some f => ts_on_fal f | None => mret tt end.

(** ** Accesses *)

Definition ts_read (addr size : Z) : M T (Z * list Z) :=
  db ← tget ts_parent; ts_on_fal (_fdb_flash_read device_table printf db addr size).
Definition ts_write (addr : Z) (data : list Z) (size : Z) : M T Z :=
  db ← tget ts_parent; ts_on_fal (_fdb_flash_write device_table printf db addr data size).
Definition ts_erase (addr size : Z) : M T Z :=
  db ← tget ts_parent; ts_on_fal (_fdb_flash_erase device_table printf db addr size).
(** The table of states is a local of the caller. *)
Definition ts_write_status (addr : Z) (num idx : nat) : M T Z :=
  db ← tget ts_parent;
  '(r, _) ← ts_on_fal (_fdb_write_status device_table printf db addr stack_table num idx);
  mret r.
(** [m] and, unless it fails, [k]: the macros [_FDB_WRITE_STATUS] and [FLASH_WRITE]. *)
Definition ts_checked (m k : M T Z) : M T Z := r ← m; if decide (r ≠ FDB_NO_ERR) then mret r else k.
#[local] Notation "m ?? k" := (ts_checked m k) (at level 100, k at level 200, right associativity).
(** A structure of [n] bytes a read was to fill. *)
Definition ts_struct (n : nat) (addr : Z) : M T (list Z) :=
  '(_, out) ← ts_read addr (Z.of_nat n);
  mlift Uninitialised (if decide (n ≤ length out)%nat then Some (take n out) else None).

(** ** Addresses *)

Definition read_tsl (index : Z) : M T fdb_tsl :=
  raw ← ts_struct sizeof_log_idx_data index;
  let idx := log_idx_of raw in
  st ← mlift OutOfBounds (_fdb_get_status (idx_status_table idx) FDB_TSL_STATUS_NUM);
  if decide (st = FDB_TSL_PRE_WRITE ∨ st = FDB_TSL_UNUSED) then
    max_len ← tget ts_max_len;
    mret (mk_tsl st 0 max_len index FDB_DATA_UNUSED)
  else mret (mk_tsl st (idx_time idx) (idx_log_len idx) index (idx_log_addr idx)).
Definition ts_next_sector_addr (d : fdb_tsdb S) (pre_sec : tsdb_sec_info) (traversed_len : Z) : Z :=
  if decide (u32 (traversed_len + ts_sec_size d) <= ts_max_size d) then
    if decide (u32 (tsec_addr pre_sec + ts_sec_size d) < ts_max_size d) then u32 (tsec_addr pre_sec + ts_sec_size d) else 0
  else FAILED_ADDR.
Definition get_next_tsl_addr (sector : tsdb_sec_info) (pre_tsl : fdb_tsl) : Z :=
  if decide (tsec_status sector = FDB_SECTOR_STORE_EMPTY) then FAILED_ADDR else
  if decide (u32 (tsl_index pre_tsl + LOG_IDX_DATA_SIZE) <= tsec_end_idx sector)
  then u32 (tsl_index pre_tsl + LOG_IDX_DATA_SIZE) else FAILED_ADDR.
Definition get_last_tsl_addr (sector : tsdb_sec_info) (pre_tsl : fdb_tsl) : Z :=
  if decide (tsec_status sector = FDB_SECTOR_STORE_EMPTY) then FAILED_ADDR else
  if decide (tsl_index pre_tsl >= u32 (tsec_addr sector + TSL_SECTOR_HDR_SIZE + LOG_IDX_DATA_SIZE))
  then u32 (tsl_index pre_tsl - LOG_IDX_DATA_SIZE) else FAILED_ADDR.
Definition get_last_sector_addr (d : fdb_tsdb S) (pre_sec : tsdb_sec_info) (traversed_len : Z) : Z :=
  if decide (u32 (traversed_len + ts_sec_size d) <= ts_max_size d) then
    if decide (tsec_addr pre_sec >= ts_sec_size d) then u32 (tsec_addr pre_sec - ts_sec_size d)
    else u32 (ts_max_size d - ts_sec_size d)
  else FAILED_ADDR.

(** ** Sectors *)

(** The loop over the TSLs of a sector in use. *)
Fixpoint sector_tsls (fuel : nat) (index : Z) (sector : tsdb_sec_info) : M T (Z * tsdb_sec_info) :=
  match fuel with
  | O => mfail Diverged
  | Datatypes.S fuel =>
      tsl ← read_tsl index;
      if decide (tsl_status tsl = FDB_TSL_UNUSED) then mret (FDB_NO_ERR, sector) else
      let sector := set_tsec_end (if decide (tsl_status tsl ≠ FDB_TSL_PRE_WRITE) then tsl_time tsl else tsec_end_time sector)
                      index sector in
      let len := FDB_WG_ALIGN (tsl_log_len tsl) in
      let space := set_tsec_space (u32 (tsec_empty_idx sector + LOG_IDX_DATA_SIZE)) (u32 (tsec_empty_data sector - len)) in
      let index := u32 (index + LOG_IDX_DATA_SIZE) in
      if decide (tsec_remain sector > u32 (LOG_IDX_DATA_SIZE + len)) then
        sector_tsls fuel index (space (tsec_remain sector - u32 (LOG_IDX_DATA_SIZE + len)) sector)
      else
        ts_info "Error: this TSL (0x%08X) size (%u) is out of bound." [FInt index; FInt (tsl_log_len tsl)];;
        mret (FDB_READ_ERR, space 0 sector)
  end.
(** The end of the sector, by the first of the two records that was completed. *)
Definition sector_end (hdr : tsl_sector_hdr) (end0 end1 : nat) (sector : tsdb_sec_info) : M T tsdb_sec_info :=
  if decide (end0 = FDB_TSL_WRITE) then
    mret (set_tsec_end (end_hdr_time (tsl_hdr_end0 hdr)) (end_hdr_index (tsl_hdr_end0 hdr)) sector)
  else if decide (end1 = FDB_TSL_WRITE) then
    mret (set_tsec_end (end_hdr_time (tsl_hdr_end1 hdr)) (end_hdr_index (tsl_hdr_end1 hdr)) sector)
  else if decide (end0 = FDB_TSL_PRE_WRITE ∧ end1 = FDB_TSL_PRE_WRITE) then mfail Diverged
  else mret sector.
(** [sector] is what the caller's structure held. *)
Definition ts_read_sector_info (addr : Z) (sector : tsdb_sec_info) (traversal : bool) : M T (Z * tsdb_sec_info) :=
  raw ← ts_struct sizeof_tsl_sector_hdr addr;
  let hdr := tsl_sector_hdr_of raw in
  if decide (tsl_hdr_magic hdr ≠ TSL_MAGIC_WORD) then
    mret (FDB_INIT_FAILED, set_tsec_bad addr (tsl_hdr_magic hdr) sector)
  else
    st ← mlift OutOfBounds (_fdb_get_status (tsl_hdr_status hdr) FDB_SECTOR_STORE_STATUS_NUM);
    end0 ← mlift OutOfBounds (_fdb_get_status (end_hdr_status (tsl_hdr_end0 hdr)) FDB_TSL_STATUS_NUM);
    end1 ← mlift OutOfBounds (_fdb_get_status (end_hdr_status (tsl_hdr_end1 hdr)) FDB_TSL_STATUS_NUM);
    d ← tget id;
    let idx := u32 (addr + TSL_SECTOR_HDR_SIZE) in
    let data := u32 (addr + ts_sec_size d) in
    sector ← sector_end hdr end0 end1
      (mk_tsec true st addr (tsl_hdr_magic hdr) (tsl_hdr_start hdr) (tsec_end_time sector) (tsec_end_idx sector)
         end0 end1 (u32 (data - idx)) idx data);
    if decide (st = FDB_SECTOR_STORE_USING ∧ traversal = true) then sector_tsls (ts_fuel d) idx sector
    else mret (FDB_NO_ERR, sector).
Definition ts_format_sector (addr : Z) : M T Z :=
  size ← tget ts_sec_size;
  ts_assert (bool_decide (addr `mod` size = 0));;
  ts_erase addr size ??
  ts_write_status addr FDB_SECTOR_STORE_STATUS_NUM FDB_SECTOR_STORE_EMPTY ??
  ts_write (u32 (addr + TSL_MAGIC_OFFSET)) (le_bytes 4 TSL_MAGIC_WORD) 4.
Fixpoint ts_sectors {A} (fuel : nat) (sec_addr traversed_len : Z) (sector : tsdb_sec_info) (status : nat) (arg : A)
    (callback : tsdb_sec_info → A → M T (bool * A)) (traversal : bool) : M T (tsdb_sec_info * A) :=
  match fuel with
  | O => mfail Diverged
  | Datatypes.S fuel =>
      '(_, sector) ← ts_read_sector_info sec_addr sector false;
      '(stop, sector, arg) ←
        (if decide (status = FDB_SECTOR_STORE_UNUSED ∨ status = tsec_status sector) then
           '(_, sector) ← (if traversal then ts_read_sector_info sec_addr sector true else mret (FDB_NO_ERR, sector));
           '(stop, arg) ← callback sector arg;
           mret (stop, sector, arg)
         else mret (false, sector, arg));
      if (stop : bool) then mret (sector, arg) else
      d ← tget id;
      let traversed_len := u32 (traversed_len + ts_sec_size d) in
      let next := ts_next_sector_addr d sector traversed_len in
      if decide (next ≠ FAILED_ADDR) then ts_sectors fuel next traversed_len sector status arg callback traversal
      else mret (sector, arg)
  end.
(** Every caller passes a callback. *)
Definition ts_sector_iterator {A} (sector : tsdb_sec_info) (status : nat) (arg : A)
    (callback : tsdb_sec_info → A → M T (bool * A)) (traversal : bool) : M T (tsdb_sec_info * A) :=
  d ← tget id; ts_sectors (ts_sector_fuel d) (tsec_addr sector) 0 sector status arg callback traversal.

(** ** Appending *)

Definition write_tsl (blob : fdb_blob) (buf : list Z) (time : Z) : M T Z :=
  sec ← tget ts_cur_sec;
  let idx_addr := tsec_empty_idx sec in
  let log_addr := u32 (tsec_empty_data sec - FDB_WG_ALIGN (blob_size blob)) in
  ts_write_status idx_addr FDB_TSL_STATUS_NUM FDB_TSL_PRE_WRITE ??
  ts_write (u32 (idx_addr + LOG_IDX_TS_OFFSET)) (log_idx_tail time (blob_size blob) log_addr)
    (Z.of_nat sizeof_log_idx_data - LOG_IDX_TS_OFFSET) ??
  ts_write log_addr buf (blob_size blob) ??
  ts_write_status idx_addr FDB_TSL_STATUS_NUM FDB_TSL_WRITE.
(** The record of a sector's end with the given offsets. *)
Definition save_end (sec_addr end_index time_offset idx_offset status_offset : Z) : M T Z :=
  last_time ← tget ts_last_time;
  ts_write_status (u32 (sec_addr + status_offset)) FDB_TSL_STATUS_NUM FDB_TSL_PRE_WRITE ??
  ts_write (u32 (sec_addr + time_offset)) (time_bytes last_time) 4 ??
  ts_write (u32 (sec_addr + idx_offset)) (le_bytes 4 end_index) 4 ??
  ts_write_status (u32 (sec_addr + status_offset)) FDB_TSL_STATUS_NUM FDB_TSL_WRITE.
(** The step to the next sector; the caller's sector is [cur_sec] of the database. *)
Definition leave_sector : M T Z :=
  sec ← tget ts_cur_sec;
  let cur_sec_addr := tsec_addr sec in
  let end_index := u32 (tsec_empty_idx sec - LOG_IDX_DATA_SIZE) in
  (if decide (tsec_end0 sec = FDB_TSL_UNUSED) then
     save_end cur_sec_addr end_index SECTOR_END0_TIME_OFFSET SECTOR_END0_IDX_OFFSET SECTOR_END0_STATUS_OFFSET
   else if decide (tsec_end1 sec = FDB_TSL_UNUSED) then
     save_end cur_sec_addr end_index SECTOR_END1_TIME_OFFSET SECTOR_END1_IDX_OFFSET SECTOR_END1_STATUS_OFFSET
   else mret FDB_NO_ERR) ??
  ts_write_status cur_sec_addr FDB_SECTOR_STORE_STATUS_NUM FDB_SECTOR_STORE_FULL ??
  (tset (λ d, set_ts_cur (set_tsec_status FDB_SECTOR_STORE_FULL (ts_cur_sec d)) d);;
   d ← tget id;
   let next := if decide (u32 (cur_sec_addr + ts_sec_size d) < ts_max_size d) then Some (u32 (cur_sec_addr + ts_sec_size d))
               else if ts_rollover d then Some 0 else None in
   match next with
   | None => mret FDB_SAVED_FULL
   | Some new_sec_addr =>
       sec ← tget ts_cur_sec;
       '(_, sec) ← ts_read_sector_info new_sec_addr sec false;
       tset (set_ts_cur sec);;
       if decide (tsec_status sec ≠ FDB_SECTOR_STORE_EMPTY) then
         tset (set_ts_oldest (if decide (u32 (new_sec_addr + ts_sec_size d) < ts_max_size d)
                              then u32 (new_sec_addr + ts_sec_size d) else 0));;
         ts_format_sector new_sec_addr;;
         sec ← tget ts_cur_sec;
         '(_, sec) ← ts_read_sector_info new_sec_addr sec false;
         tset (set_ts_cur sec);;
         mret FDB_NO_ERR
       else mret FDB_NO_ERR
   end).
Definition start_sector (cur_time : Z) : M T Z :=
  tset (λ d, set_ts_cur (set_tsec_start cur_time (set_tsec_status FDB_SECTOR_STORE_USING (ts_cur_sec d))) d);;
  sec ← tget ts_cur_sec;
  ts_write_status (tsec_addr sec) FDB_SECTOR_STORE_STATUS_NUM FDB_SECTOR_STORE_USING ??
  ts_write (u32 (tsec_addr sec + SECTOR_START_TIME_OFFSET)) (time_bytes cur_time) 4.
Definition ts_update_sec_status (blob : fdb_blob) (cur_time : Z) : M T Z :=
  sec ← tget ts_cur_sec;
  (if decide (tsec_status sec = FDB_SECTOR_STORE_USING ∧
              tsec_remain sec < u32 (LOG_IDX_DATA_SIZE + FDB_WG_ALIGN (blob_size blob))) then leave_sector
   else if decide (tsec_status sec = FDB_SECTOR_STORE_FULL) then mret FDB_SAVED_FULL
   else mret FDB_NO_ERR) ??
  (sec ← tget ts_cur_sec;
   if decide (tsec_status sec = FDB_SECTOR_STORE_EMPTY) then start_sector cur_time else mret FDB_NO_ERR).
(** The counters after a TSL was written. *)
Definition count_tsl (size cur_time : Z) (d : fdb_tsdb S) : fdb_tsdb S :=
  let sec := ts_cur_sec d in
  let len := FDB_WG_ALIGN size in
  set_ts_last_time cur_time
    (set_ts_cur (set_tsec_space (u32 (tsec_empty_idx sec + LOG_IDX_DATA_SIZE)) (u32 (tsec_empty_data sec - len))
                   (u32 (tsec_remain sec - u32 (LOG_IDX_DATA_SIZE + len)))
                   (set_tsec_end cur_time (tsec_empty_idx sec) sec)) d).
(** The last part of [tsl_append]. *)
Definition append_tsl (blob : fdb_blob) (buf : list Z) (cur_time : Z) : M T Z :=
  result ← write_tsl blob buf cur_time;
  if decide (result ≠ FDB_NO_ERR) then ts_info "Error: write tsl failed (%d)" [FInt result];; mret result
  else tset (count_tsl (blob_size blob) cur_time);; mret result.
Definition tsl_append (blob : fdb_blob) (buf : list Z) (timestamp : option Z) : M T Z :=
  cur_time ← match timestamp with
             | Some t => mret t
             | None => f ← tget ts_get_time; f ← mlift NullCall f; ts_on_fal f
             end;
  d ← tget id;
  if decide (blob_size blob > ts_max_len d) then
    ts_info "Warning: append length (%jd) is more than the db->max_len (%jd). This tsl will be dropped."
      [FInt (blob_size blob); FInt (ts_max_len d)];;
    mret FDB_WRITE_ERR
  else if decide (cur_time <= ts_last_time d) then
    ts_info "Warning: current timestamp (%jd) is less than or equal to the last save timestamp (%jd). This tsl will be dropped."
      [FInt cur_time; FInt (ts_last_time d)];;
    mret FDB_WRITE_ERR
  else
    result ← ts_update_sec_status blob cur_time;
    if decide (result ≠ FDB_NO_ERR) then
      ts_info "Error: update the sector status failed (%d)" [FInt result];; mret result
    else append_tsl blob buf cur_time.
Definition not_initialised : M T unit :=
  name ← tget (λ d, db_name (ts_parent d));
  ts_info "Error: TSL (%s) isn't initialize OK." [FStr (Some name)].
Definition append_locked (blob : fdb_blob) (buf : list Z) (timestamp : option Z) : M T Z :=
  ok ← tget (λ d, init_ok (ts_parent d));
  if negb ok then not_initialised;; mret FDB_INIT_FAILED else
  ts_db_lock;;
  result ← tsl_append blob buf timestamp;
  ts_db_unlock;;
  mret result.
Definition fdb_tsl_append (blob : fdb_blob) (buf : list Z) : M T Z := append_locked blob buf None.
Definition fdb_tsl_append_with_ts (blob : fdb_blob) (buf : list Z) (timestamp : Z) : M T Z :=
  append_locked blob buf (Some timestamp).
End Tsdb.
