(* ===== verification/TsIter.v ===== *)
(** * FlashDB's time series store, iteration and start: [src/src/flashdb/src/fdb_tsdb.c]

    The iterators with the binary search of the one by time, the functions on a TSL, and the start,
    the options and the formatting of a database.  The conventions are those of [TsDb.v]. *)
From S2P Require Import Prelude W25qxx Fal FdbUtils KvData KvRead TsData TsDb.

Section Iterate.
Context {S : Type} (device_table : list (fal_flash_dev S)) (partition_table_def : list fal_partition)
  (vprintf : string → list farg → M S unit) (file_name : string) (stack_sector : tsdb_sec_info).
#[local] Abbreviation T := (ts_state S).
#[local] Abbreviation read_tsl := (read_tsl device_table vprintf).
#[local] Abbreviation ts_read_sector_info := (ts_read_sector_info device_table vprintf).
#[local] Abbreviation ts_write_status := (ts_write_status device_table vprintf).
#[local] Abbreviation ts_info := (ts_info vprintf).
#[local] Abbreviation ts_debug := (ts_debug vprintf file_name).
#[local] Abbreviation not_initialised := (not_initialised vprintf).
#[local] Abbreviation ts_format_sector := (ts_format_sector device_table vprintf).
#[local] Abbreviation ts_sector_iterator := (ts_sector_iterator device_table vprintf).

(** ** Iterators *)

(** The TSLs of a sector from an index on, in the direction of [next_of]. *)
Fixpoint tsl_walk {A} (fuel : nat) (next_of : fdb_tsl → Z) (cb : fdb_tsl → A → M T (bool * A)) (index : Z) (arg : A) :
    M T (bool * A) :=
  match fuel with
  | O => mfail Diverged
  | Datatypes.S fuel =>
      tsl ← read_tsl index;
      '(stop, arg) ← cb tsl arg;
      if (stop : bool) then mret (true, arg) else
      if decide (next_of tsl ≠ FAILED_ADDR) then tsl_walk fuel next_of cb (next_of tsl) arg else mret (false, arg)
  end.
(** The sector the database uses is known better in memory. *)
Definition in_memory (sector : tsdb_sec_info) : M T tsdb_sec_info :=
  if decide (tsec_status sector = FDB_SECTOR_STORE_USING) then tget ts_cur_sec else mret sector.
Definition has_tsl (res : Z) (sector : tsdb_sec_info) : Prop :=
  res = FDB_NO_ERR ∧ (tsec_status sector = FDB_SECTOR_STORE_USING ∨ tsec_status sector = FDB_SECTOR_STORE_FULL).
#[local] Instance has_tsl_dec res sector : Decision (has_tsl res sector).
Proof. unfold has_tsl. apply _. Defined.

(** The loop over the sectors: [visit] is its body behind the reading of the header, the
    [continue] of a header that is wrong included. *)
Fixpoint tsl_sectors {A} (fuel : nat) (next_of : fdb_tsdb S → tsdb_sec_info → Z → Z)
    (visit : Z → Z → tsdb_sec_info → A → M T (bool * tsdb_sec_info * A))
    (sec_addr traversed_len : Z) (sector : tsdb_sec_info) (arg : A) : M T A :=
  match fuel with
  | O => mfail Diverged
  | Datatypes.S fuel =>
      d ← tget id;
      let traversed_len := u32 (traversed_len + ts_sec_size d) in
      '(res, sector) ← ts_read_sector_info sec_addr sector false;
      '(stop, sector, arg) ← visit sec_addr res sector arg;
      if (stop : bool) then mret arg else
      d ← tget id;
      let next := next_of d sector traversed_len in
      if decide (next ≠ FAILED_ADDR) then tsl_sectors fuel next_of visit next traversed_len sector arg else mret arg
  end.
(** The message for a database that was not started does not end the iteration. *)
Definition warn_init : M T unit :=
  ok ← tget (λ d, init_ok (ts_parent d)); if negb ok then not_initialised else mret tt.

Definition iter_sector {A} (cb : fdb_tsl → A → M T (bool * A)) (_ res : Z) (sector : tsdb_sec_info) (arg : A) :
    M T (bool * tsdb_sec_info * A) :=
  if decide (has_tsl res sector) then
    sector ← in_memory sector;
    d ← tget id;
    '(stop, arg) ← tsl_walk (ts_fuel d) (get_next_tsl_addr sector) cb (u32 (tsec_addr sector + TSL_SECTOR_HDR_SIZE)) arg;
    mret (stop, sector, arg)
  else mret (false, sector, arg).
Definition fdb_tsl_iter {A} (cb : option (fdb_tsl → A → M T (bool * A))) (arg : A) : M T A :=
  warn_init;;
  match cb with
  | None => mret arg
  | Some cb =>
      d ← tget id;
      ts_db_lock;;
      arg ← tsl_sectors (ts_sector_fuel d) ts_next_sector_addr (iter_sector cb) (ts_oldest_addr d) 0 stack_sector arg;
      ts_db_unlock;;
      mret arg
  end.
Definition reverse_sector {A} (cb : fdb_tsl → A → M T (bool * A)) (_ res : Z) (sector : tsdb_sec_info) (arg : A) :
    M T (bool * tsdb_sec_info * A) :=
  if decide (has_tsl res sector) then
    sector ← in_memory sector;
    d ← tget id;
    '(stop, arg) ← tsl_walk (ts_fuel d) (get_last_tsl_addr sector) cb (tsec_end_idx sector) arg;
    mret (stop, sector, arg)
  else
    mret (bool_decide (res = FDB_NO_ERR ∧
                       (tsec_status sector = FDB_SECTOR_STORE_EMPTY ∨ tsec_status sector = FDB_SECTOR_STORE_UNUSED)),
          sector, arg).
Definition fdb_tsl_iter_reverse {A} (cb : option (fdb_tsl → A → M T (bool * A))) (arg : A) : M T A :=
  warn_init;;
  match cb with
  | None => mret arg
  | Some cb =>
      d ← tget id;
      ts_db_lock;;
      arg ← tsl_sectors (ts_sector_fuel d) get_last_sector_addr (reverse_sector cb) (tsec_addr (ts_cur_sec d)) 0
              stack_sector arg;
      ts_db_unlock;;
      mret arg
  end.

(** ** The iterator by time *)

(** [start] and [end_] are of type [int], an index is unsigned; the difference has to be an [int]. *)
Definition middle (start end_ : Z) : option Z :=
  if decide (- 2 ^ 31 <= end_ - start < 2 ^ 31)
  then Some (u32 (start + FDB_ALIGN (Z.quot (end_ - start) 2) LOG_IDX_DATA_SIZE)) else None.
Fixpoint search_loop (fuel : nat) (start end_ from to : Z) : M T Z :=
  match fuel with
  | O => mfail Diverged
  | Datatypes.S fuel =>
      index ← mlift Overflow (middle start end_);
      tsl ← read_tsl index;
      if decide (tsl_time tsl = from) then mret (to_long index) else
      let start := if decide (tsl_time tsl < from) then to_long (index + LOG_IDX_DATA_SIZE) else start in
      let end_ := if decide (tsl_time tsl > from) then to_long (index - LOG_IDX_DATA_SIZE) else end_ in
      if decide (start > end_) then
        if decide (from > to) then
          tsl ← read_tsl (u32 start);
          mret (if decide (tsl_time tsl > from) then to_long (start - LOG_IDX_DATA_SIZE) else start)
        else mret start
      else search_loop fuel start end_ from to
  end.
Definition search_start_tsl_addr (start end_ from to : Z) : M T Z :=
  search_loop 64 (to_long start) (to_long end_) from to.

Definition in_range (from to time : Z) : Prop :=
  (from <= to ∧ time >= from ∧ time <= to) ∨ (from > to ∧ time <= from ∧ time >= to).
#[local] Instance in_range_dec from to time : Decision (in_range from to time).
Proof. unfold in_range. apply _. Defined.
Definition by_time_cb {A} (from to : Z) (cb : fdb_tsl → A → M T (bool * A)) (tsl : fdb_tsl) (arg : A) : M T (bool * A) :=
  if decide (tsl_status tsl ≠ FDB_TSL_UNUSED) then
    if decide (in_range from to (tsl_time tsl)) then cb tsl arg else mret (true, arg)
  else mret (false, arg).
(** Whether the first TSL in question is in the sector or behind it. *)
Definition starts_here (from to sec_addr start_addr : Z) (sector : tsdb_sec_info) : Prop :=
  (from <= to ∧ ((sec_addr = start_addr ∧ from <= tsec_start_time sector) ∨ from <= tsec_end_time sector)) ∨
  (from > to ∧ ((sec_addr = start_addr ∧ from >= tsec_end_time sector) ∨ from >= tsec_start_time sector)).
#[local] Instance starts_here_dec from to sec_addr start_addr sector : Decision (starts_here from to sec_addr start_addr sector).
Proof. unfold starts_here. apply _. Defined.
(** The argument comes with [found_start_tsl]. *)
Definition by_time_sector {A} (from to start_addr : Z) (cb : fdb_tsl → A → M T (bool * A)) (sec_addr res : Z)
    (sector : tsdb_sec_info) (arg : bool * A) : M T (bool * tsdb_sec_info * (bool * A)) :=
  let '(found, arg) := arg in
  if decide (has_tsl res sector) then
    sector ← in_memory sector;
    if decide (found = true ∨ starts_here from to sec_addr start_addr sector) then
      index ← search_start_tsl_addr (u32 (tsec_addr sector + TSL_SECTOR_HDR_SIZE)) (tsec_end_idx sector) from to;
      d ← tget id;
      '(stop, arg) ← tsl_walk (ts_fuel d) (if decide (from <= to) then get_next_tsl_addr sector else get_last_tsl_addr sector)
                       (by_time_cb from to cb) (u32 index) arg;
      mret (stop, sector, (true, arg))
    else mret (false, sector, (found, arg))
  else mret (bool_decide (res = FDB_NO_ERR ∧ tsec_status sector = FDB_SECTOR_STORE_EMPTY), sector, (found, arg)).
Definition fdb_tsl_iter_by_time {A} (from to : Z) (cb : option (fdb_tsl → A → M T (bool * A))) (arg : A) : M T A :=
  warn_init;;
  d ← tget id;
  let start_addr := if decide (from <= to) then ts_oldest_addr d else tsec_addr (ts_cur_sec d) in
  match cb with
  | None => mret arg
  | Some cb =>
      ts_db_lock;;
      '(_, arg) ← tsl_sectors (ts_sector_fuel d) (if decide (from <= to) then ts_next_sector_addr else get_last_sector_addr)
                    (by_time_sector from to start_addr cb) start_addr 0 stack_sector (false, arg);
      ts_db_unlock;;
      mret arg
  end.
Definition query_count_cb (status : nat) (tsl : fdb_tsl) (count : Z) : M T (bool * Z) :=
  mret (false, if decide (tsl_status tsl = status) then u32 (count + 1) else count).
Definition fdb_tsl_query_count (from to : Z) (status : nat) : M T Z :=
  ok ← tget (λ d, init_ok (ts_parent d));
  if negb ok then not_initialised;; mret 0
  else fdb_tsl_iter_by_time from to (Some (query_count_cb status)) 0.
Definition fdb_tsl_set_status (tsl : fdb_tsl) (status : nat) : M T Z :=
  ts_write_status (tsl_index tsl) FDB_TSL_STATUS_NUM status.
Definition fdb_tsl_to_blob (tsl : fdb_tsl) (blob : fdb_blob) : fdb_blob :=
  mk_blob (blob_size blob) (tsl_index tsl) (tsl_log tsl) (tsl_log_len tsl).

(** ** The start *)

(** [check_failed], [empty_num] and [empty_addr]. *)
Definition ts_check_sec_hdr_cb (sector : tsdb_sec_info) (arg : bool * Z * Z) : M T (bool * (bool * Z * Z)) :=
  let '(failed, empty_num, empty_addr) := arg in
  if negb (tsec_check_ok sector) then
    ts_info "Sector (0x%08X) header info is incorrect." [FInt (tsec_addr sector)];;
    mret (true, (true, empty_num, empty_addr))
  else if decide (tsec_status sector = FDB_SECTOR_STORE_USING) then
    cur ← tget ts_cur_sec;
    if decide (tsec_addr cur = FDB_DATA_UNUSED) then tset (set_ts_cur sector);; mret (false, arg)
    else
      ts_info "Warning: Sector status is wrong, there are multiple sectors in use." [];;
      mret (true, (true, empty_num, empty_addr))
  else if decide (tsec_status sector = FDB_SECTOR_STORE_EMPTY) then
    cur ← tget ts_cur_sec;
    (if decide (empty_num + 1 = 1 ∧ tsec_addr cur = FDB_DATA_UNUSED) then tset (set_ts_cur sector) else mret tt);;
    mret (false, (failed, empty_num + 1, tsec_addr sector))
  else mret (false, arg).
Definition format_all_cb (sector : tsdb_sec_info) (_ : unit) : M T (bool * unit) :=
  ts_format_sector (tsec_addr sector);; mret (false, tt).
(** The sector in use, read again into its place. *)
Definition reread_cur (traversal : bool) : M T unit :=
  cur ← tget ts_cur_sec;
  '(_, cur) ← ts_read_sector_info (tsec_addr cur) cur traversal;
  tset (set_ts_cur cur).
Definition tsl_format_all : M T unit :=
  ts_sector_iterator (set_tsec_addr 0 stack_sector) FDB_SECTOR_STORE_UNUSED tt format_all_cb false;;
  tset (set_ts_oldest 0);;
  tset (λ d, set_ts_cur (set_tsec_addr 0 (ts_cur_sec d)) d);;
  tset (set_ts_last_time 0);;
  reread_cur false;;
  ts_info "All sector format finished." [].
Definition fdb_tsl_clean : M T unit := ts_db_lock;; tsl_format_all;; ts_db_unlock.

(** The options, each with what its argument points to. *)
Inductive tsdb_ctrl : Type :=
  | FDB_TSDB_CTRL_SET_SEC_SIZE (size : Z)
  | FDB_TSDB_CTRL_GET_SEC_SIZE
  | FDB_TSDB_CTRL_SET_LOCK (f : option (M (fal_state S) unit))
  | FDB_TSDB_CTRL_SET_UNLOCK (f : option (M (fal_state S) unit))
  | FDB_TSDB_CTRL_SET_ROLLOVER (b : bool)
  | FDB_TSDB_CTRL_GET_ROLLOVER
  | FDB_TSDB_CTRL_GET_LAST_TIME
  | FDB_TSDB_CTRL_SET_FILE_MODE
  | FDB_TSDB_CTRL_SET_MAX_SIZE
  | FDB_TSDB_CTRL_SET_NOT_FORMAT (b : bool).
Definition ts_before_start : M T unit := ok ← tget (λ d, init_ok (ts_parent d)); ts_assert (negb ok).
(** What the command stores through its argument. *)
Definition fdb_tsdb_control (cmd : tsdb_ctrl) : M T (option Z) :=
  match cmd with
  | FDB_TSDB_CTRL_SET_SEC_SIZE size =>
      ts_before_start;;
      tset (λ d, set_ts_parent (set_db_sizes size (max_size (ts_parent d)) (ts_parent d)) d);; mret None
  | FDB_TSDB_CTRL_GET_SEC_SIZE => size ← tget ts_sec_size; mret (Some size)
  | FDB_TSDB_CTRL_SET_LOCK f => tset (set_ts_lock f);; mret None
  | FDB_TSDB_CTRL_SET_UNLOCK f => tset (set_ts_unlock f);; mret None
  | FDB_TSDB_CTRL_SET_ROLLOVER b =>
      ok ← tget (λ d, init_ok (ts_parent d)); ts_assert ok;; tset (set_ts_rollover b);; mret None
  | FDB_TSDB_CTRL_GET_ROLLOVER => b ← tget ts_rollover; mret (Some (if (b : bool) then 1 else 0))
  | FDB_TSDB_CTRL_GET_LAST_TIME => t ← tget ts_last_time; mret (Some t)
  | FDB_TSDB_CTRL_SET_FILE_MODE =>
      ts_info "Error: set file mode Failed. Please defined the FDB_USING_FILE_MODE macro." [];; mret None
  | FDB_TSDB_CTRL_SET_MAX_SIZE => mret None
  | FDB_TSDB_CTRL_SET_NOT_FORMAT b => ts_before_start;; tset (set_ts_not_formatable b);; mret None
  end.

(** [fdb.c] has an empty log tag; every database here is a TSDB. *)
Definition ts_banner (fmt : string) (args : list farg) : M T unit :=
  TS_PRINT vprintf "[FlashDB]" [];; TS_PRINT vprintf " " [];; TS_PRINT vprintf fmt args.
Definition ts_init_finish (result : Z) : M T unit :=
  if decide (result = FDB_NO_ERR) then
    tset (λ d, set_ts_parent (set_db_ok true (ts_parent d)) d);;
    shown ← mgets ts_log_is_show;
    if (shown : bool) then mret tt else
    ts_banner "FlashDB V%s is initialize success." [FStr (Some "2.1.1"%string)];;
    ts_banner "You can get the latest version on https://github.com/armink/FlashDB ." [];;
    mmodify (λ s, mk_tss (ts_db s) (ts_fal s) true)
  else
    strict ← tget ts_not_formatable;
    if (strict : bool) then mret tt else
    path ← ts_db_path;
    name ← tget (λ d, db_name (ts_parent d));
    ts_banner "Error: %s (%s@%s) is initialize fail (%d)."
      [FStr (Some "TSDB"%string); FStr (Some name); FStr path; FInt result].
(** The oldest sector follows the latest one. *)
Definition find_latest (empty_num empty_addr : Z) : M T unit :=
  d ← tget id;
  latest ←
    (if decide (empty_num > 0) then mret empty_addr
     else if ts_rollover d then mret (tsec_addr (ts_cur_sec d))
     else
       let last := u32 (ts_max_size d - ts_sec_size d) in
       tset (λ d, set_ts_cur (set_tsec_addr last (ts_cur_sec d)) d);; mret last);
  tset (set_ts_oldest (if decide (u32 (latest + ts_sec_size d) >= ts_max_size d) then 0 else u32 (latest + ts_sec_size d))).
Definition find_last_time : M T unit :=
  d ← tget id;
  let cur := ts_cur_sec d in
  if decide (tsec_status cur = FDB_SECTOR_STORE_USING) then tset (set_ts_last_time (tsec_end_time cur))
  else if decide (tsec_status cur = FDB_SECTOR_STORE_EMPTY ∧ ts_oldest_addr d ≠ tsec_addr cur) then
    let addr := if decide (tsec_addr cur = 0) then u32 (ts_max_size d - ts_sec_size d)
                else u32 (tsec_addr cur - ts_sec_size d) in
    '(_, sec) ← ts_read_sector_info addr stack_sector false;
    tset (set_ts_last_time (tsec_end_time sec))
  else mret tt.
(** The part between the lock and its release, which an error leaves out. *)
Definition ts_load : M T Z :=
  '(_, (failed, empty_num, empty_addr)) ←
    ts_sector_iterator (set_tsec_addr 0 stack_sector) FDB_SECTOR_STORE_UNUSED (false, 0, 0) ts_check_sec_hdr_cb true;
  strict ← tget ts_not_formatable;
  if failed && strict then mret FDB_READ_ERR else
  (if (failed : bool) then tsl_format_all else find_latest empty_num empty_addr);;
  d ← tget id;
  ts_debug 980 "TSDB (%s) oldest sectors is 0x%08X, current using sector is 0x%08X."
    [FStr (Some (db_name (ts_parent d))); FInt (ts_oldest_addr d); FInt (tsec_addr (ts_cur_sec d))];;
  reread_cur true;;
  find_last_time;;
  ts_db_unlock;;
  mret FDB_NO_ERR.
Definition fdb_tsdb_init (name path : string) (time : option (M (fal_state S) Z)) (max_len : Z) : M T Z :=
  ts_assert (bool_decide (is_Some time));;
  db ← tget ts_parent;
  '(result, db) ← ts_on_fal (_fdb_init_ex device_table partition_table_def (λ msg, vprintf msg []) db name path);
  tset (set_ts_parent db);;
  result ←
    (if decide (result ≠ FDB_NO_ERR) then mret result else
     ts_db_lock;;
     tset (set_ts_source time max_len);;
     tset (set_ts_rollover true);;
     tset (set_ts_oldest FDB_DATA_UNUSED);;
     tset (λ d, set_ts_cur (set_tsec_addr FDB_DATA_UNUSED (ts_cur_sec d)) d);;
     size ← tget ts_sec_size;
     ts_assert (bool_decide (max_len < size));;
     ts_load);
  ts_init_finish result;;
  mret result.
Definition fdb_tsdb_deinit : M T Z :=
  tset (λ d, set_ts_parent (_fdb_deinit (ts_parent d)) d);;
  mret FDB_NO_ERR.
End Iterate.
