(* ===== verification/TsFlash.v ===== *)
(** * The accesses of the time series store

    What reading, programming and erasing do to the bytes of a flash that has its power, from the
    laws of [KvFlash.v].  [works m k s] is a database on its partition whose flash has the bytes [m],
    erases what it is told to and can program [k] more bytes. *)
From S2P Require Import Prelude W25qxx W25qxxProps Fal FdbUtils FdbProps KvData KvRead KvFlash KvNode KvBurn KvPower TsData TsDb.

(** The bytes outside of [n] bytes from [a] on stay. *)
Definition only (a n : Z) (m m' : Z → Z) : Prop := ∀ x, x < a ∨ a + n <= x → m' x = m x.
Lemma only_refl a n m : only a n m m.
Proof. done. Qed.
Lemma only_trans a n m1 m2 m3 : only a n m1 m2 → only a n m2 m3 → only a n m1 m3.
Proof. intros H1 H2 x Hx. rewrite H2 by done. by apply H1. Qed.
Lemma only_wide a n b l m m' : only b l m m' → a <= b → b + l <= a + n → only a n m m'.
Proof. intros H Ha Hb x Hx. apply H. lia. Qed.
Lemma only_mem a n m m' o bs : only a n m m' → mem_at m o bs → o + Z.of_nat (length bs) <= a ∨ a + n <= o → mem_at m' o bs.
Proof. intros H Hm Ho. eapply mem_at_ext; [|exact Hm]. intros x Hx. symmetry. apply H. lia. Qed.
Lemma only_erased a n m m' o l : only a n m m' → erased_at m o l → o + l <= a ∨ a + n <= o → erased_at m' o l.
Proof. intros H Hm Ho x Hx. rewrite H by lia. by apply Hm. Qed.
Lemma erased_part m a n b l : erased_at m a n → a <= b → b + l <= a + n → erased_at m b l.
Proof. intros H Ha Hb x Hx. apply H. lia. Qed.
Lemma erased_mem m a n : erased_at m a (Z.of_nat n) → mem_at m a (replicate n 0xFF).
Proof. intros H. apply mem_at_lookup. intros i b [-> Hi]%lookup_replicate. apply H. lia. Qed.
Lemma programmed_only a data m : only a (Z.of_nat (length data)) m (programmed a data m).
Proof. intros x Hx. unfold programmed. by rewrite decide_False by lia. Qed.
Lemma ts_programmed_erased a data m :
  erased_at m a (Z.of_nat (length data)) → Forall is_u8 data → mem_at (programmed a data m) a data.
Proof. intros He Hu. eapply mem_at_ext; [|by apply burn_erased]. intros x _. apply burn_place. Qed.

Section Accesses.
Context {S : Type} (device_table : list (fal_flash_dev S)) (vprintf : string → list farg → M S unit)
  (p : nat) (size cap blk : Z) (good : fal_state S → Prop) (cell : fal_state S → Z → Z)
  (budget : fal_state S → nat) (erases : fal_state S → bool)
  `{HP : !PartFlash device_table vprintf p size cap blk good cell budget erases} (ssz : Z).
#[local] Abbreviation T := (ts_state S).
#[local] Abbreviation flash_is := (flash_is p size good cell budget ssz).

(** A key-value store on the same flash, for the laws of the accesses. *)
Definition as_kv (s : T) : kv_state S :=
  mk_ks (mk_kvdb (ts_parent (ts_db s)) false 0 None None [] false false
           (mk_kv 0 false 0 0 0 [] 0 0) (mk_sec false 0 0 0 0 0 0 0) false [] []) (ts_fal s) (ts_log_is_show s).
Definition works (m : Z → Z) (k : nat) (s : T) : Prop := flash_is m k (as_kv s) ∧ erases (ts_fal s) = true.

Lemma works_ext m m' k s : works m k s → (∀ a, m a = m' a) → works m' k s.
Proof. intros [H1 H2] He. split; [|done]. by eapply flash_is_ext. Qed.
Lemma works_db m k s d l :
  works m k s → ts_parent d = ts_parent (ts_db s) → works m k (mk_tss d (ts_fal s) l).
Proof. intros ((Hp&Hg&Hm)&He) E. split; [|done]. split; [|done]. unfold on_part in *. cbn in *. by rewrite E. Qed.
(** The flag of a start that succeeded. *)
Lemma works_ok m k s b : works m k s → works m k (mk_tss (set_ts_parent (set_db_ok b (ts_parent (ts_db s))) (ts_db s)) (ts_fal s) (ts_log_is_show s)).
Proof. intros ((Hp&Hg&Hm)&He). split; [|done]. split; [exact Hp|done]. Qed.
Lemma works_show m k s l : works m k s → works m k (mk_tss (ts_db s) (ts_fal s) l).
Proof. intros H. by apply works_db. Qed.
Lemma works_byte m k s a : works m k s → is_u8 (m a).
Proof. intros [H _]. by eapply flash_byte. Qed.
Lemma works_sizes m k s : works m k s → ts_sec_size (ts_db s) = ssz ∧ ts_max_size (ts_db s) = size.
Proof. intros [((_&_&H)&_) _]. exact H. Qed.

Lemma wp_ts_on_fal {A} (m : M (fal_state S) A) (s : T) (Q : A → T → Prop) :
  wp m (ts_fal s) (λ a f, Q a (mk_tss (ts_db s) f (ts_log_is_show s))) → wp (ts_on_fal m) s Q.
Proof. unfold wp, ts_on_fal. by destruct (m (ts_fal s)). Qed.
Lemma wp_tset f (s : T) (Q : unit → T → Prop) :
  Q tt (mk_tss (f (ts_db s)) (ts_fal s) (ts_log_is_show s)) → wp (tset f) s Q.
Proof. done. Qed.
Lemma works_moved m k s f : moved erases (as_kv s) (mk_ks (kv_db (as_kv s)) f (log_is_show (as_kv s))) → ∀ m' k',
  erases (ts_fal s) = true → flash_is m' k' (mk_ks (kv_db (as_kv s)) f (log_is_show (as_kv s))) →
  works m k s → works m' k' (mk_tss (ts_db s) f (ts_log_is_show s)).
Proof. intros (_&_&He) m' k' He' H _. split; [exact H|]. cbn in *. congruence. Qed.

Lemma ts_read_runs m k a n s (Q : Z * list Z → T → Prop) :
  works m k s → 0 <= a → 0 < n <= cap → a + n <= size →
  (∀ s', works m k s' → ts_db s' = ts_db s → Q (FDB_NO_ERR, m <$> seqZ a n) s') → wp (ts_read device_table vprintf a n) s Q.
Proof.
  intros Hw Ha Hn Hb HQ. pose proof Hw as [Hs He]. apply wp_bind, wp_gets, wp_ts_on_fal.
  eapply (low_read _ _ _ _ (as_kv s)); [done|lia..|]. intros f s' Hmv Hs'. rewrite decide_True by lia.
  apply HQ; [by eapply works_moved|done].
Qed.
Lemma ts_write_runs m k a data s (Q : Z → T → Prop) :
  works m k s → 0 <= a → (0 < length data ≤ k)%nat → a + Z.of_nat (length data) <= size →
  (∀ s', works (programmed a data m) (k - length data) s' → ts_db s' = ts_db s → Q FDB_NO_ERR s') →
  wp (ts_write device_table vprintf a data (Z.of_nat (length data))) s Q.
Proof.
  intros Hw Ha Hn Hb HQ. pose proof Hw as [Hs He]. apply wp_bind, wp_gets, wp_ts_on_fal.
  eapply (low_write _ _ _ _ _ (as_kv s)); [done|lia..|]. rewrite Nat2Z.id. intros f s' Hmv Hs'.
  rewrite (firstn_all data), take_ge in Hs' by lia. apply HQ; [by eapply works_moved|done].
Qed.
Lemma ts_status_runs m k a num idx s (Q : Z → T → Prop) :
  works m k s → 0 <= a → a + 1 <= size → (0 < idx < num)%nat → (num ≤ 8)%nat → (1 ≤ k)%nat →
  (∀ s', works (programmed a [status_byte idx] m) (k - 1) s' → ts_db s' = ts_db s → Q FDB_NO_ERR s') →
  wp (ts_write_status device_table vprintf a num idx) s Q.
Proof.
  intros Hw Ha Hb Hi Hnum Hk HQ. pose proof Hw as [Hs He]. apply wp_bind, wp_gets, wp_bind, wp_ts_on_fal.
  eapply (low_status _ _ _ _ _ _ (as_kv s)); [done|lia..|]. intros f s' Hmv Hs'. rewrite take_ge in Hs' by (simpl; lia).
  apply wp_ret. apply HQ; [by eapply works_moved|done].
Qed.
Lemma ts_erase_runs m k a n s (Q : Z → T → Prop) :
  works m k s → 0 <= a → 0 <= n → a `mod` blk = 0 → n `mod` blk = 0 → a + n <= size →
  (∀ s', works (erased a n m) k s' → ts_db s' = ts_db s → Q FDB_NO_ERR s') → wp (ts_erase device_table vprintf a n) s Q.
Proof.
  intros Hw Ha Hn Hab Hnb Hb HQ. pose proof Hw as ((Hp&Hg&Hm&Hk)&He). pose proof Hp as (Hpart&Hfile&_).
  apply wp_bind, wp_gets, wp_ts_on_fal. cbn in Hpart, Hfile. unfold _fdb_flash_erase. rewrite Hfile.
  apply wp_bind. eapply wp_lift; [done|]. apply wp_bind. eapply wp_mono; [by apply part_erase|].
  intros r f (Hr & Hg' & Hm' & Hk' & He'). apply wp_ret. rewrite decide_False by lia.
  apply HQ; [|done]. split; [|cbn in *; congruence]. split_and!; try done; [|cbn in *; congruence].
  intros x. cbn in *. rewrite Hm', He. unfold erased. by rewrite Hm.
Qed.
Lemma ts_print_runs m k fmt args s (Q : unit → T → Prop) :
  works m k s → (∀ s', works m k s' → ts_db s' = ts_db s → Q tt s') → wp (TS_PRINT vprintf fmt args) s Q.
Proof.
  intros ((Hp&Hg&Hm&Hk)&He) HQ. apply wp_ts_on_fal. eapply wp_mono; [by apply part_print|].
  intros [] f (Hg'&Hm'&Hk'&He'). apply HQ; [|done]. split; [|cbn in *; congruence].
  split_and!; try done; [|cbn in *; congruence]. intros a. cbn in *. by rewrite Hm'.
Qed.
Lemma ts_prefix_runs m k s (Q : unit → T → Prop) :
  works m k s → (∀ s', works m k s' → ts_db s' = ts_db s → Q tt s') → wp (ts_prefix vprintf) s Q.
Proof.
  intros Hs HQ. unfold ts_prefix. apply wp_bind. eapply ts_print_runs; [done|]. intros s1 H1 E1. apply wp_bind.
  pose proof H1 as (((Hpart&Hfile&_)&Hg&_)&_). unfold ts_db_path. apply wp_bind, wp_gets. cbn in Hfile, Hpart, Hg. rewrite Hfile.
  apply wp_bind. eapply wp_lift; [done|]. apply wp_bind, wp_ts_on_fal. eapply wp_mono; [by apply part_named|].
  intros pt f ->. apply wp_ret, wp_bind, wp_gets. destruct s1 as [d1 f1 l1].
  eapply ts_print_runs; [exact H1|]. intros s2 H2 E2. apply HQ; [done|]. cbn in *. congruence.
Qed.
Lemma ts_info_runs m k fmt args s (Q : unit → T → Prop) :
  works m k s → (∀ s', works m k s' → ts_db s' = ts_db s → Q tt s') → wp (ts_info vprintf fmt args) s Q.
Proof.
  intros Hs HQ. unfold ts_info. apply wp_bind. eapply ts_prefix_runs; [done|]. intros s1 H1 E1.
  eapply ts_print_runs; [done|]. intros s2 H2 E2. apply HQ; [done|congruence].
Qed.
Lemma ts_debug_runs m k file line fmt args s (Q : unit → T → Prop) :
  works m k s → (∀ s', works m k s' → ts_db s' = ts_db s → Q tt s') → wp (ts_debug vprintf file line fmt args) s Q.
Proof.
  intros Hs HQ. unfold ts_debug. apply wp_bind. eapply ts_prefix_runs; [done|]. intros s1 H1 E1. apply wp_bind.
  eapply ts_print_runs; [done|]. intros s2 H2 E2. eapply ts_print_runs; [done|]. intros s3 H3 E3. apply HQ; [done|congruence].
Qed.

(** ** Bytes that are known *)

Lemma ts_struct_runs m k n a bs s (Q : list Z → T → Prop) :
  works m k s → mem_at m a bs → length bs = n → 0 <= a → 0 < Z.of_nat n <= cap → a + Z.of_nat n <= size →
  (∀ s', works m k s' → ts_db s' = ts_db s → Q bs s') → wp (ts_struct device_table vprintf n a) s Q.
Proof.
  intros Hw Hm Hl Ha Hn Hb HQ. apply wp_bind. eapply ts_read_runs; [done|lia..|]. intros s' Hw' E. cbv beta iota.
  rewrite <-Hl, Hm. eapply wp_lift; [by rewrite decide_True by lia|]. rewrite take_ge by lia. by apply HQ.
Qed.
(** Programming where the flash is erased gives the bytes. *)
Lemma ts_store_runs m k a data n s (Q : Z → T → Prop) :
  works m k s → Z.of_nat (length data) = n → erased_at m a n → Forall is_u8 data → 0 <= a → 0 < n <= Z.of_nat k → a + n <= size →
  (∀ m' s', works m' (k - Z.to_nat n) s' → ts_db s' = ts_db s → mem_at m' a data → only a n m m' → Q FDB_NO_ERR s') →
  wp (ts_write device_table vprintf a data n) s Q.
Proof.
  intros Hw <- He Hu Ha Hk Hb HQ. eapply ts_write_runs; [done..|lia|done|]. intros s' Hw' E. rewrite Nat2Z.id in HQ.
  eapply HQ; [exact Hw'|done|by apply ts_programmed_erased|apply programmed_only].
Qed.
(** A state follows an earlier one. *)
Lemma ts_step_runs m k a num i j s (Q : Z → T → Prop) :
  works m k s → m a = status_byte i → (i ≤ j)%nat → 0 <= a → a + 1 <= size → (0 < j < num)%nat → (num ≤ 8)%nat → (1 ≤ k)%nat →
  (∀ m' s', works m' (k - 1) s' → ts_db s' = ts_db s → m' a = status_byte j → only a 1 m m' → Q FDB_NO_ERR s') →
  wp (ts_write_status device_table vprintf a num j) s Q.
Proof.
  intros Hw Hi Hij Ha Hb Hj Hnum Hk HQ. eapply ts_status_runs; [done..|]. intros s' Hw' E.
  eapply HQ; [exact Hw'|done| |apply (programmed_only _ [_])].
  unfold programmed. cbn [length]. rewrite decide_True, Z.sub_diag by lia. cbn. rewrite Hi. apply status_byte_land. lia.
Qed.
End Accesses.
Arguments works_ext {S} {p} {size} {good} {cell} {budget} {erases} {ssz}.
Arguments works_db {S} {p} {size} {good} {cell} {budget} {erases} {ssz}.
Arguments works_byte {S} {device_table} {vprintf} {p} {size} {cap} {blk} {good} {cell} {budget} {erases} {HP} {ssz}.
Arguments works_sizes {S} {p} {size} {good} {cell} {budget} {erases} {ssz}.
Arguments ts_read_runs {S} {device_table} {vprintf} {p} {size} {cap} {blk} {good} {cell} {budget} {erases} {HP} {ssz}.
Arguments ts_write_runs {S} {device_table} {vprintf} {p} {size} {cap} {blk} {good} {cell} {budget} {erases} {HP} {ssz}.
Arguments ts_status_runs {S} {device_table} {vprintf} {p} {size} {cap} {blk} {good} {cell} {budget} {erases} {HP} {ssz}.
Arguments ts_erase_runs {S} {device_table} {vprintf} {p} {size} {cap} {blk} {good} {cell} {budget} {erases} {HP} {ssz}.
Arguments ts_print_runs {S} {device_table} {vprintf} {p} {size} {cap} {blk} {good} {cell} {budget} {erases} {HP} {ssz}.
Arguments ts_prefix_runs {S} {device_table} {vprintf} {p} {size} {cap} {blk} {good} {cell} {budget} {erases} {HP} {ssz}.
Arguments ts_info_runs {S} {device_table} {vprintf} {p} {size} {cap} {blk} {good} {cell} {budget} {erases} {HP} {ssz}.
Arguments ts_debug_runs {S} {device_table} {vprintf} {p} {size} {cap} {blk} {good} {cell} {budget} {erases} {HP} {ssz}.
Arguments ts_struct_runs {S} {device_table} {vprintf} {p} {size} {cap} {blk} {good} {cell} {budget} {erases} {HP} {ssz}.
Arguments ts_store_runs {S} {device_table} {vprintf} {p} {size} {cap} {blk} {good} {cell} {budget} {erases} {HP} {ssz}.
Arguments ts_step_runs {S} {device_table} {vprintf} {p} {size} {cap} {blk} {good} {cell} {budget} {erases} {HP} {ssz}.
Arguments works_ok {S} {p} {size} {good} {cell} {budget} {erases} {ssz}.
Arguments works_show {S} {p} {size} {good} {cell} {budget} {erases} {ssz}.
