(* ===== verification/TsLog.v ===== *)
(** * A log in the flash: the time series store's sectors

    The bytes of a sector that holds a log of entries, their indices from its start and their data
    from its end, and that [read_tsl] and [read_sector_info] read back what the bytes say. *)
From S2P Require Import Prelude W25qxx W25qxxProps Fal FdbUtils FdbProps KvData KvRead KvFlash KvNode KvBurn KvPower TsData TsDb TsFlash.

(** ** Numbers *)

Definition is_time (t : Z) : Prop := - 2 ^ 31 <= t < 2 ^ 31.
Lemma to_long_u32 t : is_time t → to_long (u32 t) = t.
Proof.
  unfold is_time, to_long, u32. intros Ht. rewrite Z.mod_mod by lia.
  destruct (decide (t < 0)).
  - replace (t `mod` 4294967296) with (t + 4294967296); [case_decide; lia|].
    rewrite <-(Z.mod_small (t + 4294967296) 4294967296) by lia. by rewrite Z.add_mod, Z.mod_same, Z.add_0_r, Z.mod_mod by lia.
  - rewrite Z.mod_small by lia. case_decide; lia.
Qed.
Lemma to_long_id a : 0 <= a < 2 ^ 31 → to_long a = a.
Proof. intros Ha. unfold to_long. rewrite u32_id by (unfold is_u32; lia). by rewrite decide_True by lia. Qed.
Lemma u32_at_le (l1 l2 : list Z) z : is_u32 z → u32_at (length l1) (l1 ++ le_bytes 4 z ++ l2) = z.
Proof.
  intros Hz. unfold u32_at. rewrite drop_app_length, take_app_le, take_ge by (by rewrite le_bytes_length).
  apply le_value_bytes. exact Hz.
Qed.
Lemma time_at_le (l1 l2 : list Z) t : is_time t → time_at (length l1) (l1 ++ time_bytes t ++ l2) = t.
Proof. intros Ht. unfold time_at, time_bytes. rewrite u32_at_le by done. by apply to_long_u32. Qed.
Lemma time_bytes_length t : length (time_bytes t) = 4%nat.
Proof. apply le_bytes_length. Qed.

(** ** The entries of a log *)

Record tsl_entry : Type := mk_entry { e_time : Z; e_status : nat; e_data : list Z }.
Definition e_len (e : tsl_entry) : Z := Z.of_nat (length (e_data e)).
Definition log_total (log : list tsl_entry) : Z := foldr (λ e n, e_len e + n) 0 log.
(** What an append gives: a log is not empty here, and it was written whole. *)
Definition entry_ok (e : tsl_entry) : Prop :=
  is_time (e_time e) ∧ (2 ≤ e_status e < 6)%nat ∧ Forall is_u8 (e_data e) ∧ 0 < e_len e.

Lemma total_app l1 l2 : log_total (l1 ++ l2) = log_total l1 + log_total l2.
Proof. induction l1 as [|e l1 IH]; [done|]. cbn. unfold log_total in *. lia. Qed.
Lemma total_nonneg log : 0 <= log_total log.
Proof. induction log as [|e log IH]; [done|]. cbn. unfold log_total, e_len in *. lia. Qed.
Lemma total_split log i e : log !! i = Some e → log_total log = log_total (take i log) + e_len e + log_total (drop (1 + i) log).
Proof. intros Hi. rewrite <-(take_drop_middle _ _ _ Hi) at 1. rewrite total_app. cbn. unfold log_total. lia. Qed.
Lemma total_take log i e : log !! i = Some e → log_total (take (1 + i) log) = log_total (take i log) + e_len e.
Proof. intros Hi. rewrite Nat.add_1_l, (take_S_r _ _ _ Hi), total_app. cbn. lia. Qed.
Lemma total_length log : Forall entry_ok log → Z.of_nat (length log) <= log_total log.
Proof. induction 1 as [|e log (_&_&_&He) _ IH]; [done|]. cbn [length log_total foldr]. unfold log_total in IH. lia. Qed.

Definition entry_bytes (st : nat) (t len la : Z) : list Z := [status_byte st; 0xFF; 0xFF; 0xFF] ++ log_idx_tail t len la.
Lemma entry_bytes_length st t len la : length (entry_bytes st t len la) = 16%nat.
Proof. unfold entry_bytes, log_idx_tail. by rewrite !length_app, time_bytes_length, !le_bytes_length. Qed.
Lemma log_idx_tail_u8 t len la : Forall is_u8 (log_idx_tail t len la).
Proof. unfold log_idx_tail, time_bytes. repeat (apply Forall_app_2; [apply le_bytes_u8|]). apply le_bytes_u8. Qed.
Lemma log_idx_tail_length t len la : length (log_idx_tail t len la) = 12%nat.
Proof. unfold log_idx_tail. by rewrite !length_app, time_bytes_length, !le_bytes_length. Qed.
Lemma entry_fields st t len la :
  is_time t → is_u32 len → is_u32 la → log_idx_of (entry_bytes st t len la) = mk_idx [status_byte st] t len la.
Proof.
  intros Ht Hl Ha. unfold log_idx_of. f_equal.
  - apply (time_at_le [_; _; _; _]). done.
  - unfold entry_bytes, log_idx_tail. rewrite !app_assoc, <-(app_nil_r (_ ++ le_bytes 4 la)), <-!app_assoc.
    replace 8%nat with (length ([status_byte st; 0xFF; 0xFF; 0xFF] ++ time_bytes t)) by (by rewrite length_app, time_bytes_length).
    rewrite (app_assoc _ (time_bytes t)). by apply u32_at_le.
  - unfold entry_bytes, log_idx_tail. rewrite <-(app_nil_r (le_bytes 4 la)).
    replace 12%nat with (length ([status_byte st; 0xFF; 0xFF; 0xFF] ++ time_bytes t ++ le_bytes 4 len))
      by (by rewrite !length_app, time_bytes_length, le_bytes_length).
    rewrite !(app_assoc _ _ (le_bytes 4 la ++ [])). by apply u32_at_le.
Qed.

(** ** The header of a sector *)

Definition unwritten : list Z := replicate 4 0xFF.
(** [start], the time and the index of the end are four bytes each. *)
Definition tsl_hdr_bytes (st : nat) (start end_time end_idx : list Z) (end_st : nat) : list Z :=
  [status_byte st; 0xFF; 0xFF; 0xFF] ++ le_bytes 4 TSL_MAGIC_WORD ++ start ++ end_time ++ end_idx ++
  [status_byte end_st; 0xFF; 0xFF; 0xFF] ++ replicate 16 0xFF.
Lemma tsl_hdr_length st start et ei est :
  length start = 4%nat → length et = 4%nat → length ei = 4%nat → length (tsl_hdr_bytes st start et ei est) = 40%nat.
Proof. intros H1 H2 H3. unfold tsl_hdr_bytes. rewrite !length_app, H1, H2, H3, le_bytes_length. done. Qed.
Lemma tsl_hdr_fields st start et ei est :
  length start = 4%nat → length et = 4%nat → length ei = 4%nat →
  tsl_sector_hdr_of (tsl_hdr_bytes st start et ei est) =
  mk_tsl_hdr [status_byte st] TSL_MAGIC_WORD (time_at 0 start) (mk_end (time_at 0 et) (u32_at 0 ei) [status_byte est])
    (mk_end (-1) 0xFFFFFFFF [0xFF]).
Proof.
  intros H1 H2 H3. do 4 (destruct start as [|? start]; [done|]). destruct start; [|done].
  do 4 (destruct et as [|? et]; [done|]). destruct et; [|done]. do 4 (destruct ei as [|? ei]; [done|]). by destruct ei.
Qed.

(** ** Sectors *)

Definition entry_index (b : Z) (i : nat) : Z := b + 40 + 16 * Z.of_nat i.
Section Sectors.
Context (ssz : Z).
Definition entry_log (b : Z) (log : list tsl_entry) (i : nat) : Z := b + ssz - log_total (take (1 + i) log).
Definition entry_at (m : Z → Z) (b : Z) (log : list tsl_entry) (i : nat) (e : tsl_entry) : Prop :=
  mem_at m (entry_index b i) (entry_bytes (e_status e) (e_time e) (e_len e) (entry_log b log i)) ∧
  mem_at m (entry_log b log i) (e_data e).
Definition free_size (log : list tsl_entry) : Z := ssz - 40 - 16 * Z.of_nat (length log) - log_total log.
(** The sector behind its header: the entries, and erased bytes between them. *)
Definition body (m : Z → Z) (b : Z) (log : list tsl_entry) : Prop :=
  Forall entry_ok log ∧ (∀ i e, log !! i = Some e → entry_at m b log i e) ∧ 0 <= free_size log ∧
  erased_at m (entry_index b (length log)) (free_size log).
(** The entries alone. *)
Definition entries_in (m : Z → Z) (b : Z) (log : list tsl_entry) : Prop :=
  Forall entry_ok log ∧ (∀ i e, log !! i = Some e → entry_at m b log i e) ∧ 0 <= free_size log.

(** What a sector of the database holds. *)
Inductive ts_sector : Type := SEmpty | SUsing (log : list tsl_entry) | SFull (log : list tsl_entry).
Definition sec_log (sec : ts_sector) : list tsl_entry := match sec with SEmpty => [] | SUsing log | SFull log => log end.
Definition first_time (log : list tsl_entry) : Z := from_option e_time 0 (head log).
Definition end_time (log : list tsl_entry) : Z := from_option e_time 0 (last log).
Definition end_index (b : Z) (log : list tsl_entry) : Z := entry_index b (length log) - 16.
Definition sec_header (b : Z) (sec : ts_sector) : list Z :=
  match sec with
  | SEmpty => tsl_hdr_bytes FDB_SECTOR_STORE_EMPTY unwritten unwritten unwritten FDB_TSL_UNUSED
  | SUsing log => tsl_hdr_bytes FDB_SECTOR_STORE_USING (time_bytes (first_time log)) unwritten unwritten FDB_TSL_UNUSED
  | SFull log => tsl_hdr_bytes FDB_SECTOR_STORE_FULL (time_bytes (first_time log)) (time_bytes (end_time log))
                   (le_bytes 4 (end_index b log)) FDB_TSL_WRITE
  end.
Definition sector_is (m : Z → Z) (b : Z) (sec : ts_sector) : Prop :=
  mem_at m b (sec_header b sec) ∧ body m b (sec_log sec) ∧ (sec = SEmpty ∨ sec_log sec ≠ []).

(** The structure that describes a sector in use, and the one of an empty sector, whose end was not
    written. *)
Definition using_info (b : Z) (log : list tsl_entry) : tsdb_sec_info :=
  mk_tsec true FDB_SECTOR_STORE_USING b TSL_MAGIC_WORD (first_time log) (end_time log) (end_index b log)
    FDB_TSL_UNUSED FDB_TSL_UNUSED (free_size log) (entry_index b (length log)) (b + ssz - log_total log).
Definition empty_info (b et ei : Z) : tsdb_sec_info :=
  mk_tsec true FDB_SECTOR_STORE_EMPTY b TSL_MAGIC_WORD (-1) et ei FDB_TSL_UNUSED FDB_TSL_UNUSED
    (ssz - 40) (b + 40) (b + ssz).
Definition full_info (b : Z) (log : list tsl_entry) : tsdb_sec_info :=
  mk_tsec true FDB_SECTOR_STORE_FULL b TSL_MAGIC_WORD (first_time log) (end_time log) (end_index b log)
    FDB_TSL_WRITE FDB_TSL_UNUSED (ssz - 40) (b + 40) (b + ssz).
(** A sector in use as the header alone tells it. *)
Definition using_header (b start et ei : Z) : tsdb_sec_info :=
  mk_tsec true FDB_SECTOR_STORE_USING b TSL_MAGIC_WORD start et ei FDB_TSL_UNUSED FDB_TSL_UNUSED
    (ssz - 40) (b + 40) (b + ssz).

Lemma sec_header_length b sec : length (sec_header b sec) = 40%nat.
Proof. destruct sec; apply tsl_hdr_length; by rewrite ?time_bytes_length, ?le_bytes_length. Qed.
Lemma log_space log i e :
  Forall entry_ok log → log !! i = Some e → 0 <= free_size log →
  log_total (take (1 + i) log) = log_total (take i log) + e_len e ∧ 0 <= log_total (take i log) ∧ 0 < e_len e ∧
  16 * Z.of_nat (length log) + log_total (take (1 + i) log) <= ssz - 40.
Proof.
  intros Hok Hi Hf. rewrite Forall_lookup in Hok. destruct (Hok _ _ Hi) as (_&_&_&He). rewrite (total_take _ _ _ Hi).
  pose proof (total_split _ _ _ Hi). pose proof (total_nonneg (take i log)). pose proof (total_nonneg (drop (1 + i) log)).
  unfold free_size in Hf. split_and!; lia.
Qed.
Lemma body_entries m b log : body m b log → entries_in m b log.
Proof. by intros (H1 & H2 & H3 & _). Qed.
(** A sector depends on its own bytes. *)
Lemma body_ext m m' b log : (∀ x, b + 40 <= x < b + ssz → m' x = m x) → body m b log → body m' b log.
Proof.
  intros Hx (Hok & Hen & Hf & Her). split; [done|]. split_and!; [|done|].
  - intros i e Hi. destruct (Hen _ _ Hi) as [H1 H2]. pose proof (lookup_lt_Some _ _ _ Hi).
    destruct (log_space _ _ _ Hok Hi Hf) as (Ht & Hn & Hp & Hs). unfold entry_index, entry_log, e_len in *.
    split; (eapply mem_at_ext; [|eassumption]); intros x; rewrite ?entry_bytes_length; intros Hr; symmetry; apply Hx; unfold entry_index, entry_log, e_len in *; lia.
  - intros x Hr. pose proof (total_nonneg log). unfold entry_index, free_size in *. rewrite Hx by lia. by apply Her; unfold entry_index, free_size; lia.
Qed.
Lemma sector_ext m m' b sec : 40 <= ssz → (∀ x, b <= x < b + ssz → m' x = m x) → sector_is m b sec → sector_is m' b sec.
Proof.
  intros Hs Hx (Hh & Hb & Hn). split_and!; [|by eapply body_ext; [|exact Hb]; intros; apply Hx; lia|done].
  eapply mem_at_ext; [|exact Hh]. rewrite sec_header_length. intros x Hr. symmetry. apply Hx. lia.
Qed.
Lemma sector_only a n m m' b sec : 40 <= ssz → only a n m m' → b + ssz <= a ∨ a + n <= b → sector_is m b sec → sector_is m' b sec.
Proof. intros Hs Ho Hd. apply sector_ext; [done|]. intros x Hx. apply Ho. lia. Qed.
(** An appended entry: its index and its data were written where the sector was free. *)
Lemma body_snoc m m' b log e :
  body m b log → entry_ok e → 16 + e_len e <= free_size log →
  mem_at m' (entry_index b (length log)) (entry_bytes (e_status e) (e_time e) (e_len e) (b + ssz - log_total log - e_len e)) →
  mem_at m' (b + ssz - log_total log - e_len e) (e_data e) →
  (∀ x, b + 40 <= x < entry_index b (length log) ∨ entry_index b (length log) + 16 <= x < b + ssz - log_total log - e_len e ∨
        b + ssz - log_total log <= x < b + ssz → m' x = m x) →
  body m' b (log ++ [e]).
Proof.
  intros (Hok & Hen & Hf & Her) He Hfit Hidx Hdat Hrest. pose proof He as (_&_&_&Hpos). pose proof (total_nonneg log).
  assert (log_total (log ++ [e]) = log_total log + e_len e) as Ht by (rewrite total_app; cbn; lia).
  split_and!.
  - apply Forall_app_2; [done|by constructor].
  - intros i e' [Hi|[Hi He']]%lookup_snoc_Some.
    + destruct Hi as [Hl Hi]. destruct (Hen _ _ Hi) as [H1 H2]. destruct (log_space _ _ _ Hok Hi Hf) as (Htk & Hn & Hp & Hs).
      assert (entry_log b (log ++ [e]) i = entry_log b log i) as Hel by (unfold entry_log; by rewrite take_app_le by lia).
      unfold entry_at. rewrite Hel. unfold entry_log, entry_index, free_size, e_len in *.
      pose proof (total_split _ _ _ Hi). pose proof (total_nonneg (drop (1 + i) log)).
      split; (eapply mem_at_ext; [|eassumption]); intros x; rewrite ?entry_bytes_length; intros Hr; symmetry; apply Hrest; unfold entry_index, entry_log, e_len in *; lia.
    + subst i e'. assert (entry_log b (log ++ [e]) (length log) = b + ssz - log_total log - e_len e) as Hel.
      { unfold entry_log. rewrite take_ge by (rewrite length_app; simpl; lia). lia. }
      unfold entry_at. by rewrite Hel.
  - unfold free_size in *. rewrite length_app. cbn [length]. lia.
  - unfold free_size in *. rewrite length_app. cbn [length]. unfold entry_index in *. intros x Hx. rewrite Hrest by lia. apply Her. lia.
Qed.
Lemma body_empty m b : 40 <= ssz → erased_at m (b + 40) (ssz - 40) → body m b [].
Proof.
  intros Hs He. split_and!; [constructor|by intros i e Hi|unfold free_size; cbn; lia|]. unfold entry_index, free_size. cbn.
  intros x Hx. apply He. lia.
Qed.
End Sectors.
