(* ===== verification/TsSector.v ===== *)
(** * Reading the sectors of the time series store

    [read_tsl] and [read_sector_info] on the sectors of [TsLog.v]: an entry, a free index, and the
    headers of the three kinds of sectors, with the walk over the entries of one in use. *)
From S2P Require Import Prelude W25qxx W25qxxProps Fal FdbUtils FdbProps KvData KvRead KvFlash KvNode KvBurn KvPower TsData TsDb TsFlash TsLog.

Section Reading.
Context {S : Type} (device_table : list (fal_flash_dev S)) (vprintf : string → list farg → M S unit)
  (p : nat) (size cap blk : Z) (good : fal_state S → Prop) (cell : fal_state S → Z → Z)
  (budget : fal_state S → nat) (erases : fal_state S → bool)
  `{HP : !PartFlash device_table vprintf p size cap blk good cell budget erases} (ssz : Z).
(** A header is read whole, and a sector has some entries. *)
Hypothesis header_cap : 40 <= cap.
Hypothesis sector_size : 512 <= ssz.
#[local] Abbreviation T := (ts_state S).
#[local] Abbreviation works := (works p size good cell budget erases ssz).
#[local] Abbreviation read_tsl := (read_tsl device_table vprintf).
#[local] Abbreviation ts_read_sector_info := (ts_read_sector_info device_table vprintf).

Lemma get_status_1 num idx : (idx < num ≤ 8)%nat → _fdb_get_status [status_byte idx] num = Some idx.
Proof. apply get_status_byte. Qed.
Lemma get_status_0 num : (0 < num ≤ 8)%nat → _fdb_get_status [0xFF] num = Some 0%nat.
Proof. intros H. by apply (get_status_byte num 0). Qed.

(** A sector inside of the database. *)
Definition inside (b : Z) : Prop := 0 <= b ∧ b + ssz <= size.

Definition tsl_of (b : Z) (log : list tsl_entry) (i : nat) (e : tsl_entry) : fdb_tsl :=
  mk_tsl (e_status e) (e_time e) (e_len e) (entry_index b i) (entry_log ssz b log i).
Lemma read_entry_runs m k b log i e s (Q : fdb_tsl → T → Prop) :
  works m k s → inside b → entries_in ssz m b log → log !! i = Some e →
  (∀ s', works m k s' → ts_db s' = ts_db s → Q (tsl_of b log i e) s') → wp (read_tsl (entry_index b i)) s Q.
Proof.
  intros Hw [Hb Hbs] (Hok & Hen & Hf) Hi HQ. destruct part_size as [_ Hsz]. pose proof (lookup_lt_Some _ _ _ Hi).
  destruct (log_space _ _ _ _ Hok Hi Hf) as (Ht & Hn & Hp & Hs). destruct (Hen _ _ Hi) as [Hidx _].
  rewrite Forall_lookup in Hok. destruct (Hok _ _ Hi) as (Htime & Hst & _ & _).
  unfold TsDb.read_tsl. apply wp_bind. unfold entry_index, entry_log in *.
  eapply ts_struct_runs; [exact Hw|exact Hidx|apply entry_bytes_length|unfold sizeof_log_idx_data; lia..|].
  intros s1 H1 E1. cbv zeta. rewrite entry_fields by (unfold is_u32; first [done|lia]). cbn [idx_status_table idx_time idx_log_len idx_log_addr].
  apply wp_bind. eapply wp_lift; [apply get_status_1; unfold FDB_TSL_STATUS_NUM; lia|].
  rewrite decide_False by (unfold FDB_TSL_PRE_WRITE, FDB_TSL_UNUSED; lia). apply wp_ret. by apply HQ.
Qed.
(** An index that was not written whole. *)
Lemma read_unwritten_runs m k a st s (Q : fdb_tsl → T → Prop) :
  works m k s → m a = status_byte st → (st ≤ 1)%nat → 0 <= a → a + 16 <= size →
  (∀ s', works m k s' → ts_db s' = ts_db s → Q (mk_tsl st 0 (ts_max_len (ts_db s)) a FDB_DATA_UNUSED) s') →
  wp (read_tsl a) s Q.
Proof.
  intros Hw Hm Hst Ha Hb HQ. unfold TsDb.read_tsl. apply wp_bind.
  eapply (ts_struct_runs m k _ a (m <$> seqZ a 16)); [exact Hw| |by rewrite length_fmap, length_seqZ|unfold sizeof_log_idx_data; lia..|].
  { unfold mem_at. by rewrite length_fmap, length_seqZ. }
  intros s1 H1 E1. cbv zeta.
  assert (idx_status_table (log_idx_of (m <$> seqZ a 16)) = [status_byte st]) as ->.
  { unfold log_idx_of. cbn [idx_status_table]. change 16 with (Z.of_nat 16). rewrite <-(Nat2Z.id 16) at 1.
    cbn [Z.of_nat Pos.of_succ_nat Pos.succ]. rewrite seqZ_cons by lia. cbn [fmap list_fmap take]. by rewrite Hm. }
  apply wp_bind. eapply wp_lift; [by apply get_status_1; unfold FDB_TSL_STATUS_NUM; lia|].
  rewrite decide_True by (unfold FDB_TSL_PRE_WRITE, FDB_TSL_UNUSED; lia). apply wp_bind, wp_gets, wp_ret. rewrite E1. by apply HQ.
Qed.
Lemma read_free_runs m k a s (Q : fdb_tsl → T → Prop) :
  works m k s → m a = 0xFF → 0 <= a → a + 16 <= size →
  (∀ s', works m k s' → ts_db s' = ts_db s → Q (mk_tsl FDB_TSL_UNUSED 0 (ts_max_len (ts_db s)) a FDB_DATA_UNUSED) s') →
  wp (read_tsl a) s Q.
Proof. intros Hw Hm. apply (read_unwritten_runs m k a 0); [done|done|lia]. Qed.

(** ** The walk over a sector in use *)

(** What the walk knows after the entries [log]. *)
Definition ts_known (b start et ei : Z) (log : list tsl_entry) : tsdb_sec_info :=
  match log with [] => using_header ssz b start et ei | _ => using_info ssz b log end.
Lemma known_fields b start et ei log :
  tsec_empty_idx (ts_known b start et ei log) = entry_index b (length log) ∧
  tsec_empty_data (ts_known b start et ei log) = b + ssz - log_total log ∧
  tsec_remain (ts_known b start et ei log) = free_size ssz log ∧
  tsec_status (ts_known b start et ei log) = FDB_SECTOR_STORE_USING ∧ tsec_addr (ts_known b start et ei log) = b.
Proof. destruct log; cbn [ts_known]; split_and!; try done; unfold using_header, entry_index, free_size; cbn; lia. Qed.
Lemma known_snoc b et ei log e :
  is_u32 (entry_index b (length log) + 16) → is_u32 (b + ssz - log_total log - e_len e) → is_u32 (b + ssz - log_total log) →
  ∀ start, start = first_time (log ++ [e]) →
  set_tsec_space (u32 (tsec_empty_idx (ts_known b start et ei log) + 16))
    (u32 (tsec_empty_data (ts_known b start et ei log) - e_len e)) (free_size ssz (log ++ [e]))
    (set_tsec_end (e_time e) (entry_index b (length log)) (ts_known b start et ei log)) = using_info ssz b (log ++ [e]).
Proof.
  intros H1 H2 H3 start ->. unfold using_info.
  destruct (known_fields b (first_time (log ++ [e])) et ei log) as (-> & -> & _).
  rewrite !u32_id by done.
  assert (entry_index b (length (log ++ [e])) = entry_index b (length log) + 16) as Hi by (unfold entry_index; rewrite length_app; cbn [length]; lia).
  unfold end_index, end_time. rewrite last_snoc, Hi, total_app. cbn [from_option log_total foldr]. unfold set_tsec_space, set_tsec_end.
  assert (b + ssz - (log_total log + (e_len e + 0)) = b + ssz - log_total log - e_len e) as -> by lia.
  assert (entry_index b (length log) + 16 - 16 = entry_index b (length log)) as -> by lia.
  by destruct log.
Qed.
(** An entry of the walk, behind which there is room or the end of the sector. *)
Lemma tsls_step_runs m k b et ei log e rest fuel s (Q : Z * tsdb_sec_info → T → Prop) :
  works m k s → inside b → entries_in ssz m b (log ++ e :: rest) →
  (∀ s', works m k s' → ts_db s' = ts_db s → 0 < free_size ssz (log ++ [e]) →
     wp (sector_tsls device_table vprintf fuel (entry_index b (length (log ++ [e]))) (ts_known b (first_time (log ++ e :: rest)) et ei (log ++ [e]))) s' Q) →
  (∀ r s', works m k s' → ts_db s' = ts_db s → rest = [] → free_size ssz (log ++ [e]) = 0 →
     Q (r, ts_known b (first_time (log ++ [e])) et ei (log ++ [e])) s') →
  wp (sector_tsls device_table vprintf (Datatypes.S fuel) (entry_index b (length log)) (ts_known b (first_time (log ++ e :: rest)) et ei log)) s Q.
Proof.
  intros Hw Hin Hbody Hroom Hend. pose proof Hin as [Hb Hbs]. destruct part_size as [_ Hsz]. pose proof (total_nonneg log). cbn [sector_tsls].
  assert ((log ++ e :: rest) !! length log = Some e) as Hi by (by rewrite lookup_app_r, Nat.sub_diag).
  pose proof Hbody as (Hok & _ & Hf). destruct (log_space _ _ _ _ Hok Hi Hf) as (Ht & Hn & Hp & Hs).
  assert (log_total (log ++ e :: rest) = log_total log + e_len e + log_total rest) as Htot by (rewrite total_app; cbn; unfold log_total; lia).
  rewrite take_app_length in *. rewrite length_app in Hs. cbn [length] in Hs.
  apply wp_bind. eapply read_entry_runs; [exact Hw|done|exact Hbody|exact Hi|]. intros s1 H1 E1.
  assert (Forall entry_ok rest) as Hrok by (apply Forall_app in Hok as [_ Hok]; by inversion Hok).
  assert (entry_ok e) as Heok by (rewrite Forall_lookup in Hok; by eapply Hok).
  destruct Heok as (Htime & Hst & _ & _).
  cbn [tsl_status tsl_of tsl_time tsl_log_len]. rewrite decide_False by (unfold FDB_TSL_UNUSED; lia).
  rewrite (decide_True (P := e_status e ≠ FDB_TSL_PRE_WRITE)) by (unfold FDB_TSL_PRE_WRITE; lia).
  rewrite wg_align by (unfold is_u32; lia). change LOG_IDX_DATA_SIZE with 16.
  assert (first_time (log ++ e :: rest) = first_time (log ++ [e])) as Hft by (by destruct log).
  pose proof (total_length _ Hrok). pose proof (total_nonneg rest).
  destruct (known_fields b (first_time (log ++ e :: rest)) et ei log) as (_ & _ & Hrem & _).
  assert (free_size ssz (log ++ [e]) = free_size ssz log - (16 + e_len e)) as Hfs by
    (unfold free_size; rewrite length_app, total_app; cbn [length log_total foldr]; lia).
  assert (free_size ssz (log ++ e :: rest) = free_size ssz (log ++ [e]) - 16 * Z.of_nat (length rest) - log_total rest) as Hfa by
    (unfold free_size; rewrite !length_app, Htot, total_app; cbn [length log_total foldr]; lia).
  assert (is_u32 (entry_index b (length log) + 16) ∧ is_u32 (b + ssz - log_total log - e_len e) ∧ is_u32 (b + ssz - log_total log)) as (U1 & U2 & U3)
    by (unfold is_u32, entry_index, free_size in *; lia).
  assert (tsec_remain (set_tsec_end (e_time e) (entry_index b (length log)) (ts_known b (first_time (log ++ e :: rest)) et ei log)) =
    free_size ssz log) as -> by (by rewrite <-Hrem).
  cbn [tsec_empty_idx tsec_empty_data set_tsec_end]. rewrite (u32_id (16 + e_len e)) by (unfold is_u32; lia). case_decide.
  - rewrite (u32_id (_ + 16)) by done. rewrite <-Hfs. rewrite known_snoc by (first [done|congruence]).
    replace (entry_index b (length log) + 16) with (entry_index b (length (log ++ [e]))) by (unfold entry_index; rewrite length_app; cbn [length]; lia).
    assert (using_info ssz b (log ++ [e]) = ts_known b (first_time (log ++ e :: rest)) et ei (log ++ [e])) as -> by (by destruct log).
    apply Hroom; [done|done|lia].
  - destruct rest; [|cbn [length] in *; lia]. cbn [length] in *.
    apply wp_bind. eapply ts_info_runs; [exact H1|]. intros s2 Hw2 E2. apply wp_ret.
    assert (free_size ssz (log ++ [e]) = 0) as Hz by lia.
    pose proof (known_snoc b et ei log e U1 U2 U3 (first_time (log ++ [e])) eq_refl) as Hks. rewrite Hz in Hks. rewrite Hks.
    assert (using_info ssz b (log ++ [e]) = ts_known b (first_time (log ++ [e])) et ei (log ++ [e])) as -> by (by destruct log).
    apply Hend; [done|congruence|done|done].
Qed.
Lemma sector_tsls_runs m k b et ei rest : ∀ fuel log s (Q : Z * tsdb_sec_info → T → Prop),
  works m k s → inside b → body ssz m b (log ++ rest) → 0 < free_size ssz log → (length rest < fuel)%nat →
  (∀ r s', works m k s' → ts_db s' = ts_db s → Q (r, ts_known b (first_time (log ++ rest)) et ei (log ++ rest)) s') →
  wp (sector_tsls device_table vprintf fuel (entry_index b (length log)) (ts_known b (first_time (log ++ rest)) et ei log)) s Q.
Proof.
  induction rest as [|e rest IH]; intros fuel log s Q Hw Hin Hbody Hfree Hfuel HQ;
    (destruct fuel as [|fuel]; [cbn [length] in Hfuel; lia|]).
  - cbn [sector_tsls]. rewrite app_nil_r in *. pose proof Hin as [Hb Hbs]. destruct part_size as [_ Hsz]. pose proof (total_nonneg log).
    pose proof Hbody as (Hok & _ & Hf & Her). pose proof (total_length _ Hok).
    unfold free_size in *. apply wp_bind. eapply read_free_runs; [exact Hw|apply Her; unfold entry_index; lia|unfold entry_index; lia..|].
    intros s1 H1 E1. cbn [tsl_status]. rewrite decide_True by done. apply wp_ret. by apply HQ.
  - eapply tsls_step_runs; [exact Hw|exact Hin|by apply body_entries| |].
    + intros s1 Hw1 E1 Hroom. cbn [length] in Hfuel. replace (log ++ e :: rest) with ((log ++ [e]) ++ rest) in * by (by rewrite <-app_assoc).
      apply IH; try done; [lia|]. intros r s' Hw' E'. apply HQ; [done|congruence].
    + intros r s' Hw' E' -> _. by apply HQ.
Qed.
(** The walk up to an index behind which there is room. *)
Lemma sector_tsls_prefix m k b et ei rest fuel : ∀ log s (Q : Z * tsdb_sec_info → T → Prop),
  works m k s → inside b → entries_in ssz m b (log ++ rest) → 0 < free_size ssz (log ++ rest) →
  (∀ s', works m k s' → ts_db s' = ts_db s →
     wp (sector_tsls device_table vprintf fuel (entry_index b (length (log ++ rest))) (ts_known b (first_time (log ++ rest)) et ei (log ++ rest))) s' Q) →
  wp (sector_tsls device_table vprintf (length rest + fuel) (entry_index b (length log)) (ts_known b (first_time (log ++ rest)) et ei log)) s Q.
Proof.
  induction rest as [|e rest IH]; intros log s Q Hw Hin Hen Hfree HQ; [rewrite app_nil_r in *; by apply HQ|].
  cbn [length Nat.add]. eapply tsls_step_runs; [exact Hw|exact Hin|exact Hen| |].
  - intros s1 Hw1 E1 _. replace (log ++ e :: rest) with ((log ++ [e]) ++ rest) in * by (by rewrite <-app_assoc).
    apply IH; try done. intros s' Hw' E'. apply HQ; [done|congruence].
  - intros r s' _ _ -> Hz. lia.
Qed.

(** ** Headers *)

Definition header_info (old : tsdb_sec_info) (b : Z) (st : nat) (start et ei : list Z) (est : nat) : tsdb_sec_info :=
  let info := mk_tsec true st b TSL_MAGIC_WORD (time_at 0 start) (tsec_end_time old) (tsec_end_idx old) est FDB_TSL_UNUSED
                (ssz - 40) (b + 40) (b + ssz) in
  if decide (est = FDB_TSL_WRITE) then set_tsec_end (time_at 0 et) (u32_at 0 ei) info else info.
Lemma header_runs m k b old tr st start et ei est s (Q : Z * tsdb_sec_info → T → Prop) :
  works m k s → inside b → mem_at m b (tsl_hdr_bytes st start et ei est) →
  length start = 4%nat → length et = 4%nat → length ei = 4%nat → (st < 4)%nat → est = FDB_TSL_UNUSED ∨ est = FDB_TSL_WRITE →
  (∀ s', works m k s' → ts_db s' = ts_db s →
     wp (if decide (st = FDB_SECTOR_STORE_USING ∧ tr = true)
         then sector_tsls device_table vprintf (ts_fuel (ts_db s)) (b + 40) (header_info old b st start et ei est)
         else mret (FDB_NO_ERR, header_info old b st start et ei est)) s' Q) →
  wp (ts_read_sector_info b old tr) s Q.
Proof.
  intros Hw [Hb Hbs] Hm L1 L2 L3 Hst Hest HQ. destruct part_size as [_ Hsz]. unfold TsDb.ts_read_sector_info.
  apply wp_bind. eapply ts_struct_runs; [exact Hw|exact Hm|by apply tsl_hdr_length|unfold sizeof_tsl_sector_hdr; lia..|].
  intros s1 H1 E1. cbv zeta. rewrite tsl_hdr_fields by done.
  cbn [tsl_hdr_status tsl_hdr_magic tsl_hdr_start tsl_hdr_end0 tsl_hdr_end1 end_hdr_time end_hdr_index end_hdr_status].
  rewrite decide_False by (by intros []).
  apply wp_bind. eapply wp_lift; [apply get_status_1; unfold FDB_SECTOR_STORE_STATUS_NUM; lia|].
  apply wp_bind. eapply wp_lift; [apply get_status_1; unfold FDB_TSL_STATUS_NUM; destruct Hest as [-> | ->]; unfold FDB_TSL_UNUSED, FDB_TSL_WRITE; lia|].
  apply wp_bind. eapply wp_lift; [apply get_status_0; unfold FDB_TSL_STATUS_NUM; lia|].
  apply wp_bind, wp_gets. unfold id. rewrite E1. destruct (works_sizes _ _ _ Hw) as [Hss _]. rewrite Hss.
  change TSL_SECTOR_HDR_SIZE with 40. unfold inside in *. rewrite !(u32_id (b + _)) by (unfold is_u32; lia).
  replace (b + ssz - (b + 40)) with (ssz - 40) by lia. rewrite u32_id by (unfold is_u32; lia).
  specialize (HQ s1 H1 E1). unfold header_info in HQ. apply wp_bind. unfold sector_end.
  destruct Hest as [-> | ->].
  - rewrite !(decide_False (P := FDB_TSL_UNUSED = FDB_TSL_WRITE)) in * by done.
    rewrite decide_False by (by intros []). apply wp_ret. exact HQ.
  - rewrite decide_True by done. apply wp_ret. rewrite !(decide_True (P := FDB_TSL_WRITE = FDB_TSL_WRITE)) in HQ by done. exact HQ.
Qed.

Lemma time_at_bytes t : is_time t → time_at 0 (time_bytes t) = t.
Proof. intros Ht. rewrite <-(app_nil_r (time_bytes t)). by apply (time_at_le []). Qed.
Lemma first_time_ok log : Forall entry_ok log → log ≠ [] → is_time (first_time log).
Proof. intros H Hn. destruct H as [|e log (Ht&_) _]; [done|]. exact Ht. Qed.
Lemma end_time_ok log : Forall entry_ok log → log ≠ [] → is_time (end_time log).
Proof.
  intros H Hn. destruct log as [|e log _] using rev_ind; [done|]. unfold end_time. rewrite last_snoc.
  apply Forall_app in H as [_ H]. by inversion H as [|? ? (Ht&_)].
Qed.
Lemma unwritten_length : length unwritten = 4%nat.
Proof. done. Qed.
Lemma read_empty_runs m k b old tr s (Q : Z * tsdb_sec_info → T → Prop) :
  works m k s → inside b → mem_at m b (sec_header b SEmpty) →
  (∀ s', works m k s' → ts_db s' = ts_db s → Q (FDB_NO_ERR, empty_info ssz b (tsec_end_time old) (tsec_end_idx old)) s') →
  wp (ts_read_sector_info b old tr) s Q.
Proof.
  intros Hw Hin Hm HQ. eapply header_runs; [done|done|exact Hm|done|done|done|unfold FDB_SECTOR_STORE_EMPTY; lia|by left|].
  intros s' H' E'. rewrite decide_False by (by intros []). apply wp_ret. by apply HQ.
Qed.
Lemma read_full_runs m k b log old tr s (Q : Z * tsdb_sec_info → T → Prop) :
  works m k s → inside b → sector_is ssz m b (SFull log) →
  (∀ s', works m k s' → ts_db s' = ts_db s → Q (FDB_NO_ERR, full_info ssz b log) s') →
  wp (ts_read_sector_info b old tr) s Q.
Proof.
  intros Hw [Hb Hbs] (Hm & (Hok & _ & Hf & _) & [?|Hne]) HQ; [done|]. cbn in Hne. destruct part_size as [_ Hsz].
  eapply header_runs; [done|done|exact Hm|apply time_bytes_length|apply time_bytes_length|apply le_bytes_length|unfold FDB_SECTOR_STORE_FULL; lia|by right|].
  intros s' H' E'. rewrite decide_False by (by intros []). apply wp_ret. unfold header_info. rewrite decide_True by done.
  rewrite !time_at_bytes by (first [by apply first_time_ok|by apply end_time_ok]).
  assert (u32_at 0 (le_bytes 4 (end_index b log)) = end_index b log) as ->; [|by apply HQ].
  pose proof (total_nonneg log). rewrite <-(app_nil_r (le_bytes 4 _)). apply (u32_at_le []).
  change (sec_log (SFull log)) with log in *. unfold is_u32, end_index, entry_index, free_size in *. destruct log; [done|]. cbn [length] in *. lia.
Qed.
(** Without the walk, and with it. *)
Lemma read_using_runs m k b log old s (Q : Z * tsdb_sec_info → T → Prop) :
  works m k s → inside b → mem_at m b (sec_header b (SUsing log)) → is_time (first_time log) →
  (∀ s', works m k s' → ts_db s' = ts_db s → Q (FDB_NO_ERR, using_header ssz b (first_time log) (tsec_end_time old) (tsec_end_idx old)) s') →
  wp (ts_read_sector_info b old false) s Q.
Proof.
  intros Hw Hin Hm Ht HQ.
  eapply header_runs; [done|done|exact Hm|apply time_bytes_length|done|done|unfold FDB_SECTOR_STORE_USING; lia|by left|].
  intros s' H' E'. rewrite decide_False by (by intros []). apply wp_ret. unfold header_info.
  rewrite decide_False by done. rewrite time_at_bytes by done. by apply HQ.
Qed.
Lemma walk_using_runs m k b log old s (Q : Z * tsdb_sec_info → T → Prop) :
  works m k s → inside b → sector_is ssz m b (SUsing log) →
  (∀ r s', works m k s' → ts_db s' = ts_db s → Q (r, using_info ssz b log) s') →
  wp (ts_read_sector_info b old true) s Q.
Proof.
  intros Hw Hin (Hm & Hbody & [?|Hne]) HQ; [done|]. cbn in Hne, Hbody. pose proof Hbody as (Hok & _ & Hf & _).
  pose proof (total_length _ Hok). destruct (works_sizes _ _ _ Hw) as [_ Hms].
  eapply header_runs; [done|done|exact Hm|apply time_bytes_length|done|done|unfold FDB_SECTOR_STORE_USING; lia|by left|].
  intros s' H' E'. rewrite decide_True by done. unfold header_info. rewrite decide_False by done.
  rewrite time_at_bytes by (by apply first_time_ok).
  pose proof (sector_tsls_runs m k b (tsec_end_time old) (tsec_end_idx old) log (ts_fuel (ts_db s)) [] s' Q) as Hrun.
  replace (b + 40) with (entry_index b (length (@nil tsl_entry))) at 1 by (unfold entry_index; cbn; lia). apply Hrun; try done.
  - unfold free_size. cbn. lia.
  - unfold ts_fuel. rewrite Hms. change LOG_IDX_DATA_SIZE with 16. unfold free_size, inside in *.
    assert (Z.of_nat (length log) <= size / 16) by (apply Z.div_le_lower_bound; lia). lia.
  - intros r s2 H2 E2. rewrite app_nil_l. destruct log; [done|]. cbn [ts_known]. apply HQ; [done|congruence].
Qed.
End Reading.
Arguments read_entry_runs {S} {device_table} {vprintf} {p} {size} {cap} {blk} {good} {cell} {budget} {erases} {HP} {ssz}.
Arguments read_unwritten_runs {S} {device_table} {vprintf} {p} {size} {cap} {blk} {good} {cell} {budget} {erases} {HP} {ssz}.
Arguments read_free_runs {S} {device_table} {vprintf} {p} {size} {cap} {blk} {good} {cell} {budget} {erases} {HP} {ssz}.
Arguments sector_tsls_prefix {S} {device_table} {vprintf} {p} {size} {cap} {blk} {good} {cell} {budget} {erases} {HP} {ssz}.
Arguments sector_tsls_runs {S} {device_table} {vprintf} {p} {size} {cap} {blk} {good} {cell} {budget} {erases} {HP} {ssz}.
Arguments header_runs {S} {device_table} {vprintf} {p} {size} {cap} {blk} {good} {cell} {budget} {erases} {HP} {ssz}.
Arguments read_empty_runs {S} {device_table} {vprintf} {p} {size} {cap} {blk} {good} {cell} {budget} {erases} {HP} {ssz}.
Arguments read_full_runs {S} {device_table} {vprintf} {p} {size} {cap} {blk} {good} {cell} {budget} {erases} {HP} {ssz}.
Arguments read_using_runs {S} {device_table} {vprintf} {p} {size} {cap} {blk} {good} {cell} {budget} {erases} {HP} {ssz}.
Arguments walk_using_runs {S} {device_table} {vprintf} {p} {size} {cap} {blk} {good} {cell} {budget} {erases} {HP} {ssz}.
Arguments known_snoc {ssz}.
