(* ===== verification/TsAppend.v ===== *)
(** * Writing to the sectors of the time series store

    What [write_tsl], [format_sector] and the steps of [ts_update_sec_status] leave in the flash: an
    entry more, an empty sector, and a sector that is closed or begun. *)
From S2P Require Import Prelude W25qxx W25qxxProps Fal FdbUtils FdbProps KvData KvRead KvFlash KvNode KvBurn KvPower TsData TsDb TsFlash TsLog TsSector.

(** The fields of a header. *)
Lemma tsl_hdr_split m b st start et ei est :
  length start = 4%nat → length et = 4%nat → length ei = 4%nat →
  mem_at m b (tsl_hdr_bytes st start et ei est) ↔
  m b = status_byte st ∧ erased_at m (b + 1) 3 ∧ mem_at m (b + 4) (le_bytes 4 TSL_MAGIC_WORD) ∧ mem_at m (b + 8) start ∧
  mem_at m (b + 12) et ∧ mem_at m (b + 16) ei ∧ m (b + 20) = status_byte est ∧ erased_at m (b + 21) 3 ∧ erased_at m (b + 24) 16.
Proof.
  intros L1 L2 L3. unfold tsl_hdr_bytes. rewrite !mem_at_app, le_bytes_length, L1, L2, L3. cbn [length].
  change (Z.of_nat 4) with 4. rewrite <-!Z.add_assoc. change (4 + 4) with 8. change (4 + 8) with 12. change (4 + (4 + (4 + 4))) with 16.
  change (4 + (4 + 4)) with 12. change (4 + (4 + (4 + (4 + 4)))) with 20. change (4 + (4 + (4 + (4 + (4 + 4))))) with 24.
  assert (∀ a st, mem_at m a [status_byte st; 0xFF; 0xFF; 0xFF] ↔ m a = status_byte st ∧ erased_at m (a + 1) 3) as H4.
  { intros a st'. rewrite mem_at_lookup. split.
    - intros H. split; [rewrite <-(Z.add_0_r a); by apply (H 0%nat)|]. intros x Hx.
      assert (x = a + Z.of_nat 1 ∨ x = a + Z.of_nat 2 ∨ x = a + Z.of_nat 3) as [-> | [-> | ->]] by lia; by apply H.
    - intros [H1 H2] i b'. destruct i as [|[|[|[|i]]]]; intros Hb; try done; injection Hb as <-;
        [by rewrite Z.add_0_r|apply H2; lia..]. }
  assert (mem_at m (b + 24) (replicate 16 255) ↔ erased_at m (b + 24) 16) as ->.
  { split; [|intros H; by apply (erased_mem _ _ 16)]. rewrite mem_at_lookup. intros H x Hx.
    replace x with (b + 24 + Z.of_nat (Z.to_nat (x - b - 24))) by lia. apply H. apply lookup_replicate. split; [done|lia]. }
  rewrite !H4. change (4 + 12) with 16. change (4 + 16) with 20. replace (b + 20 + 1) with (b + 21) by lia. tauto.
Qed.

Section Append.
Context {S : Type} (device_table : list (fal_flash_dev S)) (vprintf : string → list farg → M S unit)
  (p : nat) (size cap blk : Z) (good : fal_state S → Prop) (cell : fal_state S → Z → Z)
  (budget : fal_state S → nat) (erases : fal_state S → bool)
  `{HP : !PartFlash device_table vprintf p size cap blk good cell budget erases} (ssz : Z).
Hypothesis header_cap : 40 <= cap.
Hypothesis sector_size : 512 <= ssz.
(** A sector can be erased on its own. *)
Hypothesis sector_blocks : ssz `mod` blk = 0.
#[local] Abbreviation T := (ts_state S).
#[local] Abbreviation works := (works p size good cell budget erases ssz).
#[local] Abbreviation inside := (inside size ssz).
#[local] Abbreviation ts_read_sector_info := (ts_read_sector_info device_table vprintf).

(** [m ?? k] where [m] succeeds. *)
Lemma wp_checked (m k : M T Z) s (Q : Z → T → Prop) :
  wp m s (λ r s', r = FDB_NO_ERR ∧ wp k s' Q) → wp (ts_checked m k) s Q.
Proof. intros H. apply wp_bind. eapply wp_mono; [exact H|]. intros r s' [-> Hk]. by rewrite decide_False by auto. Qed.
#[local] Tactic Notation "next_step" uconstr(H) := apply wp_checked; eapply H.

Lemma write_tsl_runs m k b log e blob s (Q : Z → T → Prop) :
  works m k s → inside b → body ssz m b log → tsec_empty_idx (ts_cur_sec (ts_db s)) = entry_index b (length log) →
  tsec_empty_data (ts_cur_sec (ts_db s)) = b + ssz - log_total log → e_status e = FDB_TSL_WRITE → entry_ok e →
  blob_size blob = e_len e → 16 + e_len e <= free_size ssz log → (14 + length (e_data e) ≤ k)%nat →
  (∀ m' k' s', works m' k' s' → (k ≤ k' + (14 + length (e_data e)))%nat → ts_db s' = ts_db s → body ssz m' b (log ++ [e]) →
     only (b + 40) (ssz - 40) m m' → Q FDB_NO_ERR s') →
  wp (write_tsl device_table vprintf blob (e_data e) (e_time e)) s Q.
Proof.
  intros Hw [Hb Hbs] Hbody Hei Hed Hst He Hbl Hfit Hk HQ. pose proof Hbody as (_ & _ & Hf & Her).
  destruct part_size as [_ Hsz]. pose proof (total_nonneg log). pose proof He as (Ht & _ & Hu & Hpos).
  unfold write_tsl. apply wp_bind, wp_gets. rewrite Hei, Hed, Hbl. cbv zeta. set (ia := entry_index b (length log)) in *.
  assert (ia = b + 40 + 16 * Z.of_nat (length log)) as Hia by done. unfold free_size in *.
  rewrite wg_align by (unfold is_u32; lia). rewrite (u32_id (b + _ - _ - _)) by (unfold is_u32; lia).
  set (la := b + ssz - log_total log - e_len e) in *.
  rewrite u32_id by (unfold is_u32, LOG_IDX_TS_OFFSET; lia). change LOG_IDX_TS_OFFSET with 4.
  next_step (ts_step_runs m k ia _ 0%nat); [exact Hw|apply Her; lia|lia..|unfold FDB_TSL_PRE_WRITE, FDB_TSL_STATUS_NUM; lia|unfold FDB_TSL_STATUS_NUM; lia|lia|].
  intros m1 s1 H1 E1 Hm1 O1. split; [done|].
  change (Z.of_nat sizeof_log_idx_data - 4) with 12.
  next_step (ts_store_runs m1); [exact H1|by rewrite log_idx_tail_length| |apply log_idx_tail_u8|lia..|].
  { eapply only_erased; [exact O1| |lia]. eapply erased_part; [exact Her|lia..]. }
  intros m2 s2 H2 E2 Hm2 O2. split; [done|]. assert (e_len e = Z.of_nat (length (e_data e))) as Hlen by done.
  next_step (ts_store_runs m2); [exact H2|done| |exact Hu|lia..|].
  { eapply only_erased; [exact O2| |lia]. eapply only_erased; [exact O1| |lia]. eapply erased_part; [exact Her|lia..]. }
  intros m3 s3 H3 E3 Hm3 O3. split; [done|].
  eapply (ts_step_runs m3 _ ia _ FDB_TSL_PRE_WRITE); [exact H3| |unfold FDB_TSL_PRE_WRITE, FDB_TSL_WRITE; lia|lia|lia|unfold FDB_TSL_WRITE, FDB_TSL_STATUS_NUM; lia|unfold FDB_TSL_STATUS_NUM; lia|lia|].
  { rewrite O3, O2 by lia. exact Hm1. }
  intros m4 s4 H4 E4 Hm4 O4.
  assert (∀ x, b + 40 <= x < ia ∨ ia + 16 <= x < la ∨ b + ssz - log_total log <= x < b + ssz → m4 x = m x) as Hrest
    by (intros x Hx; by rewrite O4, O3, O2, O1 by lia).
  assert (only (b + 40) (ssz - 40) m m4) as Ho by (intros x Hx; by rewrite O4, O3, O2, O1 by lia).
  eapply (HQ m4); [exact H4|lia|congruence| |exact Ho].
  apply (body_snoc _ m); [exact Hbody|exact He|unfold free_size; lia| | |exact Hrest].
  - fold ia la. rewrite Hst. unfold entry_bytes. apply mem_at_app. split.
    + apply mem_at_lookup. intros i x Hi. assert (∀ y, ia + 1 <= y < ia + 4 → m4 y = 0xFF) as Hff
        by (intros y Hy; rewrite O4, O3, O2, O1 by lia; apply Her; lia).
      destruct i as [|[|[|[|i]]]]; try done; injection Hi as <-; [by rewrite Z.add_0_r|apply Hff; lia..].
    + change (Z.of_nat (length [status_byte FDB_TSL_WRITE; 255; 255; 255])) with 4.
      eapply only_mem; [exact O4| |rewrite log_idx_tail_length; lia]. eapply only_mem; [exact O3|exact Hm2|rewrite log_idx_tail_length; lia].
  - eapply only_mem; [exact O4|exact Hm3|unfold e_len in *; lia].
Qed.

(** ** Headers *)

Lemma format_sector_runs m k b s (Q : Z → T → Prop) :
  works m k s → inside b → b `mod` ssz = 0 → (5 ≤ k)%nat →
  (∀ m' k' s', works m' k' s' → (k ≤ k' + 5)%nat → ts_db s' = ts_db s → sector_is ssz m' b SEmpty → only b ssz m m' → Q FDB_NO_ERR s') →
  wp (ts_format_sector device_table vprintf b) s Q.
Proof.
  intros Hw [Hb Hbs] Hmod Hk HQ. destruct part_size as [Hblk Hsz]. destruct (works_sizes _ _ _ Hw) as [Hss _].
  unfold ts_format_sector. apply wp_bind, wp_gets. rewrite Hss. unfold ts_assert. rewrite bool_decide_eq_true_2 by done.
  apply wp_bind, wp_ret.
  assert (b `mod` blk = 0) as Hbb.
  { apply Z.mod_divide in Hmod as [q ->]; [|lia]. by rewrite Z.mul_mod, sector_blocks, Z.mul_0_r, Z.mod_0_l by lia. }
  next_step (ts_erase_runs m); [exact Hw|lia|lia|done|done|lia|]. intros s1 H1 E1. split; [done|].
  set (m1 := erased b ssz m) in *. assert (erased_at m1 b ssz) as Her by (intros x Hx; unfold m1, erased; by rewrite decide_True by lia).
  next_step (ts_step_runs m1 _ b _ 0%nat); [exact H1|apply Her; lia|lia..|unfold FDB_SECTOR_STORE_EMPTY, FDB_SECTOR_STORE_STATUS_NUM; lia|unfold FDB_SECTOR_STORE_STATUS_NUM; lia|lia|].
  intros m2 s2 H2 E2 Hm2 O2. split; [done|]. change TSL_MAGIC_OFFSET with 4. rewrite u32_id by (unfold is_u32; lia).
  eapply (ts_store_runs m2); [exact H2|by rewrite le_bytes_length| |apply le_bytes_u8|lia..|].
  { eapply only_erased; [exact O2| |lia]. eapply erased_part; [exact Her|lia..]. }
  intros m3 s3 H3 E3 Hm3 O3.
  assert (∀ l n, b <= l → l + n <= b + ssz → l + n <= b ∨ b + 1 <= l → l + n <= b + 4 ∨ b + 8 <= l → erased_at m3 l n) as Hff.
  { intros l n L1 L2 L3 L4. eapply only_erased; [exact O3| |lia]. eapply only_erased; [exact O2| |lia]. eapply erased_part; [exact Her|lia..]. }
  eapply (HQ m3); [exact H3|lia|congruence| |].
  - split; [|split; [|by left]].
    + apply tsl_hdr_split; [done..|]. split_and!; try (by apply (erased_mem _ _ 4), Hff; lia); try (apply Hff; lia); [|exact Hm3|].
      * rewrite O3 by lia. exact Hm2.
      * apply (Hff (b + 20) 1); lia.
    + apply body_empty; [lia|]. apply Hff; lia.
  - intros x Hx. rewrite O3, O2 by lia. unfold m1, erased. by rewrite decide_False by lia.
Qed.

(** A sector in use as the flash has it while its first entry is not written yet. *)
Definition begun (m : Z → Z) (b start : Z) (log : list tsl_entry) : Prop :=
  mem_at m b (tsl_hdr_bytes FDB_SECTOR_STORE_USING (time_bytes start) unwritten unwritten FDB_TSL_UNUSED) ∧ body ssz m b log.
Lemma start_sector_runs m k b t s (Q : Z → T → Prop) :
  works m k s → inside b → tsec_addr (ts_cur_sec (ts_db s)) = b → sector_is ssz m b SEmpty → is_time t → (5 ≤ k)%nat →
  (∀ m' k' s', works m' k' s' → (k ≤ k' + 5)%nat →
     ts_db s' = set_ts_cur (set_tsec_start t (set_tsec_status FDB_SECTOR_STORE_USING (ts_cur_sec (ts_db s)))) (ts_db s) →
     begun m' b t [] → only b ssz m m' → Q FDB_NO_ERR s') →
  wp (start_sector device_table vprintf t) s Q.
Proof.
  intros Hw [Hb Hbs] Hadr (Hm & Hbody & _) Ht Hk HQ. destruct part_size as [_ Hsz].
  apply tsl_hdr_split in Hm as (F1 & F2 & F3 & F4 & F5 & F6 & F7 & F8 & F9); [|done..].
  unfold start_sector. apply wp_bind, wp_tset, wp_bind, wp_gets. cbn [ts_db ts_cur_sec set_ts_cur].
  set (d1 := set_ts_cur _ _). set (s1 := mk_tss _ _ _). assert (works m k s1) as H1 by (by apply works_db).
  change (tsec_addr (set_tsec_start t (set_tsec_status FDB_SECTOR_STORE_USING (ts_cur_sec (ts_db s))))) with (tsec_addr (ts_cur_sec (ts_db s))).
  rewrite Hadr. change SECTOR_START_TIME_OFFSET with 8. rewrite u32_id by (unfold is_u32; lia).
  next_step (ts_step_runs m k b _ FDB_SECTOR_STORE_EMPTY); [exact H1|exact F1|unfold FDB_SECTOR_STORE_EMPTY, FDB_SECTOR_STORE_USING; lia|lia|lia|unfold FDB_SECTOR_STORE_USING, FDB_SECTOR_STORE_STATUS_NUM; lia|unfold FDB_SECTOR_STORE_STATUS_NUM; lia|lia|].
  intros m2 s2 H2 E2 Hm2 O2. split; [done|].
  assert (erased_at m (b + 8) 4) as Hst.
  { intros x Hx. rewrite mem_at_lookup in F4. replace x with (b + 8 + Z.of_nat (Z.to_nat (x - b - 8))) by lia. apply F4.
    apply lookup_replicate. split; [done|lia]. }
  eapply (ts_store_runs m2); [exact H2|by rewrite time_bytes_length| |apply le_bytes_u8|lia..|].
  { eapply only_erased; [exact O2|exact Hst|lia]. }
  intros m3 s3 H3 E3 Hm3 O3.
  assert (only b 12 m m3) as Ho by (intros x Hx; rewrite O3, O2 by lia; done).
  eapply (HQ m3); [exact H3|lia|by rewrite E3, E2| |by eapply only_wide; [exact Ho|lia|lia]].
  split; [|eapply body_ext; [|exact Hbody]; intros x Hx; apply Ho; lia].
  apply tsl_hdr_split; [apply time_bytes_length|done..|].
  assert (∀ o bs, mem_at m o bs → o + Z.of_nat (length bs) <= b + 8 → b + 1 <= o → mem_at m3 o bs) as Hk1.
  { intros o bs H L1 L2. eapply only_mem; [exact O3| |lia]. eapply only_mem; [exact O2|exact H|lia]. }
  assert (∀ o n, erased_at m o n → o + n <= b + 8 ∧ b + 1 <= o ∨ b + 12 <= o → erased_at m3 o n) as Hk2.
  { intros o n H L. eapply only_erased; [exact O3| |lia]. eapply only_erased; [exact O2|exact H|lia]. }
  split_and!.
  - rewrite O3 by lia. exact Hm2.
  - apply Hk2; [done|lia].
  - apply Hk1; [done|rewrite le_bytes_length; lia|lia].
  - exact Hm3.
  - eapply only_mem; [exact Ho|exact F5|rewrite unwritten_length; lia].
  - eapply only_mem; [exact Ho|exact F6|rewrite unwritten_length; lia].
  - rewrite Ho by lia. exact F7.
  - apply Hk2; [done|lia].
  - apply Hk2; [done|lia].
Qed.
Lemma unwritten_erased m a : mem_at m a unwritten → erased_at m a 4.
Proof.
  intros H x Hx. rewrite mem_at_lookup in H. replace x with (a + Z.of_nat (Z.to_nat (x - a))) by lia. apply H.
  apply lookup_replicate. split; [done|lia].
Qed.
(** The record of the end and the state: a sector in use is full. *)
Lemma close_sector_runs m k b log s (Q : Z → T → Prop) cont :
  works m k s → inside b → sector_is ssz m b (SUsing log) → ts_cur_sec (ts_db s) = using_info ssz b log →
  ts_last_time (ts_db s) = end_time log → (11 ≤ k)%nat →
  (∀ m' k' s', works m' k' s' → (k ≤ k' + 11)%nat → ts_db s' = ts_db s → sector_is ssz m' b (SFull log) → only b ssz m m' → wp cont s' Q) →
  wp (ts_checked (save_end device_table vprintf b (end_index b log) SECTOR_END0_TIME_OFFSET SECTOR_END0_IDX_OFFSET SECTOR_END0_STATUS_OFFSET)
       (ts_checked (ts_write_status device_table vprintf b FDB_SECTOR_STORE_STATUS_NUM FDB_SECTOR_STORE_FULL) cont)) s Q.
Proof.
  intros Hw [Hb Hbs] (Hm & Hbody & [?|Hne]) Hcur Hlast Hk HQ; [done|]. destruct part_size as [_ Hsz].
  cbn [sec_log] in Hne, Hbody.
  apply tsl_hdr_split in Hm as (F1 & F2 & F3 & F4 & F5 & F6 & F7 & F8 & F9); [|done..].
  apply wp_checked. unfold save_end. apply wp_bind, wp_gets. rewrite Hlast.
  change SECTOR_END0_TIME_OFFSET with 12. change SECTOR_END0_IDX_OFFSET with 16. change SECTOR_END0_STATUS_OFFSET with 20.
  rewrite !(u32_id (b + _)) by (unfold is_u32; lia).
  next_step (ts_step_runs m k (b + 20) _ 0%nat); [exact Hw|exact F7|lia..|unfold FDB_TSL_PRE_WRITE, FDB_TSL_STATUS_NUM; lia|unfold FDB_TSL_STATUS_NUM; lia|lia|].
  intros m1 s1 H1 E1 Hm1 O1. split; [done|].
  next_step (ts_store_runs m1); [exact H1|by rewrite time_bytes_length| |apply le_bytes_u8|lia..|].
  { eapply only_erased; [exact O1|by apply unwritten_erased|lia]. }
  intros m2 s2 H2 E2 Hm2 O2. split; [done|].
  assert (length (le_bytes 4 (end_index b log)) = 4%nat) as L4 by apply le_bytes_length.
  next_step (ts_store_runs m2); [exact H2|by rewrite L4| |apply le_bytes_u8|lia..|].
  { eapply only_erased; [exact O2| |lia]. eapply only_erased; [exact O1|by apply unwritten_erased|lia]. }
  intros m3 s3 H3 E3 Hm3 O3. split; [done|].
  eapply (ts_step_runs m3 _ (b + 20) _ FDB_TSL_PRE_WRITE); [exact H3|rewrite O3, O2 by lia; exact Hm1|unfold FDB_TSL_PRE_WRITE, FDB_TSL_WRITE; lia|lia|lia|unfold FDB_TSL_WRITE, FDB_TSL_STATUS_NUM; lia|unfold FDB_TSL_STATUS_NUM; lia|lia|].
  intros m4 s4 H4 E4 Hm4 O4. split; [done|].
  next_step (ts_step_runs m4 _ b _ FDB_SECTOR_STORE_USING); [exact H4|rewrite O4, O3, O2, O1 by lia; exact F1|unfold FDB_SECTOR_STORE_USING, FDB_SECTOR_STORE_FULL; lia|lia|lia|unfold FDB_SECTOR_STORE_FULL, FDB_SECTOR_STORE_STATUS_NUM; lia|unfold FDB_SECTOR_STORE_STATUS_NUM; lia|lia|].
  intros m5 s5 H5 E5 Hm5 O5. split; [done|].
  assert (∀ x, b + 1 <= x < b + 12 ∨ b + 21 <= x → m5 x = m x) as Ho by (intros x Hx; by rewrite O5, O4, O3, O2, O1 by lia).
  eapply (HQ m5); [exact H5|lia|congruence| |intros x Hx; by rewrite O5, O4, O3, O2, O1 by lia].
  split; [|split; [|by right]].
  - apply tsl_hdr_split; [apply time_bytes_length|apply time_bytes_length|exact L4|]. split_and!.
    + exact Hm5.
    + intros x Hx. rewrite Ho by lia. apply F2. lia.
    + eapply mem_at_ext; [|exact F3]. rewrite le_bytes_length. intros x Hx. symmetry. apply Ho. lia.
    + eapply mem_at_ext; [|exact F4]. rewrite time_bytes_length. intros x Hx. symmetry. apply Ho. lia.
    + eapply only_mem; [exact O5| |rewrite time_bytes_length; lia]. eapply only_mem; [exact O4| |rewrite time_bytes_length; lia].
      eapply only_mem; [exact O3|exact Hm2|rewrite time_bytes_length; lia].
    + eapply only_mem; [exact O5| |lia]. eapply only_mem; [exact O4|exact Hm3|lia].
    + rewrite O5 by lia. exact Hm4.
    + intros x Hx. rewrite Ho by lia. apply F8. lia.
    + intros x Hx. rewrite Ho by lia. apply F9. lia.
  - eapply body_ext; [|exact Hbody]. intros x Hx. apply Ho. lia.
Qed.
End Append.
Arguments write_tsl_runs {S} {device_table} {vprintf} {p} {size} {cap} {blk} {good} {cell} {budget} {erases} {HP} {ssz}.
Arguments format_sector_runs {S} {device_table} {vprintf} {p} {size} {cap} {blk} {good} {cell} {budget} {erases} {HP} {ssz}.
Arguments start_sector_runs {S} {device_table} {vprintf} {p} {size} {cap} {blk} {good} {cell} {budget} {erases} {HP} {ssz}.
Arguments close_sector_runs {S} {device_table} {vprintf} {p} {size} {cap} {blk} {good} {cell} {budget} {erases} {HP} {ssz}.
