(* ===== verification/TsSpec.v ===== *)
(** * What the time series store promises

    A database is a ring of sectors that hold logs: the older ones are full, and an append goes to
    the current one or, when that has no room, to the next, which loses what it held.  The
    entries are in the order of their times. *)
From Stdlib Require Import Sorted.
From S2P Require Import Prelude W25qxx Fal FdbUtils KvData KvRead TsData TsLog.

Record ts_abs : Type := mk_abs { a_secs : list ts_sector; a_cur : nat; a_old : nat; a_last : Z }.

Section Spec.
Context (ssz max_len : Z) (rollover : bool).

(** The sector behind the current one. *)
Definition abs_next (a : ts_abs) : option nat :=
  if decide (1 + a_cur a < length (a_secs a))%nat then Some (1 + a_cur a)%nat else if rollover then Some 0%nat else None.
(** The step into sector [n], which is emptied when it holds a log. *)
Definition abs_enter (n : nat) (full : ts_sector) (e : tsl_entry) (a : ts_abs) : ts_abs :=
  mk_abs (<[n := SUsing [e]]> (<[a_cur a := full]> (a_secs a))) n
    (match a_secs a !! n with
     | Some SEmpty => a_old a
     | _ => if decide (1 + n < length (a_secs a))%nat then (1 + n)%nat else 0%nat
     end) (e_time e).
Definition abs_append (t : Z) (data : list Z) (a : ts_abs) : Z * ts_abs :=
  let e := mk_entry t FDB_TSL_WRITE data in
  if decide (Z.of_nat (length data) > max_len ∨ t <= a_last a) then (FDB_WRITE_ERR, a) else
  match a_secs a !! a_cur a with
  | Some SEmpty => (FDB_NO_ERR, mk_abs (<[a_cur a := SUsing [e]]> (a_secs a)) (a_cur a) (a_old a) t)
  | Some (SUsing log) =>
      if decide (16 + Z.of_nat (length data) <= free_size ssz log) then
        (FDB_NO_ERR, mk_abs (<[a_cur a := SUsing (log ++ [e])]> (a_secs a)) (a_cur a) (a_old a) t)
      else
        match abs_next a with
        | Some n => (FDB_NO_ERR, abs_enter n (SFull log) e a)
        | None => (FDB_SAVED_FULL, mk_abs (<[a_cur a := SFull log]> (a_secs a)) (a_cur a) (a_old a) (a_last a))
        end
  | _ => (FDB_SAVED_FULL, a)
  end.

(** ** The ring *)

Definition is_full (sec : ts_sector) : Prop := match sec with SFull _ => True | _ => False end.
(** The older sectors in the order of their age, and the current one: before and after the last
    sector was reached for the first time. *)
Inductive shape : ts_abs → list ts_sector → ts_sector → Prop :=
  | shape_first front c n last : shape (mk_abs (front ++ c :: replicate n SEmpty) (length front) 0 last) front c
  | shape_wrapped front c back last :
      back ≠ [] → shape (mk_abs (front ++ c :: back) (length front) (1 + length front) last) (back ++ front) c.
Definition logs (secs : list ts_sector) : list tsl_entry := concat (sec_log <$> secs).
Definition before (e1 e2 : tsl_entry) : Prop := e_time e1 < e_time e2.
Definition log_ring (a : ts_abs) (older : list ts_sector) (c : ts_sector) : Prop :=
  shape a older c ∧ Forall is_full older ∧ (c = SEmpty → older = []) ∧ (2 ≤ length (a_secs a))%nat ∧
  StronglySorted before (logs older ++ sec_log c) ∧ Forall (λ e, e_time e <= a_last a) (logs older ++ sec_log c).

(** The entries of a database, the oldest first, by its ring of sectors. *)
Definition entries (a : ts_abs) : list tsl_entry := logs (drop (a_old a) (a_secs a) ++ take (a_old a) (a_secs a)).

Lemma logs_app l1 l2 : logs (l1 ++ l2) = logs l1 ++ logs l2.
Proof. unfold logs. by rewrite fmap_app, concat_app. Qed.
Lemma logs_empty n : logs (replicate n SEmpty) = [].
Proof. induction n; [done|]. exact IHn. Qed.
Lemma ring_entries a older c : shape a older c → entries a = logs older ++ sec_log c.
Proof.
  intros H. unfold entries. destruct H as [front c n last|front c back last _]; cbn [a_old a_secs].
  - rewrite drop_0, take_0, app_nil_r, logs_app. f_equal. change (logs (c :: ?l)) with (sec_log c ++ logs l).
    by rewrite logs_empty, app_nil_r.
  - rewrite cons_middle, app_assoc. rewrite drop_app_length', take_app_length' by (rewrite length_app; simpl; lia).
    rewrite !logs_app. unfold logs at 3. cbn. by rewrite app_nil_r, app_assoc.
Qed.
Lemma ring_cur a older c : shape a older c → a_secs a !! a_cur a = Some c.
Proof. intros []; cbn; by apply list_lookup_middle. Qed.
(** An entry behind all others. *)
Lemma sorted_snoc l e last :
  StronglySorted before l → Forall (λ e, e_time e <= last) l → last < e_time e →
  StronglySorted before (l ++ [e]) ∧ Forall (λ e', e_time e' <= e_time e) (l ++ [e]).
Proof.
  intros Hs Hl He. split.
  - induction Hs as [|x l Hs IH Hx]; [by repeat constructor|]. inversion Hl as [|? ? Hx' Hl']; subst.
    cbn. constructor; [by apply IH|]. apply Forall_app. split; [done|]. constructor; [|done]. unfold before. lia.
  - apply Forall_app. split; [|by constructor]. eapply Forall_impl; [exact Hl|]. cbn. lia.
Qed.
Lemma sorted_drop l1 l2 : StronglySorted before (l1 ++ l2) → StronglySorted before l2.
Proof. induction l1 as [|x l1 IH]; [done|]. cbn. intros H. apply IH. by inversion H. Qed.

Lemma set_middle {A} (l1 l2 : list A) x y : <[length l1 := x]> (l1 ++ y :: l2) = l1 ++ x :: l2.
Proof. rewrite <-(Nat.add_0_r (length l1)). by rewrite insert_app_r. Qed.
(** The step into the next sector, with what it leaves of the ring. *)
Lemma ring_enter a older c n e log :
  log_ring a older c → sec_log c = log → (2 ≤ length (a_secs a))%nat → abs_next a = Some n → a_last a < e_time e → c ≠ SEmpty →
  ∃ dropped kept, older ++ [SFull log] = dropped ++ kept ∧ (length dropped ≤ 1)%nat ∧
    ((dropped = [] ∧ a_secs a !! n = Some SEmpty) ∨ ∃ l, dropped = [SFull l] ∧ a_secs a !! n = Some (SFull l)) ∧ n ≠ a_cur a ∧
    log_ring (abs_enter n (SFull log) e a) kept (SUsing [e]).
Proof.
  intros (Hsh & Hfull & Hne & H2 & Hs & Hl) Hc _ Hn He Hc'. unfold abs_next in Hn.
  assert (∀ dropped kept, older ++ [SFull log] = dropped ++ kept →
    StronglySorted before (logs kept ++ [e]) ∧ Forall (λ e', e_time e' <= e_time e) (logs kept ++ [e])) as Hord.
  { intros dropped kept E. assert (logs older ++ sec_log c = logs dropped ++ logs kept) as E'.
    { rewrite <-logs_app, <-E, logs_app, Hc. unfold logs at 3. cbn. by rewrite app_nil_r. }
    rewrite E' in Hs, Hl. apply sorted_drop in Hs. apply Forall_app in Hl as [_ Hl]. by eapply sorted_snoc. }
  assert (Forall is_full (older ++ [SFull log])) as Hfull' by (apply Forall_app_2; [done|by constructor]).
  destruct Hsh as [front c m last|front c back last Hb]; cbn [a_cur a_secs a_last a_old] in *.
  - rewrite length_app, length_cons, length_replicate in Hn, H2. destruct m as [|m].
    + rewrite decide_False in Hn by lia. destruct rollover; [|done]. injection Hn as <-.
      destruct front as [|f0 front]; [cbn in *; lia|]. inversion Hfull as [|? ? Hf0 Hff]; subst. destruct f0 as [| |l]; try done.
      exists [SFull l], (front ++ [SFull (sec_log c)]). split_and!; [done|simpl; lia|right; by exists l|simpl; lia|].
      assert (abs_enter 0 (SFull (sec_log c)) e (mk_abs ((SFull l :: front) ++ c :: replicate 0 SEmpty) (length (SFull l :: front)) 0 last) =
        mk_abs ([] ++ SUsing [e] :: front ++ [SFull (sec_log c)]) 0 1 (e_time e)) as ->.
      { unfold abs_enter. cbn [a_cur a_secs a_last a_old]. rewrite set_middle. cbn [app lookup list_lookup insert list_insert length].
        rewrite decide_True by (rewrite length_app; simpl; lia). done. }
      split_and!; try done.
      * rewrite <-(app_nil_r (front ++ _)) at 2. apply (shape_wrapped []). by destruct front.
      * by inversion Hfull'.
      * cbn. rewrite length_app. cbn. lia.
      * by eapply (Hord [_]).
      * by eapply (Hord [_]).
    + rewrite decide_True in Hn by lia. injection Hn as <-. exists [], (front ++ [SFull log]).
      assert ((front ++ c :: replicate (Datatypes.S m) SEmpty) !! Datatypes.S (length front) = Some SEmpty) as Hnx.
      { rewrite lookup_app_r by lia. by replace (Datatypes.S (length front) - length front)%nat with 1%nat by lia. }
      split_and!; [done|simpl; lia|by left|lia|].
      assert (abs_enter (Datatypes.S (length front)) (SFull log) e (mk_abs (front ++ c :: replicate (Datatypes.S m) SEmpty) (length front) 0 last) =
        mk_abs ((front ++ [SFull log]) ++ SUsing [e] :: replicate m SEmpty) (length (front ++ [SFull log])) 0 (e_time e)) as ->.
      { unfold abs_enter. cbn [a_cur a_secs a_last a_old]. rewrite Hnx, set_middle, length_app, Nat.add_1_r. f_equal.
        rewrite (cons_middle (SFull log)), app_assoc. replace (Datatypes.S (length front)) with (length (front ++ [SFull log])) by (rewrite length_app; simpl; lia).
        apply set_middle. }
      split_and!; try done.
      * apply shape_first.
      * cbn [a_secs]. rewrite !length_app. cbn. lia.
      * by eapply (Hord []).
      * by eapply (Hord []).
  - destruct back as [|b0 back]; [done|]. rewrite !length_app, !length_cons in Hn, H2. rewrite decide_True in Hn by lia. injection Hn as <-.
    assert (is_full b0) as Hb0 by (by inversion Hfull). destruct b0 as [| |l]; try done.
    exists [SFull l], (back ++ front ++ [SFull log]).
    assert ((front ++ c :: SFull l :: back) !! Datatypes.S (length front) = Some (SFull l)) as Hnx.
    { rewrite lookup_app_r by lia. by replace (Datatypes.S (length front) - length front)%nat with 1%nat by lia. }
    assert ((SFull l :: back ++ front) ++ [SFull log] = [SFull l] ++ back ++ front ++ [SFull log]) as E by (by rewrite !app_assoc).
    split_and!; [done|simpl; lia|right; by exists l|lia|].
    assert (abs_enter (Datatypes.S (length front)) (SFull log) e (mk_abs (front ++ c :: SFull l :: back) (length front) (1 + length front) last) =
      mk_abs ((front ++ [SFull log]) ++ SUsing [e] :: back) (length (front ++ [SFull log]))
        (if decide (back = []) then 0 else 1 + length (front ++ [SFull log])) (e_time e)) as ->.
    { unfold abs_enter. cbn [a_cur a_secs a_last a_old]. rewrite Hnx, set_middle. f_equal.
      - rewrite (cons_middle (SFull log)), app_assoc. replace (Datatypes.S (length front)) with (length (front ++ [SFull log])) by (rewrite length_app; simpl; lia).
        apply set_middle.
      - rewrite length_app. simpl. lia.
      - rewrite !length_app, !length_cons. destruct back as [|x back]; cbn [length].
        + rewrite decide_False, decide_True by (first [done|lia]). done.
        + rewrite decide_True, decide_False by (first [done|lia]). lia. }
    split_and!; try done.
    + case_decide as Hbk; [subst back|].
      * apply (shape_first _ _ 0).
      * by apply shape_wrapped.
    + change ((SFull l :: back) ++ front) with (SFull l :: back ++ front) in Hfull'. rewrite E in Hfull'. by inversion Hfull'.
    + cbn [a_secs]. rewrite !length_app. cbn. lia.
    + by eapply (Hord [_]).
    + by eapply (Hord [_]).
Qed.

(** Another content of the current sector. *)
Lemma shape_put a older c c' last :
  shape a older c → shape (mk_abs (<[a_cur a := c']> (a_secs a)) (a_cur a) (a_old a) last) older c'.
Proof. intros []; cbn [a_cur a_secs a_old]; rewrite set_middle; by constructor. Qed.
Lemma ring_put a older c c' e :
  log_ring a older c → sec_log c' = sec_log c ++ [e] → a_last a < e_time e →
  log_ring (mk_abs (<[a_cur a := c']> (a_secs a)) (a_cur a) (a_old a) (e_time e)) older c'.
Proof.
  intros (Hsh & Hfull & Hne & H2 & Hs & Hl) Hc He. destruct (sorted_snoc _ e _ Hs Hl He) as [Hs' Hl'].
  split_and!; [by eapply shape_put|done| |cbn [a_secs]; by rewrite length_insert|by rewrite Hc, app_assoc|by rewrite Hc, app_assoc].
  intros ->. by destruct (sec_log c).
Qed.
(** An append either leaves the entries or puts the new one behind them, and then at most the
    oldest sector's are lost. *)
Lemma ring_append a older c t data :
  log_ring a older c → let '(r, a') := abs_append t data a in
  ∃ older' c', log_ring a' older' c' ∧
    ((r ≠ FDB_NO_ERR ∧ entries a' = entries a) ∨
     (r = FDB_NO_ERR ∧ ∃ lost, entries a = lost ++ take (length (entries a') - 1) (entries a') ∧
        last (entries a') = Some (mk_entry t FDB_TSL_WRITE data) ∧ (lost = [] ∨ ∃ full, a_secs a !! a_old a = Some full ∧ lost = sec_log full))).
Proof.
  intros Hr. pose proof Hr as (Hsh & Hfull & Hne & H2 & Hs & Hl). unfold abs_append. set (e := mk_entry t FDB_TSL_WRITE data).
  case_decide as Hbad; [exists older, c; split; [done|by left]|].
  assert (a_last a < e_time e) as He by (cbn; lia). rewrite (ring_cur _ _ _ Hsh).
  assert (∀ log, sec_log c = log → log_ring (mk_abs (<[a_cur a := SUsing (log ++ [e])]> (a_secs a)) (a_cur a) (a_old a) t) older (SUsing (log ++ [e]))) as Hput
    by (intros log <-; by apply (ring_put a older c _ e)).
  assert (∀ a' kept c', log_ring a' kept c' → entries a' = logs kept ++ sec_log c') as Hent by (intros a' kept c' (H & _); by apply ring_entries).
  assert (∀ l : list tsl_entry, take (length (l ++ [e]) - 1) (l ++ [e]) = l ∧ last (l ++ [e]) = Some e) as Hsnoc.
  { intros l. rewrite last_snoc, length_app, Nat.add_sub. by rewrite take_app_length. }
  destruct c as [|log|log].
  - specialize (Hput [] eq_refl). rewrite app_nil_l in Hput. eexists _, _. split; [exact Hput|]. right. split; [done|]. exists [].
    rewrite (Hent _ _ _ Hput), (ring_entries _ _ _ Hsh). cbn [sec_log]. destruct (Hsnoc (logs older)) as [-> ->]. rewrite app_nil_r. split_and!; [done..|by left].
  - case_decide as Hroom.
    + specialize (Hput log eq_refl). eexists _, _. split; [exact Hput|]. right. split; [done|]. exists [].
      rewrite (Hent _ _ _ Hput), (ring_entries _ _ _ Hsh). cbn [sec_log]. rewrite app_assoc. destruct (Hsnoc (logs older ++ log)) as [-> ->]. split_and!; [done..|by left].
    + destruct (abs_next a) as [n|] eqn:Hn.
      * destruct (ring_enter a older (SUsing log) n e log) as (dropped & kept & E & Hd & Hwhich & Hnc & Hring); try done.
        eexists _, _. split; [exact Hring|]. right. split; [done|]. exists (logs dropped).
        rewrite (Hent _ _ _ Hring), (ring_entries _ _ _ Hsh). cbn [sec_log]. destruct (Hsnoc (logs kept)) as [-> ->].
        assert (logs older ++ log = logs (older ++ [SFull log])) as -> by (rewrite logs_app; unfold logs at 3; cbn; by rewrite app_nil_r).
        rewrite E, logs_app. split_and!; [done|done|]. destruct Hwhich as [[-> _]|(l & -> & _)]; [by left|right].
        assert (logs [SFull l] = l) as -> by (unfold logs; cbn; by rewrite app_nil_r).
        clear -Hsh E. inversion Hsh as [front ? m lst|front ? back lst Hb]; subst; cbn [a_secs a_old].
        -- destruct older as [|f front]; injection E as -> _; by eexists.
        -- destruct back as [|f back]; [done|]. injection E as -> _. exists (SFull l). split; [|done].
           rewrite lookup_app_r by lia. by replace (1 + length front - length front)%nat with 1%nat by lia.
      * eexists older, (SFull log). split; [|left; split; [done|]].
        -- split_and!; try done; [by eapply shape_put|cbn [a_secs]; by rewrite length_insert].
        -- erewrite (ring_entries _ _ (SFull log)) by (by eapply shape_put). by rewrite (ring_entries _ _ _ Hsh).
  - exists older, (SFull log). split; [done|by left].
Qed.
(** The sectors in the order of the ring: the older ones, the current one, and empty ones. *)
Lemma ring_order a older c : shape a older c → ∃ n, drop (a_old a) (a_secs a) ++ take (a_old a) (a_secs a) = older ++ c :: replicate n SEmpty.
Proof.
  intros [front c' n last|front c' back last _]; cbn [a_old a_secs].
  - exists n. by rewrite drop_0, take_0, app_nil_r.
  - exists 0%nat. rewrite cons_middle, app_assoc. rewrite drop_app_length', take_app_length' by (rewrite length_app; simpl; lia).
    by rewrite app_assoc.
Qed.
(** The next sector is another one, and it is not in use. *)
Lemma ring_next a older c n :
  log_ring a older c → abs_next a = Some n → n ≠ a_cur a ∧ ∃ sec, a_secs a !! n = Some sec ∧ (sec = SEmpty ∨ ∃ l, sec = SFull l).
Proof.
  intros (Hsh & Hfull & _ & H2 & _) Hn. unfold abs_next in Hn.
  assert (∀ (front : list ts_sector) c sec (rest : list ts_sector), (front ++ c :: sec :: rest) !! (1 + length front)%nat = Some sec) as Hnx.
  { intros. rewrite lookup_app_r by lia. by replace (1 + length front - length front)%nat with 1%nat by lia. }
  destruct Hsh as [front c m last|front c back last Hb]; cbn [a_cur a_secs] in *.
  - rewrite length_app, length_cons, length_replicate in *. destruct m as [|m].
    + rewrite decide_False in Hn by lia. destruct rollover; [|done]. injection Hn as <-.
      destruct front as [|f0 front]; [cbn in *; lia|]. inversion Hfull as [|? ? Hf0 Hff]; subst. destruct f0 as [| |l]; try done.
      split; [simpl; lia|]. exists (SFull l). split; [done|right; by exists l].
    + rewrite decide_True in Hn by lia. injection Hn as <-. split; [lia|]. exists SEmpty. split; [apply Hnx|by left].
  - destruct back as [|b0 back]; [done|]. rewrite length_app, !length_cons in Hn. rewrite decide_True in Hn by lia. injection Hn as <-.
    assert (is_full b0) as Hb0 by (by inversion Hfull). destruct b0 as [| |l]; try done.
    split; [lia|]. exists (SFull l). split; [apply Hnx|right; by exists l].
Qed.
(** Only the current sector is in use. *)
Lemma ring_using a older c i log : log_ring a older c → a_secs a !! i = Some (SUsing log) → i = a_cur a.
Proof.
  intros (Hsh & Hfull & _) Hi.
  assert (∀ l i, Forall is_full l → l !! i = Some (SUsing log) → False) as Hno
    by (intros l i' Hl Hi'; rewrite Forall_lookup in Hl; by specialize (Hl _ _ Hi')).
  destruct Hsh as [front c n last|front c back last Hb]; cbn [a_secs a_cur] in *;
    apply lookup_app_Some in Hi as [Hi|[Hge [[Hi _]|[Hpos Hi]]%lookup_cons_Some]]; try lia; exfalso.
  - by eapply Hno.
  - by apply lookup_replicate in Hi as [? _].
  - apply Forall_app in Hfull as [_ Hfull]. by eapply Hno.
  - apply Forall_app in Hfull as [Hfull _]. by eapply Hno.
Qed.
Lemma ring_bounds a older c : log_ring a older c → (a_cur a < length (a_secs a))%nat ∧ (a_old a < length (a_secs a))%nat.
Proof.
  intros (Hsh & _). destruct Hsh as [front c n last|front c back last Hb]; cbn [a_secs a_cur a_old];
    rewrite length_app, length_cons; [lia|]. destruct back; [done|]. cbn [length]. lia.
Qed.

(** ** What a scan of the sectors finds *)

Fixpoint empties (secs : list ts_sector) : nat :=
  match secs with [] => 0 | SEmpty :: secs => 1 + empties secs | _ :: secs => empties secs end.
Lemma empties_app l1 l2 : empties (l1 ++ l2) = (empties l1 + empties l2)%nat.
Proof. induction l1 as [|[] l1 IH]; cbn; [done|lia|done|done]. Qed.
Lemma empties_full l : Forall is_full l → empties l = 0%nat.
Proof. induction 1 as [|[] l H _ IH]; done. Qed.
Lemma empties_replicate n : empties (replicate n SEmpty) = n.
Proof. induction n; cbn; [done|lia]. Qed.
Lemma empties_take l i sec : l !! i = Some sec → empties (take (1 + i) l) = (empties (take i l) + match sec with SEmpty => 1 | _ => 0 end)%nat.
Proof. intros Hi. rewrite Nat.add_1_l, (take_S_r _ _ _ Hi), empties_app. by destruct sec. Qed.

(** The places of the sectors: full before the current one, and behind it all full or all empty. *)
Lemma ring_places a older c i sec :
  log_ring a older c → a_secs a !! i = Some sec →
  (i < a_cur a ∧ is_full sec)%nat ∨ (i = a_cur a ∧ sec = c) ∨ (a_cur a < i)%nat ∧ (is_full sec ∨ sec = SEmpty).
Proof.
  intros (Hsh & Hfull & _) Hi. destruct Hsh as [front c n last|front c back last Hb]; cbn [a_secs a_cur] in *;
    apply lookup_app_Some in Hi as [Hi|[Hge [[Hj ->]|[Hpos Hi]]%lookup_cons_Some]].
  - left. pose proof (lookup_lt_Some _ _ _ Hi). rewrite Forall_lookup in Hfull. split; [lia|by eapply Hfull].
  - right. left. split; [lia|done].
  - right. right. split; [lia|]. apply lookup_replicate in Hi as [-> _]. by right.
  - left. pose proof (lookup_lt_Some _ _ _ Hi). apply Forall_app in Hfull as [_ Hfull]. rewrite Forall_lookup in Hfull. split; [lia|by eapply Hfull].
  - right. left. split; [lia|done].
  - right. right. split; [lia|]. apply Forall_app in Hfull as [Hfull _]. rewrite Forall_lookup in Hfull. left. by eapply Hfull.
Qed.
Lemma ring_no_gap a older c i sec : log_ring a older c → a_secs a !! i = Some sec → sec ≠ SEmpty → empties (take i (a_secs a)) = 0%nat.
Proof.
  intros (Hsh & Hfull & Hemp & _) Hi Hne. destruct Hsh as [front c n last|front c back last Hb]; cbn [a_secs a_cur] in *.
  - apply lookup_app_Some in Hi as [Hi|[Hge [[Hj ->]|[Hpos Hi]]%lookup_cons_Some]].
    + pose proof (lookup_lt_Some _ _ _ Hi). rewrite take_app_le by lia. by apply empties_full, Forall_take.
    + assert (i = length front) as -> by lia. rewrite take_app_length. by apply empties_full.
    + by apply lookup_replicate in Hi as [? _].
  - assert (∀ l, Forall is_full l → empties l = 0%nat) as H0 by apply empties_full.
    apply Forall_app in Hfull as [Hbk Hfr]. rewrite take_app, empties_app, H0 by (by apply Forall_take).
    destruct (i - length front)%nat as [|j] eqn:Hij; [done|]. cbn [take empties].
    assert (c ≠ SEmpty ∨ c = SEmpty) as [Hc| ->] by (destruct c; auto).
    + destruct c; [done|by apply H0, Forall_take|by apply H0, Forall_take].
    + destruct back; [done|]. by specialize (Hemp eq_refl).
Qed.
Lemma ring_empty a older i sec : log_ring a older SEmpty → a_cur a = 0%nat ∧ (a_secs a !! i = Some sec → sec = SEmpty).
Proof.
  intros (Hsh & _ & Hemp & _). specialize (Hemp eq_refl). subst older.
  inversion Hsh as [front ? n last|front ? back last Hb Eo]; subst; cbn [a_secs a_cur].
  - split; [done|]. cbn. intros [[_ ->]|[_ Hi]]%lookup_cons_Some; [done|]. by apply lookup_replicate in Hi as [? _].
  - by destruct back.
Qed.
Lemma ring_start a older c : log_ring a older c → c = SEmpty → a_cur a = 0%nat ∧ a_old a = 0%nat.
Proof.
  intros (Hsh & _ & Hemp & _) Hc. specialize (Hemp Hc). subst older.
  inversion Hsh as [front ? n last|front ? back last Hb Eo]; subst; cbn [a_cur a_old]; [done|]. by destruct back.
Qed.
(** The oldest sector, from the number of the empty ones. *)
Lemma ring_oldest a older c :
  log_ring a older c →
  (empties (a_secs a) ≠ 0%nat → a_old a = 0%nat ∧ a_secs a !! (length (a_secs a) - 1)%nat = Some SEmpty) ∧
  (empties (a_secs a) = 0%nat → c ≠ SEmpty ∧ a_old a = if decide (1 + a_cur a < length (a_secs a))%nat then (1 + a_cur a)%nat else 0%nat).
Proof.
  intros (Hsh & Hfull & Hemp & H2 & _). destruct Hsh as [front c n last|front c back last Hb]; cbn [a_secs a_cur a_old] in *.
  - rewrite empties_app, (empties_full front), length_app, length_cons, length_replicate by done. split; intros He.
    + split; [done|]. destruct n as [|n].
      * destruct c; cbn in He; [|lia..]. rewrite (Hemp eq_refl) in H2. cbn in H2. lia.
      * rewrite lookup_app_r by lia. replace (length front + Datatypes.S (Datatypes.S n) - 1 - length front)%nat with (Datatypes.S n) by lia.
        cbn [lookup list_lookup]. apply lookup_replicate. split; [done|lia].
    + change (c :: replicate n SEmpty) with ([c] ++ replicate n SEmpty) in He. rewrite empties_app, empties_replicate in He.
      split; [by intros ->|]. rewrite decide_False by lia. done.
  - apply Forall_app in Hfull as [Hbk Hfr]. split; intros He.
    + exfalso. change (c :: back) with ([c] ++ back) in He. rewrite !empties_app, (empties_full front), (empties_full back) in He by done.
      destruct c; cbn in He; [|lia..]. specialize (Hemp eq_refl). by destruct back.
    + split; [intros ->; specialize (Hemp eq_refl); by destruct back|]. rewrite length_app, length_cons. destruct back; [done|].
      cbn [length]. by rewrite decide_True by lia.
Qed.
End Spec.
