(* ===== verification/TsRefine.v ===== *)
(** * The time series store implements its specification

    [represents] relates a database and its flash to the ring of sectors of [TsSpec.v].  An append
    with a time, on a flash that has its power, does what [abs_append] says. *)
From S2P Require Import Prelude W25qxx W25qxxProps Fal FdbUtils FdbProps KvData KvRead KvFlash KvNode KvBurn KvPower TsData TsDb TsFlash TsLog TsSector TsAppend TsSpec.

Section Refine.
Context {S : Type} (device_table : list (fal_flash_dev S)) (vprintf : string → list farg → M S unit)
  (p : nat) (size cap blk : Z) (good : fal_state S → Prop) (cell : fal_state S → Z → Z)
  (budget : fal_state S → nat) (erases : fal_state S → bool)
  `{HP : !PartFlash device_table vprintf p size cap blk good cell budget erases} (ssz : Z).
Hypothesis header_cap : 40 <= cap.
Hypothesis sector_size : 512 <= ssz.
Hypothesis sector_blocks : ssz `mod` blk = 0.
(** The options of the database. *)
Context (max_len : Z) (rollover : bool) (lk ulk : option (M (fal_state S) unit)).
#[local] Abbreviation T := (ts_state S).
#[local] Abbreviation works := (works p size good cell budget erases ssz).
#[local] Abbreviation inside := (inside size ssz).
#[local] Abbreviation ts_read_sector_info := (ts_read_sector_info device_table vprintf).

Definition base (i : nat) : Z := Z.of_nat i * ssz.
Definition ts_holds (m : Z → Z) (secs : list ts_sector) : Prop := ∀ i sec, secs !! i = Some sec → sector_is ssz m (base i) sec.
(** The structure of the current sector says what the sector holds. *)
Definition cur_is (d : fdb_tsdb S) (a : ts_abs) : Prop :=
  match a_secs a !! a_cur a with
  | Some SEmpty => ∃ et ei, ts_cur_sec d = empty_info ssz (base (a_cur a)) et ei
  | Some (SUsing log) => ts_cur_sec d = using_info ssz (base (a_cur a)) log ∧ a_last a = end_time log
  | Some (SFull log) => ts_cur_sec d = set_tsec_status FDB_SECTOR_STORE_FULL (using_info ssz (base (a_cur a)) log)
  | None => False
  end.
Definition options (d : fdb_tsdb S) : Prop :=
  init_ok (ts_parent d) = true ∧ ts_max_len d = max_len ∧ ts_rollover d = rollover ∧ ts_lock d = lk ∧ ts_unlock d = ulk.
(** The platform's lock functions leave the flash and the database as they are. *)
Definition calm (f : option (M (fal_state S) unit)) : Prop :=
  match f with
  | None => True
  | Some f => ∀ m k s, works m k s → wp (ts_on_fal f) s (λ _ s', works m k s' ∧ ts_db s' = ts_db s)
  end.
Lemma ts_lock_runs m k s (Q : unit → T → Prop) :
  works m k s → calm (ts_lock (ts_db s)) → (∀ s', works m k s' → ts_db s' = ts_db s → Q tt s') → wp ts_db_lock s Q.
Proof.
  intros Hw Hc HQ. unfold ts_db_lock. apply wp_bind, wp_gets. destruct (ts_lock (ts_db s)) as [f|]; [|by apply wp_ret, HQ].
  eapply wp_mono; [by eapply Hc|]. intros [] s' [Hw' E]. by apply HQ.
Qed.
Lemma ts_unlock_runs m k s (Q : unit → T → Prop) :
  works m k s → calm (ts_unlock (ts_db s)) → (∀ s', works m k s' → ts_db s' = ts_db s → Q tt s') → wp ts_db_unlock s Q.
Proof.
  intros Hw Hc HQ. unfold ts_db_unlock. apply wp_bind, wp_gets. destruct (ts_unlock (ts_db s)) as [f|]; [|by apply wp_ret, HQ].
  eapply wp_mono; [by eapply Hc|]. intros [] s' [Hw' E]. by apply HQ.
Qed.
Definition in_db (secs : list ts_sector) : Prop := Z.of_nat (length secs) * ssz = size.
Definition represents (m : Z → Z) (k : nat) (s : T) (a : ts_abs) : Prop :=
  works m k s ∧ in_db (a_secs a) ∧ ts_holds m (a_secs a) ∧ cur_is (ts_db s) a ∧
  ts_oldest_addr (ts_db s) = base (a_old a) ∧ ts_last_time (ts_db s) = a_last a ∧ options (ts_db s).

Lemma represents_db m k s s' a : represents m k s a → works m k s' → ts_db s' = ts_db s → represents m k s' a.
Proof. intros (_ & H) Hw E. split; [done|]. by rewrite E. Qed.
Lemma base_inside secs i : in_db secs → (i < length secs)%nat → inside (base i).
Proof. unfold in_db, TsSector.inside, base. intros H Hi. split; nia. Qed.
Lemma base_mod i : base i `mod` ssz = 0.
Proof. apply Z.mod_mul. lia. Qed.
(** A change of one sector. *)
Lemma holds_insert m m' secs i sec :
  ts_holds m secs → only (base i) ssz m m' → sector_is ssz m' (base i) sec → ts_holds m' (<[i := sec]> secs).
Proof.
  intros Hh Ho Hs j sec' Hj. destruct (decide (i = j)) as [<-|Hne].
  - destruct (decide (i < length secs)%nat).
    + rewrite list_lookup_insert_eq in Hj by done. by injection Hj as <-.
    + rewrite list_insert_ge in Hj by lia. apply lookup_lt_Some in Hj. lia.
  - rewrite list_lookup_insert_ne in Hj by done. eapply sector_only; [lia|exact Ho| |by apply Hh].
    unfold base. destruct (decide (i < j)%nat); [right|left]; nia.
Qed.
Lemma empty_known b t et ei :
  set_tsec_start t (set_tsec_status FDB_SECTOR_STORE_USING (empty_info ssz b et ei)) = ts_known ssz b t et ei [].
Proof. done. Qed.

Lemma append_tsl_runs m k b start et ei log e blob s (Q : Z → T → Prop) :
  works m k s → inside b → begun ssz m b start log → start = first_time (log ++ [e]) →
  ts_cur_sec (ts_db s) = ts_known ssz b start et ei log → e_status e = FDB_TSL_WRITE → entry_ok e →
  blob_size blob = e_len e → 16 + e_len e <= free_size ssz log → (14 + length (e_data e) ≤ k)%nat →
  (∀ m' k' s', works m' k' s' → (k ≤ k' + (14 + length (e_data e)))%nat →
     ts_db s' = set_ts_last_time (e_time e) (set_ts_cur (using_info ssz b (log ++ [e])) (ts_db s)) →
     sector_is ssz m' b (SUsing (log ++ [e])) → only b ssz m m' → Q FDB_NO_ERR s') →
  wp (append_tsl device_table vprintf blob (e_data e) (e_time e)) s Q.
Proof.
  intros Hw Hin [Hm Hbody] Hstart Hcur Hst He Hbl Hfit Hk HQ. pose proof Hin as [Hb Hbs]. destruct part_size as [_ Hsz].
  destruct (known_fields ssz b start et ei log) as (Kidx & Kdata & Krem & Kst & Kadr). pose proof He as (_ & _ & _ & Hpos).
  unfold append_tsl. apply wp_bind. eapply write_tsl_runs; [exact Hw|exact Hin|exact Hbody|by rewrite Hcur|by rewrite Hcur|done..|].
  intros m' k' s' Hw' Hk' E' Hbody' Ho. rewrite decide_False by auto. apply wp_bind, wp_tset, wp_ret.
  pose proof (total_nonneg log). unfold free_size in Hfit.
  assert (count_tsl (blob_size blob) (e_time e) (ts_db s') =
    set_ts_last_time (e_time e) (set_ts_cur (using_info ssz b (log ++ [e])) (ts_db s))) as Hcount.
  { rewrite E'. unfold count_tsl. f_equal. f_equal. rewrite Hcur, Hbl, wg_align by (unfold is_u32; lia). change LOG_IDX_DATA_SIZE with 16.
    rewrite Krem, (u32_id (16 + _)) by (unfold is_u32; lia).
    rewrite <-(known_snoc b et ei log e) with (start := start); [|unfold is_u32, entry_index; lia..|exact Hstart].
    rewrite Kidx. f_equal. unfold free_size. rewrite length_app, total_app. cbn [length log_total foldr].
    rewrite u32_id by (unfold is_u32; lia). lia. }
  rewrite Hcount. eapply (HQ m' k'); [by apply works_db; [|by rewrite E']|lia|done| |by eapply only_wide; [exact Ho|lia|lia]].
  split; [|split; [exact Hbody'|right; cbn; by destruct log]].
  cbn [sec_header]. rewrite <-Hstart. eapply only_mem; [exact Ho|exact Hm|]. rewrite tsl_hdr_length by (first [done|apply time_bytes_length]). lia.
Qed.

(** The state between the two sectors of an append: the current one is empty. *)
Definition entered (m : Z → Z) (k : nat) (s : T) (secs : list ts_sector) (n old : nat) (last : Z) : Prop :=
  works m k s ∧ in_db secs ∧ (n < length secs)%nat ∧ ts_holds m (<[n := SEmpty]> secs) ∧
  (∃ et ei, ts_cur_sec (ts_db s) = empty_info ssz (base n) et ei) ∧
  ts_oldest_addr (ts_db s) = base old ∧ ts_last_time (ts_db s) = last ∧ options (ts_db s).
Lemma enter_runs m k s secs n old last (old' : nat) sec (Q : Z → T → Prop) :
  works m k s → in_db secs → ts_holds m secs → secs !! n = Some sec → sec = SEmpty ∨ (∃ l, sec = SFull l) →
  ts_oldest_addr (ts_db s) = base old → ts_last_time (ts_db s) = last → options (ts_db s) → (5 ≤ k)%nat →
  old' = (match sec with SEmpty => old | _ => if decide (1 + n < length secs)%nat then (1 + n)%nat else 0%nat end) →
  (∀ m' k' s', entered m' k' s' secs n old' last → (k ≤ k' + 5)%nat → Q FDB_NO_ERR s') →
  wp (cur ← tget ts_cur_sec;
      '(_, cur) ← ts_read_sector_info (base n) cur false;
      tset (set_ts_cur cur);;
      if decide (tsec_status cur ≠ FDB_SECTOR_STORE_EMPTY) then
        tset (set_ts_oldest (if decide (u32 (base n + ssz) < size) then u32 (base n + ssz) else 0));;
        ts_format_sector device_table vprintf (base n);;
        cur ← tget ts_cur_sec;
        '(_, cur) ← ts_read_sector_info (base n) cur false;
        tset (set_ts_cur cur);;
        mret FDB_NO_ERR
      else mret FDB_NO_ERR) s Q.
Proof.
  intros Hw Hdb Hh Hn Hsec Hold Hlast Hopt Hk -> HQ. pose proof (lookup_lt_Some _ _ _ Hn) as Hlt.
  pose proof (base_inside _ _ Hdb Hlt) as Hin. pose proof Hin as [Hb Hbs]. destruct part_size as [_ Hsz].
  rewrite (u32_id (base n + ssz)) by (unfold is_u32; lia).
  apply wp_bind, wp_gets, wp_bind. destruct Hsec as [-> | [l ->]].
  - eapply read_empty_runs; [done|done|exact Hw|exact Hin|by apply Hh|]. intros s1 H1 E1. cbv beta iota.
    apply wp_bind, wp_tset. rewrite decide_False by auto. apply wp_ret. eapply (HQ m k); [|lia].
    split_and!; try done; cbn [ts_db ts_cur_sec set_ts_cur ts_oldest_addr ts_last_time]; rewrite ?E1; try done.
    + by rewrite list_insert_id.
    + by eexists _, _.
  - eapply read_full_runs; [done|done|exact Hw|exact Hin|by apply Hh|]. intros s1 H1 E1. cbv beta iota.
    apply wp_bind, wp_tset. rewrite decide_True by done. apply wp_bind, wp_tset, wp_bind. cbn [ts_db ts_fal ts_log_is_show].
    set (s2 := mk_tss _ _ _). assert (works m k s2) as H2 by (by apply works_db).
    eapply format_sector_runs; [exact sector_size|exact sector_blocks|exact H2|exact Hin|apply base_mod|exact Hk|].
    intros m3 k3 s3 H3 Hk3 E3 Hs3 O3. cbv beta iota. apply wp_bind, wp_gets, wp_bind.
    eapply read_empty_runs; [done|done|exact H3|exact Hin|apply Hs3|]. intros s4 H4 E4. cbv beta iota.
    apply wp_bind, wp_tset, wp_ret. eapply (HQ m3 k3); [|lia].
    assert (ts_db s4 = ts_db s2) as E by congruence.
    split_and!; try done; cbn [ts_db ts_cur_sec set_ts_cur ts_oldest_addr ts_last_time]; rewrite ?E; cbn [s2 ts_db ts_oldest_addr set_ts_oldest set_ts_cur ts_last_time]; rewrite ?E1; try done.
    + by eapply holds_insert.
    + by eexists _, _.
    + unfold base. unfold in_db in Hdb. destruct (decide (1 + n < length secs)%nat).
      * rewrite decide_True by nia. lia.
      * rewrite decide_False by nia. lia.
Qed.

(** The sector that has no room is closed, and the database goes to the next one if there is one. *)
Definition left_secs (a : ts_abs) (log : list tsl_entry) : list ts_sector := <[a_cur a := SFull log]> (a_secs a).
Lemma leave_runs m k s a log (Q : Z → T → Prop) :
  represents m k s a → a_secs a !! a_cur a = Some (SUsing log) → (16 ≤ k)%nat →
  (∀ n, abs_next rollover a = Some n → n ≠ a_cur a ∧ ∃ sec, a_secs a !! n = Some sec ∧ (sec = SEmpty ∨ ∃ l, sec = SFull l)) →
  match abs_next rollover a with
  | None => ∀ m' k' s', represents m' k' s' (mk_abs (left_secs a log) (a_cur a) (a_old a) (a_last a)) → (k ≤ k' + 16)%nat → Q FDB_SAVED_FULL s'
  | Some n => ∀ m' k' s', entered m' k' s' (left_secs a log) n
      (match a_secs a !! n with
       | Some SEmpty => a_old a
       | _ => if decide (1 + n < length (a_secs a))%nat then (1 + n)%nat else 0%nat
       end) (a_last a) → (k ≤ k' + 16)%nat → Q FDB_NO_ERR s'
  end → wp (leave_sector device_table vprintf) s Q.
Proof.
  intros (Hw & Hdb & Hh & Hcur & Hold & Hlast & Hopt) Hc Hk Hnext HQ. unfold cur_is in Hcur. rewrite Hc in Hcur. destruct Hcur as [Hcur Hend].
  pose proof (lookup_lt_Some _ _ _ Hc) as Hlt. pose proof (base_inside _ _ Hdb Hlt) as Hin. pose proof Hin as [Hb Hbs].
  destruct part_size as [_ Hsz]. pose proof (Hh _ _ Hc) as Hsec. pose proof Hsec as (_ & (Hok & _ & Hf & _) & [?|Hne]); [done|].
  cbn [sec_log] in Hok, Hf, Hne. pose proof (total_nonneg log). pose proof (total_length _ Hok).
  assert (1 <= Z.of_nat (length log)) by (destruct log; [done|cbn [length]; lia]).
  unfold leave_sector. apply wp_bind, wp_gets. rewrite Hcur. cbv zeta. cbn [using_info tsec_addr tsec_end0 tsec_empty_idx].
  rewrite decide_True by done. change LOG_IDX_DATA_SIZE with 16.
  assert (u32 (entry_index (base (a_cur a)) (length log) - 16) = end_index (base (a_cur a)) log) as ->
    by (rewrite u32_id; [done|unfold is_u32, entry_index, free_size in *; lia]).
  set (b := base (a_cur a)) in *.
  eapply close_sector_runs; [exact sector_size|exact Hw|exact Hin|exact Hsec|exact Hcur|congruence|lia|].
  intros m1 k1 s1 Hw1 Hk1 E1 Hs1 O1. apply wp_bind, wp_tset, wp_bind, wp_gets.
  set (s2 := mk_tss _ _ _). assert (works m1 k1 s2) as Hw2 by (by apply works_db).
  assert (ts_db s2 = set_ts_cur (set_tsec_status FDB_SECTOR_STORE_FULL (using_info ssz b log)) (ts_db s)) as E2
    by (unfold s2; cbn [ts_db]; by rewrite E1, Hcur).
  assert (ts_holds m1 (left_secs a log)) as Hh1 by (by eapply holds_insert).
  assert (in_db (left_secs a log)) as Hdb1 by (unfold in_db, left_secs; by rewrite length_insert).
  unfold id. change (ts_db {| ts_db := _; ts_fal := _; ts_log_is_show := _ |}) with (ts_db s2).
  destruct (works_sizes _ _ _ Hw2) as [Ess Ems]. rewrite Ess, Ems.
  rewrite (u32_id (b + ssz)) by (unfold is_u32; lia).
  assert (ts_rollover (ts_db s2) = rollover) as -> by (rewrite E2; apply Hopt).
  assert ((if decide (b + ssz < size) then Some (b + ssz) else if rollover then Some 0 else None) = base <$> abs_next rollover a) as ->.
  { unfold abs_next, b, base, in_db in *. case_decide as D1.
    - rewrite decide_True by nia. cbn [fmap option_fmap option_map]. f_equal. lia.
    - rewrite decide_False by nia. destruct rollover; cbn [fmap option_fmap option_map]; [f_equal; lia|done]. }
  destruct (abs_next rollover a) as [n|].
  - destruct (Hnext n eq_refl) as (Hnc & sec & Hn & Hkind). cbn [fmap option_fmap option_map]. rewrite Hn in HQ.
    assert (left_secs a log !! n = Some sec) as Hn1 by (unfold left_secs; by rewrite list_lookup_insert_ne).
    eapply (enter_runs _ _ _ _ _ (a_old a) _
      (match sec with SEmpty => a_old a | _ => if decide (1 + n < length (a_secs a))%nat then (1 + n)%nat else 0%nat end));
      [exact Hw2|exact Hdb1|exact Hh1|exact Hn1|exact Hkind|by rewrite E2|by rewrite E2|by rewrite E2|lia|unfold left_secs; by rewrite length_insert|].
    intros m' k' s' H' Hk'. eapply HQ; [exact H'|lia].
  - apply wp_ret. eapply (HQ m1 k1); [|lia]. split_and!; [exact Hw2|exact Hdb1|exact Hh1| |by rewrite E2..].
    unfold cur_is. cbn [a_secs a_cur]. unfold left_secs. rewrite list_lookup_insert_eq by done. by rewrite E2.
Qed.

(** The first entry of an empty sector. *)
Lemma begin_runs m k s secs n old last e blob (Q : Z → T → Prop) :
  entered m k s secs n old last → e_status e = FDB_TSL_WRITE → entry_ok e → blob_size blob = e_len e →
  e_len e + 56 <= ssz → (19 + length (e_data e) ≤ k)%nat →
  (∀ m' k' s', represents m' k' s' (mk_abs (<[n := SUsing [e]]> secs) n old (e_time e)) → (k ≤ k' + (19 + length (e_data e)))%nat →
     Q FDB_NO_ERR s') →
  wp (start_sector device_table vprintf (e_time e)) s
    (λ r s1, r = FDB_NO_ERR ∧ wp (append_tsl device_table vprintf blob (e_data e) (e_time e)) s1 Q).
Proof.
  intros (Hw & Hdb & Hn & Hh & (et & ei & Hcur) & Hold & Hlast & Hopt) Hst He Hbl Hfit Hk HQ.
  pose proof (base_inside _ _ Hdb Hn) as Hin. pose proof He as (Ht & _).
  assert (sector_is ssz m (base n) SEmpty) as Hs by (apply Hh; by rewrite list_lookup_insert_eq).
  eapply start_sector_runs; [exact sector_size|exact Hw|exact Hin|by rewrite Hcur|exact Hs|exact Ht|lia|].
  intros m1 k1 s1 Hw1 Hk1 E1 Hbeg O1. split; [done|]. rewrite Hcur, (empty_known _ _ et ei) in E1.
  eapply append_tsl_runs; [exact Hw1|exact Hin|exact Hbeg|reflexivity|by rewrite E1|done|done|done|unfold free_size; cbn; lia|lia|].
  intros m2 k2 s2 Hw2 Hk2 E2 Hs2 O2. eapply (HQ m2 k2); [|lia]. rewrite E1 in E2.
  assert (<[n:=SUsing [e]]> secs = <[n:=SUsing [e]]> (<[n:=SEmpty]> secs)) as Hii by (by rewrite list_insert_insert_eq).
  split_and!; cbn [a_secs a_cur a_old a_last]; try (by rewrite E2); [exact Hw2| | |].
  - unfold in_db. by rewrite length_insert.
  - rewrite Hii. eapply holds_insert; [exact Hh|by eapply only_trans|exact Hs2].
  - unfold cur_is. cbn [a_secs a_cur a_last]. rewrite list_lookup_insert_eq by done. by rewrite E2.
Qed.

(** One more entry where there is room. *)
Lemma append_room_runs m k s a log e blob (Q : Z → T → Prop) :
  represents m k s a → a_secs a !! a_cur a = Some (SUsing log) → e_status e = FDB_TSL_WRITE → entry_ok e → blob_size blob = e_len e →
  16 + e_len e <= free_size ssz log → (14 + length (e_data e) ≤ k)%nat →
  (∀ m' k' s', represents m' k' s' (mk_abs (<[a_cur a := SUsing (log ++ [e])]> (a_secs a)) (a_cur a) (a_old a) (e_time e)) →
     (k ≤ k' + (14 + length (e_data e)))%nat → Q FDB_NO_ERR s') →
  wp (append_tsl device_table vprintf blob (e_data e) (e_time e)) s Q.
Proof.
  intros (Hw & Hdb & Hh & Hcur & Hold & Hlast & Hopt) Hc Hst He Hbl Hfit Hk HQ. pose proof (lookup_lt_Some _ _ _ Hc) as Hlt.
  unfold cur_is in Hcur. rewrite Hc in Hcur. destruct Hcur as [Hcs _]. pose proof (Hh _ _ Hc) as (Hhdr & Hbody & [?|Hne]); [done|].
  cbn [sec_log] in Hbody, Hne.
  eapply (append_tsl_runs m k (base (a_cur a)) (first_time log) 0 0 log e blob);
    [exact Hw|by eapply base_inside|by split|by destruct log|rewrite Hcs; by destruct log|done|done|done|done|done|].
  intros m' k' s' Hw' Hk' E' Hs' O'. eapply (HQ m' k'); [|done].
  split_and!; cbn [a_secs a_cur a_old a_last]; try (by rewrite E'); [exact Hw'| | |].
  - unfold in_db. by rewrite length_insert.
  - by eapply holds_insert.
  - unfold cur_is. cbn [a_secs a_cur a_last]. rewrite list_lookup_insert_eq by done. rewrite E'. split; [done|].
    unfold end_time. by rewrite last_snoc.
Qed.

(** The sectors the database can go to. *)
Definition can_enter (a : ts_abs) : Prop :=
  ∀ n, abs_next rollover a = Some n → n ≠ a_cur a ∧ ∃ sec, a_secs a !! n = Some sec ∧ (sec = SEmpty ∨ ∃ l, sec = SFull l).
Lemma tsl_append_runs m k s a t data blob :
  represents m k s a → can_enter a → is_time t → Forall is_u8 data → (0 < length data)%nat → max_len + 56 <= ssz →
  blob_size blob = Z.of_nat (length data) → (40 + length data ≤ k)%nat →
  wp (tsl_append device_table vprintf blob data (Some t)) s (λ r s', ∃ m' k' a',
    (r, a') = abs_append ssz max_len rollover t data a ∧ represents m' k' s' a' ∧ (k ≤ k' + (40 + length data))%nat).
Proof.
  intros Hr Hnext Ht Hu Hpos Hmax Hbl Hk. pose proof Hr as (Hw & Hdb & Hh & Hcur & Hold & Hlast & Hopt).
  unfold tsl_append, abs_append. set (e := mk_entry t FDB_TSL_WRITE data).
  assert (entry_ok e) as He by
    (unfold e, entry_ok, e_len, FDB_TSL_WRITE; cbn [e_time e_status e_data]; split_and!; try done; lia).
  assert (e_len e = Z.of_nat (length data)) as Hlen by done.
  apply wp_bind, wp_ret, wp_bind, wp_gets. unfold id. pose proof Hopt as (_ & -> & _). rewrite Hbl, Hlast.
  case_decide as Hlong.
  { rewrite decide_True by (by left). apply wp_bind. eapply ts_info_runs; [exact Hw|]. intros s' Hw' E'. apply wp_ret.
    exists m, k, a. split_and!; [done|by eapply represents_db|lia]. }
  case_decide as Hlate.
  { rewrite decide_True by (by right). apply wp_bind. eapply ts_info_runs; [exact Hw|]. intros s' Hw' E'. apply wp_ret.
    exists m, k, a. split_and!; [done|by eapply represents_db|lia]. }
  rewrite decide_False by tauto. apply wp_bind. unfold ts_update_sec_status. apply wp_bind, wp_gets.
  destruct part_size as [_ Hsz]. unfold in_db in Hdb. pose proof Hcur as Hcur'. unfold cur_is in Hcur'.
  destruct (a_secs a !! a_cur a) as [sec|] eqn:Hc; [|done]. pose proof (lookup_lt_Some _ _ _ Hc) as Hlt.
  assert (ssz <= size) as Hss by nia.
  rewrite Hbl, wg_align by (unfold is_u32; lia). change LOG_IDX_DATA_SIZE with 16. rewrite u32_id by (unfold is_u32; lia).
  destruct sec as [|log|log].
  - destruct Hcur' as (et & ei & Hcs). rewrite Hcs. cbn [tsec_status empty_info].
    rewrite decide_False by (by intros []). rewrite decide_False by done. apply wp_checked, wp_ret. split; [done|].
    apply wp_bind, wp_gets. rewrite Hcs. cbn [tsec_status empty_info]. rewrite decide_True by done.
    eapply wp_mono.
    + eapply (begin_runs m k s (a_secs a) (a_cur a) (a_old a) (a_last a) e blob (λ r s', ∃ m' k' a', (r, a') = (FDB_NO_ERR, _) ∧ represents m' k' s' a' ∧ (k ≤ k' + _)%nat));
        [|done|done|done|lia|cbn; lia|].
      { split_and!; try done; [by rewrite list_insert_id|by eexists _, _]. }
      intros m' k' s' H' Hk'. exists m', k'. eexists. split; [reflexivity|]. split; [exact H'|]. cbn in Hk'. instantiate (1 := (40 + length data)%nat). lia.
    + intros r s1 [-> Hrun]. rewrite decide_False by auto. exact Hrun.
  - destruct Hcur' as [Hcs Hend]. rewrite Hcs. cbn [tsec_status tsec_remain using_info].
    pose proof (Hh _ _ Hc) as (Hhdr & Hbody & [?|Hne]); [done|]. cbn [sec_log] in Hbody, Hne.
    case_decide as Hroom.
    + destruct Hroom as [_ Hroom]. rewrite (decide_False (P := 16 + Z.of_nat (length data) <= free_size ssz log)) by lia.
      apply wp_bind, wp_bind. eapply (leave_runs m k s a log); [exact Hr|exact Hc|lia|exact Hnext|].
      destruct (abs_next rollover a) as [n|] eqn:Hn; intros m1 k1 s1 H1 Hk1.
      * rewrite decide_False by auto. pose proof H1 as (_ & _ & _ & _ & (et & ei & Hcs1) & _). apply wp_bind, wp_gets. rewrite Hcs1.
        cbn [tsec_status empty_info]. rewrite decide_True by done. eapply wp_mono.
        -- eapply (begin_runs _ _ _ _ _ _ _ e blob (λ r s', ∃ m' k' a', (r, a') = (FDB_NO_ERR, _) ∧ represents m' k' s' a' ∧ (k ≤ k' + _)%nat));
             [exact H1|done|done|done|lia|cbn; lia|].
           intros m' k' s' H' Hk'. exists m', k'. eexists. split; [reflexivity|]. split; [exact H'|]. cbn in Hk'. instantiate (1 := (40 + length data)%nat). lia.
        -- intros r s2 [-> Hrun]. rewrite decide_False by auto. exact Hrun.
      * rewrite !(decide_True (P := FDB_SAVED_FULL ≠ FDB_NO_ERR)) by done. apply wp_ret.
        rewrite (decide_True (P := FDB_SAVED_FULL ≠ FDB_NO_ERR)) by done. pose proof H1 as (Hw1 & _).
        apply wp_bind. eapply ts_info_runs; [exact Hw1|]. intros s2 Hw2 E2. apply wp_ret.
        exists m1, k1. eexists. split; [reflexivity|]. split; [by eapply represents_db|lia].
    + assert (16 + Z.of_nat (length data) <= free_size ssz log) as Hfit by
        (destruct (decide (free_size ssz log < 16 + Z.of_nat (length data))); [by destruct Hroom|lia]).
      rewrite (decide_True (P := 16 + Z.of_nat (length data) <= free_size ssz log)) by done. rewrite decide_False by done. apply wp_checked, wp_ret. split; [done|].
      apply wp_bind, wp_gets. rewrite Hcs. cbn [tsec_status using_info]. rewrite decide_False by done. apply wp_ret.
      rewrite decide_False by auto. eapply (append_room_runs m k s a log e blob); [exact Hr|exact Hc|done|done|done|lia|cbn; lia|].
      intros m' k' s' Hr' Hk'. exists m', k'. eexists. split; [reflexivity|]. split; [exact Hr'|cbn in Hk'; lia].
  - rewrite Hcur'. cbn [tsec_status set_tsec_status using_info]. rewrite decide_False by (by intros []). rewrite decide_True by done.
    apply wp_bind, wp_ret. rewrite (decide_True (P := FDB_SAVED_FULL ≠ FDB_NO_ERR)) by done. apply wp_ret.
    rewrite (decide_True (P := FDB_SAVED_FULL ≠ FDB_NO_ERR)) by done. apply wp_bind. eapply ts_info_runs; [exact Hw|]. intros s2 Hw2 E2. apply wp_ret.
    exists m, k, a. split; [done|]. split; [by eapply represents_db|lia].
Qed.
End Refine.
