(* ===== verification/TsVisit.v ===== *)
(** * Iterating over a time series database

    [fdb_tsl_iter] calls its callback with the entries of the ring of sectors, the oldest first,
    until the callback ends it. *)
From S2P Require Import Prelude W25qxx W25qxxProps Fal FdbUtils FdbProps KvData KvRead KvFlash KvNode KvBurn KvPower TsData TsDb TsIter TsFlash TsLog TsSector TsAppend TsSpec TsRefine.

(** A fold that the function can end. *)
Fixpoint fold_stop {X A} (f : X → A → bool * A) (l : list X) (a : A) : bool * A :=
  match l with
  | [] => (false, a)
  | x :: l => let '(stop, a) := f x a in if stop : bool then (true, a) else fold_stop f l a
  end.
Lemma fold_stop_app {X A} (f : X → A → bool * A) l1 l2 a :
  fold_stop f (l1 ++ l2) a = let '(stop, a) := fold_stop f l1 a in if stop : bool then (true, a) else fold_stop f l2 a.
Proof. revert a. induction l1 as [|x l1 IH]; intros a; [done|]. cbn. destruct (f x a) as [[] a']; [done|]. apply IH. Qed.

(** The number of the next sector around the ring. *)
Definition forward (n i : nat) : nat := if decide (1 + i < n)%nat then (1 + i)%nat else 0%nat.
(** The numbers of the sectors from [old] on, around the ring. *)
Definition around (n old : nat) : list nat := drop old (seq 0 n) ++ take old (seq 0 n).
Lemma around_lookup n old j : (old < n)%nat → (j < n)%nat →
  around n old !! j = Some (if decide (old + j < n) then old + j else old + j - n)%nat.
Proof.
  intros Ho Hj. unfold around. case_decide.
  - rewrite lookup_app_l by (rewrite length_drop, length_seq; lia). rewrite lookup_drop, lookup_seq_lt by lia. done.
  - rewrite lookup_app_r by (rewrite length_drop, length_seq; lia). rewrite length_drop, length_seq, lookup_take, decide_True, lookup_seq_lt by lia.
    f_equal. lia.
Qed.
Lemma around_length n old : (old < n)%nat → length (around n old) = n.
Proof. intros H. unfold around. rewrite length_app, length_drop, length_take, length_seq. lia. Qed.
Lemma around_logs secs old : logs (drop old secs ++ take old secs) =
  concat ((λ i, from_option sec_log [] (secs !! i)) <$> around (length secs) old).
Proof.
  unfold around, logs. assert (sec_log <$> secs = (λ i, from_option sec_log [] (secs !! i)) <$> seq 0 (length secs)) as E.
  { apply list_eq. intros i. rewrite !list_lookup_fmap. destruct (decide (i < length secs)%nat).
    - rewrite lookup_seq_lt by done. cbn. destruct (lookup_lt_is_Some_2 secs i) as [x Hx]; [done|]. by rewrite Hx.
    - rewrite lookup_seq_ge, lookup_ge_None_2 by lia. done. }
  by rewrite !fmap_app, !fmap_drop, !fmap_take, E.
Qed.

Section Visit.
Context {S : Type} (device_table : list (fal_flash_dev S)) (vprintf : string → list farg → M S unit) (stack_sector : tsdb_sec_info)
  (p : nat) (size cap blk : Z) (good : fal_state S → Prop) (cell : fal_state S → Z → Z)
  (budget : fal_state S → nat) (erases : fal_state S → bool)
  `{HP : !PartFlash device_table vprintf p size cap blk good cell budget erases} (ssz : Z).
Hypothesis header_cap : 40 <= cap.
Hypothesis sector_size : 512 <= ssz.
#[local] Abbreviation T := (ts_state S).
#[local] Abbreviation works := (works p size good cell budget erases ssz).
#[local] Abbreviation inside := (inside size ssz).
#[local] Abbreviation base := (base ssz).
#[local] Abbreviation in_db := (in_db size ssz).

(** ** The entries of a sector *)

Definition tsls (b : Z) (log : list tsl_entry) : list fdb_tsl := imap (tsl_of ssz b log) log.
Context {A : Type} (f : fdb_tsl → A → bool * A).
Definition pure_cb (tsl : fdb_tsl) (arg : A) : M T (bool * A) := mret (f tsl arg).

Lemma tsls_drop b log i e : log !! i = Some e → drop i (tsls b log) = tsl_of ssz b log i e :: drop (1 + i) (tsls b log).
Proof. intros Hi. apply drop_S. unfold tsls. by rewrite list_lookup_imap, Hi. Qed.
Lemma walk_forward m k b log sector d (cb : fdb_tsl → A → M T (bool * A)) :
  (∀ tsl arg s, cb tsl arg s = Ok (f tsl arg) s) → ∀ fuel i arg s (Q : bool * A → T → Prop),
  works m k s → ts_db s = d → inside b → body ssz m b log → tsec_status sector ≠ FDB_SECTOR_STORE_EMPTY →
  tsec_end_idx sector = end_index b log → (i < length log < i + fuel)%nat →
  (∀ s', works m k s' → ts_db s' = d → Q (fold_stop f (drop i (tsls b log)) arg) s') →
  wp (tsl_walk device_table vprintf fuel (get_next_tsl_addr sector) cb (entry_index b i) arg) s Q.
Proof.
  intros Hcb. induction fuel as [|fuel IH]; intros i arg s Q Hw E Hin Hbody Hst Hend Hi HQ; [lia|].
  destruct (lookup_lt_is_Some_2 log i ltac:(lia)) as [e He]. rewrite (tsls_drop _ _ _ _ He) in HQ. cbn [tsl_walk fold_stop] in *.
  apply wp_bind. eapply read_entry_runs; [exact header_cap|exact Hw|exact Hin|by apply body_entries|exact He|]. intros s1 Hw1 E1.
  apply wp_bind. eapply wp_ok; [apply Hcb|]. destruct (f (tsl_of ssz b log i e) arg) as [[] arg']; [apply wp_ret, HQ; [done|congruence]|].
  pose proof Hin as [Hb Hbs]. destruct part_size as [_ Hsz]. pose proof Hbody as (Hok & _ & Hf & _). pose proof (total_nonneg log).
  assert (get_next_tsl_addr sector (tsl_of ssz b log i e) = if decide (1 + i < length log)%nat then entry_index b (1 + i) else FAILED_ADDR) as ->.
  { unfold get_next_tsl_addr. rewrite decide_False by done. cbn [tsl_index tsl_of]. change LOG_IDX_DATA_SIZE with 16.
    unfold free_size in Hf. rewrite Hend. unfold end_index, entry_index. rewrite u32_id by (unfold is_u32; lia).
    repeat case_decide; try lia. }
  destruct (decide (1 + i < length log)%nat).
  - rewrite decide_True by (unfold FAILED_ADDR, entry_index, free_size in *; lia).
    eapply IH; [exact Hw1|congruence|done..|lia|exact HQ].
  - rewrite decide_False by auto. apply wp_ret. rewrite drop_ge in HQ by (unfold tsls; rewrite length_imap; lia).
    apply HQ; [done|congruence].
Qed.

(** ** The loop over the sectors *)

Lemma next_sector_base (d : fdb_tsdb S) sec n i j :
  ts_sec_size d = ssz → ts_max_size d = size → (2 ≤ n)%nat → Z.of_nat n * ssz = size → (i < n)%nat → (j < n)%nat → tsec_addr sec = base i →
  ts_next_sector_addr d sec (Z.of_nat (1 + j) * ssz) =
  if decide (1 + j < n)%nat then base (forward n i) else FAILED_ADDR.
Proof.
  unfold forward.
  intros Hs Hm H2 Hn Hi Hj Ha. destruct part_size as [_ Hsz]. assert (2 * ssz <= size) by nia.
  assert (Z.of_nat (1 + j) * ssz <= size) by nia. assert (Z.of_nat (1 + i) * ssz <= size) by nia. unfold ts_next_sector_addr, TsRefine.base in *. rewrite Hs, Hm, Ha.
  rewrite (u32_id (_ + ssz)) by (unfold is_u32; nia). destruct (decide (1 + j < n)%nat).
  - rewrite decide_True by nia. rewrite (u32_id (_ + ssz)) by (unfold is_u32; nia). destruct (decide (1 + i < n)%nat).
    + rewrite decide_True by nia. lia.
    + rewrite decide_False by nia. lia.
  - by rewrite decide_False by nia.
Qed.
(** [visit] of sector [i] gives what [g i] says and a sector with that address, where [P] holds. *)
Definition visits (m : Z → Z) (k : nat) (d : fdb_tsdb S) (n : nat) (P : nat → A → Prop) (g : nat → A → bool * A)
    (visit : Z → Z → tsdb_sec_info → A → M T (bool * tsdb_sec_info * A)) : Prop :=
  ∀ i old arg s (Q : bool * tsdb_sec_info * A → T → Prop), (i < n)%nat → P i arg → works m k s → ts_db s = d →
    (∀ sec s', works m k s' → ts_db s' = d → tsec_addr sec = base i → Q ((g i arg).1, sec, (g i arg).2) s') →
    wp ('(res, sector) ← ts_read_sector_info device_table vprintf (base i) old false; visit (base i) res sector arg) s Q.
Lemma seq_visit (m1 : M T (Z * tsdb_sec_info)) (k1 : Z → tsdb_sec_info → M T (bool * tsdb_sec_info * A))
    (k2 : bool → tsdb_sec_info → A → M T A) s (R : A → T → Prop) :
  wp ('(res, sector) ← m1; k1 res sector) s (λ r s', wp (k2 r.1.1 r.1.2 r.2) s' R) →
  wp ('(res, sector) ← m1; '(stop, sector, arg) ← k1 res sector; k2 stop sector arg) s R.
Proof. unfold wp, mbind, M_bind. destruct (m1 s) as [[r0 sc] s1|]; [|done]. by destruct (k1 r0 sc s1) as [[[? ?] ?] ?|]. Qed.
(** Each number of a list is followed by the one of the next sector, in the direction of [succ]. *)
Definition chained (n : nat) (succ : nat → nat) (l : list nat) : Prop :=
  ∀ j x, l !! j = Some x → (x < n)%nat ∧ ∀ y, l !! (1 + j)%nat = Some y → y = succ x.
Definition sec_leads (d : fdb_tsdb S) (n : nat) (succ : nat → nat) (next_of : fdb_tsdb S → tsdb_sec_info → Z → Z) : Prop :=
  ∀ sec i j, (i < n)%nat → (j < n)%nat → tsec_addr sec = base i →
    next_of d sec (Z.of_nat (1 + j) * ssz) = if decide (1 + j < n)%nat then base (succ i) else FAILED_ADDR.
Lemma forward_leads (d : fdb_tsdb S) n : ts_sec_size d = ssz → ts_max_size d = size → (2 ≤ n)%nat → Z.of_nat n * ssz = size →
  sec_leads d n (forward n) ts_next_sector_addr.
Proof. intros Hs Hm H2 Hn sec i j Hi Hj Ha. by apply next_sector_base. Qed.
(** [P] holds of the next sector when [g] does not end the iteration. *)
Definition carried (P : nat → A → Prop) (g : nat → A → bool * A) (l : list nat) : Prop :=
  ∀ j x y arg, l !! j = Some x → l !! (1 + j)%nat = Some y → P x arg → (g x arg).1 = false → P y (g x arg).2.
Lemma sectors_runs m k d n succ next_of P g visit rest : ∀ fuel i t old arg s (Q : A → T → Prop),
  visits m k d n P g visit → sec_leads d n succ next_of → P i arg → carried P g (i :: rest) → works m k s → ts_db s = d →
  Z.of_nat n * ssz = size → chained n succ (i :: rest) →
  (t + length (i :: rest) = n)%nat → (length (i :: rest) ≤ fuel)%nat →
  (∀ s', works m k s' → ts_db s' = d → Q (fold_stop g (i :: rest) arg).2 s') →
  wp (tsl_sectors device_table vprintf fuel next_of visit (base i) (Z.of_nat t * ssz) old arg) s Q.
Proof.
  induction rest as [|i' rest IH]; intros fuel i t old arg s Q Hv Hld HP0 Hcar Hw E Hn Hch Hlen Hfuel HQ;
    (destruct fuel as [|fuel]; [cbn [length] in Hfuel; lia|]); cbn [tsl_sectors length] in *;
    destruct (works_sizes _ _ _ Hw) as [Hss Hms]; destruct part_size as [_ Hsz]; destruct (Hch 0%nat i eq_refl) as [Hi Hnext];
    apply wp_bind, wp_gets; unfold id; rewrite Hss; assert (Z.of_nat (1 + t) * ssz <= size) as Hts by nia;
    rewrite (u32_id (_ + ssz)) by (unfold is_u32; nia);
    assert (ts_sec_size d = ssz ∧ ts_max_size d = size) as [Hds Hdm] by (by rewrite <-E);
    replace (Z.of_nat t * ssz + ssz) with (Z.of_nat (1 + t) * ssz) by lia;
    apply seq_visit, Hv; [exact Hi|exact HP0|exact Hw|exact E| |exact Hi|exact HP0|exact Hw|exact E|];
    intros sec s1 Hw1 E1 Hadr; cbn [fst snd fold_stop] in *;
    pose proof (λ y H, Hcar 0%nat i y arg eq_refl H HP0) as Hnx; (destruct (g i arg) as [[] arg']; cbn [fst snd] in *; [apply wp_ret; by apply HQ|]);
    apply wp_bind, wp_gets; unfold id; rewrite E1, (Hld _ i) by (first [done|lia]).
  - rewrite (decide_False (P := (1 + t < n)%nat)) by lia. rewrite decide_False by auto. apply wp_ret. by apply HQ.
  - rewrite (decide_True (P := (1 + t < n)%nat)) by lia. rewrite <-(Hnext i' eq_refl).
    assert (chained n succ (i' :: rest)) as Hch' by (intros j x Hj; apply (Hch (1 + j)%nat x Hj)).
    destruct (Hch' 0%nat i' eq_refl) as [Hi' _]. rewrite decide_True by (unfold FAILED_ADDR, TsRefine.base; assert (Z.of_nat i' * ssz <= size) by nia; lia).
    eapply IH; try done; [by apply Hnx|intros j x y arg0 Hx Hy; by apply (Hcar (1 + j)%nat)|lia|lia].
Qed.
Lemma around_chained n old : (old < n)%nat → chained n (forward n) (around n old).
Proof.
  intros Ho j x Hj. pose proof (lookup_lt_Some _ _ _ Hj) as Hlt. rewrite around_length in Hlt by done.
  rewrite around_lookup in Hj by done. injection Hj as <-. split; [case_decide; lia|]. intros y Hy.
  pose proof (lookup_lt_Some _ _ _ Hy) as Hlt'. rewrite around_length in Hlt' by done. rewrite around_lookup in Hy by done. injection Hy as <-.
  unfold forward. repeat case_decide; lia.
Qed.

(** ** The iterator *)

Context (max_len : Z) (rollover : bool) (lk ulk : option (M (fal_state S) unit)).
#[local] Abbreviation represents := (represents p size good cell budget erases ssz max_len rollover lk ulk).
#[local] Abbreviation calm := (calm p size good cell budget erases ssz).
Definition log_of (secs : list ts_sector) (i : nat) : list tsl_entry := from_option sec_log [] (secs !! i).
Lemma iter_visits m k s a older c :
  represents m k s a → log_ring a older c →
  visits m k (ts_db s) (length (a_secs a)) (λ _ _, True) (λ i arg, fold_stop f (tsls (base i) (log_of (a_secs a) i)) arg)
    (iter_sector device_table vprintf pure_cb).
Proof.
  intros (Hw & Hdb & Hh & Hcur & Hold & Hlast & Hopt) Hring i old arg s1 Q Hi _ Hw1 E1 HQ.
  destruct (lookup_lt_is_Some_2 _ _ Hi) as [sec Hsec]. unfold log_of in HQ. rewrite Hsec in HQ. cbn [from_option] in HQ.
  pose proof (Hh _ _ Hsec) as Hs. pose proof Hs as (Hhdr & Hbody & Hne). pose proof (base_inside size ssz sector_size _ _ Hdb Hi) as Hin.
  destruct part_size as [_ Hsz]. pose proof (total_nonneg (sec_log sec)). pose proof Hin as [Hb Hbs].
  pose proof Hbody as (Hok & _ & Hf & _). pose proof (total_length _ Hok). destruct (works_sizes _ _ _ Hw) as [_ Hms].
  assert (length (sec_log sec) < ts_fuel (ts_db s))%nat as Hfuel.
  { unfold ts_fuel. rewrite Hms. change LOG_IDX_DATA_SIZE with 16. unfold free_size in Hf.
    assert (Z.of_nat (length (sec_log sec)) <= size / 16) by (apply Z.div_le_lower_bound; lia). lia. }
  assert (∀ sector s2 (R : bool * tsdb_sec_info * A → T → Prop), works m k s2 → ts_db s2 = ts_db s → sec_log sec ≠ [] →
    tsec_status sector ≠ FDB_SECTOR_STORE_EMPTY → tsec_addr sector = base i → tsec_end_idx sector = end_index (base i) (sec_log sec) →
    (∀ s', works m k s' → ts_db s' = ts_db s → R ((fold_stop f (tsls (base i) (sec_log sec)) arg).1, sector, (fold_stop f (tsls (base i) (sec_log sec)) arg).2) s') →
    wp (d ← tget id;
        '(stop, arg) ← tsl_walk device_table vprintf (ts_fuel d) (get_next_tsl_addr sector) pure_cb (u32 (tsec_addr sector + TSL_SECTOR_HDR_SIZE)) arg;
        mret (stop, sector, arg)) s2 R) as Hwalk.
  { intros sector s2 R Hw2 E2 Hn Hst Ha He HR. apply wp_bind, wp_gets. unfold id. rewrite E2, Ha. change TSL_SECTOR_HDR_SIZE with 40.
    rewrite u32_id by (unfold is_u32; lia). apply wp_bind.
    replace (base i + 40) with (entry_index (base i) 0) by (unfold entry_index; lia).
    eapply walk_forward; [done|exact Hw2|exact E2|exact Hin|exact Hbody|exact Hst|exact He|destruct (sec_log sec); [done|cbn [length] in *; lia]|].
    intros s3 Hw3 E3. rewrite drop_0. destruct (fold_stop f _ arg) as [stop arg']. apply wp_ret. by apply HR. }
  apply wp_bind. destruct sec as [|log|log]; cbn [sec_log] in *.
  - eapply read_empty_runs; [exact header_cap|exact sector_size|exact Hw1|exact Hin|exact Hhdr|]. intros s2 Hw2 E2.
    unfold iter_sector. rewrite decide_False by (by intros [_ [?|?]]). apply wp_ret. apply HQ; [done|congruence|done].
  - destruct Hne as [?|Hne]; [done|].
    pose proof (ring_using _ _ _ _ _ Hring Hsec) as ->.
    unfold cur_is in Hcur. rewrite Hsec in Hcur. destruct Hcur as [Hcs Hend].
    eapply read_using_runs; [exact header_cap|exact sector_size|exact Hw1|exact Hin|exact Hhdr|by apply first_time_ok|]. intros s2 Hw2 E2.
    unfold iter_sector. rewrite decide_True by (split; [done|by left]). apply wp_bind. unfold in_memory. rewrite decide_True by done.
    apply wp_gets. rewrite E2, E1, Hcs. apply Hwalk; try done; [congruence|]. intros s' Hw' E'. by apply HQ.
  - destruct Hne as [?|Hne]; [done|].
    eapply read_full_runs; [exact header_cap|exact sector_size|exact Hw1|exact Hin|exact Hs|]. intros s2 Hw2 E2.
    unfold iter_sector. rewrite decide_True by (split; [done|by right]). apply wp_bind. unfold in_memory. rewrite decide_False by done.
    apply wp_ret. apply Hwalk; try done; [congruence|]. intros s' Hw' E'. by apply HQ.
Qed.

(** What [read_tsl] gives for an entry, whose data are where it says. *)
Definition reads (m : Z → Z) (tsl : fdb_tsl) (e : tsl_entry) : Prop :=
  tsl_time tsl = e_time e ∧ tsl_status tsl = e_status e ∧ tsl_log_len tsl = e_len e ∧ mem_at m (tsl_log tsl) (e_data e).
Lemma tsls_read m b log : body ssz m b log → Forall2 (reads m) (tsls b log) log.
Proof.
  intros (_ & Hen & _). apply Forall2_same_length_lookup. unfold tsls. split; [apply length_imap|]. intros i x y Hx Hy.
  rewrite list_lookup_imap, Hy in Hx. injection Hx as <-. split_and!; try done. apply (Hen _ _ Hy).
Qed.
Lemma fold_sectors (g : nat → list fdb_tsl) l arg :
  fold_stop (λ i arg, fold_stop f (g i) arg) l arg = fold_stop f (concat (g <$> l)) arg.
Proof. revert arg. induction l as [|i l IH]; intros arg; [done|]. cbn. rewrite fold_stop_app. destruct (fold_stop f (g i) arg) as [[] ?]; [done|apply IH]. Qed.

Lemma iter_runs m k s a older c arg :
  calm lk → calm ulk → represents m k s a → log_ring a older c →
  wp (fdb_tsl_iter device_table vprintf stack_sector (Some pure_cb) arg) s (λ r s',
    represents m k s' a ∧ ∃ ts, Forall2 (reads m) ts (entries a) ∧ r = (fold_stop f ts arg).2).
Proof.
  intros Hlk Hulk Hr Hring. pose proof Hr as (Hw & Hdb & Hh & Hcur & Hold & Hlast & Hopt). pose proof Hopt as (Hinit & _ & _ & Hl & Hu).
  destruct (ring_bounds _ _ _ Hring) as [_ Hob]. pose proof Hring as (_ & _ & _ & H2 & _).
  unfold fdb_tsl_iter. apply wp_bind. unfold warn_init. apply wp_bind, wp_gets. rewrite Hinit. apply wp_ret.
  apply wp_bind, wp_gets, wp_bind. eapply ts_lock_runs; [exact Hw|by rewrite Hl|]. intros s1 Hw1 E1. unfold id.
  apply wp_bind. rewrite Hold.
  set (n := length (a_secs a)) in *. destruct (around n (a_old a)) as [|i rest] eqn:Har.
  { pose proof (around_length n (a_old a) Hob) as Hl0. rewrite Har in Hl0. cbn in Hl0. lia. }
  assert (i = a_old a) as ->.
  { pose proof (around_lookup n (a_old a) 0 Hob ltac:(lia)) as H0. rewrite Har in H0. injection H0 as ->. case_decide; lia. }
  pose proof (around_length n (a_old a) Hob) as Hlen. rewrite Har in Hlen.
  pose proof (around_chained n (a_old a) Hob) as Hch. rewrite Har in Hch.
  replace 0 with (Z.of_nat 0 * ssz) by lia.
  destruct (works_sizes _ _ _ Hw) as [Hss Hms].
  eapply (sectors_runs m k (ts_db s) n (forward n)); [by eapply iter_visits|by apply forward_leads|done|by intros ?|exact Hw1|exact E1|exact Hdb|exact Hch|by rewrite Hlen| |].
  { rewrite Hlen. unfold ts_sector_fuel. rewrite Hss, Hms, <-Hdb. fold n.
    rewrite Z.div_mul by lia. lia. }
  intros s2 Hw2 E2. apply wp_bind. eapply ts_unlock_runs; [exact Hw2|by rewrite E2, Hu|]. intros s3 Hw3 E3. apply wp_ret.
  split; [eapply represents_db; [exact Hr|exact Hw3|congruence]|].
  exists (concat ((λ i, tsls (base i) (log_of (a_secs a) i)) <$> around n (a_old a))). rewrite <-Har, fold_sectors. split; [|done].
  unfold entries. rewrite around_logs. fold n. clear -Hh. induction (around n (a_old a)) as [|i l IH]; [constructor|]. cbn.
  apply Forall2_app; [|exact IH]. unfold log_of. destruct (a_secs a !! i) as [sec|] eqn:Hi; [|constructor].
  apply tsls_read, (Hh _ _ Hi).
Qed.
End Visit.
