(* ===== verification/TsReverse.v ===== *)
(** * Iterating backwards

    [fdb_tsl_iter_reverse] starts in the current sector, goes back around the ring until it finds an empty
    sector or has seen all of them, and calls its callback with the entries, the newest first. *)
From S2P Require Import Prelude W25qxx W25qxxProps Fal FdbUtils FdbProps KvData KvRead KvFlash KvNode KvBurn KvPower TsData TsDb TsIter TsFlash TsLog TsSector TsAppend TsSpec TsRefine TsVisit.

Definition backward (n i : nat) : nat := if decide (i = 0%nat) then (n - 1)%nat else (i - 1)%nat.
(** The numbers of the sectors from [cur] back to the one behind it. *)
Definition back_around (n cur : nat) : list nat := reverse (around n (forward n cur)).
Lemma forward_lt n i : (0 < n)%nat → (forward n i < n)%nat.
Proof. unfold forward. case_decide; lia. Qed.
Lemma back_around_lookup n cur j : (cur < n)%nat → (j < n)%nat →
  back_around n cur !! j = Some (if decide (j ≤ cur) then cur - j else n + cur - j)%nat.
Proof.
  intros Hc Hj. unfold back_around. pose proof (forward_lt n cur ltac:(lia)).
  rewrite reverse_lookup by (by rewrite around_length). rewrite around_length by done. rewrite around_lookup by lia. f_equal.
  unfold forward. repeat case_decide; lia.
Qed.
Lemma back_around_length n cur : (cur < n)%nat → length (back_around n cur) = n.
Proof. intros H. unfold back_around. rewrite length_reverse, around_length; [done|]. apply forward_lt. lia. Qed.
Lemma back_around_chained n cur : (cur < n)%nat → chained n (backward n) (back_around n cur).
Proof.
  intros Hc j x Hj. pose proof (lookup_lt_Some _ _ _ Hj) as Hl. rewrite back_around_length in Hl by done.
  rewrite back_around_lookup in Hj by done. injection Hj as <-. split; [case_decide; lia|]. intros y Hy.
  pose proof (lookup_lt_Some _ _ _ Hy) as Hl'. rewrite back_around_length in Hl' by done. rewrite back_around_lookup in Hy by done. injection Hy as <-.
  unfold backward. repeat case_decide; lia.
Qed.
(** Seen from the sector behind the current one, the ring is empty sectors, the older ones and the current one. *)
Lemma ring_rotated a older c : shape a older c → ∃ n, let from := forward (length (a_secs a)) (a_cur a) in
  drop from (a_secs a) ++ take from (a_secs a) = replicate n SEmpty ++ older ++ [c].
Proof.
  intros H. destruct H as [front c n last|front c back last Hb]; cbn [a_secs a_cur]; unfold forward; rewrite length_app, length_cons, ?length_replicate.
  - destruct n as [|n].
    + rewrite decide_False by lia. exists 0%nat. rewrite drop_0, take_0, app_nil_r. done.
    + rewrite decide_True by lia. exists (Datatypes.S n). rewrite (cons_middle c), app_assoc.
      rewrite drop_app_length', take_app_length' by (rewrite length_app; cbn; lia). done.
  - assert (length back ≠ 0%nat) by (by destruct back). rewrite decide_True by lia. exists 0%nat. rewrite (cons_middle c), app_assoc.
    rewrite drop_app_length', take_app_length' by (rewrite length_app; cbn; lia). by rewrite app_assoc.
Qed.
Lemma around_secs secs old : (λ i, from_option id SEmpty (secs !! i)) <$> around (length secs) old = drop old secs ++ take old secs.
Proof.
  unfold around. assert ((λ i, from_option id SEmpty (secs !! i)) <$> seq 0 (length secs) = secs) as E.
  { apply list_eq. intros i. rewrite list_lookup_fmap. destruct (decide (i < length secs)%nat).
    - rewrite lookup_seq_lt by done. cbn. destruct (lookup_lt_is_Some_2 secs i) as [x Hx]; [done|]. by rewrite Hx.
    - rewrite lookup_seq_ge, lookup_ge_None_2 by lia. done. }
  by rewrite fmap_app, fmap_drop, fmap_take, E.
Qed.

Section Reverse.
Context {S : Type} (device_table : list (fal_flash_dev S)) (vprintf : string → list farg → M S unit) (stack_sector : tsdb_sec_info)
  (p : nat) (size cap blk : Z) (good : fal_state S → Prop) (cell : fal_state S → Z → Z)
  (budget : fal_state S → nat) (erases : fal_state S → bool)
  `{HP : !PartFlash device_table vprintf p size cap blk good cell budget erases} (ssz : Z).
Hypothesis header_cap : 40 <= cap.
Hypothesis sector_size : 512 <= ssz.
#[local] Abbreviation T := (ts_state S).
#[local] Abbreviation works := (works p size good cell budget erases ssz).
#[local] Abbreviation inside := (inside size ssz).
#[local] Abbreviation base := (base ssz).
Context {A : Type} (f : fdb_tsl → A → bool * A).

Lemma walk_backward m k b log sector d : tsec_status sector ≠ FDB_SECTOR_STORE_EMPTY → tsec_addr sector = b → inside b → body ssz m b log →
  ∀ fuel i arg s (Q : bool * A → T → Prop), works m k s → ts_db s = d → (i < length log)%nat → (i < fuel)%nat →
  (∀ s', works m k s' → ts_db s' = d → Q (fold_stop f (reverse (take (1 + i) (tsls ssz b log))) arg) s') →
  wp (tsl_walk device_table vprintf fuel (get_last_tsl_addr sector) (pure_cb f) (entry_index b i) arg) s Q.
Proof.
  intros Hst Ha Hin Hbody. induction fuel as [|fuel IH]; intros i arg s Q Hw E Hi Hfuel HQ; [lia|].
  destruct (lookup_lt_is_Some_2 log i Hi) as [e He]. pose proof Hin as [Hb Hbs]. destruct part_size as [_ Hsz].
  pose proof Hbody as (Hok & _ & Hf & _). pose proof (total_nonneg log). cbn [tsl_walk].
  assert (reverse (take (1 + i) (tsls ssz b log)) = tsl_of ssz b log i e :: reverse (take i (tsls ssz b log))) as Er.
  { rewrite Nat.add_1_l, (take_S_r _ _ (tsl_of ssz b log i e)), reverse_snoc; [done|]. unfold tsls. by rewrite list_lookup_imap, He. }
  rewrite Er in HQ. cbn [fold_stop] in HQ.
  apply wp_bind. eapply read_entry_runs; [exact header_cap|exact Hw|exact Hin|by apply body_entries|exact He|]. intros s1 Hw1 E1.
  apply wp_bind. eapply wp_ok; [reflexivity|]. destruct (f (tsl_of ssz b log i e) arg) as [[] arg']; [apply wp_ret, HQ; [done|congruence]|].
  assert (get_last_tsl_addr sector (tsl_of ssz b log i e) = if decide (i = 0%nat) then FAILED_ADDR else entry_index b (i - 1)) as ->.
  { unfold get_last_tsl_addr. rewrite decide_False by done. cbn [tsl_index tsl_of]. change LOG_IDX_DATA_SIZE with 16. change TSL_SECTOR_HDR_SIZE with 40.
    unfold free_size in Hf. rewrite Ha, u32_id by (unfold is_u32; lia). unfold entry_index. destruct (decide (i = 0%nat)) as [->|Hi0].
    - by rewrite decide_False by lia.
    - rewrite decide_True by lia. rewrite u32_id by (unfold is_u32; lia). lia. }
  destruct (decide (i = 0%nat)) as [->|Hi0].
  - rewrite decide_False by auto. apply wp_ret. apply HQ; [done|congruence].
  - rewrite decide_True by (unfold FAILED_ADDR, entry_index, free_size in *; lia).
    eapply IH; [exact Hw1|congruence|lia|lia|]. replace (1 + (i - 1))%nat with i by lia. exact HQ.
Qed.
Lemma backward_leads (d : fdb_tsdb S) n : ts_sec_size d = ssz → ts_max_size d = size → (2 ≤ n)%nat → Z.of_nat n * ssz = size →
  sec_leads ssz d n (backward n) get_last_sector_addr.
Proof.
  intros Hs Hm H2 Hn sec i j Hi Hj Ha. destruct part_size as [_ Hsz]. assert (2 * ssz <= size) by nia. unfold get_last_sector_addr, backward, TsRefine.base in *. rewrite Hs, Hm, Ha.
  assert (Z.of_nat (1 + j) * ssz <= size) by nia. assert (Z.of_nat (1 + i) * ssz <= size) by nia.
  rewrite (u32_id (_ + ssz)) by (unfold is_u32; nia). destruct (decide (1 + j < n)%nat).
  - rewrite decide_True by nia. destruct (decide (i = 0%nat)) as [->|Hi0].
    + rewrite decide_False by lia. rewrite u32_id by (unfold is_u32; nia). nia.
    + rewrite decide_True by nia. rewrite u32_id by (unfold is_u32; nia). nia.
  - by rewrite decide_False by nia.
Qed.

Context (max_len : Z) (rollover : bool) (lk ulk : option (M (fal_state S) unit)).
#[local] Abbreviation represents := (represents p size good cell budget erases ssz max_len rollover lk ulk).
#[local] Abbreviation calm := (calm p size good cell budget erases ssz).
Definition back_tsls (secs : list ts_sector) (i : nat) : list fdb_tsl := reverse (tsls ssz (base i) (log_of secs i)).
(** An empty sector ends the iteration. *)
Definition back_step (secs : list ts_sector) (i : nat) (arg : A) : bool * A :=
  match secs !! i with Some SEmpty => (true, arg) | _ => fold_stop f (back_tsls secs i) arg end.
Lemma reverse_visits m k s a older c :
  represents m k s a → log_ring a older c →
  visits device_table vprintf p size good cell budget erases ssz m k (ts_db s) (length (a_secs a)) (λ _ _, True) (back_step (a_secs a))
    (reverse_sector device_table vprintf (pure_cb f)).
Proof.
  intros (Hw & Hdb & Hh & Hcur & Hold & Hlast & Hopt) Hring i old arg s1 Q Hi _ Hw1 E1 HQ.
  destruct (lookup_lt_is_Some_2 _ _ Hi) as [sec Hsec]. unfold back_step, back_tsls, log_of in HQ. rewrite Hsec in HQ. cbn [from_option] in HQ.
  pose proof (Hh _ _ Hsec) as Hs. pose proof Hs as (Hhdr & Hbody & Hne). pose proof (base_inside size ssz sector_size _ _ Hdb Hi) as Hin.
  destruct part_size as [_ Hsz]. pose proof (total_nonneg (sec_log sec)). pose proof Hin as [Hb Hbs].
  pose proof Hbody as (Hok & _ & Hf & _). destruct (works_sizes _ _ _ Hw) as [_ Hms].
  assert (length (sec_log sec) < ts_fuel (ts_db s))%nat as Hfuel.
  { unfold ts_fuel. rewrite Hms. change LOG_IDX_DATA_SIZE with 16. unfold free_size in Hf.
    assert (Z.of_nat (length (sec_log sec)) <= size / 16) by (apply Z.div_le_lower_bound; lia). lia. }
  assert (∀ sector s2 (R : bool * tsdb_sec_info * A → T → Prop), works m k s2 → ts_db s2 = ts_db s → sec_log sec ≠ [] →
    tsec_status sector ≠ FDB_SECTOR_STORE_EMPTY → tsec_addr sector = base i → tsec_end_idx sector = end_index (base i) (sec_log sec) →
    (let r := fold_stop f (reverse (tsls ssz (base i) (sec_log sec))) arg in ∀ s', works m k s' → ts_db s' = ts_db s → R (r.1, sector, r.2) s') →
    wp (d ← tget id;
        '(stop, arg) ← tsl_walk device_table vprintf (ts_fuel d) (get_last_tsl_addr sector) (pure_cb f) (tsec_end_idx sector) arg;
        mret (stop, sector, arg)) s2 R) as Hwalk.
  { intros sector s2 R Hw2 E2 Hn Hst Ha He HR. apply wp_bind, wp_gets. unfold id. rewrite E2, He. apply wp_bind.
    assert (0 < length (sec_log sec))%nat by (destruct (sec_log sec); [done|cbn [length]; lia]).
    replace (end_index (base i) (sec_log sec)) with (entry_index (base i) (length (sec_log sec) - 1)) by (unfold end_index, entry_index; lia).
    eapply (walk_backward m k); [exact Hst|exact Ha|exact Hin|exact Hbody|exact Hw2|exact E2|lia|lia|].
    intros s3 Hw3 E3. rewrite take_ge by (unfold tsls; rewrite length_imap; lia). cbv zeta in HR.
    destruct (fold_stop f _ arg) as [stop arg']. apply wp_ret. by apply HR. }
  apply wp_bind. destruct sec as [|log|log]; cbn [sec_log] in *.
  - eapply read_empty_runs; [exact header_cap|exact sector_size|exact Hw1|exact Hin|exact Hhdr|]. intros s2 Hw2 E2.
    unfold reverse_sector. rewrite decide_False by (by intros [_ [?|?]]). apply wp_ret.
    rewrite bool_decide_eq_true_2 by (split; [done|by left]). apply HQ; [done|congruence|done].
  - destruct Hne as [?|Hne]; [done|]. pose proof (ring_using _ _ _ _ _ Hring Hsec) as ->.
    unfold cur_is in Hcur. rewrite Hsec in Hcur. destruct Hcur as [Hcs Hend].
    eapply read_using_runs; [exact header_cap|exact sector_size|exact Hw1|exact Hin|exact Hhdr|by apply first_time_ok|]. intros s2 Hw2 E2.
    unfold reverse_sector. rewrite decide_True by (split; [done|by left]). apply wp_bind. unfold in_memory. rewrite decide_True by done.
    apply wp_gets. rewrite E2, E1, Hcs. apply Hwalk; try done; [congruence|]. intros s' Hw' E'. by apply HQ.
  - destruct Hne as [?|Hne]; [done|].
    eapply read_full_runs; [exact header_cap|exact sector_size|exact Hw1|exact Hin|exact Hs|]. intros s2 Hw2 E2.
    unfold reverse_sector. rewrite decide_True by (split; [done|by right]). apply wp_bind. unfold in_memory. rewrite decide_False by done.
    apply wp_ret. apply Hwalk; try done; [congruence|]. intros s' Hw' E'. by apply HQ.
Qed.

(** The sectors up to the first empty one are the older ones and the current one, backwards. *)
Definition sec_at (secs : list ts_sector) (i : nat) : ts_sector := from_option id SEmpty (secs !! i).
Lemma back_fold secs l1 l2 arg : Forall (λ i, sec_at secs i ≠ SEmpty) l1 → Forall (λ i, secs !! i = Some SEmpty) l2 →
  (fold_stop (back_step secs) (l1 ++ l2) arg).2 = (fold_stop f (concat (back_tsls secs <$> l1)) arg).2.
Proof.
  intros H1 H2. revert arg. induction H1 as [|i l1 Hi _ IH]; intros arg; cbn [app fmap list_fmap concat].
  - destruct H2 as [|i l2 Hi _]; [done|]. cbn [fold_stop]. unfold back_step at 1. by rewrite Hi.
  - cbn [fold_stop]. rewrite fold_stop_app. assert (back_step secs i arg = fold_stop f (back_tsls secs i) arg) as ->.
    { unfold back_step, sec_at in *. by destruct (secs !! i) as [[]|]. }
    destruct (fold_stop f (back_tsls secs i) arg) as [[] arg']; [done|]. apply IH.
Qed.
Lemma back_reads m secs l : ts_holds ssz m secs → Forall2 (reads m) (concat (back_tsls secs <$> l)) (reverse (logs (sec_at secs <$> reverse l))).
Proof.
  intros Hh. induction l as [|i l IH]; [constructor|]. rewrite reverse_cons, fmap_app, logs_app, reverse_app. cbn [fmap list_fmap concat].
  apply Forall2_app; [|exact IH]. unfold logs. cbn. rewrite app_nil_r. apply Forall2_reverse. unfold log_of, sec_at.
  destruct (secs !! i) as [sec|] eqn:Hi; [|constructor]. apply tsls_read, (Hh _ _ Hi).
Qed.
Lemma back_split a older c : log_ring a older c → ∃ l1 l2, back_around (length (a_secs a)) (a_cur a) = l1 ++ l2 ∧
  Forall (λ i, sec_at (a_secs a) i ≠ SEmpty) l1 ∧ Forall (λ i, a_secs a !! i = Some SEmpty) l2 ∧
  logs (sec_at (a_secs a) <$> reverse l1) = entries a.
Proof.
  intros Hring. pose proof Hring as (Hsh & Hfull & Hne & _). destruct (ring_bounds _ _ _ Hring) as [Hcb _].
  destruct (ring_rotated a older c Hsh) as [n E]. cbv zeta in E. rewrite <-around_secs in E. fold (sec_at (a_secs a)) in E.
  rewrite (ring_entries _ _ _ Hsh). unfold back_around. set (l := around _ _) in *.
  assert (Forall (λ i, (i < length (a_secs a))%nat) l) as Hlt.
  { apply Forall_lookup. intros j x Hj. by destruct (around_chained _ _ (forward_lt (length (a_secs a)) (a_cur a) ltac:(lia)) _ _ Hj) as [? _]. }
  assert (∀ l2, Forall (λ i, (i < length (a_secs a))%nat) l2 → Forall (λ sec, sec = SEmpty) (sec_at (a_secs a) <$> l2) → Forall (λ i, a_secs a !! i = Some SEmpty) l2) as Hempty.
  { intros l2 Hl2 He. rewrite Forall_fmap in He. rewrite Forall_lookup in *. intros j x Hj. specialize (He _ _ Hj). specialize (Hl2 _ _ Hj).
    destruct (lookup_lt_is_Some_2 _ _ Hl2) as [sec Hsec]. unfold sec_at in He. cbn in He. rewrite Hsec in *. cbn in He. by subst. }
  assert (c = SEmpty ∨ c ≠ SEmpty) as [->|Hc] by (destruct c; [by left|by right..]).
  - exists [], (reverse l). rewrite (Hne eq_refl) in *. split_and!; [done|constructor| |done]. apply Forall_reverse. apply Hempty; [done|].
    rewrite E. apply Forall_app. split; [by apply Forall_replicate|]. by repeat constructor.
  - exists (reverse (drop n l)), (reverse (take n l)). split; [by rewrite <-reverse_app, take_drop|]. rewrite reverse_involutive, fmap_drop, E.
    split_and!; [apply Forall_reverse|apply Forall_reverse|].
    + assert (Forall (λ sec, sec ≠ SEmpty) (sec_at (a_secs a) <$> drop n l)) as H; [|by rewrite Forall_fmap in H].
      rewrite fmap_drop, E, drop_app_length' by (by rewrite length_replicate).
      apply Forall_app. split; [|by repeat constructor]. eapply Forall_impl; [exact Hfull|]. intros []; done.
    + apply Hempty; [by apply Forall_take|]. rewrite fmap_take, E, take_app_length' by (by rewrite length_replicate). by apply Forall_replicate.
    + rewrite drop_app_length' by (by rewrite length_replicate). rewrite logs_app. unfold logs at 2. cbn. by rewrite app_nil_r.
Qed.
Lemma reverse_runs m k s a older c arg :
  calm lk → calm ulk → represents m k s a → log_ring a older c →
  wp (fdb_tsl_iter_reverse device_table vprintf stack_sector (Some (pure_cb f)) arg) s (λ r s',
    represents m k s' a ∧ ∃ ts, Forall2 (reads m) ts (reverse (entries a)) ∧ r = (fold_stop f ts arg).2).
Proof.
  intros Hlk Hulk Hr Hring. pose proof Hr as (Hw & Hdb & Hh & Hcur & Hold & Hlast & Hopt). pose proof Hopt as (Hinit & _ & _ & Hl & Hu).
  destruct (ring_bounds _ _ _ Hring) as [Hcb Hob]. pose proof Hring as (Hsh & _ & _ & H2 & _). pose proof (ring_cur _ _ _ Hsh) as Hc.
  unfold fdb_tsl_iter_reverse. apply wp_bind. unfold warn_init. apply wp_bind, wp_gets. rewrite Hinit. apply wp_ret.
  apply wp_bind, wp_gets, wp_bind. eapply ts_lock_runs; [exact Hw|by rewrite Hl|]. intros s1 Hw1 E1. unfold id. apply wp_bind.
  assert (tsec_addr (ts_cur_sec (ts_db s)) = base (a_cur a)) as ->.
  { unfold cur_is in Hcur. rewrite Hc in Hcur. destruct c; [by destruct Hcur as (et & ei & ->)|by destruct Hcur as [-> _]|by rewrite Hcur]. }
  set (n := length (a_secs a)) in *. pose proof (back_around_length n _ Hcb) as Hlen. pose proof (back_around_chained n _ Hcb) as Hch.
  destruct (back_around n (a_cur a)) as [|i rest] eqn:Har; [cbn in Hlen; lia|].
  assert (i = a_cur a) as ->.
  { pose proof (back_around_lookup n (a_cur a) 0 Hcb ltac:(lia)) as H0. rewrite Har, decide_True in H0 by lia. injection H0. lia. }
  destruct (works_sizes _ _ _ Hw) as [Hss Hms]. replace 0 with (Z.of_nat 0 * ssz) by lia.
  eapply (sectors_runs device_table vprintf p size cap blk good cell budget erases ssz sector_size m k (ts_db s) n (backward n));
    [by eapply reverse_visits|by apply backward_leads|done|by intros ?|exact Hw1|exact E1|exact Hdb|exact Hch|by rewrite Hlen| |].
  { rewrite Hlen. unfold ts_sector_fuel. rewrite Hss, Hms, <-Hdb. fold n. rewrite Z.div_mul by lia. lia. }
  intros s2 Hw2 E2. apply wp_bind. eapply ts_unlock_runs; [exact Hw2|by rewrite E2, Hu|]. intros s3 Hw3 E3. apply wp_ret.
  split; [eapply represents_db; [exact Hr|exact Hw3|congruence]|].
  destruct (back_split a older c Hring) as (l1 & l2 & El & H1 & H2' & Hent). fold n in El. rewrite <-Har, El, back_fold by done.
  exists (concat (back_tsls (a_secs a) <$> l1)). split; [|done]. rewrite <-Hent. by apply back_reads.
Qed.
End Reverse.
