(* ===== verification/TsLoad.v ===== *)
(** * Starting and cleaning a time series database

    The loop over all sectors: formatting them gives an empty database, and the start of a database
    whose flash holds a ring of sectors finds that ring again. *)
From S2P Require Import Prelude W25qxx W25qxxProps Fal FdbUtils FdbProps KvData KvRead KvFlash KvNode KvBurn KvPower TsData TsDb TsIter TsFlash TsLog TsSector TsAppend TsSpec TsRefine TsVisit.

Section Load.
Context {S : Type} (device_table : list (fal_flash_dev S)) (partition_table_def : list fal_partition)
  (vprintf : string → list farg → M S unit) (file_name : string) (stack_sector : tsdb_sec_info)
  (p : nat) (size cap blk : Z) (good : fal_state S → Prop) (cell : fal_state S → Z → Z)
  (budget : fal_state S → nat) (erases : fal_state S → bool)
  `{HP : !PartFlash device_table vprintf p size cap blk good cell budget erases} (ssz : Z).
Hypothesis header_cap : 40 <= cap.
Hypothesis sector_size : 512 <= ssz.
Hypothesis sector_blocks : ssz `mod` blk = 0.
#[local] Abbreviation T := (ts_state S).
#[local] Abbreviation works := (works p size good cell budget erases ssz).
#[local] Abbreviation inside := (inside size ssz).
#[local] Abbreviation base := (base ssz).
#[local] Abbreviation ts_holds := (ts_holds ssz).
#[local] Abbreviation read_info := (ts_read_sector_info device_table vprintf).

Lemma read_back_runs old tr (m : Z → Z) k i secs sec s (Q : Z * tsdb_sec_info → T → Prop) :
  works m k s → in_db size ssz secs → secs !! i = Some sec → sector_is ssz m (base i) sec →
  (∀ r s', works m k s' → ts_db s' = ts_db s → Q (r, match sec with
     | SEmpty => empty_info ssz (base i) (tsec_end_time old) (tsec_end_idx old)
     | SUsing log => if tr : bool then using_info ssz (base i) log else using_header ssz (base i) (first_time log) (tsec_end_time old) (tsec_end_idx old)
     | SFull log => full_info ssz (base i) log
     end) s') →
  wp (read_info (base i) old tr) s Q.
Proof.
  intros Hw Hdb Hi Hs HQ. pose proof (base_inside size ssz sector_size _ _ Hdb (lookup_lt_Some _ _ _ Hi)) as Hin.
  pose proof Hs as (Hhdr & (Hok & _) & Hne). destruct sec as [|log|log]; cbn [sec_log] in *.
  - eapply read_empty_runs; [exact header_cap|exact sector_size|exact Hw|exact Hin|exact Hhdr|]. intros s' Hw' E'. by apply HQ.
  - destruct Hne as [?|Hne]; [done|]. destruct tr.
    + eapply walk_using_runs; [exact header_cap|exact sector_size|exact Hw|exact Hin|exact Hs|]. intros r s' Hw' E'. by apply HQ.
    + eapply read_using_runs; [exact header_cap|exact sector_size|exact Hw|exact Hin|exact Hhdr|by apply first_time_ok|]. intros s' Hw' E'. by apply HQ.
  - eapply read_full_runs; [exact header_cap|exact sector_size|exact Hw|exact Hin|exact Hs|]. intros s' Hw' E'. by apply HQ.
Qed.

(** ** The loop over all sectors *)

Section Loop.
Context {A : Type} (n : nat) (callback : tsdb_sec_info → A → M T (bool * A)) (tr : bool) (I : nat → A → T → Prop).
Hypothesis n_sectors : (2 ≤ n)%nat.
Hypothesis whole : Z.of_nat n * ssz = size.
Hypothesis sizes : ∀ i arg s, I i arg s → ts_sec_size (ts_db s) = ssz ∧ ts_max_size (ts_db s) = size.
Hypothesis visit : ∀ i old arg s, (i < n)%nat → I i arg s →
  wp ('(_, sector) ← read_info (base i) old false;
      '(_, sector) ← (if tr then read_info (base i) sector true else mret (FDB_NO_ERR, sector));
      '(stop, arg) ← callback sector arg;
      mret (stop, sector, arg)) s
    (λ r s', r.1.1 = false ∧ tsec_addr r.1.2 = base i ∧ I (1 + i) r.2 s').
Lemma ts_sectors_runs rest : ∀ fuel i old arg s (Q : tsdb_sec_info * A → T → Prop),
  (i + rest = n)%nat → (0 < rest ≤ fuel)%nat → I i arg s → (∀ sec arg' s', I n arg' s' → Q (sec, arg') s') →
  wp (ts_sectors device_table vprintf fuel (base i) (base i) old FDB_SECTOR_STORE_UNUSED arg callback tr) s Q.
Proof.
  induction rest as [|rest IH]; intros fuel i old arg s Q Hi Hfuel HI HQ; [lia|]. destruct fuel as [|fuel]; [lia|].
  cbn [ts_sectors]. destruct part_size as [_ Hsz].
  assert (∀ (m1 : M T (Z * tsdb_sec_info)) (k1 k1' : tsdb_sec_info → M T (bool * tsdb_sec_info * A)) (k2 : bool → tsdb_sec_info → A → M T (tsdb_sec_info * A)) s R,
    wp ('(_, sector) ← m1; k1 sector) s (λ r s', wp (k2 r.1.1 r.1.2 r.2) s' R) →
    wp ('(_, sector) ← m1;
        '(stop, sector, arg) ← (if decide (FDB_SECTOR_STORE_UNUSED = FDB_SECTOR_STORE_UNUSED ∨ FDB_SECTOR_STORE_UNUSED = tsec_status sector)
                                then k1 sector else k1' sector);
        k2 stop sector arg) s R) as Hseq.
  { intros m1 k1 k1' k2 s0 R. unfold wp, mbind, M_bind. destruct (m1 s0) as [[r0 sc] s1|]; [|done].
    rewrite decide_True by (by left). by destruct (k1 sc s1) as [[[? ?] ?] ?|]. }
  apply Hseq. eapply wp_mono; [apply visit; [lia|exact HI]|].
  intros [[stop sec] arg'] s1 (Hstop & Hadr & HI1). cbn [fst snd] in *. subst stop. apply wp_bind, wp_gets. unfold id.
  destruct (sizes _ _ _ HI1) as [Hss Hms]. rewrite Hss.
  assert (Z.of_nat (1 + i) * ssz <= size) by nia. assert (base i + ssz = base (1 + i)) as Hb by (unfold TsRefine.base; lia).
  rewrite (u32_id (base i + ssz)) by (rewrite Hb; unfold is_u32, TsRefine.base; nia). rewrite Hb.
  assert (ts_next_sector_addr (ts_db s1) sec (base (1 + i)) =
    if decide (1 + i < n)%nat then base (if decide (1 + i < n)%nat then (1 + i)%nat else 0%nat) else FAILED_ADDR) as ->
    by (eapply next_sector_base; first [done|lia]).
  destruct rest as [|rest].
  - rewrite (decide_False (P := (1 + i < n)%nat)) by lia. rewrite decide_False by auto. apply wp_ret, HQ.
    by replace n with (1 + i)%nat by lia.
  - rewrite !(decide_True (P := (1 + i < n)%nat)) by lia.
    rewrite decide_True by (unfold FAILED_ADDR, TsRefine.base; lia).
    eapply IH; [lia|lia|exact HI1|exact HQ].
Qed.
Lemma iterator_runs sector arg s (Q : tsdb_sec_info * A → T → Prop) :
  tsec_addr sector = 0 → I 0 arg s → (∀ sec arg' s', I n arg' s' → Q (sec, arg') s') →
  wp (ts_sector_iterator device_table vprintf sector FDB_SECTOR_STORE_UNUSED arg callback tr) s Q.
Proof.
  intros Hs HI HQ. apply wp_bind, wp_gets. unfold id. rewrite Hs. destruct (sizes _ _ _ HI) as [Hss Hms].
  replace 0 with (base 0) by (unfold TsRefine.base; lia).
  eapply (ts_sectors_runs n); [lia| |exact HI|exact HQ]. unfold ts_sector_fuel. rewrite Hss, Hms, <-whole, Z.div_mul by lia. lia.
Qed.
End Loop.

(** ** Formatting *)

(** A sector of the store, or bytes without the magic word. *)
Definition readable (m : Z → Z) (b : Z) : Prop :=
  (∃ sec, sector_is ssz m b sec) ∨ u32_at 4 (m <$> seqZ b 40) ≠ TSL_MAGIC_WORD.
Lemma readable_only m m' a b : readable m b → only a ssz m m' → b + ssz <= a ∨ a + ssz <= b → readable m' b.
Proof.
  intros [[sec Hs]|Hm] Ho Hd; [left; exists sec; by eapply sector_only; [lia|exact Ho| |exact Hs]|right].
  assert (m' <$> seqZ b 40 = m <$> seqZ b 40) as ->; [|done]. apply list_fmap_ext. intros j x Hj.
  apply Ho. apply lookup_seqZ in Hj. lia.
Qed.
Lemma read_bad_runs m k b old tr s (Q : Z * tsdb_sec_info → T → Prop) :
  works m k s → inside b → u32_at 4 (m <$> seqZ b 40) ≠ TSL_MAGIC_WORD →
  (∀ s', works m k s' → ts_db s' = ts_db s → Q (FDB_INIT_FAILED, set_tsec_bad b (u32_at 4 (m <$> seqZ b 40)) old) s') →
  wp (read_info b old tr) s Q.
Proof.
  intros Hw [Hb Hbs] Hm HQ. unfold ts_read_sector_info. apply wp_bind.
  eapply (ts_struct_runs m k _ b (m <$> seqZ b 40)); [exact Hw| |by rewrite length_fmap, length_seqZ|unfold sizeof_tsl_sector_hdr; lia..|].
  { unfold mem_at. by rewrite length_fmap, length_seqZ. }
  intros s1 H1 E1. cbv zeta. cbn [tsl_hdr_magic tsl_sector_hdr_of]. rewrite decide_True by done. apply wp_ret. by apply HQ.
Qed.
Lemma read_readable_runs m k b old s (Q : Z * tsdb_sec_info → T → Prop) :
  works m k s → inside b → readable m b →
  (∀ r sec s', works m k s' → ts_db s' = ts_db s → tsec_addr sec = b → Q (r, sec) s') → wp (read_info b old false) s Q.
Proof.
  intros Hw Hin [[sec Hs]|Hm] HQ.
  - pose proof Hs as (Hhdr & (Hok & _) & Hne). destruct sec as [|log|log]; cbn [sec_log] in *.
    + eapply read_empty_runs; [exact header_cap|exact sector_size|exact Hw|exact Hin|exact Hhdr|]. intros s' Hw' E'. by apply HQ.
    + destruct Hne as [?|Hne]; [done|].
      eapply read_using_runs; [exact header_cap|exact sector_size|exact Hw|exact Hin|exact Hhdr|by apply first_time_ok|]. intros s' Hw' E'. by apply HQ.
    + eapply read_full_runs; [exact header_cap|exact sector_size|exact Hw|exact Hin|exact Hs|]. intros s' Hw' E'. by apply HQ.
  - eapply read_bad_runs; [exact Hw|exact Hin|exact Hm|]. intros s' Hw' E'. by apply HQ.
Qed.

Context (n : nat).
Hypothesis n_sectors : (2 ≤ n)%nat.
Hypothesis whole : Z.of_nat n * ssz = size.
Definition formatted (d : fdb_tsdb S) (k : nat) (i : nat) (_ : unit) (s : T) : Prop :=
  ∃ m' k', works m' k' s ∧ ts_db s = d ∧ (∀ j, (j < i)%nat → sector_is ssz m' (base j) SEmpty) ∧
    (∀ j, (i ≤ j < n)%nat → readable m' (base j)) ∧ (k ≤ k' + 5 * i)%nat.
Lemma n_inside i : (i < n)%nat → inside (base i).
Proof. unfold TsSector.inside, TsRefine.base. intros Hi. split; nia. Qed.
Lemma bases_apart i j : i ≠ j → base i + ssz <= base j ∨ base j + ssz <= base i.
Proof. unfold TsRefine.base. intros Hij. destruct (decide (i < j)%nat); [left|right]; nia. Qed.
Lemma format_visit d k i old arg s :
  (5 * n ≤ k)%nat → (i < n)%nat → formatted d k i arg s →
  wp ('(_, sector) ← read_info (base i) old false;
      '(_, sector) ← mret (FDB_NO_ERR, sector);
      '(stop, arg) ← format_all_cb device_table vprintf sector arg;
      mret (stop, sector, arg)) s
    (λ r s', r.1.1 = false ∧ tsec_addr r.1.2 = base i ∧ formatted d k (1 + i) r.2 s').
Proof.
  intros Hk Hi (m & k1 & Hw & E & He & Hr & Hk1). pose proof (n_inside _ Hi) as Hin.
  apply wp_bind. eapply read_readable_runs; [exact Hw|exact Hin|apply Hr; lia|]. intros r sec s1 Hw1 E1 Hadr. cbv beta iota.
  apply wp_bind, wp_ret. cbv beta iota. unfold format_all_cb. apply wp_bind, wp_bind. rewrite Hadr.
  eapply format_sector_runs; [exact sector_size|exact sector_blocks|exact Hw1|exact Hin|by apply base_mod|lia|].
  intros m2 k2 s2 Hw2 Hk2 E2 Hs2 O2. apply wp_ret, wp_ret. cbn [fst snd]. split_and!; [done|done|].
  exists m2, k2. split_and!; [exact Hw2|congruence| | |lia].
  - intros j Hj. destruct (decide (j = i)) as [->|Hne]; [exact Hs2|].
    eapply sector_only; [lia|exact O2| |apply He; lia]. by apply bases_apart.
  - intros j Hj. eapply readable_only; [apply Hr; lia|exact O2|]. apply bases_apart. lia.
Qed.

Context (max_len : Z) (rollover : bool) (lk ulk : option (M (fal_state S) unit)).
#[local] Abbreviation represents := (represents p size good cell budget erases ssz max_len rollover lk ulk).
(** The empty database. *)
Definition fresh : ts_abs := mk_abs (replicate n SEmpty) 0 0 0.
Lemma fresh_ring : log_ring fresh [] SEmpty.
Proof.
  assert (fresh = mk_abs ([] ++ SEmpty :: replicate (n - 1) SEmpty) (length (@nil ts_sector)) 0 0) as ->.
  { unfold fresh. destruct n as [|n']; [lia|]. cbn. by rewrite Nat.sub_0_r. }
  split_and!; [apply shape_first|done..| |by repeat constructor|by constructor].
  cbn [a_secs app length]. rewrite length_replicate. lia.
Qed.
(** The database as formatting leaves it, its options aside. *)
Definition emptied (d d' : fdb_tsdb S) : Prop :=
  ∃ et ei, d' = set_ts_cur (empty_info ssz 0 et ei) (set_ts_last_time 0 (set_ts_oldest 0 d)).
Lemma format_all_runs m k s (Q : unit → T → Prop) :
  works m k s → (∀ j, (j < n)%nat → readable m (base j)) → (5 * n ≤ k)%nat →
  (∀ m' k' s', works m' k' s' → emptied (ts_db s) (ts_db s') → ts_holds m' (replicate n SEmpty) → (k ≤ k' + 5 * n)%nat → Q tt s') →
  wp (tsl_format_all device_table vprintf stack_sector) s Q.
Proof.
  intros Hw Hr Hk HQ. unfold tsl_format_all. apply wp_bind.
  eapply (iterator_runs n _ false (formatted (ts_db s) k)); [done|done| |intros i old arg s1 Hi HI; by apply format_visit|done| |].
  { intros i arg s1 (m1 & k1 & Hw1 & _). by eapply works_sizes. }
  { exists m, k. split_and!; [done|done|lia|intros; apply Hr; lia|lia]. }
  intros sec [] s1 (m1 & k1 & Hw1 & E1 & He & _ & Hk1).
  assert (ts_holds m1 (replicate n SEmpty)) as Hh by (intros i sec' [-> Hi]%lookup_replicate; by apply He).
  apply wp_bind, wp_tset, wp_bind, wp_tset, wp_bind, wp_tset, wp_bind. cbn [ts_db ts_fal ts_log_is_show]. set (s2 := mk_tss _ _ _).
  assert (works m1 k1 s2) as Hw2 by (by apply works_db).
  unfold reread_cur. apply wp_bind, wp_gets. change (tsec_addr (ts_cur_sec (ts_db s2))) with 0.
  replace 0 with (base 0) by done. apply wp_bind.
  eapply read_empty_runs; [exact header_cap|exact sector_size|exact Hw2|apply n_inside; lia|apply (He 0%nat); lia|]. intros s3 Hw3 E3. cbv beta iota.
  apply wp_tset. set (s4 := mk_tss _ _ _). assert (works m1 k1 s4) as Hw4 by (by apply works_db).
  eapply ts_info_runs; [exact Hw4|]. intros s5 Hw5 E5. eapply (HQ m1 k1); [exact Hw5| |exact Hh|lia].
  rewrite E5. unfold s4. cbn [ts_db]. rewrite E3. unfold s2. cbn [ts_db]. rewrite E1. by eexists _, _.
Qed.
Lemma emptied_represents m k s s0 : works m k s → emptied (ts_db s0) (ts_db s) → ts_holds m (replicate n SEmpty) →
  options max_len rollover lk ulk (ts_db s0) → represents m k s fresh.
Proof.
  intros Hw (et & ei & E) Hh Hopt. split_and!; try (by rewrite E); [exact Hw|unfold in_db; cbn [a_secs fresh]; by rewrite length_replicate|exact Hh|].
  unfold cur_is. cbn [a_secs a_cur fresh]. rewrite lookup_replicate_2 by lia. rewrite E. by eexists _, _.
Qed.
(** Cleaning gives the empty database, whatever the sectors hold. *)
Lemma clean_runs m k s :
  works m k s → options max_len rollover lk ulk (ts_db s) → calm p size good cell budget erases ssz lk → calm p size good cell budget erases ssz ulk →
  (∀ j, (j < n)%nat → readable m (base j)) → (5 * n ≤ k)%nat →
  wp (fdb_tsl_clean device_table vprintf stack_sector) s (λ _ s', ∃ m' k', represents m' k' s' fresh ∧ (k ≤ k' + 5 * n)%nat).
Proof.
  intros Hw Hopt Hlk Hulk Hr Hk. pose proof Hopt as (_ & _ & _ & Hl & Hu). unfold fdb_tsl_clean. apply wp_bind.
  eapply ts_lock_runs; [exact Hw|by rewrite Hl|]. intros s1 Hw1 E1. apply wp_bind.
  eapply format_all_runs; [exact Hw1|exact Hr|exact Hk|]. intros m2 k2 s2 Hw2 E2 Hh2 Hk2.
  eapply ts_unlock_runs; [exact Hw2| |].
  { destruct E2 as (et & ei & ->). cbn. by rewrite E1, Hu. }
  intros s3 Hw3 E3. exists m2, k2. split; [|lia]. rewrite E1 in E2. rewrite <-E3 in E2. by eapply emptied_represents.
Qed.

(** ** The start on a ring of sectors *)

Section Restart.
Context (m : Z → Z) (k : nat) (a : ts_abs) (older : list ts_sector) (c : ts_sector) (d : fdb_tsdb S).
(** What the walk over the sector in use finds. *)
Context (info : list tsl_entry → tsdb_sec_info).
Hypothesis Hring : log_ring a older c.
Hypothesis Hlen : length (a_secs a) = n.
Hypothesis Hread : ∀ i sec old (tr : bool) s (Q : Z * tsdb_sec_info → T → Prop),
  works m k s → ts_max_len (ts_db s) = ts_max_len d → a_secs a !! i = Some sec →
  (∀ r s', works m k s' → ts_db s' = ts_db s → Q (r, match sec with
     | SEmpty => empty_info ssz (base i) (tsec_end_time old) (tsec_end_idx old)
     | SUsing log => if tr then info log else using_header ssz (base i) (first_time log) (tsec_end_time old) (tsec_end_idx old)
     | SFull log => full_info ssz (base i) log
     end) s') →
  wp (read_info (base i) old tr) s Q.
Hypothesis Hinfo : ∀ log, c = SUsing log →
  tsec_check_ok (info log) = true ∧ tsec_status (info log) = FDB_SECTOR_STORE_USING ∧ tsec_addr (info log) = base (a_cur a).
(** A database that was full and had nowhere to go is not found again. *)
Hypothesis Hopen : ¬ is_full c.
Hypothesis Hunset : tsec_addr (ts_cur_sec d) = FDB_DATA_UNUSED.

Definition found (i : nat) (cur : tsdb_sec_info) : Prop :=
  match c with
  | SEmpty => if decide (i = 0%nat) then tsec_addr cur = FDB_DATA_UNUSED else ∃ et ei, cur = empty_info ssz (base 0) et ei
  | SUsing log => if decide (i ≤ a_cur a)%nat then tsec_addr cur = FDB_DATA_UNUSED else cur = info log
  | SFull _ => True
  end.
Definition scanned (i : nat) (arg : bool * Z * Z) (s : T) : Prop :=
  works m k s ∧ (∃ cur, ts_db s = set_ts_cur cur d ∧ found i cur) ∧
  let num := empties (take i (a_secs a)) in
  ∃ ea, arg = (false, Z.of_nat num, ea) ∧ (num ≠ 0%nat → ea = base (i - 1)).
Lemma ring_db : in_db size ssz (a_secs a).
Proof. unfold in_db. by rewrite Hlen. Qed.
Lemma base_used i : (i < n)%nat → base i ≠ FDB_DATA_UNUSED.
Proof. intros Hi. destruct part_size as [_ Hsz]. unfold FDB_DATA_UNUSED, TsRefine.base. assert (Z.of_nat i * ssz <= size) by nia. lia. Qed.
Lemma scan_visit i old arg s :
  (i < n)%nat → scanned i arg s →
  wp ('(_, sector) ← read_info (base i) old false;
      '(_, sector) ← read_info (base i) sector true;
      '(stop, arg) ← ts_check_sec_hdr_cb vprintf sector arg;
      mret (stop, sector, arg)) s
    (λ r s', r.1.1 = false ∧ tsec_addr r.1.2 = base i ∧ scanned (1 + i) r.2 s').
Proof.
  intros Hi (Hw & (cur & E & Hf) & ea & -> & Hea). destruct (lookup_lt_is_Some_2 (a_secs a) i ltac:(lia)) as [sec Hsec].
  pose proof (empties_take _ _ _ Hsec) as Hnum. destruct (ring_bounds _ _ _ Hring) as [Hcb _]. rewrite Hlen in Hcb.
  apply wp_bind. eapply Hread; [exact Hw|by rewrite E|exact Hsec|]. intros r1 s1 Hw1 E1. cbv beta iota.
  apply wp_bind. eapply Hread; [exact Hw1|by rewrite E1, E|exact Hsec|]. intros r2 s2 Hw2 E2. cbv beta iota.
  assert (ts_db s2 = set_ts_cur cur d) as E2' by congruence. unfold scanned. rewrite Hnum.
  pose proof (ring_places _ _ _ _ _ Hring Hsec) as Hplace.
  destruct sec as [|log|log]; cbn [tsec_end_time tsec_end_idx]; unfold ts_check_sec_hdr_cb; cbn [tsec_check_ok empty_info full_info negb tsec_status].
  - rewrite decide_False by done. rewrite decide_True by done. apply wp_bind, wp_bind, wp_gets. rewrite E2'. cbn [ts_cur_sec set_ts_cur].
    apply wp_bind. unfold found in *. destruct c as [|log|log]; [| |by destruct Hopen].
    + destruct (decide (i = 0%nat)) as [->|Hi0].
      * rewrite take_0. cbn [empties]. rewrite (decide_True (P := _ ∧ _)) by done. apply wp_tset, wp_ret, wp_ret. cbn [fst snd].
        split_and!; [done|done|by apply works_db; [|rewrite E2']|eexists; split; [cbn [ts_db]; by rewrite E2'|rewrite decide_False by lia; by eexists _, _]|].
        eexists. split; [reflexivity|]. intros _. done.
      * destruct Hf as (et & ei & ->). cbn [tsec_addr empty_info]. rewrite decide_False by (intros [_ Hb]; by apply (base_used 0) in Hb; [|lia]).
        apply wp_ret, wp_ret, wp_ret. cbn [fst snd].
        split_and!; [done|done|exact Hw2|eexists; split; [exact E2'|rewrite decide_False by lia; by eexists _, _]|].
        eexists. split; [f_equal; f_equal; lia|]. intros _. cbn [tsec_addr empty_info]. f_equal. lia.
    + destruct Hplace as [[_ []]|[[_ ?]|[Hlt _]]]; [done|]. rewrite decide_False in Hf by lia. subst cur.
      destruct (Hinfo _ eq_refl) as (_ & _ & ->). rewrite decide_False by (intros [_ Hb]; by apply (base_used (a_cur a)) in Hb; [|lia]).
      apply wp_ret, wp_ret, wp_ret. cbn [fst snd].
      split_and!; [done|done|exact Hw2|eexists; split; [exact E2'|rewrite decide_False by lia; done]|].
      eexists. split; [f_equal; f_equal; lia|]. intros _. cbn [tsec_addr empty_info]. f_equal. lia.
  - pose proof (ring_using _ _ _ _ _ Hring Hsec) as ->.
    assert (c = SUsing log) as Hc by (destruct Hring as (Hsh & _); rewrite (ring_cur _ _ _ Hsh) in Hsec; congruence).
    destruct (Hinfo _ Hc) as (-> & -> & Ha). cbn [negb]. rewrite decide_True by done.
    unfold found in *. rewrite Hc in Hf |- *. rewrite decide_True in Hf by lia. apply wp_bind, wp_bind, wp_gets. rewrite E2'. cbn [ts_cur_sec set_ts_cur].
    rewrite decide_True by done. apply wp_bind, wp_tset, wp_ret, wp_ret. cbn [fst snd].
    split_and!; [done|exact Ha|by apply works_db; [|rewrite E2']|eexists; split; [cbn [ts_db]; by rewrite E2'|rewrite decide_False by lia; done]|].
    rewrite Nat.add_0_r. exists ea. split; [done|]. rewrite (ring_no_gap _ _ _ _ _ Hring Hsec) by done. done.
  - rewrite decide_False by done. rewrite decide_False by done. apply wp_bind, wp_ret, wp_ret. cbn [fst snd].
    split_and!; [done|done|exact Hw2| |rewrite Nat.add_0_r; exists ea; split; [done|]; rewrite (ring_no_gap _ _ _ _ _ Hring Hsec) by done; done].
    eexists. split; [exact E2'|]. unfold found in *. destruct c as [|log'|log']; [| |done].
    + destruct (ring_empty _ _ i (SFull log) Hring) as [_ Hno]. by specialize (Hno Hsec).
    + destruct (decide (i = a_cur a)) as [->|Hne].
      * destruct Hring as (Hsh & _). rewrite (ring_cur _ _ _ Hsh) in Hsec. done.
      * destruct (decide (i ≤ a_cur a)%nat); [rewrite decide_True by lia|rewrite decide_False by lia]; done.
Qed.

Definition same_options (d d' : fdb_tsdb S) : Prop :=
  ts_parent d' = ts_parent d ∧ ts_not_formatable d' = ts_not_formatable d ∧ ts_lock d' = ts_lock d ∧ ts_unlock d' = ts_unlock d ∧
  ts_max_len d' = ts_max_len d ∧ ts_rollover d' = ts_rollover d.
(** [find_latest] gives the oldest sector of the ring. *)
Lemma latest_runs num ea cur s (Q : unit → T → Prop) :
  works m k s → ts_db s = set_ts_cur cur d → ts_rollover d = true → found n cur → num = Z.of_nat (empties (a_secs a)) →
  (empties (a_secs a) ≠ 0%nat → ea = base (n - 1)) →
  (∀ s', works m k s' → ts_db s' = set_ts_oldest (base (a_old a)) (set_ts_cur cur d) → Q tt s') →
  wp (find_latest num ea) s Q.
Proof.
  intros Hw E Hro Hf -> Hea HQ. destruct (ring_oldest _ _ _ Hring) as [Hsome Hnone]. destruct (works_sizes _ _ _ Hw) as [Hss Hms].
  destruct part_size as [_ Hsz]. destruct (ring_bounds _ _ _ Hring) as [Hcb Hob]. rewrite Hlen in *.
  unfold find_latest. apply wp_bind, wp_gets. unfold id. rewrite Hss, Hms.
  assert (∀ i, (i < n)%nat → u32 (base i + ssz) = base (1 + i) ∧ (base (1 + i) >= size ↔ i = (n - 1)%nat)) as Hnext.
  { intros i Hi. unfold TsRefine.base. rewrite u32_id by (unfold is_u32; nia). split; [lia|]. split; intros; nia. }
  assert (∀ i x, (i < n)%nat → base (a_old a) = (if decide (i = (n - 1)%nat) then 0 else base (1 + i)) → x = base i →
    wp (tset (set_ts_oldest (if decide (u32 (x + ssz) >= size) then 0 else u32 (x + ssz)))) s Q) as Hlast.
  { intros i x Hi Hb ->. destruct (Hnext i Hi) as [-> Hge]. apply wp_tset. apply HQ; [by apply works_db|]. cbn [ts_db]. rewrite E. f_equal.
    rewrite Hb. destruct (decide (i = (n - 1)%nat)); [rewrite decide_True by tauto|rewrite decide_False by tauto]; done. }
  apply wp_bind. destruct (decide (empties (a_secs a) = 0%nat)) as [H0|H0].
  - destruct (Hnone H0) as [Hc Hold]. rewrite decide_False by lia. rewrite E. cbn [ts_rollover set_ts_cur ts_cur_sec]. rewrite Hro. apply wp_ret.
    apply (Hlast (a_cur a)); [lia| |].
    + rewrite Hold. destruct (decide (a_cur a = (n - 1)%nat)); [rewrite decide_False by lia|rewrite decide_True by lia]; [done|done].
    + unfold found in Hf. destruct c as [|log|log]; [done| |by destruct Hopen]. rewrite decide_False in Hf by lia. subst cur. by apply Hinfo.
  - destruct (Hsome H0) as [Hold _]. rewrite decide_True by lia. apply wp_ret.
    apply (Hlast (n - 1)%nat); [lia| |by apply Hea]. rewrite decide_True by done. by rewrite Hold.
Qed.
(** What the start leaves of the ring: the current sector and the last time. *)
Definition ts_started (d' : fdb_tsdb S) : Prop :=
  same_options d d' ∧ ts_oldest_addr d' = base (a_old a) ∧
  match c with
  | SEmpty => (∃ et ei, ts_cur_sec d' = empty_info ssz (base (a_cur a)) et ei) ∧ ts_last_time d' = ts_last_time d
  | SUsing log => ts_cur_sec d' = info log ∧ ts_last_time d' = tsec_end_time (info log)
  | SFull _ => False
  end.
(** The current sector, read again, and the last time. *)
Lemma reread_runs cur s (Q : unit → T → Prop) :
  works m k s → ts_db s = set_ts_oldest (base (a_old a)) (set_ts_cur cur d) → found n cur →
  (∀ s', works m k s' → ts_started (ts_db s') → Q tt s') →
  wp (reread_cur device_table vprintf true;; find_last_time device_table vprintf stack_sector) s Q.
Proof.
  intros Hw E Hf HQ. pose proof (ring_start a older c Hring) as Hstart. pose proof Hring as (Hsh & _). pose proof (ring_cur _ _ _ Hsh) as Hcur.
  destruct (ring_bounds _ _ _ Hring) as [Hcb Hob].
  assert (tsec_addr cur = base (a_cur a)) as Hadr.
  { unfold found in Hf. rewrite Hlen in *. destruct c as [|log|log] eqn:Hc; [| |by destruct Hopen].
    - rewrite decide_False in Hf by lia. destruct Hf as (et & ei & ->). destruct Hstart as [-> _]; done.
    - rewrite decide_False in Hf by lia. subst cur. by apply Hinfo. }
  unfold reread_cur. apply wp_bind, wp_bind, wp_gets. rewrite E. cbn [ts_cur_sec set_ts_oldest set_ts_cur]. rewrite Hadr.
  apply wp_bind. eapply Hread; [exact Hw|by rewrite E|exact Hcur|]. intros r s1 Hw1 E1. cbv beta iota.
  apply wp_tset. rewrite E1, E. cbn [ts_cur_sec set_ts_oldest set_ts_cur]. set (s2 := mk_tss _ _ _).
  assert (works m k s2) as Hw2 by (by apply works_db; [|rewrite E1, E]).
  unfold find_last_time. apply wp_bind, wp_gets. unfold id. unfold ts_started in HQ.
  destruct c as [|log|log] eqn:Hc; [| |by destruct Hopen].
  - cbn [s2 ts_db ts_cur_sec set_ts_oldest set_ts_cur]. cbn [tsec_status empty_info]. rewrite decide_False by done.
    cbn [ts_oldest_addr tsec_addr]. destruct Hstart as [Hc0 Ho]; [done|].
    rewrite decide_False by (intros [_ Hne]; by rewrite Ho, Hc0 in Hne). apply wp_ret.
    apply HQ; [exact Hw2|]. split_and!; [done..|by eexists _, _|done].
  - cbn [s2 ts_db ts_cur_sec set_ts_oldest set_ts_cur]. destruct (Hinfo _ eq_refl) as (_ & -> & _). rewrite decide_True by done. apply wp_tset.
    apply HQ; [by apply works_db|done].
Qed.

Lemma load_runs s (Q : Z → T → Prop) :
  works m k s → ts_db s = d → calm p size good cell budget erases ssz (ts_unlock d) → ts_rollover d = true →
  (∀ s', works m k s' → ts_started (ts_db s') → Q FDB_NO_ERR s') →
  wp (ts_load device_table vprintf file_name stack_sector) s Q.
Proof.
  intros Hw E Hu Hro HQ. unfold ts_load. apply wp_bind.
  eapply (iterator_runs n _ true scanned); [done|done| |intros i old arg s1 Hi HI; by apply scan_visit|done| |].
  { intros i arg s1 (Hw1 & _). by eapply works_sizes. }
  { split; [exact Hw|]. split.
    - exists (ts_cur_sec d). split; [rewrite E; by destruct d|]. unfold found. destruct c as [|log|log]; [by rewrite decide_True|by rewrite decide_True by lia|done].
    - exists 0. rewrite take_0. done. }
  intros sec arg s1 (Hw1 & (cur & E1 & Hf) & ea & -> & Hea). cbv beta iota. rewrite take_ge in * by lia.
  apply wp_bind, wp_gets. cbn [andb]. apply wp_bind.
  eapply latest_runs; [exact Hw1|exact E1|exact Hro|exact Hf|reflexivity|exact Hea|]. intros s2 Hw2 E2.
  apply wp_bind, wp_gets. unfold id. apply wp_bind. eapply ts_debug_runs; [exact Hw2|]. intros s3 Hw3 E3.
  assert (∀ (m1 m2 : M T unit) (m3 : M T Z) s R, wp (m1;; m2) s (λ _ s', wp m3 s' R) → wp (m1;; m2;; m3) s R) as Hassoc.
  { intros m1 m2 m3 s0 R. unfold wp, mbind, M_bind. destruct (m1 s0) as [[] s'|]; [|done]. by destruct (m2 s') as [[] ?|]. }
  apply Hassoc. eapply reread_runs; [exact Hw3|by rewrite E3, E2|exact Hf|].
  intros s4 Hw4 Hst. apply wp_bind.
  eapply ts_unlock_runs; [exact Hw4| |].
  { destruct Hst as ((_ & _ & _ & -> & _) & _). exact Hu. }
  intros s5 Hw5 E5. apply wp_ret. apply HQ; [exact Hw5|by rewrite E5].
Qed.
End Restart.

(** ** The start of a database *)

Lemma ts_finish_runs m k s (Q : unit → T → Prop) :
  works m k s → (∀ s', works m k s' → ts_db s' = set_ts_parent (set_db_ok true (ts_parent (ts_db s))) (ts_db s) → Q tt s') →
  wp (ts_init_finish vprintf FDB_NO_ERR) s Q.
Proof.
  intros Hw HQ. unfold ts_init_finish. rewrite decide_True by done. apply wp_bind, wp_tset, wp_bind, wp_gets.
  pose proof (works_ok _ _ _ true Hw) as Hw1. cbn [ts_log_is_show]. destruct (ts_log_is_show s) eqn:El; [apply wp_ret; by apply HQ|].
  unfold ts_banner. apply wp_bind, wp_bind. eapply ts_print_runs; [exact Hw1|]. intros s2 Hw2 E2. apply wp_bind.
  eapply ts_print_runs; [exact Hw2|]. intros s3 Hw3 E3. eapply ts_print_runs; [exact Hw3|]. intros s4 Hw4 E4. apply wp_bind, wp_bind.
  eapply ts_print_runs; [exact Hw4|]. intros s5 Hw5 E5. apply wp_bind. eapply ts_print_runs; [exact Hw5|]. intros s6 Hw6 E6.
  eapply ts_print_runs; [exact Hw6|]. intros s7 Hw7 E7. apply wp_modify. apply HQ; [by apply works_show|]. cbn [ts_db].
  by rewrite E7, E6, E5, E4, E3, E2.
Qed.
(** The structure as the start leaves it before the sectors are checked. *)
Definition before_load (parent' : fdb_db) (time : M (fal_state S) Z) (len : Z) (d : fdb_tsdb S) : fdb_tsdb S :=
  set_ts_cur (set_tsec_addr FDB_DATA_UNUSED (ts_cur_sec d))
    (set_ts_oldest FDB_DATA_UNUSED (set_ts_rollover true (set_ts_source (Some time) len (set_ts_parent parent' d)))).
Lemma start_runs m k s a older c info parent' name path time len (Q : Z → T → Prop) :
  let d := before_load parent' time len (ts_db s) in
  log_ring a older c → length (a_secs a) = n → ¬ is_full c →
  (∀ i sec old (tr : bool) s (Q : Z * tsdb_sec_info → T → Prop), works m k s → ts_max_len (ts_db s) = len → a_secs a !! i = Some sec →
     (∀ r s', works m k s' → ts_db s' = ts_db s → Q (r, match sec with
        | SEmpty => empty_info ssz (base i) (tsec_end_time old) (tsec_end_idx old)
        | SUsing log => if tr then info log else using_header ssz (base i) (first_time log) (tsec_end_time old) (tsec_end_idx old)
        | SFull log => full_info ssz (base i) log
        end) s') → wp (read_info (base i) old tr) s Q) →
  (∀ log, c = SUsing log → tsec_check_ok (info log) = true ∧ tsec_status (info log) = FDB_SECTOR_STORE_USING ∧ tsec_addr (info log) = base (a_cur a)) →
  wp (_fdb_init_ex device_table partition_table_def (λ msg, vprintf msg []) (ts_parent (ts_db s)) name path) (ts_fal s) (λ r f,
    r = (FDB_NO_ERR, parent') ∧ works m k (mk_tss (set_ts_parent parent' (ts_db s)) f (ts_log_is_show s))) →
  calm p size good cell budget erases ssz (ts_lock (ts_db s)) → calm p size good cell budget erases ssz (ts_unlock (ts_db s)) → len < ssz →
  (∀ d' s', works m k s' → ts_started a c d info d' → ts_db s' = set_ts_parent (set_db_ok true (ts_parent d')) d' → Q FDB_NO_ERR s') →
  wp (fdb_tsdb_init device_table partition_table_def vprintf file_name stack_sector name path (Some time) len) s Q.
Proof.
  intros d Hring Hlen Hopen Hread Hinfo Hex Hlk Hulk Hmax HQ. unfold fdb_tsdb_init. apply wp_bind. unfold ts_assert.
  rewrite bool_decide_eq_true_2 by done. apply wp_ret, wp_bind, wp_gets, wp_bind, wp_ts_on_fal.
  eapply wp_mono; [exact Hex|]. intros r f (-> & Hw1). cbv beta iota. apply wp_bind, wp_tset. cbn [ts_db ts_fal ts_log_is_show].
  set (s1 := mk_tss _ _ _) in *. rewrite decide_False by auto. apply wp_bind, wp_bind.
  eapply ts_lock_runs; [exact Hw1|exact Hlk|]. intros s2 Hw2 E2. do 4 (apply wp_bind, wp_tset). cbn [ts_db ts_fal ts_log_is_show].
  apply wp_bind, wp_gets. set (s3 := mk_tss _ _ _).
  assert (works m k s3) as Hw3 by (by apply works_db).
  assert (ts_db s3 = d) as E3 by (unfold s3; cbn [ts_db]; by rewrite E2).
  destruct (works_sizes _ _ _ Hw3) as [-> _]. apply wp_bind. rewrite bool_decide_eq_true_2 by done. apply wp_ret.
  eapply (load_runs m k a older c d info); try done.
  intros s4 Hw4 Hst. apply wp_bind.
  eapply ts_finish_runs; [exact Hw4|]. intros s5 Hw5 E5. apply wp_ret. by eapply HQ.
Qed.
Lemma init_runs m k s a older c parent' name path time len :
  log_ring a older c → length (a_secs a) = n → ts_holds m (a_secs a) → ¬ is_full c →
  wp (_fdb_init_ex device_table partition_table_def (λ msg, vprintf msg []) (ts_parent (ts_db s)) name path) (ts_fal s) (λ r f,
    r = (FDB_NO_ERR, parent') ∧ works m k (mk_tss (set_ts_parent parent' (ts_db s)) f (ts_log_is_show s))) →
  calm p size good cell budget erases ssz (ts_lock (ts_db s)) → calm p size good cell budget erases ssz (ts_unlock (ts_db s)) →
  len < ssz → (c = SEmpty → ts_last_time (ts_db s) = a_last a) → (∀ log, c = SUsing log → a_last a = end_time log) →
  wp (fdb_tsdb_init device_table partition_table_def vprintf file_name stack_sector name path (Some time) len) s (λ r s',
    r = FDB_NO_ERR ∧ TsRefine.represents p size good cell budget erases ssz len true (ts_lock (ts_db s)) (ts_unlock (ts_db s)) m k s' a).
Proof.
  intros Hring Hlen Hh Hopen Hex Hlk Hulk Hmax Hl0 Hl1. pose proof Hring as (Hsh & _). pose proof (ring_cur _ _ _ Hsh) as Hcur.
  assert (in_db size ssz (a_secs a)) as Hdb by (by apply ring_db).
  eapply (start_runs m k s a older c (using_info ssz (base (a_cur a)))); try done.
  - intros i sec old tr s1 Q Hw1 _ Hsec HQ. eapply read_back_runs; [exact Hw1|exact Hdb|exact Hsec|by apply Hh|]. intros r s2 Hw2 E2.
    specialize (HQ r s2 Hw2 E2). destruct sec; try done. by rewrite <-(ring_using _ _ _ _ _ Hring Hsec) in HQ.
  - intros d' s' Hw' ((Hp & _ & Hlock & Hunlock & Hml & Hro) & Hold & Hst) E. split; [done|].
    split_and!; try (by rewrite E); [exact Hw'|exact Hdb|exact Hh| |]; rewrite E.
    + unfold cur_is. rewrite Hcur. destruct c as [|log|log]; [apply Hst|split; [apply Hst|by apply Hl1]|done].
    + cbn [ts_last_time set_ts_parent]. destruct c as [|log|log]; [destruct Hst as [_ ->]; by apply Hl0|destruct Hst as [_ ->]; by rewrite (Hl1 log)|done].
Qed.
End Load.
