(* ===== verification/TsTime.v ===== *)
(** * Querying a time series database by time

    The binary search of a sector finds the first entry that is not before a time, and the iterator
    by time calls its callback with exactly the entries of an interval, in order. *)
From Stdlib Require Import Sorted.
From S2P Require Import Prelude W25qxx W25qxxProps Fal FdbUtils FdbProps KvData KvRead KvFlash KvNode KvBurn KvPower TsData TsDb TsIter TsFlash TsLog TsSector TsAppend TsSpec TsRefine TsVisit.

(** ** Lists in the order of their times *)

Section Order.
Context {A : Type} (f : fdb_tsl → A → bool * A) (from to : Z).
Definition earlier (t1 t2 : fdb_tsl) : Prop := tsl_time t1 < tsl_time t2.
(** The function that ends behind the interval. *)
Definition timed (tsl : fdb_tsl) (arg : A) : bool * A :=
  if decide (from <= tsl_time tsl <= to) then f tsl arg else (true, arg).
Definition not_before (l : list fdb_tsl) : list fdb_tsl := filter (λ tsl, from <= tsl_time tsl) l.
Definition between (l : list fdb_tsl) : list fdb_tsl := filter (λ tsl, from <= tsl_time tsl <= to) l.
Lemma between_late l x : StronglySorted earlier (x :: l) → to < tsl_time x → between (x :: l) = [].
Proof.
  intros Hs Hx. inversion Hs as [|? ? _ Hall]; subst. unfold between. rewrite filter_cons_False by lia.
  induction Hall as [|y l Hy Hall IH]; [done|]. unfold earlier in Hy. rewrite filter_cons_False by lia. apply IH.
  inversion Hs as [|? ? Hs' Hall']; subst. inversion Hs'; subst. inversion Hall'; subst. by constructor.
Qed.
Lemma timed_between l arg :
  StronglySorted earlier l → Forall (λ tsl, from <= tsl_time tsl) l → (fold_stop timed l arg).2 = (fold_stop f (between l) arg).2.
Proof.
  revert arg. induction l as [|x l IH]; intros arg Hs Hall; [done|]. inversion Hall as [|? ? Hx Hall']; subst.
  cbn [fold_stop]. unfold timed at 1. case_decide as Hr.
  - unfold between. rewrite filter_cons_True by done. cbn [fold_stop]. destruct (f x arg) as [[] arg']; [done|].
    apply IH; [by inversion Hs|done].
  - rewrite between_late by (first [done|lia]). done.
Qed.
Lemma between_not_before l : between (not_before l) = between l.
Proof.
  unfold between, not_before. induction l as [|x l IH]; [done|]. rewrite !filter_cons. repeat case_decide; rewrite ?filter_cons;
    repeat case_decide; try lia; try done; by f_equal.
Qed.
Lemma not_before_sorted l : StronglySorted earlier l → StronglySorted earlier (not_before l).
Proof.
  induction 1 as [|x l Hs IH Hx]; [constructor|]. unfold not_before. rewrite filter_cons. case_decide; [|done].
  constructor; [done|]. apply Forall_forall. intros y [_ Hy]%list_elem_of_filter. rewrite Forall_forall in Hx. by apply Hx.
Qed.
Lemma sorted_app l1 l2 : StronglySorted earlier (l1 ++ l2) →
  StronglySorted earlier l1 ∧ StronglySorted earlier l2 ∧ ∀ x y, x ∈ l1 → y ∈ l2 → tsl_time x < tsl_time y.
Proof.
  induction l1 as [|x l1 IH]; cbn; intros H; [split_and!; [constructor|done|by intros x y ?%not_elem_of_nil]|].
  inversion H as [|? ? Hs Hx]; subst. destruct (IH Hs) as (H1 & H2 & H3). apply Forall_app in Hx as [Hx1 Hx2].
  split_and!; [by constructor|done|]. intros y z [->|Hy]%elem_of_cons Hz; [|by apply H3]. rewrite Forall_forall in Hx2. by apply Hx2.
Qed.
Lemma not_before_app l1 l2 : not_before (l1 ++ l2) = not_before l1 ++ not_before l2.
Proof. apply filter_app. Qed.
Lemma not_before_all l : Forall (λ tsl, from <= tsl_time tsl) l → not_before l = l.
Proof. induction 1 as [|x l Hx _ IH]; [done|]. unfold not_before. rewrite filter_cons_True by done. by f_equal. Qed.
Lemma not_before_none l : Forall (λ tsl, tsl_time tsl < from) l → not_before l = [].
Proof. induction 1 as [|x l Hx _ IH]; [done|]. unfold not_before. by rewrite filter_cons_False by lia. Qed.
(** The entries that are not before a time are those from a place on. *)
Lemma not_before_drop l r :
  (∀ i x, l !! i = Some x → (i < r)%nat → tsl_time x < from) → (∀ i x, l !! i = Some x → (r ≤ i)%nat → from <= tsl_time x) →
  not_before l = drop r l.
Proof.
  intros H1 H2. rewrite <-(take_drop r l) at 1. rewrite not_before_app, not_before_none, not_before_all; [done| |].
  - apply Forall_forall. intros x [i Hi]%list_elem_of_lookup. rewrite lookup_drop in Hi. eapply H2; [exact Hi|lia].
  - apply Forall_forall. intros x [i Hi]%list_elem_of_lookup. apply lookup_take_Some in Hi as [Hi Hr]. by eapply H1.
Qed.

Lemma concat_sorted ls j l :
  StronglySorted earlier (concat ls) → ls !! j = Some l →
  StronglySorted earlier l ∧ ∀ l' x y, ls !! (1 + j)%nat = Some l' → x ∈ l → y ∈ l' → tsl_time x < tsl_time y.
Proof.
  intros Hs Hj. rewrite <-(take_drop_middle _ _ _ Hj), concat_app in Hs. apply sorted_app in Hs as (_ & Hs & _).
  cbn [concat] in Hs. apply sorted_app in Hs as (Hl & _ & Hlt). split; [exact Hl|]. intros l' x y Hl' Hx Hy.
  apply Hlt; [exact Hx|]. apply (drop_S _ l') in Hl'. cbn in Hl'. rewrite Hl'. cbn [concat]. apply elem_of_app. by left.
Qed.
(** One sector of the iteration: what is before the interval is passed over, an empty sector ends it. *)
Definition ts_step (l : list fdb_tsl) (arg : bool * A) : bool * (bool * A) :=
  let '(found, arg) := arg in
  match l with
  | [] => (true, (found, arg))
  | _ => match not_before l with
         | [] => if found : bool then (false, (true, arg)) else (false, (false, arg))
         | r => let '(stop, arg) := fold_stop timed r arg in (stop, (true, arg))
         end
  end.
Lemma steps_between ls n arg : ∀ found,
  Forall (λ l, l ≠ []) ls → StronglySorted earlier (concat ls) →
  (fold_stop ts_step (ls ++ replicate n []) (found, arg)).2.2 = (fold_stop f (between (concat ls)) arg).2.
Proof.
  intros found Hne Hs. rewrite <-between_not_before, <-timed_between;
    [|by apply not_before_sorted|unfold not_before; apply Forall_forall; by intros x [? _]%list_elem_of_filter].
  clear Hs. revert found arg. induction Hne as [|l ls Hl _ IH]; intros found arg.
  - cbn. destruct n; [done|]. cbn. done.
  - cbn [concat app fold_stop]. rewrite not_before_app, fold_stop_app. unfold ts_step at 1. destruct l as [|x l]; [done|].
    destruct (not_before (x :: l)) as [|y r]; [|destruct (fold_stop timed (y :: r) arg) as [[] arg']; [done|apply IH]].
    cbn [fold_stop]. destruct found; apply IH.
Qed.
End Order.

Section Time.
Context {S : Type} (device_table : list (fal_flash_dev S)) (vprintf : string → list farg → M S unit) (stack_sector : tsdb_sec_info)
  (p : nat) (size cap blk : Z) (good : fal_state S → Prop) (cell : fal_state S → Z → Z)
  (budget : fal_state S → nat) (erases : fal_state S → bool)
  `{HP : !PartFlash device_table vprintf p size cap blk good cell budget erases} (ssz : Z).
Hypothesis header_cap : 40 <= cap.
Hypothesis sector_size : 512 <= ssz.
#[local] Abbreviation T := (ts_state S).
#[local] Abbreviation works := (works p size good cell budget erases ssz).
#[local] Abbreviation inside := (inside size ssz).
#[local] Abbreviation base := (base ssz).
#[local] Abbreviation tsls := (tsls ssz).

(** ** The binary search *)

Lemma middle_index b lo q :
  0 <= b → b + 40 + 16 * (Z.of_nat lo + q) < 2 ^ 31 → 0 <= q →
  middle (entry_index b lo) (entry_index b lo + 16 * q) = Some (entry_index b (lo + Z.to_nat ((q + 1) / 2))).
Proof.
  intros Hb Hi Hq. unfold middle, entry_index in *. rewrite decide_True by lia. f_equal.
  replace (b + 40 + 16 * Z.of_nat lo + 16 * q - (b + 40 + 16 * Z.of_nat lo)) with (8 * q * 2) by lia.
  rewrite Z.quot_mul by lia. unfold FDB_ALIGN. change LOG_IDX_DATA_SIZE with 16.
  pose proof (Z.div_mod (q + 1) 2 ltac:(lia)). pose proof (Z.mod_pos_bound (q + 1) 2 ltac:(lia)).
  rewrite (u32_id (8 * q + 16 - 1)) by (unfold is_u32; lia).
  assert (8 * q + 16 - 1 - (8 * q + 16 - 1) `mod` 16 = 16 * ((q + 1) / 2)) as ->.
  { assert ((8 * q + 16 - 1) `mod` 16 = 8 * ((q + 1) `mod` 2) + 7) as ->; [|lia].
    symmetry. apply (Z.mod_unique _ _ ((q + 1) / 2)); lia. }
  rewrite (u32_id (16 * _)) by (unfold is_u32; lia). rewrite u32_id by (unfold is_u32; lia). lia.
Qed.
Definition times_sorted (log : list tsl_entry) : Prop :=
  ∀ i j e1 e2, log !! i = Some e1 → log !! j = Some e2 → (i < j)%nat → e_time e1 < e_time e2.
(** The place of the first entry that is not before [from]. *)
Definition first_place (log : list tsl_entry) (from : Z) (r : nat) : Prop :=
  (r ≤ length log)%nat ∧ (∀ i e, log !! i = Some e → (i < r)%nat → e_time e < from) ∧
  (∀ i e, log !! i = Some e → (r ≤ i)%nat → from <= e_time e).
Lemma search_runs m k b log from to : ∀ fuel lo q s (Q : Z → T → Prop),
  works m k s → inside b → body ssz m b log → times_sorted log → from <= to →
  0 <= q < 2 ^ Z.of_nat fuel - 1 → Z.of_nat lo + q < Z.of_nat (length log) →
  (∀ i e, log !! i = Some e → (i < lo)%nat → e_time e < from) →
  (∀ i e, log !! i = Some e → Z.of_nat lo + q < Z.of_nat i → from <= e_time e) →
  (∀ r s', works m k s' → ts_db s' = ts_db s → first_place log from r → Q (entry_index b r) s') →
  wp (search_loop device_table vprintf fuel (entry_index b lo) (entry_index b lo + 16 * q) from to) s Q.
Proof.
  induction fuel as [|fuel IH]; intros lo q s Q Hw Hin Hbody Hsort Hft Hq Hlen Hlo Hhi HQ; [cbn in Hq; lia|].
  pose proof Hin as [Hb Hbs]. destruct part_size as [_ Hsz]. pose proof Hbody as (Hok & _ & Hf & _). pose proof (total_nonneg log).
  pose proof (total_length _ Hok). unfold free_size in Hf. set (h := (q + 1) / 2).
  assert (0 <= h <= q ∧ 2 * h <= q + 1 ∧ q <= 2 * h) as (Hh & Hh1 & Hh2) by
    (unfold h; pose proof (Z.div_mod (q + 1) 2 ltac:(lia)); pose proof (Z.mod_pos_bound (q + 1) 2 ltac:(lia)); lia).
  rewrite Nat2Z.inj_succ, Z.pow_succ_r in Hq by lia.
  cbn [search_loop]. apply wp_bind. eapply wp_lift; [apply middle_index; lia|]. fold h. set (mid := (lo + Z.to_nat h)%nat).
  destruct (lookup_lt_is_Some_2 log mid ltac:(lia)) as [e He].
  apply wp_bind. eapply read_entry_runs; [exact header_cap|exact Hw|exact Hin|by apply body_entries|exact He|]. intros s1 Hw1 E1.
  cbn [tsl_time tsl_of]. change LOG_IDX_DATA_SIZE with 16.
  assert (0 <= entry_index b mid - 16 ∧ entry_index b mid + 16 < 2 ^ 31) as [Hi1 Hi2] by (unfold entry_index, mid; lia).
  case_decide as Heq.
  { apply wp_ret. rewrite to_long_id by lia. apply HQ; [done|done|]. split; [lia|]. split.
    - intros i e' Hi Hlt. rewrite <-Heq. by eapply Hsort.
    - intros i e' Hi Hle. destruct (decide (i = mid)) as [->|]; [rewrite He in Hi; injection Hi as <-; lia|].
      assert (e_time e < e_time e') by (eapply Hsort; [exact He|exact Hi|lia]). lia. }
  rewrite !to_long_id by lia. destruct (decide (e_time e < from)) as [Hlt|Hge].
  - rewrite (decide_False (P := e_time e > from)) by lia.
    replace (entry_index b mid + 16) with (entry_index b (1 + mid)) by (unfold entry_index; lia).
    assert (entry_index b lo + 16 * q = entry_index b (1 + mid) + 16 * (q - h - 1)) as -> by (unfold entry_index, mid; lia).
    assert (∀ i e', log !! i = Some e' → (i < 1 + mid)%nat → e_time e' < from) as Hlo'.
    { intros i e' Hi Hl. destruct (decide (i = mid)) as [->|]; [rewrite He in Hi; injection Hi as <-; lia|].
      assert (e_time e' < e_time e) by (eapply Hsort; [exact Hi|exact He|lia]). lia. }
    case_decide.
    + rewrite decide_False by lia. apply wp_ret. apply HQ; [done|done|]. split_and!; [lia|exact Hlo'|].
      intros i e' Hi Hl. eapply Hhi; [exact Hi|lia].
    + eapply IH; [exact Hw1|done|done|done|done|lia|lia|exact Hlo'| |].
      * intros i e' Hi Hl. eapply Hhi; [exact Hi|lia].
      * intros r s' Hw' E'. apply HQ; [done|congruence].
  - rewrite (decide_True (P := e_time e > from)) by lia.
    assert (entry_index b mid - 16 = entry_index b lo + 16 * (h - 1)) as -> by (unfold entry_index, mid; lia).
    assert (∀ i e', log !! i = Some e' → (mid ≤ i)%nat → from <= e_time e') as Hhi'.
    { intros i e' Hi Hl. destruct (decide (i = mid)) as [->|]; [rewrite He in Hi; injection Hi as <-; lia|].
      assert (e_time e < e_time e') by (eapply Hsort; [exact He|exact Hi|lia]). lia. }
    case_decide.
    + rewrite decide_False by lia. apply wp_ret. apply HQ; [done|done|]. split_and!; [lia|exact Hlo|].
      intros i e' Hi Hl. eapply Hhi'; [exact Hi|lia].
    + eapply IH; [exact Hw1|done|done|done|done|lia|lia|exact Hlo| |].
      * intros i e' Hi Hl. eapply Hhi'; [exact Hi|lia].
      * intros r s' Hw' E'. apply HQ; [done|congruence].
Qed.

(** ** The iterator *)

Context {A : Type} (f : fdb_tsl → A → bool * A) (from to : Z).
Hypothesis in_order : from <= to.
(** The callback of the walk, without its state. *)
Definition by_time_f (tsl : fdb_tsl) (arg : A) : bool * A :=
  if decide (tsl_status tsl = FDB_TSL_UNUSED) then (false, arg) else timed f from to tsl arg.
Lemma by_time_pure tsl arg (s : T) : by_time_cb from to (pure_cb f) tsl arg s = Ok (by_time_f tsl arg) s.
Proof.
  unfold by_time_cb, by_time_f, timed, pure_cb, in_range. destruct (decide (tsl_status tsl = FDB_TSL_UNUSED)) as [E|E].
  - by rewrite decide_False by (intros H; by apply H).
  - rewrite decide_True by done. destruct (decide (from <= tsl_time tsl <= to)); [rewrite decide_True by lia|rewrite decide_False by lia]; done.
Qed.
Lemma by_time_fold l arg : Forall (λ tsl, tsl_status tsl ≠ FDB_TSL_UNUSED) l → fold_stop by_time_f l arg = fold_stop (timed f from to) l arg.
Proof.
  intros H. revert arg. induction H as [|x l Hx _ IH]; intros arg; [done|]. cbn [fold_stop]. unfold by_time_f at 1.
  rewrite decide_False by done. destruct (timed f from to x arg) as [[] arg']; [done|apply IH].
Qed.

(** The times of what is read. *)
Definition same_time (tsl : fdb_tsl) (e : tsl_entry) : Prop := tsl_time tsl = e_time e.
Lemma same_sorted ts es : Forall2 same_time ts es → StronglySorted before es → StronglySorted earlier ts.
Proof.
  induction 1 as [|x e ts es Hx Hall IH]; intros Hs; [constructor|]. inversion Hs as [|? ? Hs' Hlt]; subst.
  constructor; [by apply IH|]. clear -Hx Hall Hlt. induction Hall as [|y e' ts es Hy _ IH]; [done|].
  inversion Hlt as [|? ? H1 H2]; subst. constructor; [unfold earlier, before, same_time in *; lia|by apply IH].
Qed.
Lemma reads_between m ts es : Forall2 (reads m) ts es → Forall2 (reads m) (between from to ts) (filter (λ e, from <= e_time e <= to) es).
Proof.
  induction 1 as [|x e ts es Hx _ IH]; [constructor|]. unfold between. rewrite !filter_cons. destruct Hx as (Ht & Hx).
  destruct (decide (from <= tsl_time x <= to)); [rewrite decide_True by lia|rewrite decide_False by lia]; [|exact IH].
  constructor; [by split|exact IH].
Qed.
Lemma tsls_time b log : Forall2 same_time (tsls b log) log.
Proof.
  apply Forall2_same_length_lookup. unfold TsVisit.tsls. split; [apply length_imap|]. intros i x y Hx Hy.
  rewrite list_lookup_imap, Hy in Hx. by injection Hx as <-.
Qed.
Lemma tsls_status b log : Forall entry_ok log → Forall (λ tsl, tsl_status tsl ≠ FDB_TSL_UNUSED) (tsls b log).
Proof.
  intros H. apply Forall_lookup. intros i x Hx. unfold TsVisit.tsls in Hx. rewrite list_lookup_imap in Hx.
  destruct (log !! i) as [e|] eqn:He; [|done]. injection Hx as <-. rewrite Forall_lookup in H. destruct (H _ _ He) as (_ & Hst & _).
  cbn. unfold FDB_TSL_UNUSED. lia.
Qed.
(** Whether a sector has entries that are not before [from], by its last time. *)
Lemma sector_late b log :
  StronglySorted before log → log ≠ [] → (not_before from (tsls b log) = [] ↔ end_time log < from) ∧ first_time log <= end_time log.
Proof.
  intros Hs Hne. destruct log as [|e0 log0 _] using rev_ind; [done|]. unfold end_time. rewrite last_snoc. cbn [from_option].
  assert (∀ e, e ∈ log0 → e_time e < e_time e0) as Hlast.
  { intros e He. clear -Hs He. induction log0 as [|x log0 IH]; [by apply not_elem_of_nil in He|]. cbn in Hs. inversion Hs as [|? ? Hs' Hx]; subst.
    apply elem_of_cons in He as [->|He]; [|by apply IH]. rewrite Forall_forall in Hx. apply Hx. apply elem_of_app. right. by apply list_elem_of_singleton. }
  split; [split|].
  - intros Hnb. destruct (decide (e_time e0 < from)) as [|Hge]; [done|]. exfalso.
    pose proof (tsls_time b (log0 ++ [e0])) as Ht. apply Forall2_app_inv_r in Ht as (l1 & l2 & _ & Hl2 & E).
    inversion Hl2 as [|x ? l2' ? Hx Hnil]; subst. inversion Hnil; subst. rewrite E, not_before_app in Hnb.
    apply app_eq_nil in Hnb as [_ Hnb]. unfold not_before in Hnb. rewrite filter_cons_True in Hnb; [done|]. unfold same_time in Hx. lia.
  - intros Hlt. apply not_before_none. apply Forall_lookup. intros i x Hx. pose proof (tsls_time b (log0 ++ [e0])) as Ht.
    destruct (Forall2_lookup_l _ _ _ _ _ Ht Hx) as (e & He & Hxe). unfold same_time in Hxe. rewrite Hxe.
    apply list_elem_of_lookup_2 in He. apply elem_of_app in He as [He|He%list_elem_of_singleton]; [specialize (Hlast _ He); lia|by subst].
  - destruct log0 as [|x log0]; cbn; [lia|]. specialize (Hlast x ltac:(by apply elem_of_cons; left)). lia.
Qed.
Lemma sorted_times log : StronglySorted before log → times_sorted log.
Proof.
  intros Hs i j e1 e2 H1 H2 Hij. revert i j H1 H2 Hij. induction Hs as [|x log Hs IH Hx]; intros i j H1 H2 Hij; [done|].
  destruct j as [|j]; [lia|]. cbn in H2. destruct i as [|i]; cbn in H1.
  - injection H1 as <-. rewrite Forall_lookup in Hx. by eapply Hx.
  - eapply IH; [done..|lia].
Qed.

(** The search and the walk in a sector that has entries in question. *)
Lemma sector_by_time m k b log sector d arg s (Q : bool * A → T → Prop) :
  works m k s → ts_db s = d → inside b → body ssz m b log → StronglySorted before log → not_before from (tsls b log) ≠ [] →
  tsec_status sector ≠ FDB_SECTOR_STORE_EMPTY → tsec_addr sector = b → tsec_end_idx sector = end_index b log →
  (∀ s', works m k s' → ts_db s' = d → Q (fold_stop (timed f from to) (not_before from (tsls b log)) arg) s') →
  wp (index ← search_start_tsl_addr device_table vprintf (u32 (tsec_addr sector + TSL_SECTOR_HDR_SIZE)) (tsec_end_idx sector) from to;
      d ← tget id;
      tsl_walk device_table vprintf (ts_fuel d) (get_next_tsl_addr sector) (by_time_cb from to (pure_cb f)) (u32 index) arg) s Q.
Proof.
  intros Hw E Hin Hbody Hs Hnb Hst Ha He HQ. pose proof Hin as [Hb Hbs]. destruct part_size as [_ Hsz].
  pose proof Hbody as (Hok & _ & Hf & _). pose proof (total_nonneg log). pose proof (total_length _ Hok). unfold free_size in Hf.
  assert (log ≠ []) as Hne by (intros ->; by apply Hnb). assert (0 < length log)%nat as Hlen by (destruct log; [done|cbn [length]; lia]).
  rewrite Ha, He. change TSL_SECTOR_HDR_SIZE with 40. rewrite u32_id by (unfold is_u32; lia).
  unfold search_start_tsl_addr. rewrite !to_long_id by (unfold end_index, entry_index; lia).
  replace (b + 40) with (entry_index b 0) by (unfold entry_index; lia).
  replace (end_index b log) with (entry_index b 0 + 16 * (Z.of_nat (length log) - 1)) by (unfold end_index, entry_index; lia).
  apply wp_bind. eapply search_runs; [exact Hw|exact Hin|exact Hbody|by apply sorted_times|exact in_order| |lia|lia| |].
  { change (2 ^ Z.of_nat 64) with 18446744073709551616. lia. }
  { intros i e Hi Hl. pose proof (lookup_lt_Some _ _ _ Hi). lia. }
  intros r s1 Hw1 E1 (Hr & Hlt & Hge). apply wp_bind, wp_gets. unfold id.
  assert (not_before from (tsls b log) = drop r (tsls b log)) as Hdrop.
  { pose proof (tsls_time b log) as Ht.
    apply not_before_drop; intros i x Hx Hi; destruct (Forall2_lookup_l _ _ _ _ _ Ht Hx) as (e & Hee & Hxe); unfold same_time in Hxe; rewrite Hxe;
      [by eapply Hlt|by eapply Hge]. }
  assert (r < length log)%nat as Hrl.
  { destruct (decide (r < length log)%nat); [done|]. exfalso. apply Hnb. rewrite Hdrop. apply drop_ge. unfold TsVisit.tsls. rewrite length_imap. lia. }
  rewrite u32_id by (unfold is_u32, entry_index; lia). rewrite E1, E. destruct (works_sizes _ _ _ Hw) as [_ Hms].
  eapply (walk_forward device_table vprintf p size cap blk good cell budget erases ssz header_cap by_time_f); [by apply by_time_pure|exact Hw1|exact (eq_trans E1 E)|exact Hin|exact Hbody|exact Hst|exact He| |].
  { split; [exact Hrl|]. unfold ts_fuel. rewrite <-E, Hms. change LOG_IDX_DATA_SIZE with 16.
    assert (Z.of_nat (length log) <= size / 16) by (apply Z.div_le_lower_bound; lia). lia. }
  intros s2 Hw2 E2. rewrite by_time_fold; [|apply Forall_drop, tsls_status, Hok]. rewrite <-Hdrop. by apply HQ.
Qed.

Context (max_len : Z) (rollover : bool) (lk ulk : option (M (fal_state S) unit)).
#[local] Abbreviation represents := (represents p size good cell budget erases ssz max_len rollover lk ulk).
Definition found_all (secs : list ts_sector) (i : nat) (arg : bool * A) : Prop :=
  arg.1 = true → Forall (λ tsl, from <= tsl_time tsl) (tsls (base i) (log_of secs i)).
Lemma by_time_visits m k s a older c :
  represents m k s a → log_ring a older c → (∀ i sec, a_secs a !! i = Some sec → StronglySorted before (sec_log sec)) →
  visits device_table vprintf p size good cell budget erases ssz m k (ts_db s) (length (a_secs a)) (found_all (a_secs a))
    (λ i, ts_step f from to (tsls (base i) (log_of (a_secs a) i)))
    (by_time_sector device_table vprintf from to (ts_oldest_addr (ts_db s)) (pure_cb f)).
Proof.
  intros (Hw & Hdb & Hh & Hcur & Hold & Hlast & Hopt) Hring Hsorted i old [fd arg] s1 Q Hi Hfd Hw1 E1 HQ.
  destruct (lookup_lt_is_Some_2 _ _ Hi) as [sec Hsec]. unfold found_all, log_of in *. rewrite Hsec in Hfd, HQ. cbn [from_option fst] in *.
  pose proof (Hh _ _ Hsec) as Hs. pose proof Hs as (Hhdr & Hbody & Hne). pose proof (base_inside size ssz sector_size _ _ Hdb Hi) as Hin.
  pose proof Hbody as (Hok & _). specialize (Hsorted _ _ Hsec).
  assert (∀ sector s2 (R : bool * tsdb_sec_info * (bool * A) → T → Prop), works m k s2 → ts_db s2 = ts_db s → sec_log sec ≠ [] →
    tsec_status sector ≠ FDB_SECTOR_STORE_EMPTY → tsec_addr sector = base i → tsec_end_idx sector = end_index (base i) (sec_log sec) →
    tsec_start_time sector = first_time (sec_log sec) → tsec_end_time sector = end_time (sec_log sec) →
    (∀ s', works m k s' → ts_db s' = ts_db s →
       R ((ts_step f from to (tsls (base i) (sec_log sec)) (fd, arg)).1, sector, (ts_step f from to (tsls (base i) (sec_log sec)) (fd, arg)).2) s') →
    wp (if decide (fd = true ∨ starts_here from to (base i) (ts_oldest_addr (ts_db s)) sector) then
          index ← search_start_tsl_addr device_table vprintf (u32 (tsec_addr sector + TSL_SECTOR_HDR_SIZE)) (tsec_end_idx sector) from to;
          d ← tget id;
          '(stop, arg) ← tsl_walk device_table vprintf (ts_fuel d)
              (if decide (from <= to) then get_next_tsl_addr sector else get_last_tsl_addr sector) (by_time_cb from to (pure_cb f)) (u32 index) arg;
          mret (stop, sector, (true, arg))
        else mret (false, sector, (fd, arg))) s2 R) as Hgo.
  { intros sector s2 R Hw2 E2 Hn Hst Ha He Hstart Hend HR. destruct (sector_late (base i) _ Hsorted Hn) as [Hlate Hfl].
    assert (tsls (base i) (sec_log sec) ≠ []) as Htn by (destruct (sec_log sec); [done|]; unfold TsVisit.tsls; cbn; done).
    destruct (not_before from (tsls (base i) (sec_log sec))) as [|x r] eqn:Enb.
    - assert (end_time (sec_log sec) < from) as Hlt by (by apply Hlate).
      destruct fd.
      { exfalso. specialize (Hfd eq_refl). rewrite not_before_all in Enb by exact Hfd. by apply Htn. }
      rewrite decide_False; [|intros [?|[[_ [[_ H]|H]]|[H _]]]; [done|lia|lia|lia]]. apply wp_ret.
      unfold ts_step in HR. rewrite Enb in HR. destruct (tsls (base i) (sec_log sec)); [done|]. by apply HR.
    - rewrite decide_True; [|right; left; split; [exact in_order|right]; rewrite Hend; destruct (decide (end_time (sec_log sec) < from)) as [H|]; [by apply Hlate in H|lia]].
      rewrite decide_True by exact in_order.
      assert (wp (index ← search_start_tsl_addr device_table vprintf (u32 (tsec_addr sector + TSL_SECTOR_HDR_SIZE)) (tsec_end_idx sector) from to;
        d ← tget id;
        tsl_walk device_table vprintf (ts_fuel d) (get_next_tsl_addr sector) (by_time_cb from to (pure_cb f)) (u32 index) arg) s2
        (λ r s', R (r.1, sector, (true, r.2)) s')) as Hrun.
      { eapply sector_by_time; [exact Hw2|exact E2|exact Hin|exact Hbody|exact Hsorted|by rewrite Enb|exact Hst|exact Ha|exact He|].
        intros s' Hw' E'. specialize (HR s' Hw' E'). unfold ts_step in HR. rewrite Enb in HR. destruct (tsls (base i) (sec_log sec)); [done|].
        rewrite Enb. by destruct (fold_stop (timed f from to) (x :: r) arg). }
      unfold wp, mbind, M_bind in Hrun |- *. destruct (search_start_tsl_addr _ _ _ _ _ _ s2) as [y s'|]; [|done].
      unfold tget, mgets in Hrun |- *. by destruct (tsl_walk _ _ _ _ _ _ _ s') as [[? ?] ?|]. }
  apply wp_bind. destruct sec as [|log|log]; cbn [sec_log] in *.
  - eapply read_empty_runs; [exact header_cap|exact sector_size|exact Hw1|exact Hin|exact Hhdr|]. intros s2 Hw2 E2.
    unfold by_time_sector. rewrite decide_False by (by intros [_ [?|?]]). apply wp_ret. cbn in HQ. apply HQ; [done|congruence|done].
  - destruct Hne as [?|Hne]; [done|]. pose proof (ring_using _ _ _ _ _ Hring Hsec) as ->.
    unfold cur_is in Hcur. rewrite Hsec in Hcur. destruct Hcur as [Hcs Hend].
    eapply read_using_runs; [exact header_cap|exact sector_size|exact Hw1|exact Hin|exact Hhdr|by apply first_time_ok|]. intros s2 Hw2 E2.
    unfold by_time_sector. rewrite decide_True by (split; [done|by left]). apply wp_bind. unfold in_memory. rewrite decide_True by done.
    apply wp_gets. rewrite E2, E1, Hcs. apply Hgo; try done; [congruence|]. intros s' Hw' E'. by apply HQ.
  - destruct Hne as [?|Hne]; [done|].
    eapply read_full_runs; [exact header_cap|exact sector_size|exact Hw1|exact Hin|exact Hs|]. intros s2 Hw2 E2.
    unfold by_time_sector. rewrite decide_True by (split; [done|by right]). apply wp_bind. unfold in_memory. rewrite decide_False by done.
    apply wp_ret. apply Hgo; try done; [congruence|]. intros s' Hw' E'. by apply HQ.
Qed.

(** ** The order of the ring *)

Definition ring_tsls (a : ts_abs) : list (list fdb_tsl) :=
  (λ i, tsls (base i) (log_of (a_secs a) i)) <$> around (length (a_secs a)) (a_old a).
Lemma ring_logs a : entries a = concat ((λ i, log_of (a_secs a) i) <$> around (length (a_secs a)) (a_old a)).
Proof. apply around_logs. Qed.
Lemma ring_time a : Forall2 same_time (concat (ring_tsls a)) (entries a).
Proof.
  rewrite ring_logs. unfold ring_tsls. induction (around _ _) as [|i l IH]; [constructor|]. cbn. by apply Forall2_app; [apply tsls_time|].
Qed.
Lemma ring_reads m a : ts_holds ssz m (a_secs a) → Forall2 (reads m) (concat (ring_tsls a)) (entries a).
Proof.
  intros Hh. rewrite ring_logs. unfold ring_tsls. induction (around _ _) as [|i l IH]; [constructor|]. cbn. apply Forall2_app; [|exact IH].
  unfold log_of. destruct (a_secs a !! i) as [sec|] eqn:Hi; [|constructor]. apply tsls_read, (Hh _ _ Hi).
Qed.
(** Sectors with entries, and empty ones behind them. *)
Lemma ring_split m a older c : ts_holds ssz m (a_secs a) → log_ring a older c → ∃ ls n, ring_tsls a = ls ++ replicate n [] ∧ Forall (λ l, l ≠ []) ls.
Proof.
  intros Hh Hring. pose proof Hring as (Hsh & Hfull & Hemp & _). destruct (ring_order _ _ _ Hsh) as [n E].
  destruct (ring_bounds _ _ _ Hring) as [_ Hob].
  assert (Forall2 (λ l sec, l = [] ↔ sec_log sec = []) (ring_tsls a) (drop (a_old a) (a_secs a) ++ take (a_old a) (a_secs a))) as Hall.
  { unfold ring_tsls, around. rewrite fmap_app, fmap_drop, fmap_take.
    assert (Forall2 (λ l sec, l = [] ↔ sec_log sec = []) ((λ i, tsls (base i) (log_of (a_secs a) i)) <$> seq 0 (length (a_secs a))) (a_secs a)) as H.
    { apply Forall2_same_length_lookup. split; [by rewrite length_fmap, length_seq|]. intros i l sec Hl Hs.
      rewrite list_lookup_fmap, lookup_seq_lt in Hl by (by eapply lookup_lt_Some). injection Hl as <-. unfold log_of. rewrite Hs. cbn.
      unfold TsVisit.tsls. destruct (sec_log sec); cbn; by split. }
    apply Forall2_app; [by apply Forall2_drop|by apply Forall2_take]. }
  assert (∀ i sec, a_secs a !! i = Some sec → sec = SEmpty ∨ sec_log sec ≠ []) as Hne by (intros i sec Hi; apply (Hh _ _ Hi)).
  assert (∀ sec, sec ∈ drop (a_old a) (a_secs a) ++ take (a_old a) (a_secs a) → sec = SEmpty ∨ sec_log sec ≠ []) as Hne'.
  { intros sec [Hs|Hs]%elem_of_app; apply list_elem_of_lookup in Hs as [i Hi]; [rewrite lookup_drop in Hi|apply lookup_take_Some in Hi as [Hi _]]; by eapply Hne. }
  rewrite E in Hall, Hne'. apply Forall2_app_inv_r in Hall as (ls & rest & Hls & Hrest & ->).
  inversion Hrest as [|lc ? rest' ? Hc Hr]; subst.
  assert (Forall (λ l, l ≠ []) ls) as Hlsne.
  { apply Forall_lookup. intros i l Hl. destruct (Forall2_lookup_l _ _ _ _ _ Hls Hl) as (sec & Hs & Heq). rewrite Heq.
    rewrite Forall_lookup in Hfull. specialize (Hfull _ _ Hs). destruct (Hne' sec) as [->|]; [|done|done].
    apply elem_of_app. left. by eapply list_elem_of_lookup_2. }
  assert (∀ n rest, Forall2 (λ l sec, l = [] ↔ sec_log sec = []) rest (replicate n SEmpty) → rest = replicate n ([] : list fdb_tsl)) as Hrep.
  { clear. induction n as [|n IH]; intros rest H; inversion H as [|? ? ? ? Hx Hr]; subst; [done|]. cbn. f_equal; [by apply Hx|by apply IH]. }
  apply Hrep in Hr as ->. destruct (Hne' c) as [->|Hcne]; [apply elem_of_app; right; by apply elem_of_cons; left| |].
  - exists ls, (1 + n)%nat. split; [|done]. cbn. do 2 f_equal. by apply Hc.
  - exists (ls ++ [lc]), n. split; [by rewrite <-app_assoc|]. apply Forall_app. split; [done|]. constructor; [|done]. by rewrite Hc.
Qed.

Lemma by_time_runs m k s a older c arg :
  calm p size good cell budget erases ssz lk → calm p size good cell budget erases ssz ulk → represents m k s a → log_ring a older c →
  wp (fdb_tsl_iter_by_time device_table vprintf stack_sector from to (Some (pure_cb f)) arg) s (λ r s',
    represents m k s' a ∧ ∃ ts, Forall2 (reads m) ts (filter (λ e, from <= e_time e <= to) (entries a)) ∧ r = (fold_stop f ts arg).2).
Proof.
  intros Hlk Hulk Hr Hring. pose proof Hr as (Hw & Hdb & Hh & Hcur & Hold & Hlast & Hopt). pose proof Hopt as (Hinit & _ & _ & Hl & Hu).
  destruct (ring_bounds _ _ _ Hring) as [_ Hob]. pose proof Hring as (Hsh & _ & _ & H2 & Hsort & _).
  rewrite <-(ring_entries _ _ _ Hsh) in Hsort. pose proof (same_sorted _ _ (ring_time a) Hsort) as Hsorted.
  unfold fdb_tsl_iter_by_time. apply wp_bind. unfold warn_init. apply wp_bind, wp_gets. rewrite Hinit. apply wp_ret.
  apply wp_bind, wp_gets. unfold id. rewrite !(decide_True (P := from <= to)) by exact in_order.
  apply wp_bind. eapply ts_lock_runs; [exact Hw|by rewrite Hl|]. intros s1 Hw1 E1. apply wp_bind.
  set (n := length (a_secs a)) in *. destruct (around n (a_old a)) as [|i rest] eqn:Har.
  { pose proof (around_length n (a_old a) Hob) as Hl0. rewrite Har in Hl0. cbn in Hl0. lia. }
  assert (i = a_old a) as ->.
  { pose proof (around_lookup n (a_old a) 0 Hob ltac:(lia)) as H0. rewrite Har in H0. injection H0 as ->. case_decide; lia. }
  pose proof (around_length n (a_old a) Hob) as Hlen. rewrite Har in Hlen.
  pose proof (around_chained n (a_old a) Hob) as Hch. rewrite Har in Hch.
  assert (ring_tsls a = (λ i, tsls (base i) (log_of (a_secs a) i)) <$> a_old a :: rest) as Hrt by (unfold ring_tsls; fold n; by rewrite Har).
  assert (∀ j x, (a_old a :: rest) !! j = Some x → ring_tsls a !! j = Some (tsls (base x) (log_of (a_secs a) x))) as Hlook
    by (intros j x Hx; by rewrite Hrt, list_lookup_fmap, Hx).
  destruct (works_sizes _ _ _ Hw) as [Hss Hms].
  replace 0 with (Z.of_nat 0 * ssz) at 1 by lia. pose proof Hold as Hold'. rewrite Hold at 2.
  eapply (sectors_runs device_table vprintf p size cap blk good cell budget erases ssz sector_size m k (ts_db s) n (forward n) _ (found_all (a_secs a))
    (λ i, ts_step f from to (tsls (base i) (log_of (a_secs a) i)))); [|by eapply forward_leads| |intros j x y arg' Hx Hy|exact Hw1|exact E1|exact Hdb|exact Hch|by rewrite Hlen| |].
  - eapply by_time_visits; [exact Hr|exact Hring|]. intros i sec Hi.
    assert (StronglySorted before (log_of (a_secs a) i)) as H; [|by unfold log_of in H; rewrite Hi in H].
    pose proof (lookup_lt_Some _ _ _ Hi) as Hlt.
    assert (i ∈ around n (a_old a)) as Hin.
    { unfold around. assert (i ∈ seq 0 n) as Hs by (apply elem_of_seq; lia). rewrite <-(take_drop (a_old a) (seq 0 n)) in Hs.
      apply elem_of_app in Hs as [Hs|Hs]; apply elem_of_app; [by right|by left]. }
    apply list_elem_of_lookup in Hin as [j Hj]. rewrite ring_logs in Hsort. fold n in Hsort.
    assert (((λ i, log_of (a_secs a) i) <$> around n (a_old a)) !! j = Some (log_of (a_secs a) i)) as Hjl by (by rewrite list_lookup_fmap, Hj).
    rewrite <-(take_drop_middle _ _ _ Hjl), concat_app in Hsort. apply sorted_drop in Hsort. cbn [concat] in Hsort. clear -Hsort.
    induction (log_of (a_secs a) i) as [|x l IH]; [constructor|]. cbn in Hsort. inversion Hsort as [|? ? Hs Hx]; subst.
    constructor; [by apply IH|]. by apply Forall_app in Hx as [Hx _].
  - by intros ?.
  - pose proof (Hlook _ _ Hx) as Hx'. pose proof (Hlook _ _ Hy) as Hy'. destruct (concat_sorted _ _ _ Hsorted Hx') as [_ Hnext].
    destruct arg' as [fd arg']. intros HP0 Hstop. unfold found_all in *. cbn [fst] in HP0. intros Hfd.
    assert (∃ z, z ∈ tsls (base x) (log_of (a_secs a) x) ∧ from <= tsl_time z) as (z & Hz & Hzt).
    { unfold ts_step in Hfd, Hstop. destruct (tsls (base x) (log_of (a_secs a) x)) as [|z0 l] eqn:Ez; [done|].
      destruct (not_before from (z0 :: l)) as [|z r] eqn:Enb.
      - destruct fd; [|done]. specialize (HP0 eq_refl). inversion HP0; subst. exists z0. split; [by apply elem_of_cons; left|done].
      - exists z. assert (z ∈ not_before from (z0 :: l)) as Hin by (rewrite Enb; by apply elem_of_cons; left).
        by apply list_elem_of_filter in Hin as [? ?]. }
    apply Forall_forall. intros w Hwin. specialize (Hnext _ z w Hy' Hz Hwin). lia.
  - rewrite Hlen. unfold ts_sector_fuel. rewrite Hss, Hms, <-Hdb. fold n.
    rewrite Z.div_mul by lia. lia.
  - intros s2 Hw2 E2. 
    assert (∀ l arg, fold_stop (λ i, ts_step f from to (tsls (base i) (log_of (a_secs a) i))) l arg =
      fold_stop (ts_step f from to) ((λ i, tsls (base i) (log_of (a_secs a) i)) <$> l) arg) as Hfm.
    { induction l as [|i l IH]; intros arg'; [done|]. cbn. destruct (ts_step f from to _ arg') as [[] ?]; [done|apply IH]. }
    rewrite Hfm, <-Hrt. destruct (ring_split m a older c Hh Hring) as (ls & n' & Els & Hne).
    pose proof (steps_between f from to ls n' arg false Hne) as Hsteps.
    assert (concat (ring_tsls a) = concat ls) as Hcc.
    { rewrite Els, concat_app. assert (concat (replicate n' ([] : list fdb_tsl)) = []) as -> by (clear; by induction n'). by rewrite app_nil_r. }
    rewrite Els. destruct (fold_stop (ts_step f from to) (ls ++ replicate n' []) (false, arg)) as [st [fd r]]. cbn [fst snd] in *.
    apply wp_bind. eapply ts_unlock_runs; [exact Hw2|by rewrite E2, Hu|]. intros s3 Hw3 E3. apply wp_ret.
    split; [eapply represents_db; [exact Hr|exact Hw3|congruence]|].
    exists (between from to (concat (ring_tsls a))). split; [by apply reads_between, ring_reads|]. rewrite Hcc. apply Hsteps. by rewrite <-Hcc.
Qed.
End Time.
