(* ===== verification/TsCut.v ===== *)
(** * An append that loses its power

    The bytes an append to the current sector programs, in their order: with [k] bytes of power left
    the flash takes the first [k].  The index is marked before anything else and marked again when
    all of the log is there, so that every log that reads as written is whole; one that is
    not leaves a torn index, which the next start counts as a log of the greatest length. *)
From S2P Require Import Prelude W25qxx W25qxxProps Fal FdbUtils FdbProps KvData KvRead KvFlash KvNode KvBurn KvPower TsData TsDb TsIter TsFlash TsLog TsSector TsAppend TsSpec TsRefine TsVisit TsLoad.

(** The programmings of a log [e] with its index at [ia] and its data at [la]. *)
Definition tsl_seq (ia la : Z) (e : tsl_entry) : list (Z * Z) :=
  place ia [status_byte FDB_TSL_PRE_WRITE] ++ place (ia + 4) (log_idx_tail (e_time e) (e_len e) la) ++
  place la (e_data e) ++ place ia [status_byte FDB_TSL_WRITE].
Definition in_tsl (ia la : Z) (e : tsl_entry) (x : Z) : Prop := ia <= x < ia + 16 ∨ la <= x < la + e_len e.

Lemma tsl_seq_length ia la e : length (tsl_seq ia la e) = (14 + length (e_data e))%nat.
Proof. unfold tsl_seq. rewrite !length_app, !place_length, log_idx_tail_length. cbn [length]. lia. Qed.
Lemma tsl_seq_inside ia la e : Forall (λ ab, in_tsl ia la e ab.1) (tsl_seq ia la e).
Proof.
  unfold tsl_seq, in_tsl, e_len. repeat apply Forall_app_2; apply place_range; intros x b; rewrite ?log_idx_tail_length; cbn [length fst]; lia.
Qed.
Lemma tsl_seq_outside k ia la e m x : ¬ in_tsl ia la e x → burn (take k (tsl_seq ia la e)) m x = m x.
Proof.
  intros Hx. apply burn_outside, Forall_take. eapply Forall_impl; [apply tsl_seq_inside|]. intros ab Hab E. apply Hx. by rewrite <-E.
Qed.
(** Some of them, but not all, leave the first mark. *)
Lemma tsl_seq_torn k ia la e m :
  m ia = 0xFF → (0 < k < length (tsl_seq ia la e))%nat → ia + 16 <= la →
  burn (take k (tsl_seq ia la e)) m ia = status_byte FDB_TSL_PRE_WRITE.
Proof.
  intros Hm Hk Hla. set (rest := place (ia + 4) (log_idx_tail (e_time e) (e_len e) la) ++ place la (e_data e)).
  assert (Forall (λ ab : Z * Z, ab.1 ≠ ia) rest) as Hrest by (apply Forall_app_2; apply place_outside; lia).
  assert (tsl_seq ia la e = (ia, status_byte FDB_TSL_PRE_WRITE) :: rest ++ [(ia, status_byte FDB_TSL_WRITE)]) as E
    by (unfold tsl_seq, rest; by rewrite <-app_assoc).
  rewrite E in *. cbn [length] in Hk. rewrite length_app in Hk. cbn [length] in Hk.
  destruct k as [|k]; [lia|]. cbn [take]. rewrite take_app_le by lia.
  change (burn (?x :: ?l) m ia) with (burn l (burn1 m x) ia). rewrite burn_outside by (by apply Forall_take).
  unfold burn1. cbn [fst snd]. rewrite decide_True, Hm by done. apply land_low_byte, status_byte_u8.
Qed.

Section Cut.
Context {S : Type} (device_table : list (fal_flash_dev S)) (partition_table_def : list fal_partition)
  (vprintf : string → list farg → M S unit) (file_name : string) (stack_sector : tsdb_sec_info)
  (p : nat) (size cap blk : Z) (good : fal_state S → Prop) (cell : fal_state S → Z → Z)
  (budget : fal_state S → nat) (erases : fal_state S → bool)
  `{HP : !PartFlash device_table vprintf p size cap blk good cell budget erases} (ssz : Z).
Hypothesis header_cap : 40 <= cap.
Hypothesis sector_size : 512 <= ssz.
#[local] Abbreviation T := (ts_state S).
#[local] Abbreviation works := (works p size good cell budget erases ssz).
#[local] Abbreviation inside := (inside size ssz).
#[local] Abbreviation base := (base ssz).

(** ** The programmings an append sends *)

(** [seq] was sent to a flash that held [m] and had [k] bytes of power. *)
Definition ts_issued (m : Z → Z) (k : nat) (seq : list (Z * Z)) (s : T) : Prop := works (burn (take k seq) m) (k - length seq) s.
Lemma ts_issue m k seq a data s :
  works (programmed a (take (k - length seq) data) (burn (take k seq) m)) (k - length seq - length data) s →
  ts_issued m k (seq ++ place a data) s.
Proof.
  intros H. unfold ts_issued. rewrite length_app, place_length, take_app, burn_app, place_take, Nat.sub_add_distr.
  eapply works_ext; [exact H|]. intros x. symmetry. apply burn_place.
Qed.
Lemma ts_issue_write m k seq a data n s (Q : Z → T → Prop) :
  ts_issued m k seq s → n = Z.of_nat (length data) → 0 <= a → 0 < n → a + n <= size →
  (∀ s', ts_issued m k (seq ++ place a data) s' → ts_db s' = ts_db s → Q FDB_NO_ERR s') →
  wp (ts_write device_table vprintf a data n) s Q.
Proof.
  intros [Hs He] -> Ha Hn Hb HQ. apply wp_bind, wp_gets, wp_ts_on_fal.
  eapply (low_write _ _ _ _ _ (as_kv s)); [exact Hs|lia..|]. rewrite Nat2Z.id, firstn_all. intros f s' Hmv Hs'.
  apply HQ; [|done]. apply ts_issue. split; [exact Hs'|]. destruct Hmv as (_ & _ & E). cbn in *. congruence.
Qed.
Lemma ts_issue_status m k seq a num idx s (Q : Z → T → Prop) :
  ts_issued m k seq s → 0 <= a → a + 1 <= size → (0 < idx < num)%nat → (num ≤ 8)%nat →
  (∀ s', ts_issued m k (seq ++ place a [status_byte idx]) s' → ts_db s' = ts_db s → Q FDB_NO_ERR s') →
  wp (ts_write_status device_table vprintf a num idx) s Q.
Proof.
  intros [Hs He] Ha Hb Hi Hnum HQ. apply wp_bind, wp_gets, wp_bind, wp_ts_on_fal.
  eapply (low_status _ _ _ _ _ _ (as_kv s)); [exact Hs|lia..|]. intros f s' Hmv Hs'. apply wp_ret.
  apply HQ; [|done]. apply ts_issue. split; [exact Hs'|]. destruct Hmv as (_ & _ & E). cbn in *. congruence.
Qed.
Lemma write_tsl_issues m k b log e blob s (Q : Z → T → Prop) :
  works m k s → inside b → 0 <= free_size ssz log → tsec_empty_idx (ts_cur_sec (ts_db s)) = entry_index b (length log) →
  tsec_empty_data (ts_cur_sec (ts_db s)) = b + ssz - log_total log → 0 < e_len e →
  blob_size blob = e_len e → 16 + e_len e <= free_size ssz log →
  (∀ s', ts_issued m k (tsl_seq (entry_index b (length log)) (b + ssz - log_total log - e_len e) e) s' → ts_db s' = ts_db s → Q FDB_NO_ERR s') →
  wp (write_tsl device_table vprintf blob (e_data e) (e_time e)) s Q.
Proof.
  intros Hw [Hb Hbs] Hf Hei Hed Hpos Hbl Hfit HQ. destruct part_size as [_ Hsz]. pose proof (total_nonneg log).
  unfold write_tsl. apply wp_bind, wp_gets. rewrite Hei, Hed, Hbl. cbv zeta. set (ia := entry_index b (length log)) in *.
  assert (ia = b + 40 + 16 * Z.of_nat (length log)) as Hia by done. unfold free_size in *.
  rewrite wg_align by (unfold is_u32; lia). rewrite (u32_id (b + _ - _ - _)) by (unfold is_u32; lia).
  set (la := b + ssz - log_total log - e_len e) in *.
  rewrite u32_id by (unfold is_u32, LOG_IDX_TS_OFFSET; lia). change LOG_IDX_TS_OFFSET with 4.
  apply wp_checked. eapply (ts_issue_status m k []); [unfold ts_issued; rewrite take_nil; cbn; by rewrite Nat.sub_0_r|lia|lia| | |];
    [unfold FDB_TSL_PRE_WRITE, FDB_TSL_STATUS_NUM; lia|unfold FDB_TSL_STATUS_NUM; lia|]. intros s1 H1 E1. split; [done|].
  apply wp_checked. eapply ts_issue_write; [exact H1|by rewrite log_idx_tail_length|lia|done|change (Z.of_nat sizeof_log_idx_data - 4) with 12; lia|].
  intros s2 H2 E2. split; [done|].
  apply wp_checked. eapply ts_issue_write; [exact H2|done|lia|lia|lia|]. intros s3 H3 E3. split; [done|].
  eapply ts_issue_status; [exact H3|lia|lia|unfold FDB_TSL_WRITE, FDB_TSL_STATUS_NUM; lia|unfold FDB_TSL_STATUS_NUM; lia|].
  intros s4 H4 E4. apply HQ; [|congruence]. rewrite app_nil_l, <-!app_assoc in H4. exact H4.
Qed.

(** ** What is left *)

(** A sector in use behind whose log the index of [len] bytes of data is marked but not finished. *)
Definition torn (m : Z → Z) (b : Z) (log : list tsl_entry) (len : Z) : Prop :=
  mem_at m b (sec_header b (SUsing log)) ∧ log ≠ [] ∧ entries_in ssz m b log ∧
  m (entry_index b (length log)) = status_byte FDB_TSL_PRE_WRITE ∧ 0 < len ∧ 16 + len <= free_size ssz log ∧
  erased_at m (entry_index b (1 + length log)) (free_size ssz log - 16 - len).
(** The walk takes the torn index for a log of [max_len] bytes. *)
Definition torn_info (b max_len : Z) (log : list tsl_entry) : tsdb_sec_info :=
  mk_tsec true FDB_SECTOR_STORE_USING b TSL_MAGIC_WORD (first_time log) (end_time log) (entry_index b (length log))
    FDB_TSL_UNUSED FDB_TSL_UNUSED (if decide (free_size ssz log > 16 + max_len) then free_size ssz log - 16 - max_len else 0)
    (entry_index b (1 + length log)) (u32 (b + ssz - log_total log - max_len)).
Lemma torn_index_runs m k b log len max_len fuel s (Q : Z * tsdb_sec_info → T → Prop) :
  works m k s → inside b → torn m b log len → ts_max_len (ts_db s) = max_len → len <= max_len → max_len < ssz →
  (∀ r s', works m k s' → ts_db s' = ts_db s → Q (r, torn_info b max_len log) s') →
  wp (sector_tsls device_table vprintf (2 + fuel) (entry_index b (length log)) (using_info ssz b log)) s Q.
Proof.
  intros Hw [Hb Hbs] (_ & Hne & (Hok & _ & Hf) & Hmark & Hpos & Hfit & Her) Hml Hlen Hmax HQ. destruct part_size as [_ Hsz].
  pose proof (total_nonneg log). pose proof (total_length _ Hok). unfold free_size in *. cbn [Nat.add sector_tsls]. apply wp_bind.
  eapply (read_unwritten_runs header_cap m k _ FDB_TSL_PRE_WRITE); [exact Hw|exact Hmark|unfold FDB_TSL_PRE_WRITE; lia|unfold entry_index; lia..|].
  intros s1 Hw1 E1. rewrite Hml. cbn [tsl_status tsl_time tsl_log_len]. rewrite decide_False by done.
  rewrite (decide_False (P := FDB_TSL_PRE_WRITE ≠ FDB_TSL_PRE_WRITE)) by auto.
  rewrite wg_align by (unfold is_u32; lia). change LOG_IDX_DATA_SIZE with 16.
  cbn [tsec_remain tsec_empty_idx tsec_empty_data tsec_end_time set_tsec_end using_info]. unfold free_size. rewrite (u32_id (16 + max_len)) by (unfold is_u32; lia).
  rewrite (u32_id (entry_index _ _ + 16)) by (unfold is_u32, entry_index; lia).
  assert (entry_index b (length log) + 16 = entry_index b (1 + length log)) as -> by (unfold entry_index; lia).
  unfold torn_info in HQ. unfold free_size in HQ. case_decide as Hroom.
  - apply wp_bind. eapply (read_free_runs header_cap m k); [exact Hw1|apply Her; lia|unfold entry_index; lia..|].
    intros s2 Hw2 E2. cbn [tsl_status]. rewrite decide_True by done. apply wp_ret.
    assert (ssz - 40 - 16 * Z.of_nat (length log) - log_total log - (16 + max_len) = ssz - 40 - 16 * Z.of_nat (length log) - log_total log - 16 - max_len) as -> by lia.
    apply HQ; [done|congruence].
  - apply wp_bind. eapply ts_info_runs; [exact Hw1|]. intros s2 Hw2 E2. apply wp_ret. apply HQ; [done|congruence].
Qed.
Lemma read_torn_runs m k b log len max_len old (tr : bool) s (Q : Z * tsdb_sec_info → T → Prop) :
  works m k s → inside b → torn m b log len → ts_max_len (ts_db s) = max_len → len <= max_len → max_len < ssz →
  (∀ r s', works m k s' → ts_db s' = ts_db s →
     Q (r, if tr then torn_info b max_len log else using_header ssz b (first_time log) (tsec_end_time old) (tsec_end_idx old)) s') →
  wp (ts_read_sector_info device_table vprintf b old tr) s Q.
Proof.
  intros Hw Hin Ht Hml Hlen Hmax HQ. pose proof Ht as (Hhdr & Hne & Hen & _ & Hpos & Hfit & _). pose proof Hen as (Hok & _ & Hf).
  destruct tr; [|by eapply read_using_runs; [..|by apply first_time_ok|intros s' Hw' E'; apply HQ]].
  pose proof Hin as [Hb Hbs]. destruct (works_sizes _ _ _ Hw) as [_ Hms]. pose proof (total_nonneg log).
  eapply header_runs; [exact header_cap|exact sector_size|exact Hw|exact Hin|exact Hhdr|apply time_bytes_length|done|done|unfold FDB_SECTOR_STORE_USING; lia|by left|].
  intros s' Hw' E'. rewrite decide_True by done. unfold header_info. rewrite decide_False by done.
  rewrite time_at_bytes by (by apply first_time_ok).
  assert (∃ fuel, ts_fuel (ts_db s) = (length log + (2 + fuel))%nat) as [fuel ->].
  { exists (ts_fuel (ts_db s) - length log - 2)%nat. unfold ts_fuel. rewrite Hms. change LOG_IDX_DATA_SIZE with 16. unfold free_size in *.
    assert (Z.of_nat (length log) <= size / 16) by (apply Z.div_le_lower_bound; lia). lia. }
  replace (b + 40) with (entry_index b (length (@nil tsl_entry))) at 1 by (unfold entry_index; cbn; lia).
  pose proof (sector_tsls_prefix (device_table := device_table) (vprintf := vprintf) (ssz := ssz) header_cap m k b (tsec_end_time old) (tsec_end_idx old) log (2 + fuel) [] s' Q) as Hrun.
  rewrite app_nil_l in Hrun. apply Hrun; [exact Hw'|exact Hin|exact Hen|lia|]. intros s2 Hw2 E2.
  assert (ts_known ssz b (first_time log) (tsec_end_time old) (tsec_end_idx old) log = using_info ssz b log) as -> by (by destruct log).
  eapply torn_index_runs; [exact Hw2|exact Hin|exact Ht|by rewrite E2, E'|done|done|]. intros r s3 Hw3 E3. apply HQ; [done|congruence].
Qed.

(** ** An append to the current sector *)

Context (max_len : Z) (rollover : bool) (lk ulk : option (M (fal_state S) unit)).
#[local] Abbreviation represents := (represents p size good cell budget erases ssz max_len rollover lk ulk).
#[local] Abbreviation in_db := (in_db size ssz).

(** A log that is accepted and has room goes to [append_tsl] at once. *)
Lemma room_runs m k s a log t data blob (Q : Z → T → Prop) :
  represents m k s a → a_secs a !! a_cur a = Some (SUsing log) → a_last a < t → Z.of_nat (length data) <= max_len →
  16 + Z.of_nat (length data) <= free_size ssz log → blob_size blob = Z.of_nat (length data) →
  wp (append_tsl device_table vprintf blob data t) s Q → wp (tsl_append device_table vprintf blob data (Some t)) s Q.
Proof.
  intros (Hw & Hdb & Hh & Hcur & Hold & Hlast & Hopt) Hc Hlt Hlen Hfit Hbl HQ. destruct part_size as [_ Hsz].
  pose proof (lookup_lt_Some _ _ _ Hc) as Hl. pose proof (base_inside size ssz sector_size _ _ Hdb Hl) as [Hb Hbs].
  pose proof (Hh _ _ Hc) as (_ & (Hok & _) & _). cbn [sec_log] in Hok. pose proof (total_nonneg log). unfold free_size in Hfit.
  unfold cur_is in Hcur. rewrite Hc in Hcur. destruct Hcur as [Hcs _].
  unfold tsl_append. apply wp_bind, wp_ret, wp_bind, wp_gets. unfold id. pose proof Hopt as (_ & -> & _). rewrite Hbl, Hlast.
  rewrite (decide_False (P := Z.of_nat _ > _)), (decide_False (P := t <= _)) by lia.
  apply wp_bind. unfold ts_update_sec_status. apply wp_bind, wp_gets. rewrite Hcs. cbn [tsec_status tsec_remain using_info].
  rewrite Hbl, wg_align by (unfold is_u32; lia). change LOG_IDX_DATA_SIZE with 16. rewrite u32_id by (unfold is_u32; lia).
  rewrite decide_False by (unfold free_size; lia). rewrite decide_False by done. apply wp_checked, wp_ret. split; [done|].
  apply wp_bind, wp_gets. rewrite Hcs. cbn [tsec_status using_info]. rewrite decide_False by done. apply wp_ret.
  by rewrite decide_False by auto.
Qed.

Section Interrupted.
Context (m : Z → Z) (k : nat) (a : ts_abs) (log : list tsl_entry) (e : tsl_entry).
Hypothesis Hdb : in_db (a_secs a).
Hypothesis Hholds : ts_holds ssz m (a_secs a).
Hypothesis Hc : a_secs a !! a_cur a = Some (SUsing log).
Hypothesis He : entry_ok e.
Hypothesis Hfit : 16 + e_len e <= free_size ssz log.
#[local] Abbreviation b := (base (a_cur a)).
(** The bytes after [k] of the programmings. *)
Definition cut_mem : Z → Z :=
  burn (take k (tsl_seq (entry_index b (length log)) (b + ssz - log_total log - e_len e) e)) m.

Lemma cut_inside : inside b.
Proof. eapply base_inside; [exact sector_size|exact Hdb|by eapply lookup_lt_Some]. Qed.
Lemma cut_sector : mem_at m b (sec_header b (SUsing log)) ∧ log ≠ [] ∧ body ssz m b log.
Proof. destruct (Hholds _ _ Hc) as (Hm & Hb & [?|Hne]); done. Qed.
Lemma cut_outside x : ¬ in_tsl (entry_index b (length log)) (b + ssz - log_total log - e_len e) e x → cut_mem x = m x.
Proof. apply tsl_seq_outside. Qed.
Lemma cut_nothing : k = 0%nat → ∀ x, cut_mem x = m x.
Proof. unfold cut_mem. by intros ->. Qed.
(** The other sectors stay, and so do the header and the entries of the current one. *)
Lemma ts_cut_others i sec : i ≠ a_cur a → a_secs a !! i = Some sec → sector_is ssz cut_mem (base i) sec.
Proof.
  intros Hi Hsec. destruct cut_sector as (_ & _ & (_ & _ & Hf & _)). pose proof (total_nonneg log). destruct He as (_ & _ & _ & Hpos). unfold free_size in *.
  eapply sector_ext; [lia| |by apply Hholds]. intros x Hx. apply cut_outside. unfold in_tsl, entry_index, TsRefine.base in *.
  destruct (decide (i < a_cur a)%nat); nia.
Qed.
Lemma cut_entries : mem_at cut_mem b (sec_header b (SUsing log)) ∧ entries_in ssz cut_mem b log.
Proof.
  destruct cut_sector as (Hm & Hne & (Hok & Hen & Hf & Her)). pose proof (total_nonneg log). destruct He as (_ & _ & _ & Hpos).
  assert (∀ o bs, mem_at m o bs → o + Z.of_nat (length bs) <= entry_index b (length log) ∨
    entry_index b (length log) + 16 <= o ∧ o + Z.of_nat (length bs) <= b + ssz - log_total log - e_len e ∨ b + ssz - log_total log <= o → mem_at cut_mem o bs) as Hkeep.
  { intros o bs Hbs Hr. eapply mem_at_ext; [|exact Hbs]. intros x Hx. symmetry. apply cut_outside. unfold in_tsl, free_size, entry_index in *. lia. }
  split; [apply Hkeep; [done|rewrite sec_header_length; unfold entry_index; lia]|]. split; [done|]. split; [|done].
  intros i e' Hi. destruct (Hen _ _ Hi) as [H1 H2]. pose proof (lookup_lt_Some _ _ _ Hi).
  destruct (log_space _ _ _ _ Hok Hi Hf) as (Ht & Hn & Hp & Hs). pose proof (total_split _ _ _ Hi).
  pose proof (total_nonneg (drop (1 + i) log)). unfold entry_at, entry_log in *.
  split; (apply Hkeep; [done|]); rewrite ?entry_bytes_length; unfold entry_index, e_len in *; lia.
Qed.
Lemma cut_torn : (0 < k < 14 + length (e_data e))%nat → torn cut_mem b log (e_len e).
Proof.
  intros Hk. destruct cut_sector as (_ & Hne & (Hok & Hen & Hf & Her)). destruct cut_entries as [Hm Hent]. destruct He as (_ & _ & _ & Hpos).
  pose proof (total_nonneg log). unfold free_size in *. split_and!; try done.
  - apply tsl_seq_torn; [apply Her; unfold entry_index; lia|rewrite tsl_seq_length; lia|unfold entry_index; lia].
  - intros x Hx. rewrite cut_outside by (unfold in_tsl, entry_index, free_size in *; lia). apply Her. unfold entry_index, free_size in *; lia.
Qed.
Lemma append_cut_runs s blob (Q : Z → T → Prop) :
  represents m k s a → blob_size blob = e_len e →
  (∀ s', works cut_mem (k - (14 + length (e_data e))) s' → ts_unlock (ts_db s') = ulk → Q FDB_NO_ERR s') →
  wp (append_tsl device_table vprintf blob (e_data e) (e_time e)) s Q.
Proof.
  intros (Hw & _ & _ & Hcur & _ & _ & (_ & _ & _ & _ & Hul)) Hbl HQ. unfold cur_is in Hcur. rewrite Hc in Hcur. destruct Hcur as [Hcs _].
  destruct cut_sector as (_ & _ & (_ & _ & Hf & _)). destruct He as (_ & _ & _ & Hpos).
  unfold append_tsl. apply wp_bind. eapply write_tsl_issues; [exact Hw|apply cut_inside|exact Hf|by rewrite Hcs|by rewrite Hcs|exact Hpos|exact Hbl|exact Hfit|].
  intros s' Hw' E'. rewrite decide_False by auto. apply wp_bind, wp_tset, wp_ret. unfold ts_issued in Hw'. rewrite tsl_seq_length in Hw'.
  apply HQ; [by apply works_db|]. cbn [ts_db count_tsl set_ts_last_time set_ts_cur ts_unlock]. by rewrite E'.
Qed.
End Interrupted.
End Cut.
Arguments read_torn_runs {S} {device_table} {vprintf} {p} {size} {cap} {blk} {good} {cell} {budget} {erases} {HP} {ssz}.
Arguments room_runs {S} {device_table} {vprintf} {p} {size} {cap} {blk} {good} {cell} {budget} {erases} {HP} {ssz}.
