(* ===== verification/TsProps.v ===== *)
(** * The properties of the time series store

    The store is the ring of logs of [TsSpec.v] on any flash with the laws of [PartFlash] that has its
    power: appending does what the ring says, a start finds the ring again, and the iterators and
    the query see its entries.  Each theorem is applied to a database of eight sectors in memory. *)
From S2P Require Import Prelude W25qxx W25qxxProps Fal FdbUtils FdbProps KvData KvRead KvFlash KvNode KvBurn KvPower TsData TsDb TsIter TsFlash TsLog TsSector TsAppend TsSpec TsRefine TsVisit TsReverse TsLoad TsTime.

(** A database on a partition: its sectors can be erased one by one and read by the header. *)
Definition sound_sectors (cap blk ssz : Z) : Prop := 40 <= cap ∧ 512 <= ssz ∧ ssz `mod` blk = 0.

Section Properties.
Context {S : Type} (device_table : list (fal_flash_dev S)) (partition_table_def : list fal_partition)
  (vprintf : string → list farg → M S unit) (file_name : string) (stack_sector : tsdb_sec_info)
  (p : nat) (size cap blk : Z) (good : fal_state S → Prop) (cell : fal_state S → Z → Z)
  (budget : fal_state S → nat) (erases : fal_state S → bool)
  `{HP : !PartFlash device_table vprintf p size cap blk good cell budget erases}
  (ssz max_len : Z) (rollover : bool) (lk ulk : option (M (fal_state S) unit)).
#[local] Abbreviation T := (ts_state S).
#[local] Abbreviation works := (works p size good cell budget erases ssz).
#[local] Abbreviation calm := (calm p size good cell budget erases ssz).
#[local] Abbreviation represents := (represents p size good cell budget erases ssz max_len rollover lk ulk).

(** C22. [fdb_tsl_append_with_ts] on a flash that has its power does exactly what the specification [abs_append] says of the ring of
    sectors: a log that is too long or not later than the last one is refused and nothing changes; otherwise the log is
    behind the others, in the current sector or, when that has no room, in the next one, whose logs are lost; without
    rollover the last sector is closed and the database is full.  The flash and the structure in memory represent the new
    ring, and its entries are still in the order of their times. *)
Theorem tsdb_append_refines m k s a older c t data blob :
  sound_sectors cap blk ssz → calm lk → calm ulk → represents m k s a → log_ring a older c →
  is_time t → Forall is_u8 data → (0 < length data)%nat → max_len + 56 <= ssz → blob_size blob = Z.of_nat (length data) →
  (40 + length data ≤ k)%nat →
  wp (fdb_tsl_append_with_ts device_table vprintf blob data t) s (λ r s', ∃ m' k' a' older' c',
    (r, a') = abs_append ssz max_len rollover t data a ∧ represents m' k' s' a' ∧ log_ring a' older' c' ∧
    ((r ≠ FDB_NO_ERR ∧ entries a' = entries a) ∨
     (r = FDB_NO_ERR ∧ ∃ lost kept, entries a = lost ++ kept ∧ entries a' = kept ++ [mk_entry t FDB_TSL_WRITE data] ∧
        (lost = [] ∨ ∃ full, a_secs a !! a_old a = Some full ∧ lost = sec_log full)))).
Proof.
  intros (Hcap & Hssz & Hblk) Hlk Hulk Hr Hring Ht Hu Hpos Hmax Hbl Hk. pose proof Hr as (Hw & _ & _ & _ & _ & _ & (Hinit & _ & _ & Hl & Hul)).
  unfold fdb_tsl_append_with_ts, append_locked. apply wp_bind, wp_gets. rewrite Hinit. cbn [negb]. apply wp_bind.
  eapply ts_lock_runs; [exact Hw|by rewrite Hl|]. intros s1 Hw1 E1. apply wp_bind. assert (represents m k s1 a) as Hr1 by (by eapply represents_db).
  eapply wp_mono; [eapply tsl_append_runs; try done; intros n Hn; by eapply ring_next|].
  intros r s2 (m' & k' & a' & Hspec & Hr2 & _). pose proof Hr2 as (Hw2 & _ & _ & _ & _ & _ & (_ & _ & _ & _ & Hul2)).
  apply wp_bind. eapply ts_unlock_runs; [exact Hw2|by rewrite Hul2|]. intros s3 Hw3 E3. apply wp_ret.
  pose proof (ring_append ssz max_len rollover a older c t data Hring) as Happ. rewrite <-Hspec in Happ. destruct Happ as (older' & c' & Hring' & Hent).
  exists m', k', a', older', c'. split; [done|]. split; [by eapply represents_db|]. split; [done|].
  destruct Hent as [Hent|(Hok & lost & E & Hl' & Hlost)]; [by left|right]. split; [done|].
  exists lost, (take (length (entries a') - 1) (entries a')). split; [done|]. split; [|done].
  destruct (entries a') as [|e l _] using rev_ind; [done|]. rewrite last_snoc in Hl'. injection Hl' as ->.
  by rewrite length_app, Nat.add_sub, take_app_length.
Qed.

(** C24. The start of a database, [fdb_tsdb_init], on a flash that holds a ring of sectors whose current one is not full, when the
    common part of the start, [_fdb_init_ex], succeeds and leaves the flash as it is: it finds that ring again, whatever the
    structure in memory held of it: the sector in use with its free space, the oldest sector and the last time, so all logs survive
    a restart.  The last time is that of the newest log; of a ring without logs the start does not change it, so there the
    structure in memory must already hold it. *)
Theorem tsdb_restart m k s a older c s0 parent' name path time len :
  sound_sectors cap blk ssz → represents m k s a → log_ring a older c → ¬ is_full c →
  wp (_fdb_init_ex device_table partition_table_def (λ msg, vprintf msg []) (ts_parent (ts_db s0)) name path) (ts_fal s0) (λ r f,
    r = (FDB_NO_ERR, parent') ∧ works m k (mk_tss (set_ts_parent parent' (ts_db s0)) f (ts_log_is_show s0))) →
  calm (ts_lock (ts_db s0)) → calm (ts_unlock (ts_db s0)) → len < ssz → (c = SEmpty → ts_last_time (ts_db s0) = a_last a) →
  wp (fdb_tsdb_init device_table partition_table_def vprintf file_name stack_sector name path (Some time) len) s0 (λ r s',
    r = FDB_NO_ERR ∧ TsRefine.represents p size good cell budget erases ssz len true (ts_lock (ts_db s0)) (ts_unlock (ts_db s0)) m k s' a).
Proof.
  intros (Hcap & Hssz & Hblk) (Hw & Hdb & Hh & Hcur & Hold & Hlast & Hopt) Hring Hnf Hex Hlk Hulk Hlen Hl0.
  pose proof Hring as (Hsh & _ & _ & H2 & _).
  eapply (init_runs device_table partition_table_def vprintf file_name stack_sector p size cap blk good cell budget erases ssz Hcap Hssz
    (length (a_secs a)) H2 Hdb m k s0 a older c); try done.
  intros log ->. unfold cur_is in Hcur. rewrite (ring_cur _ _ _ Hsh) in Hcur. by destruct Hcur.
Qed.

(** C25. [fdb_tsl_iter] calls its callback with the logs of the database and nothing else, the oldest first, and
    [fdb_tsl_iter_reverse] the newest first, until the callback ends the iteration; each TSL has the time, the state and the
    length of its log and gives the address where its data are in the flash. *)
Theorem tsdb_iter_in_order {A} (f : fdb_tsl → A → bool * A) m k s a older c arg :
  sound_sectors cap blk ssz → calm lk → calm ulk → represents m k s a → log_ring a older c →
  wp (fdb_tsl_iter device_table vprintf stack_sector (Some (pure_cb f)) arg) s (λ r s',
    represents m k s' a ∧ ∃ ts, Forall2 (reads m) ts (entries a) ∧ r = (fold_stop f ts arg).2) ∧
  wp (fdb_tsl_iter_reverse device_table vprintf stack_sector (Some (pure_cb f)) arg) s (λ r s',
    represents m k s' a ∧ ∃ ts, Forall2 (reads m) ts (reverse (entries a)) ∧ r = (fold_stop f ts arg).2).
Proof. intros (Hcap & Hssz & Hblk) Hlk Hulk Hr Hring. split; [by eapply iter_runs|by eapply reverse_runs]. Qed.

Lemma count_fold st ts arg : is_u32 arg →
  (fold_stop (λ tsl cnt, (false, if decide (tsl_status tsl = st) then u32 (cnt + 1) else cnt)) ts arg).2 =
  u32 (arg + Z.of_nat (length (filter (λ tsl, tsl_status tsl = st) ts))).
Proof.
  revert arg. induction ts as [|x ts IH]; intros arg Ha; [cbn; by rewrite Z.add_0_r, u32_id|]. cbn [fold_stop]. rewrite filter_cons.
  case_decide; rewrite IH by (first [done|apply u32_range]); [|done]. cbn [length]. unfold u32. rewrite Z.add_mod_idemp_l by lia. f_equal. lia.
Qed.
(** C27. [fdb_tsl_query_count] gives the number of the logs of an interval of times that have a state: the binary search of each
    sector, the choice of the sectors and the end of the walk leave out no log and count none twice. *)
Theorem tsdb_query_count m k s a older c from to st :
  sound_sectors cap blk ssz → calm lk → calm ulk → represents m k s a → log_ring a older c → from <= to →
  wp (fdb_tsl_query_count device_table vprintf stack_sector from to st) s (λ r s',
    represents m k s' a ∧
    r = u32 (Z.of_nat (length (filter (λ e, (from <= e_time e <= to) ∧ e_status e = st) (entries a))))).
Proof.
  intros (Hcap & Hssz & Hblk) Hlk Hulk Hr Hring Hft. pose proof Hr as (_ & _ & _ & _ & _ & _ & (Hinit & _)).
  unfold fdb_tsl_query_count. apply wp_bind, wp_gets. rewrite Hinit. cbn [negb].
  eapply wp_mono; [eapply (by_time_runs device_table vprintf stack_sector p size cap blk good cell budget erases ssz Hcap Hssz
    (λ tsl cnt, (false, if decide (tsl_status tsl = st) then u32 (cnt + 1) else cnt)) from to Hft); [exact Hlk|exact Hulk|exact Hr|exact Hring]|].
  intros r s' (Hr' & ts & Hts & ->). split; [exact Hr'|]. rewrite count_fold by (split; lia). rewrite Z.add_0_l. do 2 f_equal.
  revert Hts. generalize (entries a). intros es Hts.
  assert (∀ es ts, Forall2 (reads m) ts es → length (filter (λ tsl, tsl_status tsl = st) ts) = length (filter (λ e, e_status e = st) es)) as Hlen.
  { clear. induction 1 as [|x e ts es (_ & Hx & _) _ IH]; [done|]. rewrite !filter_cons, Hx. case_decide; cbn [length]; by rewrite IH. }
  rewrite (Hlen _ _ Hts). clear. induction es as [|e es IH]; [done|]. rewrite !filter_cons.
  destruct (decide (from <= e_time e <= to)) as [H|H].
  - rewrite filter_cons. destruct (decide (e_status e = st)); [rewrite decide_True by done|rewrite decide_False by tauto]; cbn [length]; by rewrite IH.
  - rewrite decide_False by tauto. exact IH.
Qed.
End Properties.

(** ** A database in memory *)

Definition ts_ssz : Z := 512.
Definition ts_byte (o : Z) : Z := sec_header 0 SEmpty !!! Z.to_nat o.
(** The bytes of a flash of which every sector was formatted. *)
Definition formatted_mem : Z → Z := λ x, if decide (x `mod` ts_ssz < 40) then ts_byte (x `mod` ts_ssz) else 0xFF.
Definition ts_unset : tsdb_sec_info := mk_tsec false 0 0 0 0 0 0 0 0 0 0 0.
Definition ts_ram_parent (ok : bool) : fdb_db := mk_db "tsdb" (Some 0%nat) ts_ssz ram_size ok false.
Definition ts_ram_db : fdb_tsdb ram :=
  mk_tsdb (ts_ram_parent true) false 0 None None (empty_info ts_ssz 0 0 0) 0 (Some (mret 0)) 256 true.
Definition ts_ram : ts_state ram := mk_tss ts_ram_db (ram_fal (mk_ram formatted_mem 100)) true.
Definition ram_fresh : ts_abs := fresh 8.
#[local] Abbreviation ram_represents := (represents 0 ram_size ram_good ram_cell ram_power (λ _, true) ts_ssz 256 true None None).

Lemma formatted_header i : mem_at formatted_mem (base ts_ssz i) (sec_header (base ts_ssz i) SEmpty).
Proof.
  apply mem_at_lookup. intros j b Hj. pose proof (lookup_lt_Some _ _ _ Hj) as Hl. rewrite sec_header_length in Hl.
  unfold formatted_mem. replace (base ts_ssz i + Z.of_nat j) with (Z.of_nat j + Z.of_nat i * ts_ssz) by (unfold base; lia).
  rewrite Z.mod_add, Z.mod_small by (unfold ts_ssz; lia). rewrite decide_True by lia. unfold ts_byte. rewrite Nat2Z.id.
  by apply list_lookup_total_correct.
Qed.
Lemma formatted_body i : body ts_ssz formatted_mem (base ts_ssz i) [].
Proof.
  apply body_empty; [done|]. intros x Hx. unfold formatted_mem.
  assert (x `mod` ts_ssz = x - base ts_ssz i) as ->; [|rewrite decide_False by lia; done].
  symmetry. apply (Z.mod_unique _ _ (Z.of_nat i)); unfold base, ts_ssz in *; lia.
Qed.
Lemma formatted_u8 x : is_u8 (formatted_mem x).
Proof.
  unfold formatted_mem. case_decide as H; [|split; lia]. unfold ts_byte.
  assert (Forall is_u8 (sec_header 0 SEmpty)) as Hall.
  { assert (forallb (λ b, (0 <=? b) && (b <? 256)) (sec_header 0 SEmpty) = true) as Hb by reflexivity.
    rewrite forallb_forall in Hb. apply Forall_forall. intros b Hin. apply list_elem_of_In, Hb in Hin. unfold is_u8. lia. }
  pose proof (Z.mod_pos_bound x ts_ssz ltac:(done)).
  destruct (lookup_lt_is_Some_2 (sec_header 0 SEmpty) (Z.to_nat (x `mod` ts_ssz)) ltac:(rewrite sec_header_length; lia)) as [b Hb].
  rewrite (list_lookup_total_correct _ _ _ Hb). rewrite Forall_lookup in Hall. by eapply Hall.
Qed.
Lemma ram_works (s : ts_state ram) b :
  ts_parent (ts_db s) = ts_ram_parent b → ts_fal s = ram_fal (mk_ram formatted_mem 100) →
  works 0 ram_size ram_good ram_cell ram_power (λ _, true) ts_ssz formatted_mem 100 s.
Proof.
  intros Hp Hf. split; [|done]. split; [|cbn; rewrite Hf; split_and!; try done; intros a; apply u8_id, formatted_u8].
  unfold on_part. cbn. by rewrite Hp.
Qed.
Lemma ram_sound : sound_sectors ram_size ram_blk ts_ssz.
Proof. by split_and!. Qed.
Lemma ram_ring : log_ring ram_fresh [] SEmpty.
Proof. apply (fresh_ring ram_size ts_ssz); [lia|done]. Qed.
Lemma ram_start : ram_represents formatted_mem 100 ts_ram ram_fresh.
Proof.
  split_and!; try done; [by eapply ram_works| |by eexists _, _].
  intros i sec [-> Hi]%lookup_replicate. split; [apply formatted_header|]. split; [apply formatted_body|by left].
Qed.

Definition demo_blob : fdb_blob := mk_blob 3 0 0 0.
Definition demo_log : tsl_entry := mk_entry 5 FDB_TSL_WRITE [1; 2; 3].
Definition ram_one : ts_abs := mk_abs (SUsing [demo_log] :: replicate 7 SEmpty) 0 0 5.
Lemma ram_appended : abs_append ts_ssz 256 true 5 [1; 2; 3] ram_fresh = (FDB_NO_ERR, ram_one).
Proof. reflexivity. Qed.
Lemma ram_one_ring : log_ring ram_one [] (SUsing [demo_log]).
Proof.
  split; [apply (shape_first [] _ 7)|]. split; [by constructor|]. split; [done|]. split; [cbn; lia|].
  split; [by repeat constructor|]. constructor; [cbn; lia|by constructor].
Qed.
(** A state with one log, which the store itself wrote. *)
Lemma ram_with_log : ∃ m k s, ram_represents m k s ram_one.
Proof.
  pose proof (tsl_append_runs ram_devices ram_print 0 ram_size ram_size ram_blk ram_good ram_cell ram_power (λ _, true) ts_ssz
    ltac:(done) ltac:(done) ltac:(done) 256 true None None formatted_mem 100 ts_ram ram_fresh 5 [1; 2; 3] demo_blob ram_start) as H.
  destruct (wp_inv _ _ _ (H (λ n Hn, ring_next _ _ _ _ _ ram_ring Hn) ltac:(unfold is_time; lia) ltac:(repeat constructor; unfold is_u8; lia)
    ltac:(cbn; lia) ltac:(unfold ts_ssz; lia) eq_refl ltac:(cbn; lia))) as (r & s' & _ & m' & k' & a' & Ha & Hr & _).
  rewrite ram_appended in Ha. injection Ha as _ ->. by exists m', k', s'.
Qed.

(** The same with the power for [n] bytes. *)
Lemma ram_limited m k s a n : ram_represents m k s a →
  ram_represents m n (mk_tss (ts_db s) (ram_fal (mk_ram m n)) (ts_log_is_show s)) a.
Proof.
  intros (Hw & H). split; [|exact H]. pose proof (λ x, works_byte m k s x Hw) as Hb. destruct Hw as ((Hp & _) & _).
  split; [|done]. split; [exact Hp|]. split_and!; try done. intros x. apply u8_id, Hb.
Qed.

Lemma tsdb_append_refines_witness :
  wp (fdb_tsl_append_with_ts ram_devices ram_print demo_blob [1; 2; 3] 5) ts_ram (λ r s', ∃ m' k' a' older' c',
    (r, a') = (FDB_NO_ERR, ram_one) ∧ ram_represents m' k' s' a' ∧ log_ring a' older' c' ∧
    ((r ≠ FDB_NO_ERR ∧ entries a' = entries ram_fresh) ∨
     (r = FDB_NO_ERR ∧ ∃ lost kept, entries ram_fresh = lost ++ kept ∧ entries a' = kept ++ [demo_log] ∧
        (lost = [] ∨ ∃ full, a_secs ram_fresh !! a_old ram_fresh = Some full ∧ lost = sec_log full)))).
Proof.
  rewrite <-ram_appended. unfold demo_log.
  refine (tsdb_append_refines ram_devices ram_print 0 ram_size ram_size ram_blk ram_good ram_cell ram_power (λ _, true) ts_ssz 256 true None None
    formatted_mem 100 ts_ram ram_fresh [] SEmpty 5 [1; 2; 3] demo_blob ram_sound I I ram_start ram_ring _ _ _ _ eq_refl _).
  - unfold is_time; lia.
  - repeat constructor; unfold is_u8; lia.
  - cbn; lia.
  - unfold ts_ssz; lia.
  - cbn; lia.
Defined.

(** The structure as the program declares it, before any start. *)
Definition ts_static_db : fdb_tsdb ram := mk_tsdb (mk_db "" None ts_ssz 0 false false) false 0 None None ts_unset 0 None 0 false.
Definition ts_static (m : Z → Z) : ts_state ram := mk_tss ts_static_db (ram_fal (mk_ram m 100)) false.
Lemma tsdb_restart_witness :
  ∃ m, wp (fdb_tsdb_init ram_devices ram_parts ram_print "fdb_tsdb.c" ts_unset "tsdb" "kvdb1" (Some (mret 0)) 256) (ts_static m) (λ r s',
    r = FDB_NO_ERR ∧ ram_represents m 100 s' ram_one).
Proof.
  destruct ram_with_log as (m & k & s & H). exists m. pose proof (ram_limited m k s ram_one 100 H) as H'.
  refine (tsdb_restart ram_devices ram_parts ram_print "fdb_tsdb.c" ts_unset 0 ram_size ram_size ram_blk ram_good ram_cell ram_power (λ _, true)
    ts_ssz 256 true None None m 100 _ ram_one [] (SUsing [demo_log]) (ts_static m) (ts_ram_parent false) "tsdb" "kvdb1" (mret 0) 256
    ram_sound H' ram_one_ring _ _ I I _ _).
  - by intros [].
  - split; [done|]. destruct H' as (((_ & Hg) & He) & _). split; [|exact He]. split; [by split_and!|exact Hg].
  - unfold ts_ssz; lia.
  - done.
Defined.

Lemma tsdb_iter_in_order_witness :
  let collect := λ tsl acc, (false, acc ++ [tsl_time tsl]) in
  ∃ m k s, ram_represents m k s ram_one ∧
    wp (fdb_tsl_iter ram_devices ram_print ts_unset (Some (pure_cb collect)) []) s (λ r s',
      ram_represents m k s' ram_one ∧ ∃ ts, Forall2 (reads m) ts (entries ram_one) ∧ r = (fold_stop collect ts []).2) ∧
    wp (fdb_tsl_iter_reverse ram_devices ram_print ts_unset (Some (pure_cb collect)) []) s (λ r s',
      ram_represents m k s' ram_one ∧ ∃ ts, Forall2 (reads m) ts (reverse (entries ram_one)) ∧ r = (fold_stop collect ts []).2).
Proof.
  intros collect. destruct ram_with_log as (m & k & s & H). exists m, k, s. split; [exact H|].
  exact (tsdb_iter_in_order ram_devices ram_print ts_unset 0 ram_size ram_size ram_blk ram_good ram_cell ram_power (λ _, true) ts_ssz 256 true None None
    collect m k s ram_one [] (SUsing [demo_log]) [] ram_sound I I H ram_one_ring).
Defined.
Lemma tsdb_query_count_witness :
  ∃ m k s, ram_represents m k s ram_one ∧
    wp (fdb_tsl_query_count ram_devices ram_print ts_unset 3 7 FDB_TSL_WRITE) s (λ r s', ram_represents m k s' ram_one ∧ r = 1).
Proof.
  destruct ram_with_log as (m & k & s & H). exists m, k, s. split; [exact H|].
  exact (tsdb_query_count ram_devices ram_print ts_unset 0 ram_size ram_size ram_blk ram_good ram_cell ram_power (λ _, true) ts_ssz 256 true None None
    m k s ram_one [] (SUsing [demo_log]) 3 7 FDB_TSL_WRITE ram_sound I I H ram_one_ring ltac:(lia)).
Defined.
