(* ===== verification/TsPower.v ===== *)
(** * A power cut during an append

    However many bytes of power are left when a log is appended to the current sector, the logs
    before it stay, and the next start finds the database with them; the new log is there whole or
    does not read as a log. *)
From S2P Require Import Prelude W25qxx W25qxxProps Fal FdbUtils FdbProps KvData KvRead KvFlash KvNode KvBurn KvPower TsData TsDb TsIter TsFlash TsLog TsSector TsAppend TsSpec TsRefine TsVisit TsLoad TsTime TsCut TsProps.

Section Power.
Context {S : Type} (device_table : list (fal_flash_dev S)) (partition_table_def : list fal_partition)
  (vprintf : string → list farg → M S unit) (file_name : string) (stack_sector : tsdb_sec_info)
  (p : nat) (size cap blk : Z) (good : fal_state S → Prop) (cell : fal_state S → Z → Z)
  (budget : fal_state S → nat) (erases : fal_state S → bool)
  `{HP : !PartFlash device_table vprintf p size cap blk good cell budget erases}
  (ssz max_len : Z) (rollover : bool) (lk ulk : option (M (fal_state S) unit)).
#[local] Abbreviation T := (ts_state S).
#[local] Abbreviation works := (works p size good cell budget erases ssz).
#[local] Abbreviation calm := (calm p size good cell budget erases ssz).
#[local] Abbreviation represents := (represents p size good cell budget erases ssz max_len rollover lk ulk).
#[local] Abbreviation base := (base ssz).

(** The next start on a flash that holds [m], with power again. *)
Definition found_again (m : Z → Z) (P : fdb_tsdb S → Prop) : Prop := ∀ k s parent' name path time,
  wp (_fdb_init_ex device_table partition_table_def (λ msg, vprintf msg []) (ts_parent (ts_db s)) name path) (ts_fal s) (λ r f,
    r = (FDB_NO_ERR, parent') ∧ works m k (mk_tss (set_ts_parent parent' (ts_db s)) f (ts_log_is_show s))) →
  calm (ts_lock (ts_db s)) → calm (ts_unlock (ts_db s)) →
  wp (fdb_tsdb_init device_table partition_table_def vprintf file_name stack_sector name path (Some time) max_len) s (λ r s',
    r = FDB_NO_ERR ∧ works m k s' ∧ P (ts_db s')).
(** The logs of a database but for the free space of its current sector, in which [log] is. *)
Definition logs_stay (m : Z → Z) (a : ts_abs) (log : list tsl_entry) : Prop :=
  (∀ i sec, i ≠ a_cur a → a_secs a !! i = Some sec → sector_is ssz m (base i) sec) ∧ entries_in ssz m (base (a_cur a)) log.
(** What the start knows of the current sector: [torn] when an index was marked and not finished. *)
Definition after_cut (torn : bool) (a : ts_abs) (log : list tsl_entry) (d : fdb_tsdb S) : Prop :=
  ts_oldest_addr d = base (a_old a) ∧ ts_last_time d = a_last a ∧
  ts_cur_sec d = if torn then torn_info ssz (base (a_cur a)) max_len log else using_info ssz (base (a_cur a)) log.

Lemma torn_restart (torn : bool) m a older log len :
  sound_sectors cap blk ssz → log_ring a older (SUsing log) → in_db size ssz (a_secs a) → a_last a = end_time log → logs_stay m a log →
  (if torn then TsCut.torn ssz m (base (a_cur a)) log len ∧ len <= max_len else sector_is ssz m (base (a_cur a)) (SUsing log)) → max_len < ssz →
  found_again m (after_cut torn a log).
Proof.
  intros (Hcap & Hssz & Hblk) Hring Hdb Hlast (Hoth & Hen) Hcur Hmax k s parent' name path time Hex Hlk Hulk.
  pose proof Hring as (Hsh & _ & _ & H2 & _). pose proof (ring_cur _ _ _ Hsh) as Hc.
  set (info := λ log, if torn then torn_info ssz (base (a_cur a)) max_len log else using_info ssz (base (a_cur a)) log).
  eapply (start_runs device_table partition_table_def vprintf file_name stack_sector p size cap blk good cell budget erases ssz Hssz
    (length (a_secs a)) H2 Hdb m k s a older (SUsing log) info); try done.
  - by intros [].
  - intros i sec old tr s1 Q Hw1 Hml Hsec HQ. pose proof (base_inside size ssz Hssz _ _ Hdb (lookup_lt_Some _ _ _ Hsec)) as Hin.
    destruct (decide (i = a_cur a)) as [->|Hne].
    + assert (sec = SUsing log) as -> by congruence. unfold info in HQ. destruct torn.
      * destruct Hcur as [Ht Hle]. eapply read_torn_runs; [exact Hcap|exact Hssz|exact Hw1|exact Hin|exact Ht|exact Hml|exact Hle|exact Hmax|exact HQ].
      * eapply (read_back_runs device_table vprintf p size cap blk good cell budget erases ssz Hcap Hssz old tr m k _ (a_secs a)); try done.
    + eapply (read_back_runs device_table vprintf p size cap blk good cell budget erases ssz Hcap Hssz old tr m k i (a_secs a)); try done; [by apply Hoth|].
      intros r s2 Hw2 E2. specialize (HQ r s2 Hw2 E2). destruct sec as [|l|l]; try done. by rewrite (ring_using _ _ _ _ _ Hring Hsec) in Hne.
  - intros log' [= <-]. unfold info. by destruct torn.
  - intros d' s' Hw' (_ & Hold & Hcs & Hlt) E. split; [done|]. split; [exact Hw'|]. rewrite E. unfold after_cut. cbn [ts_oldest_addr ts_last_time ts_cur_sec set_ts_parent].
    rewrite Hold, Hlt, Hcs. unfold info. split_and!; [done| |done]. rewrite Hlast. by destruct torn.
Qed.

(** C23. A log is appended to the current sector of a database while the flash has the power for [k] more bytes, any number.  When they are
    enough, the log is appended.  Otherwise no byte of any other log is lost, and the next start succeeds and finds the
    database as it was: at most the index that was begun counts as a log of the greatest length, which is not written. *)
Theorem tsdb_append_power_cut m k s a older log t data blob :
  sound_sectors cap blk ssz → calm lk → calm ulk → represents m k s a → log_ring a older (SUsing log) →
  is_time t → a_last a < t → Forall is_u8 data → 0 < Z.of_nat (length data) <= max_len → max_len < ssz →
  16 + Z.of_nat (length data) <= free_size ssz log → blob_size blob = Z.of_nat (length data) →
  wp (fdb_tsl_append_with_ts device_table vprintf blob data t) s (λ r s', r = FDB_NO_ERR ∧ ∃ m' k', works m' k' s' ∧
    if decide (14 + length data ≤ k)%nat
    then represents m' k' s' (mk_abs (<[a_cur a := SUsing (log ++ [mk_entry t FDB_TSL_WRITE data])]> (a_secs a)) (a_cur a) (a_old a) t)
    else logs_stay m' a log ∧ found_again m' (after_cut (bool_decide (k ≠ 0%nat)) a log)).
Proof.
  intros Hs Hlk Hulk Hr Hring Ht Hlast Hu Hlen Hmax Hfit Hbl. pose proof Hs as (Hcap & Hssz & Hblk).
  pose proof Hr as (Hw & Hdb & Hh & Hcur & _ & _ & (Hinit & _ & _ & Hl & Hul)). pose proof Hring as (Hsh & _). pose proof (ring_cur _ _ _ Hsh) as Hc.
  set (e := mk_entry t FDB_TSL_WRITE data).
  assert (entry_ok e) as He by (unfold e, entry_ok, e_len, FDB_TSL_WRITE; cbn [e_time e_status e_data]; split_and!; try done; lia).
  unfold fdb_tsl_append_with_ts, append_locked. apply wp_bind, wp_gets. rewrite Hinit. cbn [negb]. apply wp_bind.
  eapply ts_lock_runs; [exact Hw|by rewrite Hl|]. intros s1 Hw1 E1. assert (represents m k s1 a) as Hr1 by (by eapply represents_db).
  apply wp_bind. eapply room_runs; [exact Hssz|exact Hr1|exact Hc|exact Hlast|lia|exact Hfit|exact Hbl|]. case_decide as Hk.
  - eapply (append_room_runs device_table vprintf p size cap blk good cell budget erases ssz Hssz max_len rollover lk ulk m k s1 a log e blob); try done.
    intros m' k' s2 Hr2 _. pose proof Hr2 as (Hw2 & _ & _ & _ & _ & _ & (_ & _ & _ & _ & Hul2)).
    apply wp_bind. eapply ts_unlock_runs; [exact Hw2|by rewrite Hul2|]. intros s3 Hw3 E3. apply wp_ret. split; [done|].
    exists m', k'. split; [exact Hw3|]. by eapply represents_db.
  - eapply (append_cut_runs device_table vprintf p size cap blk good cell budget erases ssz Hssz max_len rollover lk ulk m k a log e); try done.
    intros s2 Hw2 Hul2. apply wp_bind. eapply ts_unlock_runs; [exact Hw2|by rewrite Hul2|]. intros s3 Hw3 E3. apply wp_ret. split; [done|].
    eexists _, _. split; [exact Hw3|].
    assert (logs_stay (cut_mem ssz m k a log e) a log) as Hstay by (split; [intros i sec; by eapply ts_cut_others|by eapply cut_entries]).
    split; [exact Hstay|]. unfold cur_is in Hcur. rewrite Hc in Hcur. destruct Hcur as [_ Hend].
    eapply (torn_restart _ _ _ _ _ (e_len e)); [exact Hs|exact Hring|exact Hdb|exact Hend|exact Hstay| |exact Hmax].
    case_bool_decide as Hk0.
    + split; [|unfold e_len; cbn [e_data e]; lia]. eapply cut_torn; try done. cbn [e_data e]. lia.
    + eapply sector_ext; [lia| |exact (Hh _ _ Hc)]. intros x _. apply cut_nothing. destruct (decide (k = 0%nat)); [done|]. by destruct Hk0.
Qed.
End Power.

(** ** A log that gets the power for seven bytes *)

#[local] Abbreviation ram_works_as := (works 0 ram_size ram_good ram_cell ram_power (λ _, true) ts_ssz).
#[local] Abbreviation ram_represents := (represents 0 ram_size ram_good ram_cell ram_power (λ _, true) ts_ssz 256 true None None).
Lemma tsdb_append_power_cut_witness :
  ∃ m s, ram_represents m 7 s ram_one ∧
    wp (fdb_tsl_append_with_ts ram_devices ram_print (mk_blob 2 0 0 0) [4; 5] 20) s (λ r s', r = FDB_NO_ERR ∧ ∃ m' k', ram_works_as m' k' s' ∧
      logs_stay ts_ssz m' ram_one [demo_log] ∧
      found_again ram_devices ram_parts ram_print "fdb_tsdb.c" ts_unset 0 ram_size ram_good ram_cell ram_power (λ _, true) ts_ssz 256 m'
        (after_cut ts_ssz 256 true ram_one [demo_log])).
Proof.
  destruct ram_with_log as (m & k & s & H). eexists m, _. split; [exact (ram_limited m k s ram_one 7 H)|].
  refine (tsdb_append_power_cut ram_devices ram_parts ram_print "fdb_tsdb.c" ts_unset 0 ram_size ram_size ram_blk ram_good ram_cell ram_power (λ _, true)
    ts_ssz 256 true None None m 7 _ ram_one [] [demo_log] 20 [4; 5] (mk_blob 2 0 0 0) ram_sound I I (ram_limited m k s ram_one 7 H) ram_one_ring _ _ _ _ _ _ eq_refl).
  - unfold is_time; lia.
  - cbn; lia.
  - repeat constructor; unfold is_u8; lia.
  - cbn; lia.
  - unfold ts_ssz; lia.
  - done.
Defined.

(** ** What a torn index does to queries *)

Definition repowered (n : nat) (s : ts_state ram) : ts_state ram :=
  mk_tss (ts_db s) (ram_fal (mk_ram (ram_byte (platform (ts_fal s))) n)) (ts_log_is_show s).
Definition rebooted (n : nat) (s : ts_state ram) : ts_state ram := mk_tss ts_static_db (ts_fal (repowered n s)) false.
Definition put (time : Z) (data : list Z) : M (ts_state ram) Z :=
  fdb_tsl_append_with_ts ram_devices ram_print (mk_blob (Z.of_nat (length data)) 0 0 0) data time.
(** A log, one that loses its power, a start, and another log: the number of logs between [from] and [to] then. *)
Definition query_after_cut (from to : Z) : M (ts_state ram) Z :=
  put 5 [1; 2; 3];; mmodify (repowered 7);; put 10 [4; 5];; mmodify (rebooted 100);;
  fdb_tsdb_init ram_devices ram_parts ram_print "fdb_tsdb.c" ts_unset "tsdb" "kvdb1" (Some (mret 0)) 256;;
  put 20 [6];;
  fdb_tsl_query_count ram_devices ram_print ts_unset from to FDB_TSL_WRITE.
(** The torn index reads as time 0, in front of the logs before it: the binary search goes past a log that is stored, and
    the query counts one of the two logs between 3 and 30. *)
Lemma torn_log_hides : match query_after_cut 3 30 ts_ram with Ok r _ => Some r | Fault _ => None end = Some 1.
Proof. vm_compute. reflexivity. Qed.
