(* ===== verification/TsStatus.v ===== *)
(** * The status of a log

    [fdb_tsl_set_status] marks a log in the flash: the database is the same ring of sectors, in which
    the log has the later one of its old and its new status. *)
From Stdlib Require Import Sorted.
From S2P Require Import Prelude W25qxx W25qxxProps Fal FdbUtils FdbProps KvData KvRead KvFlash KvNode KvBurn KvPower TsData TsDb TsIter TsFlash TsLog TsSector TsAppend TsSpec TsRefine TsVisit TsLoad TsTime TsProps.

(** ** Logs that differ in a status *)

Definition with_status (st : nat) (e : tsl_entry) : tsl_entry := mk_entry (e_time e) (Nat.max (e_status e) st) (e_data e).
(** The log of sector [sec] with a new status for entry [j]. *)
Definition sec_mark (j st : nat) (sec : ts_sector) : ts_sector :=
  match sec with
  | SEmpty => SEmpty
  | SUsing log => SUsing (alter (with_status st) j log)
  | SFull log => SFull (alter (with_status st) j log)
  end.
Definition abs_mark (i j st : nat) (a : ts_abs) : ts_abs :=
  mk_abs (alter (sec_mark j st) i (a_secs a)) (a_cur a) (a_old a) (a_last a).

Definition entry_alike (e e' : tsl_entry) : Prop := e_time e = e_time e' ∧ e_data e = e_data e'.
Definition sec_alike (sec sec' : ts_sector) : Prop :=
  match sec, sec' with
  | SEmpty, SEmpty => True
  | SUsing l, SUsing l' | SFull l, SFull l' => Forall2 entry_alike l l'
  | _, _ => False
  end.
#[export] Instance alike_refl : Reflexive entry_alike.
Proof. by intros e. Qed.
Lemma alter_alike j st log : Forall2 entry_alike log (alter (with_status st) j log).
Proof.
  apply Forall2_same_length_lookup. split; [by rewrite length_alter|]. intros i x y Hx Hy.
  destruct (decide (i = j)) as [<-|Hne].
  - rewrite list_lookup_alter_eq, Hx in Hy. by injection Hy as <-.
  - rewrite list_lookup_alter_ne in Hy by done. by simplify_eq.
Qed.
Lemma mark_alike j st sec : sec_alike sec (sec_mark j st sec).
Proof. destruct sec; [done|apply alter_alike..]. Qed.
Lemma secs_alike i j st secs : Forall2 sec_alike secs (alter (sec_mark j st) i secs).
Proof.
  apply Forall2_same_length_lookup. split; [by rewrite length_alter|]. intros n x y Hx Hy.
  destruct (decide (n = i)) as [<-|Hne].
  - rewrite list_lookup_alter_eq, Hx in Hy. injection Hy as <-. apply mark_alike.
  - rewrite list_lookup_alter_ne in Hy by done. rewrite Hx in Hy. injection Hy as <-. by destruct x; cbn.
Qed.
Lemma alike_log sec sec' : sec_alike sec sec' → Forall2 entry_alike (sec_log sec) (sec_log sec').
Proof. by destruct sec, sec'. Qed.
Lemma alike_total l l' : Forall2 entry_alike l l' → log_total l = log_total l'.
Proof. induction 1 as [|e e' l l' [_ He] _ IH]; [done|]. unfold log_total in *. cbn. rewrite IH. unfold e_len. by rewrite He. Qed.
Lemma alike_facts l l' : Forall2 entry_alike l l' → length l = length l' ∧ first_time l = first_time l' ∧ end_time l = end_time l'.
Proof.
  intros H. split; [by eapply Forall2_length|]. split.
  - destruct H as [|e e' l l' [He _]]; done.
  - unfold end_time. destruct l as [|e l _] using rev_ind; [by inversion H|].
    apply Forall2_app_inv_l in H as (l1 & l2 & _ & H2 & ->). inversion H2 as [|? e' ? l2' [He _] H2']; subst. inversion H2'; subst.
    by rewrite !last_snoc.
Qed.
Lemma alike_logs secs secs' : Forall2 sec_alike secs secs' → Forall2 entry_alike (logs secs) (logs secs').
Proof. induction 1 as [|x y l l' H _ IH]; [constructor|]. apply Forall2_app; [by apply alike_log|exact IH]. Qed.
Lemma alike_sorted l l' : Forall2 entry_alike l l' → StronglySorted before l → StronglySorted before l'.
Proof.
  induction 1 as [|x y l l' [Hx _] Hl IH]; [done|]. intros Hs. inversion Hs as [|? ? Hs' Hf]; subst. constructor; [by apply IH|].
  clear -Hx Hl Hf. induction Hl as [|e e' l l' [He _] _ IH]; [constructor|]. inversion Hf; subst. constructor; [|by apply IH].
  unfold before in *. congruence.
Qed.
Lemma alike_before l l' last : Forall2 entry_alike l l' → Forall (λ e, e_time e <= last) l → Forall (λ e, e_time e <= last) l'.
Proof. induction 1 as [|x y l l' [Hx _] Hl IH]; [done|]. intros Hf. inversion Hf; subst. constructor; [congruence|by apply IH]. Qed.
Lemma alike_empties n l : Forall2 sec_alike (replicate n SEmpty) l → l = replicate n SEmpty.
Proof.
  revert l. induction n as [|n IH]; intros l H; inversion H as [|? y ? l' Hy Hl]; subst; [done|].
  destruct y; [|done..]. cbn. f_equal. by apply IH.
Qed.
Lemma alike_full l l' : Forall2 sec_alike l l' → Forall is_full l → Forall is_full l'.
Proof. induction 1 as [|x y l l' Hx _ IH]; [done|]. intros Hf. inversion Hf; subst. constructor; [by destruct x, y|by apply IH]. Qed.
Lemma alike_ring a secs' older c : log_ring a older c → Forall2 sec_alike (a_secs a) secs' →
  ∃ older' c', log_ring (mk_abs secs' (a_cur a) (a_old a) (a_last a)) older' c' ∧ sec_alike c c'.
Proof.
  intros (Hsh & Hfull & Hne & H2 & Hs & Hl) Ha. pose proof (Forall2_length _ _ _ Ha) as Hlen.
  assert (∀ older' c', Forall2 sec_alike older older' → sec_alike c c' → shape (mk_abs secs' (a_cur a) (a_old a) (a_last a)) older' c' →
    ∃ older' c', log_ring (mk_abs secs' (a_cur a) (a_old a) (a_last a)) older' c' ∧ sec_alike c c') as Hring.
  { intros older' c' Ho Hc Hsh'. exists older', c'. split; [|done].
    assert (Forall2 entry_alike (logs older ++ sec_log c) (logs older' ++ sec_log c')) as Hlogs
      by (apply Forall2_app; [by apply alike_logs|by apply alike_log]).
    split_and!; [done|by eapply alike_full| |cbn; lia|by eapply alike_sorted|by eapply alike_before].
    intros ->. destruct c; [|done..]. rewrite (Hne eq_refl) in Ho. by inversion Ho. }
  destruct Hsh as [front c n last|front c back last Hb]; cbn [a_secs a_cur a_old a_last] in *;
    apply Forall2_app_inv_l in Ha as (front' & rest & Hf & Hr & ->); inversion Hr as [|? c' ? back' Hc Hb']; subst;
    rewrite (Forall2_length _ _ _ Hf) in *.
  - apply alike_empties in Hb' as ->. apply (Hring front' c'); [done|done|apply shape_first].
  - apply (Hring (back' ++ front') c'); [by apply Forall2_app|done|]. apply shape_wrapped. intros ->. by inversion Hb'.
Qed.

(** The entries of the database, of which one changed. *)
Lemma logs_mark rot n sec j st e : rot !! n = Some sec → sec_log sec !! j = Some e →
  ∃ l1 l2, logs rot = l1 ++ e :: l2 ∧ logs (<[n := sec_mark j st sec]> rot) = l1 ++ with_status st e :: l2.
Proof.
  intros Hn He. pose proof (lookup_lt_Some _ _ _ Hn) as Hlt.
  assert (sec_log (sec_mark j st sec) = take j (sec_log sec) ++ with_status st e :: drop (1 + j) (sec_log sec)) as Hm.
  { destruct sec as [|log|log]; [by destruct j| |]; cbn [sec_mark sec_log] in *;
      (rewrite <-(take_drop_middle _ _ _ He) at 1; pose proof (lookup_lt_Some _ _ _ He); rewrite alter_app_r_alt by (rewrite length_take; lia);
       rewrite length_take_le, Nat.sub_diag by lia; done). }
  exists (logs (take n rot) ++ take j (sec_log sec)), (drop (1 + j) (sec_log sec) ++ logs (drop (1 + n) rot)). split.
  - rewrite <-(take_drop_middle _ _ _ Hn) at 1. rewrite logs_app. change (logs (sec :: ?l)) with (sec_log sec ++ logs l).
    rewrite <-(take_drop_middle _ _ _ He) at 1. by rewrite <-!app_assoc.
  - rewrite insert_take_drop by done. rewrite logs_app. change (logs (?x :: ?l)) with (sec_log x ++ logs l). rewrite Hm. by rewrite <-!app_assoc.
Qed.
Lemma entries_mark a i j st sec e : (a_old a < length (a_secs a))%nat → a_secs a !! i = Some sec → sec_log sec !! j = Some e →
  ∃ l1 l2, entries a = l1 ++ e :: l2 ∧ entries (abs_mark i j st a) = l1 ++ with_status st e :: l2.
Proof.
  intros Ho Hi He. pose proof (lookup_lt_Some _ _ _ Hi) as Hlt. unfold entries, abs_mark. cbn [a_secs a_old].
  assert (alter (sec_mark j st) i (a_secs a) = <[i := sec_mark j st sec]> (a_secs a)) as ->.
  { apply list_eq. intros n. destruct (decide (n = i)) as [->|Hne].
    - by rewrite list_lookup_alter_eq, list_lookup_insert_eq, Hi.
    - by rewrite list_lookup_alter_ne, list_lookup_insert_ne. }
  destruct (decide (i < a_old a)%nat) as [Hlo|Hhi].
  - rewrite drop_insert_lt by done. rewrite take_insert_lt by done.
    assert (drop (a_old a) (a_secs a) ++ <[i := sec_mark j st sec]> (take (a_old a) (a_secs a)) =
      <[length (drop (a_old a) (a_secs a)) + i := sec_mark j st sec]> (drop (a_old a) (a_secs a) ++ take (a_old a) (a_secs a)))%nat as ->
      by (by rewrite insert_app_r).
    apply logs_mark; [|done]. rewrite lookup_app_r by lia. rewrite Nat.add_sub_swap, Nat.sub_diag by lia. rewrite lookup_take_lt by done. exact Hi.
  - rewrite drop_insert_ge by lia. rewrite take_insert_ge by lia.
    assert (<[i - a_old a := sec_mark j st sec]> (drop (a_old a) (a_secs a)) ++ take (a_old a) (a_secs a) =
      <[i - a_old a := sec_mark j st sec]> (drop (a_old a) (a_secs a) ++ take (a_old a) (a_secs a)))%nat as ->
      by (rewrite insert_app_l by (rewrite length_drop; lia); done).
    apply logs_mark; [|done]. rewrite lookup_app_l by (rewrite length_drop; lia). rewrite lookup_drop. by replace (a_old a + (i - a_old a))%nat with i by lia.
Qed.

Section Status.
Context {S : Type} (device_table : list (fal_flash_dev S)) (vprintf : string → list farg → M S unit)
  (p : nat) (size cap blk : Z) (good : fal_state S → Prop) (cell : fal_state S → Z → Z)
  (budget : fal_state S → nat) (erases : fal_state S → bool)
  `{HP : !PartFlash device_table vprintf p size cap blk good cell budget erases}
  (ssz max_len : Z) (rollover : bool) (lk ulk : option (M (fal_state S) unit)).
#[local] Abbreviation T := (ts_state S).
#[local] Abbreviation represents := (represents p size good cell budget erases ssz max_len rollover lk ulk).
#[local] Abbreviation base := (base ssz).

Lemma mark_header b j st sec : sec_header b (sec_mark j st sec) = sec_header b sec.
Proof.
  destruct sec as [|log|log]; [done| |]; destruct (alike_facts _ _ (alter_alike j st log)) as (Hl & Hf & He);
    cbn [sec_mark sec_header]; unfold end_index; by rewrite <-?Hf, <-?He, <-?Hl.
Qed.
Lemma mark_log j st sec : sec_log (sec_mark j st sec) = alter (with_status st) j (sec_log sec).
Proof. by destruct sec, j. Qed.
Lemma alter_total j st log i : log_total (take i (alter (with_status st) j log)) = log_total (take i log).
Proof. symmetry. apply alike_total, Forall2_take, alter_alike. Qed.
Lemma alter_free j st log : free_size ssz (alter (with_status st) j log) = free_size ssz log.
Proof. unfold free_size. by rewrite length_alter, (alike_total _ _ (alter_alike j st log)). Qed.
Lemma alter_ok j st log : (st < 6)%nat → Forall entry_ok log → Forall entry_ok (alter (with_status st) j log).
Proof.
  intros Hst H. apply Forall_alter; [done|]. intros e _ (H1 & H2 & H3 & H4). split_and!; try done; cbn; lia.
Qed.
(** The byte of the status is all that changes. *)
Lemma mark_sector m m' b sec j st e : 512 <= ssz →
  sector_is ssz m b sec → sec_log sec !! j = Some e → (st < 6)%nat →
  m' (entry_index b j) = status_byte (Nat.max (e_status e) st) → only (entry_index b j) 1 m m' →
  sector_is ssz m' b (sec_mark j st sec).
Proof.
  intros Hssz (Hm & (Hok & Hen & Hf & Her) & Hne) He Hst Hb Ho. pose proof (lookup_lt_Some _ _ _ He) as Hj. pose proof (total_nonneg (sec_log sec)).
  split; [rewrite mark_header; eapply only_mem; [exact Ho|exact Hm|rewrite sec_header_length; unfold entry_index; lia]|].
  split; [|destruct sec as [|log|log]; [by left|right; cbn in *..]; by destruct log, j].
  unfold body. rewrite mark_log, length_alter, alter_free. split; [by apply alter_ok|]. split_and!; [|done|].
  - intros i e' Hi. assert (∃ e0, sec_log sec !! i = Some e0 ∧ e' = if decide (i = j) then with_status st e0 else e0) as (e0 & He0 & ->).
    { destruct (decide (i = j)) as [->|Hne'].
      - rewrite list_lookup_alter_eq, He in Hi. injection Hi as <-. by exists e.
      - rewrite list_lookup_alter_ne in Hi by done. by exists e'. }
    destruct (Hen _ _ He0) as [H1 H2]. destruct (log_space _ _ _ _ Hok He0 Hf) as (Ht & Hn & Hp & Hs).
    unfold entry_at, entry_log. rewrite alter_total. pose proof (lookup_lt_Some _ _ _ He0).
    pose proof (total_split _ _ _ He0). pose proof (total_nonneg (drop (1 + i) (sec_log sec))).
    assert (mem_at m' (b + ssz - log_total (take (1 + i) (sec_log sec))) (e_data e0)) as Hdat.
    { eapply only_mem; [exact Ho|exact H2|]. unfold entry_index, e_len in *. lia. }
    destruct (decide (i = j)) as [->|Hne']; [|split; [|exact Hdat]; eapply only_mem; [exact Ho|exact H1|rewrite entry_bytes_length; unfold entry_index; lia]].
    assert (e0 = e) as -> by congruence. cbn [with_status e_status e_time e_data]. split; [|exact Hdat].
    change (e_len (with_status st e)) with (e_len e). unfold entry_bytes in *. apply mem_at_app in H1 as [H1a H1b]. apply mem_at_app. split.
    + apply mem_at_lookup. rewrite mem_at_lookup in H1a. intros n x Hx. destruct n as [|n]; [injection Hx as <-; by rewrite Z.add_0_r|].
      rewrite Ho by lia. by apply H1a.
    + eapply only_mem; [exact Ho|exact H1b|cbn [length]; lia].
  - eapply only_erased; [exact Ho|exact Her|unfold entry_index; lia].
Qed.
(** The structure in memory does not know the states. *)
Lemma mark_cur i j st a (d : fdb_tsdb S) : cur_is ssz d a → cur_is ssz d (abs_mark i j st a).
Proof.
  unfold cur_is, abs_mark. cbn [a_secs a_cur a_last]. destruct (decide (a_cur a = i)) as [->|Hne]; [|by rewrite list_lookup_alter_ne].
  rewrite list_lookup_alter_eq. destruct (a_secs a !! i) as [[|log|log]|]; try done; cbn [fmap option_fmap option_map sec_mark];
    destruct (alike_facts _ _ (alter_alike j st log)) as (Hl & Hf & He); unfold using_info, end_index;
    by rewrite alter_free, <-Hl, <-Hf, <-He, <-(alike_total _ _ (alter_alike j st log)).
Qed.

(** C26. [fdb_tsl_set_status] on a log of the database, as an iterator gives it, gives the log the later one of its old and its new status,
    which programming cannot take back: the flash and the structure in memory represent the ring with that log
    changed, and nothing else of it. *)
Theorem tsdb_set_status m k s a older c i sec j e st :
  sound_sectors cap blk ssz → represents m k s a → log_ring a older c →
  a_secs a !! i = Some sec → sec_log sec !! j = Some e → (0 < st < 6)%nat → (1 ≤ k)%nat →
  wp (fdb_tsl_set_status device_table vprintf (tsl_of ssz (base i) (sec_log sec) j e) st) s (λ r s', r = FDB_NO_ERR ∧
    ∃ m' older' c', represents m' (k - 1) s' (abs_mark i j st a) ∧ log_ring (abs_mark i j st a) older' c' ∧
    ∃ l1 l2, entries a = l1 ++ e :: l2 ∧
      entries (abs_mark i j st a) = l1 ++ mk_entry (e_time e) (Nat.max (e_status e) st) (e_data e) :: l2).
Proof.
  intros (Hcap & Hssz & Hblk) (Hw & Hdb & Hh & Hcur & Hold & Hlast & Hopt) Hring Hi He Hst Hk.
  pose proof (base_inside size ssz Hssz _ _ Hdb (lookup_lt_Some _ _ _ Hi)) as [Hb Hbs]. pose proof (Hh _ _ Hi) as Hs.
  pose proof Hs as (_ & (Hok & Hen & Hf & _) & _). destruct (log_space _ _ _ _ Hok He Hf) as (Htk & Hn & Hp & Hsp).
  pose proof (lookup_lt_Some _ _ _ He) as Hj. destruct (ring_bounds _ _ _ Hring) as [_ Hob]. destruct (Hen _ _ He) as [Hbytes _].
  assert (m (entry_index (base i) j) = status_byte (e_status e)) as Hm.
  { rewrite mem_at_lookup in Hbytes. rewrite <-(Z.add_0_r (entry_index _ _)). by apply (Hbytes 0%nat). }
  assert (e_status e < 6)%nat as Hes by (rewrite Forall_lookup in Hok; apply Hok in He as (_ & ? & _); lia).
  unfold fdb_tsl_set_status. cbn [tsl_index tsl_of].
  eapply ts_status_runs; [exact Hw|unfold entry_index in *; lia|unfold entry_index in *; lia|unfold FDB_TSL_STATUS_NUM; lia|unfold FDB_TSL_STATUS_NUM; lia|done|].
  intros s' Hw' E. split; [done|]. set (m' := programmed _ _ m) in *.
  assert (only (entry_index (base i) j) 1 m m') as Ho by apply (programmed_only _ [_]).
  assert (m' (entry_index (base i) j) = status_byte (Nat.max (e_status e) st)) as Hm'.
  { unfold m', programmed. cbn [length]. rewrite decide_True, Z.sub_diag by lia. cbn. rewrite Hm.
    destruct (decide (e_status e ≤ st)%nat); [rewrite Nat.max_r by lia; apply status_byte_land; lia|].
    rewrite Nat.max_l, Z.land_comm by lia. apply status_byte_land. lia. }
  destruct (alike_ring a _ older c Hring (secs_alike i j st (a_secs a))) as (older' & c' & Hring' & _).
  exists m', older', c'. split; [|split; [exact Hring'|by eapply entries_mark]].
  split_and!; try (by rewrite E); [exact Hw'| | |by rewrite E; apply mark_cur].
  - unfold in_db, abs_mark. cbn [a_secs]. by rewrite length_alter.
  - assert (alter (sec_mark j st) i (a_secs a) = <[i := sec_mark j st sec]> (a_secs a)) as Ha.
    { apply list_eq. intros n. destruct (decide (n = i)) as [->|Hne].
      - by rewrite list_lookup_alter_eq, list_lookup_insert_eq, Hi by (by eapply lookup_lt_Some).
      - by rewrite list_lookup_alter_ne, list_lookup_insert_ne. }
    unfold abs_mark. cbn [a_secs]. rewrite Ha. eapply holds_insert; [exact Hssz|exact Hh| |by eapply mark_sector; [..|lia|exact Hm'|exact Ho]].
    eapply only_wide; [exact Ho|unfold entry_index in *; lia..].
Qed.
End Status.

Lemma tsdb_set_status_witness :
  ∃ m s, represents 0 ram_size ram_good ram_cell ram_power (λ _, true) ts_ssz 256 true None None m 1 s ram_one ∧
    wp (fdb_tsl_set_status ram_devices ram_print (tsl_of ts_ssz 0 [demo_log] 0 demo_log) FDB_TSL_DELETED) s (λ r s', r = FDB_NO_ERR ∧
      ∃ m' older' c', represents 0 ram_size ram_good ram_cell ram_power (λ _, true) ts_ssz 256 true None None m' 0 s' (abs_mark 0 0 FDB_TSL_DELETED ram_one) ∧
      log_ring (abs_mark 0 0 FDB_TSL_DELETED ram_one) older' c' ∧
      ∃ l1 l2, entries ram_one = l1 ++ demo_log :: l2 ∧ entries (abs_mark 0 0 FDB_TSL_DELETED ram_one) = l1 ++ mk_entry 5 FDB_TSL_DELETED [1; 2; 3] :: l2).
Proof.
  destruct ram_with_log as (m & k & s & H). eexists m, _. split; [exact (ram_limited m k s ram_one 1 H)|].
  refine (tsdb_set_status ram_devices ram_print 0 ram_size ram_size ram_blk ram_good ram_cell ram_power (λ _, true) ts_ssz 256 true None None
    m 1 _ ram_one [] (SUsing [demo_log]) 0 (SUsing [demo_log]) 0 demo_log FDB_TSL_DELETED ram_sound (ram_limited m k s ram_one 1 H) ram_one_ring eq_refl eq_refl _ _);
    unfold FDB_TSL_DELETED; lia.
Defined.
